(* ===== verification/_CoqProject ===== *)
-Q . S2P
Prelude.v
Mem.v
Strings.v
State.v
Machine.v
Smp.v
Mm.v
PageTable.v
MmAlloc.v
MmMap.v
MmUser.v
MmUvm.v
MmInit.v
MmTheorems.v
UserTable.v
MmCopy.v
MmFree.v
UserSpace.v
Proc.v
Sync.v
Console.v
Virtio.v
Buf.v
Log.v
Inode.v
Pipe.v
File.v
Fork.v
Exec.v
Sysfile.v
Trap.v
Asm.v
Boot.v
Mkfs.v
ULib.v
UProgs.v
Shell.v
Ring.v
PrintkTheorems.v
ULibTheorems.v
UHeap.v
ShellTheorems.v
ShellLex.v
ShellRun.v
FsData.v
MkfsTheorems.v
ProcTheorems.v
Env.v
PipeTheorems.v
ConsoleTheorems.v
VirtioTheorems.v
DiskIntr.v
BufList.v
BufCache.v
BufOps.v
LogOps.v
LogTheorems.v
LogWrite.v
InodeRead.v
InodeTable.v
InodeDir.v
BlockMap.v
InodeAlloc.v
InodeWrite.v
FileTheorems.v
AsmTheorems.v
AsmSwitch.v
AsmExample.v
SysCall.v
FsBoot.v
ImageRead.v
FsExample.v
PipeExample.v
PrintfTheorems.v
FileExample.v
