(* ===== verification/Prelude.v ===== *)
(** * Verification of the oskernel RISC-V kernel

    The program is a small Unix-like kernel for RISC-V (src/kernel, with its
    headers in src/include), the user programs that run on it (src/user) and
    the tool that writes its disk image (src/tools).  The development
    translates the C code into executable definitions, function by function,
    and proves what the parts promise to each other.

    ** How the code is represented

    - Integers are [Z]; [u8], [u32], [u64], [s32], [s64] write out the
      wrap-around of the C types (this file).
    - Code is a function of the monad [K C S]: from a state to an outcome,
      which is a result with a new state ([Ok]), a call of the C function
      panic ([Panic]), a switch to the scheduler ([Sleep p s k]: process [p]
      gives up the hart in [s], and continues with [k] from the state it is
      given back), or an execution that does not go on ([Stuck]: out of the
      array or undefined in C, waiting for ever on a lock, out of fuel, or a
      machine that has been stopped).
    - The kernel's globals are the record [kstate] (State.v): the byte memory
      with the page tables and the free list in it, the hart with its sstatus
      and cpu structures, the spin and sleep locks, the process table, the
      buffers, log, inodes, files and pipes, the console and UART rings, the
      disk driver's rings, the disk, and what has been done to the UART.  Table entries are named by their
      index, pages by their address.
    - A loop that the C code bounds has that bound; a loop that it does not
      (waiting for a device or for another process, a list) takes [rounds] of
      the class [Rounds], and the theorems say how many rounds are enough.
      Running out of them is an outcome of its own, so that [runs m s Q] and
      [eruns R m s Q] (total correctness, the second also across sleeping)
      include termination.
    - Device registers and the firmware's shutdown call are the class [Device];
      the behaviour of the disk and of the UART are the classes [BlkDevice] and
      [UartDevice], which the examples instantiate.  The transmitter of the UART
      may be busy after each byte, for a bounded number of polls.  For user
      programs the kernel is the class [Os]; [HeapOs] is what [sbrk] promises.

    ** The parts and their files

    - lib/string.c, types and little-endian memory: Mem.v; theorems in
      Strings.v (copies between overlapping regions).
    - sched/cpu.c and the spin locks of lock.c: Machine.v for one hart, with
      the discipline of acquire and release in ProcTheorems.v; Smp.v runs the
      same code under every interleaving of the harts (mutual exclusion), and
      the sequential model refines it.
    - mm/mm.c: Mm.v.  PageTable.v defines the translation of the hardware and
      the well-formedness of page tables and of the free list; MmAlloc.v,
      MmMap.v, MmUser.v, MmUvm.v and MmInit.v prove the allocator, mapping,
      copies to and from user memory, growing and shrinking, and the start-up;
      MmTheorems.v states the results against the translation; UserTable.v is
      about the table of a new process, MmCopy.v about the copy that a fork
      makes, MmFree.v about the release of a table, and UserSpace.v composes the
      three.
    - sched/proc.c, dev/timer.c and the sleep locks: Proc.v, Sync.v, Fork.v;
      ProcTheorems.v (wake_up, kill, process identifiers, sched) and Env.v
      (the calls of a process that may sleep).
    - dev/uart.c, dev/console.c and printk.c: Console.v; PrintkTheorems.v
      (numbers read back), ConsoleTheorems.v (the console is a line editor,
      and the bytes that printk sends).
    - dev/virtio_disk.c: Virtio.v; VirtioTheorems.v proves the driver against
      the interface [Disk], and DiskIntr.v implements that interface by the
      device, the interrupt handler and the scheduler.
    - fs/buf.c: Buf.v; BufList.v (the linked list), BufCache.v (the invariant:
      a coherent cache of the disk) and BufOps.v (the operations).
    - fs/log.c and fs/fs.c: Log.v; LogOps.v (the writes of each step, in
      order), LogTheorems.v (commit and recovery are safe against a crash
      after any of their writes), LogWrite.v (a whole transaction).
    - fs/inode.c: Inode.v; FsData.v (inodes in blocks, bitmaps, paths),
      InodeRead.v (reading), InodeTable.v (references and locks), InodeDir.v
      (directories and the walk along a path), BlockMap.v and InodeAlloc.v
      (the bitmap and the blocks of a file) and InodeWrite.v (writing).
    - fs/pipe.c and fs/file.c: Pipe.v, File.v; Ring.v and PipeTheorems.v (a
      pipe is a queue), FileTheorems.v (a write to a file is one transaction).
    - fs/exec.c, syscall/*.c, trap/trap.c and dev/plic.c: Exec.v, Sysfile.v,
      Trap.v, with the initialisation of boot/main.c.
    - trap/trap_vector.S, sched/switch.S, boot/entry.S, user/usys.S and the
      machine code of the first process: Asm.v, as lists of instructions with
      their effect on the registers and the memory of a hart; AsmTheorems.v
      (traps from user space), AsmSwitch.v (traps from the kernel, context
      switches, the first process) and SysCall.v (a system call from the stub
      to the handler and back).
    - boot/start.c and boot/main.c: Boot.v, where [main] on all harts is a step
      relation.
    - tools/mkfs.c: Mkfs.v; MkfsTheorems.v (every file is found in the image
      with its bytes), FsBoot.v (the kernel boots from that image) and
      ImageRead.v (and reads the files back by their paths).
    - user/ulib.c, the programs and user/sh.c: ULib.v, UProgs.v, Shell.v;
      ULibTheorems.v (formatted output, strstr), PrintfTheorems.v (printf writes
      the bytes that printk sends), UHeap.v (malloc and free), ShellTheorems.v
      (the tokens and arguments of a line), ShellLex.v (the tokeniser ends on
      every line) and ShellRun.v (the line runs its program).
    - FsExample.v, PipeExample.v, FileExample.v and AsmExample.v apply the
      theorems to concrete machines, whose invariants are decided by
      computation.

    ** What the theorems show

    - Crash safety: commit is atomic and recovery idempotent after any prefix
      of their disk writes; an operation leaves exactly its change on the disk;
      a write to a file is durable when it returns, and after a crash it is
      there as a whole or not at all.
    - Memory: mapping, unmapping, growing and shrinking change exactly the
      translations they should, undo what they did on failure, and keep the
      page tables and the free list well-formed and disjoint; growing accounts
      for every page that was free, and fails only when they do not suffice;
      copies to the user write the bytes asked for and no other byte; the child of a fork has
      its parent's memory in pages of its own, and a process that ends gives
      every page back, once.
    - Registers: a trap, an interrupt of the kernel and a context switch keep
      the registers of the code that they suspend; a system call whose function
      returns to the process, with its page table and trap frame as they were,
      changes [a0] and [a7] only.
    - Starting: the kernel is initialised once, by one hart, before the others
      run, and every interleaving of the harts ends in the scheduler, within
      26 steps for three harts; the first process executes /init.
    - Refinement: pipes are queues, the console is a line editor, the buffer
      cache shows the disk, the free list is a stack, the walk along a path
      follows the directories of the disk, the sequential lock is a run of the
      concurrent one.
    - Composition: the image of mkfs boots and its files are read back; what is
      written through one descriptor is read through another; the driver, its
      interrupt handler and the scheduler together complete a transfer; a
      system call goes from the stub through the vectors and the handlers and
      back; a line of the shell becomes a call of execve with its words.
    - Errors: the theorems on code that does not do what it means to do are
      stated as such ([pid_alloc_never_returns], [copy_str_in_never_ends],
      [log_capacity], [sched_resume], [pipe_read_loses], [shell_cuts_at_2],
      [file_write_too_long], [console_delete_wraps]).

    ** Not modelled

    - A context switch in the C code is an outcome of the monad, and a trap
      starts in the C handler; the assembly in between is about one hart with
      its registers, and the theorems on it say what the C code relies on.
    - The time and fence instructions and the firmware call for the timer, which
      have no kernel state.  The calls that start a hart and that stop the machine
      are parameters.
    - What happens inside of the initialisation in the step relation of Boot.v:
      [boot_hart] and [boot_other_hart] (Trap.v) are one step each there, which
      returns, and the harts see one memory.
    - The text that panic and mkfs print; reading and writing of the host's
      files by mkfs (a file is its bytes, and reading it does not fail).
    - More than one hart outside of Smp.v and Boot.v: the theorems on the other parts are
      about one process at a time on one hart, with what happens while it
      sleeps as the relation [env]. *)

From Stdlib Require Export ZArith Lia.
From stdpp Require Export prelude gmap strings.

Global Open Scope Z_scope.
Global Set Default Goal Selector "1".
Global Set Warnings "-clear-no-such-hyp".

(** ** Machine integers: a [w]-bit C integer is a [Z] with its wrap-around. *)

(** Conversion to an unsigned [w]-bit type. *)
Definition wrap (w x : Z) : Z := x mod 2 ^ w.

(** Conversion to a signed (two's complement) [w]-bit type. *)
Definition swrap (w x : Z) : Z := (x + 2 ^ (w - 1)) mod 2 ^ w - 2 ^ (w - 1).

Abbreviation u8 := (wrap 8).
Abbreviation u16 := (wrap 16).
Abbreviation u32 := (wrap 32).
Abbreviation u64 := (wrap 64).
Abbreviation s32 := (swrap 32).
Abbreviation s64 := (swrap 64).

Lemma swrap_small w x : 0 < w → - 2 ^ (w - 1) ≤ x < 2 ^ (w - 1) → swrap w x = x.
Proof.
  intros Hw Hx. unfold swrap.
  assert (2 ^ w = 2 * 2 ^ (w - 1)) as E.
  { replace w with (1 + (w - 1)) at 1 by lia. by rewrite Z.pow_add_r by lia. }
  rewrite Z.mod_small; lia.
Qed.

Lemma wrap_small w x : 0 ≤ x < 2 ^ w → wrap w x = x.
Proof. apply Z.mod_small. Qed.

Lemma swrap_wrap w x : 0 < w → - 2 ^ (w - 1) ≤ x < 2 ^ (w - 1) → swrap w (wrap w x) = x.
Proof.
  intros Hw Hx. rewrite <-(swrap_small w x Hw Hx) at 2. unfold swrap, wrap.
  by rewrite Zplus_mod_idemp_l.
Qed.

(** ** The kernel monad *)

(** Why an execution makes no progress without having panicked. *)
Inductive reason :=
| OutOfFuel   (* the model's bound on a loop was reached *)
| SpinForever (* a busy-wait loop that this hart alone cannot leave *)
| PoweredOff  (* the firmware has stopped the machine *)
| Undefined.  (* an access the C standard leaves undefined *)

(** The result of running kernel code from a state.  [Sleep c s k] is a switch
    to the scheduler by process [c]: the state is [s] when it gives up its
    hart, and [k s'] is the rest of its execution if it is resumed in [s']. *)
Inductive outcome (C S A : Type) : Type :=
| Ok (a : A) (s : S)
| Panic (msg : string) (s : S)
| Sleep (c : C) (s : S) (k : S → outcome C S A)
| Stuck (r : reason).
Arguments Ok {C S A} a s.
Arguments Panic {C S A} msg s.
Arguments Sleep {C S A} c s k.
Arguments Stuck {C S A} r.

Definition K (C S A : Type) : Type := S → outcome C S A.

Fixpoint obind {C S A B} (o : outcome C S A) (f : A → K C S B) : outcome C S B :=
  match o with
  | Ok a s => f a s
  | Panic msg s => Panic msg s
  | Sleep c s k => Sleep c s (λ s', obind (k s') f)
  | Stuck r => Stuck r
  end.

#[export] Instance K_bind {C S} : MBind (K C S) := λ A B f m s, obind (m s) f.
#[export] Instance K_ret {C S} : MRet (K C S) := λ A a s, Ok a s.

Definition get {C S} : K C S S := λ s, Ok s s.
Definition gets {C S A} (f : S → A) : K C S A := λ s, Ok (f s) s.
Definition modify {C S} (f : S → S) : K C S unit := λ s, Ok tt (f s).
Definition panic {C S A} (msg : string) : K C S A := λ s, Panic msg s.
Definition stuck {C S A} (r : reason) : K C S A := λ _, Stuck r.
Definition sleep {C S} (c : C) : K C S unit := λ s, Sleep c s (λ s', Ok tt s').

Definition when {C S} (b : bool) (m : K C S unit) : K C S unit :=
  if b then m else mret tt.

(** [loop fuel body l] runs [body] on the locals [l] until it answers [inr r]
    (a [break] or [return] with [r]); [inl l'] goes round again with [l']. *)
Fixpoint loop {C S L R} (fuel : nat) (body : L → K C S (L + R)) (l : L) : K C S R :=
  match fuel with
  | O => stuck OutOfFuel
  | Datatypes.S n =>
      x ← body l;
      match x with
      | inl l' => loop n body l'
      | inr r => mret r
      end
  end.

(** The rounds given to the loops of the code that wait for another process
    or for a device; the code does not bound them. *)
Class Rounds := rounds : nat.

(** [for (x in l) f(x);] *)
Fixpoint kiter {C S A} (l : list A) (f : A → K C S unit) : K C S unit :=
  match l with
  | [] => mret tt
  | x :: l' => f x;; kiter l' f
  end.

(** [for (x in l) { ... return r; ... }]: the first answer, if any. *)
Fixpoint kfirst {C S A R} (l : list A) (f : A → K C S (option R)) : K C S (option R) :=
  match l with
  | [] => mret None
  | x :: l' =>
      r ← f x;
      match r with
      | Some y => mret (Some y)
      | None => kfirst l' f
      end
  end.

(** ** Total correctness: [runs m s Q], [m] run from [s] returns (it neither
    panics, sleeps nor gets stuck) and [Q] holds of its result and final state. *)
Definition runs {C S A} (m : K C S A) (s : S) (Q : A → S → Prop) : Prop :=
  ∃ a s', m s = Ok a s' ∧ Q a s'.

(** The first [k] rounds of a loop. *)
Fixpoint unroll {C S L R} (k : nat) (body : L → K C S (L + R)) (l : L) : K C S (L + R) :=
  match k with
  | O => mret (inl l)
  | Datatypes.S k =>
      x ← body l;
      match x with
      | inl l' => unroll k body l'
      | inr r => mret (inr r)
      end
  end.

(** The state and the result of a run that returns. *)
Definition final {C S A} (o : outcome C S A) (d : S) : S :=
  match o with Ok _ s => s | _ => d end.
Definition answer {C S A} (o : outcome C S A) : option A :=
  match o with Ok a _ => Some a | _ => None end.

Section runs.
Context {C S : Type}.

Lemma K_bind_eq {A B} (m : K C S A) (f : A → K C S B) s :
  (m ≫= f) s = obind (m s) f.
Proof. done. Qed.

Lemma bind_ok {A B} (m : K C S A) (f : A → K C S B) s a s' :
  m s = Ok a s' → (m ≫= f) s = f a s'.
Proof. intros H. by rewrite K_bind_eq, H. Qed.

Lemma bind_panic {A B} (m : K C S A) (f : A → K C S B) s msg s' :
  m s = Panic msg s' → (m ≫= f) s = Panic msg s'.
Proof. intros H. by rewrite K_bind_eq, H. Qed.

Lemma answer_bind {A B} (m : K C S A) (f : A → K C S B) s b :
  answer ((m ≫= f) s) = Some b → ∃ a s', m s = Ok a s' ∧ answer (f a s') = Some b.
Proof. rewrite K_bind_eq. destruct (m s) as [a s'| | |] eqn:E; cbn; [|done..]. intros H. by exists a, s'. Qed.

Lemma runs_ret {A} (a : A) s (Q : A → S → Prop) : Q a s → runs (C:=C) (mret a) s Q.
Proof. intros. by exists a, s. Qed.

Lemma runs_bind {A B} (m : K C S A) (f : A → K C S B) s Q :
  runs m s (λ a s', runs (f a) s' Q) → runs (m ≫= f) s Q.
Proof. intros (a & s' & Hm & b & s'' & Hf & HQ). exists b, s''. by rewrite K_bind_eq, Hm. Qed.

Lemma runs_conseq {A} (m : K C S A) s (P Q : A → S → Prop) :
  runs m s P → (∀ a s', P a s' → Q a s') → runs m s Q.
Proof. intros (a & s' & Hm & HP) HPQ. exists a, s'. auto. Qed.

Lemma runs_gets {A} (f : S → A) s (Q : A → S → Prop) :
  Q (f s) s → runs (C:=C) (gets f) s Q.
Proof. intros. by exists (f s), s. Qed.

Lemma runs_modify (f : S → S) s (Q : unit → S → Prop) :
  Q tt (f s) → runs (C:=C) (modify f) s Q.
Proof. intros. by exists tt, (f s). Qed.

Lemma runs_ok {A} (m : K C S A) s a s' (Q : A → S → Prop) :
  m s = Ok a s' → Q a s' → runs m s Q.
Proof. intros. by exists a, s'. Qed.

Lemma runs_when (b : bool) (m : K C S unit) s Q :
  (b = true → runs m s Q) → (b = false → Q tt s) → runs (when b m) s Q.
Proof. destruct b; intros H1 H2; simpl; [by apply H1|]. apply runs_ret; auto. Qed.

Lemma runs_det {A} (m : K C S A) s a s' (Q : A → S → Prop) :
  runs m s Q → m s = Ok a s' → Q a s'.
Proof. intros (b & t & H & HQ) H'. rewrite H in H'. by simplify_eq. Qed.

Lemma answer_final {A} (o : outcome C S A) a d : answer o = Some a → o = Ok a (final o d).
Proof. destruct o; simpl; by intros [= ->]. Qed.

(** A loop whose body keeps [I] and decreases the measure [μ] ends with [Q]. *)
Lemma runs_loop {L R} (I : L → S → Prop) (μ : L → nat) (body : L → K C S (L + R))
    (Q : R → S → Prop) :
  (∀ l s, I l s →
     runs (body l) s (λ x s', match x with
                              | inl l' => I l' s' ∧ (μ l' < μ l)%nat
                              | inr r => Q r s'
                              end)) →
  ∀ fuel l s, I l s → (μ l < fuel)%nat → runs (loop fuel body l) s Q.
Proof.
  intros Hbody fuel. induction fuel as [|fuel IH]; intros l s HI Hf; [lia|].
  simpl. apply runs_bind. eapply runs_conseq; [by apply Hbody|].
  intros [l'|r] s'; simpl.
  - intros [HI' Hμ]. apply IH; [done|lia].
  - intros HQ. by apply runs_ret.
Qed.

(** Iteration over a list, with an invariant indexed by the elements done. *)
Lemma runs_kiter {A} (I : list A → S → Prop) (f : A → K C S unit) (l : list A) :
  ∀ done s,
  I done s →
  (∀ pre x post s, l = pre ++ x :: post → I (done ++ pre) s →
     runs (f x) s (λ _ s', I (done ++ pre ++ [x]) s')) →
  runs (kiter l f) s (λ _ s', I (done ++ l) s').
Proof.
  induction l as [|x l IH]; intros dn s HI Hf; simpl.
  - apply runs_ret. by rewrite app_nil_r.
  - apply runs_bind. eapply runs_conseq.
    { apply (Hf [] x l); [done|]. by rewrite app_nil_r. }
    intros [] s'. simpl. intros HI'.
    replace (dn ++ x :: l) with ((dn ++ [x]) ++ l) by by rewrite <-app_assoc.
    apply IH; [done|]. intros pre y post t -> HI''.
    eapply runs_conseq; [apply (Hf (x :: pre) y post); [done|]|].
    + by rewrite <-app_assoc in HI''.
    + intros [] t'. simpl. by rewrite <-!app_assoc.
Qed.

End runs.

(** One step of a [runs] proof at a primitive of the monad. *)
Ltac kstep :=
  match goal with
  | |- runs (mbind _ _) _ _ => apply runs_bind
  | |- runs (mret _) _ _ => apply runs_ret
  | |- runs (gets _) _ _ => apply runs_gets
  | |- runs (modify _) _ _ => apply runs_modify
  | |- runs (when _ _) _ _ => apply runs_when
  end.

(** Use a specification already proved for the call at the head. *)
Tactic Notation "kcall" uconstr(H) := eapply runs_conseq; [eapply H|].

(** Case analysis on the C conditions ([Z] comparisons as booleans). *)
Ltac zcase :=
  repeat match goal with
  | |- context [?a =? ?b] => destruct (Z.eqb_spec a b)
  | |- context [?a <? ?b] => destruct (Z.ltb_spec a b)
  | |- context [?a <=? ?b] => destruct (Z.leb_spec a b)
  end.

Create HintDb oskernel.

#[global] Arguments Z.to_nat : simpl never.
#[global] Arguments Z.of_nat : simpl never.
