(* ===== verification/Mem.v ===== *)
(** Physical memory as bytes, little-endian loads and stores, and the C string
    library of kernel/lib/string.c ([memset], [memmove], [memcpy], [strlen],
    [strncmp], [strncpy], [strrchr]).

    A pointer to be read is either an address of the byte memory or a buffer
    that lives outside of it (a local array, a field): the reading functions
    take the bytes the pointer addresses as a function of the offset. *)

From S2P Require Import Prelude.

(** ** Byte memory *)

Abbreviation memory := (gmap Z Z).

Definition mget (m : memory) (a : Z) : Z := default 0 (m !! a).
Definition mset (m : memory) (a v : Z) : memory := <[a := v mod 256]> m.

(** [n]-byte little-endian access. *)
Fixpoint ldn (n : nat) (m : memory) (a : Z) : Z :=
  match n with
  | O => 0
  | S n => mget m a + 256 * ldn n m (a + 1)
  end.

Fixpoint stn (n : nat) (m : memory) (a v : Z) : memory :=
  match n with
  | O => m
  | S n => mset (stn n m (a + 1) (v / 256)) a v
  end.

Abbreviation ld64 := (ldn 8).
Abbreviation st64 := (stn 8).
Abbreviation ld32 := (ldn 4).
Abbreviation st32 := (stn 4).

(** The [n] bytes at [a], and a buffer written at [a]. *)
Fixpoint mbytes (m : memory) (a : Z) (n : nat) : list Z :=
  match n with
  | O => []
  | S n => mget m a :: mbytes m (a + 1) n
  end.

Fixpoint mwrite (m : memory) (a : Z) (bs : list Z) : memory :=
  match bs with
  | [] => m
  | b :: bs => mwrite (mset m a b) (a + 1) bs
  end.

(** ** kernel/lib/string.c *)

(** [while (n > 0) ((uint8_t * )ptr)[--n] = v;], with [i] the value of [n]. *)
Fixpoint set_down (m : memory) (ptr v i : Z) (n : nat) : memory :=
  match n with
  | O => m
  | S n => set_down (mset m (ptr + (i - 1)) v) ptr v (i - 1) n
  end.

Definition memset (m : memory) (ptr v : Z) (n : nat) : memory := set_down m ptr v (Z.of_nat n) n.

(** [for (i = 0; i < n; ++i) dst[i] = src[i];], from index [i] on. *)
Fixpoint copy_up (m : memory) (dst src i : Z) (n : nat) : memory :=
  match n with
  | O => m
  | S n => copy_up (mset m (dst + i) (mget m (src + i))) dst src (i + 1) n
  end.

(** [for (i = n; i--;) dst[i] = src[i];], from index [i] on. *)
Fixpoint copy_down (m : memory) (dst src i : Z) (n : nat) : memory :=
  match n with
  | O => m
  | S n => copy_down (mset m (dst + (i - 1)) (mget m (src + (i - 1)))) dst src (i - 1) n
  end.

Definition memmove (m : memory) (dst src : Z) (n : nat) : memory :=
  if dst <? src then copy_up m dst src 0 n else copy_down m dst src (Z.of_nat n) n.

Definition memcpy (m : memory) (dst src : Z) (n : nat) : memory :=
  memmove m dst src n.

(** The bytes read through a pointer, by offset. *)
Definition rd (m : memory) (p : Z) : Z → Z := λ i, mget m (p + i).
Definition rdl (l : list Z) : Z → Z := λ i, default 0 (l !! Z.to_nat i).

(** [while (s[len]) len++;], [None] when [fuel] bytes show no terminator. *)
Fixpoint strlen_from (fuel : nat) (s : Z → Z) (len : Z) : option Z :=
  match fuel with
  | O => None
  | S fuel => if s len =? 0 then Some len else strlen_from fuel s (len + 1)
  end.

Definition strlen (fuel : nat) (s : Z → Z) : option Z := strlen_from fuel s 0.

(** The loop of [strncmp] at offset [i] with [n] bytes left. *)
Fixpoint strncmp_from (s1 s2 : Z → Z) (i : Z) (n : nat) : Z :=
  match n with
  | O => 0
  | S n' =>
      if negb (s1 i =? 0) && (s1 i =? s2 i) then strncmp_from s1 s2 (i + 1) n'
      else s1 i - s2 i
  end.

Definition strncmp (s1 s2 : Z → Z) (n : nat) : Z := strncmp_from s1 s2 0 n.

(** The [n] bytes [strncpy] stores at [dst]: [src] up to its terminator, then
    zeros (the second [for] loop). *)
Fixpoint strncpy_from (src : Z → Z) (i : Z) (n : nat) : list Z :=
  match n with
  | O => []
  | S n' =>
      if src i =? 0 then replicate n 0 else src i :: strncpy_from src (i + 1) n'
  end.

Definition strncpy (src : Z → Z) (n : nat) : list Z := strncpy_from src 0 n.

(** The offset of the last [c] before the terminator ([None] is the null
    pointer); the outer option is the fuel. *)
Fixpoint strrchr_from (fuel : nat) (s : Z → Z) (c i : Z) (pc : option Z)
    : option (option Z) :=
  match fuel with
  | O => None
  | S fuel =>
      if s i =? 0 then Some pc
      else strrchr_from fuel s c (i + 1) (if s i =? c then Some i else pc)
  end.

Definition strrchr (fuel : nat) (s : Z → Z) (c : Z) : option (option Z) :=
  strrchr_from fuel s c 0 None.

(** Every byte of the memory is a byte. *)
Definition bytes_ok (m : memory) : Prop := ∀ a, 0 ≤ mget m a < 256.

(** [l] is the NUL-terminated string read by [s]. *)
Definition cstr (s : Z → Z) (l : list Z) : Prop :=
  (∀ i c, l !! i = Some c → s (Z.of_nat i) = c ∧ c ≠ 0) ∧ s (Z.of_nat (length l)) = 0.

(** ** Lemmas: loads and stores *)

Lemma mget_mset m a b v :
  mget (mset m a v) b = if decide (a = b) then v mod 256 else mget m b.
Proof. unfold mget, mset. rewrite lookup_insert. by case_decide. Qed.

Lemma mget_mset_eq m a v : mget (mset m a v) a = v mod 256.
Proof. rewrite mget_mset. by case_decide. Qed.

Lemma mget_mset_ne m a b v : a ≠ b → mget (mset m a v) b = mget m b.
Proof. intros. rewrite mget_mset. by case_decide. Qed.

Lemma mset_bytes_ok m a v : bytes_ok m → bytes_ok (mset m a v).
Proof.
  intros H b. rewrite mget_mset. case_decide; [|done]. by apply Z.mod_pos_bound.
Qed.

Lemma mget_stn_out n m a v b :
  b < a ∨ a + Z.of_nat n ≤ b → mget (stn n m a v) b = mget m b.
Proof.
  revert a v. induction n as [|n IH]; intros a v Hb; simpl; [done|].
  rewrite mget_mset_ne by lia. apply IH. lia.
Qed.

Lemma ldn_ext n m m' a :
  (∀ b, a ≤ b < a + Z.of_nat n → mget m b = mget m' b) → ldn n m a = ldn n m' a.
Proof.
  revert a. induction n as [|n IH]; intros a H; simpl; [done|].
  f_equal; [apply H; lia|]. f_equal. apply IH. intros b Hb. apply H. lia.
Qed.

Lemma ldn_stn_out n k m a v b :
  b + Z.of_nat k ≤ a ∨ a + Z.of_nat n ≤ b → ldn k (stn n m a v) b = ldn k m b.
Proof. intros H. apply ldn_ext. intros c Hc. apply mget_stn_out. lia. Qed.

Lemma ldn_stn_mod n m a v : ldn n (stn n m a v) a = v mod 2 ^ (8 * Z.of_nat n).
Proof.
  revert a v. induction n as [|n IH]; intros a v.
  - simpl. by rewrite Z.mod_1_r.
  - cbn [ldn stn]. rewrite mget_mset_eq.
    rewrite (ldn_ext n _ (stn n m (a + 1) (v / 256)) (a + 1)).
    2:{ intros b Hb. apply mget_mset_ne. lia. }
    rewrite IH.
    replace (8 * Z.of_nat (S n)) with (8 + 8 * Z.of_nat n) by lia.
    rewrite Z.pow_add_r by lia. change (2 ^ 8) with 256.
    rewrite Z.rem_mul_r by lia. done.
Qed.

Lemma ldn_stn n m a v :
  0 ≤ v < 2 ^ (8 * Z.of_nat n) → ldn n (stn n m a v) a = v.
Proof. intros. rewrite ldn_stn_mod. by apply Z.mod_small. Qed.

Lemma ldn_bounds n m a : bytes_ok m → 0 ≤ ldn n m a < 2 ^ (8 * Z.of_nat n).
Proof.
  intros Hm. revert a. induction n as [|n IH]; intros a; [simpl; lia|].
  cbn [ldn]. specialize (IH (a + 1)). specialize (Hm a).
  replace (8 * Z.of_nat (S n)) with (8 + 8 * Z.of_nat n) by lia.
  rewrite Z.pow_add_r by lia. change (2 ^ 8) with 256. nia.
Qed.

Lemma stn_bytes_ok n m a v : bytes_ok m → bytes_ok (stn n m a v).
Proof.
  intros H. revert a v. induction n as [|n IH]; intros; simpl; [done|].
  by apply mset_bytes_ok.
Qed.

Lemma length_mbytes m a n : length (mbytes m a n) = n.
Proof. revert a. induction n as [|n IH]; intros a; simpl; auto. Qed.

Lemma mbytes_lookup m a n i :
  (i < n)%nat → mbytes m a n !! i = Some (mget m (a + Z.of_nat i)).
Proof.
  revert a i. induction n as [|n IH]; intros a i Hi; [lia|].
  destruct i as [|i]; simpl; [by rewrite Z.add_0_r|].
  rewrite IH by lia. do 2 f_equal. lia.
Qed.

Lemma mget_mwrite m a bs b :
  mget (mwrite m a bs) b =
  if decide (a ≤ b < a + Z.of_nat (length bs))
  then default 0 (bs !! Z.to_nat (b - a)) mod 256 else mget m b.
Proof.
  revert m a. induction bs as [|x bs IH]; intros m a; simpl.
  - case_decide; [lia|done].
  - rewrite IH. destruct (decide (b = a)) as [->|Hne].
    + rewrite decide_False by lia. rewrite decide_True by lia.
      rewrite Z.sub_diag. simpl. by rewrite mget_mset_eq.
    + rewrite mget_mset_ne by done.
      destruct (decide (a + 1 ≤ b < a + 1 + Z.of_nat (length bs))) as [Hin|Hout].
      * rewrite decide_True by lia.
        replace (Z.to_nat (b - a)) with (S (Z.to_nat (b - (a + 1)))) by lia. done.
      * by rewrite decide_False by lia.
Qed.

Lemma mwrite_bytes_ok m a bs : bytes_ok m → bytes_ok (mwrite m a bs).
Proof.
  revert m a. induction bs as [|b bs IH]; intros m a H; simpl; [done|].
  by apply IH, mset_bytes_ok.
Qed.

(** ** Lemmas: the block operations *)

Lemma mget_memset m ptr v n b :
  mget (memset m ptr v n) b =
  if decide (ptr ≤ b < ptr + Z.of_nat n) then v mod 256 else mget m b.
Proof.
  unfold memset. revert m. induction n as [|n IH]; intros m; cbn [set_down].
  - case_decide; [lia|done].
  - replace (Z.of_nat (S n) - 1) with (Z.of_nat n) by lia. rewrite IH, mget_mset. repeat case_decide; try done; lia.
Qed.

Lemma memset_bytes_ok m ptr v n : bytes_ok m → bytes_ok (memset m ptr v n).
Proof.
  intros H b. rewrite mget_memset. case_decide; [by apply Z.mod_pos_bound|apply H].
Qed.

Lemma ldn_zero k m a : (∀ b, a ≤ b < a + Z.of_nat k → mget m b = 0) → ldn k m a = 0.
Proof.
  revert a. induction k as [|k IH]; intros a H; simpl; [done|].
  rewrite H, IH by (intros; apply H; lia) || lia. done.
Qed.

(** Copying upwards reads each source byte before it is overwritten when the
    destination starts below the source. *)
Lemma mget_copy_up m dst src i n b :
  bytes_ok m → dst ≤ src →
  mget (copy_up m dst src i n) b =
  if decide (dst + i ≤ b < dst + i + Z.of_nat n) then mget m (src + (b - dst)) else mget m b.
Proof.
  intros Hm Hle. revert m i Hm. induction n as [|n IH]; intros m i Hm; cbn [copy_up].
  - case_decide; [lia|done].
  - rewrite IH by (by apply mset_bytes_ok). rewrite !mget_mset.
    repeat case_decide; try lia; try done.
    replace (src + (b - dst)) with (src + i) by lia. apply Z.mod_small, Hm.
Qed.

(** Copying downwards does when the destination starts above it. *)
Lemma mget_copy_down m dst src n b :
  bytes_ok m → src ≤ dst →
  mget (copy_down m dst src (Z.of_nat n) n) b =
  if decide (dst ≤ b < dst + Z.of_nat n) then mget m (src + (b - dst)) else mget m b.
Proof.
  intros Hm Hle. revert m Hm. induction n as [|n IH]; intros m Hm; cbn [copy_down].
  - case_decide; [lia|done].
  - replace (Z.of_nat (S n) - 1) with (Z.of_nat n) by lia. rewrite IH by (by apply mset_bytes_ok). rewrite !mget_mset.
    repeat case_decide; try lia; try done.
    replace (src + (b - dst)) with (src + Z.of_nat n) by lia. apply Z.mod_small, Hm.
Qed.

Lemma mget_memmove m dst src n b :
  bytes_ok m →
  mget (memmove m dst src n) b =
  if decide (dst ≤ b < dst + Z.of_nat n) then mget m (src + (b - dst)) else mget m b.
Proof.
  intros Hm. unfold memmove. destruct (Z.ltb_spec dst src).
  - rewrite mget_copy_up by (done || lia). by rewrite Z.add_0_r.
  - by apply mget_copy_down.
Qed.

Lemma memmove_bytes_ok m dst src n : bytes_ok m → bytes_ok (memmove m dst src n).
Proof. intros H b. rewrite mget_memmove by done. case_decide; apply H. Qed.

(** The lemmas above are the interface of these; witnesses still compute them. *)
#[global] Opaque ldn stn mbytes mwrite memset memmove.
