(* ===== verification/Strings.v ===== *)
(** The string library (kernel/lib/string.c): block copies between regions that
    may overlap, and the string functions against the strings they denote. *)

From S2P Require Import Prelude Mem.

(** The first [n] bytes of two strings are the same up to a terminator. *)
Definition same_prefix (s1 s2 : Z → Z) (n : nat) : Prop :=
  ∃ k : nat, (k ≤ n)%nat ∧ (∀ i, (i < k)%nat → s1 (Z.of_nat i) = s2 (Z.of_nat i)) ∧
    (k = n ∨ s1 (Z.of_nat k) = 0 ∧ s2 (Z.of_nat k) = 0).

Lemma strlen_from_spec l s fuel : ∀ i,
  (∀ j c, l !! j = Some c → s (i + Z.of_nat j) = c ∧ c ≠ 0) →
  s (i + Z.of_nat (length l)) = 0 → (length l < fuel)%nat →
  strlen_from fuel s i = Some (i + Z.of_nat (length l)).
Proof.
  revert fuel. induction l as [|c l IH]; intros fuel i Hl Hz Hf; (destruct fuel as [|fuel]; [lia|]);
    cbn [strlen_from].
  - simpl in *. rewrite Z.add_0_r in *. by rewrite Hz.
  - destruct (Hl O c eq_refl) as [Hc Hc0]. rewrite Z.add_0_r in Hc.
    rewrite Hc, (proj2 (Z.eqb_neq c 0)) by done. rewrite IH.
    + f_equal. simpl. lia.
    + intros j d Hd. destruct (Hl (S j) d Hd) as [<- ?]. split; [f_equal; lia|done].
    + rewrite <-Hz. f_equal. simpl. lia.
    + simpl in Hf. lia.
Qed.

Lemma strncmp_from_zero s1 s2 n : ∀ i,
  strncmp_from s1 s2 i n = 0 ↔
  ∃ k : nat, (k ≤ n)%nat ∧ (∀ j, (j < k)%nat → s1 (i + Z.of_nat j) = s2 (i + Z.of_nat j)) ∧
    (k = n ∨ s1 (i + Z.of_nat k) = 0 ∧ s2 (i + Z.of_nat k) = 0).
Proof.
  induction n as [|n IH]; intros i; cbn [strncmp_from].
  { split; [|done]. intros _. exists O. split_and!; [done|intros; lia|by left]. }
  destruct (Z.eqb_spec (s1 i) 0) as [E0|E0]; cbn [negb andb].
  - split.
    + intros E. exists O. split_and!; [lia|intros; lia|]. right. rewrite Z.add_0_r. lia.
    + intros (k & Hk & Hp & He). destruct k as [|k].
      * destruct He as [?|[_ H2]]; [lia|]. rewrite Z.add_0_r in H2. lia.
      * specialize (Hp O ltac:(lia)). rewrite Z.add_0_r in Hp. lia.
  - destruct (Z.eqb_spec (s1 i) (s2 i)) as [E|E].
    + rewrite IH. split; intros (k & Hk & Hp & He).
      * exists (S k). split_and!; [lia| |].
        -- intros [|j] Hj; [by rewrite Z.add_0_r|].
           replace (i + Z.of_nat (S j)) with (i + 1 + Z.of_nat j) by lia. apply Hp. lia.
        -- replace (i + Z.of_nat (S k)) with (i + 1 + Z.of_nat k) by lia. destruct He; [left; lia|by right].
      * destruct k as [|k].
        { destruct He as [?|[H1 _]]; [lia|]. by rewrite Z.add_0_r in H1. }
        exists k. split_and!; [lia| |].
        -- intros j Hj. specialize (Hp (S j) ltac:(lia)).
           by replace (i + 1 + Z.of_nat j) with (i + Z.of_nat (S j)) by lia.
        -- replace (i + 1 + Z.of_nat k) with (i + Z.of_nat (S k)) by lia. destruct He; [left; lia|by right].
    + split; [lia|]. intros (k & Hk & Hp & He). exfalso. apply E.
      destruct k as [|k].
      * destruct He as [?|[H1 _]]; [lia|]. by rewrite Z.add_0_r in H1.
      * specialize (Hp O ltac:(lia)). by rewrite Z.add_0_r in Hp.
Qed.

(** The bytes of [strncpy], read back through the pointer. *)
Lemma strncpy_from_spec src n : ∀ i,
  length (strncpy_from src i n) = n ∧
  ∃ k : nat, (k ≤ n)%nat ∧
    (∀ j, (j < k)%nat → src (i + Z.of_nat j) ≠ 0 ∧
       strncpy_from src i n !! j = Some (src (i + Z.of_nat j))) ∧
    (∀ j, (k ≤ j < n)%nat → strncpy_from src i n !! j = Some 0) ∧
    (k = n ∨ src (i + Z.of_nat k) = 0).
Proof.
  induction n as [|n IH]; intros i; cbn [strncpy_from].
  { split; [done|]. exists O. split_and!; [done|intros; lia|intros; lia|by left]. }
  destruct (Z.eqb_spec (src i) 0) as [E|E].
  - split; [by rewrite length_replicate|]. exists O. split_and!; [lia|intros; lia| |].
    + intros j Hj. apply lookup_replicate_2. lia.
    + right. by rewrite Z.add_0_r.
  - destruct (IH (i + 1)) as [Hlen (k & Hk & Hc & Hz & He)]. split; [simpl; by rewrite Hlen|].
    exists (S k). split_and!; [lia| | |].
    + intros [|j] Hj; [by rewrite Z.add_0_r|]. destruct (Hc j ltac:(lia)) as [H1 H2].
      replace (i + Z.of_nat (S j)) with (i + 1 + Z.of_nat j) by lia. done.
    + intros [|j] Hj; [lia|]. apply Hz. lia.
    + replace (i + Z.of_nat (S k)) with (i + 1 + Z.of_nat k) by lia. destruct He; [left; lia|by right].
Qed.

(** [memmove] copies [n] bytes also when the regions overlap: the
    destination holds what the source held before, and nothing else changes. *)
Theorem memmove_copies m dst src n :
  bytes_ok m →
  (∀ i, 0 ≤ i < Z.of_nat n → mget (memmove m dst src n) (dst + i) = mget m (src + i)) ∧
  (∀ a, ¬ (dst ≤ a < dst + Z.of_nat n) → mget (memmove m dst src n) a = mget m a).
Proof.
  intros Hb. split.
  - intros i Hi. rewrite mget_memmove by done. rewrite decide_True by lia. f_equal. lia.
  - intros a Ha. rewrite mget_memmove by done. by rewrite decide_False.
Qed.

Lemma memmove_copies_witness :
  let m := mwrite ∅ 100 [1; 2; 3; 4; 5] in
  (∀ i, 0 ≤ i < Z.of_nat 4 → mget (memmove m 101 100 4) (101 + i) = mget m (100 + i)) ∧
  (∀ a, ¬ (101 ≤ a < 101 + Z.of_nat 4) → mget (memmove m 101 100 4) a = mget m a).
Proof.
  apply (memmove_copies (mwrite ∅ 100 [1; 2; 3; 4; 5]) 101 100 4).
  apply mwrite_bytes_ok. intros a. unfold mget. by rewrite lookup_empty.
Defined.

(** [strncmp] returns 0 exactly when the strings agree on their first
    [n] bytes or up to a common terminator. *)
Theorem strncmp_zero s1 s2 n : strncmp s1 s2 n = 0 ↔ same_prefix s1 s2 n.
Proof.
  unfold strncmp, same_prefix. rewrite strncmp_from_zero.
  split; intros (k & Hk & Hp & He); exists k; (split_and!; [done| |]).
  all: by rewrite ?Z.add_0_l in *.
Qed.

(** [strncpy] fills exactly [n] bytes, and what it stores compares equal
    to the source with [strncmp]: a directory entry finds its own name. *)
Theorem strncpy_strncmp src n :
  length (strncpy src n) = n ∧ strncmp (rdl (strncpy src n)) src n = 0.
Proof.
  destruct (strncpy_from_spec src n 0) as [Hlen (k & Hk & Hc & Hz & He)].
  split; [done|]. apply strncmp_from_zero. exists k. split_and!; [done| |].
  - intros j Hj. destruct (Hc j Hj) as [_ Hj']. unfold rdl. rewrite Z.add_0_l, Nat2Z.id.
    unfold strncpy. by rewrite Hj'.
  - destruct (decide (k = n)) as [->|Hne]; [by left|]. right. destruct He as [->|He]; [done|].
    split; [|done]. unfold rdl, strncpy. rewrite Z.add_0_l, Nat2Z.id, Hz by lia. done.
Qed.

(** [strlen] of a terminated string is its length. *)
Theorem strlen_cstr s l fuel :
  cstr s l → (length l < fuel)%nat → strlen fuel s = Some (Z.of_nat (length l)).
Proof. intros [Hl Hz] Hf. unfold strlen. by rewrite (strlen_from_spec l s fuel 0). Qed.

Lemma strlen_cstr_witness : strlen 8 (rdl [104; 105]) = Some (Z.of_nat (length [104; 105])).
Proof.
  apply strlen_cstr; [|simpl; lia]. split; [|done].
  intros [|[|i]] c; simpl; intros [= <-]; done.
Defined.
