(* ===== verification/State.v ===== *)
(** The kernel's data: the constants, structures and globals declared in
    src/include and at the top of the C files, gathered in one record
    [kstate], over which the kernel code runs. *)

From S2P Require Import Prelude Mem.

(** ** include/param.h, include/riscv.h, include/memlayout.h, include/fs/fs.h *)

Definition N_CPU : Z := 3.
Definition N_PROC : nat := 64.
Definition ROOT_DEV : Z := 1.
Definition N_OFILE : nat := 16.
Definition N_FILE : nat := 100.
Definition N_DEV : Z := 10.
Definition N_INODE : nat := 50.
Definition MAX_OP_BLKS : Z := 10.
Definition N_BUF : nat := 30.
Definition LOG_SIZE : Z := 30.
Definition MAX_PATH : nat := 128.
Definition MAX_ARGS : Z := 32.
Definition MAX_ENVS : Z := 16.

Definition PAGE_SIZE : Z := 4096.
Definition PAGE_SHIFT : Z := 12.
Definition MAX_PADDR : Z := 0x88000000.
Definition MAX_VADDR : Z := Z.shiftl 1 (9 + 9 + 9 + 12 - 1).
Definition TRAMPOLINE : Z := MAX_VADDR - PAGE_SIZE.
Definition KERNEL_STACK (p : Z) : Z := u64 (TRAMPOLINE - (p + 1) * 2 * PAGE_SIZE).
Definition TRAP_FRAME : Z := TRAMPOLINE - PAGE_SIZE.
Definition USER_STACK_SIZE : Z := PAGE_SIZE.
Definition USER_STACK_TOP : Z := TRAP_FRAME - PAGE_SIZE.
Definition USER_STACK_BASE : Z := USER_STACK_TOP - USER_STACK_SIZE.

Definition SSTATUS_SPP : Z := Z.shiftl 1 8.
Definition SSTATUS_SPIE : Z := Z.shiftl 1 5.
Definition SSTATUS_SIE : Z := Z.shiftl 1 1.

Definition BLOCK_SIZE : Z := 1024.
Definition ROOT_INO : Z := 1.
Definition N_DIRECT : Z := 10.
Definition N_INDIRECT : Z := 3.
Definition N_ADDRS : Z := N_DIRECT + N_INDIRECT.
Definition DIR_SIZE : nat := 30.

(** ** Addresses that name locks and wait channels *)

(** The sleep locks: one per buffer, one per in-memory inode. *)
Inductive slockid := SlBuf (i : nat) | SlInode (i : nat).

(** The spin locks, each named by the structure that holds it. *)
Inductive lockid :=
| LFreeList | LPid | LWait | LProc (i : nat) | LBcache | LItable | LFtable | LLog
| LTx | LCons | LPipe (a : Z) | LDisk | LTimer | LPrintk | LSleep (l : slockid).

(** The addresses passed to [sleep_on] and [wake_up]. *)
Inductive chan :=
| ChProc (i : nat) | ChSleep (l : slockid) | ChBuf (i : nat) | ChLog
| ChPipeR (a : Z) | ChPipeW (a : Z) | ChTxR | ChConsR | ChTicks | ChDiskFree.

#[export] Instance slockid_eq_dec : EqDecision slockid.
Proof. solve_decision. Defined.

#[export] Instance lockid_eq_dec : EqDecision lockid.
Proof. solve_decision. Defined.

#[export] Instance chan_eq_dec : EqDecision chan.
Proof. solve_decision. Defined.

Definition slockid_enc (l : slockid) : nat + nat :=
  match l with SlBuf i => inl i | SlInode i => inr i end.
Definition slockid_dec (x : nat + nat) : slockid :=
  match x with inl i => SlBuf i | inr i => SlInode i end.

#[export] Instance slockid_countable : Countable slockid.
Proof. apply (inj_countable' slockid_enc slockid_dec). by intros []. Defined.

Definition lockid_enc (l : lockid) : (nat * nat) + (Z + slockid) :=
  match l with
  | LFreeList => inl (0, 0) | LPid => inl (1, 0) | LWait => inl (2, 0)
  | LProc i => inl (3, i) | LBcache => inl (4, 0) | LItable => inl (5, 0)
  | LFtable => inl (6, 0) | LLog => inl (7, 0) | LTx => inl (8, 0)
  | LCons => inl (9, 0) | LDisk => inl (10, 0) | LTimer => inl (11, 0)
  | LPrintk => inl (12, 0) | LPipe a => inr (inl a) | LSleep l => inr (inr l)
  end%nat.
Definition lockid_dec (x : (nat * nat) + (Z + slockid)) : lockid :=
  match x with
  | inl (0, _) => LFreeList | inl (1, _) => LPid | inl (2, _) => LWait
  | inl (3, i) => LProc i | inl (4, _) => LBcache | inl (5, _) => LItable
  | inl (6, _) => LFtable | inl (7, _) => LLog | inl (8, _) => LTx
  | inl (9, _) => LCons | inl (10, _) => LDisk | inl (11, _) => LTimer
  | inl (_, _) => LPrintk | inr (inl a) => LPipe a | inr (inr l) => LSleep l
  end%nat.

#[export] Instance lockid_countable : Countable lockid.
Proof. apply (inj_countable' lockid_enc lockid_dec). by intros []. Defined.

(** ** include/lock.h *)

Record spin_lock := mk_spin_lock {
  sl_locked : bool;
  sl_cpuid : Z;
  sl_name : string
}.

Definition set_sl_locked (v : bool) (r : spin_lock) : spin_lock :=
  mk_spin_lock v (sl_cpuid r) (sl_name r).
Definition set_sl_cpuid (v : Z) (r : spin_lock) : spin_lock :=
  mk_spin_lock (sl_locked r) v (sl_name r).
Definition set_sl_name (v : string) (r : spin_lock) : spin_lock :=
  mk_spin_lock (sl_locked r) (sl_cpuid r) v.

(** The embedded [struct spin_lock lock] of a sleep lock is the spin lock
    [LSleep]. *)
Record sleep_lock := mk_sleep_lock {
  slk_locked : bool;
  slk_pid : Z;
  slk_name : string
}.

Definition set_slk_locked (v : bool) (r : sleep_lock) : sleep_lock :=
  mk_sleep_lock v (slk_pid r) (slk_name r).
Definition set_slk_pid (v : Z) (r : sleep_lock) : sleep_lock :=
  mk_sleep_lock (slk_locked r) v (slk_name r).
Definition set_slk_name (v : string) (r : sleep_lock) : sleep_lock :=
  mk_sleep_lock (slk_locked r) (slk_pid r) v.

(** ** include/sched/cpu.h, and the registers of the executing hart *)

(** The saved context of the per-hart scheduler is not represented. *)
Record cpu := mk_cpu {
  c_proc : option nat;  (* process running on this cpu, or NULL *)
  n_off : Z;  (* depth of push_off() nesting *)
  intr_ena : bool  (* were interrupts enabled before push_off()? *)
}.

Definition set_c_proc (v : option nat) (r : cpu) : cpu :=
  mk_cpu v (n_off r) (intr_ena r).
Definition set_n_off (v : Z) (r : cpu) : cpu :=
  mk_cpu (c_proc r) v (intr_ena r).
Definition set_intr_ena (v : bool) (r : cpu) : cpu :=
  mk_cpu (c_proc r) (n_off r) v.

Record hart := mk_hart {
  tp : Z;
  sstatus : Z;
  stvec : Z;
  sepc : Z;
  scause : Z;
  satp : Z;
  cpus : list cpu  (* cpus[N_CPU] *)
}.

Definition set_tp (v : Z) (r : hart) : hart :=
  mk_hart v (sstatus r) (stvec r) (sepc r) (scause r) (satp r) (cpus r).
Definition set_sstatus (v : Z) (r : hart) : hart :=
  mk_hart (tp r) v (stvec r) (sepc r) (scause r) (satp r) (cpus r).
Definition set_stvec (v : Z) (r : hart) : hart :=
  mk_hart (tp r) (sstatus r) v (sepc r) (scause r) (satp r) (cpus r).
Definition set_sepc (v : Z) (r : hart) : hart :=
  mk_hart (tp r) (sstatus r) (stvec r) v (scause r) (satp r) (cpus r).
Definition set_scause (v : Z) (r : hart) : hart :=
  mk_hart (tp r) (sstatus r) (stvec r) (sepc r) v (satp r) (cpus r).
Definition set_satp (v : Z) (r : hart) : hart :=
  mk_hart (tp r) (sstatus r) (stvec r) (sepc r) (scause r) v (cpus r).
Definition set_cpus (v : list cpu) (r : hart) : hart :=
  mk_hart (tp r) (sstatus r) (stvec r) (sepc r) (scause r) (satp r) v.

(** ** include/sched/proc.h *)

Inductive pstate :=
| PROC_UNUSED | PROC_USED | PROC_RUNNABLE | PROC_RUNNING | PROC_SLEEPING | PROC_ZOMBIE.

#[export] Instance pstate_eq_dec : EqDecision pstate.
Proof. solve_decision. Defined.

Record context := mk_context {
  ctx_ra : Z;
  ctx_sp : Z;
  ctx_s : list Z  (* callee-saved registers s0 .. s11 *)
}.

Definition set_ctx_ra (v : Z) (r : context) : context :=
  mk_context v (ctx_sp r) (ctx_s r).
Definition set_ctx_sp (v : Z) (r : context) : context :=
  mk_context (ctx_ra r) v (ctx_s r).
Definition set_ctx_s (v : list Z) (r : context) : context :=
  mk_context (ctx_ra r) (ctx_sp r) v.

(** Pointers to processes, open files and in-memory inodes are indices in
    their tables, [None] the null pointer.  The process lock is [LProc i]. *)
Record process := mk_process {
  p_state : pstate;
  p_chan : option chan;
  p_killed : bool;
  p_xstate : Z;
  p_pid : Z;
  p_parent : option nat;
  p_kernel_stack : Z;
  p_size : Z;
  p_page_table : Z;  (* address of the page table *)
  p_tf : Z;  (* address of the trap frame *)
  p_ctx : context;
  p_ofile : list (option nat);
  p_cwd : option nat;
  p_name : list Z
}.

Definition set_p_state (v : pstate) (r : process) : process :=
  mk_process v (p_chan r) (p_killed r) (p_xstate r) (p_pid r) (p_parent r) (p_kernel_stack r) (p_size r) (p_page_table r) (p_tf r) (p_ctx r) (p_ofile r) (p_cwd r) (p_name r).
Definition set_p_chan (v : option chan) (r : process) : process :=
  mk_process (p_state r) v (p_killed r) (p_xstate r) (p_pid r) (p_parent r) (p_kernel_stack r) (p_size r) (p_page_table r) (p_tf r) (p_ctx r) (p_ofile r) (p_cwd r) (p_name r).
Definition set_p_killed (v : bool) (r : process) : process :=
  mk_process (p_state r) (p_chan r) v (p_xstate r) (p_pid r) (p_parent r) (p_kernel_stack r) (p_size r) (p_page_table r) (p_tf r) (p_ctx r) (p_ofile r) (p_cwd r) (p_name r).
Definition set_p_xstate (v : Z) (r : process) : process :=
  mk_process (p_state r) (p_chan r) (p_killed r) v (p_pid r) (p_parent r) (p_kernel_stack r) (p_size r) (p_page_table r) (p_tf r) (p_ctx r) (p_ofile r) (p_cwd r) (p_name r).
Definition set_p_pid (v : Z) (r : process) : process :=
  mk_process (p_state r) (p_chan r) (p_killed r) (p_xstate r) v (p_parent r) (p_kernel_stack r) (p_size r) (p_page_table r) (p_tf r) (p_ctx r) (p_ofile r) (p_cwd r) (p_name r).
Definition set_p_parent (v : option nat) (r : process) : process :=
  mk_process (p_state r) (p_chan r) (p_killed r) (p_xstate r) (p_pid r) v (p_kernel_stack r) (p_size r) (p_page_table r) (p_tf r) (p_ctx r) (p_ofile r) (p_cwd r) (p_name r).
Definition set_p_kernel_stack (v : Z) (r : process) : process :=
  mk_process (p_state r) (p_chan r) (p_killed r) (p_xstate r) (p_pid r) (p_parent r) v (p_size r) (p_page_table r) (p_tf r) (p_ctx r) (p_ofile r) (p_cwd r) (p_name r).
Definition set_p_size (v : Z) (r : process) : process :=
  mk_process (p_state r) (p_chan r) (p_killed r) (p_xstate r) (p_pid r) (p_parent r) (p_kernel_stack r) v (p_page_table r) (p_tf r) (p_ctx r) (p_ofile r) (p_cwd r) (p_name r).
Definition set_p_page_table (v : Z) (r : process) : process :=
  mk_process (p_state r) (p_chan r) (p_killed r) (p_xstate r) (p_pid r) (p_parent r) (p_kernel_stack r) (p_size r) v (p_tf r) (p_ctx r) (p_ofile r) (p_cwd r) (p_name r).
Definition set_p_tf (v : Z) (r : process) : process :=
  mk_process (p_state r) (p_chan r) (p_killed r) (p_xstate r) (p_pid r) (p_parent r) (p_kernel_stack r) (p_size r) (p_page_table r) v (p_ctx r) (p_ofile r) (p_cwd r) (p_name r).
Definition set_p_ctx (v : context) (r : process) : process :=
  mk_process (p_state r) (p_chan r) (p_killed r) (p_xstate r) (p_pid r) (p_parent r) (p_kernel_stack r) (p_size r) (p_page_table r) (p_tf r) v (p_ofile r) (p_cwd r) (p_name r).
Definition set_p_ofile (v : list (option nat)) (r : process) : process :=
  mk_process (p_state r) (p_chan r) (p_killed r) (p_xstate r) (p_pid r) (p_parent r) (p_kernel_stack r) (p_size r) (p_page_table r) (p_tf r) (p_ctx r) v (p_cwd r) (p_name r).
Definition set_p_cwd (v : option nat) (r : process) : process :=
  mk_process (p_state r) (p_chan r) (p_killed r) (p_xstate r) (p_pid r) (p_parent r) (p_kernel_stack r) (p_size r) (p_page_table r) (p_tf r) (p_ctx r) (p_ofile r) v (p_name r).
Definition set_p_name (v : list Z) (r : process) : process :=
  mk_process (p_state r) (p_chan r) (p_killed r) (p_xstate r) (p_pid r) (p_parent r) (p_kernel_stack r) (p_size r) (p_page_table r) (p_tf r) (p_ctx r) (p_ofile r) (p_cwd r) v.

(** Offsets of the trap frame's fields. *)
Definition TF_epc : Z := 32.
Definition TF_sp : Z := 48.
Definition TF_a0 : Z := 112.
Definition TF_a1 : Z := 120.
Definition TF_a2 : Z := 128.
Definition TF_a7 : Z := 168.
Definition TF_SIZE : Z := 288.

(** ** include/fs/buf.h, include/fs/fs.h, include/fs/inode.h *)

(** [b_prev] and [b_next] are indices in the buffer table, whose last entry
    [N_BUF] is the list head [bcache.head]. *)
Record buffer := mk_buffer {
  b_valid : bool;
  b_disk : bool;
  b_dev : Z;
  b_bno : Z;
  b_refcnt : Z;
  b_data : list Z;
  b_prev : nat;
  b_next : nat
}.

Definition set_b_valid (v : bool) (r : buffer) : buffer :=
  mk_buffer v (b_disk r) (b_dev r) (b_bno r) (b_refcnt r) (b_data r) (b_prev r) (b_next r).
Definition set_b_disk (v : bool) (r : buffer) : buffer :=
  mk_buffer (b_valid r) v (b_dev r) (b_bno r) (b_refcnt r) (b_data r) (b_prev r) (b_next r).
Definition set_b_dev (v : Z) (r : buffer) : buffer :=
  mk_buffer (b_valid r) (b_disk r) v (b_bno r) (b_refcnt r) (b_data r) (b_prev r) (b_next r).
Definition set_b_bno (v : Z) (r : buffer) : buffer :=
  mk_buffer (b_valid r) (b_disk r) (b_dev r) v (b_refcnt r) (b_data r) (b_prev r) (b_next r).
Definition set_b_refcnt (v : Z) (r : buffer) : buffer :=
  mk_buffer (b_valid r) (b_disk r) (b_dev r) (b_bno r) v (b_data r) (b_prev r) (b_next r).
Definition set_b_data (v : list Z) (r : buffer) : buffer :=
  mk_buffer (b_valid r) (b_disk r) (b_dev r) (b_bno r) (b_refcnt r) v (b_prev r) (b_next r).
Definition set_b_prev (v : nat) (r : buffer) : buffer :=
  mk_buffer (b_valid r) (b_disk r) (b_dev r) (b_bno r) (b_refcnt r) (b_data r) v (b_next r).
Definition set_b_next (v : nat) (r : buffer) : buffer :=
  mk_buffer (b_valid r) (b_disk r) (b_dev r) (b_bno r) (b_refcnt r) (b_data r) (b_prev r) v.

Record super_block := mk_super_block {
  sb_block_size : Z;
  sb_n_log_blks : Z;
  sb_n_inode_blks : Z;
  sb_n_data_blks : Z;
  sb_log_start : Z;
  sb_inode_bitmap_start : Z;
  sb_inode_start : Z;
  sb_data_bitmap_start : Z;
  sb_data_start : Z
}.

Definition set_sb_block_size (v : Z) (r : super_block) : super_block :=
  mk_super_block v (sb_n_log_blks r) (sb_n_inode_blks r) (sb_n_data_blks r) (sb_log_start r) (sb_inode_bitmap_start r) (sb_inode_start r) (sb_data_bitmap_start r) (sb_data_start r).
Definition set_sb_n_log_blks (v : Z) (r : super_block) : super_block :=
  mk_super_block (sb_block_size r) v (sb_n_inode_blks r) (sb_n_data_blks r) (sb_log_start r) (sb_inode_bitmap_start r) (sb_inode_start r) (sb_data_bitmap_start r) (sb_data_start r).
Definition set_sb_n_inode_blks (v : Z) (r : super_block) : super_block :=
  mk_super_block (sb_block_size r) (sb_n_log_blks r) v (sb_n_data_blks r) (sb_log_start r) (sb_inode_bitmap_start r) (sb_inode_start r) (sb_data_bitmap_start r) (sb_data_start r).
Definition set_sb_n_data_blks (v : Z) (r : super_block) : super_block :=
  mk_super_block (sb_block_size r) (sb_n_log_blks r) (sb_n_inode_blks r) v (sb_log_start r) (sb_inode_bitmap_start r) (sb_inode_start r) (sb_data_bitmap_start r) (sb_data_start r).
Definition set_sb_log_start (v : Z) (r : super_block) : super_block :=
  mk_super_block (sb_block_size r) (sb_n_log_blks r) (sb_n_inode_blks r) (sb_n_data_blks r) v (sb_inode_bitmap_start r) (sb_inode_start r) (sb_data_bitmap_start r) (sb_data_start r).
Definition set_sb_inode_bitmap_start (v : Z) (r : super_block) : super_block :=
  mk_super_block (sb_block_size r) (sb_n_log_blks r) (sb_n_inode_blks r) (sb_n_data_blks r) (sb_log_start r) v (sb_inode_start r) (sb_data_bitmap_start r) (sb_data_start r).
Definition set_sb_inode_start (v : Z) (r : super_block) : super_block :=
  mk_super_block (sb_block_size r) (sb_n_log_blks r) (sb_n_inode_blks r) (sb_n_data_blks r) (sb_log_start r) (sb_inode_bitmap_start r) v (sb_data_bitmap_start r) (sb_data_start r).
Definition set_sb_data_bitmap_start (v : Z) (r : super_block) : super_block :=
  mk_super_block (sb_block_size r) (sb_n_log_blks r) (sb_n_inode_blks r) (sb_n_data_blks r) (sb_log_start r) (sb_inode_bitmap_start r) (sb_inode_start r) v (sb_data_start r).
Definition set_sb_data_start (v : Z) (r : super_block) : super_block :=
  mk_super_block (sb_block_size r) (sb_n_log_blks r) (sb_n_inode_blks r) (sb_n_data_blks r) (sb_log_start r) (sb_inode_bitmap_start r) (sb_inode_start r) (sb_data_bitmap_start r) v.

Record m_inode := mk_m_inode {
  i_dev : Z;
  i_ino : Z;
  i_refcnt : Z;
  i_valid : bool;
  i_type : Z;
  i_major : Z;
  i_minor : Z;
  i_nlink : Z;
  i_size : Z;
  i_addrs : list Z
}.

Definition set_i_dev (v : Z) (r : m_inode) : m_inode :=
  mk_m_inode v (i_ino r) (i_refcnt r) (i_valid r) (i_type r) (i_major r) (i_minor r) (i_nlink r) (i_size r) (i_addrs r).
Definition set_i_ino (v : Z) (r : m_inode) : m_inode :=
  mk_m_inode (i_dev r) v (i_refcnt r) (i_valid r) (i_type r) (i_major r) (i_minor r) (i_nlink r) (i_size r) (i_addrs r).
Definition set_i_refcnt (v : Z) (r : m_inode) : m_inode :=
  mk_m_inode (i_dev r) (i_ino r) v (i_valid r) (i_type r) (i_major r) (i_minor r) (i_nlink r) (i_size r) (i_addrs r).
Definition set_i_valid (v : bool) (r : m_inode) : m_inode :=
  mk_m_inode (i_dev r) (i_ino r) (i_refcnt r) v (i_type r) (i_major r) (i_minor r) (i_nlink r) (i_size r) (i_addrs r).
Definition set_i_type (v : Z) (r : m_inode) : m_inode :=
  mk_m_inode (i_dev r) (i_ino r) (i_refcnt r) (i_valid r) v (i_major r) (i_minor r) (i_nlink r) (i_size r) (i_addrs r).
Definition set_i_major (v : Z) (r : m_inode) : m_inode :=
  mk_m_inode (i_dev r) (i_ino r) (i_refcnt r) (i_valid r) (i_type r) v (i_minor r) (i_nlink r) (i_size r) (i_addrs r).
Definition set_i_minor (v : Z) (r : m_inode) : m_inode :=
  mk_m_inode (i_dev r) (i_ino r) (i_refcnt r) (i_valid r) (i_type r) (i_major r) v (i_nlink r) (i_size r) (i_addrs r).
Definition set_i_nlink (v : Z) (r : m_inode) : m_inode :=
  mk_m_inode (i_dev r) (i_ino r) (i_refcnt r) (i_valid r) (i_type r) (i_major r) (i_minor r) v (i_size r) (i_addrs r).
Definition set_i_size (v : Z) (r : m_inode) : m_inode :=
  mk_m_inode (i_dev r) (i_ino r) (i_refcnt r) (i_valid r) (i_type r) (i_major r) (i_minor r) (i_nlink r) v (i_addrs r).
Definition set_i_addrs (v : list Z) (r : m_inode) : m_inode :=
  mk_m_inode (i_dev r) (i_ino r) (i_refcnt r) (i_valid r) (i_type r) (i_major r) (i_minor r) (i_nlink r) (i_size r) v.

(** ** kernel/fs/log.c *)

Record log := mk_log {
  lg_start : Z;
  lg_size : Z;
  lg_outstanding : Z;
  lg_committing : bool;
  lg_dev : Z;
  lh_n : Z;  (* lg.lh.n *)
  lh_blocks : list Z  (* lg.lh.blocks *)
}.

Definition set_lg_start (v : Z) (r : log) : log :=
  mk_log v (lg_size r) (lg_outstanding r) (lg_committing r) (lg_dev r) (lh_n r) (lh_blocks r).
Definition set_lg_size (v : Z) (r : log) : log :=
  mk_log (lg_start r) v (lg_outstanding r) (lg_committing r) (lg_dev r) (lh_n r) (lh_blocks r).
Definition set_lg_outstanding (v : Z) (r : log) : log :=
  mk_log (lg_start r) (lg_size r) v (lg_committing r) (lg_dev r) (lh_n r) (lh_blocks r).
Definition set_lg_committing (v : bool) (r : log) : log :=
  mk_log (lg_start r) (lg_size r) (lg_outstanding r) v (lg_dev r) (lh_n r) (lh_blocks r).
Definition set_lg_dev (v : Z) (r : log) : log :=
  mk_log (lg_start r) (lg_size r) (lg_outstanding r) (lg_committing r) v (lh_n r) (lh_blocks r).
Definition set_lh_n (v : Z) (r : log) : log :=
  mk_log (lg_start r) (lg_size r) (lg_outstanding r) (lg_committing r) (lg_dev r) v (lh_blocks r).
Definition set_lh_blocks (v : list Z) (r : log) : log :=
  mk_log (lg_start r) (lg_size r) (lg_outstanding r) (lg_committing r) (lg_dev r) (lh_n r) v.

(** ** include/fs/file.h, kernel/fs/pipe.c *)

Record file := mk_file {
  f_type : Z;
  f_readable : bool;
  f_writable : bool;
  f_refcnt : Z;
  f_inode : option nat;
  f_pi : Z;  (* address of the pipe *)
  f_off : Z;
  f_major : Z
}.

Definition set_f_type (v : Z) (r : file) : file :=
  mk_file v (f_readable r) (f_writable r) (f_refcnt r) (f_inode r) (f_pi r) (f_off r) (f_major r).
Definition set_f_readable (v : bool) (r : file) : file :=
  mk_file (f_type r) v (f_writable r) (f_refcnt r) (f_inode r) (f_pi r) (f_off r) (f_major r).
Definition set_f_writable (v : bool) (r : file) : file :=
  mk_file (f_type r) (f_readable r) v (f_refcnt r) (f_inode r) (f_pi r) (f_off r) (f_major r).
Definition set_f_refcnt (v : Z) (r : file) : file :=
  mk_file (f_type r) (f_readable r) (f_writable r) v (f_inode r) (f_pi r) (f_off r) (f_major r).
Definition set_f_inode (v : option nat) (r : file) : file :=
  mk_file (f_type r) (f_readable r) (f_writable r) (f_refcnt r) v (f_pi r) (f_off r) (f_major r).
Definition set_f_pi (v : Z) (r : file) : file :=
  mk_file (f_type r) (f_readable r) (f_writable r) (f_refcnt r) (f_inode r) v (f_off r) (f_major r).
Definition set_f_off (v : Z) (r : file) : file :=
  mk_file (f_type r) (f_readable r) (f_writable r) (f_refcnt r) (f_inode r) (f_pi r) v (f_major r).
Definition set_f_major (v : Z) (r : file) : file :=
  mk_file (f_type r) (f_readable r) (f_writable r) (f_refcnt r) (f_inode r) (f_pi r) (f_off r) v.

(** The pipe's lock is [LPipe a], [a] its address. *)
Record pipe := mk_pipe {
  pi_r : Z;
  pi_w : Z;
  pi_read_open : bool;
  pi_write_open : bool;
  pi_data : list Z
}.

Definition set_pi_r (v : Z) (r : pipe) : pipe :=
  mk_pipe v (pi_w r) (pi_read_open r) (pi_write_open r) (pi_data r).
Definition set_pi_w (v : Z) (r : pipe) : pipe :=
  mk_pipe (pi_r r) v (pi_read_open r) (pi_write_open r) (pi_data r).
Definition set_pi_read_open (v : bool) (r : pipe) : pipe :=
  mk_pipe (pi_r r) (pi_w r) v (pi_write_open r) (pi_data r).
Definition set_pi_write_open (v : bool) (r : pipe) : pipe :=
  mk_pipe (pi_r r) (pi_w r) (pi_read_open r) v (pi_data r).
Definition set_pi_data (v : list Z) (r : pipe) : pipe :=
  mk_pipe (pi_r r) (pi_w r) (pi_read_open r) (pi_write_open r) v.

(** ** kernel/dev/console.c, kernel/dev/uart.c *)

Record console := mk_console {
  cons_buf : list Z;
  cons_r : Z;
  cons_w : Z;
  cons_e : Z
}.

Definition set_cons_buf (v : list Z) (r : console) : console :=
  mk_console v (cons_r r) (cons_w r) (cons_e r).
Definition set_cons_r (v : Z) (r : console) : console :=
  mk_console (cons_buf r) v (cons_w r) (cons_e r).
Definition set_cons_w (v : Z) (r : console) : console :=
  mk_console (cons_buf r) (cons_r r) v (cons_e r).
Definition set_cons_e (v : Z) (r : console) : console :=
  mk_console (cons_buf r) (cons_r r) (cons_w r) v.

Record uart_tx := mk_uart_tx {
  tx_r : Z;
  tx_w : Z;
  tx_buf : list Z
}.

Definition set_tx_r (v : Z) (r : uart_tx) : uart_tx :=
  mk_uart_tx v (tx_w r) (tx_buf r).
Definition set_tx_w (v : Z) (r : uart_tx) : uart_tx :=
  mk_uart_tx (tx_r r) v (tx_buf r).
Definition set_tx_buf (v : list Z) (r : uart_tx) : uart_tx :=
  mk_uart_tx (tx_r r) (tx_w r) v.

(** ** kernel/sched/proc.c: the state of [pid_alloc] *)

Record pid_state := mk_pid_state {
  pid_bitmap : list Z;
  pid_byte : Z;  (* static int byte *)
  pid_shift : Z  (* static int shift *)
}.

Definition set_pid_bitmap (v : list Z) (r : pid_state) : pid_state :=
  mk_pid_state v (pid_byte r) (pid_shift r).
Definition set_pid_byte (v : Z) (r : pid_state) : pid_state :=
  mk_pid_state (pid_bitmap r) v (pid_shift r).
Definition set_pid_shift (v : Z) (r : pid_state) : pid_state :=
  mk_pid_state (pid_bitmap r) (pid_byte r) v.

(** ** kernel/dev/virtio_disk.c *)

(** What the [addr] of a descriptor points to: a request header, the data of a
    buffer, a status byte. *)
Inductive daddr := DNull | DReq (i : nat) | DData (b : nat) | DStatus (i : nat).

Record virtq_desc := mk_virtq_desc {
  d_addr : daddr;
  d_len : Z;
  d_flags : Z;
  d_next : Z
}.

Definition set_d_addr (v : daddr) (r : virtq_desc) : virtq_desc :=
  mk_virtq_desc v (d_len r) (d_flags r) (d_next r).
Definition set_d_len (v : Z) (r : virtq_desc) : virtq_desc :=
  mk_virtq_desc (d_addr r) v (d_flags r) (d_next r).
Definition set_d_flags (v : Z) (r : virtq_desc) : virtq_desc :=
  mk_virtq_desc (d_addr r) (d_len r) v (d_next r).
Definition set_d_next (v : Z) (r : virtq_desc) : virtq_desc :=
  mk_virtq_desc (d_addr r) (d_len r) (d_flags r) v.

Record virtio_blk_req := mk_virtio_blk_req {
  rq_type : Z;
  rq_reserved : Z;
  rq_sector : Z
}.

Definition set_rq_type (v : Z) (r : virtio_blk_req) : virtio_blk_req :=
  mk_virtio_blk_req v (rq_reserved r) (rq_sector r).
Definition set_rq_reserved (v : Z) (r : virtio_blk_req) : virtio_blk_req :=
  mk_virtio_blk_req (rq_type r) v (rq_sector r).
Definition set_rq_sector (v : Z) (r : virtio_blk_req) : virtio_blk_req :=
  mk_virtio_blk_req (rq_type r) (rq_reserved r) v.

Record track_info := mk_track_info {
  ti_b : option nat;
  ti_status : Z
}.

Definition set_ti_b (v : option nat) (r : track_info) : track_info :=
  mk_track_info v (ti_status r).
Definition set_ti_status (v : Z) (r : track_info) : track_info :=
  mk_track_info (ti_b r) v.

(** The rings [avail] and [used] are those in [virtq_mem], shared with the device. *)
Record virtio_disk := mk_virtio_disk {
  vd_desc : list virtq_desc;
  vd_avail_idx : Z;  (* avail->idx *)
  vd_avail_ring : list Z;  (* avail->ring *)
  vd_dev_idx : Z;  (* used->idx *)
  vd_used_ring : list Z;  (* used->ring[i].id *)
  vd_free : list bool;
  vd_used_idx : Z;  (* disk.used_idx *)
  vd_info : list track_info;
  vd_ops : list virtio_blk_req
}.

Definition set_vd_desc (v : list virtq_desc) (r : virtio_disk) : virtio_disk :=
  mk_virtio_disk v (vd_avail_idx r) (vd_avail_ring r) (vd_dev_idx r) (vd_used_ring r) (vd_free r) (vd_used_idx r) (vd_info r) (vd_ops r).
Definition set_vd_avail_idx (v : Z) (r : virtio_disk) : virtio_disk :=
  mk_virtio_disk (vd_desc r) v (vd_avail_ring r) (vd_dev_idx r) (vd_used_ring r) (vd_free r) (vd_used_idx r) (vd_info r) (vd_ops r).
Definition set_vd_avail_ring (v : list Z) (r : virtio_disk) : virtio_disk :=
  mk_virtio_disk (vd_desc r) (vd_avail_idx r) v (vd_dev_idx r) (vd_used_ring r) (vd_free r) (vd_used_idx r) (vd_info r) (vd_ops r).
Definition set_vd_dev_idx (v : Z) (r : virtio_disk) : virtio_disk :=
  mk_virtio_disk (vd_desc r) (vd_avail_idx r) (vd_avail_ring r) v (vd_used_ring r) (vd_free r) (vd_used_idx r) (vd_info r) (vd_ops r).
Definition set_vd_used_ring (v : list Z) (r : virtio_disk) : virtio_disk :=
  mk_virtio_disk (vd_desc r) (vd_avail_idx r) (vd_avail_ring r) (vd_dev_idx r) v (vd_free r) (vd_used_idx r) (vd_info r) (vd_ops r).
Definition set_vd_free (v : list bool) (r : virtio_disk) : virtio_disk :=
  mk_virtio_disk (vd_desc r) (vd_avail_idx r) (vd_avail_ring r) (vd_dev_idx r) (vd_used_ring r) v (vd_used_idx r) (vd_info r) (vd_ops r).
Definition set_vd_used_idx (v : Z) (r : virtio_disk) : virtio_disk :=
  mk_virtio_disk (vd_desc r) (vd_avail_idx r) (vd_avail_ring r) (vd_dev_idx r) (vd_used_ring r) (vd_free r) v (vd_info r) (vd_ops r).
Definition set_vd_info (v : list track_info) (r : virtio_disk) : virtio_disk :=
  mk_virtio_disk (vd_desc r) (vd_avail_idx r) (vd_avail_ring r) (vd_dev_idx r) (vd_used_ring r) (vd_free r) (vd_used_idx r) v (vd_ops r).
Definition set_vd_ops (v : list virtio_blk_req) (r : virtio_disk) : virtio_disk :=
  mk_virtio_disk (vd_desc r) (vd_avail_idx r) (vd_avail_ring r) (vd_dev_idx r) (vd_used_ring r) (vd_free r) (vd_used_idx r) (vd_info r) v.

(** An access to the transmitter of the UART: its status is read, or it is given
    a byte. *)
Inductive uart_event := Polled | Sent (c : Z).

(** ** The kernel state: every global of the C files, the memory they manage, and
    what has been done to the UART and to the disk *)

Record kstate := mk_kstate {
  k_hart : hart;
  k_locks : gmap lockid spin_lock;
  k_slocks : gmap slockid sleep_lock;
  k_mem : memory;  (* physical memory *)
  k_free : Z;  (* kernel_free_list.head *)
  k_kpt : Z;  (* kernel_page_table *)
  k_procs : list process;  (* procs[N_PROC] *)
  k_init_proc : option nat;  (* init_proc *)
  k_pid : pid_state;
  k_bufs : list buffer;  (* bcache.buf, then bcache.head *)
  k_log : log;  (* lg *)
  k_sb : super_block;  (* sb *)
  k_inodes : list m_inode;  (* itable.inodes *)
  k_files : list file;  (* ftable.files *)
  k_pipes : gmap Z pipe;  (* pipes by address *)
  k_cons : console;  (* cons *)
  k_tx : uart_tx;  (* tx *)
  k_ticks : Z;  (* sys_timer.ticks *)
  k_vdisk : virtio_disk;  (* disk *)
  k_panicked : bool;  (* panicked *)
  k_devlist : list bool;  (* whether devlist[i] has its functions *)
  k_first : bool;  (* first, of fork_return *)
  k_uart : list uart_event;  (* the accesses to the UART, latest first *)
  k_disk : gmap Z (list Z);  (* contents of the disk, by block *)
  k_dwrites : list (Z * list Z)  (* blocks written so far, latest first *)
}.

Definition set_k_hart (v : hart) (r : kstate) : kstate :=
  mk_kstate v (k_locks r) (k_slocks r) (k_mem r) (k_free r) (k_kpt r) (k_procs r) (k_init_proc r) (k_pid r) (k_bufs r) (k_log r) (k_sb r) (k_inodes r) (k_files r) (k_pipes r) (k_cons r) (k_tx r) (k_ticks r) (k_vdisk r) (k_panicked r) (k_devlist r) (k_first r) (k_uart r) (k_disk r) (k_dwrites r).
Definition set_k_locks (v : gmap lockid spin_lock) (r : kstate) : kstate :=
  mk_kstate (k_hart r) v (k_slocks r) (k_mem r) (k_free r) (k_kpt r) (k_procs r) (k_init_proc r) (k_pid r) (k_bufs r) (k_log r) (k_sb r) (k_inodes r) (k_files r) (k_pipes r) (k_cons r) (k_tx r) (k_ticks r) (k_vdisk r) (k_panicked r) (k_devlist r) (k_first r) (k_uart r) (k_disk r) (k_dwrites r).
Definition set_k_slocks (v : gmap slockid sleep_lock) (r : kstate) : kstate :=
  mk_kstate (k_hart r) (k_locks r) v (k_mem r) (k_free r) (k_kpt r) (k_procs r) (k_init_proc r) (k_pid r) (k_bufs r) (k_log r) (k_sb r) (k_inodes r) (k_files r) (k_pipes r) (k_cons r) (k_tx r) (k_ticks r) (k_vdisk r) (k_panicked r) (k_devlist r) (k_first r) (k_uart r) (k_disk r) (k_dwrites r).
Definition set_k_mem (v : memory) (r : kstate) : kstate :=
  mk_kstate (k_hart r) (k_locks r) (k_slocks r) v (k_free r) (k_kpt r) (k_procs r) (k_init_proc r) (k_pid r) (k_bufs r) (k_log r) (k_sb r) (k_inodes r) (k_files r) (k_pipes r) (k_cons r) (k_tx r) (k_ticks r) (k_vdisk r) (k_panicked r) (k_devlist r) (k_first r) (k_uart r) (k_disk r) (k_dwrites r).
Definition set_k_free (v : Z) (r : kstate) : kstate :=
  mk_kstate (k_hart r) (k_locks r) (k_slocks r) (k_mem r) v (k_kpt r) (k_procs r) (k_init_proc r) (k_pid r) (k_bufs r) (k_log r) (k_sb r) (k_inodes r) (k_files r) (k_pipes r) (k_cons r) (k_tx r) (k_ticks r) (k_vdisk r) (k_panicked r) (k_devlist r) (k_first r) (k_uart r) (k_disk r) (k_dwrites r).
Definition set_k_kpt (v : Z) (r : kstate) : kstate :=
  mk_kstate (k_hart r) (k_locks r) (k_slocks r) (k_mem r) (k_free r) v (k_procs r) (k_init_proc r) (k_pid r) (k_bufs r) (k_log r) (k_sb r) (k_inodes r) (k_files r) (k_pipes r) (k_cons r) (k_tx r) (k_ticks r) (k_vdisk r) (k_panicked r) (k_devlist r) (k_first r) (k_uart r) (k_disk r) (k_dwrites r).
Definition set_k_procs (v : list process) (r : kstate) : kstate :=
  mk_kstate (k_hart r) (k_locks r) (k_slocks r) (k_mem r) (k_free r) (k_kpt r) v (k_init_proc r) (k_pid r) (k_bufs r) (k_log r) (k_sb r) (k_inodes r) (k_files r) (k_pipes r) (k_cons r) (k_tx r) (k_ticks r) (k_vdisk r) (k_panicked r) (k_devlist r) (k_first r) (k_uart r) (k_disk r) (k_dwrites r).
Definition set_k_init_proc (v : option nat) (r : kstate) : kstate :=
  mk_kstate (k_hart r) (k_locks r) (k_slocks r) (k_mem r) (k_free r) (k_kpt r) (k_procs r) v (k_pid r) (k_bufs r) (k_log r) (k_sb r) (k_inodes r) (k_files r) (k_pipes r) (k_cons r) (k_tx r) (k_ticks r) (k_vdisk r) (k_panicked r) (k_devlist r) (k_first r) (k_uart r) (k_disk r) (k_dwrites r).
Definition set_k_pid (v : pid_state) (r : kstate) : kstate :=
  mk_kstate (k_hart r) (k_locks r) (k_slocks r) (k_mem r) (k_free r) (k_kpt r) (k_procs r) (k_init_proc r) v (k_bufs r) (k_log r) (k_sb r) (k_inodes r) (k_files r) (k_pipes r) (k_cons r) (k_tx r) (k_ticks r) (k_vdisk r) (k_panicked r) (k_devlist r) (k_first r) (k_uart r) (k_disk r) (k_dwrites r).
Definition set_k_bufs (v : list buffer) (r : kstate) : kstate :=
  mk_kstate (k_hart r) (k_locks r) (k_slocks r) (k_mem r) (k_free r) (k_kpt r) (k_procs r) (k_init_proc r) (k_pid r) v (k_log r) (k_sb r) (k_inodes r) (k_files r) (k_pipes r) (k_cons r) (k_tx r) (k_ticks r) (k_vdisk r) (k_panicked r) (k_devlist r) (k_first r) (k_uart r) (k_disk r) (k_dwrites r).
Definition set_k_log (v : log) (r : kstate) : kstate :=
  mk_kstate (k_hart r) (k_locks r) (k_slocks r) (k_mem r) (k_free r) (k_kpt r) (k_procs r) (k_init_proc r) (k_pid r) (k_bufs r) v (k_sb r) (k_inodes r) (k_files r) (k_pipes r) (k_cons r) (k_tx r) (k_ticks r) (k_vdisk r) (k_panicked r) (k_devlist r) (k_first r) (k_uart r) (k_disk r) (k_dwrites r).
Definition set_k_sb (v : super_block) (r : kstate) : kstate :=
  mk_kstate (k_hart r) (k_locks r) (k_slocks r) (k_mem r) (k_free r) (k_kpt r) (k_procs r) (k_init_proc r) (k_pid r) (k_bufs r) (k_log r) v (k_inodes r) (k_files r) (k_pipes r) (k_cons r) (k_tx r) (k_ticks r) (k_vdisk r) (k_panicked r) (k_devlist r) (k_first r) (k_uart r) (k_disk r) (k_dwrites r).
Definition set_k_inodes (v : list m_inode) (r : kstate) : kstate :=
  mk_kstate (k_hart r) (k_locks r) (k_slocks r) (k_mem r) (k_free r) (k_kpt r) (k_procs r) (k_init_proc r) (k_pid r) (k_bufs r) (k_log r) (k_sb r) v (k_files r) (k_pipes r) (k_cons r) (k_tx r) (k_ticks r) (k_vdisk r) (k_panicked r) (k_devlist r) (k_first r) (k_uart r) (k_disk r) (k_dwrites r).
Definition set_k_files (v : list file) (r : kstate) : kstate :=
  mk_kstate (k_hart r) (k_locks r) (k_slocks r) (k_mem r) (k_free r) (k_kpt r) (k_procs r) (k_init_proc r) (k_pid r) (k_bufs r) (k_log r) (k_sb r) (k_inodes r) v (k_pipes r) (k_cons r) (k_tx r) (k_ticks r) (k_vdisk r) (k_panicked r) (k_devlist r) (k_first r) (k_uart r) (k_disk r) (k_dwrites r).
Definition set_k_pipes (v : gmap Z pipe) (r : kstate) : kstate :=
  mk_kstate (k_hart r) (k_locks r) (k_slocks r) (k_mem r) (k_free r) (k_kpt r) (k_procs r) (k_init_proc r) (k_pid r) (k_bufs r) (k_log r) (k_sb r) (k_inodes r) (k_files r) v (k_cons r) (k_tx r) (k_ticks r) (k_vdisk r) (k_panicked r) (k_devlist r) (k_first r) (k_uart r) (k_disk r) (k_dwrites r).
Definition set_k_cons (v : console) (r : kstate) : kstate :=
  mk_kstate (k_hart r) (k_locks r) (k_slocks r) (k_mem r) (k_free r) (k_kpt r) (k_procs r) (k_init_proc r) (k_pid r) (k_bufs r) (k_log r) (k_sb r) (k_inodes r) (k_files r) (k_pipes r) v (k_tx r) (k_ticks r) (k_vdisk r) (k_panicked r) (k_devlist r) (k_first r) (k_uart r) (k_disk r) (k_dwrites r).
Definition set_k_tx (v : uart_tx) (r : kstate) : kstate :=
  mk_kstate (k_hart r) (k_locks r) (k_slocks r) (k_mem r) (k_free r) (k_kpt r) (k_procs r) (k_init_proc r) (k_pid r) (k_bufs r) (k_log r) (k_sb r) (k_inodes r) (k_files r) (k_pipes r) (k_cons r) v (k_ticks r) (k_vdisk r) (k_panicked r) (k_devlist r) (k_first r) (k_uart r) (k_disk r) (k_dwrites r).
Definition set_k_ticks (v : Z) (r : kstate) : kstate :=
  mk_kstate (k_hart r) (k_locks r) (k_slocks r) (k_mem r) (k_free r) (k_kpt r) (k_procs r) (k_init_proc r) (k_pid r) (k_bufs r) (k_log r) (k_sb r) (k_inodes r) (k_files r) (k_pipes r) (k_cons r) (k_tx r) v (k_vdisk r) (k_panicked r) (k_devlist r) (k_first r) (k_uart r) (k_disk r) (k_dwrites r).
Definition set_k_vdisk (v : virtio_disk) (r : kstate) : kstate :=
  mk_kstate (k_hart r) (k_locks r) (k_slocks r) (k_mem r) (k_free r) (k_kpt r) (k_procs r) (k_init_proc r) (k_pid r) (k_bufs r) (k_log r) (k_sb r) (k_inodes r) (k_files r) (k_pipes r) (k_cons r) (k_tx r) (k_ticks r) v (k_panicked r) (k_devlist r) (k_first r) (k_uart r) (k_disk r) (k_dwrites r).
Definition set_k_panicked (v : bool) (r : kstate) : kstate :=
  mk_kstate (k_hart r) (k_locks r) (k_slocks r) (k_mem r) (k_free r) (k_kpt r) (k_procs r) (k_init_proc r) (k_pid r) (k_bufs r) (k_log r) (k_sb r) (k_inodes r) (k_files r) (k_pipes r) (k_cons r) (k_tx r) (k_ticks r) (k_vdisk r) v (k_devlist r) (k_first r) (k_uart r) (k_disk r) (k_dwrites r).
Definition set_k_devlist (v : list bool) (r : kstate) : kstate :=
  mk_kstate (k_hart r) (k_locks r) (k_slocks r) (k_mem r) (k_free r) (k_kpt r) (k_procs r) (k_init_proc r) (k_pid r) (k_bufs r) (k_log r) (k_sb r) (k_inodes r) (k_files r) (k_pipes r) (k_cons r) (k_tx r) (k_ticks r) (k_vdisk r) (k_panicked r) v (k_first r) (k_uart r) (k_disk r) (k_dwrites r).
Definition set_k_first (v : bool) (r : kstate) : kstate :=
  mk_kstate (k_hart r) (k_locks r) (k_slocks r) (k_mem r) (k_free r) (k_kpt r) (k_procs r) (k_init_proc r) (k_pid r) (k_bufs r) (k_log r) (k_sb r) (k_inodes r) (k_files r) (k_pipes r) (k_cons r) (k_tx r) (k_ticks r) (k_vdisk r) (k_panicked r) (k_devlist r) v (k_uart r) (k_disk r) (k_dwrites r).
Definition set_k_uart (v : list uart_event) (r : kstate) : kstate :=
  mk_kstate (k_hart r) (k_locks r) (k_slocks r) (k_mem r) (k_free r) (k_kpt r) (k_procs r) (k_init_proc r) (k_pid r) (k_bufs r) (k_log r) (k_sb r) (k_inodes r) (k_files r) (k_pipes r) (k_cons r) (k_tx r) (k_ticks r) (k_vdisk r) (k_panicked r) (k_devlist r) (k_first r) v (k_disk r) (k_dwrites r).
Definition set_k_disk (v : gmap Z (list Z)) (r : kstate) : kstate :=
  mk_kstate (k_hart r) (k_locks r) (k_slocks r) (k_mem r) (k_free r) (k_kpt r) (k_procs r) (k_init_proc r) (k_pid r) (k_bufs r) (k_log r) (k_sb r) (k_inodes r) (k_files r) (k_pipes r) (k_cons r) (k_tx r) (k_ticks r) (k_vdisk r) (k_panicked r) (k_devlist r) (k_first r) (k_uart r) v (k_dwrites r).
Definition set_k_dwrites (v : list (Z * list Z)) (r : kstate) : kstate :=
  mk_kstate (k_hart r) (k_locks r) (k_slocks r) (k_mem r) (k_free r) (k_kpt r) (k_procs r) (k_init_proc r) (k_pid r) (k_bufs r) (k_log r) (k_sb r) (k_inodes r) (k_files r) (k_pipes r) (k_cons r) (k_tx r) (k_ticks r) (k_vdisk r) (k_panicked r) (k_devlist r) (k_first r) (k_uart r) (k_disk r) v.

Abbreviation KM := (K nat kstate).

(** The globals when the kernel image is loaded: all zero but
    for [first] of [fork_return]. *)

Definition process0 : process :=
  mk_process PROC_UNUSED None false 0 0 None 0 0 0 0 (mk_context 0 0 (replicate 12 0))
    (replicate N_OFILE None) None (replicate 20 0).
Definition buffer0 : buffer := mk_buffer false false 0 0 0 (replicate 1024 0) 0 0.
Definition m_inode0 : m_inode := mk_m_inode 0 0 0 false 0 0 0 0 0 (replicate 13 0).
Definition file0 : file := mk_file 0 false false 0 None 0 0 0.

Definition bss : kstate :=
  mk_kstate (mk_hart 0 0 0 0 0 0 (replicate (Z.to_nat N_CPU) (mk_cpu None 0 false))) ∅ ∅ ∅ 0 0
    (replicate N_PROC process0) None (mk_pid_state (replicate 4096 0) 0 0)
    (replicate (S N_BUF) buffer0) (mk_log 0 0 0 false 0 0 (replicate 30 0))
    (mk_super_block 0 0 0 0 0 0 0 0 0) (replicate N_INODE m_inode0) (replicate N_FILE file0) ∅
    (mk_console (replicate 128 0) 0 0 0) (mk_uart_tx 0 0 (replicate 32 0)) 0
    (mk_virtio_disk (replicate 8 (mk_virtq_desc DNull 0 0 0)) 0 (replicate 8 0) 0 (replicate 8 0)
       (replicate 8 false) 0 (replicate 8 (mk_track_info None 0))
       (replicate 8 (mk_virtio_blk_req 0 0 0)))
    false (replicate (Z.to_nat N_DEV) false) true [] ∅ [].
