(* ===== verification/Machine.v ===== *)
(** Interrupt state, per-cpu data and spin locks: the register accessors of
    include/riscv.h, kernel/sched/cpu.c and the spin locks of kernel/lock.c, as
    one hart executes them. *)

From S2P Require Import Prelude Mem State.

(** ** include/riscv.h *)

Definition read_sstatus : KM Z := gets (λ s, sstatus (k_hart s)).
Definition write_sstatus (v : Z) : KM unit :=
  modify (λ s, set_k_hart (set_sstatus v (k_hart s)) s).

Definition intr_on : KM unit :=
  v ← read_sstatus; write_sstatus (Z.lor v SSTATUS_SIE).
Definition intr_off : KM unit :=
  v ← read_sstatus; write_sstatus (Z.land v (Z.lnot SSTATUS_SIE)).
Definition intr_get : KM bool :=
  v ← read_sstatus; mret (negb (Z.land v SSTATUS_SIE =? 0)).

(** ** Memory-mapped devices: registers of the disk, the UART and the PLIC;
    and the firmware that stops the machine *)

Class Device := {
  READ_REG : Z → KM Z;
  WRITE_REG : Z → Z → KM unit;
  ECALL_SHUTDOWN : KM unit; (* [li a7, 8; ecall]: the firmware's shutdown call *)
}.

(** ** kernel/sched/cpu.c *)

Definition current_cpuid : KM Z := gets (λ s, s32 (tp (k_hart s))).

(** [&cpus[id]]: the index, when it is one of the array. *)
Definition current_cpu : KM nat :=
  id ← current_cpuid;
  if (0 <=? id) && (id <? N_CPU) then mret (Z.to_nat id) else stuck Undefined.

Definition get_cpu (c : nat) : KM cpu :=
  o ← gets (λ s, cpus (k_hart s) !! c);
  match o with Some x => mret x | None => stuck Undefined end.

Definition upd_cpu (c : nat) (f : cpu → cpu) : KM unit :=
  modify (λ s, set_k_hart (set_cpus (alter f c (cpus (k_hart s))) (k_hart s)) s).

Definition push_off : KM unit :=
  c ← current_cpu;
  ie ← intr_get;
  intr_off;;
  x ← get_cpu c;
  when (n_off x =? 0) (upd_cpu c (set_intr_ena ie));;
  upd_cpu c (λ y, set_n_off (s32 (n_off y + 1)) y).

Definition pop_off : KM unit :=
  c ← current_cpu;
  ie ← intr_get;
  if (ie : bool) then panic "interrupts enabled" else
  x ← get_cpu c;
  if n_off x <? 1 then panic "pop off" else
  upd_cpu c (λ y, set_n_off (s32 (n_off y - 1)) y);;
  y ← get_cpu c;
  when ((n_off y =? 0) && intr_ena y) intr_on.

Definition running_proc : KM (option nat) :=
  push_off;;
  c ← current_cpu;
  x ← get_cpu c;
  pop_off;;
  mret (c_proc x).

(** ** kernel/lock.c: spin locks *)

Definition get_lock (l : lockid) : KM spin_lock :=
  gets (λ s, default (mk_spin_lock false 0 "") (k_locks s !! l)).
Definition upd_lock (l : lockid) (f : spin_lock → spin_lock) : KM unit :=
  x ← get_lock l; modify (λ s, set_k_locks (<[l := f x]> (k_locks s)) s).

Definition spin_lock_init (l : lockid) (name : string) : KM unit :=
  modify (λ s, set_k_locks (<[l := mk_spin_lock false (-1) name]> (k_locks s)) s).

Definition spin_lock_holding (l : lockid) : KM bool :=
  x ← get_lock l;
  id ← current_cpuid;
  mret (sl_locked x && (sl_cpuid x =? id)).

(** [__sync_lock_test_and_set(&lock->locked, true)] *)
Definition test_and_set (l : lockid) : KM bool :=
  x ← get_lock l; upd_lock l (set_sl_locked true);; mret (sl_locked x).

(** A lock held by another hart keeps this one in the [while] loop. *)
Definition spin_lock_acquire (l : lockid) : KM unit :=
  push_off;;
  h ← spin_lock_holding l;
  if (h : bool) then panic "repeatedly acquire lock" else
  b ← test_and_set l;
  if (b : bool) then stuck SpinForever else
  id ← current_cpuid;
  upd_lock l (set_sl_cpuid id).

Definition spin_lock_release (l : lockid) : KM unit :=
  h ← spin_lock_holding l;
  if negb h then panic "release unheld lock" else
  upd_lock l (set_sl_cpuid (-1));;
  upd_lock l (set_sl_locked false);;
  pop_off.

(** ** Well-formed hart states and what the calls do to them *)

Definition sie (h : hart) : bool := negb (Z.land (sstatus h) SSTATUS_SIE =? 0).
Definition this_cpu (h : hart) : cpu :=
  default (mk_cpu None 0 false) (cpus h !! Z.to_nat (tp h)).
Definition noff (h : hart) : Z := n_off (this_cpu h).

(** The executing hart is one of the [N_CPU], its nesting depth does not
    overflow, and interrupts are off inside a [push_off] section. *)
Record hart_ok (h : hart) : Prop := {
  ok_tp : 0 ≤ tp h < N_CPU;
  ok_cpus : length (cpus h) = Z.to_nat N_CPU;
  ok_noff : 0 ≤ noff h < 2 ^ 30;
  ok_sie : 0 < noff h → sie h = false;
}.

Definition upd_this (f : cpu → cpu) (h : hart) : hart :=
  set_cpus (alter f (Z.to_nat (tp h)) (cpus h)) h.

(** The effect of [push_off], of [pop_off], and of one followed by the other. *)
Definition hart_push (h : hart) : hart :=
  upd_this (λ y, set_n_off (n_off y + 1) y)
    (upd_this (λ y, if n_off y =? 0 then set_intr_ena (sie h) y else y)
      (set_sstatus (Z.land (sstatus h) (Z.lnot SSTATUS_SIE)) h)).

Definition hart_pop (h : hart) : hart :=
  let h' := upd_this (λ y, set_n_off (n_off y - 1) y) h in
  if (noff h' =? 0) && intr_ena (this_cpu h')
  then set_sstatus (Z.lor (sstatus h') SSTATUS_SIE) h' else h'.

Definition hart_settle (h : hart) : hart :=
  upd_this (λ y, if n_off y =? 0 then set_intr_ena (sie h) y else y) h.

(** A lock nobody holds, as [spin_lock_init] and [spin_lock_release] leave it. *)
Definition lock_free (l : lockid) (s : kstate) : Prop :=
  ∃ name, k_locks s !! l = Some (mk_spin_lock false (-1) name).

(** A lock held by the executing hart. *)
Definition lock_mine (l : lockid) (s : kstate) : Prop :=
  ∃ name, k_locks s !! l = Some (mk_spin_lock true (tp (k_hart s)) name).

#[export] Instance spin_lock_eq_dec : EqDecision spin_lock.
Proof. solve_decision. Defined.

(** ** Lemmas: the interrupt bit *)

Lemma land_sie v : Z.land v SSTATUS_SIE = if Z.testbit v 1 then SSTATUS_SIE else 0.
Proof.
  apply Z.bits_inj'. intros i Hi. rewrite Z.land_spec.
  change SSTATUS_SIE with (2 ^ 1).
  destruct (decide (i = 1)) as [->|Hne].
  - rewrite Z.pow2_bits_true by lia. destruct (Z.testbit v 1); [done|]. by rewrite Z.bits_0.
  - rewrite Z.pow2_bits_false by lia. rewrite andb_false_r.
    destruct (Z.testbit v 1); [by rewrite Z.pow2_bits_false by lia | by rewrite Z.bits_0].
Qed.

Lemma sie_testbit h : sie h = Z.testbit (sstatus h) 1.
Proof. unfold sie. rewrite land_sie. by destruct (Z.testbit (sstatus h) 1). Qed.

Lemma testbit_intr_off v : Z.testbit (Z.land v (Z.lnot SSTATUS_SIE)) 1 = false.
Proof. rewrite Z.land_spec. change (Z.testbit (Z.lnot SSTATUS_SIE) 1) with false. apply andb_false_r. Qed.

Lemma testbit_intr_on v : Z.testbit (Z.lor v SSTATUS_SIE) 1 = true.
Proof. rewrite Z.lor_spec. change (Z.testbit SSTATUS_SIE 1) with true. apply orb_true_r. Qed.

Lemma lnot_sie_bits i : 0 ≤ i → i ≠ 1 → Z.testbit (Z.lnot SSTATUS_SIE) i = true.
Proof.
  intros Hi Hne. rewrite Z.lnot_spec by done. change SSTATUS_SIE with (2 ^ 1).
  by rewrite Z.pow2_bits_false by lia.
Qed.

Lemma intr_off_on v : Z.testbit v 1 = true → Z.lor (Z.land v (Z.lnot SSTATUS_SIE)) SSTATUS_SIE = v.
Proof.
  intros H. apply Z.bits_inj'. intros i Hi. rewrite Z.lor_spec, Z.land_spec.
  destruct (decide (i = 1)) as [->|Hne]; [rewrite H; by rewrite orb_true_r|].
  rewrite lnot_sie_bits, andb_true_r by done. change SSTATUS_SIE with (2 ^ 1).
  rewrite Z.pow2_bits_false by lia. apply orb_false_r.
Qed.

Lemma intr_off_id v : Z.testbit v 1 = false → Z.land v (Z.lnot SSTATUS_SIE) = v.
Proof.
  intros H. apply Z.bits_inj'. intros i Hi. rewrite Z.land_spec.
  destruct (decide (i = 1)) as [->|Hne]; [by rewrite H|].
  by rewrite lnot_sie_bits, andb_true_r.
Qed.

(** ** Lemmas: the pure effects *)

Lemma this_cpu_lookup h :
  hart_ok h → cpus h !! Z.to_nat (tp h) = Some (this_cpu h).
Proof.
  intros [Htp Hl _ _]. unfold this_cpu, N_CPU in *.
  destruct (lookup_lt_is_Some_2 (cpus h) (Z.to_nat (tp h))) as [c ->]; [lia|done].
Qed.

Lemma this_upd_this f h : hart_ok h → this_cpu (upd_this f h) = f (this_cpu h).
Proof.
  intros H. unfold this_cpu at 1, upd_this. simpl.
  rewrite list_lookup_alter_eq, (this_cpu_lookup h H). done.
Qed.

Lemma upd_this_upd_this f g h : upd_this f (upd_this g h) = upd_this (f ∘ g) h.
Proof. unfold upd_this, set_cpus. simpl. by rewrite list_alter_alter_eq. Qed.

Lemma upd_this_ext f g h : hart_ok h → f (this_cpu h) = g (this_cpu h) → upd_this f h = upd_this g h.
Proof.
  intros H E. unfold upd_this. f_equal. apply list_eq. intros i.
  destruct (decide (i = Z.to_nat (tp h))) as [->|Hne].
  - by rewrite !list_lookup_alter_eq, (this_cpu_lookup h H); simpl; rewrite E.
  - by rewrite !list_lookup_alter_ne.
Qed.

Lemma upd_this_id f h : hart_ok h → f (this_cpu h) = this_cpu h → upd_this f h = h.
Proof.
  intros H E. rewrite (upd_this_ext f id) by done. unfold upd_this.
  rewrite list_alter_id by done. by destruct h.
Qed.

Lemma noff_upd_this f h : hart_ok h → noff (upd_this f h) = n_off (f (this_cpu h)).
Proof. intros H. unfold noff. by rewrite this_upd_this. Qed.

Lemma set_sstatus_ok v h :
  hart_ok h → (0 < noff h → Z.testbit v 1 = false) → hart_ok (set_sstatus v h).
Proof.
  intros [H1 H2 H3 H4] Hv. split; simpl; try done.
  intros Hn. rewrite sie_testbit. simpl. by apply Hv.
Qed.

Lemma upd_this_ok f h :
  hart_ok h → 0 ≤ n_off (f (this_cpu h)) < 2 ^ 30 →
  (0 < n_off (f (this_cpu h)) → sie h = false) → hart_ok (upd_this f h).
Proof.
  intros H Hn Hs. pose proof H as [H1 H2 _ _].
  split; simpl; try done; [by rewrite length_alter|..]; by rewrite noff_upd_this.
Qed.

Lemma hart_settle_nested h : hart_ok h → noff h ≠ 0 → hart_settle h = h.
Proof.
  intros H Hn. unfold hart_settle. apply upd_this_id; [done|].
  fold (noff h). by apply Z.eqb_neq in Hn as ->.
Qed.

Lemma this_cpu_push h :
  hart_ok h → this_cpu (hart_push h) =
  set_n_off (noff h + 1) (if noff h =? 0 then set_intr_ena (sie h) (this_cpu h) else this_cpu h).
Proof.
  intros H. unfold hart_push. rewrite upd_this_upd_this.
  assert (hart_ok (set_sstatus (Z.land (sstatus h) (Z.lnot SSTATUS_SIE)) h)) as H'.
  { apply set_sstatus_ok; [done|]. intros _. apply testbit_intr_off. }
  rewrite this_upd_this by done. simpl.
  change (this_cpu (set_sstatus _ h)) with (this_cpu h). fold (noff h).
  by destruct (noff h =? 0).
Qed.

Lemma hart_push_ok h : hart_ok h → noff h + 1 < 2 ^ 30 → hart_ok (hart_push h).
Proof.
  intros H Hn. pose proof H as [H1 H2 H3 H4]. split; simpl; try done.
  - by rewrite !length_alter.
  - change (0 ≤ noff (hart_push h) < 2 ^ 30). unfold noff at 1 2.
    rewrite this_cpu_push by done. cbn [n_off set_n_off]. lia.
  - intros _. rewrite sie_testbit. apply testbit_intr_off.
Qed.

Lemma noff_push h : hart_ok h → noff (hart_push h) = noff h + 1.
Proof. intros H. unfold noff at 1. by rewrite this_cpu_push. Qed.

Lemma c_proc_push h : hart_ok h → c_proc (this_cpu (hart_push h)) = c_proc (this_cpu h).
Proof. intros H. rewrite this_cpu_push by done. by case_match. Qed.

Lemma hart_settle_ok h : hart_ok h → hart_ok (hart_settle h).
Proof.
  intros H. pose proof H as [H1 H2 H3 H4]. unfold hart_settle.
  apply upd_this_ok; [done|..]; fold (noff h); destruct (noff h =? 0); done.
Qed.

Lemma this_cpu_settle h :
  hart_ok h → this_cpu (hart_settle h) =
  if noff h =? 0 then set_intr_ena (sie h) (this_cpu h) else this_cpu h.
Proof. intros H. unfold hart_settle. by rewrite this_upd_this. Qed.

Lemma noff_settle h : hart_ok h → noff (hart_settle h) = noff h.
Proof. intros H. unfold noff at 1. rewrite this_cpu_settle by done. by case_match. Qed.

Lemma c_proc_settle h : hart_ok h → c_proc (this_cpu (hart_settle h)) = c_proc (this_cpu h).
Proof. intros H. rewrite this_cpu_settle by done. by case_match. Qed.

Lemma hart_settle_idemp h : hart_ok h → hart_settle (hart_settle h) = hart_settle h.
Proof.
  intros H. unfold hart_settle at 1. apply upd_this_id; [by apply hart_settle_ok|].
  rewrite this_cpu_settle by done. change (sie (hart_settle h)) with (sie h).
  fold (noff h). destruct (noff h =? 0) eqn:E; simpl; fold (noff h); by rewrite E.
Qed.

(** Leaving the critical section restores the interrupt state; only the saved
    [intr_ena] of an outermost section differs from the state before it. *)
Lemma hart_pop_push h : hart_ok h → hart_pop (hart_push h) = hart_settle h.
Proof.
  intros H. set (h0 := set_sstatus (Z.land (sstatus h) (Z.lnot SSTATUS_SIE)) h).
  assert (hart_ok h0) as H0.
  { apply set_sstatus_ok; [done|]. intros _. apply testbit_intr_off. }
  assert (upd_this (λ y, set_n_off (n_off y - 1) y) (hart_push h) =
          upd_this (λ y, if n_off y =? 0 then set_intr_ena (sie h) y else y) h0) as E.
  { unfold hart_push. fold h0. rewrite !upd_this_upd_this. apply upd_this_ext; [done|].
    simpl. destruct (this_cpu h0) as [p n i]. unfold set_n_off, set_intr_ena. simpl.
    destruct (n =? 0); simpl; f_equal; lia. }
  unfold hart_pop. rewrite E. rewrite noff_upd_this, this_upd_this by done.
  change (this_cpu h0) with (this_cpu h). fold (noff h).
  destruct (Z.eqb_spec (noff h) 0) as [Hz|Hz]; simpl.
  - fold (noff h). rewrite (proj2 (Z.eqb_eq _ _) Hz). simpl.
    rewrite sie_testbit. destruct (Z.testbit (sstatus h) 1) eqn:Hb.
    + unfold hart_settle, upd_this, set_sstatus, set_cpus. simpl.
      rewrite intr_off_on, sie_testbit, Hb by done. done.
    + unfold hart_settle, upd_this, set_cpus, h0, set_sstatus. simpl.
      rewrite intr_off_id, sie_testbit, Hb by done. done.
  - fold (noff h). rewrite (proj2 (Z.eqb_neq _ _) Hz). simpl.
    assert (sie h = false) as Hs by (apply (ok_sie h H); pose proof (ok_noff h H); lia).
    unfold hart_settle, upd_this, set_cpus, h0, set_sstatus. simpl.
    rewrite sie_testbit in Hs. by rewrite intr_off_id.
Qed.

(** ** Lemmas: the calls *)

Lemma current_cpuid_eq s : hart_ok (k_hart s) → current_cpuid s = Ok (tp (k_hart s)) s.
Proof.
  intros [H _ _ _]. unfold current_cpuid, gets, N_CPU in *. by rewrite swrap_small by lia.
Qed.

Lemma current_cpu_eq s :
  hart_ok (k_hart s) → current_cpu s = Ok (Z.to_nat (tp (k_hart s))) s.
Proof.
  intros H. unfold current_cpu. erewrite bind_ok by by apply current_cpuid_eq.
  pose proof (ok_tp _ H). rewrite (proj2 (Z.leb_le _ _)), (proj2 (Z.ltb_lt _ _)) by lia. done.
Qed.

Lemma get_cpu_eq s :
  hart_ok (k_hart s) → get_cpu (Z.to_nat (tp (k_hart s))) s = Ok (this_cpu (k_hart s)) s.
Proof.
  intros H. unfold get_cpu. erewrite bind_ok by done. by rewrite this_cpu_lookup.
Qed.

Lemma intr_get_eq s : intr_get s = Ok (sie (k_hart s)) s.
Proof. done. Qed.

Lemma push_off_eq s :
  hart_ok (k_hart s) → push_off s = Ok tt (set_k_hart (hart_push (k_hart s)) s).
Proof.
  intros H. unfold push_off. erewrite bind_ok by by apply current_cpu_eq.
  erewrite bind_ok by done. erewrite bind_ok by done.
  set (h0 := set_sstatus (Z.land (sstatus (k_hart s)) (Z.lnot SSTATUS_SIE)) (k_hart s)).
  assert (hart_ok h0) as H0.
  { apply set_sstatus_ok; [done|]. intros _. apply testbit_intr_off. }
  erewrite bind_ok by by apply (get_cpu_eq (set_k_hart h0 s)).
  set (h1 := upd_this (λ y, if n_off y =? 0 then set_intr_ena (sie (k_hart s)) y else y) h0).
  assert (when (n_off (this_cpu h0) =? 0)
            (upd_cpu (Z.to_nat (tp (k_hart s))) (set_intr_ena (sie (k_hart s))))
            (set_k_hart h0 s) = Ok tt (set_k_hart h1 s)) as E1.
  { unfold h1. destruct (n_off (this_cpu h0) =? 0) eqn:E; simpl.
    - rewrite (upd_this_ext _ (set_intr_ena (sie (k_hart s))) h0); [done..|by rewrite E].
    - rewrite (upd_this_id _ h0); [done..|by rewrite E]. }
  erewrite bind_ok by exact E1. unfold hart_push. fold h0 h1.
  rewrite (upd_this_ext _ (λ y, set_n_off (s32 (n_off y + 1)) y) h1); [done|..].
  - apply upd_this_ok; [done|..]; pose proof H0 as [_ _ Hn Hs]; unfold noff in *;
      destruct (n_off (this_cpu h0) =? 0); done.
  - unfold h1. rewrite this_upd_this by done. pose proof (ok_noff _ H0). unfold noff in *.
    destruct (n_off (this_cpu h0) =? 0); simpl; rewrite swrap_small by lia; done.
Qed.

Lemma pop_off_eq s :
  hart_ok (k_hart s) → 0 < noff (k_hart s) →
  pop_off s = Ok tt (set_k_hart (hart_pop (k_hart s)) s).
Proof.
  intros H Hn. unfold pop_off. erewrite bind_ok by by apply current_cpu_eq.
  erewrite bind_ok by apply intr_get_eq. rewrite (ok_sie _ H Hn). erewrite bind_ok by by apply get_cpu_eq.
  fold (noff (k_hart s)). rewrite (proj2 (Z.ltb_ge _ _)) by lia.
  set (h1 := upd_this (λ y, set_n_off (n_off y - 1) y) (k_hart s)).
  pose proof (ok_noff _ H) as Hb.
  assert (hart_ok h1) as H1.
  { apply upd_this_ok; [done|..]; simpl; fold (noff (k_hart s)); [lia|].
    intros _. by apply ok_sie. }
  assert (upd_cpu (Z.to_nat (tp (k_hart s))) (λ y, set_n_off (s32 (n_off y - 1)) y) s
          = Ok tt (set_k_hart h1 s)) as E1.
  { unfold h1. rewrite (upd_this_ext _ (λ y, set_n_off (s32 (n_off y - 1)) y) (k_hart s)); [done..|].
    fold (noff (k_hart s)). rewrite swrap_small by lia. done. }
  erewrite bind_ok by exact E1. erewrite bind_ok by by apply (get_cpu_eq (set_k_hart h1 s)).
  unfold hart_pop. fold h1. simpl. fold (noff h1).
  by destruct ((noff h1 =? 0) && intr_ena (this_cpu h1)).
Qed.

Lemma running_proc_eq s :
  hart_ok (k_hart s) → noff (k_hart s) + 1 < 2 ^ 30 →
  running_proc s =
    Ok (c_proc (this_cpu (k_hart s))) (set_k_hart (hart_settle (k_hart s)) s).
Proof.
  intros H Hn. unfold running_proc. erewrite bind_ok by by apply push_off_eq.
  pose proof (hart_push_ok _ H Hn) as Hp.
  erewrite bind_ok by by apply (current_cpu_eq (set_k_hart _ _)).
  erewrite bind_ok by by apply (get_cpu_eq (set_k_hart (hart_push (k_hart s)) s)).
  erewrite bind_ok.
  2:{ apply pop_off_eq; [done|]. simpl. rewrite noff_push by done.
      pose proof (ok_noff _ H). lia. }
  simpl. by rewrite c_proc_push, hart_pop_push by done.
Qed.

Lemma get_lock_eq l x s : k_locks s !! l = Some x → get_lock l s = Ok x s.
Proof. intros H. unfold get_lock, gets. by rewrite H. Qed.

Lemma upd_lock_eq l f x s :
  k_locks s !! l = Some x → upd_lock l f s = Ok tt (set_k_locks (<[l := f x]> (k_locks s)) s).
Proof. intros H. unfold upd_lock. by erewrite bind_ok by by apply get_lock_eq. Qed.

Lemma spin_lock_holding_eq l x s :
  hart_ok (k_hart s) → k_locks s !! l = Some x →
  spin_lock_holding l s = Ok (sl_locked x && (sl_cpuid x =? tp (k_hart s))) s.
Proof.
  intros H Hl. unfold spin_lock_holding. erewrite bind_ok by by apply get_lock_eq.
  by erewrite bind_ok by by apply current_cpuid_eq.
Qed.

Lemma test_and_set_eq l x s :
  k_locks s !! l = Some x →
  test_and_set l s =
    Ok (sl_locked x) (set_k_locks (<[l := set_sl_locked true x]> (k_locks s)) s).
Proof.
  intros Hl. unfold test_and_set. erewrite bind_ok by by apply get_lock_eq.
  by erewrite bind_ok by by apply upd_lock_eq.
Qed.

Lemma spin_lock_acquire_eq l name s :
  hart_ok (k_hart s) → noff (k_hart s) + 1 < 2 ^ 30 →
  k_locks s !! l = Some (mk_spin_lock false (-1) name) →
  spin_lock_acquire l s =
    Ok tt (set_k_locks (<[l := mk_spin_lock true (tp (k_hart s)) name]> (k_locks s))
            (set_k_hart (hart_push (k_hart s)) s)).
Proof.
  intros H Hn Hl. unfold spin_lock_acquire. erewrite bind_ok by by apply push_off_eq.
  pose proof (hart_push_ok _ H Hn) as Hp.
  erewrite bind_ok by by apply spin_lock_holding_eq. cbn [sl_locked andb].
  erewrite bind_ok by by apply test_and_set_eq. cbn [sl_locked].
  erewrite bind_ok by by apply (current_cpuid_eq (set_k_locks _ _)).
  erewrite upd_lock_eq by (simpl; apply lookup_insert_eq). f_equal.
  unfold set_k_locks. simpl. by rewrite insert_insert_eq.
Qed.

Lemma spin_lock_release_eq l name s :
  hart_ok (k_hart s) → 0 < noff (k_hart s) →
  k_locks s !! l = Some (mk_spin_lock true (tp (k_hart s)) name) →
  spin_lock_release l s =
    Ok tt (set_k_locks (<[l := mk_spin_lock false (-1) name]> (k_locks s))
            (set_k_hart (hart_pop (k_hart s)) s)).
Proof.
  intros H Hn Hl. unfold spin_lock_release. erewrite bind_ok by by apply spin_lock_holding_eq.
  cbn [sl_locked sl_cpuid]. rewrite Z.eqb_refl. cbn [andb negb].
  erewrite bind_ok by by apply upd_lock_eq.
  erewrite bind_ok by (apply upd_lock_eq; simpl; apply lookup_insert_eq).
  rewrite pop_off_eq by done. f_equal. unfold set_k_locks, set_k_hart. simpl.
  by rewrite insert_insert_eq.
Qed.

(** ** Critical sections *)

(** A critical section around code that keeps the lock and the hart as it
    found them leaves the locks unchanged and the hart settled. *)
Lemma critical_section {A} (l : lockid) (body : KM A) s a s' :
  hart_ok (k_hart s) → noff (k_hart s) + 1 < 2 ^ 30 → lock_free l s →
  (∀ name, k_locks s !! l = Some (mk_spin_lock false (-1) name) →
    body (set_k_locks (<[l := mk_spin_lock true (tp (k_hart s)) name]> (k_locks s))
            (set_k_hart (hart_push (k_hart s)) s)) =
    Ok a (set_k_locks (<[l := mk_spin_lock true (tp (k_hart s)) name]> (k_locks s))
            (set_k_hart (hart_push (k_hart s)) s'))) →
  (spin_lock_acquire l;; (x ← body; spin_lock_release l;; mret x)) s =
    Ok a (set_k_locks (k_locks s) (set_k_hart (hart_settle (k_hart s)) s')).
Proof.
  intros H Hn [name Hl] Hb. erewrite bind_ok by by apply spin_lock_acquire_eq.
  erewrite bind_ok by by apply Hb.
  erewrite bind_ok.
  2:{ apply (spin_lock_release_eq l name).
      - by apply hart_push_ok.
      - simpl. rewrite noff_push by done. pose proof (ok_noff _ H). lia.
      - simpl. by rewrite lookup_insert_eq. }
  unfold mret, K_ret. f_equal. simpl. rewrite insert_insert_eq, insert_id by done.
  unfold set_k_locks, set_k_hart. simpl. by rewrite hart_pop_push.
Qed.

Lemma critical_section_unit (l : lockid) (body : KM unit) s s' :
  hart_ok (k_hart s) → noff (k_hart s) + 1 < 2 ^ 30 → lock_free l s →
  (∀ name, k_locks s !! l = Some (mk_spin_lock false (-1) name) →
    body (set_k_locks (<[l := mk_spin_lock true (tp (k_hart s)) name]> (k_locks s))
            (set_k_hart (hart_push (k_hart s)) s)) =
    Ok tt (set_k_locks (<[l := mk_spin_lock true (tp (k_hart s)) name]> (k_locks s))
            (set_k_hart (hart_push (k_hart s)) s'))) →
  (spin_lock_acquire l;; (body;; spin_lock_release l)) s =
    Ok tt (set_k_locks (k_locks s) (set_k_hart (hart_settle (k_hart s)) s')).
Proof.
  intros H Hn [name Hl] Hb. erewrite bind_ok by by apply spin_lock_acquire_eq.
  erewrite bind_ok by by apply Hb.
  rewrite (spin_lock_release_eq l name).
  - f_equal. simpl. rewrite insert_insert_eq, insert_id by done.
    unfold set_k_locks, set_k_hart. simpl. by rewrite hart_pop_push.
  - by apply hart_push_ok.
  - simpl. rewrite noff_push by done. pose proof (ok_noff _ H). lia.
  - simpl. by rewrite lookup_insert_eq.
Qed.

(** The state in which every [push_off] has been popped again, and the state
    inside a critical section of [l]. *)
Definition settled (s : kstate) : kstate := set_k_hart (hart_settle (k_hart s)) s.
Definition inside (l : lockid) (name : string) (s : kstate) : kstate :=
  set_k_locks (<[l := mk_spin_lock true (tp (k_hart s)) name]> (k_locks s))
    (set_k_hart (hart_push (k_hart s)) s).

Lemma settled_idemp s : hart_ok (k_hart s) → settled (settled s) = settled s.
Proof. intros H. unfold settled. simpl. by rewrite hart_settle_idemp. Qed.

Lemma settled_nested s : hart_ok (k_hart s) → noff (k_hart s) ≠ 0 → settled s = s.
Proof. intros H Hn. unfold settled. rewrite hart_settle_nested by done. by destruct s. Qed.

Lemma settled_ok s :
  hart_ok (k_hart s) → hart_ok (k_hart (settled s)) ∧ noff (k_hart (settled s)) = noff (k_hart s).
Proof. intros H. split; [by apply hart_settle_ok|by apply noff_settle]. Qed.

Lemma acquire_inside l name s :
  hart_ok (k_hart s) → noff (k_hart s) + 1 < 2 ^ 30 →
  k_locks s !! l = Some (mk_spin_lock false (-1) name) →
  spin_lock_acquire l s = Ok tt (inside l name s).
Proof. apply spin_lock_acquire_eq. Qed.

(** An update [f] of other fields commutes with [inside]: use it with
    [f s] for [s]. *)
Lemma release_inside l name s :
  hart_ok (k_hart s) → noff (k_hart s) + 1 < 2 ^ 30 →
  k_locks s !! l = Some (mk_spin_lock false (-1) name) →
  spin_lock_release l (inside l name s) = Ok tt (settled s).
Proof.
  intros H Hn Hl. rewrite (spin_lock_release_eq _ name).
  - f_equal. simpl. rewrite insert_insert_eq, insert_id, hart_pop_push by done. by destruct s.
  - by apply hart_push_ok.
  - simpl. rewrite noff_push by done. pose proof (ok_noff _ H). lia.
  - simpl. apply lookup_insert_eq.
Qed.
