(* ===== verification/Smp.v ===== *)
(** The spin locks of kernel/lock.c under interleaving: the harts take steps,
    one shared access each, in any order.  The code's fences order the accesses
    of a hart, so that memory is sequentially consistent for them.  Interrupts
    are off between [push_off] and [pop_off]: a hart runs its calls on the lock
    one after the other. *)

From S2P Require Import Prelude Mem State Machine.

(** ** Definitions *)

(** Where a hart is in its calls on the lock: the next access it makes. *)
Inductive pc :=
| Idle          (* outside: does not hold the lock, calls nothing *)
| AcqLocked     (* [spin_lock_acquire]: reads [locked] in [spin_lock_holding] *)
| AcqCpuid      (* reads [cpuid] in [spin_lock_holding] *)
| AcqSwap       (* [__sync_lock_test_and_set] *)
| AcqSetCpuid   (* [lock->cpuid = current_cpuid()] *)
| Critical      (* returned from [spin_lock_acquire] *)
| RelLocked     (* [spin_lock_release]: reads [locked] *)
| RelCpuid      (* reads [cpuid] *)
| RelClrCpuid   (* [lock->cpuid = -1] *)
| RelUnlock     (* [__sync_lock_release] *)
| Panicked (msg : string).

#[export] Instance pc_eq_dec : EqDecision pc.
Proof. solve_decision. Defined.

(** One access of hart [i] on the lock. *)
Inductive hart_step (i : nat) : pc → spin_lock → pc → spin_lock → Prop :=
| step_call_acquire lk : hart_step i Idle lk AcqLocked lk
| step_acq_locked lk : hart_step i AcqLocked lk (if sl_locked lk then AcqCpuid else AcqSwap) lk
| step_acq_cpuid lk :
    hart_step i AcqCpuid lk
      (if sl_cpuid lk =? Z.of_nat i then Panicked "repeatedly acquire lock" else AcqSwap) lk
| step_acq_swap lk :
    hart_step i AcqSwap lk (if sl_locked lk then AcqSwap else AcqSetCpuid) (set_sl_locked true lk)
| step_acq_set_cpuid lk : hart_step i AcqSetCpuid lk Critical (set_sl_cpuid (Z.of_nat i) lk)
| step_call_release lk : hart_step i Critical lk RelLocked lk
| step_rel_locked lk :
    hart_step i RelLocked lk (if sl_locked lk then RelCpuid else Panicked "release unheld lock") lk
| step_rel_cpuid lk :
    hart_step i RelCpuid lk
      (if sl_cpuid lk =? Z.of_nat i then RelClrCpuid else Panicked "release unheld lock") lk
| step_rel_clr_cpuid lk : hart_step i RelClrCpuid lk RelUnlock (set_sl_cpuid (-1) lk)
| step_rel_unlock lk : hart_step i RelUnlock lk Idle (set_sl_locked false lk).

(** The harts and the lock. *)
Record smp := mk_smp { harts : list pc; the_lock : spin_lock }.

Inductive step : smp → smp → Prop :=
| step_hart i p p' ps lk lk' :
    ps !! i = Some p → hart_step i p lk p' lk' →
    step (mk_smp ps lk) (mk_smp (<[i := p']> ps) lk').

(** After [spin_lock_init], all harts outside. *)
Definition initial (name : string) : smp :=
  mk_smp (replicate (Z.to_nat N_CPU) Idle) (mk_spin_lock false (-1) name).

(** From the successful swap to the release. *)
Definition owns (p : pc) : Prop :=
  match p with
  | AcqSetCpuid | Critical | RelLocked | RelCpuid | RelClrCpuid | RelUnlock => True
  | _ => False
  end.

#[export] Instance owns_dec p : Decision (owns p).
Proof. destruct p; simpl; apply _. Defined.

(** The [cpuid] while hart [i] is at [p] as the owner. *)
Definition owner_cpuid (i : nat) (p : pc) : Z :=
  match p with
  | Critical | RelLocked | RelCpuid | RelClrCpuid => Z.of_nat i
  | _ => -1
  end.

(** The owner [o] is the one hart inside, and the lock says so. *)
Record inv (o : option nat) (s : smp) : Prop := {
  inv_owner : ∀ i p, harts s !! i = Some p → owns p ↔ o = Some i;
  inv_lock : match o with
             | None => sl_locked (the_lock s) = false ∧ sl_cpuid (the_lock s) = -1
             | Some i => sl_locked (the_lock s) = true ∧
                 ∃ p, harts s !! i = Some p ∧ sl_cpuid (the_lock s) = owner_cpuid i p
             end;
  inv_panic : ∀ i msg, harts s !! i ≠ Some (Panicked msg);
}.

(** ** Lemmas *)

Lemma initial_inv name : inv None (initial name).
Proof.
  split; cbn [harts the_lock initial].
  - intros i p [-> _]%lookup_replicate. by split.
  - done.
  - intros i msg [? _]%lookup_replicate. done.
Qed.

(** A step of a hart that keeps its standing: the owner is the same, and the
    lock of an owner that moves has the [cpuid] of its new place. *)
Lemma inv_same o i p p' ps lk lk' :
  inv o (mk_smp ps lk) → ps !! i = Some p → (owns p ↔ owns p') → (∀ msg, p' ≠ Panicked msg) →
  sl_locked lk' = sl_locked lk →
  sl_cpuid lk' = (if decide (o = Some i) then owner_cpuid i p' else sl_cpuid lk) →
  inv o (mk_smp (<[i := p']> ps) lk').
Proof.
  intros [H1 H2 H3] Hi Ho Hp Hlk Hid. simpl in *. split; simpl.
  - intros j q Hj. destruct (decide (i = j)) as [<-|Hne].
    + rewrite list_lookup_insert_eq in Hj by by eapply lookup_lt_Some. simplify_eq.
      rewrite <-Ho. by apply H1.
    + rewrite list_lookup_insert_ne in Hj by done. by apply H1.
  - destruct o as [j|]; [|by rewrite Hlk, Hid]. destruct H2 as (Hl & q & Hq & Hc).
    split; [by rewrite Hlk|]. destruct (decide (i = j)) as [<-|Hne].
    + exists p'. rewrite list_lookup_insert_eq by by eapply lookup_lt_Some. split; [done|].
      by rewrite Hid, decide_True.
    + exists q. rewrite list_lookup_insert_ne by done. split; [done|].
      rewrite Hid, decide_False by congruence. done.
  - intros j msg. destruct (decide (i = j)) as [<-|Hne].
    + rewrite list_lookup_insert_eq by by eapply lookup_lt_Some. intros [= ?]. by apply (Hp msg).
    + rewrite list_lookup_insert_ne by done. apply H3.
Qed.

(** Entering, and leaving. *)
Lemma inv_enter i p ps lk :
  inv None (mk_smp ps lk) → ps !! i = Some p →
  inv (Some i) (mk_smp (<[i := AcqSetCpuid]> ps) (set_sl_locked true lk)).
Proof.
  intros [H1 [H2 H2'] H3] Hi. simpl in *. pose proof (lookup_lt_Some _ _ _ Hi). split; simpl.
  - intros j q Hj. destruct (decide (i = j)) as [<-|Hne].
    + rewrite list_lookup_insert_eq in Hj by done. by simplify_eq.
    + rewrite list_lookup_insert_ne in Hj by done. rewrite (H1 j q Hj). split; congruence.
  - split; [done|]. exists AcqSetCpuid. by rewrite list_lookup_insert_eq.
  - intros j msg. destruct (decide (i = j)) as [<-|Hne].
    + by rewrite list_lookup_insert_eq.
    + rewrite list_lookup_insert_ne by done. apply H3.
Qed.

Lemma inv_leave o i ps lk :
  inv o (mk_smp ps lk) → ps !! i = Some RelUnlock →
  inv None (mk_smp (<[i := Idle]> ps) (set_sl_locked false lk)).
Proof.
  intros [H1 H2 H3] Hi. simpl in *. pose proof (lookup_lt_Some _ _ _ Hi).
  assert (o = Some i) as -> by by apply (H1 i RelUnlock Hi). split; simpl.
  - intros j q Hj. destruct (decide (i = j)) as [<-|Hne].
    + rewrite list_lookup_insert_eq in Hj by done. by simplify_eq.
    + rewrite list_lookup_insert_ne in Hj by done. rewrite (H1 j q Hj). split; congruence.
  - destruct H2 as (_ & q & Hq & ->). by simplify_eq.
  - intros j msg. destruct (decide (i = j)) as [<-|Hne].
    + by rewrite list_lookup_insert_eq.
    + rewrite list_lookup_insert_ne by done. apply H3.
Qed.

(** What the lock says to the owner and to the others. *)
Lemma inv_mine o i p ps lk :
  inv o (mk_smp ps lk) → ps !! i = Some p → owns p →
  o = Some i ∧ sl_locked lk = true ∧ sl_cpuid lk = owner_cpuid i p.
Proof.
  intros [H1 H2 H3] Hi Hp. assert (o = Some i) as -> by by apply (H1 i p Hi).
  destruct H2 as (Hl & q & Hq & Hc). simpl in *. by simplify_eq.
Qed.

Lemma inv_other o i p ps lk :
  inv o (mk_smp ps lk) → ps !! i = Some p → ¬ owns p → o ≠ Some i ∧ sl_cpuid lk ≠ Z.of_nat i.
Proof.
  intros [H1 H2 H3] Hi Hp. assert (o ≠ Some i) as Ho by by rewrite <-(H1 i p Hi).
  split; [done|]. simpl in *. destruct o as [j|]; [|lia].
  destruct H2 as (_ & q & Hq & ->). destruct q; simpl; try lia; intros ?; apply Ho; f_equal; lia.
Qed.

Lemma step_inv o s s' : inv o s → step s s' → ∃ o', inv o' s'.
Proof.
  intros H Hs. destruct Hs as [i p p' ps lk lk' Hi Hs].
  destruct Hs;
    (match type of Hi with _ = Some ?q =>
       first [ destruct (inv_mine o i q ps lk H Hi I) as (-> & Hl & Hc)
             | destruct (inv_other o i q ps lk H Hi id) as (Ho & Hc) ] end).
  - exists o. eapply inv_same; [done..|]. by rewrite decide_False.
  - exists o. eapply inv_same; [done|done|by case_match|by case_match|done|]. by rewrite decide_False.
  - rewrite (proj2 (Z.eqb_neq _ _)) by done. exists o. eapply inv_same; [done..|]. by rewrite decide_False.
  - destruct (sl_locked lk) eqn:E.
    + exists o. eapply inv_same; [done|done|done|done|by rewrite E|]. by rewrite decide_False.
    + exists (Some i). destruct o as [j|]; [|by eapply inv_enter].
      destruct (inv_lock _ _ H) as [E' _]. simpl in E'. congruence.
  - exists (Some i). eapply inv_same; [done..|]. by rewrite decide_True.
  - exists (Some i). eapply inv_same; [done..|]. by rewrite decide_True.
  - rewrite Hl. exists (Some i). eapply inv_same; [done..|]. by rewrite decide_True.
  - rewrite Hc. simpl. rewrite Z.eqb_refl. exists (Some i). eapply inv_same; [done..|]. by rewrite decide_True.
  - exists (Some i). eapply inv_same; [done..|]. by rewrite decide_True.
  - exists None. by eapply inv_leave.
Qed.

Lemma reachable_inv s s' : rtc step s s' → ∀ o, inv o s → ∃ o', inv o' s'.
Proof.
  induction 1 as [s|s t u Hst Htu IH]; intros o H; [by exists o|].
  destruct (step_inv o s t H Hst) as [o' H']. by apply (IH o').
Qed.

(** ** Theorems *)

(** C34: in every state the harts can reach from [spin_lock_init], at most one
    hart is between the swap of [spin_lock_acquire] and the end of
    [spin_lock_release], the [cpuid] of the lock is that of the hart inside, and
    neither call panics, however the harts interleave. *)
Theorem mutual_exclusion name s :
  rtc step (initial name) s →
  (∀ i j p q, harts s !! i = Some p → harts s !! j = Some q → owns p → owns q → i = j) ∧
  (∀ i, harts s !! i = Some Critical →
     sl_locked (the_lock s) = true ∧ sl_cpuid (the_lock s) = Z.of_nat i) ∧
  (∀ i msg, harts s !! i ≠ Some (Panicked msg)).
Proof.
  intros Hr. destruct (reachable_inv _ _ Hr None (initial_inv name)) as [o H].
  destruct s as [ps lk]. simpl. split_and!.
  - intros i j p q Hi Hj Hp Hq. destruct (inv_mine _ _ _ _ _ H Hi Hp) as [-> _].
    destruct (inv_mine _ _ _ _ _ H Hj Hq) as [? _]. congruence.
  - intros i Hi. by destruct (inv_mine _ _ _ _ _ H Hi I) as (_ & ? & ?).
  - apply (inv_panic _ _ H).
Qed.

Lemma mutual_exclusion_witness :
  let s := mk_smp [Critical; AcqSwap; Idle] (mk_spin_lock true 0 "bcache") in
  rtc step (initial "bcache") s ∧ ∀ i msg, harts s !! i ≠ Some (Panicked msg).
Proof.
  assert (rtc step (initial "bcache")
    (mk_smp [Critical; AcqSwap; Idle] (mk_spin_lock true 0 "bcache"))) as Hr.
  { assert (∀ i s ps' lk', (∃ p p', harts s !! i = Some p ∧ hart_step i p (the_lock s) p' lk' ∧
      ps' = <[i := p']> (harts s)) → step s (mk_smp ps' lk')) as Hs.
    { intros i [ps lk] ps' lk' (p & p' & Hi & Hst & ->). by econstructor. }
    eapply rtc_l; [apply (Hs 0%nat); eexists _, _; split_and!; [reflexivity|constructor|reflexivity]|].
    eapply rtc_l; [apply (Hs 0%nat); eexists _, _; split_and!; [reflexivity|constructor|reflexivity]|].
    eapply rtc_l; [apply (Hs 1%nat); eexists _, _; split_and!; [reflexivity|constructor|reflexivity]|].
    eapply rtc_l; [apply (Hs 0%nat); eexists _, _; split_and!; [reflexivity|constructor|reflexivity]|].
    eapply rtc_l; [apply (Hs 1%nat); eexists _, _; split_and!; [reflexivity|constructor|reflexivity]|].
    eapply rtc_l; [apply (Hs 1%nat); eexists _, _; split_and!; [reflexivity|constructor|reflexivity]|].
    eapply rtc_l; [apply (Hs 1%nat); eexists _, _; split_and!; [reflexivity|constructor|reflexivity]|].
    eapply rtc_l; [apply (Hs 0%nat); eexists _, _; split_and!; [reflexivity|constructor|reflexivity]|].
    apply rtc_refl. }
  split; [exact Hr|]. exact (proj2 (proj2 (mutual_exclusion "bcache" _ Hr))).
Defined.

(** C35: a hart that calls [spin_lock_acquire] on a free lock while the others
    make no step gets it, with the lock as the sequential [spin_lock_acquire]
    leaves it. *)
Theorem acquire_refines l name s :
  hart_ok (k_hart s) → noff (k_hart s) + 1 < 2 ^ 30 →
  k_locks s !! l = Some (mk_spin_lock false (-1) name) →
  ∃ s' lk', spin_lock_acquire l s = Ok tt s' ∧ k_locks s' !! l = Some lk' ∧
    rtc (λ x y, hart_step (Z.to_nat (tp (k_hart s))) x.1 x.2 y.1 y.2)
      (AcqLocked, mk_spin_lock false (-1) name) (Critical, lk').
Proof.
  intros H Hn Hl. eexists _, _. split_and!.
  - by apply acquire_inside.
  - apply lookup_insert_eq.
  - set (i := Z.to_nat _). replace (tp (k_hart s)) with (Z.of_nat i).
    2:{ unfold i. pose proof (ok_tp _ H). lia. }
    eapply rtc_l; [apply (step_acq_locked i (mk_spin_lock false (-1) name) : hart_step i (_, _).1 (_, _).2 (_, _).1 (_, _).2)|].
    eapply rtc_l; [apply (step_acq_swap i (mk_spin_lock false (-1) name) : hart_step i (_, _).1 (_, _).2 (_, _).1 (_, _).2)|].
    eapply rtc_l; [apply (step_acq_set_cpuid i (mk_spin_lock true (-1) name) : hart_step i (_, _).1 (_, _).2 (_, _).1 (_, _).2)|].
    apply rtc_refl.
Qed.

Lemma acquire_refines_witness :
  ∃ s' lk', spin_lock_acquire LPid (final (spin_lock_init LPid "pid_lock" bss) bss) = Ok tt s' ∧
    k_locks s' !! LPid = Some lk'.
Proof.
  destruct (acquire_refines LPid "pid_lock" (final (spin_lock_init LPid "pid_lock" bss) bss))
    as (s' & lk' & H1 & H2 & _).
  - split; vm_compute; try reflexivity; try discriminate; split; reflexivity || discriminate.
  - vm_compute. reflexivity.
  - vm_compute. reflexivity.
  - exists s', lk'. split; [exact H1|exact H2].
Defined.
