(* ===== verification/Mm.v ===== *)
(** Physical page allocator, Sv39 page tables and user-memory copies:
    kernel/mm/mm.c, with the page macros of include/riscv.h.

    Page tables and the free list are in the byte memory [k_mem], as in the
    code.  A null pointer is [0].  Kernel buffers that are not pages (locals,
    block buffers) are passed and returned as the list of their bytes:
    [copy_in] and [copy_str_in] return, with the result code, the bytes they
    stored at [dst]. *)

From S2P Require Import Prelude Mem State Machine.

(** ** include/riscv.h: pages and page-table entries *)

Definition PAGE_ROUND_UP (n : Z) : Z :=
  Z.land (u64 (n + PAGE_SIZE - 1)) (Z.lnot (PAGE_SIZE - 1)).
Definition PAGE_ROUND_DOWN (n : Z) : Z := Z.land n (Z.lnot (PAGE_SIZE - 1)).

Definition PXMASK : Z := 0x1ff.
Definition PXSHIFT (level : Z) : Z := PAGE_SHIFT + 9 * level.
Definition PX (va level : Z) : Z := Z.land (Z.shiftr va (PXSHIFT level)) PXMASK.

Definition PTE2PA (pte : Z) : Z := u64 (Z.shiftl (Z.shiftr pte 10) 12).
Definition PA2PTE (pa : Z) : Z := u64 (Z.shiftl (Z.shiftr pa 12) 10).
Definition PTE_FLAGS (pte : Z) : Z := Z.land pte 0x3ff.

Definition PTE_V : Z := Z.shiftl 1 0.
Definition PTE_R : Z := Z.shiftl 1 1.
Definition PTE_W : Z := Z.shiftl 1 2.
Definition PTE_X : Z := Z.shiftl 1 3.
Definition PTE_U : Z := Z.shiftl 1 4.

Definition SATP_SV39 : Z := Z.shiftl 8 60.
Definition MAKE_SATP (page_table : Z) : Z := Z.lor SATP_SV39 (Z.shiftr page_table 12).

(** ** Access to physical memory *)

Definition load64 (a : Z) : KM Z := gets (λ s, ld64 (k_mem s) a).
Definition upd_mem (f : memory → memory) : KM unit :=
  modify (λ s, set_k_mem (f (k_mem s)) s).
Definition store64 (a v : Z) : KM unit := upd_mem (λ m, st64 m a v).

(** The address of [page_table[i]]. *)
Definition pte_at (page_table i : Z) : Z := page_table + 8 * i.

(** ** The page allocator *)

(** One round of the loop of [pm_init]: the page at [ptr] joins the list. *)
Definition pm_init_page (ptr : Z) : KM unit :=
  hd ← gets k_free;
  store64 ptr hd;;
  modify (set_k_free ptr).

Definition pm_init (KERNEL_END : Z) : KM unit :=
  modify (set_k_free 0);;
  spin_lock_init LFreeList "free_list";;
  loop (S (Z.to_nat ((MAX_PADDR - KERNEL_END) / PAGE_SIZE + 1)))
    (λ ptr, if ptr <? MAX_PADDR
            then pm_init_page ptr;; mret (inl (u64 (ptr + PAGE_SIZE)))
            else mret (inr tt)) KERNEL_END.

Definition pm_alloc : KM Z :=
  spin_lock_acquire LFreeList;;
  ptr ← (hd ← gets k_free;
         if negb (hd =? 0)
         then (nx ← load64 hd; modify (set_k_free nx);; mret hd)
         else mret 0);
  spin_lock_release LFreeList;;
  mret ptr.

Definition pm_zalloc : KM Z :=
  ptr ← pm_alloc;
  when (negb (ptr =? 0)) (upd_mem (λ m, memset m ptr 0 (Z.to_nat PAGE_SIZE)));;
  mret ptr.

Definition pm_free (ptr : Z) : KM unit :=
  spin_lock_acquire LFreeList;;
  (hd ← gets k_free; store64 ptr hd;; modify (set_k_free ptr));;
  spin_lock_release LFreeList.

(** ** Page tables *)

(** The loop of [walk] over the levels [level], ..., 1: the table of level 0,
    or [None] where the code returns the null pointer. *)
Fixpoint walk_levels (level : nat) (page_table va : Z) (alloc : bool) : KM (option Z) :=
  match level with
  | O => mret (Some page_table)
  | S l =>
      let pte := pte_at page_table (PX va (Z.of_nat level)) in
      v ← load64 pte;
      if negb (Z.land v PTE_V =? 0) then walk_levels l (PTE2PA v) va alloc
      else if alloc then
        pt ← pm_zalloc;
        if pt =? 0 then mret None else
        store64 pte (Z.lor (PA2PTE pt) PTE_V);;
        walk_levels l pt va alloc
      else mret None
  end.

(** The address of the leaf entry of [va], or 0. *)
Definition walk (page_table va : Z) (alloc : bool) : KM Z :=
  if MAX_VADDR <=? va then mret 0 else
  pt ← walk_levels 2 page_table va alloc;
  mret (match pt with Some pt => pte_at pt (PX va 0) | None => 0 end).

Definition pages_fuel (size : Z) : nat := S (Z.to_nat (size / PAGE_SIZE)).

Definition unmap_page (page_table : Z) (free : bool) (cur_va : Z) : KM unit :=
  pte ← walk page_table cur_va false;
  if pte =? 0 then panic "walk invalid PTE" else
  v ← load64 pte;
  if Z.land v PTE_V =? 0 then panic "unmapped page" else
  if PTE_FLAGS v =? PTE_V then panic "not a leaf" else
  when free (pm_free (PTE2PA v));;
  store64 pte 0.

Definition unmap_pages (page_table va size : Z) (free : bool) : KM unit :=
  if negb (va mod PAGE_SIZE =? 0) then panic "address is not aligned" else
  if negb (size mod PAGE_SIZE =? 0) then panic "memory size is not aligned" else
  let last := u64 (va + size) in
  loop (pages_fuel size)
    (λ cur_va, if cur_va <? last
               then unmap_page page_table free cur_va;; mret (inl (u64 (cur_va + PAGE_SIZE)))
               else mret (inr tt)) va.

Definition map_pages (page_table va pa size perm : Z) : KM Z :=
  if negb (va mod PAGE_SIZE =? 0) then panic "address is not aligned" else
  if negb (size mod PAGE_SIZE =? 0) then panic "memory size is not aligned" else
  if size =? 0 then panic "memory size is zero" else
  let last := u64 (va + size) in
  loop (pages_fuel size)
    (λ '(cur_va, pa),
       if cur_va <? last then
         pte ← walk page_table cur_va true;
         if pte =? 0 then
           unmap_pages page_table va (u64 (cur_va - va)) false;; mret (inr (-1))
         else
         v ← load64 pte;
         if negb (Z.land v PTE_V =? 0) then panic "remapping" else
         store64 pte (Z.lor (Z.lor (PA2PTE pa) PTE_V) perm);;
         mret (inl (u64 (cur_va + PAGE_SIZE), u64 (pa + PAGE_SIZE)))
       else mret (inr 0)) (va, pa).

(** [fuel] bounds the depth of the recursion; a page table has three levels. *)
Fixpoint free_page_table (fuel : nat) (page_table : Z) : KM unit :=
  match fuel with
  | O => stuck OutOfFuel
  | S f =>
      kiter (seqZ 0 512) (λ i,
        pte ← load64 (pte_at page_table i);
        if negb (Z.land pte PTE_V =? 0) && (Z.land pte (Z.lor (Z.lor PTE_R PTE_W) PTE_X) =? 0)
        then free_page_table f (PTE2PA pte);; store64 (pte_at page_table i) 0
        else if negb (Z.land pte PTE_V =? 0) then panic "free a page table in use"
        else mret tt);;
      pm_free page_table
  end.

(** ** User address spaces *)

Definition uvm_walk_addr (page_table va : Z) : KM Z :=
  if MAX_VADDR <=? va then panic "invalid virtual address" else
  pte ← walk page_table va false;
  if pte =? 0 then mret 0 else
  v ← load64 pte;
  if Z.land v PTE_V =? 0 then mret 0 else
  if Z.land v PTE_U =? 0 then mret 0 else
  mret (PTE2PA v).

Definition uvm_dealloc (page_table old_sz new_sz : Z) : KM Z :=
  if old_sz <=? new_sz then mret old_sz else
  let old_sz := PAGE_ROUND_UP old_sz in
  let new_sz := PAGE_ROUND_UP new_sz in
  unmap_pages page_table new_sz (u64 (old_sz - new_sz)) true;;
  mret new_sz.

Definition uvm_alloc (page_table old_sz new_sz xperm : Z) : KM Z :=
  if new_sz <=? old_sz then mret old_sz else
  let old_sz := PAGE_ROUND_UP old_sz in
  loop (S (pages_fuel (new_sz - old_sz)))
    (λ a,
       if a <? new_sz then
         mem ← pm_zalloc;
         if mem =? 0 then uvm_dealloc page_table a old_sz;; mret (inr 0) else
         r ← map_pages page_table a mem PAGE_SIZE (Z.lor (Z.lor PTE_R PTE_U) xperm);
         if negb (r =? 0) then
           pm_free mem;; uvm_dealloc page_table a old_sz;; mret (inr 0)
         else mret (inl (u64 (a + PAGE_SIZE)))
       else mret (inr new_sz)) old_sz.

Definition uvm_free (page_table size : Z) : KM unit :=
  when (0 <? size) (unmap_pages page_table 0 (PAGE_ROUND_UP size) true);;
  free_page_table 3 page_table.

Definition free_user_page_table (page_table size : Z) : KM unit :=
  unmap_pages page_table USER_STACK_BASE PAGE_SIZE true;;
  unmap_pages page_table TRAP_FRAME PAGE_SIZE false;;
  unmap_pages page_table TRAMPOLINE PAGE_SIZE false;;
  uvm_free page_table size.

(** [p->field], [p] an index in the process table. *)
Definition get_proc (p : nat) : KM process :=
  o ← gets (λ s, k_procs s !! p);
  match o with Some x => mret x | None => stuck Undefined end.

Section user_page_table.
(** The address of the trampoline page, from the linker script. *)
Context (trampoline : Z).

Definition get_user_page_table (p : nat) : KM Z :=
  x ← get_proc p;
  page_table ← pm_zalloc;
  if page_table =? 0 then mret 0 else
  let bad0 := pm_free page_table;; mret 0 in
  let bad1 := unmap_pages page_table TRAMPOLINE PAGE_SIZE false;; bad0 in
  let bad2 := unmap_pages page_table TRAP_FRAME PAGE_SIZE false;; bad1 in
  (* trampoline *)
  r ← map_pages page_table TRAMPOLINE trampoline PAGE_SIZE (Z.lor PTE_R PTE_X);
  if negb (r =? 0) then bad0 else
  (* trap frame *)
  r ← map_pages page_table TRAP_FRAME (p_tf x) PAGE_SIZE (Z.lor PTE_R PTE_W);
  if negb (r =? 0) then bad1 else
  (* user stack *)
  ustack ← pm_alloc;
  if ustack =? 0 then bad2 else
  r ← map_pages page_table USER_STACK_BASE ustack PAGE_SIZE (Z.lor (Z.lor PTE_U PTE_W) PTE_R);
  if negb (r =? 0) then pm_free ustack;; bad2 else
  mret page_table.

End user_page_table.

Definition copy_user_stack (dst src : Z) : KM unit :=
  dst_stack ← uvm_walk_addr dst USER_STACK_BASE;
  src_stack ← uvm_walk_addr src USER_STACK_BASE;
  upd_mem (λ m, memmove m dst_stack src_stack (Z.to_nat PAGE_SIZE)).

Definition copy_user_page_table (dst src size : Z) : KM Z :=
  let failed va := unmap_pages dst 0 va true;; mret (inr (-1)) in
  loop (S (pages_fuel size))
    (λ va,
       if va <? size then
         pte ← walk src va false;
         if pte =? 0 then panic "walk invalid PTE" else
         v ← load64 pte;
         if Z.land v PTE_V =? 0 then panic "page not present" else
         let pa := PTE2PA v in
         let flag := PTE_FLAGS v in
         mem ← pm_alloc;
         if mem =? 0 then failed va else
         upd_mem (λ m, memmove m mem pa (Z.to_nat PAGE_SIZE));;
         r ← map_pages dst va mem PAGE_SIZE flag;
         if negb (r =? 0) then pm_free mem;; failed va
         else mret (inl (u64 (va + PAGE_SIZE)))
       else
         copy_user_stack dst src;;
         mret (inr 0)) 0.

(** ** Copies between kernel buffers and user memory *)

Definition copy_in (page_table src n : Z) : KM (Z * list Z) :=
  loop (S (Z.to_nat n))
    (λ '(dst, src, n),
       if 0 <? n then
         let va := PAGE_ROUND_DOWN src in
         pa ← uvm_walk_addr page_table va;
         if pa =? 0 then mret (inr (-1, dst)) else
         let len := PAGE_SIZE - (src - va) in
         let len := if n <? len then n else len in
         bs ← gets (λ s, mbytes (k_mem s) (pa + (src - va)) (Z.to_nat len));
         mret (inl (dst ++ bs, u64 (src + len), n - len))
       else mret (inr (0, dst))) ([], src, n).

Definition copy_out (page_table dst : Z) (src : list Z) : KM Z :=
  loop (S (length src))
    (λ '(dst, src),
       let n := Z.of_nat (length src) in
       if 0 <? n then
         let va := PAGE_ROUND_DOWN dst in
         if MAX_VADDR <=? va then mret (inr (-1)) else
         pte ← walk page_table va false;
         if pte =? 0 then mret (inr (-1)) else
         v ← load64 pte;
         if (Z.land v PTE_V =? 0) || (Z.land v PTE_U =? 0) || (Z.land v PTE_W =? 0)
         then mret (inr (-1)) else
         let pa := PTE2PA v in
         let len := PAGE_SIZE - (dst - va) in
         let len := if n <? len then n else len in
         upd_mem (λ m, mwrite m (pa + (dst - va)) (take (Z.to_nat len) src));;
         mret (inl (u64 (dst + len), drop (Z.to_nat len) src))
       else mret (inr 0)) (dst, src).

(** The inner loop of [copy_str_in] and [copy_str_out]: up to [len] bytes of
    [s] from offset [i], [true] when the terminator was one of them. *)
Fixpoint copy_str_bytes (s : Z → Z) (i : Z) (len : nat) : list Z * bool :=
  match len with
  | O => ([], false)
  | S len =>
      if s i =? 0 then ([0], true)
      else let '(l, e) := copy_str_bytes s (i + 1) len in (s i :: l, e)
  end.

(** A round of [copy_str_in]: the bytes stored behind [dst] so far, and [max_len].
    As in the code, [len] is zero when [max_len -= len] is reached, and [src] is
    not advanced.  The function does not know the size of the caller's buffer: the
    bytes that it stores are all in the list, also those behind the buffer. *)
Definition copy_str_round (page_table src : Z) : list Z * Z → KM (list Z * Z + Z * list Z) := λ '(dst, max_len),
  if 0 <? max_len then
    let va := PAGE_ROUND_DOWN src in
    pa ← uvm_walk_addr page_table va;
    if pa =? 0 then mret (inr (-1, dst)) else
    let len := PAGE_SIZE - (src - va) in
    let len := if max_len <? len then max_len else len in
    '(bs, e) ← gets (λ s, copy_str_bytes (rd (k_mem s) (pa + (src - va))) 0 (Z.to_nat len));
    if (e : bool) then mret (inr (0, dst ++ bs)) else
    let len := 0 in
    mret (inl (dst ++ bs, max_len - len))
  else mret (inr (0, dst)).

Definition copy_str_in (fuel : nat) (page_table src max_len : Z) : KM (Z * list Z) :=
  loop fuel (copy_str_round page_table src) ([], max_len).

(** [src] as a string of the kernel; the code re-reads the same user page. *)
Definition copy_str_out (fuel : nat) (page_table dst : Z) (src : list Z) (max_len : Z) : KM Z :=
  loop fuel
    (λ '(src, max_len),
       if 0 <? max_len then
         let va := PAGE_ROUND_DOWN dst in
         pte ← walk page_table va false;
         if pte =? 0 then mret (inr (-1)) else
         v ← load64 pte;
         if (Z.land v PTE_V =? 0) || (Z.land v PTE_U =? 0) || (Z.land v PTE_W =? 0)
         then mret (inr (-1)) else
         let pa := PTE2PA v in
         let len := PAGE_SIZE - (dst - va) in
         let len := if max_len <? len then max_len else len in
         let r := copy_str_bytes (rdl src) 0 (Z.to_nat len) in
         upd_mem (λ m, mwrite m (pa + (dst - va)) (fst r));;
         if snd r then mret (inr 0) else
         let len := 0 in
         mret (inl (drop (length (fst r)) src, max_len - len))
       else mret (inr 0)) (src, max_len).

(** [running_proc()->page_table] *)
Definition the_proc : KM nat :=
  o ← running_proc;
  match o with Some p => mret p | None => stuck Undefined end.

Definition running_page_table : KM Z :=
  p ← the_proc; x ← get_proc p; mret (p_page_table x).

(** The kernel side of [either_copy_out] is a buffer outside of [k_mem]: its
    new contents are the second component. *)
Definition either_copy_out (to_user : bool) (dst : Z) (src : list Z) : KM (Z * list Z) :=
  if to_user then
    pt ← running_page_table;
    r ← copy_out pt dst src;
    mret (r, [])
  else mret (0, src).

(** [ksrc] are the bytes at the kernel address [src] when [from_user] is false. *)
Definition either_copy_in (from_user : bool) (src n : Z) (ksrc : list Z) : KM (Z * list Z) :=
  if from_user then
    pt ← running_page_table;
    copy_in pt src n
  else mret (0, take (Z.to_nat n) ksrc).

(** ** The kernel address space *)

Definition map_kernel_stacks (page_table : Z) : KM unit :=
  kiter (seqZ 0 (Z.of_nat N_PROC)) (λ i,
    pa ← pm_alloc;
    if pa =? 0 then panic "no free page" else
    r ← map_pages page_table (KERNEL_STACK i) pa PAGE_SIZE (Z.lor PTE_R PTE_W);
    when (negb (r =? 0)) (panic "mapping failed")).

Definition kvm_map (page_table va pa size perm : Z) : KM unit :=
  r ← map_pages page_table va pa size perm;
  when (negb (r =? 0)) (panic "mapping failed").

Definition UART0 : Z := 0x10000000.
Definition VIRTIO0 : Z := 0x10001000.
Definition PLIC : Z := 0x0c000000.

Definition kvm_make (TEXT_START TEXT_END trampoline : Z) : KM Z :=
  page_table ← pm_zalloc;
  if page_table =? 0 then panic "no free page" else
  kvm_map page_table UART0 UART0 PAGE_SIZE (Z.lor PTE_R PTE_W);;
  kvm_map page_table PLIC PLIC 0x4000000 (Z.lor PTE_R PTE_W);;
  kvm_map page_table VIRTIO0 VIRTIO0 PAGE_SIZE (Z.lor PTE_R PTE_W);;
  kvm_map page_table TEXT_START TEXT_START (u64 (TEXT_END - TEXT_START)) (Z.lor PTE_R PTE_X);;
  kvm_map page_table TEXT_END TEXT_END (u64 (MAX_PADDR - TEXT_END)) (Z.lor PTE_R PTE_W);;
  kvm_map page_table TRAMPOLINE trampoline PAGE_SIZE (Z.lor PTE_R PTE_X);;
  map_kernel_stacks page_table;;
  mret page_table.

Definition kvm_init (TEXT_START TEXT_END trampoline : Z) : KM unit :=
  pt ← kvm_make TEXT_START TEXT_END trampoline;
  modify (set_k_kpt pt).
