(* ===== verification/PageTable.v ===== *)
(** Sv39 translation, the well-formedness of page tables and of the free list,
    and the correctness of the allocator and of [walk], [map_pages] and
    [unmap_pages] (kernel/mm/mm.c) with respect to them. *)

From S2P Require Import Prelude Mem State Machine Mm.

(** ** The hardware's view of a page table *)

Definition pte_valid (v : Z) : bool := negb (Z.land v PTE_V =? 0).

(** A leaf entry maps a page: one of its R, W, X bits is set. *)
Definition pte_leaf (v : Z) : bool :=
  negb (Z.land v (Z.lor (Z.lor PTE_R PTE_W) PTE_X) =? 0).

(** Entry [i] of the table at [p]. *)
Definition ent (m : memory) (p i : Z) : Z := ld64 m (pte_at p i).

(** Sv39 translation through [level] levels of tables from the table at [p]. *)
Fixpoint pt_descend (m : memory) (level : nat) (p va : Z) : option Z :=
  match level with
  | O => Some p
  | S l =>
      let v := ent m p (PX va (Z.of_nat level)) in
      if pte_valid v then pt_descend m l (PTE2PA v) va else None
  end.

(** The address of the leaf entry of [va], when the tables down to it exist. *)
Definition pt_leaf (m : memory) (root va : Z) : option Z :=
  if MAX_VADDR <=? va then None
  else (λ p, pte_at p (PX va 0)) <$> pt_descend m 2 root va.

(** The valid leaf entry of [va], if any: the mapping the hardware uses. *)
Definition pt_lookup (m : memory) (root va : Z) : option Z :=
  a ← pt_leaf m root va;
  let v := ld64 m a in if pte_valid v then Some v else None.

(** ** Well-formedness *)

(** A physical page that can be named by a page-table entry. *)
Definition is_page (p : Z) : Prop := 0 < p < 2 ^ 56 ∧ p mod PAGE_SIZE = 0.

Definition in_page (p a : Z) : Prop := p ≤ a < p + PAGE_SIZE.

(** [N] maps the pages of the page table [root] to their levels. *)
Record pt_wf (m : memory) (N : gmap Z nat) (root : Z) : Prop := {
  wf_root : N !! root = Some 2%nat;
  wf_page : ∀ p l, N !! p = Some l → is_page p ∧ (l ≤ 2)%nat;
  wf_child : ∀ p l i,
    N !! p = Some (S l) → 0 ≤ i < 512 → pte_valid (ent m p i) = true →
    N !! PTE2PA (ent m p i) = Some l ∧ pte_leaf (ent m p i) = false;
  wf_inj : ∀ p l i p' l' i',
    N !! p = Some (S l) → 0 ≤ i < 512 → pte_valid (ent m p i) = true →
    N !! p' = Some (S l') → 0 ≤ i' < 512 → pte_valid (ent m p' i') = true →
    PTE2PA (ent m p i) = PTE2PA (ent m p' i') → p = p' ∧ i = i';
  wf_leaf : ∀ p i,
    N !! p = Some O → 0 ≤ i < 512 → pte_valid (ent m p i) = true →
    pte_leaf (ent m p i) = true;
  wf_parent : ∀ q l, N !! q = Some l → q = root ∨ ∃ p i,
    N !! p = Some (S l) ∧ 0 ≤ i < 512 ∧ pte_valid (ent m p i) = true ∧ PTE2PA (ent m p i) = q;
  wf_half : ∀ i, 256 ≤ i < 512 → pte_valid (ent m root i) = false;
}.

(** The free list from [hd] is [l]. *)
Fixpoint fl_rep (m : memory) (hd : Z) (l : list Z) : Prop :=
  match l with
  | [] => hd = 0
  | p :: l => hd = p ∧ is_page p ∧ fl_rep m (ld64 m p) l
  end.

(** The memory manager's state: free list [fl], page table [root] with its
    pages [N], none of them free. *)
Record mm_inv (s : kstate) (fl : list Z) (N : gmap Z nat) (root : Z) : Prop := {
  mi_hart : hart_ok (k_hart s);
  mi_noff : noff (k_hart s) + 1 < 2 ^ 30;
  mi_lock : lock_free LFreeList s;
  mi_bytes : bytes_ok (k_mem s);
  mi_fl : fl_rep (k_mem s) (k_free s) fl;
  mi_nodup : NoDup fl;
  mi_pt : pt_wf (k_mem s) N root;
  mi_disj : ∀ p, p ∈ fl → N !! p = None;
}.

(** Only the free list, the memory and the saved interrupt flag changed. *)
Definition only_mm (s s' : kstate) : Prop :=
  ∃ h, (h = k_hart s ∨ h = hart_settle (k_hart s)) ∧
       s' = set_k_hart h (set_k_mem (k_mem s') (set_k_free (k_free s') s)).

(** Memory outside of the pages [P] is the same. *)
Definition mem_same (P : Z → Prop) (m m' : memory) : Prop :=
  ∀ a, (∀ p, P p → ¬ in_page p a) → mget m' a = mget m a.

(** The page [p] is filled with zeros. *)
Definition zeroed (m : memory) (p : Z) : Prop := ∀ a, in_page p a → mget m a = 0.

(** ** Lemmas: indices, entries and flags *)

Lemma PX_eq va l : 0 ≤ l → PX va l = (va / 2 ^ (12 + 9 * l)) mod 512.
Proof.
  intros. unfold PX, PXSHIFT, PAGE_SHIFT, PXMASK. rewrite Z.shiftr_div_pow2 by lia.
  change 0x1ff with (Z.ones 9). by rewrite Z.land_ones by lia.
Qed.

Lemma PX_bounds va l : 0 ≤ l → 0 ≤ PX va l < 512.
Proof. intros. rewrite PX_eq by done. by apply Z.mod_pos_bound. Qed.

(** The three indices determine the page number of an address below [2^39]. *)
Lemma PX_inj va va' :
  0 ≤ va < MAX_VADDR → 0 ≤ va' < MAX_VADDR →
  PX va 0 = PX va' 0 → PX va 1 = PX va' 1 → PX va 2 = PX va' 2 →
  va / PAGE_SIZE = va' / PAGE_SIZE.
Proof.
  change MAX_VADDR with 274877906944. unfold PAGE_SIZE. intros Hv Hv'. rewrite !PX_eq by lia.
  change (2 ^ (12 + 9 * 0)) with 4096. change (2 ^ (12 + 9 * 1)) with (4096 * 512).
  change (2 ^ (12 + 9 * 2)) with (4096 * 262144). intros H0 H1 H2.
  rewrite <-!Z.div_div in H1, H2 by lia.
  assert (0 ≤ va / 4096 < 67108864) by (split; [apply Z.div_pos; lia|apply Z.div_lt_upper_bound; lia]).
  assert (0 ≤ va' / 4096 < 67108864) by (split; [apply Z.div_pos; lia|apply Z.div_lt_upper_bound; lia]).
  revert H0 H1 H2. generalize dependent (va / 4096). generalize dependent (va' / 4096).
  intros y Hy x Hx. Z.div_mod_to_equations. lia.
Qed.

Lemma land_low k n x : 0 ≤ n → 0 ≤ x < 2 ^ n → Z.land (k * 2 ^ n) x = 0.
Proof.
  intros Hn Hx. apply Z.bits_inj'. intros i Hi. rewrite Z.land_spec, Z.bits_0.
  destruct (Z.ltb_spec i n).
  - rewrite Z.mul_pow2_bits_low by lia. done.
  - replace x with (x mod 2 ^ n) by (by apply Z.mod_small).
    rewrite Z.mod_pow2_bits_high by lia. apply andb_false_r.
Qed.

Lemma lor_low k n x : 0 ≤ n → 0 ≤ x < 2 ^ n → Z.lor (k * 2 ^ n) x = k * 2 ^ n + x.
Proof. intros Hn Hx. symmetry. by apply Z.add_nocarry_lor, land_low. Qed.

Lemma lor_bounds n x y : 0 ≤ n → 0 ≤ x < 2 ^ n → 0 ≤ y < 2 ^ n → 0 ≤ Z.lor x y < 2 ^ n.
Proof.
  intros Hn Hx Hy. replace (Z.lor x y) with (Z.lor x y mod 2 ^ n).
  - apply Z.mod_pos_bound. apply Z.pow_pos_nonneg; lia.
  - apply Z.bits_inj'. intros i Hi. destruct (Z.ltb_spec i n).
    + by rewrite Z.mod_pow2_bits_low.
    + rewrite Z.mod_pow2_bits_high by lia. rewrite Z.lor_spec.
      rewrite <-(Z.mod_small x (2 ^ n)), <-(Z.mod_small y (2 ^ n)) by done.
      by rewrite !Z.mod_pow2_bits_high by lia.
Qed.

(** The entry [map_pages] stores, and, with [perm = 0], the one [walk] does. *)
Definition mk_pte (pa perm : Z) : Z := Z.lor (Z.lor (PA2PTE pa) PTE_V) perm.

Lemma PA2PTE_eq pa : 0 ≤ pa < 2 ^ 56 → PA2PTE pa = pa / 4096 * 2 ^ 10.
Proof.
  intros Hpa. unfold PA2PTE. rewrite Z.shiftl_mul_pow2, Z.shiftr_div_pow2 by lia.
  change (2 ^ 12) with 4096. apply wrap_small.
  assert (0 ≤ pa / 4096 < 2 ^ 44); [|lia].
  split; [apply Z.div_pos; lia|apply Z.div_lt_upper_bound; lia].
Qed.

Lemma mk_pte_eq pa perm :
  0 ≤ pa < 2 ^ 56 → 0 ≤ perm < 2 ^ 10 → mk_pte pa perm = pa / 4096 * 2 ^ 10 + Z.lor PTE_V perm.
Proof.
  intros Hpa Hp. unfold mk_pte. rewrite PA2PTE_eq by done.
  rewrite <-Z.lor_assoc, lor_low; [done..|]. apply lor_bounds; [lia| |done]. by vm_compute.
Qed.

Lemma mk_pte_bounds pa perm :
  0 ≤ pa < 2 ^ 56 → 0 ≤ perm < 2 ^ 10 → 0 ≤ mk_pte pa perm < 2 ^ 64.
Proof.
  intros Hpa Hp. rewrite mk_pte_eq by done.
  assert (0 ≤ Z.lor PTE_V perm < 2 ^ 10) by (apply lor_bounds; [lia|by vm_compute|done]).
  assert (0 ≤ pa / 4096 < 2 ^ 44); [|lia].
  split; [apply Z.div_pos; lia|apply Z.div_lt_upper_bound; lia].
Qed.

Lemma PTE2PA_mk_pte pa perm :
  is_page pa → 0 ≤ perm < 2 ^ 10 → PTE2PA (mk_pte pa perm) = pa.
Proof.
  intros [Hpa Ha] Hp. rewrite mk_pte_eq by lia.
  assert (0 ≤ Z.lor PTE_V perm < 2 ^ 10) by (apply lor_bounds; [lia|by vm_compute|done]).
  unfold PTE2PA. rewrite Z.shiftl_mul_pow2, Z.shiftr_div_pow2 by lia.
  rewrite Z.div_add_l by lia. rewrite (Z.div_small (Z.lor PTE_V perm)), Z.add_0_r by done.
  change (2 ^ 12) with 4096. unfold PAGE_SIZE in Ha.
  rewrite wrap_small; Z.div_mod_to_equations; lia.
Qed.

Lemma PTE_FLAGS_mk_pte pa perm :
  0 ≤ pa < 2 ^ 56 → 0 ≤ perm < 2 ^ 10 → PTE_FLAGS (mk_pte pa perm) = Z.lor PTE_V perm.
Proof.
  intros Hpa Hp. unfold PTE_FLAGS. change 0x3ff with (Z.ones 10).
  rewrite Z.land_ones, mk_pte_eq by lia. rewrite Z.add_comm, Z.mod_add by lia.
  apply Z.mod_small. apply lor_bounds; [lia|by vm_compute|done].
Qed.

Lemma pte_valid_testbit v : pte_valid v = Z.testbit v 0.
Proof.
  unfold pte_valid. change PTE_V with (Z.ones 1). rewrite Z.land_ones by lia.
  change (2 ^ 1) with 2. rewrite Z.bit0_odd, Zmod_odd. by destruct (Z.odd v).
Qed.

Lemma pte_valid_mk_pte pa perm : pte_valid (mk_pte pa perm) = true.
Proof.
  rewrite pte_valid_testbit. unfold mk_pte. rewrite !Z.lor_spec.
  change (Z.testbit PTE_V 0) with true. by rewrite orb_true_r.
Qed.

Lemma pte_leaf_mk_pte pa perm : 0 ≤ pa < 2 ^ 56 → pte_leaf (mk_pte pa perm) = pte_leaf perm.
Proof.
  intros Hpa. unfold pte_leaf, mk_pte. rewrite !Z.land_lor_distr_l, PA2PTE_eq by done.
  rewrite land_low; [done|lia|by vm_compute].
Qed.

Lemma pte_valid_0 : pte_valid 0 = false.
Proof. done. Qed.

(** A leaf entry passes the "not a leaf" test of [unmap_pages]. *)
Lemma leaf_flags v : pte_leaf v = true → PTE_FLAGS v ≠ PTE_V.
Proof.
  intros H E. unfold pte_leaf in H. apply negb_true_iff, Z.eqb_neq in H. apply H.
  unfold PTE_FLAGS in E.
  transitivity (Z.land (Z.land v 0x3ff) (Z.lor (Z.lor PTE_R PTE_W) PTE_X)); [|by rewrite E].
  by rewrite <-Z.land_assoc.
Qed.

(** ** Lemmas: pages *)

Lemma pages_disjoint p q a : is_page p → is_page q → in_page p a → in_page q a → p = q.
Proof. unfold is_page, in_page, PAGE_SIZE. intros [] [] ??. Z.div_mod_to_equations. lia. Qed.

Lemma is_page_end p : is_page p → p + PAGE_SIZE ≤ 2 ^ 56.
Proof.
  intros [H1 H2]. unfold PAGE_SIZE in *. change (2 ^ 56) with (17592186044416 * 4096) in *.
  Z.to_euclidean_division_equations; lia.
Qed.

Lemma pte_at_in p i k : 0 ≤ i < 512 → 0 ≤ k < 8 → in_page p (pte_at p i + k).
Proof. unfold in_page, pte_at, PAGE_SIZE. lia. Qed.

(** Two entries in pages are the same address or do not overlap. *)
Lemma pte_at_inj p q i j :
  is_page p → is_page q → 0 ≤ i < 512 → 0 ≤ j < 512 →
  pte_at p i = pte_at q j → p = q ∧ i = j.
Proof.
  intros Hp Hq Hi Hj E. assert (p = q) as ->.
  { apply (pages_disjoint p q (pte_at p i + 0)); try done; [apply pte_at_in; lia|].
    rewrite E. apply pte_at_in; lia. }
  unfold pte_at in E. lia.
Qed.

Lemma ent_store m p q i j v :
  is_page p → is_page q → 0 ≤ i < 512 → 0 ≤ j < 512 → 0 ≤ v < 2 ^ 64 →
  ent (st64 m (pte_at p i) v) q j = if decide (p = q ∧ i = j) then v else ent m q j.
Proof.
  intros Hp Hq Hi Hj Hv. unfold ent. case_decide as E.
  - destruct E as [-> ->]. by apply ldn_stn.
  - apply ldn_stn_out. unfold is_page, pte_at, PAGE_SIZE in *.
    destruct Hp as [? Hp], Hq as [? Hq].
    assert (p = q ∧ i ≠ j ∨ p + 4096 ≤ q ∨ q + 4096 ≤ p) as Hc.
    { destruct (decide (p = q)) as [->|Hne]; [left; split; [done|intros ->; by apply E]|].
      right. Z.div_mod_to_equations. lia. }
    lia.
Qed.

Lemma ent_same P m m' p i :
  mem_same P m m' → (∀ q, P q → is_page q) → is_page p → ¬ P p → 0 ≤ i < 512 →
  ent m' p i = ent m p i.
Proof.
  intros Hm HP Hp HnP Hi. apply ldn_ext. intros b Hb. apply Hm. intros q Hq Hin.
  assert (in_page p b) by (unfold in_page, pte_at, PAGE_SIZE in *; lia).
  assert (p = q) as -> by (apply (pages_disjoint p q b); auto). done.
Qed.

(** ** Lemmas: translation through a well-formed table *)

Lemma descend_level m N root k p va q :
  pt_wf m N root → N !! p = Some k → pt_descend m k p va = Some q → N !! q = Some O.
Proof.
  intros Hwf. revert p. induction k as [|k IH]; intros p Hp Hd; simpl in Hd; [congruence|].
  case_match eqn:Hv; [|done]. eapply IH; [|done].
  eapply (wf_child _ _ _ Hwf); [done|by apply PX_bounds; lia|done].
Qed.

(** Two walks that end in the same table took the same path. *)
Lemma descend_inj m N root k p p' va va' q :
  pt_wf m N root → N !! p = Some k → N !! p' = Some k →
  pt_descend m k p va = Some q → pt_descend m k p' va' = Some q →
  p = p' ∧ ∀ j, 1 ≤ j ≤ Z.of_nat k → PX va j = PX va' j.
Proof.
  intros Hwf. revert p p'. induction k as [|k IH]; intros p p' Hp Hp' Hd Hd'; cbn [pt_descend] in *.
  { split; [congruence|lia]. }
  destruct (pte_valid (ent m p _)) eqn:Hv; [|done].
  destruct (pte_valid (ent m p' _)) eqn:Hv'; [|done].
  pose proof (PX_bounds va (Z.of_nat (S k)) ltac:(lia)) as Hb.
  pose proof (PX_bounds va' (Z.of_nat (S k)) ltac:(lia)) as Hb'.
  destruct (wf_child _ _ _ Hwf _ _ _ Hp Hb Hv) as [Hc _].
  destruct (wf_child _ _ _ Hwf _ _ _ Hp' Hb' Hv') as [Hc' _].
  destruct (IH _ _ Hc Hc' Hd Hd') as [Heq Hpx].
  destruct (wf_inj _ _ _ Hwf _ _ _ _ _ _ Hp Hb Hv Hp' Hb' Hv' Heq) as [-> Hi].
  split; [done|]. intros j Hj. destruct (decide (j = Z.of_nat (S k))) as [->|]; [done|].
  apply Hpx. lia.
Qed.

Lemma pt_leaf_high m root va : MAX_VADDR ≤ va → pt_leaf m root va = None.
Proof. intros H. unfold pt_leaf. by rewrite (proj2 (Z.leb_le _ _) H). Qed.

Lemma pt_leaf_Some m root va q :
  va < MAX_VADDR → pt_descend m 2 root va = Some q →
  pt_leaf m root va = Some (pte_at q (PX va 0)).
Proof. intros H Hd. unfold pt_leaf. by rewrite (proj2 (Z.leb_gt _ _) H), Hd. Qed.

Lemma pt_leaf_None m root va : pt_descend m 2 root va = None → pt_leaf m root va = None.
Proof. intros Hd. unfold pt_leaf. rewrite Hd. by case_match. Qed.

Lemma pt_lookup_Some m root va a :
  pt_leaf m root va = Some a →
  pt_lookup m root va = if pte_valid (ld64 m a) then Some (ld64 m a) else None.
Proof. intros H. unfold pt_lookup. by rewrite H. Qed.

Lemma pt_lookup_None m root va : pt_leaf m root va = None → pt_lookup m root va = None.
Proof. intros H. unfold pt_lookup. by rewrite H. Qed.

Lemma pt_leaf_inv m N root va a :
  pt_wf m N root → pt_leaf m root va = Some a →
  va < MAX_VADDR ∧ ∃ q, pt_descend m 2 root va = Some q ∧ N !! q = Some O ∧ a = pte_at q (PX va 0).
Proof.
  intros Hwf. unfold pt_leaf. destruct (Z.leb_spec MAX_VADDR va); [done|].
  intros (q & Hd & ->)%fmap_Some. split; [lia|]. exists q. split_and!; [done| |done].
  eapply descend_level; [done| |done]. apply (wf_root _ _ _ Hwf).
Qed.

(** Distinct pages have distinct leaf entries. *)
Lemma pt_leaf_inj m N root va va' a :
  pt_wf m N root → 0 ≤ va → 0 ≤ va' →
  pt_leaf m root va = Some a → pt_leaf m root va' = Some a →
  va / PAGE_SIZE = va' / PAGE_SIZE.
Proof.
  intros Hwf H0 H0' Ha Ha'.
  destruct (pt_leaf_inv _ _ _ _ _ Hwf Ha) as (Hv & q & Hd & Hq & ->).
  destruct (pt_leaf_inv _ _ _ _ _ Hwf Ha') as (Hv' & q' & Hd' & Hq' & E).
  pose proof (wf_page _ _ _ Hwf _ _ Hq) as [Hpq _].
  pose proof (wf_page _ _ _ Hwf _ _ Hq') as [Hpq' _].
  apply pte_at_inj in E as [<- E0]; [|done|done|by apply PX_bounds; lia..].
  pose proof (wf_root _ _ _ Hwf) as Hr.
  destruct (descend_inj _ _ _ _ _ _ _ _ _ Hwf Hr Hr Hd Hd') as [_ Hpx].
  apply PX_inj; [lia..|done| |]; apply Hpx; simpl; lia.
Qed.

Lemma pt_leaf_page m root va va' :
  0 ≤ va → 0 ≤ va' → va / PAGE_SIZE = va' / PAGE_SIZE → pt_leaf m root va = pt_leaf m root va'.
Proof.
  intros H0 H0' E.
  assert (∀ l, 0 ≤ l → PX va l = PX va' l) as Hpx.
  { intros l Hl. rewrite !PX_eq by done. rewrite Z.pow_add_r by lia. change (2 ^ 12) with PAGE_SIZE.
    rewrite <-!Z.div_div by (unfold PAGE_SIZE; lia). by rewrite E. }
  assert ((MAX_VADDR <=? va) = (MAX_VADDR <=? va')) as Hm.
  { change MAX_VADDR with (67108864 * 4096). unfold PAGE_SIZE in E.
    destruct (Z.leb_spec (67108864 * 4096) va), (Z.leb_spec (67108864 * 4096) va'); try done;
      Z.div_mod_to_equations; lia. }
  unfold pt_leaf. rewrite Hm, (Hpx 0) by lia. case_match; [done|]. f_equal.
  cbn [pt_descend]. rewrite (Hpx (Z.of_nat 2)), (Hpx (Z.of_nat 1)) by lia. done.
Qed.

(** ** Lemmas: stores into a page table *)

Lemma pt_descend_ext m m' N root k p va :
  pt_wf m N root →
  (∀ q l i, N !! q = Some (S l) → 0 ≤ i < 512 → ent m' q i = ent m q i) →
  N !! p = Some k → pt_descend m' k p va = pt_descend m k p va.
Proof.
  intros Hwf He. revert p. induction k as [|k IH]; intros p Hp; cbn [pt_descend]; [done|].
  rewrite (He p k) by (done || apply PX_bounds; lia). case_match eqn:Hv; [|done].
  apply IH. eapply (wf_child _ _ _ Hwf); [done|by apply PX_bounds; lia|done].
Qed.

Lemma pt_leaf_ext m m' N root va :
  pt_wf m N root →
  (∀ q l i, N !! q = Some (S l) → 0 ≤ i < 512 → ent m' q i = ent m q i) →
  pt_leaf m' root va = pt_leaf m root va.
Proof.
  intros Hwf He. unfold pt_leaf.
  by rewrite (pt_descend_ext m m' N root) by (done || apply (wf_root _ _ _ Hwf)).
Qed.

(** A memory with the same entries has the same page table. *)
Lemma pt_wf_ext m m' N root :
  pt_wf m N root →
  (∀ q l i, N !! q = Some l → 0 ≤ i < 512 → ent m' q i = ent m q i) →
  pt_wf m' N root ∧ ∀ va, pt_lookup m' root va = pt_lookup m root va.
Proof.
  intros Hwf He. split.
  - pose proof Hwf as [H1 H2 H3 H4 H5 H6 H7]. split; try done.
    + intros p l i Hp Hi. rewrite (He p (S l)) by done. eauto.
    + intros p l i p' l' i' Hp Hi Hv Hp' Hi' Hv'. rewrite (He p (S l)), (He p' (S l')) in * by done. eauto.
    + intros p i Hp Hi. rewrite (He p 0%nat) by done. eauto.
    + intros q l Hq. destruct (H6 q l Hq) as [?|(p & i & Hp & Hi & Hv & E)]; [by left|right].
      exists p, i. by rewrite (He p (S l)).
    + intros i Hi. rewrite (He root 2%nat) by (done || lia). by apply H7.
  - intros va. unfold pt_lookup. rewrite (pt_leaf_ext m m' N root) by eauto.
    destruct (pt_leaf m root va) as [a|] eqn:Ha; simpl; [|done].
    destruct (pt_leaf_inv _ _ _ _ _ Hwf Ha) as (_ & q & _ & Hq & ->).
    fold (ent m' q (PX va 0)) (ent m q (PX va 0)).
    by rewrite (He q 0%nat) by (done || apply PX_bounds; lia).
Qed.

(** Storing a leaf entry changes the translation of its page only. *)
Lemma pt_store_leaf m N root va a v :
  pt_wf m N root → 0 ≤ va → pt_leaf m root va = Some a → 0 ≤ v < 2 ^ 64 →
  (pte_valid v = true → pte_leaf v = true) →
  pt_wf (st64 m a v) N root ∧
  ∀ va', 0 ≤ va' → pt_lookup (st64 m a v) root va' =
    if decide (va' / PAGE_SIZE = va / PAGE_SIZE) then (if pte_valid v then Some v else None)
    else pt_lookup m root va'.
Proof.
  intros Hwf H0 Ha Hv Hlf.
  destruct (pt_leaf_inv _ _ _ _ _ Hwf Ha) as (Hlt & q & Hd & Hq & Ea).
  pose proof (wf_page _ _ _ Hwf _ _ Hq) as [Hpq _].
  pose proof (PX_bounds va 0 ltac:(lia)) as Hb.
  assert (∀ p l i, N !! p = Some l → 0 ≤ i < 512 →
    ent (st64 m a v) p i = if decide (q = p ∧ PX va 0 = i) then v else ent m p i) as He.
  { intros p l i Hp Hi. subst a. apply ent_store; try done. by eapply (wf_page _ _ _ Hwf). }
  assert (∀ p l i, N !! p = Some (S l) → 0 ≤ i < 512 → ent (st64 m a v) p i = ent m p i) as Hint.
  { intros p l i Hp Hi. rewrite (He p (S l)) by done. case_decide as E; [|done].
    destruct E as [-> _]. congruence. }
  split.
  - pose proof Hwf as [H1 H2 H3 H4 H5 H6 H7]. split; try done.
    + intros p l i Hp Hi. rewrite (Hint p l) by done. eauto.
    + intros p l i p' l' i' Hp Hi Hv1 Hp' Hi' Hv2.
      rewrite (Hint p l), (Hint p' l') in * by done. eauto.
    + intros p i Hp Hi. rewrite (He p 0%nat) by done. case_decide; eauto.
    + intros q' l Hq'. destruct (H6 q' l Hq') as [?|(p & i & Hp & Hi & Hv' & E)]; [by left|right].
      exists p, i. by rewrite (Hint p l).
    + intros i Hi. rewrite (Hint root 1%nat) by (done || lia). by apply H7.
  - intros va' H0'. case_decide as E.
    + erewrite pt_lookup_Some.
      2:{ rewrite (pt_leaf_ext m _ N root), (pt_leaf_page m root va' va) by done. exact Ha. }
      by rewrite ldn_stn.
    + destruct (pt_leaf m root va') as [a'|] eqn:Ha'.
      2:{ rewrite !pt_lookup_None; [done..|]. by rewrite (pt_leaf_ext m _ N root). }
      rewrite (pt_lookup_Some _ _ _ _ Ha'), (pt_lookup_Some (st64 m a v) root va' a')
        by (by rewrite (pt_leaf_ext m _ N root)).
      destruct (pt_leaf_inv _ _ _ _ _ Hwf Ha') as (_ & q' & _ & Hq' & Ea').
      assert (ld64 (st64 m a v) a' = ld64 m a') as ->; [|done].
      rewrite Ea'. fold (ent (st64 m a v) q' (PX va' 0)). rewrite (He q' 0%nat).
      * case_decide as E'; [|done]. destruct E' as [-> E']. destruct E.
        apply (pt_leaf_inj m N root va' va a); try done. congruence.
      * done.
      * apply PX_bounds; lia.
Qed.

(** Linking a fresh, zeroed table below an invalid entry of an inner table
    keeps the table well-formed and every translation unchanged. *)
Section add_table.
Context (m m1 : memory) (N : gmap Z nat) (root p i n : Z) (l : nat).
Hypothesis Hwf : pt_wf m N root.
Hypothesis Hp : N !! p = Some (S l).
Hypothesis Hi : 0 ≤ i < 512.
Hypothesis Hinv : pte_valid (ent m p i) = false.
Hypothesis Hn : is_page n.
Hypothesis Hfresh : N !! n = None.
Hypothesis Hhalf : p = root → i < 256.
Hypothesis Hsame : mem_same (eq n) m m1.
Hypothesis Hzero : ∀ j, 0 ≤ j < 512 → ent m1 n j = 0.

Let m2 := st64 m1 (pte_at p i) (mk_pte n 0).

Lemma add_page_p : is_page p.
Proof. by eapply (wf_page _ _ _ Hwf). Qed.

Lemma add_ent q k j :
  <[n := l]> N !! q = Some k → 0 ≤ j < 512 →
  ent m2 q j = if decide (p = q ∧ i = j) then mk_pte n 0
               else if decide (n = q) then 0 else ent m q j.
Proof.
  intros Hq Hj. assert (is_page q) as Hpq.
  { rewrite lookup_insert in Hq. case_decide; [by subst|]. by eapply (wf_page _ _ _ Hwf). }
  unfold m2. rewrite ent_store; try done; [|apply add_page_p|apply mk_pte_bounds; [|lia]].
  - case_decide; [done|]. case_decide as E; [subst; by apply Hzero|].
    apply (ent_same (eq n)); try done. by intros ? <-.
  - destruct Hn. lia.
Qed.

Lemma add_old q k j :
  N !! q = Some k → 0 ≤ j < 512 →
  ent m2 q j = if decide (p = q ∧ i = j) then mk_pte n 0 else ent m q j.
Proof.
  intros Hq Hj. assert (n ≠ q) by congruence.
  rewrite (add_ent q k) by (done || by rewrite lookup_insert_ne).
  case_decide; [done|]. by case_decide.
Qed.

Lemma add_new j : 0 ≤ j < 512 → ent m2 n j = 0.
Proof.
  intros Hj. rewrite (add_ent n l) by (done || by rewrite lookup_insert_eq).
  case_decide as E; [destruct E; congruence|]. by case_decide.
Qed.

Lemma PTE2PA_new : PTE2PA (mk_pte n 0) = n.
Proof. apply PTE2PA_mk_pte; [done|lia]. Qed.

Lemma add_wf : pt_wf m2 (<[n := l]> N) root.
Proof.
  pose proof Hwf as [H1 H2 H3 H4 H5 H6 H7].
  assert (∀ q k j, <[n := l]> N !! q = Some (S k) → 0 ≤ j < 512 → pte_valid (ent m2 q j) = true →
    (p = q ∧ i = j ∧ k = l ∧ PTE2PA (ent m2 q j) = n ∧ pte_leaf (ent m2 q j) = false) ∨
    (N !! q = Some (S k) ∧ ent m2 q j = ent m q j)) as Hcase.
  { intros q k j Hq Hj Hv. rewrite (add_ent q (S k)) in * by done.
    rewrite lookup_insert in Hq. destruct (decide (p = q ∧ i = j)) as [[-> ->]|Hne].
    - left. rewrite decide_False in Hq by congruence. split_and!; try done; [congruence|apply PTE2PA_new|].
      by rewrite pte_leaf_mk_pte by (destruct Hn; lia).
    - right. case_decide; [by rewrite pte_valid_0 in Hv|]. done. }
  split.
  - rewrite lookup_insert_ne by congruence. done.
  - intros q k. rewrite lookup_insert. case_decide; [|by eauto]. intros [= <-].
    subst. split; [done|]. apply H2 in Hp. lia.
  - intros q k j Hq Hj Hv. destruct (Hcase q k j Hq Hj Hv) as [(-> & -> & -> & -> & Hl)|[Hq' E]].
    + by rewrite lookup_insert_eq.
    + rewrite E in *. destruct (H3 q k j Hq' Hj Hv) as [Hc Hl]. split; [|done].
      rewrite lookup_insert_ne; [done|]. congruence.
  - intros q k j q' k' j' Hq Hj Hv Hq' Hj' Hv' E.
    destruct (Hcase q k j Hq Hj Hv) as [(-> & -> & -> & E1 & _)|[Hq1 E1]],
      (Hcase q' k' j' Hq' Hj' Hv') as [(<- & <- & -> & E2 & _)|[Hq2 E2]].
    + done.
    + exfalso. rewrite E1, E2 in *. destruct (H3 q' k' j' Hq2 Hj' Hv') as [Hc _]. congruence.
    + exfalso. rewrite E1, E2 in *. destruct (H3 q k j Hq1 Hj Hv) as [Hc _]. congruence.
    + rewrite E1, E2 in *. eauto.
  - intros q j Hq Hj Hv. rewrite (add_ent q 0%nat) in * by done.
    rewrite lookup_insert in Hq. case_decide as E1.
    { destruct E1 as [<- _]. rewrite decide_False in Hq by congruence. congruence. }
    case_decide; [by rewrite pte_valid_0 in Hv|]. eauto.
  - intros q k. rewrite lookup_insert. case_decide as E; intros Hq.
    + subst q. injection Hq as <-. right. exists p, i. rewrite lookup_insert_ne by congruence.
      rewrite (add_old p (S l)) by done. rewrite decide_True by done. split; [done|]. split; [exact Hi|]. split; [apply pte_valid_mk_pte|apply PTE2PA_new].
    + destruct (H6 q k Hq) as [?|(p' & i' & Hp' & Hi' & Hv & Eq)]; [by left|right]. exists p', i'.
      rewrite lookup_insert_ne by congruence. rewrite (add_old p' (S k)) by done. rewrite decide_False; [done|].
      intros [Ep Ei]. rewrite <-Ep, <-Ei in Hv. congruence.
  - intros j Hj. rewrite (add_old root 2%nat) by (done || lia). rewrite decide_False; [by apply H7|].
    intros [Ep Ei]. specialize (Hhalf Ep). lia.
Qed.

(** A walk in the new memory is the old one, or ends in an empty table. *)
Lemma add_descend k q va :
  N !! q = Some k →
  match pt_descend m k q va with
  | Some r => pt_descend m2 k q va = Some r
  | None => ∀ r, pt_descend m2 k q va = Some r → r = n
  end.
Proof.
  revert q. induction k as [|k IH]; intros q Hq; cbn [pt_descend]; [done|].
  pose proof (PX_bounds va (Z.of_nat (S k)) ltac:(lia)) as Hb.
  rewrite (add_old q (S k)) by done. case_decide as E.
  - destruct E as [<- E]. rewrite <-E, Hinv.
    rewrite pte_valid_mk_pte, PTE2PA_new. destruct k as [|k]; cbn [pt_descend]; [congruence|].
    rewrite add_new by (apply PX_bounds; lia). by rewrite pte_valid_0.
  - destruct (pte_valid (ent m q _)) eqn:Hv; [|by intros r [=]]. apply IH.
    eapply (wf_child _ _ _ Hwf); done.
Qed.

Lemma add_lookup va : pt_lookup m2 root va = pt_lookup m root va.
Proof.
  destruct (Z.leb_spec MAX_VADDR va) as [Hlt|Hlt].
  { rewrite !pt_lookup_None; [done|..]; by apply pt_leaf_high. }
  pose proof (add_descend 2 root va (wf_root _ _ _ Hwf)) as Hd.
  pose proof (PX_bounds va 0 ltac:(lia)) as Hb.
  destruct (pt_descend m 2 root va) as [r|] eqn:E.
  - rewrite (pt_lookup_Some m _ _ _ (pt_leaf_Some m _ _ _ Hlt E)).
    rewrite (pt_lookup_Some m2 _ _ _ (pt_leaf_Some m2 _ _ _ Hlt Hd)).
    fold (ent m2 r (PX va 0)) (ent m r (PX va 0)).
    assert (N !! r = Some 0%nat) as Hr.
    { eapply descend_level; [done|apply (wf_root _ _ _ Hwf)|done]. }
    rewrite (add_old r 0%nat) by done. case_decide as E'; [|done]. destruct E'; congruence.
  - rewrite (pt_lookup_None m) by by apply pt_leaf_None.
    destruct (pt_descend m2 2 root va) as [r|] eqn:E2.
    + rewrite (pt_lookup_Some m2 _ _ _ (pt_leaf_Some m2 _ _ _ Hlt E2)), (Hd r eq_refl).
      fold (ent m2 n (PX va 0)). by rewrite add_new, pte_valid_0.
    + by rewrite pt_lookup_None by by apply pt_leaf_None.
Qed.

End add_table.
