(* ===== verification/MmAlloc.v ===== *)
(** Correctness of the page allocator and of [walk] (kernel/mm/mm.c): the free
    list is a stack of disjoint pages, and building intermediate tables keeps
    the page table well-formed and all translations unchanged. *)

From S2P Require Import Prelude Mem State Machine Mm PageTable.

(** ** What changes *)

(** [grew root s fl N s' fl' N']: pages moved from the free list [fl] to the
    page table [N], no translation and no valid inner entry changed. *)
Record grew (root : Z) (s : kstate) (fl : list Z) (N : gmap Z nat)
    (s' : kstate) (fl' : list Z) (N' : gmap Z nat) : Prop := {
  gr_inv : mm_inv s' fl' N' root;
  gr_only : only_mm s s';
  gr_sub : N ⊆ N';
  gr_fl : ∃ used, fl = used ++ fl' ∧ ∀ q, is_Some (N' !! q) ↔ is_Some (N !! q) ∨ q ∈ used;
  gr_mem : mem_same (λ q, is_Some (N' !! q)) (k_mem s) (k_mem s');
  gr_lookup : ∀ va, pt_lookup (k_mem s') root va = pt_lookup (k_mem s) root va;
  gr_ent : ∀ q l i, N !! q = Some (S l) → 0 ≤ i < 512 → pte_valid (ent (k_mem s) q i) = true →
    ent (k_mem s') q i = ent (k_mem s) q i;
}.

(** ** [only_mm] and frames *)

Lemma only_mm_refl s : only_mm s s.
Proof. exists (k_hart s). split; [by left|]. by destruct s. Qed.

Lemma only_mm_trans s1 s2 s3 :
  hart_ok (k_hart s1) → only_mm s1 s2 → only_mm s2 s3 → only_mm s1 s3.
Proof.
  intros Hok (h2 & Hh2 & E2) (h3 & Hh3 & E3).
  assert (k_hart s2 = h2) as Eh by (by rewrite E2).
  exists h3. split.
  - rewrite Eh in Hh3. destruct Hh2 as [->| ->], Hh3 as [->| ->]; auto.
    right. by apply hart_settle_idemp.
  - rewrite E3, E2. done.
Qed.

Lemma only_mm_locks s s' : only_mm s s' → k_locks s' = k_locks s.
Proof. intros (h & _ & ->). done. Qed.

Lemma only_mm_procs s s' : only_mm s s' → k_procs s' = k_procs s.
Proof. intros (h & _ & ->). done. Qed.

Lemma only_mm_hart s s' :
  hart_ok (k_hart s) → only_mm s s' →
  hart_ok (k_hart s') ∧ noff (k_hart s') = noff (k_hart s) ∧
  c_proc (this_cpu (k_hart s')) = c_proc (this_cpu (k_hart s)).
Proof.
  intros Hok (h & [->| ->] & ->); simpl; [done|].
  split_and!; [by apply hart_settle_ok|by apply noff_settle|by apply c_proc_settle].
Qed.

Lemma only_mm_mem s m : only_mm s (set_k_mem m s).
Proof. exists (k_hart s). split; [by left|]. by destruct s. Qed.

Lemma mem_same_refl P m : mem_same P m m.
Proof. by intros a _. Qed.

Lemma mem_same_trans (P Q : Z → Prop) m1 m2 m3 :
  mem_same P m1 m2 → mem_same Q m2 m3 → mem_same (λ p, P p ∨ Q p) m1 m3.
Proof.
  intros H1 H2 a Ha. rewrite H2 by (intros p Hp; apply Ha; by right).
  apply H1. intros p Hp. apply Ha. by left.
Qed.

Lemma mem_same_mono (P Q : Z → Prop) m m' :
  (∀ p, P p → Q p) → mem_same P m m' → mem_same Q m m'.
Proof. intros HPQ H a Ha. apply H. intros p Hp. apply Ha, HPQ, Hp. Qed.

Lemma mem_same_stn m p i v : 0 ≤ i < 512 → mem_same (eq p) m (st64 m (pte_at p i) v).
Proof.
  intros Hi a Ha. apply mget_stn_out. specialize (Ha p eq_refl).
  unfold in_page, pte_at, PAGE_SIZE in *. change (Z.of_nat 8) with 8. lia.
Qed.

Lemma mem_same_memset m p v : mem_same (eq p) m (memset m p v (Z.to_nat PAGE_SIZE)).
Proof.
  intros a Ha. rewrite mget_memset, decide_False; [done|]. specialize (Ha p eq_refl).
  unfold in_page in Ha. change (Z.of_nat (Z.to_nat PAGE_SIZE)) with PAGE_SIZE. done.
Qed.

Lemma zeroed_memset m p : zeroed (memset m p 0 (Z.to_nat PAGE_SIZE)) p.
Proof.
  intros a Ha. rewrite mget_memset, decide_True; [done|].
  unfold in_page in Ha. change (Z.of_nat (Z.to_nat PAGE_SIZE)) with PAGE_SIZE. lia.
Qed.

Lemma zeroed_ent m p j : zeroed m p → 0 ≤ j < 512 → ent m p j = 0.
Proof.
  intros Hz Hj. unfold ent. apply ldn_zero. intros b Hb. apply Hz.
  unfold in_page, pte_at, PAGE_SIZE in *. change (Z.of_nat 8) with 8 in Hb. lia.
Qed.

Lemma pte_at_0 p : pte_at p 0 = p.
Proof. unfold pte_at. lia. Qed.

Lemma fl_rep_page m hd l p : fl_rep m hd l → p ∈ l → is_page p.
Proof.
  revert hd. induction l as [|q l IH]; intros hd; simpl; [by intros _ ?%elem_of_nil|].
  intros (-> & Hq & Hl) [->|Hp]%elem_of_cons; eauto.
Qed.

Lemma fl_rep_ext m m' hd l :
  (∀ p, p ∈ l → ent m' p 0 = ent m p 0) → fl_rep m hd l → fl_rep m' hd l.
Proof.
  revert hd. induction l as [|q l IH]; intros hd He; simpl; [done|].
  intros (-> & Hq & Hl). split_and!; [done..|].
  assert (ld64 m' q = ld64 m q) as ->.
  { specialize (He q). unfold ent in He. rewrite pte_at_0 in He. apply He. left. }
  apply IH; [|done]. intros p Hp. apply He. by right.
Qed.

(** Memory operations outside of the free list and the page table keep the
    invariant and the translations. *)
Lemma mm_inv_frame s s' fl N root (P : Z → Prop) :
  mm_inv s fl N root → only_mm s s' → k_free s' = k_free s → bytes_ok (k_mem s') →
  mem_same P (k_mem s) (k_mem s') →
  (∀ p, P p → is_page p) → (∀ p, p ∈ fl → ¬ P p) → (∀ p l, N !! p = Some l → ¬ P p) →
  mm_inv s' fl N root ∧
  (∀ va, pt_lookup (k_mem s') root va = pt_lookup (k_mem s) root va) ∧
  (∀ q l i, N !! q = Some l → 0 ≤ i < 512 → ent (k_mem s') q i = ent (k_mem s) q i).
Proof.
  intros [H1 H2 H3 H4 H5 H6 H7 H8] Ho Hf Hb Hs HP Hfl HN.
  destruct (only_mm_hart _ _ H1 Ho) as (Hh & Hn & _).
  assert (∀ q l i, N !! q = Some l → 0 ≤ i < 512 → ent (k_mem s') q i = ent (k_mem s) q i) as He.
  { intros q l i Hq Hi. apply (ent_same P); eauto. by eapply (wf_page _ _ _ H7). }
  destruct (pt_wf_ext _ (k_mem s') _ _ H7 He) as [Hw Hl].
  split; [|done]. split; try done.
  - by rewrite Hn.
  - destruct H3 as [name H3]. exists name. by rewrite (only_mm_locks _ _ Ho).
  - rewrite Hf. eapply fl_rep_ext; [|done]. intros p Hp.
    apply (ent_same P); eauto; [by eapply fl_rep_page|lia].
Qed.

(** ** The allocator *)

Lemma pm_alloc_eq s :
  hart_ok (k_hart s) → noff (k_hart s) + 1 < 2 ^ 30 → lock_free LFreeList s →
  pm_alloc s =
    Ok (k_free s)
      (set_k_hart (hart_settle (k_hart s))
        (set_k_free (if k_free s =? 0 then k_free s else ld64 (k_mem s) (k_free s)) s)).
Proof.
  intros H Hn Hl. unfold pm_alloc.
  erewrite (critical_section LFreeList _ s (k_free s)
    (set_k_free (if k_free s =? 0 then k_free s else ld64 (k_mem s) (k_free s)) s)); try done.
  intros name Hname. erewrite bind_ok by done.
  change (k_free (set_k_locks _ _)) with (k_free s).
  destruct (Z.eqb_spec (k_free s) 0) as [E|E]; [|done].
  destruct s; simpl in *; by subst.
Qed.

Lemma pm_free_eq p s :
  hart_ok (k_hart s) → noff (k_hart s) + 1 < 2 ^ 30 → lock_free LFreeList s →
  pm_free p s =
    Ok tt (set_k_hart (hart_settle (k_hart s))
            (set_k_free p (set_k_mem (st64 (k_mem s) p (k_free s)) s))).
Proof.
  intros H Hn Hl. unfold pm_free.
  by erewrite (critical_section_unit LFreeList _ s
    (set_k_free p (set_k_mem (st64 (k_mem s) p (k_free s)) s))).
Qed.

(** Allocation pops the free list; an empty list gives the null pointer. *)
Lemma pm_alloc_spec s fl N root :
  mm_inv s fl N root →
  runs pm_alloc s (λ r s', ∃ fl',
    mm_inv s' fl' N root ∧ only_mm s s' ∧ k_mem s' = k_mem s ∧
    match fl with
    | [] => r = 0 ∧ fl' = []
    | p :: l => r = p ∧ fl' = l ∧ is_page p ∧ N !! p = None ∧ p ∉ fl'
    end).
Proof.
  intros [H1 H2 H3 H4 H5 H6 H7 H8]. eapply runs_ok; [by apply pm_alloc_eq|].
  set (s' := set_k_hart _ _).
  assert (only_mm s s') as Ho by (exists (hart_settle (k_hart s)); split; [by right|done]).
  destruct (only_mm_hart _ _ H1 Ho) as (Hh & Hnf & _).
  assert (∀ l, fl_rep (k_mem s) (k_free s') l → NoDup l → (∀ p, p ∈ l → N !! p = None) →
          mm_inv s' l N root) as Hinv.
  { intros l Hl Hd Hn. split; try done. by rewrite Hnf. }
  destruct fl as [|p l]; simpl in H5.
  - exists []. split_and!; try done. apply Hinv; [|done..]. simpl. by rewrite H5.
  - destruct H5 as (E & Hp & Hl). exists l. apply NoDup_cons in H6 as [Hni Hnd].
    split_and!; try done.
    + apply Hinv; [|done|]; [|intros q Hq; apply H8; by right].
      simpl. rewrite E. destruct (Z.eqb_spec p 0); [destruct Hp; lia|done].
    + apply H8. left.
Qed.

Lemma pm_zalloc_spec s fl N root :
  mm_inv s fl N root →
  runs pm_zalloc s (λ r s', ∃ fl',
    mm_inv s' fl' N root ∧ only_mm s s' ∧
    (∀ va, pt_lookup (k_mem s') root va = pt_lookup (k_mem s) root va) ∧
    match fl with
    | [] => r = 0 ∧ fl' = [] ∧ k_mem s' = k_mem s
    | p :: l => r = p ∧ fl' = l ∧ is_page p ∧ N !! p = None ∧ (p ∉ fl') ∧
        mem_same (eq p) (k_mem s) (k_mem s') ∧ zeroed (k_mem s') p
    end).
Proof.
  intros Hinv. unfold pm_zalloc. kstep. kcall (pm_alloc_spec s fl N root Hinv).
  intros r s1 (fl1 & Hi1 & Ho1 & Em1 & Hr). destruct fl as [|p l].
  - destruct Hr as [-> ->]. kstep. cbn [negb Z.eqb]. apply runs_ret. apply runs_ret.
    exists []. split_and!; try done. intros va. by rewrite Em1.
  - destruct Hr as (-> & -> & Hp & HN & Hni). kstep.
    rewrite (proj2 (Z.eqb_neq p 0)) by (destruct Hp; lia). cbn [negb]. unfold when, upd_mem.
    kstep. kstep. exists l.
    pose proof (mem_same_memset (k_mem s1) p 0) as Hs.
    pose proof (zeroed_memset (k_mem s1) p) as Hz.
    pose proof (memset_bytes_ok (k_mem s1) p 0 (Z.to_nat PAGE_SIZE) (mi_bytes _ _ _ _ Hi1)) as Hb.
    revert Hs Hz Hb. generalize (memset (k_mem s1) p 0 (Z.to_nat PAGE_SIZE)). intros m2 Hs Hz Hb.
    destruct (mm_inv_frame s1 (set_k_mem m2 s1) l N root (eq p)) as (Hi2 & Hl2 & _); try done.
    + apply only_mm_mem.
    + by intros ? <-.
    + by intros q Hq <-.
    + intros q k Hq <-. congruence.
    + rewrite Em1 in Hs, Hl2. split_and!; try done.
      eapply only_mm_trans; [apply (mi_hart _ _ _ _ Hinv)|done|apply only_mm_mem].
Qed.

(** Freeing pushes a page that is neither free nor part of the page table. *)
Lemma pm_free_spec s fl N root p :
  mm_inv s fl N root → is_page p → N !! p = None → p ∉ fl →
  runs (pm_free p) s (λ _ s',
    mm_inv s' (p :: fl) N root ∧ only_mm s s' ∧ mem_same (eq p) (k_mem s) (k_mem s') ∧
    (∀ va, pt_lookup (k_mem s') root va = pt_lookup (k_mem s) root va) ∧
    (∀ va, pt_leaf (k_mem s') root va = pt_leaf (k_mem s) root va)).
Proof.
  intros Hinv Hp HN Hni. pose proof Hinv as [H1 H2 H3 H4 H5 H6 H7 H8].
  eapply runs_ok; [by apply pm_free_eq|].
  set (s' := set_k_hart _ _).
  assert (only_mm s s') as Ho by (exists (hart_settle (k_hart s)); split; [by right|done]).
  assert (mem_same (eq p) (k_mem s) (k_mem s')) as Hs.
  { simpl. rewrite <-(pte_at_0 p) at 2. apply mem_same_stn. lia. }
  set (s1 := set_k_free (k_free s) s').
  assert (only_mm s s1) as Ho1 by (exists (hart_settle (k_hart s)); split; [by right|done]).
  destruct (mm_inv_frame s s1 fl N root (eq p)) as (Hi1 & Hl1 & He1); try done.
  - by apply stn_bytes_ok.
  - by intros ? <-.
  - by intros q Hq <-.
  - intros q k Hq <-. congruence.
  - assert (∀ va, pt_leaf (k_mem s') root va = pt_leaf (k_mem s) root va) as Hlf.
    { intros va. apply (pt_leaf_ext _ _ N); [done|]. intros q l i Hq. by apply (He1 q (S l)). }
    split_and!; try done. pose proof Hi1 as [I1 I2 I3 I4 I5 I6 I7 I8]. split; try done.
    + simpl. split_and!; [done..|].
      assert (0 ≤ k_free s < 2 ^ 64) as Hb.
      { destruct fl as [|q l]; simpl in H5; [lia|]. destruct H5 as (-> & [? _] & _). lia. }
      by rewrite ldn_stn.
    + by constructor.
    + intros q [->|Hq]%elem_of_cons; eauto.
Qed.

(** ** [walk] *)

(** Without allocation, [walk] is the hardware's translation. *)
Lemma walk_levels_noalloc k p va s :
  walk_levels k p va false s = Ok (pt_descend (k_mem s) k p va) s.
Proof.
  revert p. induction k as [|k IH]; intros p; cbn [walk_levels pt_descend]; [done|].
  erewrite bind_ok by done. fold (ent (k_mem s) p (PX va (Z.of_nat (S k)))).
  fold (pte_valid (ent (k_mem s) p (PX va (Z.of_nat (S k))))).
  case_match; [apply IH|done].
Qed.

Lemma walk_noalloc root va s :
  walk root va false s = Ok (default 0 (pt_leaf (k_mem s) root va)) s.
Proof.
  unfold walk, pt_leaf. case_match; [done|].
  erewrite bind_ok by apply walk_levels_noalloc. by case_match.
Qed.

Lemma grew_refl root s fl N : mm_inv s fl N root → grew root s fl N s fl N.
Proof.
  intros H. split; try done.
  - apply only_mm_refl.
  - exists []. split; [done|]. intros q. rewrite elem_of_nil. tauto.
Qed.

Lemma grew_trans root s1 fl1 N1 s2 fl2 N2 s3 fl3 N3 :
  mm_inv s1 fl1 N1 root →
  grew root s1 fl1 N1 s2 fl2 N2 → grew root s2 fl2 N2 s3 fl3 N3 →
  grew root s1 fl1 N1 s3 fl3 N3.
Proof.
  intros Hinv [A1 A2 A3 (u1 & -> & Hu1) A5 A6 A7] [B1 B2 B3 (u2 & -> & Hu2) B5 B6 B7].
  split; try done.
  - eapply only_mm_trans; [apply (mi_hart _ _ _ _ Hinv)|done|done].
  - by trans N2.
  - exists (u1 ++ u2). split; [by rewrite app_assoc|].
    intros q. rewrite Hu2, Hu1, elem_of_app. tauto.
  - eapply mem_same_mono; [|by apply (mem_same_trans _ _ _ _ _ A5 B5)].
    intros q [[k Hk]|?]; [|done]. exists k. by eapply lookup_weaken.
  - intros va. by rewrite B6, A6.
  - intros q l i Hq Hi Hv. assert (N2 !! q = Some (S l)) by by eapply lookup_weaken.
    rewrite B7 with (l := l), A7 with (l := l); try done. by rewrite (A7 q l i).
Qed.

(** A fresh page from the free list becomes the table below entry [i] of the
    inner table [p]. *)
Lemma link_table_spec s fl N root p l i :
  mm_inv s fl N root → N !! p = Some (S l) → 0 ≤ i < 512 → (p = root → i < 256) →
  pte_valid (ent (k_mem s) p i) = false →
  runs pm_zalloc s (λ r s1,
    (r = 0 ∧ grew root s fl N s1 [] N) ∨
    (r ≠ 0 ∧ ∃ fl', grew root s fl N
       (set_k_mem (st64 (k_mem s1) (pte_at p i) (Z.lor (PA2PTE r) PTE_V)) s1)
       fl' (<[r := l]> N))).
Proof.
  intros Hinv Hp Hi Hhalf Hv. kcall (pm_zalloc_spec s fl N root Hinv).
  intros r s1 (fl1 & Hi1 & Ho1 & _ & Hr). pose proof Hinv as [H1 H2 H3 H4 H5 H6 H7 H8].
  destruct fl as [|n l'].
  - destruct Hr as (-> & -> & Em). left. split; [done|]. split; try done.
    + exists []. split; [done|]. intros q. rewrite elem_of_nil. tauto.
    + rewrite Em. apply mem_same_refl.
    + by rewrite Em.
    + by rewrite Em.
  - destruct Hr as (-> & -> & Hn & HN & Hni & Hs1 & Hz). right. split; [destruct Hn; lia|]. exists l'.
    replace (Z.lor (PA2PTE n) PTE_V) with (mk_pte n 0) by (unfold mk_pte; apply Z.lor_0_r).
    pose proof (λ j Hj, zeroed_ent _ _ j Hz Hj) as Hze.
    assert (is_page p) as Hpp by by eapply (wf_page _ _ _ H7).
    pose proof Hi1 as [I1 I2 I3 I4 I5 I6 I7 I8].
    split; simpl.
    + split; try done.
      * by apply stn_bytes_ok.
      * eapply fl_rep_ext; [|done]. intros q Hq.
        apply (ent_same (eq p)); [by apply mem_same_stn|by intros ? <-| | |lia].
        -- by eapply fl_rep_page.
        -- intros ->. rewrite (I8 q Hq) in Hp. done.
      * apply (add_wf (k_mem s)); done.
      * intros q Hq. rewrite lookup_insert_ne; [by apply I8|]. by intros ->.
    + eapply only_mm_trans; [done|exact Ho1|apply only_mm_mem].
    + apply insert_subseteq. done.
    + exists [n]. split; [done|]. intros q. rewrite lookup_insert, list_elem_of_singleton.
      case_decide as E; [subst; split; [by right|by eexists]|]. split; [by left|by intros [?| ->]].
    + eapply mem_same_mono; [|apply (mem_same_trans _ _ _ _ _ Hs1 (mem_same_stn _ p i _ Hi))].
      intros q [<-|<-]; [by rewrite lookup_insert_eq|].
      rewrite lookup_insert_ne by congruence. eauto.
    + intros va. apply (add_lookup (k_mem s) (k_mem s1) N root p i n l); done.
    + intros q k j Hq Hj Hvj. rewrite (add_old (k_mem s) (k_mem s1) N root p i n l) with (k := S k); try done.
      case_decide as E; [|done]. destruct E as [-> ->]. congruence.
Qed.

(** With allocation, [walk] returns the leaf entry of [va] unless memory has
    run out; translations are unchanged either way. *)
Lemma walk_levels_alloc root va k : ∀ p s fl N,
  0 ≤ va < MAX_VADDR → mm_inv s fl N root → N !! p = Some k →
  runs (walk_levels k p va true) s (λ r s', ∃ fl' N',
    grew root s fl N s' fl' N' ∧
    match r with
    | Some q => pt_descend (k_mem s') k p va = Some q
    | None => fl' = []
    end).
Proof.
  induction k as [|k IH]; intros p s fl N Hva Hinv Hp; cbn [walk_levels].
  { apply runs_ret. exists fl, N. split; [by apply grew_refl|done]. }
  kstep. apply runs_gets.
  set (i := PX va (Z.of_nat (S k))). assert (0 ≤ i < 512) as Hi by (apply PX_bounds; lia).
  fold (ent (k_mem s) p i). fold (pte_valid (ent (k_mem s) p i)).
  destruct (pte_valid (ent (k_mem s) p i)) eqn:Hv.
  - destruct (wf_child _ _ _ (mi_pt _ _ _ _ Hinv) _ _ _ Hp Hi Hv) as [Hc _].
    kcall (IH _ _ _ _ Hva Hinv Hc). intros r s' (fl' & N' & Hg & Hr). exists fl', N'.
    split; [done|]. destruct r as [q|]; [|done]. cbn [pt_descend]. fold i.
    by rewrite (gr_ent _ _ _ _ _ _ _ Hg p k), Hv by done.
  - assert (p = root → i < 256) as Hhalf.
    { intros ->. rewrite (wf_root _ _ _ (mi_pt _ _ _ _ Hinv)) in Hp. injection Hp as <-. unfold i.
      rewrite PX_eq by lia. change (Z.of_nat 2) with 2. change MAX_VADDR with 274877906944 in Hva.
      change (2 ^ (12 + 9 * 2)) with 1073741824. assert (0 ≤ va / 1073741824 < 256) by (Z.to_euclidean_division_equations; lia).
      rewrite Z.mod_small by lia. lia. }
    kstep. kcall (link_table_spec s fl N root p k i Hinv Hp Hi Hhalf Hv).
    intros r s1 [[-> Hg]|(Hr & fl1 & Hg)].
    { cbn [Z.eqb]. apply runs_ret. by exists [], N. }
    rewrite (proj2 (Z.eqb_neq r 0)) by done. kstep. unfold store64, upd_mem. apply runs_modify.
    set (s2 := set_k_mem _ s1) in *. set (N2 := <[r := k]> N) in *.
    assert (N2 !! r = Some k) as Hr2 by (unfold N2; by rewrite lookup_insert_eq).
    pose proof (gr_inv _ _ _ _ _ _ _ Hg) as Hi2.
    kcall (IH _ _ _ _ Hva Hi2 Hr2). intros q s3 (fl3 & N3 & Hg3 & Hq). exists fl3, N3.
    split; [by eapply grew_trans|]. destruct q as [q|]; [|done]. cbn [pt_descend]. fold i.
    assert (N2 !! p = Some (S k)) as Hp2 by by eapply lookup_weaken, (gr_sub _ _ _ _ _ _ _ Hg).
    assert (is_page r) as Hpr by by eapply (wf_page _ _ _ (mi_pt _ _ _ _ Hi2)).
    assert (ent (k_mem s2) p i = mk_pte r 0) as Ee.
    { unfold ent, s2. simpl. rewrite ldn_stn; [unfold mk_pte; by rewrite Z.lor_0_r|].
      rewrite <-(Z.lor_0_r (Z.lor _ _)). apply mk_pte_bounds; [destruct Hpr|]; lia. }
    rewrite (gr_ent _ _ _ _ _ _ _ Hg3 p k i); try done; rewrite Ee; [|by rewrite pte_valid_mk_pte].
    rewrite pte_valid_mk_pte, PTE2PA_mk_pte; [done|done|lia].
Qed.

Lemma walk_alloc root va s fl N :
  0 ≤ va → mm_inv s fl N root →
  runs (walk root va true) s (λ r s', ∃ fl' N',
    grew root s fl N s' fl' N' ∧
    (r = 0 ∧ (MAX_VADDR ≤ va ∨ fl' = []) ∨ r ≠ 0 ∧ pt_leaf (k_mem s') root va = Some r)).
Proof.
  intros H0 Hinv. unfold walk. destruct (Z.leb_spec MAX_VADDR va) as [Hge|Hlt].
  { apply runs_ret. exists fl, N. split; [by apply grew_refl|]. auto. }
  kstep. kcall (walk_levels_alloc root va 2 root s fl N (conj H0 Hlt) Hinv).
  { apply (wf_root _ _ _ (mi_pt _ _ _ _ Hinv)). }
  intros r s' (fl' & N' & Hg & Hr). apply runs_ret. exists fl', N'. split; [done|].
  destruct r as [q|]; [right|left; auto].
  pose proof (mi_pt _ _ _ _ (gr_inv _ _ _ _ _ _ _ Hg)) as Hwf.
  assert (is_page q) as [Hq _].
  { eapply (wf_page _ _ _ Hwf), descend_level; [done|apply (wf_root _ _ _ Hwf)|done]. }
  split; [|by apply pt_leaf_Some].
  pose proof (PX_bounds va 0 ltac:(lia)). unfold pte_at. lia.
Qed.
