(* ===== verification/MmMap.v ===== *)
(** Correctness of [map_pages] and [unmap_pages] (kernel/mm/mm.c) against the
    hardware's view of the page table: a range is mapped or unmapped exactly,
    page by page, and a mapping that fails half-way is undone. *)

From S2P Require Import Prelude Mem State Machine Mm PageTable MmAlloc.

(** [evolves root s fl N s' fl' N']: only table pages were written, and
    the table grew by pages of the free list. *)
Record evolves (root : Z) (s : kstate) (fl : list Z) (N : gmap Z nat)
    (s' : kstate) (fl' : list Z) (N' : gmap Z nat) : Prop := {
  ev_inv : mm_inv s' fl' N' root;
  ev_only : only_mm s s';
  ev_sub : N ⊆ N';
  ev_fl : ∃ used, fl = used ++ fl' ∧ ∀ q, is_Some (N' !! q) ↔ is_Some (N !! q) ∨ q ∈ used;
  ev_mem : mem_same (λ q, is_Some (N' !! q)) (k_mem s) (k_mem s');
}.

(** The translations after mapping [va, va + size) to [pa] with [perm]. *)
Definition mapped_range (va pa size perm : Z) (f : Z → option Z) (va' : Z) : option Z :=
  if decide (va ≤ va' < va + size)
  then Some (mk_pte (pa + (PAGE_ROUND_DOWN va' - va)) perm) else f va'.

(** The translations after unmapping [va, va + size). *)
Definition unmapped_range (va size : Z) (f : Z → option Z) (va' : Z) : option Z :=
  if decide (va ≤ va' < va + size) then None else f va'.

(** ** Alignment *)

Lemma MAX_VADDR_eq : MAX_VADDR = 274877906944.
Proof. done. Qed.

(** Linear arithmetic on addresses. *)
Ltac addr_lia := unfold PAGE_SIZE in *; rewrite ?MAX_VADDR_eq in *; lia.

Lemma PAGE_ROUND_DOWN_eq n : PAGE_ROUND_DOWN n = n / PAGE_SIZE * PAGE_SIZE.
Proof.
  unfold PAGE_ROUND_DOWN. change (PAGE_SIZE - 1) with (Z.ones 12).
  rewrite <-Z.ldiff_land, Z.ldiff_ones_r by lia.
  rewrite Z.shiftl_mul_pow2, Z.shiftr_div_pow2 by lia. done.
Qed.

Lemma PAGE_ROUND_UP_eq n :
  0 ≤ n → n + PAGE_SIZE ≤ 2 ^ 64 → PAGE_ROUND_UP n = (n + PAGE_SIZE - 1) / PAGE_SIZE * PAGE_SIZE.
Proof.
  intros H0 H1. unfold PAGE_ROUND_UP. rewrite wrap_small by (unfold PAGE_SIZE in *; lia).
  apply PAGE_ROUND_DOWN_eq.
Qed.

(** [cur] is the first address of the page of [va]. *)
Lemma same_page cur va :
  cur mod PAGE_SIZE = 0 → va / PAGE_SIZE = cur / PAGE_SIZE ↔ cur ≤ va < cur + PAGE_SIZE.
Proof. unfold PAGE_SIZE. intros H. Z.to_euclidean_division_equations; lia. Qed.

Lemma round_down_page cur va :
  cur mod PAGE_SIZE = 0 → cur ≤ va < cur + PAGE_SIZE → PAGE_ROUND_DOWN va = cur.
Proof.
  intros H Hc. rewrite PAGE_ROUND_DOWN_eq. unfold PAGE_SIZE in *.
  Z.to_euclidean_division_equations; lia.
Qed.

Lemma aligned_next cur : cur mod PAGE_SIZE = 0 → (cur + PAGE_SIZE) mod PAGE_SIZE = 0.
Proof. unfold PAGE_SIZE. intros H. Z.to_euclidean_division_equations; lia. Qed.

Lemma aligned_add a b : a mod PAGE_SIZE = 0 → b mod PAGE_SIZE = 0 → (a + b) mod PAGE_SIZE = 0.
Proof. unfold PAGE_SIZE. intros H H'. Z.to_euclidean_division_equations; lia. Qed.

Lemma aligned_sub a b : a mod PAGE_SIZE = 0 → b mod PAGE_SIZE = 0 → (a - b) mod PAGE_SIZE = 0.
Proof. unfold PAGE_SIZE. intros H H'. Z.to_euclidean_division_equations; lia. Qed.

(** Two page boundaries are a page apart. *)
Lemma aligned_lt a b :
  a mod PAGE_SIZE = 0 → b mod PAGE_SIZE = 0 → a < b → a + PAGE_SIZE ≤ b.
Proof. unfold PAGE_SIZE. intros H H' Hl. Z.to_euclidean_division_equations; lia. Qed.

(** Number of pages left in [cur, last). *)
Definition pages_left (last cur : Z) : nat := Z.to_nat ((last - cur) / PAGE_SIZE).

Lemma pages_left_next last cur :
  cur + PAGE_SIZE ≤ last → (pages_left last (cur + PAGE_SIZE) < pages_left last cur)%nat.
Proof.
  unfold pages_left, PAGE_SIZE. intros H.
  assert (0 ≤ (last - (cur + 4096)) / 4096 < (last - cur) / 4096); [|lia].
  Z.to_euclidean_division_equations; lia.
Qed.

Lemma pages_left_fuel va size : (pages_left (va + size) va < pages_fuel size)%nat.
Proof. unfold pages_left, pages_fuel. replace (va + size - va) with size by lia. lia. Qed.

(** ** [evolves] *)

Lemma evolves_refl root s fl N : mm_inv s fl N root → evolves root s fl N s fl N.
Proof. intros H. destruct (grew_refl root s fl N H). by split. Qed.

Lemma grew_evolves root s fl N s' fl' N' :
  grew root s fl N s' fl' N' → evolves root s fl N s' fl' N'.
Proof. by intros []. Qed.

Lemma evolves_trans root s1 fl1 N1 s2 fl2 N2 s3 fl3 N3 :
  mm_inv s1 fl1 N1 root →
  evolves root s1 fl1 N1 s2 fl2 N2 → evolves root s2 fl2 N2 s3 fl3 N3 →
  evolves root s1 fl1 N1 s3 fl3 N3.
Proof.
  intros Hinv [A1 A2 A3 (u1 & -> & Hu1) A5] [B1 B2 B3 (u2 & -> & Hu2) B5]. split; try done.
  - eapply only_mm_trans; [apply (mi_hart _ _ _ _ Hinv)|done|done].
  - by trans N2.
  - exists (u1 ++ u2). split; [by rewrite app_assoc|].
    intros q. rewrite Hu2, Hu1, elem_of_app. tauto.
  - eapply mem_same_mono; [|by apply (mem_same_trans _ _ _ _ _ A5 B5)].
    intros q [[k Hk]|?]; [|done]. exists k. by eapply lookup_weaken.
Qed.

(** Writing the leaf entry of [va]. *)
Lemma store_leaf_spec s fl N root va a v :
  mm_inv s fl N root → 0 ≤ va → pt_leaf (k_mem s) root va = Some a → 0 ≤ v < 2 ^ 64 →
  (pte_valid v = true → pte_leaf v = true) →
  runs (store64 a v) s (λ _ s',
    evolves root s fl N s' fl N ∧
    ∀ va', 0 ≤ va' → pt_lookup (k_mem s') root va' =
      if decide (va' / PAGE_SIZE = va / PAGE_SIZE) then (if pte_valid v then Some v else None)
      else pt_lookup (k_mem s) root va').
Proof.
  intros [H1 H2 H3 H4 H5 H6 H7 H8] H0 Ha Hv Hlf. unfold store64, upd_mem. kstep.
  destruct (pt_store_leaf _ _ _ _ _ v H7 H0 Ha Hv Hlf) as [Hw Hl].
  split; [|exact Hl]. destruct (pt_leaf_inv _ _ _ _ _ H7 Ha) as (_ & q & _ & Hq & ->).
  destruct (wf_page _ _ _ H7 _ _ Hq) as [Hpq _].
  pose proof (mem_same_stn (k_mem s) q (PX va 0) v (PX_bounds va 0 ltac:(lia))) as Hs.
  split; try done.
  - split; try done; simpl; [by apply stn_bytes_ok|].
    eapply fl_rep_ext; [|done]. intros p Hp.
    apply (ent_same (eq q)); [done|by intros ? <-|by eapply fl_rep_page| |lia].
    intros <-. rewrite (H8 q Hp) in Hq. done.
  - apply only_mm_mem.
  - exists []. split; [done|]. intros p. rewrite elem_of_nil. tauto.
  - eapply mem_same_mono; [|exact Hs]. intros p <-. eauto.
Qed.

(** ** Unmapping *)

(** A mapped address has a leaf entry, in a page of the table. *)
Lemma lookup_leaf m N root va v :
  pt_wf m N root → pt_lookup m root va = Some v →
  ∃ a, pt_leaf m root va = Some a ∧ ld64 m a = v ∧ pte_valid v = true ∧ pte_leaf v = true ∧
       0 < a ∧ va < MAX_VADDR.
Proof.
  intros Hwf Hl. destruct (pt_leaf m root va) as [a|] eqn:Ea.
  2: { by rewrite pt_lookup_None in Hl. }
  rewrite (pt_lookup_Some _ _ _ _ Ea) in Hl. destruct (pte_valid (ld64 m a)) eqn:Hv; [|done].
  injection Hl as <-. destruct (pt_leaf_inv _ _ _ _ _ Hwf Ea) as (Hm & q & _ & Hq & ->).
  destruct (wf_page _ _ _ Hwf _ _ Hq) as [[Hp _] _].
  pose proof (PX_bounds va 0 ltac:(lia)) as Hb. exists (pte_at q (PX va 0)).
  split_and!; [done..| | |done].
  - by apply (wf_leaf _ _ _ Hwf q).
  - unfold pte_at. lia.
Qed.

(** The head of [unmap_page], up to the release of the page. *)
Lemma unmap_page_head s N root va v free Q :
  pt_wf (k_mem s) N root → pt_lookup (k_mem s) root va = Some v →
  (∀ a, pt_leaf (k_mem s) root va = Some a →
     runs (when free (pm_free (PTE2PA v));; store64 a 0) s Q) →
  runs (unmap_page root free va) s Q.
Proof.
  intros Hwf Hl HQ. destruct (lookup_leaf _ _ _ _ _ Hwf Hl) as (a & Ha & Ev & Hv & Hlf & Ha0 & _).
  unfold unmap_page. kstep. eapply runs_ok; [apply walk_noalloc|]. rewrite Ha. cbn [from_option id].
  rewrite (proj2 (Z.eqb_neq a 0)) by lia. kstep. unfold load64. kstep. rewrite Ev.
  apply negb_true_iff in Hv. rewrite Hv. rewrite (proj2 (Z.eqb_neq _ _) (leaf_flags v Hlf)).
  by apply HQ.
Qed.

Lemma unmap_page_keep s fl N root va v :
  mm_inv s fl N root → 0 ≤ va → pt_lookup (k_mem s) root va = Some v →
  runs (unmap_page root false va) s (λ _ s',
    evolves root s fl N s' fl N ∧
    ∀ va', 0 ≤ va' → pt_lookup (k_mem s') root va' =
      if decide (va' / PAGE_SIZE = va / PAGE_SIZE) then None else pt_lookup (k_mem s) root va').
Proof.
  intros Hinv H0 Hl. eapply unmap_page_head; [apply (mi_pt _ _ _ _ Hinv)|done|].
  intros a Ha. kstep. cbn [when]. kstep.
  eapply runs_conseq; [apply store_leaf_spec; [done|done|done|lia|by rewrite pte_valid_0]|].
  by rewrite pte_valid_0.
Qed.

(** [unmap_pages] without release, on a range that is mapped. *)
Lemma unmap_pages_keep s fl N root va size :
  mm_inv s fl N root → va mod PAGE_SIZE = 0 → size mod PAGE_SIZE = 0 →
  0 ≤ va → 0 ≤ size → va + size ≤ MAX_VADDR →
  (∀ va', va ≤ va' < va + size → is_Some (pt_lookup (k_mem s) root va')) →
  runs (unmap_pages root va size false) s (λ _ s',
    evolves root s fl N s' fl N ∧
    ∀ va', 0 ≤ va' →
      pt_lookup (k_mem s') root va' = unmapped_range va size (pt_lookup (k_mem s) root) va').
Proof.
  intros Hinv Hva Hsz H0 H0' Hmax Hall. unfold unmap_pages. rewrite Hva, Hsz. cbn [Z.eqb negb].
  rewrite (wrap_small 64 (va + size)) by addr_lia.
  apply (runs_loop (λ cur s',
    (va ≤ cur ≤ va + size ∧ cur mod PAGE_SIZE = 0) ∧ evolves root s fl N s' fl N ∧
    ∀ va', 0 ≤ va' →
      pt_lookup (k_mem s') root va' = unmapped_range va (cur - va) (pt_lookup (k_mem s) root) va')
    (pages_left (va + size))).
  2: { split_and!; [lia..|done|by apply evolves_refl|]. intros va' _. unfold unmapped_range.
       by rewrite decide_False by lia. }
  2: apply pages_left_fuel.
  intros cur s1 ([Hc Hm] & Hev & Hl). destruct (Z.ltb_spec cur (va + size)) as [Hlt|Hge].
  - pose proof (aligned_lt _ _ Hm (aligned_add _ _ Hva Hsz) Hlt) as Hn.
    destruct (Hall cur ltac:(lia)) as [v Hv]. kstep.
    assert (pt_lookup (k_mem s1) root cur = Some v) as Hv1.
    { rewrite Hl by lia. unfold unmapped_range. by rewrite decide_False by lia. }
    kcall (unmap_page_keep s1 fl N root cur v (ev_inv _ _ _ _ _ _ _ Hev) ltac:(lia) Hv1).
    intros _ s2 [Hev2 Hl2]. kstep. rewrite wrap_small by addr_lia.
    split; [|by apply pages_left_next]. split_and!; [unfold PAGE_SIZE in *; lia|done|by apply aligned_next|
      by eapply evolves_trans|].
    intros va' H'. rewrite Hl2, Hl by done. unfold unmapped_range.
    pose proof (same_page cur va' Hm) as Hsp. repeat case_decide; try done; exfalso; unfold PAGE_SIZE in *; intuition lia.
  - kstep. replace cur with (va + size) in Hl by lia.
    split; [done|]. intros va' H'. rewrite Hl by done. f_equal. lia.
Qed.

(** ** Mapping *)

(** The range [va, cur) is mapped; one more page. *)
Lemma mapped_range_next va cur pa perm f va' :
  va ≤ cur → va mod PAGE_SIZE = 0 → cur mod PAGE_SIZE = 0 →
  mapped_range va pa (cur + PAGE_SIZE - va) perm f va' =
  if decide (va' / PAGE_SIZE = cur / PAGE_SIZE) then Some (mk_pte (pa + (cur - va)) perm)
  else mapped_range va pa (cur - va) perm f va'.
Proof.
  intros Hle Hva Hm. pose proof (same_page cur va' Hm) as Hsp. unfold mapped_range.
  destruct (decide (va' / PAGE_SIZE = cur / PAGE_SIZE)) as [E|E].
  - rewrite decide_True by (unfold PAGE_SIZE in *; intuition lia).
    rewrite (round_down_page cur va') by (done || by apply Hsp). done.
  - repeat case_decide; try done; exfalso; unfold PAGE_SIZE in *; intuition lia.
Qed.

Lemma mk_pte_perm pa perm :
  0 ≤ pa < 2 ^ 56 → pte_leaf perm = true → pte_valid (mk_pte pa perm) = true → pte_leaf (mk_pte pa perm) = true.
Proof. intros Hpa Hp _. by rewrite pte_leaf_mk_pte. Qed.

(** Unmapping the part of the range mapped so far restores the translations. *)
Lemma map_pages_undo s0 s fl N root va pa cur perm :
  mm_inv s fl N root → va mod PAGE_SIZE = 0 → cur mod PAGE_SIZE = 0 →
  0 ≤ va ≤ cur → cur ≤ MAX_VADDR →
  (∀ va', va ≤ va' < cur → pt_lookup (k_mem s0) root va' = None) →
  (∀ va', 0 ≤ va' → pt_lookup (k_mem s) root va' =
     mapped_range va pa (cur - va) perm (pt_lookup (k_mem s0) root) va') →
  runs (unmap_pages root va (u64 (cur - va)) false) s (λ _ s',
    evolves root s fl N s' fl N ∧
    ∀ va', 0 ≤ va' → pt_lookup (k_mem s') root va' = pt_lookup (k_mem s0) root va').
Proof.
  intros Hinv Hva Hm Hc Hmax Hnone Hl. rewrite wrap_small by addr_lia.
  assert ((cur - va) mod PAGE_SIZE = 0) as Hd.
  { unfold PAGE_SIZE in *. Z.to_euclidean_division_equations; lia. }
  kcall (unmap_pages_keep s fl N root va (cur - va) Hinv Hva Hd); [lia|lia|lia| |].
  - intros va' H'. rewrite Hl by lia. unfold mapped_range. rewrite decide_True by lia. eauto.
  - intros _ s' [Hev Hl']. split; [done|]. intros va' H'. rewrite Hl' by done.
    unfold unmapped_range. case_decide; [symmetry; apply Hnone; lia|].
    rewrite Hl by done. unfold mapped_range. by rewrite decide_False.
Qed.

(** [map_pages] maps exactly the range, or runs out of memory for the
    intermediate tables and leaves every translation as it was. *)
Lemma map_pages_spec s fl N root va pa size perm :
  mm_inv s fl N root → va mod PAGE_SIZE = 0 → size mod PAGE_SIZE = 0 →
  0 ≤ va → 0 < size → va + size ≤ MAX_VADDR → 0 ≤ pa → pa + size ≤ 2 ^ 56 →
  0 ≤ perm < 2 ^ 10 → pte_leaf perm = true →
  (∀ va', va ≤ va' < va + size → pt_lookup (k_mem s) root va' = None) →
  runs (map_pages root va pa size perm) s (λ r s', ∃ fl' N',
    evolves root s fl N s' fl' N' ∧
    (r = 0 ∧ (∀ va', 0 ≤ va' → pt_lookup (k_mem s') root va' =
                mapped_range va pa size perm (pt_lookup (k_mem s) root) va') ∨
     r = -1 ∧ fl' = [] ∧
       ∀ va', 0 ≤ va' → pt_lookup (k_mem s') root va' = pt_lookup (k_mem s) root va')).
Proof.
  intros Hinv Hva Hsz H0 H0' Hmax Hpa Hpm Hperm Hlf Hnone. unfold map_pages.
  rewrite Hva, Hsz. cbn [Z.eqb negb]. rewrite (proj2 (Z.eqb_neq size 0)) by lia.
  rewrite (wrap_small 64 (va + size)) by addr_lia.
  apply (runs_loop (λ '(cur, p) s',
    (va ≤ cur ≤ va + size ∧ cur mod PAGE_SIZE = 0 ∧ p = pa + (cur - va)) ∧
    ∃ fl' N', evolves root s fl N s' fl' N' ∧
    ∀ va', 0 ≤ va' → pt_lookup (k_mem s') root va' =
      mapped_range va pa (cur - va) perm (pt_lookup (k_mem s) root) va')
    (λ '(cur, _), pages_left (va + size) cur)).
  2: { split; [split_and!; [lia..|done|lia]|]. exists fl, N. split; [by apply evolves_refl|].
       intros va' _. unfold mapped_range. by rewrite decide_False by lia. }
  2: apply pages_left_fuel.
  intros [cur p] s1 ((Hc & Hm & ->) & fl1 & N1 & Hev & Hl).
  destruct (Z.ltb_spec cur (va + size)) as [Hlt|Hge].
  - pose proof (aligned_lt _ _ Hm (aligned_add _ _ Hva Hsz) Hlt) as Hn. kstep.
    kcall (walk_alloc root cur s1 fl1 N1 ltac:(lia) (ev_inv _ _ _ _ _ _ _ Hev)).
    intros a s2 (fl2 & N2 & Hg & Ha). pose proof (grew_evolves _ _ _ _ _ _ _ Hg) as Hev2.
    pose proof (evolves_trans _ _ _ _ _ _ _ _ _ _ Hinv Hev Hev2) as Hev'.
    assert (∀ va', 0 ≤ va' → pt_lookup (k_mem s2) root va' =
      mapped_range va pa (cur - va) perm (pt_lookup (k_mem s) root) va') as Hl2.
    { intros va' H'. by rewrite (gr_lookup _ _ _ _ _ _ _ Hg), Hl. }
    destruct Ha as [[-> Hfl]|[Ha Hleaf]].
    + destruct Hfl as [?| ->]; [addr_lia|]. cbn [Z.eqb]. kstep.
      kcall (map_pages_undo s s2 [] N2 root va pa cur perm); try done;
        [by eapply ev_inv|addr_lia|addr_lia|intros; apply Hnone; addr_lia|].
      intros _ s3 [Hev3 Hl3]. kstep. exists [], N2. split; [by eapply evolves_trans|]. by right.
    + rewrite (proj2 (Z.eqb_neq a 0)) by done. kstep. unfold load64. kstep.
      destruct (pte_valid (ld64 (k_mem s2) a)) eqn:Hv.
      { specialize (Hl2 cur ltac:(lia)). rewrite (pt_lookup_Some _ _ _ _ Hleaf), Hv in Hl2.
        unfold mapped_range in Hl2. rewrite decide_False, Hnone in Hl2 by lia. done. }
      fold (pte_valid (ld64 (k_mem s2) a)). rewrite Hv. kstep.
      kcall (store_leaf_spec s2 fl2 N2 root cur a (mk_pte (pa + (cur - va)) perm)
        (ev_inv _ _ _ _ _ _ _ Hev') ltac:(lia) Hleaf).
      { apply mk_pte_bounds; lia. }
      { apply mk_pte_perm; [lia|done]. }
      intros _ s3 [Hev3 Hl3]. kstep. rewrite !wrap_small by addr_lia.
      split; [|by apply pages_left_next].
      split; [split_and!; [addr_lia..|by apply aligned_next|lia]|].
      exists fl2, N2. split; [by eapply evolves_trans|].
      intros va' H'. rewrite Hl3, Hl2, mapped_range_next, pte_valid_mk_pte by (done || lia). done.
  - kstep. exists fl1, N1. split; [done|]. left. split; [done|]. intros va' H'.
    rewrite Hl by done. f_equal. lia.
Qed.
