(* ===== verification/MmUser.v ===== *)
(** Copies between the kernel and user memory (kernel/mm/mm.c: [copy_in],
    [copy_out], [copy_str_in]) seen through the hardware's translation. *)

From S2P Require Import Prelude Mem State Machine Mm PageTable MmAlloc MmMap.

(** ** User memory through the page table *)

Definition pte_user (v : Z) : bool := negb (Z.land v PTE_U =? 0).
Definition pte_write (v : Z) : bool := negb (Z.land v PTE_W =? 0).

(** The physical address of user address [va] when its entry satisfies [ok]. *)
Definition uaddr (ok : Z → bool) (m : memory) (root va : Z) : option Z :=
  v ← pt_lookup m root va;
  if ok v then Some (PTE2PA v + va mod PAGE_SIZE) else None.

Definition ureadable (v : Z) : bool := pte_user v && negb (PTE2PA v =? 0).
Definition uwritable (v : Z) : bool := pte_user v && pte_write v.

(** The byte a user program reads at [va]. *)
Definition ubyte (m : memory) (root va : Z) : Z :=
  match pt_lookup m root va with
  | Some v => mget m (PTE2PA v + va mod PAGE_SIZE)
  | None => 0
  end.

Definition ubytes (m : memory) (root va n : Z) : list Z :=
  (λ i, ubyte m root (va + i)) <$> seqZ 0 n.

(** User pages belong to the process: they are neither free nor part of the
    page table, and no page is mapped twice. *)
Record user_space (m : memory) (fl : list Z) (N : gmap Z nat) (root : Z) : Prop := {
  us_own : ∀ va v, 0 ≤ va → pt_lookup m root va = Some v → pte_user v = true →
    is_page (PTE2PA v) ∧ (PTE2PA v ∉ fl) ∧ N !! PTE2PA v = None;
  us_inj : ∀ va v va' v', 0 ≤ va → 0 ≤ va' →
    pt_lookup m root va = Some v → pte_user v = true →
    pt_lookup m root va' = Some v' → pte_user v' = true →
    PTE2PA v = PTE2PA v' → va / PAGE_SIZE = va' / PAGE_SIZE;
}.

(** ** Lookups *)

Lemma pt_lookup_page m root va va' :
  0 ≤ va → 0 ≤ va' → va / PAGE_SIZE = va' / PAGE_SIZE → pt_lookup m root va = pt_lookup m root va'.
Proof. intros H0 H0' E. unfold pt_lookup. by rewrite (pt_leaf_page m root va va'). Qed.

Lemma round_down_bounds va :
  0 ≤ va → 0 ≤ PAGE_ROUND_DOWN va ≤ va ∧ va - PAGE_ROUND_DOWN va = va mod PAGE_SIZE ∧
           va mod PAGE_SIZE < PAGE_SIZE ∧ PAGE_ROUND_DOWN va / PAGE_SIZE = va / PAGE_SIZE.
Proof.
  intros H. rewrite PAGE_ROUND_DOWN_eq. unfold PAGE_SIZE.
  rewrite Z.div_mul by lia. Z.to_euclidean_division_equations; lia.
Qed.

Lemma pt_lookup_round_down m root va :
  0 ≤ va → pt_lookup m root (PAGE_ROUND_DOWN va) = pt_lookup m root va.
Proof. intros H. destruct (round_down_bounds va H) as (? & _ & _ & E). apply pt_lookup_page; lia. Qed.

(** Addresses that follow [va] in its page. *)
Lemma page_offset va i :
  0 ≤ va → 0 ≤ i → va mod PAGE_SIZE + i < PAGE_SIZE →
  (va + i) / PAGE_SIZE = va / PAGE_SIZE ∧ (va + i) mod PAGE_SIZE = va mod PAGE_SIZE + i.
Proof. unfold PAGE_SIZE. intros. Z.to_euclidean_division_equations; lia. Qed.

Lemma uvm_walk_addr_eq s N root va :
  pt_wf (k_mem s) N root → va < MAX_VADDR →
  uvm_walk_addr root va s =
    Ok (match pt_lookup (k_mem s) root va with
        | Some v => if pte_user v then PTE2PA v else 0
        | None => 0
        end) s.
Proof.
  intros Hwf Hva. unfold uvm_walk_addr. rewrite (proj2 (Z.leb_gt _ _)) by lia.
  erewrite bind_ok by apply walk_noalloc.
  destruct (pt_leaf (k_mem s) root va) as [a|] eqn:Ea; cbn [from_option id].
  2: { by rewrite (pt_lookup_None _ _ _ Ea). }
  rewrite (pt_lookup_Some _ _ _ _ Ea).
  destruct (pt_leaf_inv _ _ _ _ _ Hwf Ea) as (_ & q & _ & Hq & ->).
  destruct (wf_page _ _ _ Hwf _ _ Hq) as [[Hp _] _].
  pose proof (PX_bounds va 0 ltac:(lia)) as Hb.
  rewrite (proj2 (Z.eqb_neq _ 0)) by (unfold pte_at; lia).
  erewrite bind_ok by done. unfold pte_valid, pte_user.
  destruct (Z.eqb_spec (Z.land (ld64 (k_mem s) (pte_at q (PX va 0))) PTE_V) 0); [done|].
  cbn [negb]. by case_match.
Qed.

(** ** [copy_in] *)

Lemma length_ubytes m root va n : length (ubytes m root va n) = Z.to_nat n.
Proof. unfold ubytes. by rewrite length_fmap, length_seqZ. Qed.

Lemma lookup_ubytes m root va n i :
  0 ≤ i < n → ubytes m root va n !! Z.to_nat i = Some (ubyte m root (va + i)).
Proof.
  intros H. unfold ubytes. rewrite list_lookup_fmap, lookup_seqZ_lt by lia. simpl.
  do 2 f_equal. lia.
Qed.

Lemma ubytes_app m root va n k :
  0 ≤ n → 0 ≤ k → ubytes m root va (n + k) = ubytes m root va n ++ ubytes m root (va + n) k.
Proof.
  intros Hn Hk. unfold ubytes. rewrite seqZ_app, fmap_app by lia. f_equal.
  rewrite Z.add_0_l, <-(Z.add_0_r n) at 1. rewrite <-fmap_add_seqZ, <-list_fmap_compose.
  apply list_fmap_ext. intros i x _. simpl. f_equal. lia.
Qed.

(** The bytes of one page, read physically. *)
Lemma ubytes_page m root va v n :
  0 ≤ va → 0 ≤ n → va mod PAGE_SIZE + n ≤ PAGE_SIZE → pt_lookup m root va = Some v →
  mbytes m (PTE2PA v + va mod PAGE_SIZE) (Z.to_nat n) = ubytes m root va n.
Proof.
  intros Hva Hn Hp Hl. apply list_eq. intros j.
  destruct (decide (Z.of_nat j < n)) as [Hj|Hj].
  - rewrite <-(Nat2Z.id j) at 2. rewrite lookup_ubytes by lia. rewrite mbytes_lookup by lia.
    destruct (page_offset va (Z.of_nat j)) as [E1 E2]; [lia..|]. unfold ubyte.
    rewrite (pt_lookup_page m root (va + Z.of_nat j) va), Hl, E2 by lia. do 2 f_equal. lia.
  - rewrite !lookup_ge_None_2; [done|rewrite length_ubytes; lia|rewrite length_mbytes; lia].
Qed.

(** The length of a round of the copy loops: to the end of the page of [a],
    or the [n] bytes that remain. *)
Lemma chunk_len n a :
  0 < n →
  let len := if n <? PAGE_SIZE - a mod PAGE_SIZE then n else PAGE_SIZE - a mod PAGE_SIZE in
  0 < len ≤ n ∧ a mod PAGE_SIZE + len ≤ PAGE_SIZE.
Proof.
  intros Hn. pose proof (Z.mod_pos_bound a PAGE_SIZE ltac:(done)). simpl.
  destruct (Z.ltb_spec n (PAGE_SIZE - a mod PAGE_SIZE)); lia.
Qed.

Lemma uaddr_chunk ok m root a len :
  0 ≤ a → a mod PAGE_SIZE + len ≤ PAGE_SIZE → ∀ va, a ≤ va < a + len →
  uaddr ok m root va =
  v ← pt_lookup m root a; if ok v then Some (PTE2PA v + va mod PAGE_SIZE) else None.
Proof.
  intros Ha Hlen va Hva. unfold uaddr.
  destruct (page_offset a (va - a)) as [E _]; [lia..|].
  rewrite (pt_lookup_page _ _ va a) by (lia || (rewrite <-E; f_equal; lia)). done.
Qed.

(** [copy_in] returns the bytes the user sees, or -1 at the first page that
    is not a user page. *)
Lemma copy_in_spec s N root src n :
  pt_wf (k_mem s) N root → 0 ≤ src → 0 ≤ n → src + n ≤ MAX_VADDR →
  runs (copy_in root src n) s (λ '(r, bs) s', s' = s ∧
    (r = 0 ∧ bs = ubytes (k_mem s) root src n ∧
       (∀ va, src ≤ va < src + n → is_Some (uaddr ureadable (k_mem s) root va)) ∨
     r = -1 ∧ ∃ va, src ≤ va < src + n ∧ uaddr ureadable (k_mem s) root va = None)).
Proof.
  intros Hwf H0 Hn Hmax. unfold copy_in.
  apply (runs_loop (λ '(dst, src', n') s', s' = s ∧ ∃ k, 0 ≤ k ≤ n ∧ src' = src + k ∧
    n' = n - k ∧ dst = ubytes (k_mem s) root src k ∧
    ∀ va, src ≤ va < src + k → is_Some (uaddr ureadable (k_mem s) root va))
    (λ '(_, _, n'), Z.to_nat n')).
  2: { split; [done|]. exists 0. split_and!; [lia..| |intros; lia]. done. }
  2: lia.
  intros [[dst src'] n'] s' (-> & k & Hk & -> & -> & -> & Hall).
  destruct (Z.ltb_spec 0 (n - k)) as [Hlt|Hge].
  - destruct (round_down_bounds (src + k)) as (Hr1 & Hr2 & Hr3 & Hr4); [lia|].
    kstep. eapply runs_ok; [apply (uvm_walk_addr_eq _ N); [done|addr_lia]|].
    rewrite pt_lookup_round_down by lia. rewrite Hr2.
    set (len := if _ <? _ then _ else _).
    destruct (chunk_len (n - k) (src + k) Hlt) as [Hlen Hlen']; fold len in Hlen, Hlen'.
    pose proof (uaddr_chunk ureadable (k_mem s) root (src + k) len ltac:(lia) Hlen') as Hu.
    destruct (pt_lookup (k_mem s) root (src + k)) as [v|] eqn:Hl; cbn in Hu.
    2: { cbn [Z.eqb]. kstep. split; [done|]. right. split; [done|]. exists (src + k).
         split; [lia|]. apply Hu; lia. }
    unfold ureadable in Hu. destruct (pte_user v) eqn:Hpu; cbn [andb] in Hu.
    2: { cbn [Z.eqb]. kstep. split; [done|]. right. split; [done|]. exists (src + k).
         split; [lia|]. apply Hu; lia. }
    destruct (Z.eqb_spec (PTE2PA v) 0) as [Ev|Ev]; cbn [negb] in Hu.
    { kstep. split; [done|]. right. split; [done|]. exists (src + k).
      split; [lia|]. apply Hu; lia. }
    kstep. kstep. kstep. rewrite wrap_small by addr_lia. split; [|lia].
    split; [done|]. exists (k + len). split_and!; [lia..| |].
    + rewrite ubytes_app by lia. f_equal. apply ubytes_page; [lia..|done].
    + intros va Hva. destruct (decide (va < src + k)); [apply Hall; lia|]. rewrite Hu by lia. eauto.
  - kstep. replace k with n by lia. split; [done|]. left.
    split_and!; [done..|]. intros va Hva. apply Hall. lia.
Qed.

(** ** [copy_out] *)

(** Writing [bs] at user address [a], inside one page. *)
Lemma user_write_spec s fl N root a v bs :
  mm_inv s fl N root → user_space (k_mem s) fl N root → 0 ≤ a →
  a mod PAGE_SIZE + Z.of_nat (length bs) ≤ PAGE_SIZE → Forall (λ b, 0 ≤ b < 256) bs →
  pt_lookup (k_mem s) root a = Some v → pte_user v = true →
  let s' := set_k_mem (mwrite (k_mem s) (PTE2PA v + a mod PAGE_SIZE) bs) s in
  mm_inv s' fl N root ∧
  (∀ va, pt_lookup (k_mem s') root va = pt_lookup (k_mem s) root va) ∧
  mem_same (eq (PTE2PA v)) (k_mem s) (k_mem s') ∧
  (∀ va w, 0 ≤ va → pt_lookup (k_mem s) root va = Some w → pte_user w = true →
     ubyte (k_mem s') root va =
     if decide (a ≤ va < a + Z.of_nat (length bs))
     then default 0 (bs !! Z.to_nat (va - a)) else ubyte (k_mem s) root va).
Proof.
  intros Hinv [Hown Hinj] Ha Hlen Hbs Hl Hv s'.
  destruct (Hown a v Ha Hl Hv) as (Hp & Hfl & HN).
  pose proof (Z.mod_pos_bound a PAGE_SIZE ltac:(done)) as Hm.
  assert (mem_same (eq (PTE2PA v)) (k_mem s) (k_mem s')) as Hs.
  { intros b Hb. simpl. rewrite mget_mwrite, decide_False; [done|].
    specialize (Hb _ eq_refl). unfold in_page in Hb. lia. }
  destruct (mm_inv_frame s s' fl N root (eq (PTE2PA v))) as (Hi & Hlk & _); try done.
  - apply only_mm_mem.
  - apply mwrite_bytes_ok, (mi_bytes _ _ _ _ Hinv).
  - by intros ? <-.
  - by intros q Hq <-.
  - intros q l Hq <-. congruence.
  - split_and!; [done..|]. intros va w H0 Hw Hu. unfold ubyte. rewrite Hlk, Hw.
    change (k_mem s') with (mwrite (k_mem s) (PTE2PA v + a mod PAGE_SIZE) bs).
    rewrite mget_mwrite. pose proof (Z.mod_pos_bound va PAGE_SIZE ltac:(done)) as Hm'.
    destruct (Hown va w H0 Hw Hu) as (Hp' & _ & _).
    destruct (decide (va / PAGE_SIZE = a / PAGE_SIZE)) as [E|E].
    + rewrite (pt_lookup_page _ _ va a), Hl in Hw by done. injection Hw as <-.
      assert (va = a + (va mod PAGE_SIZE - a mod PAGE_SIZE)) as Eva.
      { pose proof (Z.div_mod va PAGE_SIZE ltac:(done)). pose proof (Z.div_mod a PAGE_SIZE ltac:(done)).
        rewrite E in *. lia. }
      case_decide; [rewrite decide_True by lia|by rewrite decide_False by lia].
      replace (Z.to_nat (PTE2PA v + va mod PAGE_SIZE - (PTE2PA v + a mod PAGE_SIZE)))
        with (Z.to_nat (va - a)) by lia.
      destruct (lookup_lt_is_Some_2 bs (Z.to_nat (va - a))) as [x Hx]; [lia|].
      rewrite Hx. simpl. apply Z.mod_small. exact (Forall_lookup_1 _ _ _ _ Hbs Hx).
    + rewrite decide_False.
      2: { intros Hc. apply E, (Hinj va w a v); try done. symmetry.
           apply (pages_disjoint _ _ (PTE2PA w + va mod PAGE_SIZE)); try done; unfold in_page; lia. }
      rewrite decide_False; [done|]. intros Hc. apply E.
      destruct (page_offset a (va - a)) as [E' _]; [lia..|].
      rewrite <-E'. f_equal. lia.
Qed.

(** What a copy of [k] bytes of [src] to [dst] leaves. *)
Record copied (s : kstate) (fl : list Z) (N : gmap Z nat) (root dst : Z) (src : list Z) (k : Z)
    (s' : kstate) : Prop := {
  cp_inv : mm_inv s' fl N root;
  cp_only : s' = set_k_mem (k_mem s') s;
  cp_lookup : ∀ va, pt_lookup (k_mem s') root va = pt_lookup (k_mem s) root va;
  cp_mem : mem_same (λ q, ∃ va v, dst ≤ va < dst + k ∧ pt_lookup (k_mem s) root va = Some v ∧
                                  q = PTE2PA v) (k_mem s) (k_mem s');
  cp_done : ∀ va, dst ≤ va < dst + k → is_Some (uaddr uwritable (k_mem s) root va);
  cp_bytes : ∀ va w, 0 ≤ va → pt_lookup (k_mem s) root va = Some w → pte_user w = true →
    ubyte (k_mem s') root va =
    if decide (dst ≤ va < dst + k) then default 0 (src !! Z.to_nat (va - dst))
    else ubyte (k_mem s) root va;
  cp_phys : ∀ a, (∀ va, dst ≤ va < dst + k → uaddr uwritable (k_mem s) root va ≠ Some a) →
    mget (k_mem s') a = mget (k_mem s) a;
}.

Lemma copied_nil s fl N root dst src : mm_inv s fl N root → copied s fl N root dst src 0 s.
Proof.
  intros Hinv. split; try done; [by destruct s|intros; lia|].
  intros va w _ _ _. by rewrite decide_False by lia.
Qed.

Lemma user_space_ext m m' fl N root :
  (∀ va, pt_lookup m' root va = pt_lookup m root va) →
  user_space m fl N root → user_space m' fl N root.
Proof. intros He [H1 H2]. split; intros *; rewrite !He; eauto. Qed.

(** One round of the loop of [copy_out]. *)
Lemma copied_step s fl N root dst src k s1 v len :
  user_space (k_mem s) fl N root → Forall (λ b, 0 ≤ b < 256) src → 0 ≤ dst → 0 ≤ k →
  copied s fl N root dst src k s1 →
  0 < len → k + len ≤ Z.of_nat (length src) → (dst + k) mod PAGE_SIZE + len ≤ PAGE_SIZE →
  pt_lookup (k_mem s) root (dst + k) = Some v → uwritable v = true →
  copied s fl N root dst src (k + len)
    (set_k_mem (mwrite (k_mem s1) (PTE2PA v + (dst + k) mod PAGE_SIZE)
                  (take (Z.to_nat len) (drop (Z.to_nat k) src))) s1).
Proof.
  intros Hus Hsrc Hd Hk [C1 C2 C3 C4 C5 C6 C7] Hlen0 Hlen Hpg Hl Hw.
  pose proof Hw as [Hu _]%andb_true_iff.
  set (bs := take (Z.to_nat len) (drop (Z.to_nat k) src)).
  assert (Z.of_nat (length bs) = len) as Eb by (subst bs; rewrite length_take, length_drop; lia).
  destruct (user_write_spec s1 fl N root (dst + k) v bs) as (W1 & W2 & W3 & W4); try done.
  - by eapply user_space_ext.
  - lia.
  - by rewrite Eb.
  - subst bs. by apply Forall_take, Forall_drop.
  - by rewrite C3.
  - split; [done|..].
    + by rewrite C2.
    + intros va. by rewrite W2, C3.
    + eapply mem_same_mono; [|by apply (mem_same_trans _ _ _ _ _ C4 W3)].
      intros q [(va & w & Hva & Hv)|<-]; [exists va, w|exists (dst + k), v].
      * split; [lia|done].
      * split; [lia|done].
    + intros va Hva. destruct (decide (va < dst + k)); [apply C5; lia|].
      rewrite (uaddr_chunk _ _ _ (dst + k) len) by lia. rewrite Hl. simpl. rewrite Hw. eauto.
    + intros va w H0 Hlw Huw. rewrite (W4 va w), C6 with (w := w) by (done || by rewrite C3).
      rewrite Eb. destruct (decide (dst + k ≤ va < dst + k + len)).
      * rewrite decide_True by lia. subst bs. rewrite lookup_take_lt, lookup_drop by lia.
        do 2 f_equal. lia.
      * case_decide; [by rewrite decide_True by lia|by rewrite decide_False by lia].
    + intros a Ha. cbn [k_mem set_k_mem]. rewrite mget_mwrite, decide_False; [apply C7; intros va Hva; apply Ha; lia|].
      rewrite Eb. intros Hin. set (i := a - (PTE2PA v + (dst + k) mod PAGE_SIZE)). destruct (page_offset (dst + k) i) as [E1 E2]; [lia..|].
      apply (Ha (dst + k + i)); [lia|]. unfold uaddr. rewrite (pt_lookup_page _ root (dst + k + i) (dst + k)), Hl by lia. simpl.
      rewrite Hw. f_equal. lia.
Qed.

(** The lookup and the tests of the copies towards the user. *)
Lemma walk_writable {A} s N root va (bad : KM A) (k : Z → KM A) Q :
  pt_wf (k_mem s) N root → va < MAX_VADDR →
  ((v ← pt_lookup (k_mem s) root va; if uwritable v then Some tt else None) = None → runs bad s Q) →
  (∀ v, pt_lookup (k_mem s) root va = Some v → uwritable v = true → runs (k v) s Q) →
  runs (pte ← walk root va false;
        if pte =? 0 then bad else
        v ← load64 pte;
        if (Z.land v PTE_V =? 0) || (Z.land v PTE_U =? 0) || (Z.land v PTE_W =? 0) then bad
        else k v) s Q.
Proof.
  intros Hwf Hva Hbad Hk. kstep. eapply runs_ok; [apply walk_noalloc|].
  destruct (pt_leaf (k_mem s) root va) as [a|] eqn:Ea; cbn [from_option id].
  2: { cbn [Z.eqb]. apply Hbad. by rewrite pt_lookup_None. }
  rewrite (pt_lookup_Some _ _ _ _ Ea) in Hbad, Hk.
  destruct (pt_leaf_inv _ _ _ _ _ Hwf Ea) as (_ & q & _ & Hq & ->).
  destruct (wf_page _ _ _ Hwf _ _ Hq) as [[Hp _] _].
  pose proof (PX_bounds va 0 ltac:(lia)) as Hb.
  set (a := pte_at q _) in *. rewrite (proj2 (Z.eqb_neq a 0)) by (subst a; unfold pte_at; lia).
  kstep. unfold load64. kstep. set (v := ld64 (k_mem s) a) in *.
  replace ((Z.land v PTE_V =? 0) || (Z.land v PTE_U =? 0) || (Z.land v PTE_W =? 0))
    with (negb (pte_valid v && uwritable v)).
  2: { unfold pte_valid, uwritable, pte_user, pte_write.
       rewrite !negb_andb, !negb_involutive. by rewrite orb_assoc. }
  destruct (pte_valid v); cbn [andb negb]; [|by apply Hbad].
  destruct (uwritable v) eqn:Hw; cbn [negb]; [by apply Hk|]. apply Hbad. simpl. by rewrite Hw.
Qed.

(** [copy_out] makes the user see the bytes of [src] at [dst] and changes
    nothing else, or stops at the first page that is not writable. *)
Lemma copy_out_spec s fl N root dst src :
  mm_inv s fl N root → user_space (k_mem s) fl N root → Forall (λ b, 0 ≤ b < 256) src →
  0 ≤ dst →
  runs (copy_out root dst src) s (λ r s', ∃ k,
    0 ≤ k ≤ Z.of_nat (length src) ∧ copied s fl N root dst src k s' ∧
    (r = 0 ∧ k = Z.of_nat (length src) ∨
     r = -1 ∧ k < Z.of_nat (length src) ∧ uaddr uwritable (k_mem s) root (dst + k) = None)).
Proof.
  intros Hinv Hus Hsrc H0. unfold copy_out. set (n := Z.of_nat (length src)) in *.
  apply (runs_loop (λ '(dst', src') s', ∃ k, 0 ≤ k ≤ n ∧ copied s fl N root dst src k s' ∧
    dst' = dst + k ∧ src' = drop (Z.to_nat k) src) (λ '(_, src'), length src')).
  2: { exists 0. split_and!; [lia..|by apply copied_nil|lia|done]. }
  2: lia.
  intros [dst' src'] s' (k & Hk & Hcp & -> & ->). rewrite length_drop.
  assert (Z.of_nat (length src - Z.to_nat k) = n - k) as -> by lia.
  destruct (Z.ltb_spec 0 (n - k)) as [Hlt|Hge].
  2: { kstep. exists k. split_and!; [lia..|done|]. left. split; [done|lia]. }
  assert (∀ r s'', r = -1 → s'' = s' → uaddr uwritable (k_mem s) root (dst + k) = None →
    ∃ k0, 0 ≤ k0 ≤ n ∧ copied s fl N root dst src k0 s'' ∧
      (r = 0 ∧ k0 = n ∨ r = -1 ∧ k0 < n ∧ uaddr uwritable (k_mem s) root (dst + k0) = None)) as Hbad.
  { intros r s'' -> -> Hu. exists k. split_and!; [lia..|done|]. right. split_and!; [done|lia|done]. }
  destruct (round_down_bounds (dst + k)) as (Hr1 & Hr2 & Hr3 & Hr4); [lia|].
  assert (pt_lookup (k_mem s') root (PAGE_ROUND_DOWN (dst + k)) = pt_lookup (k_mem s) root (dst + k)) as Hl'.
  { rewrite (cp_lookup _ _ _ _ _ _ _ _ Hcp). apply pt_lookup_round_down. lia. }
  assert (∀ x, uaddr uwritable (k_mem s) root (dst + k) = None ↔
    (v ← pt_lookup (k_mem s) root (dst + k); if uwritable v then Some x else None) = @None unit) as Hun.
  { intros x. unfold uaddr. destruct (pt_lookup (k_mem s) root (dst + k)) as [v|]; [|by split]. simpl. destruct (uwritable v); by split. }
  pose proof (mi_pt _ _ _ _ (cp_inv _ _ _ _ _ _ _ _ Hcp)) as Hwf.
  destruct (Z.leb_spec MAX_VADDR (PAGE_ROUND_DOWN (dst + k))) as [Hge|Hva].
  { kstep. apply Hbad; try done. unfold uaddr.
    by rewrite <-Hl', pt_lookup_None by by apply pt_leaf_high. }
  apply (walk_writable s' N); [done|done|..]; rewrite Hl'.
  { intros Hu. kstep. apply Hbad; try done. by apply (Hun tt). }
  intros v Hl Hw.
  rewrite Hr2. set (len := if _ <? _ then _ else _).
  destruct (chunk_len (n - k) (dst + k) Hlt) as [Hlen Hlen']; fold len in Hlen, Hlen'.
  kstep. unfold upd_mem. kstep. kstep.
  assert (dst + k < MAX_VADDR + PAGE_SIZE) as Hsmall by lia. rewrite wrap_small by addr_lia.
  split; [|rewrite !length_drop; lia]. exists (k + len). split_and!; [lia..| |lia|].
  - apply copied_step; try done; lia.
  - rewrite drop_drop. f_equal. lia.
Qed.

(** ** [copy_str_in] *)

(** A string ended by a zero among its first [len] bytes. *)
Lemma copy_str_bytes_end f i bs len :
  (length bs < len)%nat → (∀ j b, bs !! j = Some b → f (i + Z.of_nat j) = b ∧ b ≠ 0) →
  f (i + Z.of_nat (length bs)) = 0 → copy_str_bytes f i len = (bs ++ [0], true).
Proof.
  revert i len. induction bs as [|b bs IH]; intros i len Hlen Hbs Hz;
    (destruct len as [|len]; [simpl in Hlen; lia|]); cbn [copy_str_bytes].
  - simpl in Hz. rewrite Z.add_0_r in Hz. by rewrite Hz.
  - destruct (Hbs O b eq_refl) as [Hb Hb0]. rewrite Z.add_0_r in Hb.
    rewrite Hb, (proj2 (Z.eqb_neq b 0)) by done. rewrite (IH (i + 1) len); [done|simpl in Hlen; lia|..].
    + intros j c Hc. destruct (Hbs (S j) c Hc) as [E1 E2]. split; [|done].
      rewrite <-E1. f_equal. lia.
    + rewrite <-Hz. f_equal. simpl. lia.
Qed.

(** No zero among the first [len] bytes. *)
Lemma copy_str_bytes_long f i len :
  (∀ j, i ≤ j < i + Z.of_nat len → f j ≠ 0) → snd (copy_str_bytes f i len) = false.
Proof.
  revert i. induction len as [|len IH]; intros i H; cbn [copy_str_bytes]; [done|].
  rewrite (proj2 (Z.eqb_neq (f i) 0)) by (apply H; lia).
  destruct (copy_str_bytes f (i + 1) len) as [l e] eqn:E. simpl.
  specialize (IH (i + 1)). rewrite E in IH. apply IH. intros j Hj. apply H. lia.
Qed.

Lemma copy_str_bytes_length f i len :
  (∀ j, i ≤ j < i + Z.of_nat len → f j ≠ 0) → length (copy_str_bytes f i len).1 = len.
Proof.
  revert i. induction len as [|len IH]; intros i H; cbn [copy_str_bytes]; [done|].
  rewrite (proj2 (Z.eqb_neq (f i) 0)) by (apply H; lia). specialize (IH (i + 1)).
  destruct (copy_str_bytes f (i + 1) len) as [l e]. cbn in *. f_equal. apply IH. intros j Hj. apply H. lia.
Qed.

(** The physical reads of one round are the user's bytes. *)
Lemma rd_ubyte m root src v i :
  0 ≤ src → 0 ≤ i → src mod PAGE_SIZE + i < PAGE_SIZE → pt_lookup m root src = Some v →
  rd m (PTE2PA v + src mod PAGE_SIZE) i = ubyte m root (src + i).
Proof.
  intros Hs Hi Hp Hl. destruct (page_offset src i Hs Hi Hp) as [E1 E2]. unfold ubyte, rd.
  rewrite (pt_lookup_page m root (src + i) src), Hl, E2 by lia. f_equal. lia.
Qed.

Lemma copy_str_in_walk s N root src v :
  pt_wf (k_mem s) N root → 0 ≤ src < MAX_VADDR →
  pt_lookup (k_mem s) root src = Some v → ureadable v = true →
  uvm_walk_addr root (PAGE_ROUND_DOWN src) s = Ok (PTE2PA v) s ∧ (PTE2PA v =? 0) = false.
Proof.
  intros Hwf Hs Hl [Hu Hn]%andb_true_iff. destruct (round_down_bounds src ltac:(lia)) as (? & _).
  split; [|by apply negb_true_iff]. rewrite (uvm_walk_addr_eq s N) by (done || lia).
  rewrite pt_lookup_round_down by lia. by rewrite Hl, Hu.
Qed.

Lemma copy_str_in_spec s N root src max_len v bs :
  pt_wf (k_mem s) N root → 0 ≤ src < MAX_VADDR →
  pt_lookup (k_mem s) root src = Some v → ureadable v = true →
  Z.of_nat (length bs) < max_len → src mod PAGE_SIZE + Z.of_nat (length bs) < PAGE_SIZE →
  (∀ j b, bs !! j = Some b → ubyte (k_mem s) root (src + Z.of_nat j) = b ∧ b ≠ 0) →
  ubyte (k_mem s) root (src + Z.of_nat (length bs)) = 0 →
  copy_str_in 1 root src max_len s = Ok (0, bs ++ [0]) s.
Proof.
  intros Hwf Hs Hl Hr Hmax Hpg Hbs Hz.
  destruct (copy_str_in_walk s N root src v Hwf Hs Hl Hr) as [Hw Hn].
  destruct (round_down_bounds src ltac:(lia)) as (_ & Hd & Hlt & _).
  unfold copy_str_in, copy_str_round. cbn [loop]. rewrite (proj2 (Z.ltb_lt 0 max_len)) by lia.
  rewrite K_bind_eq. erewrite bind_ok by exact Hw. rewrite Hn, Hd.
  set (len := if _ <? _ then _ else _).
  assert (Z.of_nat (length bs) < len ≤ PAGE_SIZE - src mod PAGE_SIZE) as Hlen.
  { subst len. destruct (Z.ltb_spec max_len (PAGE_SIZE - src mod PAGE_SIZE)); lia. }
  erewrite bind_ok by done.
  rewrite (copy_str_bytes_end _ _ bs); [done|lia|..].
  - intros j b Hb. pose proof (lookup_lt_Some _ _ _ Hb). rewrite (rd_ubyte _ root) by (done || lia).
    rewrite Z.add_0_l. by apply Hbs.
  - rewrite (rd_ubyte _ root) by (done || lia). by rewrite Z.add_0_l.
Qed.

(** A string that does not end in its page or in [max_len] bytes is read for
    ever, and [dst] is written past its end. *)
Lemma copy_str_in_unroll s N root src max_len v :
  pt_wf (k_mem s) N root → 0 ≤ src < MAX_VADDR →
  pt_lookup (k_mem s) root src = Some v → ureadable v = true → 0 < max_len →
  (∀ i, 0 ≤ i < max_len → src mod PAGE_SIZE + i < PAGE_SIZE → ubyte (k_mem s) root (src + i) ≠ 0) →
  ∀ k dst, ∃ dst', unroll k (copy_str_round root src) (dst, max_len) s = Ok (inl (dst', max_len)) s ∧
    Z.of_nat (length dst') = Z.of_nat (length dst) + Z.of_nat k * Z.min max_len (PAGE_SIZE - src mod PAGE_SIZE).
Proof.
  intros Hwf Hs Hl Hr Hmax Hnz k.
  destruct (copy_str_in_walk s N root src v Hwf Hs Hl Hr) as [Hw Hn].
  destruct (round_down_bounds src ltac:(lia)) as (_ & Hd & Hlt & _).
  induction k as [|k IH]; intros dst; [exists dst; split; [done|lia]|]. cbn [unroll]. unfold copy_str_round at 2.
  rewrite Hd, (proj2 (Z.ltb_lt 0 max_len)) by lia.
  rewrite K_bind_eq. erewrite bind_ok by exact Hw. rewrite Hn.
  set (len := if _ <? _ then _ else _).
  assert (len = Z.min max_len (PAGE_SIZE - src mod PAGE_SIZE)) as El.
  { subst len. destruct (Z.ltb_spec max_len (PAGE_SIZE - src mod PAGE_SIZE)); lia. }
  assert (∀ j, 0 ≤ j < 0 + Z.of_nat (Z.to_nat len) → rd (k_mem s) (PTE2PA v + src mod PAGE_SIZE) j ≠ 0) as Hz.
  { intros j Hj. rewrite (rd_ubyte _ root) by (done || lia). apply Hnz; lia. }
  erewrite bind_ok by done. rewrite <-El. pose proof (copy_str_bytes_long _ _ _ Hz) as He.
  pose proof (copy_str_bytes_length _ _ _ Hz) as Hlen.
  destruct (copy_str_bytes _ 0 (Z.to_nat len)) as [l e]. cbn [fst snd] in He, Hlen. subst e.
  replace (max_len - 0) with max_len by lia. destruct (IH (dst ++ l)) as (dst' & E' & Hl'). exists dst'. split; [exact E'|].
  rewrite Hl', length_app, Hlen, <-El. assert (0 ≤ len) by lia. lia.
Qed.

Lemma unroll_loop {L R} (body : L → KM (L + R)) k : ∀ l s l' s',
  unroll k body l s = Ok (inl l') s' → loop k body l s = Stuck OutOfFuel.
Proof.
  induction k as [|k IH]; intros l s l' s'; cbn [unroll loop]; [done|]. rewrite !K_bind_eq.
  destruct (body l s) as [[x|x] s1| | |]; cbn; [apply IH|done..].
Qed.

Lemma copy_str_in_diverges s N root src max_len v :
  pt_wf (k_mem s) N root → 0 ≤ src < MAX_VADDR →
  pt_lookup (k_mem s) root src = Some v → ureadable v = true → 0 < max_len →
  (∀ i, 0 ≤ i < max_len → src mod PAGE_SIZE + i < PAGE_SIZE → ubyte (k_mem s) root (src + i) ≠ 0) →
  ∀ fuel, copy_str_in fuel root src max_len s = Stuck OutOfFuel.
Proof.
  intros H1 H2 H3 H4 H5 H6 fuel. destruct (copy_str_in_unroll s N root src max_len v H1 H2 H3 H4 H5 H6 fuel []) as (dst & E & _).
  by eapply unroll_loop.
Qed.

(** An address above the user's range reaches [panic]. *)
Lemma copy_in_panics s root src n :
  0 < n → MAX_VADDR ≤ PAGE_ROUND_DOWN src →
  copy_in root src n s = Panic "invalid virtual address" s.
Proof.
  intros Hn Hm. unfold copy_in. cbn [loop]. rewrite (proj2 (Z.ltb_lt 0 n)) by lia.
  rewrite K_bind_eq. unfold uvm_walk_addr. rewrite (proj2 (Z.leb_le _ _)) by done. done.
Qed.
