(* ===== verification/MmUvm.v ===== *)
(** Growing, shrinking and releasing a user address space (kernel/mm/mm.c:
    [unmap_pages] with release, [uvm_alloc], [uvm_dealloc]): pages move between
    the free list and the process, none is lost or shared. *)

From S2P Require Import Prelude Mem State Machine Mm PageTable MmAlloc MmMap MmUser.

(** The pages that [va, va + size) translates to. *)
Definition range_page (m : memory) (root va size q : Z) : Prop :=
  ∃ va' v, va ≤ va' < va + size ∧ pt_lookup m root va' = Some v ∧ q = PTE2PA v.

(** [va, va + size) was unmapped and its pages released. *)
Record released (s : kstate) (fl : list Z) (N : gmap Z nat) (root va size : Z)
    (s' : kstate) (fl' : list Z) : Prop := {
  rl_inv : mm_inv s' fl' N root;
  rl_us : user_space (k_mem s') fl' N root;
  rl_only : only_mm s s';
  rl_lookup : ∀ va', 0 ≤ va' →
    pt_lookup (k_mem s') root va' = unmapped_range va size (pt_lookup (k_mem s) root) va';
  rl_fl : ∃ freed, fl' = freed ++ fl ∧ Z.of_nat (length freed) * PAGE_SIZE = size ∧
    ∀ q, q ∈ freed ↔ range_page (k_mem s) root va size q;
  rl_mem : mem_same (λ q, is_Some (N !! q) ∨ range_page (k_mem s) root va size q) (k_mem s) (k_mem s');
}.

(** [lo, hi) was mapped to fresh zeroed pages with permissions [perm]. *)
Record grown (s : kstate) (root lo hi perm : Z)
    (s' : kstate) (fl' : list Z) (N' : gmap Z nat) : Prop := {
  gw_inv : mm_inv s' fl' N' root;
  gw_us : user_space (k_mem s') fl' N' root;
  gw_only : only_mm s s';
  gw_new : ∀ va, lo ≤ va < hi → ∃ w, pt_lookup (k_mem s') root va = Some w ∧
    PTE_FLAGS w = Z.lor PTE_V perm ∧ ubyte (k_mem s') root va = 0;
  gw_old : ∀ va, 0 ≤ va → ¬ (lo ≤ va < hi) →
    pt_lookup (k_mem s') root va = pt_lookup (k_mem s) root va;
  gw_bytes : ∀ va w, 0 ≤ va → ¬ (lo ≤ va < hi) → pt_lookup (k_mem s) root va = Some w →
    pte_user w = true → ubyte (k_mem s') root va = ubyte (k_mem s) root va;
}.

(** The pages that are free or in the table. *)
Definition pool (fl : list Z) (N : gmap Z nat) (q : Z) : Prop := q ∈ fl ∨ is_Some (N !! q).

(** No page is lost and none is shared: the pages that were free or in the table
    are those of [hand], those that are free or in the table now, and those that
    [lo, hi) is mapped to; no other page is written. *)
Record accounts (s : kstate) (fl : list Z) (N : gmap Z nat) (hand : list Z) (root lo hi : Z)
    (s' : kstate) (fl' : list Z) (N' : gmap Z nat) : Prop := {
  ac_mem : mem_same (pool fl N) (k_mem s) (k_mem s');
  ac_pages : ∀ q, pool fl N q ↔ q ∈ hand ∨ pool fl' N' q ∨ range_page (k_mem s') root lo (hi - lo) q;
  ac_tables : N ⊆ N';
}.

(** The user pages of a process of size [sz]: everything below [sz] and
    nothing between it and the stack. *)
Record uvm_ok (s : kstate) (fl : list Z) (N : gmap Z nat) (root sz : Z) : Prop := {
  uv_inv : mm_inv s fl N root;
  uv_us : user_space (k_mem s) fl N root;
  uv_size : 0 ≤ sz ≤ USER_STACK_BASE;
  uv_low : ∀ va, 0 ≤ va < PAGE_ROUND_UP sz →
    ∃ v, pt_lookup (k_mem s) root va = Some v ∧ pte_user v = true;
  uv_gap : ∀ va, PAGE_ROUND_UP sz ≤ va < USER_STACK_BASE → pt_lookup (k_mem s) root va = None;
}.

(** ** Releasing pages *)

Lemma pte_user_flags v : pte_user v = pte_user (PTE_FLAGS v).
Proof. unfold pte_user, PTE_FLAGS. by rewrite <-Z.land_assoc. Qed.

Lemma pte_user_perm v perm :
  PTE_FLAGS v = Z.lor PTE_V perm → pte_user perm = true → pte_user v = true.
Proof.
  intros E. rewrite (pte_user_flags v), E. unfold pte_user.
  rewrite Z.land_lor_distr_l. by destruct (Z.land perm PTE_U).
Qed.

(** A bit set in both words. *)
Lemma land_bit x y n :
  Z.testbit x n = true → Z.testbit y n = true → negb (Z.land x y =? 0) = true.
Proof.
  intros Hx Hy. apply negb_true_iff, Z.eqb_neq. intros E.
  apply (f_equal (λ z, Z.testbit z n)) in E. by rewrite Z.land_spec, Hx, Hy, Z.bits_0 in E.
Qed.

(** The bytes of a user page that was not written. *)
Lemma ubyte_same P m m' root va v :
  mem_same P m m' → (∀ q, P q → is_page q) →
  pt_lookup m' root va = pt_lookup m root va → pt_lookup m root va = Some v →
  is_page (PTE2PA v) → ¬ P (PTE2PA v) → ubyte m' root va = ubyte m root va.
Proof.
  intros Hs HP Hl Hv Hp Hn. unfold ubyte. rewrite Hl, Hv. apply Hs. intros q Hq Hin.
  pose proof (Z.mod_pos_bound va PAGE_SIZE ltac:(done)) as Hm.
  apply Hn. rewrite (pages_disjoint (PTE2PA v) q (PTE2PA v + va mod PAGE_SIZE)); auto.
  unfold in_page. lia.
Qed.

Lemma unmap_page_release s fl N root va v :
  mm_inv s fl N root → user_space (k_mem s) fl N root → 0 ≤ va →
  pt_lookup (k_mem s) root va = Some v → pte_user v = true →
  runs (unmap_page root true va) s (λ _ s',
    mm_inv s' (PTE2PA v :: fl) N root ∧ user_space (k_mem s') (PTE2PA v :: fl) N root ∧
    only_mm s s' ∧
    mem_same (λ q, is_Some (N !! q) ∨ q = PTE2PA v) (k_mem s) (k_mem s') ∧
    ∀ va', 0 ≤ va' → pt_lookup (k_mem s') root va' =
      if decide (va' / PAGE_SIZE = va / PAGE_SIZE) then None else pt_lookup (k_mem s) root va').
Proof.
  intros Hinv Hus H0 Hl Hu. destruct (us_own _ _ _ _ Hus va v H0 Hl Hu) as (Hp & Hfl & HN).
  eapply unmap_page_head; [apply (mi_pt _ _ _ _ Hinv)|done|].
  intros a Ha. kstep. cbn [when]. kcall (pm_free_spec s fl N root (PTE2PA v) Hinv Hp HN Hfl).
  intros _ s1 (Hi1 & Ho1 & Hs1 & Hl1 & Hlf1). rewrite <-(Hlf1 va) in Ha.
  kcall (store_leaf_spec s1 _ N root va a 0 Hi1 H0 Ha); [lia|by rewrite pte_valid_0|].
  rewrite pte_valid_0. intros _ s2 [Hev Hl2].
  assert (∀ va', 0 ≤ va' → pt_lookup (k_mem s2) root va' =
    if decide (va' / PAGE_SIZE = va / PAGE_SIZE) then None else pt_lookup (k_mem s) root va') as Hl'.
  { intros va' H'. rewrite Hl2 by done. by rewrite Hl1. }
  split_and!; [by eapply ev_inv| | | |done].
  - split.
    + intros va' w H' Hw Hwu. rewrite Hl' in Hw by done. case_decide as E; [done|].
      destruct (us_own _ _ _ _ Hus va' w H' Hw Hwu) as (? & ? & ?). split_and!; try done.
      rewrite not_elem_of_cons. split; [|done]. intros Eq. apply E.
      by apply (us_inj _ _ _ _ Hus va' w va v).
    + intros va1 w1 va2 w2 H1 H2. rewrite !Hl' by done. repeat case_decide; try done.
      by apply (us_inj _ _ _ _ Hus).
  - eapply only_mm_trans; [apply (mi_hart _ _ _ _ Hinv)|done|by eapply ev_only].
  - eapply mem_same_mono; [|apply (mem_same_trans _ _ _ _ _ Hs1 (ev_mem _ _ _ _ _ _ _ Hev))].
    intros q [<-|?]; [by right|by left].
Qed.

Lemma released_nil s fl N root va :
  mm_inv s fl N root → user_space (k_mem s) fl N root → released s fl N root va 0 s fl.
Proof.
  intros Hinv Hus. split; try done.
  - apply only_mm_refl.
  - intros va' _. unfold unmapped_range. by rewrite decide_False by lia.
  - exists []. split_and!; [done|done|]. intros q. rewrite elem_of_nil. split; [done|]. intros (va' & v & ? & _). lia.
Qed.

Lemma range_page_next m root va size v q :
  0 ≤ va → 0 ≤ size → va mod PAGE_SIZE = 0 → size mod PAGE_SIZE = 0 → pt_lookup m root (va + size) = Some v →
  range_page m root va (size + PAGE_SIZE) q ↔ range_page m root va size q ∨ q = PTE2PA v.
Proof.
  intros H0 Hsz Ha1 Ha2 Hl. split.
  - intros (va' & w & Hva & Hw & ->). destruct (decide (va' < va + size)); [left; exists va', w; split; [lia|done]|right].
    rewrite (pt_lookup_page m root va' (va + size)) in Hw; [congruence|lia|lia|].
    apply (same_page (va + size) va' (aligned_add _ _ Ha1 Ha2)). lia.
  - intros [(va' & w & Hva & Hw)| ->]; [exists va', w; split; [addr_lia|done]|]. exists (va + size), v. split; [addr_lia|done].
Qed.

(** Release the page after [va, va + size). *)
Lemma released_next s fl N root va size s1 fl1 v s2 :
  0 ≤ va → 0 ≤ size → va mod PAGE_SIZE = 0 → size mod PAGE_SIZE = 0 →
  hart_ok (k_hart s) → released s fl N root va size s1 fl1 →
  pt_lookup (k_mem s) root (va + size) = Some v →
  mm_inv s2 (PTE2PA v :: fl1) N root → user_space (k_mem s2) (PTE2PA v :: fl1) N root →
  only_mm s1 s2 → mem_same (λ q, is_Some (N !! q) ∨ q = PTE2PA v) (k_mem s1) (k_mem s2) →
  (∀ va', 0 ≤ va' → pt_lookup (k_mem s2) root va' =
      if decide (va' / PAGE_SIZE = (va + size) / PAGE_SIZE) then None
      else pt_lookup (k_mem s1) root va') →
  released s fl N root va (size + PAGE_SIZE) s2 (PTE2PA v :: fl1).
Proof.
  intros H0 Hsz Ha1 Ha2 Hh [R1 R2 R3 R4 (freed & -> & R5 & R5') R6] Hl I2 U2 O2 S2 L2. split; try done.
  - by eapply only_mm_trans.
  - intros va' H'. rewrite L2, R4 by done. unfold unmapped_range.
    pose proof (same_page (va + size) va' (aligned_add _ _ Ha1 Ha2)) as Hsp.
    repeat case_decide; try done; exfalso; unfold PAGE_SIZE in *; intuition lia.
  - exists (PTE2PA v :: freed). split_and!; [done|rewrite length_cons; addr_lia|]. intros q.
    rewrite elem_of_cons, R5', (range_page_next _ _ _ _ v) by done. tauto.
  - eapply mem_same_mono; [|by apply (mem_same_trans _ _ _ _ _ R6 S2)].
    intros q. rewrite (range_page_next _ _ _ _ v) by done. tauto.
Qed.

(** [unmap_pages] with release, on mapped user pages. *)
Lemma unmap_pages_release s fl N root va size :
  mm_inv s fl N root → user_space (k_mem s) fl N root →
  va mod PAGE_SIZE = 0 → size mod PAGE_SIZE = 0 → 0 ≤ va → 0 ≤ size → va + size ≤ MAX_VADDR →
  (∀ va', va ≤ va' < va + size → ∃ v, pt_lookup (k_mem s) root va' = Some v ∧ pte_user v = true) →
  runs (unmap_pages root va size true) s (λ _ s', ∃ fl', released s fl N root va size s' fl').
Proof.
  intros Hinv Hus Hva Hsz H0 H0' Hmax Hall. unfold unmap_pages. rewrite Hva, Hsz. cbn [Z.eqb negb].
  rewrite (wrap_small 64 (va + size)) by addr_lia.
  apply (runs_loop (λ cur s',
    (va ≤ cur ≤ va + size ∧ cur mod PAGE_SIZE = 0) ∧ ∃ fl', released s fl N root va (cur - va) s' fl')
    (pages_left (va + size))).
  2: { split; [split; [lia|done]|]. exists fl. replace (va - va) with 0 by lia. by apply released_nil. }
  2: apply pages_left_fuel.
  intros cur s1 ([Hc Hm] & fl1 & Hr). destruct (Z.ltb_spec cur (va + size)) as [Hlt|Hge].
  - pose proof (aligned_lt _ _ Hm (aligned_add _ _ Hva Hsz) Hlt) as Hn.
    destruct (Hall cur ltac:(lia)) as (v & Hv & Hu). kstep.
    assert (pt_lookup (k_mem s1) root cur = Some v) as Hv1.
    { rewrite (rl_lookup _ _ _ _ _ _ _ _ Hr) by lia. unfold unmapped_range.
      by rewrite decide_False by lia. }
    kcall (unmap_page_release s1 fl1 N root cur v (rl_inv _ _ _ _ _ _ _ _ Hr)
      (rl_us _ _ _ _ _ _ _ _ Hr) ltac:(lia) Hv1 Hu).
    intros _ s2 (I2 & U2 & O2 & S2 & L2). kstep. rewrite wrap_small by addr_lia.
    split; [|by apply pages_left_next].
    split; [split; [addr_lia|by apply aligned_next]|]. exists (PTE2PA v :: fl1).
    replace (cur + PAGE_SIZE - va) with (cur - va + PAGE_SIZE) by lia.
    eapply released_next; try done.
    + lia.
    + unfold PAGE_SIZE in *. Z.to_euclidean_division_equations; lia.
    + apply (mi_hart _ _ _ _ Hinv).
    + replace (va + (cur - va)) with cur by lia. done.
    + by replace (va + (cur - va)) with cur by lia.
  - kstep. exists fl1. by replace size with (cur - va) by lia.
Qed.

(** Pages that stay mapped keep their contents. *)
Lemma released_bytes s fl N root va size s' fl' va' w :
  mm_inv s fl N root → user_space (k_mem s) fl N root → released s fl N root va size s' fl' →
  0 ≤ va → (∀ x, va ≤ x < va + size → ∀ v, pt_lookup (k_mem s) root x = Some v → pte_user v = true) →
  va mod PAGE_SIZE = 0 → size mod PAGE_SIZE = 0 →
  0 ≤ va' → ¬ (va ≤ va' < va + size) → pt_lookup (k_mem s) root va' = Some w → pte_user w = true →
  ubyte (k_mem s') root va' = ubyte (k_mem s) root va'.
Proof.
  intros Hinv Hus Hr H0 Hru Ha1 Ha2 H' Hout Hw Hu.
  destruct (us_own _ _ _ _ Hus va' w H' Hw Hu) as (Hp & Hfl & HN).
  eapply ubyte_same; [apply (rl_mem _ _ _ _ _ _ _ _ Hr)| | |done|done|].
  - intros q [[l Hq]|(x & v & Hx & Hv & ->)].
    + by apply (wf_page _ _ _ (mi_pt _ _ _ _ Hinv) q l).
    + apply (us_own _ _ _ _ Hus x v); [lia|done|]. by eapply Hru.
  - rewrite (rl_lookup _ _ _ _ _ _ _ _ Hr) by done. unfold unmapped_range. by rewrite decide_False.
  - intros [[l Hq]|(x & v & Hx & Hv & E)]; [congruence|]. apply Hout.
    assert (va' / PAGE_SIZE = x / PAGE_SIZE) as Ex.
    { apply (us_inj _ _ _ _ Hus va' w x v); try done; [lia|by eapply Hru]. }
    unfold PAGE_SIZE in *. Z.to_euclidean_division_equations; lia.
Qed.

(** ** [uvm_dealloc] *)

Lemma USER_STACK_BASE_eq : USER_STACK_BASE = 274877890560.
Proof. done. Qed.

Lemma round_up_bounds n :
  0 ≤ n ≤ USER_STACK_BASE →
  n ≤ PAGE_ROUND_UP n < n + PAGE_SIZE ∧ PAGE_ROUND_UP n mod PAGE_SIZE = 0 ∧
  PAGE_ROUND_UP n ≤ USER_STACK_BASE.
Proof.
  rewrite USER_STACK_BASE_eq. intros H. rewrite PAGE_ROUND_UP_eq by addr_lia.
  unfold PAGE_SIZE. rewrite Z.mod_mul by done. Z.to_euclidean_division_equations; lia.
Qed.

Lemma round_up_mono a b : 0 ≤ a ≤ b → b ≤ USER_STACK_BASE → PAGE_ROUND_UP a ≤ PAGE_ROUND_UP b.
Proof.
  rewrite USER_STACK_BASE_eq. intros H H'. rewrite !PAGE_ROUND_UP_eq by addr_lia.
  apply Z.mul_le_mono_nonneg_r; [done|]. apply Z.div_le_mono; [done|lia].
Qed.

Lemma uv_range s fl N root sz lo :
  uvm_ok s fl N root sz → 0 ≤ lo → ∀ va, lo ≤ va < PAGE_ROUND_UP sz →
  ∃ v, pt_lookup (k_mem s) root va = Some v ∧ pte_user v = true.
Proof. intros H H0 va Hva. apply (uv_low _ _ _ _ _ H). lia. Qed.

(** Shrinking to [new_sz] unmaps and releases exactly the pages above it. *)
Lemma uvm_dealloc_spec s fl N root old_sz new_sz :
  uvm_ok s fl N root old_sz → 0 ≤ new_sz < old_sz →
  runs (uvm_dealloc root old_sz new_sz) s (λ r s', r = PAGE_ROUND_UP new_sz ∧ ∃ fl',
    uvm_ok s' fl' N root new_sz ∧
    released s fl N root (PAGE_ROUND_UP new_sz)
      (PAGE_ROUND_UP old_sz - PAGE_ROUND_UP new_sz) s' fl' ∧
    ∀ va, 0 ≤ va < PAGE_ROUND_UP new_sz → ubyte (k_mem s') root va = ubyte (k_mem s) root va).
Proof.
  intros Hok Hsz. pose proof Hok as [Hinv Hus Hs Hlow Hgap]. unfold uvm_dealloc.
  rewrite (proj2 (Z.leb_gt old_sz new_sz)) by lia.
  destruct (round_up_bounds old_sz Hs) as (Ho1 & Ho2 & Ho3).
  destruct (round_up_bounds new_sz ltac:(lia)) as (Hn1 & Hn2 & Hn3).
  pose proof (round_up_mono new_sz old_sz ltac:(lia) ltac:(lia)) as Hmono.
  set (lo := PAGE_ROUND_UP new_sz) in *. set (hi := PAGE_ROUND_UP old_sz) in *.
  rewrite USER_STACK_BASE_eq in *. rewrite wrap_small by addr_lia.
  assert ((hi - lo) mod PAGE_SIZE = 0) as Hd.
  { clearbody lo hi. unfold PAGE_SIZE in *. Z.to_euclidean_division_equations; lia. }
  kstep. kcall (unmap_pages_release s fl N root lo (hi - lo) Hinv Hus Hn2 Hd); [addr_lia..| |].
  { intros va Hva. apply Hlow. lia. }
  intros _ s' (fl' & Hr). kstep. split; [done|]. exists fl'. split_and!; [|done|].
  - split; [by eapply rl_inv|by eapply rl_us|rewrite USER_STACK_BASE_eq; lia|..]; fold lo; intros va Hva;
      rewrite (rl_lookup _ _ _ _ _ _ _ _ Hr) by lia; unfold unmapped_range.
    + rewrite decide_False by lia. apply Hlow. lia.
    + case_decide; [done|]. apply Hgap. rewrite USER_STACK_BASE_eq in *. lia.
  - intros va Hva. destruct (Hlow va ltac:(lia)) as (w & Hw & Hu).
    eapply (released_bytes s fl N root lo (hi - lo)); try done; try lia.
    intros x Hx v Hv. destruct (Hlow x ltac:(lia)) as (w' & Hw' & Hu'). congruence.
Qed.

(** ** [uvm_alloc] *)

(** Growing the page table takes pages from the free list only, so user pages
    are untouched; [f] is the new translation. *)
Lemma evolves_user s fl N root s' fl' N' :
  mm_inv s fl N root → user_space (k_mem s) fl N root → evolves root s fl N s' fl' N' →
  ∀ va v, 0 ≤ va → pt_lookup (k_mem s) root va = Some v → pte_user v = true →
    (PTE2PA v ∉ fl') ∧ N' !! PTE2PA v = None ∧
    (pt_lookup (k_mem s') root va = pt_lookup (k_mem s) root va →
     ubyte (k_mem s') root va = ubyte (k_mem s) root va).
Proof.
  intros Hinv Hus [A1 A2 A3 (u & Eu & Hu) A5] va v H0 Hl Huv.
  destruct (us_own _ _ _ _ Hus va v H0 Hl Huv) as (Hp & Hfl & HN).
  assert (N' !! PTE2PA v = None) as HN'.
  { destruct (N' !! PTE2PA v) as [l|] eqn:E; [|done].
    destruct (proj1 (Hu (PTE2PA v))) as [[? ?]|?]; [by rewrite E|congruence|].
    exfalso. apply Hfl. rewrite Eu. apply elem_of_app. by left. }
  split_and!; [|done|].
  - intros H. apply Hfl. rewrite Eu. apply elem_of_app. by right.
  - intros E. eapply ubyte_same; [done| |done|done|done|].
    + intros q [l Hq]. by apply (wf_page _ _ _ (mi_pt _ _ _ _ A1) q l).
    + intros [l Hq]. congruence.
Qed.

Lemma evolves_grown s fl N root a perm s' fl' N' :
  mm_inv s fl N root → user_space (k_mem s) fl N root → evolves root s fl N s' fl' N' →
  (∀ va, 0 ≤ va → pt_lookup (k_mem s') root va = pt_lookup (k_mem s) root va) →
  grown s root a a perm s' fl' N'.
Proof.
  intros Hinv Hus Hev Hl. pose proof (evolves_user _ _ _ _ _ _ _ Hinv Hus Hev) as Huser.
  destruct Hev. split; try done.
  - split.
    + intros va v H'. rewrite Hl by done. intros Hv Hvu.
      destruct (Huser va v) as (? & ? & _); try done. by destruct (us_own _ _ _ _ Hus va v).
    + intros va v va' v' H1 H2. rewrite !Hl by done. by apply (us_inj _ _ _ _ Hus).
  - intros; lia.
  - intros va H' _. by apply Hl.
  - intros va w H' _ Hw Hu'. apply (Huser va w); try done. by apply Hl.
Qed.

(** A fresh page [p] mapped at [a]. *)
Lemma map_fresh_spec s fl N root a p perm :
  mm_inv s fl N root → user_space (k_mem s) fl N root → is_page p → (p ∉ fl) → N !! p = None →
  a mod PAGE_SIZE = 0 → 0 ≤ a → a + PAGE_SIZE ≤ MAX_VADDR →
  0 ≤ perm < 2 ^ 10 → pte_leaf perm = true → zeroed (k_mem s) p →
  (∀ va v, 0 ≤ va → pt_lookup (k_mem s) root va = Some v → pte_user v = true → PTE2PA v ≠ p) →
  (∀ va, a ≤ va < a + PAGE_SIZE → pt_lookup (k_mem s) root va = None) →
  runs (map_pages root a p PAGE_SIZE perm) s (λ r s', ∃ fl' N',
    (p ∉ fl') ∧ N' !! p = None ∧ evolves root s fl N s' fl' N' ∧
    (r = 0 ∧ grown s root a (a + PAGE_SIZE) perm s' fl' N' ∧ pt_lookup (k_mem s') root a = Some (mk_pte p perm) ∨
     r = -1 ∧ fl' = [] ∧ grown s root a a perm s' fl' N' ∧
       (∀ va v, 0 ≤ va → pt_lookup (k_mem s') root va = Some v → pte_user v = true → PTE2PA v ≠ p))).
Proof.
  intros Hinv Hus Hp Hfl HN Ha H0 Hmax Hperm Hlf Hz Hne Hnone.
  kcall (map_pages_spec s fl N root a p PAGE_SIZE perm Hinv Ha); try done; [destruct Hp; lia|by apply is_page_end|].
  intros r s' (fl' & N' & Hev & Hr). exists fl', N'.
  pose proof (evolves_user _ _ _ _ _ _ _ Hinv Hus Hev) as Huser.
  pose proof Hev as [A1 A2 A3 (u & Eu & Hu) A5].
  assert (p ∉ fl') as Hpf by (intros H; apply Hfl; rewrite Eu; apply elem_of_app; by right).
  assert (N' !! p = None) as HpN.
  { destruct (N' !! p) as [l|] eqn:E; [|done].
    destruct (proj1 (Hu p)) as [[? ?]|?]; [by rewrite E|congruence|].
    exfalso. apply Hfl. rewrite Eu. apply elem_of_app. by left. }
  split_and!; [done..|]. destruct Hr as [[-> Hl]|(-> & -> & Hl)]; [left|right].
  - split; [done|].
    assert (∀ va, 0 ≤ va → pt_lookup (k_mem s') root va =
      if decide (a ≤ va < a + PAGE_SIZE) then Some (mk_pte p perm) else pt_lookup (k_mem s) root va) as Hl'.
    { intros va H'. rewrite Hl by done. unfold mapped_range. case_decide; [|done].
      rewrite (round_down_page a va) by done. do 2 f_equal. lia. }
    split; [|by rewrite Hl', decide_True by (unfold PAGE_SIZE; lia)]. split; try done.
    + split.
      * intros va v H'. rewrite Hl' by done. case_decide.
        -- intros [= <-] _. by rewrite PTE2PA_mk_pte.
        -- intros Hv Hvu. destruct (Huser va v) as (? & ? & _); try done.
           by destruct (us_own _ _ _ _ Hus va v).
      * intros va v va' v' H1 H2. rewrite !Hl' by done. repeat case_decide.
        -- intros _ _ _ _ _. rewrite (proj2 (same_page a va Ha)), (proj2 (same_page a va' Ha)); done.
        -- intros [= <-] _ Hv Hvu E. rewrite PTE2PA_mk_pte in E by done. by destruct (Hne va' v').
        -- intros Hv Hvu [= <-] _ E. rewrite PTE2PA_mk_pte in E by done. by destruct (Hne va v).
        -- by apply (us_inj _ _ _ _ Hus).
    + intros va Hva. exists (mk_pte p perm). pose proof (Hl' va ltac:(lia)) as E.
      rewrite decide_True in E by done. split_and!; [done| |].
      * apply PTE_FLAGS_mk_pte; [destruct Hp; lia|done].
      * unfold ubyte. rewrite E, PTE2PA_mk_pte by done.
        pose proof (Z.mod_pos_bound va PAGE_SIZE ltac:(done)) as Hm.
        rewrite A5; [apply Hz; unfold in_page; lia|]. intros q [l Hq] Hin.
        assert (p = q); [|congruence]. eapply (pages_disjoint p q); [done| | |done].
        -- by apply (wf_page _ _ _ (mi_pt _ _ _ _ A1) q l).
        -- unfold in_page. lia.
    + intros va H' Hn. rewrite Hl' by done. by rewrite decide_False.
    + intros va w H' Hn Hw Hu'. apply (Huser va w); try done. rewrite Hl' by done. by rewrite decide_False.
  - split_and!; [done|done| |].
    + by eapply evolves_grown.
    + intros va v H'. rewrite Hl by done. by apply Hne.
Qed.

(** ** Where the pages are *)

Lemma range_page_ext m m' root lo size q :
  (∀ va, lo ≤ va < lo + size → pt_lookup m' root va = pt_lookup m root va) →
  range_page m' root lo size q ↔ range_page m root lo size q.
Proof.
  intros H. split; intros (va & v & Hva & Hv & ->); exists va, v; (split; [done|]); split; [|done| |done].
  - by rewrite <-H.
  - by rewrite H.
Qed.

Lemma range_page_nil m root lo q : range_page m root lo (lo - lo) q ↔ False.
Proof. split; [|done]. intros (va & v & Hva & _). lia. Qed.

Lemma accounts_refl s fl N root lo : accounts s fl N [] root lo lo s fl N.
Proof. split; [apply mem_same_refl| |done]. intros q. rewrite range_page_nil, elem_of_nil. tauto. Qed.

Lemma accounts_step s fl N hand root lo a s1 fl1 N1 hand' b s2 fl2 N2 :
  accounts s fl N hand root lo a s1 fl1 N1 →
  mem_same (λ q, q ∈ hand ∨ pool fl1 N1 q ∨ range_page (k_mem s1) root lo (a - lo) q) (k_mem s1) (k_mem s2) →
  (∀ q, q ∈ hand ∨ pool fl1 N1 q ∨ range_page (k_mem s1) root lo (a - lo) q ↔
        q ∈ hand' ∨ pool fl2 N2 q ∨ range_page (k_mem s2) root lo (b - lo) q) →
  N1 ⊆ N2 → accounts s fl N hand' root lo b s2 fl2 N2.
Proof.
  intros [A1 A2 A3] Hm Hq HN. split.
  - eapply mem_same_mono; [|apply (mem_same_trans _ _ _ _ _ A1 Hm)]. intros q. cbv beta. rewrite A2. tauto.
  - intros q. by rewrite A2.
  - by etrans.
Qed.

(** A page is taken off the free list. *)
Lemma accounts_take s fl N root lo a s1 p l N1 s2 :
  accounts s fl N [] root lo a s1 (p :: l) N1 → mem_same (eq p) (k_mem s1) (k_mem s2) →
  (∀ va, pt_lookup (k_mem s2) root va = pt_lookup (k_mem s1) root va) →
  accounts s fl N [p] root lo a s2 l N1.
Proof.
  intros A Hm Hl. eapply accounts_step; [exact A| | |done].
  - eapply mem_same_mono; [|exact Hm]. intros q <-. right. left. left. by left.
  - intros q. rewrite (range_page_ext (k_mem s1) (k_mem s2)) by done. unfold pool. rewrite !elem_of_cons, !elem_of_nil. tauto.
Qed.

(** A page is put back. *)
Lemma accounts_put s fl N root lo a s1 p l N1 s2 :
  accounts s fl N [p] root lo a s1 l N1 → mem_same (eq p) (k_mem s1) (k_mem s2) →
  (∀ va, pt_lookup (k_mem s2) root va = pt_lookup (k_mem s1) root va) →
  accounts s fl N [] root lo a s2 (p :: l) N1.
Proof.
  intros A Hm Hl. eapply accounts_step; [exact A| | |done].
  - eapply mem_same_mono; [|exact Hm]. intros q <-. left. by left.
  - intros q. rewrite (range_page_ext (k_mem s1) (k_mem s2)) by done. unfold pool. rewrite !elem_of_cons, !elem_of_nil. tauto.
Qed.

Lemma evolves_pool root s fl N s' fl' N' q : evolves root s fl N s' fl' N' → pool fl' N' q ↔ pool fl N q.
Proof. intros [_ _ _ (u & -> & Hu) _]. unfold pool. rewrite Hu, elem_of_app. tauto. Qed.

Lemma evolves_pool_mem root s fl N s' fl' N' : evolves root s fl N s' fl' N' → mem_same (pool fl N) (k_mem s) (k_mem s').
Proof.
  intros Hev. eapply mem_same_mono; [|apply (ev_mem _ _ _ _ _ _ _ Hev)]. intros q Hq.
  apply (evolves_pool _ _ _ _ _ _ _ q Hev). by right.
Qed.

(** The table changes, and so does what is mapped. *)
Lemma accounts_evolves s fl N hand root lo a s1 fl1 N1 hand' b s2 fl2 N2 :
  accounts s fl N hand root lo a s1 fl1 N1 → evolves root s1 fl1 N1 s2 fl2 N2 →
  (∀ q, q ∈ hand ∨ range_page (k_mem s1) root lo (a - lo) q ↔ q ∈ hand' ∨ range_page (k_mem s2) root lo (b - lo) q) →
  accounts s fl N hand' root lo b s2 fl2 N2.
Proof.
  intros A Hev Hr. eapply accounts_step; [exact A| | |apply Hev].
  - eapply mem_same_mono; [|by eapply evolves_pool_mem]. tauto.
  - intros q. rewrite (evolves_pool _ _ _ _ _ _ _ q Hev). specialize (Hr q). tauto.
Qed.

(** What was mapped is released. *)
Lemma accounts_release s fl N root lo a s1 fl1 N1 s2 fl2 :
  accounts s fl N [] root lo a s1 fl1 N1 → released s1 fl1 N1 root lo (a - lo) s2 fl2 →
  accounts s fl N [] root lo lo s2 fl2 N1.
Proof.
  intros A [_ _ _ _ (freed & -> & _ & Hf) Hm]. eapply accounts_step; [exact A| | |done].
  - eapply mem_same_mono; [|exact Hm]. unfold pool. tauto.
  - intros q. rewrite range_page_nil. unfold pool. rewrite elem_of_app, Hf, elem_of_nil. tauto.
Qed.

(** The new pages were free. *)
Lemma accounts_new s fl N root lo hi s' fl' N' va v :
  accounts s fl N [] root lo hi s' fl' N' → user_space (k_mem s') fl' N' root → 0 ≤ lo → lo ≤ va < hi →
  pt_lookup (k_mem s') root va = Some v → pte_user v = true → PTE2PA v ∈ fl.
Proof.
  intros [_ A2 A3] Hu Hlo Hva Hv Hvu. destruct (proj2 (A2 (PTE2PA v))) as [?|[l Hl]]; [|done|].
  - right. right. exists va, v. split; [lia|done].
  - destruct (us_own _ _ _ _ Hu va v ltac:(lia) Hv Hvu) as (_ & _ & Hn). by rewrite (lookup_weaken _ _ _ _ Hl A3) in Hn.
Qed.

Lemma grown_refl s fl N root a perm :
  mm_inv s fl N root → user_space (k_mem s) fl N root → grown s root a a perm s fl N.
Proof. intros Hi Hu. eapply evolves_grown; [done..|by apply evolves_refl|done]. Qed.

Lemma grown_trans s root lo mid hi perm s1 fl1 N1 s2 fl2 N2 :
  hart_ok (k_hart s) → 0 ≤ lo ≤ mid → mid ≤ hi → pte_user perm = true →
  grown s root lo mid perm s1 fl1 N1 → grown s1 root mid hi perm s2 fl2 N2 →
  grown s root lo hi perm s2 fl2 N2.
Proof.
  intros Hh Hlo Hhi Hpu [A1 A2 A3 A4 A5 A6] [B1 B2 B3 B4 B5 B6]. split; try done.
  - by eapply only_mm_trans.
  - intros va Hva. destruct (decide (mid ≤ va)); [apply B4; lia|].
    destruct (A4 va) as (w & Hw & Hf & Hb); [lia|]. exists w.
    rewrite B5, (B6 va w) by (lia || done || by eapply pte_user_perm). done.
  - intros va H0 Hn. rewrite B5, A5 by lia. done.
  - intros va w H0 Hn Hw Hu. rewrite (B6 va w), (A6 va w); try done; try lia. rewrite A5 by lia. done.
Qed.

(** The address space of a process that has grown to [hi]. *)
Lemma grown_uvm_ok s fl N root sz perm hi s' fl' N' :
  uvm_ok s fl N root sz → grown s root (PAGE_ROUND_UP sz) hi perm s' fl' N' →
  pte_user perm = true → PAGE_ROUND_UP sz ≤ hi ≤ USER_STACK_BASE →
  ∀ sz', 0 ≤ sz' ≤ USER_STACK_BASE → PAGE_ROUND_UP sz' = hi → uvm_ok s' fl' N' root sz'.
Proof.
  intros [U1 U2 U3 U4 U5] [G1 G2 G3 G4 G5 G6] Hpu Hhi sz' Hsz' E.
  destruct (round_up_bounds sz U3) as (Hb & _ & _). split; try done; rewrite E; intros va Hva.
  - destruct (decide (va < PAGE_ROUND_UP sz)); [rewrite G5 by lia; apply U4; lia|].
    destruct (G4 va) as (w & Hw & Hf & _); [lia|]. exists w. split; [done|]. by eapply pte_user_perm.
  - rewrite G5 by lia. apply U5. lia.
Qed.

(** The failure path of [uvm_alloc]: back to the old size. *)
Lemma uvm_alloc_undo s fl N root sz a perm s1 fl1 N1 :
  uvm_ok s fl N root sz → grown s root (PAGE_ROUND_UP sz) a perm s1 fl1 N1 →
  pte_user perm = true → PAGE_ROUND_UP sz ≤ a ≤ USER_STACK_BASE → a mod PAGE_SIZE = 0 →
  accounts s fl N [] root (PAGE_ROUND_UP sz) a s1 fl1 N1 →
  runs (uvm_dealloc root a (PAGE_ROUND_UP sz)) s1 (λ _ s', ∃ fl' N',
    grown s root (PAGE_ROUND_UP sz) (PAGE_ROUND_UP sz) perm s' fl' N' ∧
    accounts s fl N [] root (PAGE_ROUND_UP sz) (PAGE_ROUND_UP sz) s' fl' N' ∧
    Z.of_nat (length fl') * PAGE_SIZE = Z.of_nat (length fl1) * PAGE_SIZE + (a - PAGE_ROUND_UP sz)).
Proof.
  intros Hok Hg Hpu Ha Hm Hac. destruct (round_up_bounds sz (uv_size _ _ _ _ _ Hok)) as (Hb1 & Hb2 & Hb3).
  set (lo := PAGE_ROUND_UP sz) in *. pose proof (uv_size _ _ _ _ _ Hok) as Hsz.
  destruct (decide (lo = a)) as [<-|Hne].
  { unfold uvm_dealloc. rewrite Z.leb_refl. kstep. exists fl1, N1. split_and!; [done|done|lia]. }
  assert (∀ x, 0 ≤ x ≤ USER_STACK_BASE → x mod PAGE_SIZE = 0 → PAGE_ROUND_UP x = x) as Hru.
  { rewrite USER_STACK_BASE_eq. intros x Hx Hmx. rewrite PAGE_ROUND_UP_eq by addr_lia.
    unfold PAGE_SIZE in *. Z.to_euclidean_division_equations; lia. }
  assert (uvm_ok s1 fl1 N1 root a) as Hok1.
  { eapply grown_uvm_ok; try done; [lia|]. apply Hru; [lia|done]. }
  kcall (uvm_dealloc_spec s1 fl1 N1 root a lo Hok1 ltac:(lia)).
  intros r s' (_ & fl' & Hok' & Hr & Hby). exists fl', N1. rewrite (Hru lo), (Hru a) in * by (lia || done).
  split_and!; [|by eapply accounts_release|].
  2: { destruct (rl_fl _ _ _ _ _ _ _ _ Hr) as (freed & -> & Hlen & _). rewrite length_app. lia. }
  destruct Hg as [G1 G2 G3 G4 G5 G6]. split.
  - by eapply rl_inv.
  - by eapply rl_us.
  - eapply only_mm_trans; [apply (mi_hart _ _ _ _ (uv_inv _ _ _ _ _ Hok))|done|by eapply rl_only].
  - intros; lia.
  - intros va H0 _. rewrite (rl_lookup _ _ _ _ _ _ _ _ Hr) by done. unfold unmapped_range.
    case_decide; [|apply G5; lia]. symmetry. apply (uv_gap _ _ _ _ _ Hok). fold lo. lia.
  - intros va w H0 _ Hw Hu. assert (¬ (lo ≤ va < a)) as Hout.
    { intros H. rewrite (uv_gap _ _ _ _ _ Hok) in Hw; [done|fold lo; lia]. }
    rewrite <-(G6 va w) by done. eapply (released_bytes s1 fl1 N1 root lo (a - lo)); try done; try lia.
    + intros x Hx v Hv. destruct (G4 x) as (w' & Hw' & Hf & _); [lia|].
      rewrite Hw' in Hv. injection Hv as <-. by eapply pte_user_perm.
    + unfold PAGE_SIZE in *. Z.to_euclidean_division_equations; lia.
    + rewrite G5; done.
Qed.

(** A zeroed page taken from the free list belongs to nobody. *)
Lemma grown_zalloc s root lo a perm s1 p l N1 s2 :
  hart_ok (k_hart s) → pte_user perm = true → 0 ≤ lo →
  grown s root lo a perm s1 (p :: l) N1 → mm_inv s2 l N1 root → only_mm s1 s2 →
  mem_same (eq p) (k_mem s1) (k_mem s2) →
  (∀ va, pt_lookup (k_mem s2) root va = pt_lookup (k_mem s1) root va) → is_page p →
  grown s root lo a perm s2 l N1 ∧
  ∀ va v, 0 ≤ va → pt_lookup (k_mem s2) root va = Some v → pte_user v = true → PTE2PA v ≠ p.
Proof.
  intros Hh Hpu Hlo [G1 G2 G3 G4 G5 G6] I2 O2 S2 L2 Hp.
  assert (∀ va v, 0 ≤ va → pt_lookup (k_mem s1) root va = Some v → pte_user v = true →
    is_page (PTE2PA v) ∧ PTE2PA v ≠ p ∧ (PTE2PA v ∉ l) ∧ N1 !! PTE2PA v = None ∧
    ubyte (k_mem s2) root va = ubyte (k_mem s1) root va) as Hu.
  { intros va v H0 Hv Hvu. destruct (us_own _ _ _ _ G2 va v H0 Hv Hvu) as (Hpv & [Hne Hni]%not_elem_of_cons & HN).
    split_and!; try done. eapply ubyte_same; [done|by intros ? <-|apply L2|done|done|]. intros E. by apply Hne. }
  split.
  2: { intros va v H0. rewrite L2. intros Hv Hvu. by destruct (Hu va v H0 Hv Hvu) as (_ & ? & _). }
  split; try done.
  - split.
    + intros va v H0. rewrite L2. intros Hv Hvu. by destruct (Hu va v H0 Hv Hvu) as (? & _ & ? & ? & _).
    + intros va v va' v' H0 H0'. rewrite !L2. by apply (us_inj _ _ _ _ G2).
  - by eapply only_mm_trans.
  - intros va Hva. destruct (G4 va Hva) as (w & Hw & Hf & Hb). exists w. rewrite L2.
    split_and!; try done. rewrite <-Hb. apply (Hu va w); [lia|done|by eapply pte_user_perm].
  - intros va H0 Hn. rewrite L2. by apply G5.
  - intros va w H0 Hn Hw Hwu. rewrite <-(G6 va w) by done.
    apply (Hu va w); [done|by rewrite G5|done].
Qed.

(** Releasing a page that belongs to nobody. *)
Lemma grown_free s root lo hi perm s1 fl1 N1 p s2 :
  hart_ok (k_hart s) → pte_user perm = true → 0 ≤ lo →
  grown s root lo hi perm s1 fl1 N1 → mm_inv s2 (p :: fl1) N1 root → only_mm s1 s2 →
  mem_same (eq p) (k_mem s1) (k_mem s2) → is_page p →
  (∀ va, pt_lookup (k_mem s2) root va = pt_lookup (k_mem s1) root va) →
  (∀ va v, 0 ≤ va → pt_lookup (k_mem s1) root va = Some v → pte_user v = true → PTE2PA v ≠ p) →
  grown s root lo hi perm s2 (p :: fl1) N1.
Proof.
  intros Hh Hpu Hlo [G1 G2 G3 G4 G5 G6] I2 O2 S2 Hp L2 Hne.
  assert (∀ va v, 0 ≤ va → pt_lookup (k_mem s1) root va = Some v → pte_user v = true →
    ubyte (k_mem s2) root va = ubyte (k_mem s1) root va) as Hu.
  { intros va v H0 Hv Hvu. eapply ubyte_same; [done|by intros ? <-|apply L2|done| |].
    - by apply (us_own _ _ _ _ G2 va v).
    - intros E. by apply (Hne va v). }
  split; try done.
  - split.
    + intros va v H0. rewrite L2. intros Hv Hvu.
      destruct (us_own _ _ _ _ G2 va v) as (? & ? & ?); try done. split_and!; try done.
      apply not_elem_of_cons. split; [|done]. by eapply Hne.
    + intros va v va' v' H0 H0'. rewrite !L2. by apply (us_inj _ _ _ _ G2).
  - by eapply only_mm_trans.
  - intros va Hva. destruct (G4 va Hva) as (w & Hw & Hf & Hb). exists w. rewrite L2.
    split_and!; try done. rewrite <-Hb. apply (Hu va w); [lia|done|by eapply pte_user_perm].
  - intros va H0 Hn. rewrite L2. by apply G5.
  - intros va w H0 Hn Hw Hwu. rewrite <-(G6 va w) by done.
    apply (Hu va w); [done|by rewrite G5|done].
Qed.

(** One round of the loop of [uvm_alloc]. *)
Lemma uvm_alloc_round s fl N root sz a perm s1 fl1 N1 :
  let lo := PAGE_ROUND_UP sz in
  uvm_ok s fl N root sz → grown s root lo a perm s1 fl1 N1 → accounts s fl N [] root lo a s1 fl1 N1 →
  0 ≤ perm < 2 ^ 10 → pte_user perm = true → pte_leaf perm = true →
  lo ≤ a → a + PAGE_SIZE ≤ USER_STACK_BASE → a mod PAGE_SIZE = 0 →
  runs (mem ← pm_zalloc;
        if mem =? 0 then uvm_dealloc root a lo;; mret (inr 0) else
        r ← map_pages root a mem PAGE_SIZE perm;
        if negb (r =? 0) then
          pm_free mem;; uvm_dealloc root a lo;; mret (inr 0)
        else mret (inl (u64 (a + PAGE_SIZE)))) s1
    (λ (x : Z + Z) s', ∃ fl' N',
       match x with
       | inl a' => a' = a + PAGE_SIZE ∧ grown s root lo (a + PAGE_SIZE) perm s' fl' N' ∧
           accounts s fl N [] root lo (a + PAGE_SIZE) s' fl' N'
       | inr r => r = 0 ∧ grown s root lo lo perm s' fl' N' ∧ accounts s fl N [] root lo lo s' fl' N' ∧
           Z.of_nat (length fl') * PAGE_SIZE ≤ a + PAGE_SIZE - lo
       end).
Proof.
  intros lo Hok Hg Hac Hperm Hpu Hlf Hlo Hhi Hm. pose proof (uv_size _ _ _ _ _ Hok) as Hs.
  pose proof (mi_hart _ _ _ _ (uv_inv _ _ _ _ _ Hok)) as Hh.
  destruct (round_up_bounds sz Hs) as (Hb & Hb' & _). fold lo in Hb, Hb'.
  assert (a + PAGE_SIZE ≤ MAX_VADDR) as Hmax by (rewrite USER_STACK_BASE_eq in *; addr_lia).
  kstep. kcall (pm_zalloc_spec s1 fl1 N1 root (gw_inv _ _ _ _ _ _ _ _ Hg)).
  intros mem s2 (fl2 & I2 & O2 & L2 & Hr). destruct fl1 as [|p l].
  - destruct Hr as (-> & -> & Em). cbn [Z.eqb]. kstep.
    assert (evolves root s1 [] N1 s2 [] N1) as Hev.
    { split; try done; [exists []; split; [done|]; intros q; rewrite elem_of_nil; tauto|]. rewrite Em. apply mem_same_refl. }
    kcall (uvm_alloc_undo s fl N root sz a perm s2 [] N1 Hok); [|done|unfold PAGE_SIZE in *; lia|done| |].
    + eapply (grown_trans s root lo a a); [done|lia..|done|done|].
      apply (evolves_grown s1 [] N1); [by eapply gw_inv|by eapply gw_us|done|done].
    + eapply accounts_evolves; [exact Hac|exact Hev|]. intros q. by rewrite (range_page_ext (k_mem s1) (k_mem s2)).
    + intros _ s3 (fl3 & N3 & Hg3 & Ha3 & Hlen). kstep. exists fl3, N3. split_and!; [done|done|done|]. fold lo in Hlen. cbn in Hlen. addr_lia.
  - destruct Hr as (-> & -> & Hp & HN & Hni & S2 & Hz).
    rewrite (proj2 (Z.eqb_neq p 0)) by (destruct Hp; lia).
    destruct (grown_zalloc s root lo a perm s1 p l N1 s2) as [Hg2 Hne]; try done; [lia|].
    pose proof (accounts_take _ _ _ _ _ _ _ _ _ _ _ Hac S2 L2) as Hac2.
    kstep. kcall (map_fresh_spec s2 l N1 root a p perm I2 (gw_us _ _ _ _ _ _ _ _ Hg2)); try done; [lia| |].
    { intros va Hva. rewrite (gw_old _ _ _ _ _ _ _ _ Hg2) by lia. apply (uv_gap _ _ _ _ _ Hok). fold lo. lia. }
    intros r s3 (fl3 & N3 & Hpf & HpN & Hev & Hc). pose proof (ev_inv _ _ _ _ _ _ _ Hev) as I3.
    assert (∀ b, grown s2 root a b perm s3 fl3 N3 → ∀ q, range_page (k_mem s3) root lo (a - lo) q ↔ range_page (k_mem s2) root lo (a - lo) q) as Hrg.
    { intros b Hgb q. apply range_page_ext. intros va Hva. apply (gw_old _ _ _ _ _ _ _ _ Hgb); lia. }
    destruct Hc as [(-> & Hg3 & Hla)|(-> & -> & Hg3 & Hne3)]; cbn [Z.eqb negb]; kstep.
    + exists fl3, N3. rewrite wrap_small by addr_lia. split; [done|]. split.
      * eapply (grown_trans s root lo a); try done; unfold PAGE_SIZE; lia.
      * eapply accounts_evolves; [exact Hac2|exact Hev|]. intros q. replace (a + PAGE_SIZE - lo) with (a - lo + PAGE_SIZE) by lia.
        assert (0 ≤ lo ∧ 0 ≤ a - lo ∧ (a - lo) mod PAGE_SIZE = 0) as (E1 & E2 & E3) by (split_and!; [lia|lia|by apply aligned_sub]).
        assert (pt_lookup (k_mem s3) root (lo + (a - lo)) = Some (mk_pte p perm)) as E4 by by replace (lo + (a - lo)) with a by lia.
        rewrite (range_page_next _ _ _ _ _ q E1 E2 Hb' E3 E4), (Hrg _ Hg3), PTE2PA_mk_pte by done. rewrite elem_of_cons, elem_of_nil. tauto.
    + assert (grown s root lo a perm s3 [] N3) as Hga.
      { eapply (grown_trans s root lo a a); try done; lia. }
      assert (accounts s fl N [p] root lo a s3 [] N3) as Hac3.
      { eapply accounts_evolves; [exact Hac2|exact Hev|]. intros q. by rewrite (Hrg _ Hg3). }
      kcall (pm_free_spec s3 [] N3 root p I3 Hp HpN Hpf).
      intros _ s4 (I4 & O4 & S4 & L4 & _). kstep.
      kcall (uvm_alloc_undo s fl N root sz a perm s4 [p] N3 Hok); [|done|unfold PAGE_SIZE in *; lia|done| |].
      * eapply grown_free; try done. lia.
      * by eapply accounts_put.
      * intros _ s5 (fl5 & N5 & Hg5 & Ha5 & Hlen). kstep. exists fl5, N5. split_and!; [done|done|done|]. fold lo in Hlen. cbn in Hlen. addr_lia.
Qed.

(** [uvm_alloc] maps fresh zeroed pages up to [new_sz], or, when memory runs
    out, gives back what it took and leaves the address space as it was. *)
Lemma uvm_alloc_spec s fl N root old_sz new_sz xperm :
  uvm_ok s fl N root old_sz → old_sz < new_sz ≤ USER_STACK_BASE → 0 ≤ xperm < 2 ^ 10 →
  let perm := Z.lor (Z.lor PTE_R PTE_U) xperm in
  let lo := PAGE_ROUND_UP old_sz in
  runs (uvm_alloc root old_sz new_sz xperm) s (λ r s', ∃ fl' N',
    (r = new_sz ∧ uvm_ok s' fl' N' root new_sz ∧ grown s root lo (PAGE_ROUND_UP new_sz) perm s' fl' N' ∧
       accounts s fl N [] root lo (PAGE_ROUND_UP new_sz) s' fl' N') ∨
    (r = 0 ∧ uvm_ok s' fl' N' root old_sz ∧ grown s root lo lo perm s' fl' N' ∧ accounts s fl N [] root lo lo s' fl' N' ∧
       Z.of_nat (length fl') * PAGE_SIZE ≤ PAGE_ROUND_UP new_sz - lo)).
Proof.
  intros Hok Hsz Hx perm lo. pose proof Hok as [Hinv Hus Hs Hlow Hgap].
  assert (0 ≤ perm < 2 ^ 10) as Hperm by (apply lor_bounds; [lia|by vm_compute|done]).
  assert (pte_user perm = true) as Hpu.
  { apply (land_bit _ _ 4); [|done]. unfold perm. by rewrite !Z.lor_spec. }
  assert (pte_leaf perm = true) as Hlf.
  { apply (land_bit _ _ 1); [|done]. unfold perm. by rewrite !Z.lor_spec. }
  destruct (round_up_bounds old_sz Hs) as (Ho1 & Ho2 & Ho3).
  destruct (round_up_bounds new_sz ltac:(lia)) as (Hn1 & Hn2 & Hn3).
  pose proof (round_up_mono old_sz new_sz ltac:(lia) ltac:(lia)) as Hmono.
  unfold uvm_alloc. rewrite (proj2 (Z.leb_gt new_sz old_sz)) by lia.
  change (Z.lor (Z.lor PTE_R PTE_U) xperm) with perm. change (PAGE_ROUND_UP old_sz) with lo.
  fold lo in Hlow, Hgap, Ho1, Ho2, Ho3, Hmono.
  set (hi := PAGE_ROUND_UP new_sz) in *.
  apply (runs_loop (λ a s', (lo ≤ a ≤ hi ∧ a mod PAGE_SIZE = 0) ∧ ∃ fl' N',
    grown s root lo a perm s' fl' N' ∧ accounts s fl N [] root lo a s' fl' N') (pages_left hi)).
  2: { split; [split; [lia|done]|]. exists fl, N. split; [by apply grown_refl|apply accounts_refl]. }
  2: { unfold pages_left, pages_fuel, PAGE_SIZE in *. clearbody lo hi.
       Z.to_euclidean_division_equations; lia. }
  intros a s1 ([Ha Hm] & fl1 & N1 & Hg & Hac).
  destruct (Z.ltb_spec a new_sz) as [Hlt|Hge].
  - assert (a + PAGE_SIZE ≤ hi) by (apply aligned_lt; lia || done).
    kcall (uvm_alloc_round s fl N root old_sz a perm s1 fl1 N1 Hok Hg Hac); try done; [lia..|].
    intros [a'|r] s' (fl' & N' & -> & Hg' & Hac').
    + split; [|by apply pages_left_next]. split; [split; [unfold PAGE_SIZE in *; lia|by apply aligned_next]|].
      by exists fl', N'.
    + destruct Hac' as [Hac' Hlen]. fold lo in Hlen. exists fl', N'. right. split_and!; [done| |done|done|lia].
      eapply grown_uvm_ok; try done; lia.
  - kstep. assert (a = hi) as ->.
    { clearbody lo hi. unfold PAGE_SIZE in *. Z.to_euclidean_division_equations; lia. }
    exists fl1, N1. left. split_and!; [done| |done|done]. eapply grown_uvm_ok; try done; lia.
Qed.
