(* ===== verification/MmInit.v ===== *)
(** Start-up of the memory manager: [pm_init] puts every page above the kernel
    image on the free list, and a page from the list is an empty page table. *)

From S2P Require Import Prelude Mem State Machine Mm PageTable MmAlloc MmMap MmUser MmUvm.

(** The allocator's part of [mm_inv]. *)
Record alloc_inv (s : kstate) (fl : list Z) : Prop := {
  ai_hart : hart_ok (k_hart s);
  ai_noff : noff (k_hart s) + 1 < 2 ^ 30;
  ai_lock : lock_free LFreeList s;
  ai_bytes : bytes_ok (k_mem s);
  ai_fl : fl_rep (k_mem s) (k_free s) fl;
  ai_nodup : NoDup fl;
}.

(** The pages of a page table with only its root. *)
Definition root_only (p : Z) : gmap Z nat := {[p := 2%nat]}.

(** A machine that has executed [pm_init] with eight pages of memory. *)
Definition small_end : Z := MAX_PADDR - 8 * PAGE_SIZE.
Definition small_machine : kstate :=
  final (pm_init small_end bss) bss.

Lemma pm_init_spec s KERNEL_END :
  hart_ok (k_hart s) → noff (k_hart s) + 1 < 2 ^ 30 → bytes_ok (k_mem s) →
  0 < KERNEL_END ≤ MAX_PADDR → KERNEL_END mod PAGE_SIZE = 0 →
  runs (pm_init KERNEL_END) s (λ _ s', ∃ fl,
    alloc_inv s' fl ∧ (∀ p, p ∈ fl ↔ KERNEL_END ≤ p < MAX_PADDR ∧ p mod PAGE_SIZE = 0) ∧
    k_hart s' = k_hart s).
Proof.
  intros Hh Hn Hb He Ha. unfold pm_init. kstep. kstep. kstep. unfold spin_lock_init. kstep.
  set (s1 := set_k_locks _ _). assert (MAX_PADDR = 2281701376) as EM by done.
  apply (runs_loop (λ ptr s', (KERNEL_END ≤ ptr ≤ MAX_PADDR ∧ ptr mod PAGE_SIZE = 0) ∧
    k_hart s' = k_hart s ∧ ∃ fl, alloc_inv s' fl ∧
    (∀ p, p ∈ fl ↔ KERNEL_END ≤ p < ptr ∧ p mod PAGE_SIZE = 0)) (pages_left MAX_PADDR)).
  2: { split; [split; [lia|done]|]. split; [done|]. exists []. split.
       - split; try done; [|by apply NoDup_nil]. exists "free_list". subst s1. simpl. by rewrite lookup_insert_eq.
       - intros p. split; [by intros ?%elem_of_nil|lia]. }
  2: { unfold pages_left. lia. }
  intros ptr s2 ([Hp Hm] & Eh & fl & [A1 A2 A3 A4 A5 A6] & Hfl).
  destruct (Z.ltb_spec ptr MAX_PADDR) as [Hlt|Hge].
  - assert (ptr + PAGE_SIZE ≤ MAX_PADDR) by by apply aligned_lt.
    assert (is_page ptr) as Hpp by (split; [addr_lia|done]).
    kstep. unfold pm_init_page. kstep. kstep. kstep. unfold store64, upd_mem. kstep. kstep. kstep.
    rewrite wrap_small by addr_lia. split; [|by apply pages_left_next].
    split; [split; [addr_lia|by apply aligned_next]|]. split; [done|].
    assert (∀ p, p ∈ fl → p + PAGE_SIZE ≤ ptr) as Hlow.
    { intros p [Hp' Hm']%Hfl. apply aligned_lt; [done..|lia]. }
    exists (ptr :: fl). split.
    + split; try done; simpl.
      * by apply stn_bytes_ok.
      * split_and!; [done..|]. rewrite ldn_stn.
        2: { destruct fl as [|q l]; simpl in A5; [lia|]. destruct A5 as (-> & [? _] & _). lia. }
        eapply fl_rep_ext; [|done]. intros q Hq. apply (ent_same (eq ptr)).
        -- rewrite <-(pte_at_0 ptr) at 2. apply mem_same_stn. lia.
        -- by intros ? <-.
        -- by eapply fl_rep_page.
        -- intros <-. apply Hlow in Hq. addr_lia.
        -- lia.
      * apply NoDup_cons. split; [|done]. intros Hin%Hlow. addr_lia.
    + intros p. rewrite elem_of_cons, Hfl. split.
      * intros [->|[Hp' Hm']]; split; done || addr_lia.
      * intros [Hp' Hm']. destruct (decide (p < ptr)); [right; split; [lia|done]|left].
        unfold PAGE_SIZE in *. Z.to_euclidean_division_equations; lia.
  - kstep. exists fl. replace ptr with MAX_PADDR in Hfl by lia. split_and!; try done.
Qed.

Lemma root_only_Some p q l : root_only p !! q = Some l ↔ p = q ∧ 2%nat = l.
Proof. apply lookup_singleton_Some. Qed.

(** A zeroed page is the root of a page table that maps nothing. *)
Lemma zeroed_root m p : is_page p → zeroed m p → pt_wf m (root_only p) p ∧ ∀ va, pt_lookup m p va = None.
Proof.
  intros Hp Hz. pose proof (λ j Hj, zeroed_ent m p j Hz Hj) as He.
  assert (∀ q l i, (root_only p) !! q = Some l → 0 ≤ i < 512 → pte_valid (ent m q i) = false) as Hinv.
  { intros q l i [<- _]%root_only_Some Hi. by rewrite He. }
  split.
  - split.
    + by apply root_only_Some.
    + intros q l [<- <-]%root_only_Some. split; [done|lia].
    + intros q l i Hq Hi Hv. by rewrite (Hinv q (S l) i) in Hv.
    + intros q l i q' l' i' Hq Hi Hv. by rewrite (Hinv q (S l) i) in Hv.
    + intros q i Hq Hi Hv. by rewrite (Hinv q O i) in Hv.
    + intros q l [<- _]%root_only_Some. by left.
    + intros i Hi. rewrite (Hinv p 2%nat); [done|by apply root_only_Some|lia].
  - intros va. apply pt_lookup_None, pt_leaf_None. cbn [pt_descend].
    rewrite He by (apply PX_bounds; lia). done.
Qed.

Lemma root_alloc_spec s p l :
  alloc_inv s (p :: l) →
  runs pm_zalloc s (λ r s', r = p ∧ mm_inv s' l (root_only p) p ∧ only_mm s s' ∧
    (∀ va, pt_lookup (k_mem s') p va = None) ∧ user_space (k_mem s') l (root_only p) p ∧
    mem_same (eq p) (k_mem s) (k_mem s')).
Proof.
  intros [A1 A2 A3 A4 A5 A6]. unfold pm_zalloc. kstep. eapply runs_ok; [by apply pm_alloc_eq|].
  simpl in A5. destruct A5 as (-> & Hp & Hl). apply NoDup_cons in A6 as [Hni Hnd].
  rewrite (proj2 (Z.eqb_neq p 0)) by (destruct Hp; lia). kstep. cbn [negb]. unfold when, upd_mem.
  kstep. kstep. set (s1 := set_k_hart _ _).
  pose proof (mem_same_memset (k_mem s1) p 0) as Hs.
  pose proof (zeroed_memset (k_mem s1) p) as Hz.
  pose proof (memset_bytes_ok (k_mem s1) p 0 (Z.to_nat PAGE_SIZE) A4) as Hb.
  revert Hs Hz Hb. generalize (memset (k_mem s1) p 0 (Z.to_nat PAGE_SIZE)). intros m2 Hs Hz Hb.
  destruct (zeroed_root m2 p Hp Hz) as [Hwf Hlk].
  assert (only_mm s (set_k_mem m2 s1)) as Ho by (exists (hart_settle (k_hart s)); split; [by right|done]).
  destruct (only_mm_hart _ _ A1 Ho) as (Hh & Hn & _).
  split; [done|]. split; [|split_and!; [done|done| |done]].
  - split; try done.
    + by rewrite Hn.
    + eapply fl_rep_ext; [|done]. intros q Hq.
      apply (ent_same (eq p)); [done|by intros ? <-|by eapply fl_rep_page|by intros <-|lia].
    + intros q Hq. unfold root_only. rewrite lookup_singleton_ne; [done|]. by intros <-.
  - split; intros *; simpl; rewrite Hlk; done.
Qed.

Lemma fl_rep_inj m hd l l' : fl_rep m hd l → fl_rep m hd l' → l = l'.
Proof.
  revert hd l'. induction l as [|p l IH]; intros hd [|p' l']; simpl; try done.
  - intros -> (<- & [? _] & _). lia.
  - intros (-> & [? _] & _) ?. lia.
  - intros (-> & _ & Hl) (<- & _ & Hl'). f_equal. by eapply IH.
Qed.

(** The machine with eight pages meets the invariant. *)
Definition small_fl : list Z :=
  (λ i, MAX_PADDR - i * PAGE_SIZE) <$> [1; 2; 3; 4; 5; 6; 7; 8].

Lemma bss_hart : hart_ok (k_hart bss).
Proof. split; by vm_compute. Qed.

Lemma small_machine_inv : alloc_inv small_machine small_fl.
Proof.
  assert (runs (pm_init small_end) bss (λ _ s', ∃ fl, alloc_inv s' fl)) as (? & s' & Hr & fl & Hi).
  { kcall (pm_init_spec bss small_end bss_hart).
    - by vm_compute.
    - intros a. unfold mget. simpl. by rewrite lookup_empty.
    - by vm_compute.
    - by vm_compute.
    - intros _ s' (fl & Hi & _). by exists fl. }
  assert (s' = small_machine) as -> by (unfold small_machine; by rewrite Hr).
  replace small_fl with fl; [done|]. eapply fl_rep_inj; [apply (ai_fl _ _ Hi)|].
  vm_compute. repeat split.
Qed.
