(* ===== verification/MmTheorems.v ===== *)
(** The theorems on the memory manager (kernel/mm/mm.c), stated against the
    hardware's view of the page table, each with a concrete instance. *)

From S2P Require Import Prelude Mem State Machine Mm PageTable MmAlloc MmMap MmUser MmUvm MmInit.

(** ** Concrete machines *)

(** A machine with a page table that maps nothing. *)
Definition small_root : Z := MAX_PADDR - PAGE_SIZE.
Definition small_user : kstate :=
  final (pm_zalloc small_machine) bss.

Lemma small_user_inv :
  mm_inv small_user (tail small_fl) (root_only small_root) small_root ∧
  (∀ va, pt_lookup (k_mem small_user) small_root va = None) ∧
  user_space (k_mem small_user) (tail small_fl) (root_only small_root) small_root.
Proof.
  destruct (root_alloc_spec small_machine small_root (tail small_fl) small_machine_inv)
    as (r & s' & Hr & -> & Hi & _ & Hl & Hu & _).
  unfold small_user. rewrite Hr. split_and!; [exact Hi|exact Hl|exact Hu].
Qed.

Lemma small_user_uvm : uvm_ok small_user (tail small_fl) (root_only small_root) small_root 0.
Proof.
  destruct small_user_inv as (Hi & Hl & Hu). split; [done|done|by vm_compute|..].
  - intros va Hva. change (PAGE_ROUND_UP 0) with 0 in Hva. lia.
  - intros va _. apply Hl.
Qed.

(** A process of two pages of writable memory. *)
Definition small_proc : kstate := final (uvm_alloc small_root 0 8192 PTE_W small_user) bss.

Lemma small_proc_answer : answer (uvm_alloc small_root 0 8192 PTE_W small_user) = Some 8192.
Proof. vm_compute. reflexivity. Qed.

Lemma small_proc_sizes : 0 < 8192 ≤ USER_STACK_BASE ∧ 0 ≤ PTE_W < 2 ^ 10.
Proof. by vm_compute. Qed.

Lemma small_proc_inv : ∃ fl N,
  uvm_ok small_proc fl N small_root 8192 ∧
  ∀ va, 0 ≤ va < 8192 → ∃ w, pt_lookup (k_mem small_proc) small_root va = Some w ∧
    PTE_FLAGS w = 23 ∧ ubyte (k_mem small_proc) small_root va = 0.
Proof.
  destruct small_proc_sizes as [Z1 Z2]. pose proof small_proc_answer as E.
  destruct (uvm_alloc_spec small_user (tail small_fl) (root_only small_root) small_root 0 8192 PTE_W small_user_uvm Z1 Z2)
    as (r & s' & Hr & fl & N & Hok).
  assert (s' = small_proc) as -> by (unfold small_proc; by rewrite Hr).
  rewrite Hr in E. injection E as ->. destruct Hok as [(_ & Hok & Hg & _)|(Hz & _)]; [|discriminate Hz]. exists fl, N. split; [done|].
  intros va Hva. destruct (gw_new _ _ _ _ _ _ _ _ Hg va) as (w & Hw & Hf & Hb); [done|].
  exists w. split_and!; done.
Qed.

Lemma small_proc_writable va :
  0 ≤ va < 8192 →
  is_Some (uaddr uwritable (k_mem small_proc) small_root va) ∧
  ∃ v, pt_lookup (k_mem small_proc) small_root va = Some v ∧ ureadable v = true.
Proof.
  intros Hva. destruct small_proc_inv as (fl & N & Hok & Hw).
  destruct (Hw va Hva) as (w & Hl & Hf & _).
  assert (pte_user w = true) as Hu by by rewrite pte_user_flags, Hf.
  assert (pte_write w = true) as Hwr.
  { unfold pte_write. replace (Z.land w PTE_W) with (Z.land (PTE_FLAGS w) PTE_W); [by rewrite Hf|].
    unfold PTE_FLAGS. by rewrite <-Z.land_assoc. }
  split.
  - unfold uaddr. rewrite Hl. simpl. unfold uwritable. rewrite Hu, Hwr. by eexists.
  - exists w. split; [done|]. unfold ureadable. rewrite Hu. simpl.
    destruct (us_own _ _ _ _ (uv_us _ _ _ _ _ Hok) va w) as ([? _] & _); [lia|done|done|].
    apply negb_true_iff, Z.eqb_neq. lia.
Qed.

(** ** Page tables *)

(** C18: [map_pages] on an unmapped range of whole pages either returns 0 and
    maps exactly that range, page by page, to the physical range with the
    permissions given, or finds no memory for an intermediate table, returns
    -1 and leaves every translation as it was.  The page table stays
    well-formed, it grows by pages of the free list only, and no byte outside
    of the table changes. *)
Theorem map_pages_exact s fl N root va pa size perm :
  mm_inv s fl N root → va mod PAGE_SIZE = 0 → size mod PAGE_SIZE = 0 →
  0 ≤ va → 0 < size → va + size ≤ MAX_VADDR → 0 ≤ pa → pa + size ≤ 2 ^ 56 →
  0 ≤ perm < 2 ^ 10 → pte_leaf perm = true →
  (∀ va', va ≤ va' < va + size → pt_lookup (k_mem s) root va' = None) →
  ∃ r s' fl' N', map_pages root va pa size perm s = Ok r s' ∧
    evolves root s fl N s' fl' N' ∧
    (r = 0 ∧ (∀ va', 0 ≤ va' → pt_lookup (k_mem s') root va' =
                mapped_range va pa size perm (pt_lookup (k_mem s) root) va') ∨
     r = -1 ∧ fl' = [] ∧
       ∀ va', 0 ≤ va' → pt_lookup (k_mem s') root va' = pt_lookup (k_mem s) root va').
Proof.
  intros H1 H2 H3 H4 H5 H6 H7 H8 H9 H10 H11.
  destruct (map_pages_spec s fl N root va pa size perm) as (r & s' & Hr & fl' & N' & Hev & Hc); try done.
  by exists r, s', fl', N'.
Qed.

Lemma map_pages_exact_witness : ∃ r s' fl' N',
  map_pages small_root 0x4000 0x80000000 0x2000 18 small_user = Ok r s' ∧
  evolves small_root small_user (tail small_fl) (root_only small_root) s' fl' N' ∧
  (r = 0 ∧ (∀ va', 0 ≤ va' → pt_lookup (k_mem s') small_root va' =
      mapped_range 0x4000 0x80000000 0x2000 18 (pt_lookup (k_mem small_user) small_root) va') ∨
   r = -1 ∧ fl' = [] ∧ ∀ va', 0 ≤ va' →
      pt_lookup (k_mem s') small_root va' = pt_lookup (k_mem small_user) small_root va').
Proof.
  destruct small_user_inv as (Hi & Hl & _).
  apply map_pages_exact; [exact Hi|done|done|lia|lia|by vm_compute|lia|lia|lia|done|].
  intros va' _. apply Hl.
Defined.

(** Mapping a range and unmapping it again restores the translation of
    every address. *)
Theorem map_unmap_roundtrip s fl N root va pa size perm s1 :
  mm_inv s fl N root → va mod PAGE_SIZE = 0 → size mod PAGE_SIZE = 0 →
  0 ≤ va → 0 < size → va + size ≤ MAX_VADDR → 0 ≤ pa → pa + size ≤ 2 ^ 56 →
  0 ≤ perm < 2 ^ 10 → pte_leaf perm = true →
  (∀ va', va ≤ va' < va + size → pt_lookup (k_mem s) root va' = None) →
  map_pages root va pa size perm s = Ok 0 s1 →
  ∃ s2, unmap_pages root va size false s1 = Ok tt s2 ∧
    ∀ va', 0 ≤ va' → pt_lookup (k_mem s2) root va' = pt_lookup (k_mem s) root va'.
Proof.
  intros Hinv Hva Hsz H0 H0' Hmax Hpa Hpm Hperm Hlf Hnone Hr.
  destruct (runs_det _ _ _ _ _ (map_pages_spec s fl N root va pa size perm Hinv Hva Hsz H0 H0'
    Hmax Hpa Hpm Hperm Hlf Hnone) Hr) as (fl' & N' & Hev & [[_ Hl]|(? & _)]); [|done].
  destruct (unmap_pages_keep s1 fl' N' root va size) as ([] & s2 & Hr2 & _ & Hl2); try done;
    [by eapply ev_inv|lia| |].
  - intros va' Hva'. rewrite Hl by lia. unfold mapped_range. rewrite decide_True by done. eauto.
  - exists s2. split; [done|]. intros va' Hva'. rewrite Hl2 by done. unfold unmapped_range.
    case_decide; [symmetry; by apply Hnone|]. rewrite Hl by done. unfold mapped_range.
    by rewrite decide_False.
Qed.

Lemma map_unmap_roundtrip_witness :
  let s1 := final (map_pages small_root 0x4000 0x80000000 0x2000 18 small_user) bss in
  ∃ s2, unmap_pages small_root 0x4000 0x2000 false s1 = Ok tt s2 ∧
    ∀ va', 0 ≤ va' → pt_lookup (k_mem s2) small_root va' = pt_lookup (k_mem small_user) small_root va'.
Proof.
  destruct small_user_inv as (Hi & Hl & _). intros s1.
  apply (map_unmap_roundtrip small_user (tail small_fl) (root_only small_root) small_root
    0x4000 0x80000000 0x2000 18); [exact Hi|done|done|lia|lia|by vm_compute|lia|lia|lia|done| |].
  - intros va' _. apply Hl.
  - apply answer_final. by vm_compute.
Defined.

(** ** The allocator *)

(** the free list is a stack.  A page given back is the next page
    handed out, the rest of the list is unchanged, and the only memory written
    is in that page. *)
Theorem pm_free_alloc s fl N root p :
  mm_inv s fl N root → is_page p → N !! p = None → p ∉ fl →
  ∃ s1 s2, pm_free p s = Ok tt s1 ∧ pm_alloc s1 = Ok p s2 ∧
    mm_inv s1 (p :: fl) N root ∧ mm_inv s2 fl N root ∧ k_free s2 = k_free s ∧
    mem_same (eq p) (k_mem s) (k_mem s2).
Proof.
  intros Hinv Hp HN Hni.
  destruct (pm_free_spec s fl N root p Hinv Hp HN Hni) as ([] & s1 & Hr1 & I1 & O1 & S1 & _).
  destruct (pm_alloc_spec s1 (p :: fl) N root I1) as (r & s2 & Hr2 & fl' & I2 & O2 & Em & -> & -> & _).
  exists s1, s2. split_and!; try done; [|by rewrite Em].
  pose proof Hinv as [H1 H2 H3 H4 H5 _ _ _]. rewrite pm_free_eq in Hr1 by done.
  pose proof I1 as [J1 J2 J3 _ _ _ _ _]. rewrite pm_alloc_eq in Hr2 by done.
  injection Hr2 as _ <-. injection Hr1 as <-. simpl.
  rewrite (proj2 (Z.eqb_neq p 0)) by (destruct Hp; lia). apply ldn_stn.
  destruct fl as [|q l]; simpl in H5; [lia|]. destruct H5 as (-> & [? _] & _). lia.
Qed.

Lemma pm_free_alloc_witness : ∃ s1 s2,
  pm_free 0x10000 small_user = Ok tt s1 ∧ pm_alloc s1 = Ok 0x10000 s2 ∧
  mm_inv s1 (0x10000 :: tail small_fl) (root_only small_root) small_root ∧
  mm_inv s2 (tail small_fl) (root_only small_root) small_root ∧
  k_free s2 = k_free small_user ∧ mem_same (eq 0x10000) (k_mem small_user) (k_mem s2).
Proof.
  apply pm_free_alloc; [apply small_user_inv|by vm_compute|by vm_compute|].
  intros H. repeat (apply elem_of_cons in H as [H|H]; [done|]). by apply elem_of_nil in H.
Defined.

(** [pm_init] builds a well-formed free list of exactly the whole pages
    between the end of the kernel and the end of memory. *)
Theorem pm_init_all_pages s KERNEL_END :
  hart_ok (k_hart s) → noff (k_hart s) + 1 < 2 ^ 30 → bytes_ok (k_mem s) →
  0 < KERNEL_END ≤ MAX_PADDR → KERNEL_END mod PAGE_SIZE = 0 →
  ∃ s' fl, pm_init KERNEL_END s = Ok tt s' ∧ alloc_inv s' fl ∧
    ∀ p, p ∈ fl ↔ KERNEL_END ≤ p < MAX_PADDR ∧ p mod PAGE_SIZE = 0.
Proof.
  intros H1 H2 H3 H4 H5.
  destruct (pm_init_spec s KERNEL_END) as ([] & s' & Hr & fl & Hi & Hfl & _); try done.
  by exists s', fl.
Qed.

Lemma pm_init_all_pages_witness : ∃ s' fl, pm_init small_end bss = Ok tt s' ∧ alloc_inv s' fl ∧
  ∀ p, p ∈ fl ↔ small_end ≤ p < MAX_PADDR ∧ p mod PAGE_SIZE = 0.
Proof.
  apply pm_init_all_pages; [apply bss_hart|by vm_compute| |by vm_compute|done].
  intros a. unfold mget. simpl. by rewrite lookup_empty.
Defined.

(** ** Address spaces *)

(** C19: [uvm_alloc] grows a process.  If it returns [new_sz], the addresses from
    the old size on are mapped to zeroed pages with the permissions asked for,
    which were free; the old pages and their contents are kept.  It returns 0 only
    when memory runs out: then at most as many pages are free as were asked for,
    and the address space and its contents are as before.  In both cases no page
    is lost (the pages that were free or in the table are free, in the table or
    mapped to the new addresses) and no other page of the memory is written. *)
Theorem uvm_alloc_grows s fl N root old_sz new_sz xperm :
  uvm_ok s fl N root old_sz → old_sz < new_sz ≤ USER_STACK_BASE → 0 ≤ xperm < 2 ^ 10 →
  let perm := Z.lor (Z.lor PTE_R PTE_U) xperm in
  let lo := PAGE_ROUND_UP old_sz in
  let hi := PAGE_ROUND_UP new_sz in
  ∃ r s' fl' N', uvm_alloc root old_sz new_sz xperm s = Ok r s' ∧
    (r = new_sz ∧ uvm_ok s' fl' N' root new_sz ∧ grown s root lo hi perm s' fl' N' ∧ accounts s fl N [] root lo hi s' fl' N' ∧
       (∀ va v, lo ≤ va < hi → pt_lookup (k_mem s') root va = Some v → PTE2PA v ∈ fl) ∨
     r = 0 ∧ uvm_ok s' fl' N' root old_sz ∧ grown s root lo lo perm s' fl' N' ∧ accounts s fl N [] root lo lo s' fl' N' ∧
       Z.of_nat (length fl') * PAGE_SIZE ≤ hi - lo).
Proof.
  intros H1 H2 H3 perm lo hi. destruct (uvm_alloc_spec s fl N root old_sz new_sz xperm)
    as (r & s' & Hr & fl' & N' & Hc); try done.
  exists r, s', fl', N'. split; [done|]. destruct Hc as [(-> & C1 & C2 & C3)|C]; [left|right; exact C].
  split_and!; [done|done|done|done|]. pose proof (uv_size _ _ _ _ _ H1) as B0. destruct (round_up_bounds old_sz B0) as (B & _).
  intros va v Hva Hv. destruct (uv_low _ _ _ _ _ C1 va) as (w & Hw & Hu); [fold hi; fold lo in B; lia|]. rewrite Hv in Hw. injection Hw as <-.
  eapply accounts_new; [exact C3|apply C1|fold lo in B; lia|done|done|done].
Qed.

Lemma uvm_alloc_grows_witness : ∃ s' fl' N',
  uvm_alloc small_root 0 8192 PTE_W small_user = Ok 8192 s' ∧ uvm_ok s' fl' N' small_root 8192 ∧
  grown small_user small_root (PAGE_ROUND_UP 0) (PAGE_ROUND_UP 8192) (Z.lor (Z.lor PTE_R PTE_U) PTE_W) s' fl' N' ∧
  ∀ va v, 0 ≤ va < 8192 → pt_lookup (k_mem s') small_root va = Some v → PTE2PA v ∈ tail small_fl.
Proof.
  destruct small_proc_sizes as [Z1 Z2]. pose proof small_proc_answer as E.
  destruct (uvm_alloc_grows small_user (tail small_fl) (root_only small_root) small_root 0 8192 PTE_W small_user_uvm Z1 Z2)
    as (r & s' & fl' & N' & Hr & Hc).
  rewrite Hr in E. injection E as ->. destruct Hc as [(_ & C1 & C2 & _ & C4)|(Hz & _)]; [|discriminate Hz].
  exists s', fl', N'. split_and!; [exact Hr|exact C1|exact C2|exact C4].
Defined.

(** [uvm_dealloc] shrinks a process: exactly the pages above the new size
    are unmapped and every one of them goes back to the free list; the pages
    below keep their contents. *)
Theorem uvm_dealloc_shrinks s fl N root old_sz new_sz :
  uvm_ok s fl N root old_sz → 0 ≤ new_sz < old_sz →
  let lo := PAGE_ROUND_UP new_sz in
  let hi := PAGE_ROUND_UP old_sz in
  ∃ s' freed, uvm_dealloc root old_sz new_sz s = Ok lo s' ∧
    uvm_ok s' (freed ++ fl) N root new_sz ∧
    Z.of_nat (length freed) * PAGE_SIZE = hi - lo ∧
    ∀ va, 0 ≤ va < lo → pt_lookup (k_mem s') root va = pt_lookup (k_mem s) root va ∧
                        ubyte (k_mem s') root va = ubyte (k_mem s) root va.
Proof.
  intros Hok Hsz lo hi.
  destruct (uvm_dealloc_spec s fl N root old_sz new_sz Hok Hsz)
    as (r & s' & Hr & -> & fl' & Hok' & Hrl & Hb).
  destruct (rl_fl _ _ _ _ _ _ _ _ Hrl) as (freed & -> & Hlen & _).
  exists s', freed. split_and!; try done. intros va Hva. split; [|by apply Hb].
  rewrite (rl_lookup _ _ _ _ _ _ _ _ Hrl) by lia. unfold unmapped_range.
  fold lo hi. by rewrite decide_False by lia.
Qed.

Lemma uvm_dealloc_shrinks_witness : ∃ fl N s' freed,
  uvm_dealloc small_root 8192 100 small_proc = Ok (PAGE_ROUND_UP 100) s' ∧
  uvm_ok s' (freed ++ fl) N small_root 100 ∧
  Z.of_nat (length freed) * PAGE_SIZE = PAGE_ROUND_UP 8192 - PAGE_ROUND_UP 100 ∧
  ∀ va, 0 ≤ va < PAGE_ROUND_UP 100 →
    pt_lookup (k_mem s') small_root va = pt_lookup (k_mem small_proc) small_root va ∧
    ubyte (k_mem s') small_root va = ubyte (k_mem small_proc) small_root va.
Proof.
  destruct small_proc_inv as (fl & N & Hok & _). exists fl, N.
  apply (uvm_dealloc_shrinks small_proc fl N small_root 8192 100); [exact Hok|lia].
Defined.

(** ** Copies to and from user memory *)

(** A readable, writable page is read back through [copy_in]. *)
Lemma writable_readable s fl N root va :
  user_space (k_mem s) fl N root → 0 ≤ va →
  is_Some (uaddr uwritable (k_mem s) root va) → ∃ v,
    pt_lookup (k_mem s) root va = Some v ∧ pte_user v = true ∧ ureadable v = true.
Proof.
  intros Hus H0 [a Ha]. unfold uaddr in Ha. destruct (pt_lookup (k_mem s) root va) as [v|] eqn:Hl; [|done].
  simpl in Ha. destruct (uwritable v) eqn:Hw; [|done]. apply andb_true_iff in Hw as [Hu _].
  exists v. split_and!; [done..|]. unfold ureadable. rewrite Hu. simpl.
  destruct (us_own _ _ _ _ Hus va v) as ([? _] & _); [done..|]. apply negb_true_iff, Z.eqb_neq. lia.
Qed.

(** C23: what [copy_out] stores in writable user memory, however many pages it
    spans, [copy_in] reads back, and the user sees it there. *)
Theorem copy_out_in_roundtrip s fl N root dst bs :
  mm_inv s fl N root → user_space (k_mem s) fl N root →
  Forall (λ b, 0 ≤ b < 256) bs → 0 ≤ dst → dst + Z.of_nat (length bs) ≤ MAX_VADDR →
  (∀ va, dst ≤ va < dst + Z.of_nat (length bs) → is_Some (uaddr uwritable (k_mem s) root va)) →
  ∃ s', copy_out root dst bs s = Ok 0 s' ∧
    copy_in root dst (Z.of_nat (length bs)) s' = Ok (0, bs) s' ∧
    ubytes (k_mem s') root dst (Z.of_nat (length bs)) = bs.
Proof.
  intros Hinv Hus Hbs H0 Hmax Hw.
  destruct (copy_out_spec s fl N root dst bs) as (r & s1 & Hr & k & Hk & Hcp & Hc); try done.
  destruct Hc as [[-> ->]|(-> & Hlt & Hn)].
  2: { destruct (Hw (dst + k)) as [x Hx]; [lia|]. congruence. }
  exists s1. split; [done|].
  assert (ubytes (k_mem s1) root dst (Z.of_nat (length bs)) = bs) as Hb.
  { apply list_eq. intros j. destruct (decide (j < length bs)%nat) as [Hj|Hj].
    - rewrite <-(Nat2Z.id j), lookup_ubytes by lia.
      destruct (writable_readable s fl N root (dst + Z.of_nat j)) as (v & Hv & Hvu & _);
        [done|lia|apply Hw; lia|].
      rewrite (cp_bytes _ _ _ _ _ _ _ _ Hcp _ v), decide_True by (done || lia).
      replace (Z.to_nat (dst + Z.of_nat j - dst)) with j by lia. rewrite Nat2Z.id.
      destruct (lookup_lt_is_Some_2 bs j Hj) as [x ->]. done.
    - rewrite !lookup_ge_None_2; [done|lia|rewrite length_ubytes; lia]. }
  split; [|done].
  destruct (copy_in_spec s1 N root dst (Z.of_nat (length bs))) as ([r bs'] & s2 & Hr2 & -> & Hc);
    [apply (mi_pt _ _ _ _ (cp_inv _ _ _ _ _ _ _ _ Hcp))|lia..|].
  destruct Hc as [(-> & -> & _)|(-> & va & Hva & Hn)]; [by rewrite Hr2, Hb|].
  destruct (writable_readable s fl N root va) as (v & Hv & _ & Hrd); [done|lia|by apply Hw|].
  unfold uaddr in Hn. rewrite (cp_lookup _ _ _ _ _ _ _ _ Hcp), Hv in Hn. simpl in Hn. by rewrite Hrd in Hn.
Qed.

Lemma copy_out_in_roundtrip_witness : ∃ s',
  copy_out small_root 4094 [104; 105; 33; 10] small_proc = Ok 0 s' ∧
  copy_in small_root 4094 4 s' = Ok (0, [104; 105; 33; 10]) s' ∧
  ubytes (k_mem s') small_root 4094 4 = [104; 105; 33; 10].
Proof.
  destruct small_proc_inv as (fl & N & Hok & _).
  apply (copy_out_in_roundtrip small_proc fl N small_root 4094 [104; 105; 33; 10]);
    [exact (uv_inv _ _ _ _ _ Hok)|exact (uv_us _ _ _ _ _ Hok)| |lia|by vm_compute|].
  - repeat constructor; lia.
  - intros va Hva. simpl in Hva. apply small_proc_writable. lia.
Defined.

(** C24: [copy_out] returns for every address and length.  It stores the first
    [k] bytes at the user's addresses from [dst] on: all of them, with the result
    0, when every address of the destination is writable for the user, and
    otherwise those before some address that is not, with the result -1.  No
    other byte of the physical memory changes, in particular no byte of a page that
    the user cannot write, of the page table or of the free list, and nothing else
    in the kernel's state. *)
Theorem copy_out_safe s fl N root dst bs :
  mm_inv s fl N root → user_space (k_mem s) fl N root → Forall (λ b, 0 ≤ b < 256) bs → 0 ≤ dst →
  let n := Z.of_nat (length bs) in
  let writable va := is_Some (uaddr uwritable (k_mem s) root va) in
  ∃ r s' k, copy_out root dst bs s = Ok r s' ∧
    (r = 0 ∧ k = n ∨ r = -1 ∧ 0 ≤ k < n ∧ ¬ writable (dst + k)) ∧
    (r = 0 ↔ ∀ va, dst ≤ va < dst + n → writable va) ∧
    (∀ va, dst ≤ va < dst + k → writable va ∧ ubyte (k_mem s') root va = default 0 (bs !! Z.to_nat (va - dst))) ∧
    (∀ a, (∀ va, dst ≤ va < dst + k → uaddr uwritable (k_mem s) root va ≠ Some a) → mget (k_mem s') a = mget (k_mem s) a) ∧
    (∀ va, pt_lookup (k_mem s') root va = pt_lookup (k_mem s) root va) ∧
    s' = set_k_mem (k_mem s') s ∧ mm_inv s' fl N root.
Proof.
  intros Hinv Hus Hbs H0 n writable.
  destruct (copy_out_spec s fl N root dst bs) as (r & s1 & Hr & k & Hk & Hcp & Hc); try done.
  pose proof Hcp as [C1 C2 C3 C4 C5 C6 C7]. exists r, s1, k. split; [done|]. split_and!; try done.
  - destruct Hc as [Hc|(-> & Hlt & Hn)]; [by left|right]. split_and!; [done|lia|lia|]. unfold writable. rewrite Hn. by intros [].
  - destruct Hc as [[-> ->]|(-> & Hlt & Hn)]; [done|]. split; [done|].
    intros Hw. destruct (Hw (dst + k)) as [x Hx]; [lia|]. congruence.
  - intros va Hva. pose proof (C5 va Hva) as [x Hx]. split; [by exists x|]. unfold uaddr in Hx.
    destruct (pt_lookup (k_mem s) root va) as [v|] eqn:Hv; [|done]. simpl in Hx. destruct (uwritable v) eqn:Hw; [|done].
    rewrite (C6 va v), decide_True by (lia || done || by apply andb_true_iff in Hw as [? _]). done.
Qed.

(** Two bytes below the end of the memory, two above it. *)
Lemma copy_out_safe_witness : ∃ s' k,
  copy_out small_root 8190 [1; 2; 3; 4] small_proc = Ok (-1) s' ∧ 0 ≤ k < 4 ∧
  (∀ va, 8190 ≤ va < 8190 + k → ubyte (k_mem s') small_root va = default 0 ([1; 2; 3; 4] !! Z.to_nat (va - 8190))) ∧
  ∀ a, (∀ va, 8190 ≤ va < 8190 + k → uaddr uwritable (k_mem small_proc) small_root va ≠ Some a) → mget (k_mem s') a = mget (k_mem small_proc) a.
Proof.
  destruct small_proc_inv as (fl & N & Hok & _).
  assert (Forall (λ b, 0 ≤ b < 256) [1; 2; 3; 4]) as B by (repeat constructor; lia).
  destruct (copy_out_safe small_proc fl N small_root 8190 [1; 2; 3; 4] (uv_inv _ _ _ _ _ Hok) (uv_us _ _ _ _ _ Hok) B ltac:(lia))
    as (r & s' & k & H1 & H2 & H3 & H4 & H5 & _).
  assert (uaddr uwritable (k_mem small_proc) small_root 8192 = None) as Hn.
  { unfold uaddr. rewrite (uv_gap _ _ _ _ _ Hok); [reflexivity|]. split; [discriminate|reflexivity]. }
  destruct H2 as [[-> _]|(-> & Hk & _)].
  - destruct (proj1 H3 eq_refl 8192) as [x Hx]; [cbn; lia|]. rewrite Hn in Hx. discriminate Hx.
  - exists s', k. split; [exact H1|]. split; [exact Hk|]. split; [intros va Hva; apply H4; exact Hva|exact H5].
Defined.

(** [copy_str_in] returns a string that ends before [max_len] and before
    the end of its page, terminator included, in one round. *)
Theorem copy_str_in_reads s N root src max_len v bs :
  pt_wf (k_mem s) N root → 0 ≤ src < MAX_VADDR →
  pt_lookup (k_mem s) root src = Some v → ureadable v = true →
  Z.of_nat (length bs) < max_len → src mod PAGE_SIZE + Z.of_nat (length bs) < PAGE_SIZE →
  (∀ j b, bs !! j = Some b → ubyte (k_mem s) root (src + Z.of_nat j) = b ∧ b ≠ 0) →
  ubyte (k_mem s) root (src + Z.of_nat (length bs)) = 0 →
  copy_str_in 1 root src max_len s = Ok (0, bs ++ [0]) s.
Proof. apply copy_str_in_spec. Qed.

Lemma copy_str_in_reads_witness : copy_str_in 1 small_root 4095 16 small_proc = Ok (0, [] ++ [0]) small_proc.
Proof.
  assert (0 ≤ 4095 < MAX_VADDR ∧ Z.of_nat (length (@nil Z)) < 16 ∧
          4095 mod PAGE_SIZE + Z.of_nat (length (@nil Z)) < PAGE_SIZE) as (B1 & B2 & B3) by by vm_compute.
  destruct small_proc_inv as (fl & N & Hok & Hw).
  destruct (small_proc_writable 4095 ltac:(lia)) as [_ (v & Hl & Hr)].
  apply (copy_str_in_reads small_proc N small_root 4095 16 v []);
    [exact (mi_pt _ _ _ _ (uv_inv _ _ _ _ _ Hok))|exact B1|exact Hl|exact Hr|exact B2|exact B3| |].
  - intros j b Hj. rewrite lookup_nil in Hj. discriminate Hj.
  - destruct (Hw 4095 ltac:(lia)) as (w & _ & _ & Hb).
    change (Z.of_nat (length [])) with 0. rewrite Z.add_0_r. exact Hb.
Defined.

(** C25: a string that ends neither within [max_len] bytes nor in the page it
    starts in is never finished: [copy_str_in] neither advances [src] nor
    decreases [max_len], and copies the same bytes for ever behind [dst].  After
    [k] rounds it has stored [k] times the bytes of one round, so that it has
    left the [max_len] bytes of the caller's buffer when [k] is large enough. *)
Theorem copy_str_in_never_ends s N root src max_len v :
  pt_wf (k_mem s) N root → 0 ≤ src < MAX_VADDR →
  pt_lookup (k_mem s) root src = Some v → ureadable v = true → 0 < max_len →
  (∀ i, 0 ≤ i < max_len → src mod PAGE_SIZE + i < PAGE_SIZE → ubyte (k_mem s) root (src + i) ≠ 0) →
  (∀ fuel, copy_str_in fuel root src max_len s = Stuck OutOfFuel) ∧
  ∀ k, ∃ dst, unroll k (copy_str_round root src) ([], max_len) s = Ok (inl (dst, max_len)) s ∧
    Z.of_nat (length dst) = Z.of_nat k * Z.min max_len (PAGE_SIZE - src mod PAGE_SIZE).
Proof.
  intros H1 H2 H3 H4 H5 H6. split; [by eapply copy_str_in_diverges|]. intros k.
  destruct (copy_str_in_unroll s N root src max_len v H1 H2 H3 H4 H5 H6 k []) as (dst & E & Hl). by exists dst.
Qed.

Lemma copy_str_in_never_ends_witness : ∃ s,
  (∀ fuel, copy_str_in fuel small_root 4095 16 s = Stuck OutOfFuel) ∧
  ∀ k, ∃ dst, unroll k (copy_str_round small_root 4095) ([], 16) s = Ok (inl (dst, 16)) s ∧
    Z.of_nat (length dst) = Z.of_nat k * Z.min 16 (PAGE_SIZE - 4095 mod PAGE_SIZE).
Proof.
  assert (0 ≤ 4095 < MAX_VADDR ∧ 4095 + Z.of_nat (length [65]) < 2 ^ 64) as (B1 & B2) by by vm_compute.
  assert (Forall (λ b, 0 ≤ b < 256) [65]) as B3 by by repeat constructor.
  destruct small_proc_inv as (fl & N & Hok & _).
  destruct (small_proc_writable 4095 ltac:(lia)) as [_ (v & Hl & Hr)].
  destruct (copy_out_spec small_proc fl N small_root 4095 [65]) as (r & s & Hrun & k & Hk & Hcp & Hc);
    [exact (uv_inv _ _ _ _ _ Hok)|exact (uv_us _ _ _ _ _ Hok)|exact B3|lia|].
  exists s. apply (copy_str_in_never_ends s N small_root 4095 16 v);
    [apply (mi_pt _ _ _ _ (cp_inv _ _ _ _ _ _ _ _ Hcp))|exact B1|
     rewrite (cp_lookup _ _ _ _ _ _ _ _ Hcp); exact Hl|exact Hr|lia|].
  intros i Hi Hp. assert (i = 0) as ->.
  { change (4095 mod PAGE_SIZE) with 4095 in Hp. unfold PAGE_SIZE in Hp. lia. }
  destruct Hc as [[-> ->]|(-> & Hlt & Hn)].
  - rewrite (cp_bytes _ _ _ _ _ _ _ _ Hcp _ v); [|lia|exact Hl|by apply andb_true_iff in Hr as [? _]].
    rewrite decide_True by (change (Z.of_nat (length [65])) with 1; lia). discriminate.
  - destruct (small_proc_writable 4095 ltac:(lia)) as [[x Hx] _].
    change (Z.of_nat (length [65])) with 1 in Hlt.
    replace (4095 + k) with 4095 in Hn by lia. rewrite Hx in Hn. discriminate Hn.
Defined.
