(* ===== verification/UserTable.v ===== *)
(** The page table of a process ([get_user_page_table] of kernel/mm/mm.c): the
    trampoline, the trap frame and the user's stack, and what happens when memory
    runs out on the way. *)

From S2P Require Import Prelude Mem State Machine Mm PageTable MmAlloc MmMap MmUser MmUvm MmInit MmTheorems.

(** ** The translations *)

Definition in_one_page (a va : Z) : Prop := a ≤ va < a + PAGE_SIZE.
#[export] Instance in_one_page_dec a va : Decision (in_one_page a va) := _.

(** The translations with one more page. *)
Definition with_page (a pa perm : Z) (f : Z → option Z) (va : Z) : option Z :=
  if decide (in_one_page a va) then Some (mk_pte pa perm) else f va.

(** What a new process has mapped. *)
Definition user_layout (trampoline tf stack : Z) : Z → option Z :=
  with_page USER_STACK_BASE stack (Z.lor (Z.lor PTE_U PTE_W) PTE_R)
    (with_page TRAP_FRAME tf (Z.lor PTE_R PTE_W) (with_page TRAMPOLINE trampoline (Z.lor PTE_R PTE_X) (λ _, None))).

(** ** Pages *)

Lemma alloc_of_inv s fl N root : mm_inv s fl N root → alloc_inv s fl.
Proof. by intros []. Qed.

Lemma alloc_free_spec s fl p :
  alloc_inv s fl → is_page p → p ∉ fl →
  runs (pm_free p) s (λ _ s', alloc_inv s' (p :: fl) ∧ only_mm s s' ∧ mem_same (eq p) (k_mem s) (k_mem s')).
Proof.
  intros [A1 A2 A3 A4 A5 A6] Hp Hni. eapply runs_ok; [by apply pm_free_eq|]. set (s' := set_k_hart _ _).
  assert (only_mm s s') as Ho by (exists (hart_settle (k_hart s)); split; [by right|done]).
  destruct (only_mm_hart _ _ A1 Ho) as (Hh & Hn & _).
  assert (mem_same (eq p) (k_mem s) (k_mem s')) as Hs by (simpl; rewrite <-(pte_at_0 p) at 2; apply mem_same_stn; lia).
  split; [|done].
  split; [done|by rewrite Hn|done|by apply stn_bytes_ok| |by apply NoDup_cons].
  simpl. split_and!; [done|done|]. rewrite ldn_stn.
  2: { destruct fl as [|q l]; simpl in A5; [lia|]. destruct A5 as (-> & [? _] & _). lia. }
  eapply fl_rep_ext; [|done]. intros q Hq.
  apply (ent_same (eq p)); [done|by intros ? <-|by eapply fl_rep_page|by intros <-|lia].
Qed.

(** Without free pages the null pointer is returned. *)
Lemma zalloc_none s : alloc_inv s [] → runs pm_zalloc s (λ r s', r = 0 ∧ alloc_inv s' [] ∧ only_mm s s' ∧ k_mem s' = k_mem s).
Proof.
  intros [A1 A2 A3 A4 A5 A6]. unfold pm_zalloc. kstep. eapply runs_ok; [by apply pm_alloc_eq|].
  simpl in A5. rewrite A5. kstep. cbn [negb Z.eqb]. apply runs_ret. apply runs_ret. set (s' := set_k_hart _ _).
  assert (only_mm s s') as Ho by (exists (hart_settle (k_hart s)); split; [by right|done]).
  destruct (only_mm_hart _ _ A1 Ho) as (Hh & Hn & _). split_and!; [done| |done|done]. split; try done. by rewrite Hn.
Qed.

(** One page is mapped. *)
Lemma map_page_spec s fl N root a pa perm :
  mm_inv s fl N root → is_page pa → a mod PAGE_SIZE = 0 → 0 ≤ a → a + PAGE_SIZE ≤ MAX_VADDR → 0 ≤ perm < 2 ^ 10 → pte_leaf perm = true →
  (∀ va, in_one_page a va → pt_lookup (k_mem s) root va = None) →
  runs (map_pages root a pa PAGE_SIZE perm) s (λ r s', ∃ fl' N', evolves root s fl N s' fl' N' ∧
    (r = 0 ∧ (∀ va, 0 ≤ va → pt_lookup (k_mem s') root va = with_page a pa perm (pt_lookup (k_mem s) root) va) ∨
     r = -1 ∧ fl' = [] ∧ ∀ va, 0 ≤ va → pt_lookup (k_mem s') root va = pt_lookup (k_mem s) root va)).
Proof.
  intros Hi Hp Ha H0 Hm Hperm Hlf Hn.
  kcall (map_pages_spec s fl N root a pa PAGE_SIZE perm Hi Ha); try done; [destruct Hp; lia|by apply is_page_end|].
  intros r s' (fl' & N' & Hev & [[-> Hl]|Hr]); exists fl', N'; (split; [exact Hev|]); [left|right; exact Hr].
  split; [done|]. intros va Hva. rewrite Hl by done. unfold mapped_range, with_page.
  destruct (decide (in_one_page a va)) as [D|D]; [rewrite decide_True by exact D|by rewrite decide_False by exact D].
  rewrite (round_down_page a va) by done. do 2 f_equal. lia.
Qed.

(** A page that is not free and not part of the table stays so. *)
Lemma evolves_apart root s fl N s' fl' N' p :
  evolves root s fl N s' fl' N' → p ∉ fl → N !! p = None → (p ∉ fl') ∧ N' !! p = None.
Proof.
  intros [_ _ _ (u & -> & Hu) _] Hp HN. rewrite elem_of_app in Hp. split; [tauto|].
  destruct (N' !! p) as [l|] eqn:E; [|done]. destruct (proj1 (Hu p)) as [[? ?]|?]; [by rewrite E|congruence|tauto].
Qed.

Lemma evolves_sub root s fl N s' fl' N' : evolves root s fl N s' fl' N' → fl' ⊆ fl.
Proof. intros [_ _ _ (u & -> & _) _]. intros q Hq. apply elem_of_app. by right. Qed.

(** ** Pages that were free *)

(** Only the memory manager's state has changed, and only pages of [fl0]. *)
Definition confined (fl0 : list Z) (s s' : kstate) : Prop := only_mm s s' ∧ mem_same (λ q, q ∈ fl0) (k_mem s) (k_mem s').

Lemma confined_trans fl0 s1 s2 s3 : hart_ok (k_hart s1) → confined fl0 s1 s2 → confined fl0 s2 s3 → confined fl0 s1 s3.
Proof.
  intros Hh [O1 M1] [O2 M2]. split; [by eapply only_mm_trans|].
  eapply mem_same_mono; [|by apply (mem_same_trans _ _ _ _ _ M1 M2)]. by intros q [].
Qed.

Lemma confined_page fl0 s s' p : only_mm s s' → mem_same (eq p) (k_mem s) (k_mem s') → p ∈ fl0 → confined fl0 s s'.
Proof. intros Ho Hm Hp. split; [done|]. eapply mem_same_mono; [|done]. by intros q <-. Qed.

Lemma confined_same fl0 s s' : only_mm s s' → k_mem s' = k_mem s → confined fl0 s s'.
Proof. intros Ho Hm. split; [done|]. rewrite Hm. apply mem_same_refl. Qed.

(** The tables are pages that were free. *)
Definition tables_in (fl0 : list Z) (N : gmap Z nat) : Prop := ∀ q, is_Some (N !! q) → q ∈ fl0.

Lemma evolves_tables root s fl N s' fl' N' fl0 :
  evolves root s fl N s' fl' N' → fl ⊆ fl0 → tables_in fl0 N → tables_in fl0 N' ∧ confined fl0 s s'.
Proof.
  intros [_ Ho _ (u & -> & Hu) Hm] Hs HN. assert (tables_in fl0 N') as H.
  { intros q Hq. destruct (proj1 (Hu q) Hq) as [?|?]; [by apply HN|apply Hs, elem_of_app; by left]. }
  split; [done|]. split; [done|]. eapply mem_same_mono; [exact H|exact Hm].
Qed.

(** Every page that was free is free or a table. *)
Definition accounted (fl0 fl : list Z) (N : gmap Z nat) : Prop := ∀ q, q ∈ fl0 → q ∈ fl ∨ is_Some (N !! q).

Lemma evolves_accounted root s fl N s' fl' N' fl0 :
  evolves root s fl N s' fl' N' → accounted fl0 fl N → accounted fl0 fl' N'.
Proof. intros [_ _ _ (u & -> & Hu) _] H q [[?|?]%elem_of_app|?]%H; [right|by left|right]; apply Hu; tauto. Qed.

(** ** When memory has run out *)

(** What is left: at most [n] pages of those that were free. *)
Definition gave_up (n : nat) (fl : list Z) (s : kstate) (r : Z) (s' : kstate) : Prop :=
  r = 0 ∧ confined fl s s' ∧ ∃ fl', alloc_inv s' fl' ∧ (length fl' ≤ n)%nat ∧ fl' ⊆ fl.

Lemma gave_up_from n fl s s1 r s' : hart_ok (k_hart s) → confined fl s s1 → gave_up n fl s1 r s' → gave_up n fl s r s'.
Proof. intros Hh Ho (-> & Ho' & H). split_and!; [done|by eapply confined_trans|done]. Qed.

Lemma undo_root s fl fl0 N root :
  mm_inv s fl N root → root ∈ fl0 → fl ⊆ fl0 → runs (pm_free root;; mret 0) s (gave_up (S (length fl)) fl0 s).
Proof.
  intros Hi Hr Hs. pose proof (wf_root _ _ _ (mi_pt _ _ _ _ Hi)) as HN.
  kstep. kcall (alloc_free_spec s fl root (alloc_of_inv _ _ _ _ Hi)).
  - by apply (wf_page _ _ _ (mi_pt _ _ _ _ Hi) _ _ HN).
  - intros Hin. rewrite (mi_disj _ _ _ _ Hi root Hin) in HN. done.
  - intros _ s' (Ha & Ho & Hm). kstep. split_and!; [done|by eapply confined_page|]. exists (root :: fl). split_and!; [done|done|].
    intros q [->|Hq]%elem_of_cons; [done|by apply Hs].
Qed.

(** A page that is mapped is unmapped on the way out. *)
Lemma undo_page a s fl fl0 N root rest :
  mm_inv s fl N root → fl ⊆ fl0 → tables_in fl0 N → a mod PAGE_SIZE = 0 → 0 ≤ a → a + PAGE_SIZE ≤ MAX_VADDR →
  (∀ va, in_one_page a va → is_Some (pt_lookup (k_mem s) root va)) →
  (∀ s', mm_inv s' fl N root → (∀ va, 0 ≤ va → ¬ in_one_page a va → pt_lookup (k_mem s') root va = pt_lookup (k_mem s) root va) →
    runs rest s' (gave_up (S (length fl)) fl0 s')) →
  runs (unmap_pages root a PAGE_SIZE false;; rest) s (gave_up (S (length fl)) fl0 s).
Proof.
  intros Hi Hfl HN Ha H0 Hm Hp Hrest. kstep. kcall (unmap_pages_keep s fl N root a PAGE_SIZE Hi Ha); try done.
  intros _ s1 [Hev Hl]. eapply runs_conseq; [apply Hrest|].
  - apply Hev.
  - intros va Hva Hn. rewrite Hl by done. unfold unmapped_range. by rewrite decide_False.
  - intros r s' Hg. eapply gave_up_from; [apply Hi|by apply (evolves_tables _ _ _ _ _ _ _ fl0 Hev)|done].
Qed.

Ltac layout_lia := unfold in_one_page, USER_STACK_BASE, USER_STACK_TOP, USER_STACK_SIZE, TRAP_FRAME, TRAMPOLINE, PAGE_SIZE in *;
  change MAX_VADDR with 274877906944 in *; lia.

Section table.
Context (trampoline : Z) (Htr : is_page trampoline).

Lemma undo_trampoline s fl fl0 N root :
  mm_inv s fl N root → root ∈ fl0 → fl ⊆ fl0 → tables_in fl0 N → (∀ va, in_one_page TRAMPOLINE va → is_Some (pt_lookup (k_mem s) root va)) →
  runs (unmap_pages root TRAMPOLINE PAGE_SIZE false;; pm_free root;; mret 0) s (gave_up (S (length fl)) fl0 s).
Proof. intros Hi Hr Hs HN Hp. eapply undo_page; [done|done|done|done|done|done|done|]. intros s' Hi' _. by eapply undo_root. Qed.

Lemma undo_frame s fl fl0 N root :
  mm_inv s fl N root → root ∈ fl0 → fl ⊆ fl0 → tables_in fl0 N → (∀ va, in_one_page TRAMPOLINE va → is_Some (pt_lookup (k_mem s) root va)) →
  (∀ va, in_one_page TRAP_FRAME va → is_Some (pt_lookup (k_mem s) root va)) →
  runs (unmap_pages root TRAP_FRAME PAGE_SIZE false;; unmap_pages root TRAMPOLINE PAGE_SIZE false;; pm_free root;; mret 0) s
    (gave_up (S (length fl)) fl0 s).
Proof.
  intros Hi Hr Hs HN Hp Hf. eapply undo_page; [done|done|done|done|done|done|done|]. intros s' Hi' Hl. eapply undo_trampoline; [done|done|done|done|].
  intros va Hva. rewrite Hl; [by apply Hp|layout_lia..].
Qed.

(** The table that is returned. *)
Record user_table (tf : Z) (fl0 : list Z) (s : kstate) (root : Z) (s' : kstate) (fl : list Z) (N : gmap Z nat) (stack : Z) : Prop := {
  ut_inv : mm_inv s' fl N root;
  ut_only : confined fl0 s s';
  ut_tables : tables_in fl0 N;
  ut_space : user_space (k_mem s') fl N root;
  ut_frame : N !! tf = None;
  ut_fl : fl ⊆ fl0;
  ut_stack : stack ∈ fl0;
  ut_root : root ∈ fl0;
  ut_lookup : ∀ va, 0 ≤ va → pt_lookup (k_mem s') root va = user_layout trampoline tf stack va;
  ut_all : accounted fl0 (stack :: fl) N;
}.

Lemma user_layout_user tf stack va v :
  is_page tf → user_layout trampoline tf stack va = Some v → pte_user v = true →
  in_one_page USER_STACK_BASE va ∧ v = mk_pte stack (Z.lor (Z.lor PTE_U PTE_W) PTE_R).
Proof.
  intros Htf. unfold user_layout, with_page. repeat case_decide; [by intros [= <-]| | |done]; intros [= <-];
    rewrite pte_user_flags, PTE_FLAGS_mk_pte by (done || apply Htf || apply Htr || (destruct Htf; lia) || (destruct Htr; lia)); done.
Qed.

Lemma layout_space m fl N root tf stack :
  is_page tf → is_page stack → stack ∉ fl → N !! stack = None →
  (∀ va, 0 ≤ va → pt_lookup m root va = user_layout trampoline tf stack va) → user_space m fl N root.
Proof.
  intros Htf Hst Hfl HN Hl. split.
  - intros va v Hva. rewrite Hl by done. intros Hv Hu. destruct (user_layout_user tf stack va v Htf Hv Hu) as [_ ->].
    by rewrite PTE2PA_mk_pte.
  - intros va v va' v' H0 H1. rewrite !Hl by done. intros Hv Hu Hv' Hu' _.
    destruct (user_layout_user _ _ _ _ Htf Hv Hu) as [P1 _]. destruct (user_layout_user _ _ _ _ Htf Hv' Hu') as [P2 _].
    by rewrite (proj2 (same_page USER_STACK_BASE va eq_refl) P1), (proj2 (same_page USER_STACK_BASE va' eq_refl) P2).
Qed.

(** A table, or nothing. *)
Definition outcome (tf : Z) (fl0 : list Z) (s : kstate) (r : Z) (s' : kstate) : Prop :=
  r ≠ 0 ∧ (∃ fl N stack, user_table tf fl0 s r s' fl N stack) ∨ gave_up 2 fl0 s r s'.

Lemma gave_up_le n n' fl0 s r s' : (n ≤ n')%nat → gave_up n fl0 s r s' → gave_up n' fl0 s r s'.
Proof. intros Hn (-> & Ho & fl & Ha & Hl & Hs). split_and!; [done|done|]. exists fl. split_and!; [done|lia|done]. Qed.

Lemma outcome_from tf fl0 s s1 r s' : hart_ok (k_hart s) → confined fl0 s s1 → outcome tf fl0 s1 r s' → outcome tf fl0 s r s'.
Proof.
  intros Hh Ho [[Hr (fl & N & st & [])]|Hg]; [left|right; by eapply gave_up_from]. split; [done|]. exists fl, N, st.
  split; try done. by eapply confined_trans.
Qed.

Lemma outcome_runs tf fl0 s s1 (m : KM Z) : hart_ok (k_hart s) → confined fl0 s s1 → runs m s1 (outcome tf fl0 s1) → runs m s1 (outcome tf fl0 s).
Proof. intros Hh Ho Hr. eapply runs_conseq; [exact Hr|]. intros r s'. by apply outcome_from. Qed.

(** The kernel's pages of the table. *)
Definition kernel_layout (tf : Z) : Z → option Z :=
  with_page TRAP_FRAME tf (Z.lor PTE_R PTE_W) (with_page TRAMPOLINE trampoline (Z.lor PTE_R PTE_X) (λ _, None)).

Lemma table_undo s fl fl0 N root tf :
  mm_inv s fl N root → root ∈ fl0 → fl ⊆ fl0 → tables_in fl0 N → (length fl ≤ 1)%nat →
  (∀ va, 0 ≤ va → pt_lookup (k_mem s) root va = kernel_layout tf va) →
  runs (unmap_pages root TRAP_FRAME PAGE_SIZE false;; unmap_pages root TRAMPOLINE PAGE_SIZE false;; pm_free root;; mret 0) s
    (gave_up 2 fl0 s).
Proof.
  intros Hi Hr Hs HN Hlen Hl. eapply runs_conseq; [eapply undo_frame; [done|done|done|done|..]|intros r s'; apply gave_up_le; lia].
  - intros va Hva. rewrite Hl by layout_lia. unfold kernel_layout, with_page. rewrite decide_False, decide_True by layout_lia. eauto.
  - intros va Hva. rewrite Hl by layout_lia. unfold kernel_layout, with_page. rewrite decide_True by done. eauto.
Qed.

(** From the trap frame on. *)
Lemma table_stack s fl fl0 N root tf :
  mm_inv s fl N root → root ∈ fl0 → fl ⊆ fl0 → tables_in fl0 N → accounted fl0 fl N → is_page tf → tf ∉ fl → N !! tf = None →
  (∀ va, 0 ≤ va → pt_lookup (k_mem s) root va = kernel_layout tf va) →
  let bad2 := unmap_pages root TRAP_FRAME PAGE_SIZE false;; unmap_pages root TRAMPOLINE PAGE_SIZE false;; pm_free root;; mret 0 in
  runs (ustack ← pm_alloc;
    if ustack =? 0 then bad2 else
    r ← map_pages root USER_STACK_BASE ustack PAGE_SIZE (Z.lor (Z.lor PTE_U PTE_W) PTE_R);
    if negb (r =? 0) then pm_free ustack;; bad2 else mret root) s (outcome tf fl0 s).
Proof.
  intros Hi Hr Hs HT HA Htf Hf HN Hl bad2. pose proof (mi_hart _ _ _ _ Hi) as Hh.
  kstep. kcall (pm_alloc_spec s fl N root Hi). intros stack s1 (fl1 & I1 & O1 & M1 & Hst). destruct fl as [|q l].
  - destruct Hst as [-> ->]. cbn [Z.eqb]. eapply runs_conseq; [eapply (table_undo s1 []); [done|done|done|done|cbn; lia|by rewrite M1]|].
    intros r s' Hg. right. eapply gave_up_from; [done|by apply confined_same|done].
  - destruct Hst as (-> & -> & Hq & HNq & Hql). rewrite (proj2 (Z.eqb_neq q 0)) by (destruct Hq; lia).
    apply not_elem_of_cons in Hf as [_ Hf].
    kstep. kcall (map_page_spec s1 l N root USER_STACK_BASE q (Z.lor (Z.lor PTE_U PTE_W) PTE_R) I1 Hq); try done.
    { intros va Hva. rewrite M1, Hl by layout_lia. unfold kernel_layout, with_page. by rewrite !decide_False by layout_lia. }
    intros r s2 (fl2 & N2 & Hev & Hc). pose proof (evolves_sub _ _ _ _ _ _ _ Hev) as Hsub.
    destruct (evolves_apart _ _ _ _ _ _ _ q Hev Hql HNq) as [Hq2 HNq2].
    destruct (only_mm_hart _ _ Hh O1) as (Hh1 & _). assert (q ∈ fl0) as Hq0 by (apply Hs, elem_of_cons; by left).
    destruct (evolves_tables _ _ _ _ _ _ _ fl0 Hev) as [HT2 E2]; [intros z Hz; apply Hs, elem_of_cons; by right|done|].
    assert (confined fl0 s s2) as O2 by (eapply confined_trans; [done|by apply confined_same|done]).
    destruct Hc as [[-> Hl2]|(-> & -> & Hl2)]; cbn [negb Z.eqb].
    + kstep. left. assert (∀ va, 0 ≤ va → pt_lookup (k_mem s2) root va = user_layout trampoline tf q va) as Hl3.
      { intros va Hva. rewrite Hl2, M1 by done. unfold user_layout. unfold with_page at 1 2. case_decide; [done|by apply Hl]. }
      pose proof (wf_page _ _ _ (mi_pt _ _ _ _ Hi) _ _ (wf_root _ _ _ (mi_pt _ _ _ _ Hi))) as [[Hr0 _] _].
      split; [lia|]. exists fl2, N2, q.
      split; [apply Hev|done|done|by apply (layout_space _ _ _ _ tf q)|by apply (evolves_apart _ _ _ _ _ _ _ tf Hev)| |done|done|done|].
      * intros z Hz. apply Hs, elem_of_cons. right. by apply Hsub.
      * intros z Hz. rewrite elem_of_cons. destruct (decide (z = q)) as [|Hzq]; [tauto|].
        destruct (evolves_accounted _ _ _ _ _ _ _ [z] Hev) with z; [|by left|tauto|tauto].
        intros y ->%list_elem_of_singleton. destruct (HA z Hz) as [[?|?]%elem_of_cons|?]; tauto.
    + kstep. kcall (pm_free_spec s2 [] N2 root q (ev_inv _ _ _ _ _ _ _ Hev) Hq HNq2 Hq2). intros _ s3 (I3 & O3 & S3 & L3 & _).
      eapply runs_conseq; [eapply (table_undo s3 [q] fl0); [exact I3|done| |exact HT2|cbn; lia|]|].
      * by intros z ->%list_elem_of_singleton.
      * intros va Hva. rewrite L3, Hl2, M1 by done. by apply Hl.
      * intros r s' Hg. right. eapply gave_up_from; [done|exact O2|]. eapply gave_up_from; [|by apply (confined_page fl0 _ _ q O3 S3)|done].
        by destruct (only_mm_hart _ _ Hh (proj1 O2)).
Qed.

Lemma get_user_page_table_spec s fl p x :
  alloc_inv s fl → k_procs s !! p = Some x → is_page (p_tf x) → p_tf x ∉ fl →
  runs (get_user_page_table trampoline p) s (outcome (p_tf x) fl s).
Proof.
  intros Ha Hx Htf Hf. pose proof (ai_hart _ _ Ha) as Hh.
  assert (get_proc p s = Ok x s) as Eg by (unfold get_proc; erewrite bind_ok by done; by rewrite Hx).
  unfold get_user_page_table. kstep. eapply runs_ok; [exact Eg|]. kstep.
  destruct fl as [|root l].
  { kcall (zalloc_none s Ha). intros r s' (-> & Ha' & Ho & Hm). cbn [Z.eqb]. kstep. right. split_and!; [done|by apply confined_same|]. exists []. split_and!; [done|cbn; lia|done]. }
  apply not_elem_of_cons in Hf as [Hne Hf].
  kcall (root_alloc_spec s root l Ha). intros r s1 (-> & I1 & O1 & L1 & _ & S1). destruct (only_mm_hart _ _ Hh O1) as (Hh1 & _).
  pose proof (wf_page _ _ _ (mi_pt _ _ _ _ I1) _ _ (wf_root _ _ _ (mi_pt _ _ _ _ I1))) as [[Hr0 _] _].
  rewrite (proj2 (Z.eqb_neq root 0)) by lia.
  assert (root ∈ root :: l) as Hin by by left.
  assert (tables_in (root :: l) (root_only root)) as T1 by (intros q [k [<- _]%root_only_Some]; by left).
  apply (outcome_runs _ _ s s1 _ Hh (confined_page _ _ _ root O1 S1 Hin)). kstep.
  kcall (map_page_spec s1 l _ root TRAMPOLINE trampoline (Z.lor PTE_R PTE_X) I1 Htr); try done.
  intros r s2 (fl2 & N2 & Ev2 & Hc). pose proof (evolves_sub _ _ _ _ _ _ _ Ev2) as Sub2. pose proof (ev_inv _ _ _ _ _ _ _ Ev2) as I2.
  assert (root_only root !! p_tf x = None) as Hx0 by by apply lookup_singleton_ne.
  destruct (evolves_apart _ _ _ _ _ _ _ _ Ev2 Hf Hx0) as [Hf2 Hx2].
  assert (∀ z, z ⊆ l → z ⊆ root :: l) as Hsub by (intros z Hz y Hy; right; by apply Hz).
  destruct (evolves_tables _ _ _ _ _ _ _ (root :: l) Ev2) as [T2 E2]; [by apply Hsub|done|].
  apply (outcome_runs _ _ s1 s2 _ Hh1 E2).
  assert (accounted (root :: l) l (root_only root)) as A1 by (intros q [->|?]%elem_of_cons; [right; by exists 2%nat; apply lookup_singleton_eq|by left]).
  pose proof (evolves_accounted _ _ _ _ _ _ _ _ Ev2 A1) as A2.
  destruct Hc as [[-> Hl2]|(-> & -> & Hl2)]; cbn [negb Z.eqb].
  2: { eapply runs_conseq; [eapply (undo_root s2 [] (root :: l)); [exact I2|exact Hin|apply list_subseteq_nil]|]. intros r s' Hg. right. eapply gave_up_le; [|exact Hg]. cbn; lia. }
  kstep. kcall (map_page_spec s2 fl2 N2 root TRAP_FRAME (p_tf x) (Z.lor PTE_R PTE_W) I2 Htf); try done.
  { intros va Hva. rewrite Hl2 by layout_lia. unfold with_page. by rewrite decide_False by layout_lia. }
  intros r s3 (fl3 & N3 & Ev3 & Hc). pose proof (evolves_sub _ _ _ _ _ _ _ Ev3) as Sub3. pose proof (ev_inv _ _ _ _ _ _ _ Ev3) as I3.
  destruct (evolves_tables _ _ _ _ _ _ _ (root :: l) Ev3) as [T3 E3]; [by apply Hsub|done|].
  apply (outcome_runs _ _ s2 s3 _ (mi_hart _ _ _ _ I2) E3).
  destruct (evolves_apart _ _ _ _ _ _ _ _ Ev3 Hf2 Hx2) as [Hf3 Hx3].
  destruct Hc as [[-> Hl3]|(-> & -> & Hl3)]; cbn [negb Z.eqb].
  - eapply (table_stack s3 fl3); [done|done|by apply Hsub; etrans|done|by apply (evolves_accounted _ _ _ _ _ _ _ _ Ev3)|done|done|done|].
    intros va Hva. rewrite Hl3 by done. unfold kernel_layout. unfold with_page at 1 2. case_decide; [done|]. rewrite Hl2 by done.
    unfold with_page. case_decide; [done|apply L1].
  - eapply runs_conseq; [eapply (undo_trampoline s3 [] (root :: l)); [exact I3|exact Hin|apply list_subseteq_nil|exact T3|]|].
    + intros va Hva. rewrite Hl3, Hl2 by layout_lia. unfold with_page. rewrite decide_True by done. eauto.
    + intros r s' Hg. right. eapply gave_up_le; [|exact Hg]. cbn; lia.
Qed.
End table.

(** ** Properties *)

(** C20: [get_user_page_table] always returns.  If it returns a table, that table
    translates the trampoline (readable and executable, by the kernel only), the
    trap frame of the process (readable and writable, by the kernel only) and one
    page of stack that was free (readable and writable by the user), and nothing
    else; no page of the table, of the stack or of the frame is free or part of
    another, and only pages that were free are written.  It returns the null pointer only when memory has run out: of the
    pages that were free two are left at most, since the tables below the root
    are not given back. *)
Theorem user_table_layout trampoline s fl p x :
  alloc_inv s fl → is_page trampoline → k_procs s !! p = Some x → is_page (p_tf x) → p_tf x ∉ fl →
  ∃ r s', get_user_page_table trampoline p s = Ok r s' ∧ only_mm s s' ∧ mem_same (λ q, q ∈ fl) (k_mem s) (k_mem s') ∧
    (r ≠ 0 ∧ (∃ fl' N stack, mm_inv s' fl' N r ∧ user_space (k_mem s') fl' N r ∧ N !! p_tf x = None ∧
        r ∈ fl ∧ stack ∈ fl ∧ fl' ⊆ fl ∧
        ∀ va, 0 ≤ va → pt_lookup (k_mem s') r va = user_layout trampoline (p_tf x) stack va) ∨
     r = 0 ∧ ∃ fl', alloc_inv s' fl' ∧ (length fl' ≤ 2)%nat ∧ fl' ⊆ fl).
Proof.
  intros Ha Htr Hx Htf Hf. destruct (get_user_page_table_spec trampoline Htr s fl p x Ha Hx Htf Hf) as (r & s' & Hr & Ho).
  exists r, s'. split; [done|]. destruct Ho as [[Hz (fl' & N & st & [])]|(-> & Ho & fl' & H)].
  - destruct ut_only0 as [O1 O2]. split_and!; [done|done|]. left. split; [done|]. by exists fl', N, st.
  - destruct Ho as [O1 O2]. split_and!; [done|done|]. right. split; [done|]. by exists fl'.
Qed.

(** ** A machine with two processes *)

(** [pm_init] with fourteen pages, and two processes whose trap frames lie below them. *)
Definition family_end : Z := MAX_PADDR - 14 * PAGE_SIZE.
Definition family_proc (i : Z) : process := set_p_tf (family_end - i * PAGE_SIZE) process0.
Definition family_procs (s : kstate) : kstate :=
  set_k_procs (<[0%nat := family_proc 1]> (<[1%nat := family_proc 2]> (k_procs s))) s.
Definition family : kstate := family_procs (final (pm_init family_end bss) bss).

(** The free list, up to [n] pages. *)
Fixpoint free_pages (m : memory) (h : Z) (n : nat) : list Z :=
  match n with
  | O => []
  | S n => if h =? 0 then [] else h :: free_pages m (ld64 m h) n
  end.

(** The first has a page of memory, the second becomes a copy of it; the answer has
    the free list at the time when the second begins. *)
Definition family_run : KM (Z * Z * list Z * Z * Z) :=
  r0 ← get_user_page_table 4096 0;
  n ← uvm_alloc r0 0 100 PTE_W;
  l ← gets (λ s, free_pages (k_mem s) (k_free s) 14);
  r1 ← get_user_page_table 4096 1;
  c ← copy_user_page_table r1 r0 100;
  mret (r0, n, l, r1, c).

Definition family_root : Z := small_root - 7 * PAGE_SIZE.
Definition family_left : list Z := (λ i, family_root - i * PAGE_SIZE) <$> [0; 1; 2; 3; 4; 5; 6].

Lemma family_runs : answer (family_run family) = Some (small_root, 100, family_left, family_root, 0).
Proof. vm_compute. reflexivity. Qed.

Lemma family_inv : ∃ fl, alloc_inv family fl ∧ ∀ q, q ∈ fl → family_end ≤ q.
Proof.
  destruct (pm_init_spec bss family_end bss_hart) as (? & s & Hr & fl & Ha & Hfl & Hh); [by vm_compute| |by vm_compute|by vm_compute|].
  { intros a. unfold mget. simpl. by rewrite lookup_empty. }
  exists fl. split; [|intros q Hq; by apply Hfl]. unfold family. rewrite Hr. destruct Ha as [A1 A2 A3 A4 A5 A6]. split; [exact A1|exact A2|exact A3|exact A4|exact A5|exact A6].
Qed.

Lemma page_4096 : is_page 4096.
Proof. split; by vm_compute. Qed.

Lemma family_frame i : 1 ≤ i ≤ 2 → is_page (p_tf (family_proc i)) ∧ p_tf (family_proc i) < family_end.
Proof. intros Hi. assert (i = 1 ∨ i = 2) as [-> | ->] by lia; (split; [split; by vm_compute|by vm_compute]). Qed.

Lemma family_get i : (i < 2)%nat → k_procs family !! i = Some (family_proc (Z.of_nat i + 1)).
Proof. intros Hi. destruct i as [|[|i]]; [by vm_compute|by vm_compute|lia]. Qed.

(** The steps of [family_run]. *)
Lemma family_steps : ∃ s1 s2 s3 s4,
  get_user_page_table 4096 0 family = Ok small_root s1 ∧ uvm_alloc small_root 0 100 PTE_W s1 = Ok 100 s2 ∧
  free_pages (k_mem s2) (k_free s2) 14 = family_left ∧
  get_user_page_table 4096 1 s2 = Ok family_root s3 ∧ copy_user_page_table family_root small_root 100 s3 = Ok 0 s4.
Proof.
  pose proof family_runs as E. unfold family_run in E. apply answer_bind in E as (r0 & s1 & H1 & E). apply answer_bind in E as (n & s2 & H2 & E).
  apply answer_bind in E as (l & s & Hs & E). injection Hs as <- <-.
  apply answer_bind in E as (r1 & s3 & H3 & E). apply answer_bind in E as (c & s4 & H4 & Hm).
  injection Hm as -> -> Hl -> ->. exists s1, s2, s3, s4. split_and!; [exact H1|exact H2|exact Hl|exact H3|exact H4].
Qed.

(** A free list that ends before the bound is all there. *)
Lemma free_pages_take m n : ∀ h fl, fl_rep m h fl → free_pages m h n = take n fl.
Proof.
  induction n as [|n IH]; intros h fl Hfl; [by rewrite take_0|]. destruct fl as [|q l]; cbn in *; [by rewrite Hfl|].
  destruct Hfl as (-> & [Hq _] & Hl). rewrite (proj2 (Z.eqb_neq q 0)) by lia. f_equal. by apply IH.
Qed.

Lemma free_pages_all m h n fl l : fl_rep m h fl → free_pages m h n = l → (length l < n)%nat → fl = l.
Proof.
  intros Hfl E Hl. rewrite (free_pages_take m n h fl Hfl) in E. rewrite <-E, length_take in Hl. rewrite take_ge in E by lia. done.
Qed.

(** The table of the first process. *)
Lemma family_table : ∃ s1 fl fl' N st, get_user_page_table 4096 0 family = Ok small_root s1 ∧
  alloc_inv family fl ∧ (∀ q, q ∈ fl → family_end ≤ q) ∧ user_table 4096 (p_tf (family_proc 1)) fl family small_root s1 fl' N st.
Proof.
  destruct family_inv as (fl & Ha & Hfl), (family_frame 1 ltac:(lia)) as [F1 F2], family_steps as (s1 & _ & _ & _ & H1 & _ & _).
  assert (p_tf (family_proc 1) ∉ fl) as F3 by (intros Hq%Hfl; lia).
  destruct (get_user_page_table_spec 4096 page_4096 family fl 0 _ Ha (family_get 0 ltac:(lia)) F1 F3) as (r & s & Hr & Hc).
  rewrite H1 in Hr. injection Hr as <- <-. destruct Hc as [[_ (fl' & N & st & Hu)]|[Hz _]]; [|exfalso; revert Hz; clear; vm_compute; discriminate].
  exists s1, fl, fl', N, st. split_and!; [exact H1|exact Ha|exact Hfl|exact Hu].
Qed.

Lemma user_table_layout_witness :
  ∃ s1 stack, get_user_page_table 4096 0 family = Ok small_root s1 ∧
    ∀ va, 0 ≤ va → pt_lookup (k_mem s1) small_root va = user_layout 4096 (p_tf (family_proc 1)) stack va.
Proof.
  destruct family_inv as (fl & Ha & Hfl), (family_frame 1 ltac:(lia)) as [F1 F2], family_steps as (s1 & _ & _ & _ & H1 & _ & _).
  assert (p_tf (family_proc 1) ∉ fl) as F3 by (intros Hq%Hfl; lia).
  destruct (user_table_layout 4096 family fl 0 _ Ha page_4096 (family_get 0 ltac:(lia)) F1 F3) as (r & s & Hr & _ & _ & Hc).
  rewrite H1 in Hr. injection Hr as <- <-.
  destruct Hc as [[_ (fl' & N & st & _ & _ & _ & _ & _ & _ & Hl)]|[Hz _]]; [|exfalso; revert Hz; clear; vm_compute; discriminate].
  exists s1, st. split; [exact H1|exact Hl].
Defined.
