(* ===== verification/MmCopy.v ===== *)
(** The memory of a new process ([copy_user_page_table] and [copy_user_stack] of
    kernel/mm/mm.c, which [fork] calls): the child gets pages of its own with the
    bytes and the permissions of its parent, and the parent keeps its memory. *)

From S2P Require Import Prelude Mem State Machine Mm PageTable MmAlloc MmMap MmUser MmUvm MmInit MmTheorems UserTable.

(** ** One user page more *)

(** The bytes of pages that are not part of the table are kept. *)
Lemma evolves_page root s fl N s' fl' N' p i :
  evolves root s fl N s' fl' N' → is_page p → N' !! p = None → 0 ≤ i < PAGE_SIZE →
  mget (k_mem s') (p + i) = mget (k_mem s) (p + i).
Proof.
  intros Hev Hp HN Hi. apply (ev_mem _ _ _ _ _ _ _ Hev). intros q [l Hq] Hin.
  assert (p = q); [|congruence]. apply (pages_disjoint p q (p + i)); [done| |unfold in_page; lia|done].
  by apply (wf_page _ _ _ (mi_pt _ _ _ _ (ev_inv _ _ _ _ _ _ _ Hev)) q l).
Qed.

Lemma with_page_space m m' fl fl' N N' root a p perm :
  user_space m fl N root → is_page p → p ∉ fl' → N' !! p = None → a mod PAGE_SIZE = 0 → 0 ≤ perm < 2 ^ 10 →
  (∀ va v, 0 ≤ va → pt_lookup m root va = Some v → pte_user v = true → PTE2PA v ≠ p ∧ (PTE2PA v ∉ fl') ∧ N' !! PTE2PA v = None) →
  (∀ va, 0 ≤ va → pt_lookup m' root va = with_page a p perm (pt_lookup m root) va) → user_space m' fl' N' root.
Proof.
  intros Hus Hp Hfl HN Ha Hperm Hold Hl. split.
  - intros va v H0. rewrite Hl by done. unfold with_page. case_decide.
    + intros [= <-] _. by rewrite PTE2PA_mk_pte.
    + intros Hv Hu. destruct (Hold va v H0 Hv Hu) as (_ & ? & ?). by destruct (us_own _ _ _ _ Hus va v).
  - intros va v va' v' H0 H1. rewrite !Hl by done. unfold with_page. repeat case_decide.
    + intros _ _ _ _ _. rewrite (proj2 (same_page a va Ha)), (proj2 (same_page a va' Ha)); done.
    + intros [= <-] _ Hv Hu E. rewrite PTE2PA_mk_pte in E by done. by destruct (Hold va' v') as (? & _).
    + intros Hv Hu [= <-] _ E. rewrite PTE2PA_mk_pte in E by done. by destruct (Hold va v) as (? & _).
    + by apply (us_inj _ _ _ _ Hus).
Qed.

(** A page of the kernel's choice is given to the user. *)
Lemma map_user_page s fl N root a p perm :
  mm_inv s fl N root → user_space (k_mem s) fl N root → is_page p → p ∉ fl → N !! p = None →
  a mod PAGE_SIZE = 0 → 0 ≤ a → a + PAGE_SIZE ≤ MAX_VADDR → 0 ≤ perm < 2 ^ 10 → pte_leaf perm = true →
  (∀ va v, 0 ≤ va → pt_lookup (k_mem s) root va = Some v → pte_user v = true → PTE2PA v ≠ p) →
  (∀ va, in_one_page a va → pt_lookup (k_mem s) root va = None) →
  runs (map_pages root a p PAGE_SIZE perm) s (λ r s', ∃ fl' N', evolves root s fl N s' fl' N' ∧
    user_space (k_mem s') fl' N' root ∧ (p ∉ fl') ∧ N' !! p = None ∧
    (r = 0 ∧ (∀ va, 0 ≤ va → pt_lookup (k_mem s') root va = with_page a p perm (pt_lookup (k_mem s) root) va) ∨
     r = -1 ∧ ∀ va, 0 ≤ va → pt_lookup (k_mem s') root va = pt_lookup (k_mem s) root va)).
Proof.
  intros Hi Hus Hp Hfl HN Ha H0 Hm Hperm Hlf Hne Hnone.
  kcall (map_page_spec s fl N root a p perm Hi Hp Ha H0 Hm Hperm Hlf Hnone). intros r s' (fl' & N' & Hev & Hr).
  destruct (evolves_apart _ _ _ _ _ _ _ p Hev Hfl HN) as [Hfl' HN']. exists fl', N'.
  pose proof (evolves_user _ _ _ _ _ _ _ Hi Hus Hev) as Hu.
  split_and!; [done| |done|done|destruct Hr as [?|(? & _ & ?)]; [by left|by right]].
  destruct Hr as [[_ Hl]|(_ & _ & Hl)].
  - eapply (with_page_space (k_mem s)); try done. intros va v Hva Hv Hvu. destruct (Hu va v Hva Hv Hvu) as (? & ? & _).
    split_and!; [by eapply Hne|done|done].
  - by apply (gw_us _ _ _ _ _ _ _ _ (evolves_grown s fl N root a perm s' fl' N' Hi Hus Hev Hl)).
Qed.

(** The entry of a translation. *)
Lemma walk_present m N root va v :
  pt_wf m N root → pt_lookup m root va = Some v → ∃ a, pt_leaf m root va = Some a ∧ a ≠ 0 ∧ ld64 m a = v.
Proof. intros Hwf Hl. destruct (lookup_leaf _ _ _ _ _ Hwf Hl) as (a & Ha & Hv & _ & _ & H0 & _). exists a. split_and!; [done|lia|done]. Qed.

Lemma PTE_FLAGS_bounds v : 0 ≤ PTE_FLAGS v < 2 ^ 10.
Proof. unfold PTE_FLAGS. change 0x3ff with (Z.ones 10). rewrite Z.land_ones by lia. by apply Z.mod_pos_bound. Qed.

Lemma pte_leaf_flags v : pte_leaf (PTE_FLAGS v) = pte_leaf v.
Proof. unfold pte_leaf, PTE_FLAGS. by rewrite <-Z.land_assoc. Qed.

(** A page mapped with the flags of another one. *)
Lemma flags_of_copy p v : is_page p → pte_valid v = true → PTE_FLAGS (mk_pte p (PTE_FLAGS v)) = PTE_FLAGS v.
Proof.
  intros [Hp _] Hv. rewrite PTE_FLAGS_mk_pte by (lia || apply PTE_FLAGS_bounds). rewrite pte_valid_testbit in Hv.
  apply Z.bits_inj_iff'. intros n Hn. rewrite Z.lor_spec. unfold PTE_FLAGS. rewrite Z.land_spec. change PTE_V with (2 ^ 0).
  rewrite Z.pow2_bits_eqb by lia. destruct (Z.eqb_spec 0 n) as [<-|]; [|done]. by rewrite Hv.
Qed.

(** ** The parent and the child *)

Section copy.
Context (s0 : kstate) (fl : list Z) (N Ns : gmap Z nat) (src dst size : Z).

(** The pages that are free or part of the child's table. *)
Definition child_page (q : Z) : Prop := q ∈ fl ∨ is_Some (N !! q).

(** The parent's memory, apart from the child's. *)
Record parent_ok : Prop := {
  pa_wf : pt_wf (k_mem s0) Ns src;
  pa_tables : ∀ q l, Ns !! q = Some l → ¬ child_page q;
  pa_pages : ∀ va v, 0 ≤ va → pt_lookup (k_mem s0) src va = Some v → pte_user v = true →
    is_page (PTE2PA v) ∧ ¬ child_page (PTE2PA v);
  pa_size : 0 ≤ size ≤ USER_STACK_BASE;
  pa_low : ∀ va, 0 ≤ va < PAGE_ROUND_UP size → ∃ v, pt_lookup (k_mem s0) src va = Some v ∧ pte_user v = true;
}.

Context (PO : parent_ok) (CO : uvm_ok s0 fl N dst 0).

Lemma child_page_page q : child_page q → is_page q.
Proof.
  intros [Hq|[l Hq]].
  - eapply fl_rep_page; [apply (mi_fl _ _ _ _ (uv_inv _ _ _ _ _ CO))|done].
  - by apply (wf_page _ _ _ (mi_pt _ _ _ _ (uv_inv _ _ _ _ _ CO)) q l).
Qed.

(** Changes of other pages leave the parent as it is. *)
Lemma parent_kept P m :
  mem_same P (k_mem s0) m → (∀ q, P q → is_page q) → (∀ q l, Ns !! q = Some l → ¬ P q) →
  pt_wf m Ns src ∧ (∀ va, pt_lookup m src va = pt_lookup (k_mem s0) src va) ∧
  ∀ va v, 0 ≤ va → pt_lookup (k_mem s0) src va = Some v → pte_user v = true → ¬ P (PTE2PA v) →
    ubyte m src va = ubyte (k_mem s0) src va.
Proof.
  intros Hm HP HN. destruct (pt_wf_ext (k_mem s0) m Ns src (pa_wf PO)) as [Hw Hl].
  { intros q l i Hq Hi. apply (ent_same P); [done|done|by apply (wf_page _ _ _ (pa_wf PO) q l)|by eapply HN|done]. }
  split_and!; [done|done|]. intros va v H0 Hv Hu Hn. eapply (ubyte_same P); [done|done|apply Hl|done|by apply (pa_pages PO va v)|done].
Qed.

(** The part below [a] has been copied. *)
Record copied (a : Z) (s : kstate) (fl' : list Z) (N' : gmap Z nat) : Prop := {
  cp_inv : mm_inv s fl' N' dst;
  cp_us : user_space (k_mem s) fl' N' dst;
  cp_only : only_mm s0 s;
  cp_sub : N ⊆ N';
  cp_mine : ∀ q, q ∈ fl' ∨ is_Some (N' !! q) → child_page q;
  cp_mem : mem_same child_page (k_mem s0) (k_mem s);
  cp_new : ∀ va, 0 ≤ va < a → ∃ v w, pt_lookup (k_mem s0) src va = Some v ∧ pt_lookup (k_mem s) dst va = Some w ∧
    PTE_FLAGS w = PTE_FLAGS v ∧ PTE2PA w ∈ fl ∧ ubyte (k_mem s) dst va = ubyte (k_mem s0) src va;
  cp_old : ∀ va, a ≤ va → pt_lookup (k_mem s) dst va = pt_lookup (k_mem s0) dst va;
}.

Lemma copied_nothing : copied 0 s0 fl N.
Proof.
  split; [apply CO|apply CO|apply only_mm_refl|done|done|apply mem_same_refl|intros; lia|done].
Qed.

Lemma copied_user a s fl' N' va :
  a ≤ PAGE_ROUND_UP size → copied a s fl' N' → 0 ≤ va < a → ∃ w, pt_lookup (k_mem s) dst va = Some w ∧ pte_user w = true.
Proof.
  intros Ha Hc Hva. destruct (cp_new _ _ _ _ Hc va Hva) as (v & w & Hv & Hw & Hf & _). exists w. split; [done|].
  destruct (pa_low PO va ltac:(lia)) as (v' & Hv' & Hu). simplify_eq. by rewrite pte_user_flags, Hf, <-pte_user_flags.
Qed.

(** ** When memory runs out *)

(** The child's translations are as they were, and so is the parent. *)
Definition given_back (s : kstate) : Prop :=
  ∃ fl' N', uvm_ok s fl' N' dst 0 ∧ only_mm s0 s ∧ mem_same child_page (k_mem s0) (k_mem s) ∧
    ∀ va, 0 ≤ va → pt_lookup (k_mem s) dst va = pt_lookup (k_mem s0) dst va.

Lemma copy_failed a s fl' N' :
  copied a s fl' N' → 0 ≤ a ≤ PAGE_ROUND_UP size → a mod PAGE_SIZE = 0 →
  runs (unmap_pages dst 0 a true;; mret (inr (-1))) s (λ (x : Z + Z) s', x = inr (-1) ∧ given_back s').
Proof.
  intros Hc Ha Hm. destruct (round_up_bounds size (pa_size PO)) as (Hb1 & _ & Hb3). pose proof (copied_user a s fl' N') as Hu.
  kstep. kcall (unmap_pages_release s fl' N' dst 0 a (cp_inv _ _ _ _ Hc) (cp_us _ _ _ _ Hc)); try done; try lia.
  { rewrite USER_STACK_BASE_eq in Hb3. change MAX_VADDR with 274877906944. lia. }
  { intros va Hva. apply Hu; [lia|done|lia]. }
  intros _ s' (fl2 & Hr). kstep. split; [done|].
  assert (∀ va, 0 ≤ va → pt_lookup (k_mem s') dst va = pt_lookup (k_mem s0) dst va) as Hl.
  { intros va Hva. rewrite (rl_lookup _ _ _ _ _ _ _ _ Hr) by done. unfold unmapped_range. case_decide as D.
    - symmetry. apply (uv_gap _ _ _ _ _ CO). change (PAGE_ROUND_UP 0) with 0. lia.
    - apply (cp_old _ _ _ _ Hc). lia. }
  exists fl2, N'. split_and!; [|eapply only_mm_trans; [apply (uv_inv _ _ _ _ _ CO)|apply Hc|apply Hr]| |done].
  - split; [apply Hr|apply Hr|apply CO|intros va; change (PAGE_ROUND_UP 0) with 0; lia|].
    intros va Hva. change (PAGE_ROUND_UP 0) with 0 in Hva. rewrite Hl by lia. by apply (uv_gap _ _ _ _ _ CO).
  - eapply mem_same_mono; [|apply (mem_same_trans _ _ _ _ _ (cp_mem _ _ _ _ Hc) (rl_mem _ _ _ _ _ _ _ _ Hr))].
    intros q [?|[Hq|(va & w & Hva & Hw & ->)]]; [done|apply (cp_mine _ _ _ _ Hc); by right|].
    destruct (cp_new _ _ _ _ Hc va ltac:(lia)) as (v & w' & _ & Hw' & _ & Hin & _). simplify_eq. by left.
Qed.

(** ** One page *)

Lemma mem_same_memmove m p pa : bytes_ok m → mem_same (eq p) m (memmove m p pa (Z.to_nat PAGE_SIZE)).
Proof.
  intros Hb a Ha. rewrite mget_memmove, decide_False; [done| |done]. specialize (Ha p eq_refl). unfold in_page in Ha.
  change (Z.of_nat (Z.to_nat PAGE_SIZE)) with PAGE_SIZE. done.
Qed.

(** A page [p] taken from the free list gets the bytes of the parent's page at [va]. *)
Lemma copied_page a s1 p l N1 s2 va v :
  0 ≤ a ≤ PAGE_ROUND_UP size → copied a s1 (p :: l) N1 → mm_inv s2 l N1 dst → only_mm s1 s2 → k_mem s2 = k_mem s1 → is_page p →
  N1 !! p = None → 0 ≤ va → pt_lookup (k_mem s0) src va = Some v → pte_user v = true →
  let s3 := set_k_mem (memmove (k_mem s2) p (PTE2PA v) (Z.to_nat PAGE_SIZE)) s2 in
  copied a s3 l N1 ∧ p ∈ fl ∧ (∀ i, 0 ≤ i < PAGE_SIZE → mget (k_mem s3) (p + i) = mget (k_mem s0) (PTE2PA v + i)) ∧
  ∀ va w, 0 ≤ va → pt_lookup (k_mem s3) dst va = Some w → pte_user w = true → PTE2PA w ≠ p.
Proof.
  intros Ha Hc I2 O2 M2 Hp HN Hva Hv Hu s3. pose proof Hc as [C1 C2 C3 C4 C5 C6 C7 C8].
  destruct (pa_pages PO va v Hva Hv Hu) as [Hpv Hnv]. pose proof (mi_bytes _ _ _ _ I2) as Hb.
  assert (mem_same (eq p) (k_mem s2) (k_mem s3)) as Hs by by apply mem_same_memmove.
  assert (p ∉ l) as Hpl by (pose proof (mi_nodup _ _ _ _ C1) as Hn; by apply NoDup_cons in Hn as [? _]).
  destruct (mm_inv_frame s2 s3 l N1 dst (eq p)) as (I3 & L3 & _); try done; [apply only_mm_mem|by apply memmove_bytes_ok|by intros ? <-|by intros q Hq <-|intros q k Hq <-; congruence|].
  assert (p ∈ fl) as Hpf.
  { destruct (C5 p ltac:(left; by left)) as [?|[k Hk]]; [done|]. pose proof (lookup_weaken _ _ _ _ Hk C4). congruence. }
  assert (∀ x, pt_lookup (k_mem s3) dst x = pt_lookup (k_mem s1) dst x) as L1 by (intros x; by rewrite L3, M2).
  assert (∀ x w, 0 ≤ x → pt_lookup (k_mem s1) dst x = Some w → pte_user w = true → PTE2PA w ≠ p ∧ ubyte (k_mem s3) dst x = ubyte (k_mem s1) dst x) as Hold.
  { intros x w Hx Hw Hwu. destruct (us_own _ _ _ _ C2 x w Hx Hw Hwu) as (Hpw & [Hne _]%not_elem_of_cons & _). split; [done|].
    rewrite M2 in Hs. eapply (ubyte_same (eq p)); [exact Hs|by intros ? <-|apply L1|done|done|congruence]. }
  split_and!; [|done| |].
  - split; [done| | |done| | | |].
    + split; [|intros x w x' w' H0 H1; rewrite !L1; by apply (us_inj _ _ _ _ C2)]. intros x w Hx. rewrite L1. intros Hw Hwu.
      by destruct (us_own _ _ _ _ C2 x w Hx Hw Hwu) as (? & [_ ?]%not_elem_of_cons & ?).
    + eapply only_mm_trans; [apply (uv_inv _ _ _ _ _ CO)|done|]. eapply only_mm_trans; [apply C1|done|apply only_mm_mem].
    + intros q [Hq|Hq]; apply C5; [left; by right|by right].
    + rewrite <-M2 in C6. eapply mem_same_mono; [|apply (mem_same_trans _ _ _ _ _ C6 Hs)]. intros q [?| <-]; [done|by left].
    + intros x Hx. destruct (C7 x Hx) as (v' & w & H1 & H2 & H3 & H4 & H5). exists v', w. rewrite L1. split_and!; try done.
      rewrite <-H5. apply (Hold x w); [lia|done|]. destruct (copied_user a s1 (p :: l) N1 x) as (w' & Hw' & Hwu); [lia|done|done|congruence].
    + intros x Hx. rewrite L1. by apply C8.
  - intros i Hi. cbn [s3 k_mem set_k_mem]. rewrite mget_memmove by done. rewrite decide_True by (change (Z.of_nat (Z.to_nat PAGE_SIZE)) with PAGE_SIZE; lia).
    replace (p + i - p) with i by lia. rewrite M2. apply C6. intros q Hq Hin. apply Hnv.
    rewrite (pages_disjoint (PTE2PA v) q (PTE2PA v + i)); [done|done|by apply child_page_page|unfold in_page; lia|done].
  - intros x w Hx. rewrite L1. intros Hw Hwu. by apply (Hold x w).
Qed.

(** What [evolves] keeps. *)
Lemma copied_evolves a s1 fl1 N1 s2 fl2 N2 :
  copied a s1 fl1 N1 → evolves dst s1 fl1 N1 s2 fl2 N2 →
  only_mm s0 s2 ∧ N ⊆ N2 ∧ (∀ q, q ∈ fl2 ∨ is_Some (N2 !! q) → child_page q) ∧ mem_same child_page (k_mem s0) (k_mem s2).
Proof.
  intros [C1 C2 C3 C4 C5 C6 C7 C8] Hev. assert (∀ q, q ∈ fl2 ∨ is_Some (N2 !! q) → child_page q) as Hm.
  { intros q [Hq|Hq]; apply C5; [left; by apply (evolves_sub _ _ _ _ _ _ _ Hev)|].
    destruct (ev_fl _ _ _ _ _ _ _ Hev) as (u & -> & Hu). destruct (proj1 (Hu q) Hq); [by right|left; apply elem_of_app; by left]. }
  split_and!; [eapply only_mm_trans; [apply (uv_inv _ _ _ _ _ CO)|done|apply Hev]|etrans; [done|apply Hev]|done|].
  eapply mem_same_mono; [|apply (mem_same_trans _ _ _ _ _ C6 (ev_mem _ _ _ _ _ _ _ Hev))].
  intros q [?|?]; [done|apply Hm; by right].
Qed.

Lemma copied_map a s1 fl1 N1 p v :
  0 ≤ a → a + PAGE_SIZE ≤ PAGE_ROUND_UP size → a mod PAGE_SIZE = 0 → copied a s1 fl1 N1 → is_page p → p ∉ fl1 → N1 !! p = None → p ∈ fl →
  pt_lookup (k_mem s0) src a = Some v → (∀ i, 0 ≤ i < PAGE_SIZE → mget (k_mem s1) (p + i) = mget (k_mem s0) (PTE2PA v + i)) →
  (∀ va w, 0 ≤ va → pt_lookup (k_mem s1) dst va = Some w → pte_user w = true → PTE2PA w ≠ p) →
  runs (map_pages dst a p PAGE_SIZE (PTE_FLAGS v)) s1 (λ r s', ∃ fl' N', (p ∉ fl') ∧ N' !! p = None ∧
    (r = 0 ∧ copied (a + PAGE_SIZE) s' fl' N' ∨
     r = -1 ∧ copied a s' fl' N' ∧ ∀ va w, 0 ≤ va → pt_lookup (k_mem s') dst va = Some w → pte_user w = true → PTE2PA w ≠ p)).
Proof.
  intros H0 Hsz Ha Hc Hp Hpl HN Hpf Hv Hbytes Hne. pose proof Hc as [C1 C2 C3 C4 C5 C6 C7 C8]. assert (0 < PAGE_SIZE) as Hps by done.
  destruct (round_up_bounds size (pa_size PO)) as (_ & _ & Hb3). destruct (lookup_leaf _ _ _ _ _ (pa_wf PO) Hv) as (_ & _ & _ & Hval & Hlf & _).
  kcall (map_user_page s1 fl1 N1 dst a p (PTE_FLAGS v) C1 C2 Hp Hpl HN Ha H0); [|apply PTE_FLAGS_bounds|by rewrite pte_leaf_flags|done| |].
  { rewrite USER_STACK_BASE_eq in Hb3. change MAX_VADDR with 274877906944. lia. }
  { intros va Hva. unfold in_one_page in Hva. rewrite C8 by lia. apply (uv_gap _ _ _ _ _ CO). change (PAGE_ROUND_UP 0) with 0. lia. }
  intros r s2 (fl2 & N2 & Hev & Hus & Hp2 & HN2 & Hr). exists fl2, N2. split_and!; [done|done|].
  destruct (copied_evolves a s1 fl1 N1 s2 fl2 N2 Hc Hev) as (O2 & S2 & M2 & E2). pose proof (evolves_user _ _ _ _ _ _ _ C1 C2 Hev) as Hub.
  assert (∀ va, 0 ≤ va < a → pt_lookup (k_mem s2) dst va = pt_lookup (k_mem s1) dst va → ∃ v w, pt_lookup (k_mem s0) src va = Some v ∧
    pt_lookup (k_mem s2) dst va = Some w ∧ PTE_FLAGS w = PTE_FLAGS v ∧ PTE2PA w ∈ fl ∧ ubyte (k_mem s2) dst va = ubyte (k_mem s0) src va) as Hlow.
  { intros va Hva El. destruct (C7 va Hva) as (v' & w & Q1 & Q2 & Q3 & Q4 & Q5). exists v', w. rewrite El. split_and!; try done. rewrite <-Q5.
    destruct (copied_user a s1 fl1 N1 va) as (w' & Hw' & Hwu); [lia|done|done|]. destruct (Hub va w' ltac:(lia) Hw' Hwu) as (_ & _ & Hbb). by apply Hbb. }
  destruct Hr as [[-> Hl]|[-> Hl]]; [left|right]; (split; [done|]).
  - split; [apply Hev|done|done|done|done|done| |].
    + intros va Hva. destruct (decide (va < a)) as [Hlt|Hge].
      { apply Hlow; [lia|]. rewrite Hl by lia. unfold with_page. rewrite decide_False; [done|]. unfold in_one_page. lia. }
      exists v, (mk_pte p (PTE_FLAGS v)). assert (pt_lookup (k_mem s2) dst va = Some (mk_pte p (PTE_FLAGS v))) as El.
      { rewrite Hl by lia. unfold with_page. rewrite decide_True; [done|]. unfold in_one_page. lia. }
      assert (va / PAGE_SIZE = a / PAGE_SIZE) as Epg by (apply same_page; [done|lia]).
      assert (pt_lookup (k_mem s0) src va = Some v) as Ev by (by rewrite (pt_lookup_page _ _ va a) by lia).
      split_and!; [done|done|by apply flags_of_copy|by rewrite PTE2PA_mk_pte by (done || apply PTE_FLAGS_bounds)|].
      unfold ubyte. rewrite El, Ev, PTE2PA_mk_pte by (done || apply PTE_FLAGS_bounds).
      pose proof (Z.mod_pos_bound va PAGE_SIZE ltac:(done)). by rewrite (evolves_page _ _ _ _ _ _ _ _ _ Hev), Hbytes.
    + intros va Hva. rewrite Hl by (unfold PAGE_SIZE in *; lia). unfold with_page. rewrite decide_False by (unfold in_one_page; lia). apply C8. unfold PAGE_SIZE in *. lia.
  - split; [|intros va w Hva; rewrite Hl by done; by apply Hne]. split; [apply Hev|done|done|done|done|done| |].
    + intros va Hva. apply Hlow; [done|apply Hl; lia].
    + intros va Hva. rewrite Hl by lia. by apply C8.
Qed.

(** A page that nobody has goes back to the free list; also nothing at all. *)
Lemma copied_back a s1 fl1 N1 s2 fl2 p :
  a ≤ PAGE_ROUND_UP size → copied a s1 fl1 N1 → mm_inv s2 fl2 N1 dst → only_mm s1 s2 → mem_same (eq p) (k_mem s1) (k_mem s2) →
  (∀ va, pt_lookup (k_mem s2) dst va = pt_lookup (k_mem s1) dst va) → is_page p → p ∈ fl →
  (∀ q, q ∈ fl2 → q = p ∨ q ∈ fl1) →
  (∀ va w, 0 ≤ va → pt_lookup (k_mem s1) dst va = Some w → pte_user w = true → PTE2PA w ≠ p) →
  copied a s2 fl2 N1.
Proof.
  intros Ha Hc I2 O2 S2 L2 Hp Hpf Hsub Hne. pose proof Hc as [C1 C2 C3 C4 C5 C6 C7 C8]. split; [done| | |done| | | |].
  - split; [|intros x w x' w' H0 H1; rewrite !L2; by apply (us_inj _ _ _ _ C2)]. intros x w Hx. rewrite L2. intros Hw Hwu.
    destruct (us_own _ _ _ _ C2 x w Hx Hw Hwu) as (? & ? & ?). split_and!; [done| |done].
    intros [E|?]%Hsub; [by apply (Hne x w)|done].
  - eapply only_mm_trans; [apply (uv_inv _ _ _ _ _ CO)|done|done].
  - intros q [[->|Hq]%Hsub|Hq]; [by left|apply C5; by left|apply C5; by right].
  - eapply mem_same_mono; [|apply (mem_same_trans _ _ _ _ _ C6 S2)]. intros q [?| <-]; [done|by left].
  - intros x Hx. destruct (C7 x Hx) as (v' & w & H1 & H2 & H3 & H4 & H5). exists v', w. rewrite L2. split_and!; try done. rewrite <-H5.
    destruct (copied_user a s1 fl1 N1 x) as (w' & Hw' & Hwu); [lia|done|done|]. assert (w' = w) as -> by congruence.
    eapply (ubyte_same (eq p)); [exact S2|by intros ? <-|apply L2|done|by apply (us_own _ _ _ _ C2 x w); [lia|..]|].
    intros E. by apply (Hne x w); [lia|..].
  - intros x Hx. rewrite L2. by apply C8.
Qed.

(** ** The loop *)

Lemma copy_round a s1 fl1 N1 :
  copied a s1 fl1 N1 → 0 ≤ a → a + PAGE_SIZE ≤ PAGE_ROUND_UP size → a mod PAGE_SIZE = 0 →
  let failed va := unmap_pages dst 0 va true;; mret (inr (-1)) in
  runs (pte ← walk src a false;
        if pte =? 0 then panic "walk invalid PTE" else
        v ← load64 pte;
        if Z.land v PTE_V =? 0 then panic "page not present" else
        mem ← pm_alloc;
        if mem =? 0 then failed a else
        upd_mem (λ m, memmove m mem (PTE2PA v) (Z.to_nat PAGE_SIZE));;
        r ← map_pages dst a mem PAGE_SIZE (PTE_FLAGS v);
        if negb (r =? 0) then pm_free mem;; failed a
        else mret (inl (u64 (a + PAGE_SIZE)))) s1
    (λ (x : Z + Z) s', match x with
       | inl a' => a' = a + PAGE_SIZE ∧ ∃ fl' N', copied (a + PAGE_SIZE) s' fl' N'
       | inr r => r = -1 ∧ given_back s'
       end).
Proof.
  intros Hc H0 Hsz Ha failed. assert (0 < PAGE_SIZE) as Hps by done.
  destruct (pa_low PO a ltac:(lia)) as (v & Hv & Hu). destruct (lookup_leaf _ _ _ _ _ (pa_wf PO) Hv) as (_ & _ & _ & Hval & _).
  destruct (parent_kept child_page (k_mem s1)) as (Hwf & Hl & _); [apply Hc|apply child_page_page|apply (pa_tables PO)|].
  destruct (walk_present _ _ _ a v Hwf) as (addr & El & En & Ev); [by rewrite Hl|].
  kstep. eapply runs_ok; [apply walk_noalloc|]. rewrite El. cbn [default from_option id]. rewrite (proj2 (Z.eqb_neq addr 0)) by done.
  unfold load64. kstep. kstep. rewrite Ev. unfold pte_valid in Hval. destruct (Z.land v PTE_V =? 0); [done|].
  kstep. kcall (pm_alloc_spec s1 fl1 N1 dst (cp_inv _ _ _ _ Hc)). intros mem s2 (fl2 & I2 & O2 & M2 & Hr). destruct fl1 as [|p l].
  - destruct Hr as [-> ->]. cbn [Z.eqb]. eapply runs_conseq; [apply (copy_failed a s2 [] N1); [|lia|done]|].
    + pose proof Hc as [C1 C2 C3 C4 C5 C6 C7 C8]. split; rewrite ?M2; try done. eapply only_mm_trans; [apply (uv_inv _ _ _ _ _ CO)|done|done].
    + by intros x s' [-> ?].
  - destruct Hr as (-> & -> & Hp & HN & Hpl). rewrite (proj2 (Z.eqb_neq p 0)) by (destruct Hp; lia).
    destruct (copied_page a s1 p l N1 s2 a v) as (C3 & Hpf & Hbytes & Hne); [lia|done..|].
    unfold upd_mem. kstep. kstep. kstep. set (s3 := set_k_mem _ s2) in *.
    kcall (copied_map a s3 l N1 p v); [done..|]. intros r s4 (fl4 & N4 & Hp4 & HN4 & Hr). destruct Hr as [[-> C4]|(-> & C4 & Hne4)]; cbn [negb Z.eqb].
    + kstep. destruct (round_up_bounds size (pa_size PO)) as (_ & _ & Hb3). rewrite USER_STACK_BASE_eq in Hb3.
      rewrite (wrap_small 64) by (unfold PAGE_SIZE in *; lia). by split; [|exists fl4, N4].
    + kstep. kcall (pm_free_spec s4 fl4 N4 dst p (cp_inv _ _ _ _ C4) Hp HN4 Hp4). intros _ s5 (I5 & O5 & S5 & L5 & _).
      eapply runs_conseq; [apply (copy_failed a s5 (p :: fl4) N4); [|lia|done]|by intros x s' [-> ?]].
      eapply (copied_back a s4 fl4 N4 s5 (p :: fl4) p); try done; [lia|]. by intros q ?%elem_of_cons.
Qed.

(** ** The stack *)

(** Both processes have a stack, and no user page of the child is the parent's. *)
Record stacks_ok (v w : Z) : Prop := {
  sk_src : pt_lookup (k_mem s0) src USER_STACK_BASE = Some v;
  sk_src_user : pte_user v = true;
  sk_dst : pt_lookup (k_mem s0) dst USER_STACK_BASE = Some w;
  sk_dst_user : pte_user w = true;
  sk_apart : ∀ va w, 0 ≤ va → pt_lookup (k_mem s0) dst va = Some w → pte_user w = true →
    Ns !! PTE2PA w = None ∧ ∀ va' v, 0 ≤ va' → pt_lookup (k_mem s0) src va' = Some v → pte_user v = true → PTE2PA v ≠ PTE2PA w;
}.

(** What the child has, and that the parent has kept everything. *)
Record memory_copied (s : kstate) (fl' : list Z) (N' : gmap Z nat) : Prop := {
  mc_uvm : uvm_ok s fl' N' dst size;
  mc_only : only_mm s0 s;
  mc_low : ∀ va, 0 ≤ va < PAGE_ROUND_UP size → ∃ v w, pt_lookup (k_mem s0) src va = Some v ∧ pt_lookup (k_mem s) dst va = Some w ∧
    PTE_FLAGS w = PTE_FLAGS v ∧ ubyte (k_mem s) dst va = ubyte (k_mem s0) src va;
  mc_high : ∀ va, PAGE_ROUND_UP size ≤ va → pt_lookup (k_mem s) dst va = pt_lookup (k_mem s0) dst va;
  mc_stack : ∀ va, in_one_page USER_STACK_BASE va → ubyte (k_mem s) dst va = ubyte (k_mem s0) src va;
  mc_parent : ∀ va, pt_lookup (k_mem s) src va = pt_lookup (k_mem s0) src va;
  mc_bytes : ∀ va v, 0 ≤ va → pt_lookup (k_mem s0) src va = Some v → pte_user v = true → ubyte (k_mem s) src va = ubyte (k_mem s0) src va;
  mc_apart : ∀ va va' v w, 0 ≤ va → 0 ≤ va' → pt_lookup (k_mem s) src va = Some v → pte_user v = true →
    pt_lookup (k_mem s) dst va' = Some w → pte_user w = true → PTE2PA v ≠ PTE2PA w;
}.

Lemma copy_user_stack_spec s fl' N' v w :
  copied (PAGE_ROUND_UP size) s fl' N' → stacks_ok v w →
  runs (copy_user_stack dst src) s (λ _ s', s' = set_k_mem (memmove (k_mem s) (PTE2PA w) (PTE2PA v) (Z.to_nat PAGE_SIZE)) s).
Proof.
  intros Hc [K1 K2 K3 K4 K5]. destruct (round_up_bounds size (pa_size PO)) as (_ & _ & Hb3).
  destruct (parent_kept child_page (k_mem s)) as (Hwf & Hl & _); [apply Hc|apply child_page_page|apply (pa_tables PO)|].
  unfold copy_user_stack, upd_mem. kstep. eapply runs_ok; [by apply (uvm_walk_addr_eq s N'); [apply (cp_inv _ _ _ _ Hc)|]|].
  rewrite (cp_old _ _ _ _ Hc), K3, K4 by done. kstep. eapply runs_ok; [by apply (uvm_walk_addr_eq s Ns)|]. rewrite Hl, K1, K2. by kstep.
Qed.

(** The child's stack page is written, and nothing else. *)
Lemma stack_page s fl' N' v w :
  copied (PAGE_ROUND_UP size) s fl' N' → stacks_ok v w →
  let s' := set_k_mem (memmove (k_mem s) (PTE2PA w) (PTE2PA v) (Z.to_nat PAGE_SIZE)) s in
  mm_inv s' fl' N' dst ∧ only_mm s0 s' ∧ (∀ va, pt_lookup (k_mem s') dst va = pt_lookup (k_mem s) dst va) ∧
  mem_same (eq (PTE2PA w)) (k_mem s) (k_mem s') ∧ is_page (PTE2PA w) ∧ (PTE2PA w ∉ fl) ∧
  (∀ va, pt_lookup (k_mem s') src va = pt_lookup (k_mem s0) src va) ∧
  ∀ va v, 0 ≤ va → pt_lookup (k_mem s0) src va = Some v → pte_user v = true → ubyte (k_mem s') src va = ubyte (k_mem s0) src va.
Proof.
  intros Hc K. pose proof K as [K1 K2 K3 K4 K5]. pose proof Hc as [C1 C2 C3 C4 C5 C6 C7 C8]. intros s'.
  destruct (round_up_bounds size (pa_size PO)) as (_ & _ & Hb3). pose proof (mi_bytes _ _ _ _ C1) as Hb.
  destruct (us_own _ _ _ _ (uv_us _ _ _ _ _ CO) USER_STACK_BASE w ltac:(done) K3 K4) as (Hp & Hpf & HpN).
  destruct (us_own _ _ _ _ C2 USER_STACK_BASE w ltac:(done)) as (_ & Hpf' & HpN'); [by rewrite C8|done|].
  assert (mem_same (eq (PTE2PA w)) (k_mem s) (k_mem s')) as Hs by by apply mem_same_memmove.
  destruct (mm_inv_frame s s' fl' N' dst (eq (PTE2PA w))) as (I' & L' & _); try done;
    [apply only_mm_mem|by apply memmove_bytes_ok|by intros ? <-|by intros q Hq <-|intros q k Hq <-; congruence|].
  destruct (parent_kept (λ q, child_page q ∨ PTE2PA w = q) (k_mem s')) as (_ & Ls & Us).
  - apply (mem_same_trans _ _ _ _ _ C6 Hs).
  - intros q [?| <-]; [by apply child_page_page|done].
  - intros q l Hq [Hch| <-]; [by eapply (pa_tables PO)|]. destruct (K5 USER_STACK_BASE w) as [? _]; [done..|congruence].
  - split_and!; try done; [by eapply only_mm_trans; [apply (uv_inv _ _ _ _ _ CO)|done|apply only_mm_mem]|].
    intros va v' Hva Hv' Hu'. apply (Us va v'); try done. intros [Hch|E]; [by apply (pa_pages PO va v')|].
    destruct (K5 USER_STACK_BASE w) as [_ Hne]; [done..|]. by apply (Hne va v').
Qed.

Lemma stack_copied s fl' N' v w :
  copied (PAGE_ROUND_UP size) s fl' N' → stacks_ok v w →
  memory_copied (set_k_mem (memmove (k_mem s) (PTE2PA w) (PTE2PA v) (Z.to_nat PAGE_SIZE)) s) fl' N'.
Proof.
  intros Hc K. destruct (stack_page s fl' N' v w Hc K) as (I' & O' & L' & Hs & Hp & Hpf & Ls & Us). set (s' := set_k_mem _ s) in *.
  pose proof K as [K1 K2 K3 K4 K5]. pose proof Hc as [C1 C2 C3 C4 C5 C6 C7 C8].
  destruct (round_up_bounds size (pa_size PO)) as (Hb1 & Hb2 & Hb3). assert (0 < PAGE_SIZE) as Hps by done.
  destruct (parent_kept child_page (k_mem s) C6 child_page_page (pa_tables PO)) as (_ & Hl & Hub).
  split.
  - split; [done| |apply (pa_size PO)| |].
    + split; [intros va w'|intros va w1 va' w2]; rewrite ?L'; [apply (us_own _ _ _ _ C2)|apply (us_inj _ _ _ _ C2)].
    + intros va Hva. rewrite L'. by apply (copied_user (PAGE_ROUND_UP size) s fl' N').
    + intros va Hva. rewrite L', C8 by lia. apply (uv_gap _ _ _ _ _ CO). change (PAGE_ROUND_UP 0) with 0. pose proof (pa_size PO). lia.
  - done.
  - intros va Hva. destruct (C7 va Hva) as (v' & w' & H1 & H2 & H3 & H4 & H5). exists v', w'. rewrite L'. split_and!; try done. rewrite <-H5.
    destruct (copied_user (PAGE_ROUND_UP size) s fl' N' va) as (w2 & Hw2 & Hu2); [lia|done|done|]. assert (w2 = w') as -> by congruence.
    destruct (us_own _ _ _ _ C2 va w' ltac:(lia) Hw2 Hu2) as (Hpw & _ & _).
    eapply (ubyte_same (eq (PTE2PA w))); [exact Hs|by intros ? <-|apply L'|done|done|]. intros E. by rewrite <-E in H4.
  - intros va Hva. rewrite L'. by apply C8.
  - intros va Hva. assert (va / PAGE_SIZE = USER_STACK_BASE / PAGE_SIZE) as Epg by (apply same_page; [done|exact Hva]).
    assert (0 ≤ va) as Hva0 by (unfold in_one_page in Hva; rewrite USER_STACK_BASE_eq in Hva; lia).
    assert (pt_lookup (k_mem s0) src va = Some v) as E1 by (by rewrite (pt_lookup_page _ _ va USER_STACK_BASE)).
    assert (pt_lookup (k_mem s) dst va = Some w) as E2 by (rewrite (pt_lookup_page _ _ va USER_STACK_BASE), C8 by done; done).
    destruct (pa_pages PO va v Hva0 E1 K2) as [_ Hnv]. rewrite <-(Hub va v) by done. unfold ubyte. rewrite L', E2, Hl, E1.
    pose proof (Z.mod_pos_bound va PAGE_SIZE Hps). cbn [s' k_mem set_k_mem]. rewrite mget_memmove by apply C1.
    rewrite decide_True by (change (Z.of_nat (Z.to_nat PAGE_SIZE)) with PAGE_SIZE; lia). f_equal. lia.
  - done.
  - done.
  - intros va va' v' w' H0 H1. rewrite Ls, L'. intros Hv Hu Hw Hwu E. destruct (decide (va' < PAGE_ROUND_UP size)) as [Hlt|Hge].
    + destruct (C7 va' ltac:(lia)) as (v2 & w2 & _ & Hw2 & _ & Hin & _). simplify_eq. apply (pa_pages PO va v' H0 Hv Hu). left. by rewrite E.
    + rewrite C8 in Hw by lia. destruct (K5 va' w' H1 Hw Hwu) as [_ Hne]. by apply (Hne va v').
Qed.

(** [copy_user_page_table]. *)
Lemma copy_user_page_table_spec v w :
  stacks_ok v w →
  runs (copy_user_page_table dst src size) s0 (λ r s', r = 0 ∧ (∃ fl' N', memory_copied s' fl' N') ∨ r = -1 ∧ given_back s').
Proof.
  intros K. destruct (round_up_bounds size (pa_size PO)) as (Hb1 & Hb2 & Hb3). pose proof (pa_size PO) as Hsz. unfold copy_user_page_table.
  apply (runs_loop (λ a s, (0 ≤ a ≤ PAGE_ROUND_UP size ∧ a mod PAGE_SIZE = 0) ∧ ∃ fl' N', copied a s fl' N') (pages_left (PAGE_ROUND_UP size))).
  2: { split; [split; [lia|done]|]. exists fl, N. apply copied_nothing. }
  2: { unfold pages_left, pages_fuel, PAGE_SIZE in *. Z.to_euclidean_division_equations; lia. }
  intros a s ([Ha Hm] & fl1 & N1 & Hc). destruct (Z.ltb_spec a size) as [Hlt|Hge].
  - assert (a + PAGE_SIZE ≤ PAGE_ROUND_UP size) by (apply aligned_lt; lia || done).
    kcall (copy_round a s fl1 N1 Hc); [lia|done|done|]. intros [a'|r] s'.
    + intros (-> & fl' & N' & Hc'). split; [|by apply pages_left_next]. split; [split; [unfold PAGE_SIZE in *; lia|by apply aligned_next]|]. by exists fl', N'.
    + intros [-> Hg]. right. by split.
  - assert (a = PAGE_ROUND_UP size) as -> by (unfold PAGE_SIZE in *; Z.to_euclidean_division_equations; lia).
    kstep. kcall (copy_user_stack_spec s fl1 N1 v w Hc K). intros _ s' ->. kstep. left. split; [done|]. exists fl1, N1. by apply stack_copied.
Qed.
End copy.

(** ** A new table and the table of a process *)

Section ready.
Context (trampoline : Z) (Htr : is_page trampoline).

Lemma user_table_uvm tf fl0 s root s' fl N stack :
  user_table trampoline tf fl0 s root s' fl N stack → uvm_ok s' fl N root 0.
Proof.
  intros [U1 _ _ U4 _ _ _ _ U9 _]. split; [done|done|done|intros va; change (PAGE_ROUND_UP 0) with 0; lia|].
  intros va Hva. change (PAGE_ROUND_UP 0) with 0 in Hva. rewrite U9 by lia. unfold user_layout, with_page.
  rewrite !decide_False by layout_lia. done.
Qed.

Lemma fork_stack tf fl0 s root s' fl N stack :
  user_table trampoline tf fl0 s root s' fl N stack → is_page stack →
  pt_lookup (k_mem s') root USER_STACK_BASE = Some (mk_pte stack (Z.lor (Z.lor PTE_U PTE_W) PTE_R)) ∧
  pte_user (mk_pte stack (Z.lor (Z.lor PTE_U PTE_W) PTE_R)) = true.
Proof.
  intros U [Hs _]. rewrite (ut_lookup _ _ _ _ _ _ _ _ _ U) by done. unfold user_layout, with_page. rewrite decide_True by layout_lia.
  split; [done|]. rewrite pte_user_flags, PTE_FLAGS_mk_pte; [done|lia|done].
Qed.

(** After [get_user_page_table] the copy can begin. *)
Lemma fork_ready s fl Ns src size v tf root s' fl' N' stack :
  uvm_ok s fl Ns src size → pt_lookup (k_mem s) src USER_STACK_BASE = Some v → pte_user v = true → is_page tf →
  user_table trampoline tf fl s root s' fl' N' stack →
  parent_ok s' fl' N' Ns src size ∧ uvm_ok s' fl' N' root 0 ∧ stacks_ok s' Ns src root v (mk_pte stack (Z.lor (Z.lor PTE_U PTE_W) PTE_R)) ∧
  (∀ va, pt_lookup (k_mem s') src va = pt_lookup (k_mem s) src va) ∧
  ∀ va v, 0 ≤ va → pt_lookup (k_mem s) src va = Some v → pte_user v = true → ubyte (k_mem s') src va = ubyte (k_mem s) src va.
Proof.
  intros [V1 V2 V3 V4 V5] Hv Hu Htf Hut. pose proof (user_table_uvm _ _ _ _ _ _ _ _ Hut) as Huvm. pose proof Hut as [U1 [U2 U2'] U3 U4 U5 U6 U7 U8 U9 _].
  assert (∀ q, child_page fl' N' q → q ∈ fl) as Hch by (intros q [?|?]; [by apply U6|by apply U3]).
  destruct (pt_wf_ext (k_mem s) (k_mem s') Ns src (mi_pt _ _ _ _ V1)) as [Hwf Hl].
  { intros q l i Hq Hi. apply (ent_same (λ q, q ∈ fl)); [done| |by apply (wf_page _ _ _ (mi_pt _ _ _ _ V1) q l)| |done].
    - intros z Hz. eapply fl_rep_page; [apply (mi_fl _ _ _ _ V1)|done].
    - intros Hin. by rewrite (mi_disj _ _ _ _ V1 q Hin) in Hq. }
  split_and!; [|done| |done|].
  - split; [done| | |done|].
    + intros q l Hq Hc. by rewrite (mi_disj _ _ _ _ V1 q (Hch q Hc)) in Hq.
    + intros va w Hva. rewrite Hl. intros Hw Hwu. destruct (us_own _ _ _ _ V2 va w Hva Hw Hwu) as (? & Hn & _). split; [done|]. by intros ?%Hch.
    + intros va Hva. rewrite Hl. by apply V4.
  - split; [by rewrite Hl|done| | |].
    + apply (fork_stack _ _ _ _ _ _ _ _ Hut). eapply fl_rep_page; [apply (mi_fl _ _ _ _ V1)|done].
    + apply (fork_stack _ _ _ _ _ _ _ _ Hut). eapply fl_rep_page; [apply (mi_fl _ _ _ _ V1)|done].
    + intros va w Hva. rewrite U9 by done. intros Hw Hwu. destruct (user_layout_user trampoline Htr tf stack va w Htf Hw Hwu) as [_ ->].
      rewrite PTE2PA_mk_pte; [|eapply fl_rep_page; [apply (mi_fl _ _ _ _ V1)|done]|done]. split; [by apply (mi_disj _ _ _ _ V1)|].
      intros va' v' Hva'. rewrite Hl. intros Hv' Hu' E. destruct (us_own _ _ _ _ V2 va' v' Hva' Hv' Hu') as (_ & Hn & _). by rewrite E in Hn.
  - intros va w Hva Hw Hwu. destruct (us_own _ _ _ _ V2 va w Hva Hw Hwu) as (Hp & Hn & _).
    eapply (ubyte_same (λ q, q ∈ fl)); [done| |apply Hl|done|done|done]. intros z Hz. eapply fl_rep_page; [apply (mi_fl _ _ _ _ V1)|done].
Qed.
End ready.
