(* ===== verification/MmFree.v ===== *)
(** Releasing a page table ([free_page_table], [uvm_free] and
    [free_user_page_table] of kernel/mm/mm.c): every page of the table goes back
    to the free list, exactly once. *)

From S2P Require Import Prelude Mem State Machine Mm PageTable MmAlloc MmMap MmUser MmUvm MmInit MmTheorems UserTable.

(** ** The pages of a table *)

(** The pages that are reached from the table [p] of level [k], and those that are
    reached through its entry [i]. *)
Fixpoint pt_pages (m : memory) (k : nat) (p : Z) : list Z :=
  p :: flat_map (λ i, match k with
                      | O => []
                      | S k => if pte_valid (ent m p i) then pt_pages m k (PTE2PA (ent m p i)) else []
                      end) (seqZ 0 512).

Definition below (m : memory) (k : nat) (p i : Z) : list Z :=
  match k with
  | O => []
  | S k => if pte_valid (ent m p i) then pt_pages m k (PTE2PA (ent m p i)) else []
  end.

Lemma pt_pages_eq m k p : pt_pages m k p = p :: flat_map (below m k p) (seqZ 0 512).
Proof. by destruct k. Qed.

(** No entry of the last level is valid, and the others are no leaves. *)
Fixpoint bare_table (m : memory) (k : nat) (p : Z) : Prop :=
  ∀ i, 0 ≤ i < 512 → pte_valid (ent m p i) = true →
    match k with
    | O => False
    | S k => pte_leaf (ent m p i) = false ∧ bare_table m k (PTE2PA (ent m p i))
    end.

Lemma bare_table_eq m k p i :
  bare_table m k p → 0 ≤ i < 512 → pte_valid (ent m p i) = true →
  ∃ k', k = S k' ∧ pte_leaf (ent m p i) = false ∧ bare_table m k' (PTE2PA (ent m p i)).
Proof. intros Hb Hi Hv. destruct k as [|k]; [by destruct (Hb i Hi Hv)|]. destruct (Hb i Hi Hv) as [H1 H2]. by exists k. Qed.

Lemma elem_of_flat_map {A B} (f : A → list B) l y : y ∈ flat_map f l ↔ ∃ x, x ∈ l ∧ y ∈ f x.
Proof.
  rewrite list_elem_of_In, in_flat_map. split; intros (x & H1 & H2); exists x; by rewrite ?list_elem_of_In in *.
Qed.

Lemma elem_of_pt_pages m k p q :
  q ∈ pt_pages m k p ↔ q = p ∨ ∃ i, 0 ≤ i < 512 ∧ q ∈ below m k p i.
Proof.
  rewrite pt_pages_eq, elem_of_cons, elem_of_flat_map. f_equiv. split; intros (i & Hi & Hq); exists i.
  - apply elem_of_seqZ in Hi. split; [lia|done].
  - rewrite elem_of_seqZ. split; [lia|done].
Qed.

(** Changes of other pages. *)
Lemma pt_pages_same P m m' k : ∀ p,
  mem_same P m m' → (∀ q, P q → is_page q) → (∀ q, q ∈ pt_pages m k p → is_page q ∧ ¬ P q) →
  pt_pages m' k p = pt_pages m k p ∧ (bare_table m k p → bare_table m' k p).
Proof.
  induction k as [|k IH]; intros p Hm HP Hq.
  - destruct (Hq p) as [Hp HnP]; [apply elem_of_pt_pages; by left|]. split; [done|].
    intros Hb i Hi. rewrite (ent_same P m m' p i) by done. by apply Hb.
  - destruct (Hq p) as [Hp HnP]; [apply elem_of_pt_pages; by left|].
    assert (∀ i, 0 ≤ i < 512 → ent m' p i = ent m p i) as He by (intros i Hi; by apply (ent_same P)).
    assert (∀ i, 0 ≤ i < 512 → pte_valid (ent m p i) = true →
      pt_pages m' k (PTE2PA (ent m p i)) = pt_pages m k (PTE2PA (ent m p i)) ∧
      (bare_table m k (PTE2PA (ent m p i)) → bare_table m' k (PTE2PA (ent m p i)))) as Hrec.
    { intros i Hi Hv. apply IH; [done|done|]. intros q Hin. apply Hq, elem_of_pt_pages. right. exists i. split; [done|]. cbn [below]. by rewrite Hv. }
    split.
    + rewrite !pt_pages_eq. f_equal. rewrite !flat_map_concat_map. f_equal. apply map_ext_in. intros i Hi%list_elem_of_In%elem_of_seqZ.
      cbn [below]. rewrite He by lia. destruct (pte_valid (ent m p i)) eqn:Hv; [|done]. apply Hrec; [lia|done].
    + intros Hb i Hi. rewrite He by done. intros Hv. destruct (Hb i Hi Hv) as [H1 H2]. split; [done|]. by apply Hrec.
Qed.

Lemma alloc_frame s s' fl (P : Z → Prop) :
  alloc_inv s fl → only_mm s s' → k_free s' = k_free s → bytes_ok (k_mem s') → mem_same P (k_mem s) (k_mem s') →
  (∀ p, P p → is_page p) → (∀ p, p ∈ fl → ¬ P p) → alloc_inv s' fl.
Proof.
  intros [H1 H2 H3 H4 H5 H6] Ho Hf Hb Hs HP Hfl. destruct (only_mm_hart _ _ H1 Ho) as (Hh & Hn & _). split; try done.
  - by rewrite Hn.
  - destruct H3 as [name H3]. exists name. by rewrite (only_mm_locks _ _ Ho).
  - rewrite Hf. eapply fl_rep_ext; [|done]. intros p Hp. apply (ent_same P); [done|done|by eapply fl_rep_page|by apply Hfl|lia].
Qed.

(** ** [free_page_table] *)

Section free.
Context (s0 : kstate) (fl : list Z) (k : nat) (p : Z).
Let m := k_mem s0.
Context (Ha0 : alloc_inv s0 fl) (Hb : bare_table m k p) (HT : ∀ q, q ∈ pt_pages m k p → is_page q ∧ q ∉ fl) (Hnd : NoDup (pt_pages m k p)).

(** The subtrees of the entries [done] have been released. *)
Record freed (done : list Z) (s : kstate) (fl' : list Z) : Prop := {
  fd_inv : alloc_inv s fl';
  fd_fl : fl' ≡ₚ flat_map (below m k p) done ++ fl;
  fd_only : only_mm s0 s;
  fd_mem : mem_same (λ q, q = p ∨ q ∈ flat_map (below m k p) done) m (k_mem s);
  fd_ent : ∀ i, 0 ≤ i < 512 → i ∉ done → ent (k_mem s) p i = ent m p i;
}.

Lemma tree_split pre i post :
  seqZ 0 512 = pre ++ i :: post →
  (0 ≤ i < 512) ∧ (i ∉ pre) ∧ (p ∉ flat_map (below m k p) pre) ∧ (p ∉ below m k p i) ∧
  (∀ q, q ∈ below m k p i → q ∉ flat_map (below m k p) pre) ∧ NoDup (below m k p i) ∧
  (∀ q, q = p ∨ q ∈ flat_map (below m k p) pre ∨ q ∈ below m k p i → is_page q ∧ q ∉ fl).
Proof.
  intros E. pose proof Hnd as Hnd'. rewrite pt_pages_eq, E, flat_map_app in Hnd'. cbn [flat_map] in Hnd'.
  apply NoDup_cons in Hnd' as [Hp Hnd']. rewrite !elem_of_app in Hp. apply NoDup_app in Hnd' as (N1 & N2 & N3).
  apply NoDup_app in N3 as (N3 & _ & _).
  assert (NoDup (seqZ 0 512)) as Hs by apply NoDup_seqZ. rewrite E in Hs. apply NoDup_app in Hs as (_ & Hs & _).
  assert (i ∈ seqZ 0 512) as Hin by (rewrite E; apply elem_of_app; right; by left). apply elem_of_seqZ in Hin.
  split_and!; try tauto; try lia.
  - intros Hi. apply (Hs i Hi). by left.
  - intros q Hq Hpre. apply (N2 q Hpre). apply elem_of_app. by left.
  - intros q Hq. apply HT. rewrite pt_pages_eq, E, flat_map_app. cbn [flat_map]. rewrite elem_of_cons, !elem_of_app. tauto.
Qed.

Lemma freed_nothing : freed [] s0 fl.
Proof. split; [done|done|apply only_mm_refl|apply mem_same_refl|done]. Qed.

(** What releasing a smaller table does. *)
Definition frees (f : nat) : Prop := ∀ c s fl1, alloc_inv s fl1 → bare_table (k_mem s) f c →
  (∀ q, q ∈ pt_pages (k_mem s) f c → is_page q ∧ q ∉ fl1) → NoDup (pt_pages (k_mem s) f c) →
  runs (free_page_table (S f) c) s (λ _ s', ∃ fl', alloc_inv s' fl' ∧ fl' ≡ₚ pt_pages (k_mem s) f c ++ fl1 ∧
    confined (pt_pages (k_mem s) f c) s s').

Lemma freed_keep pre i post s fl' :
  seqZ 0 512 = pre ++ i :: post → freed pre s fl' → pte_valid (ent m p i) = false → freed (pre ++ [i]) s fl'.
Proof.
  intros E [F1 F2 F3 F4 F5] Hv. assert (flat_map (below m k p) (pre ++ [i]) = flat_map (below m k p) pre) as Ef.
  { rewrite flat_map_app. cbn [flat_map]. assert (below m k p i = []) as ->; [|by rewrite !app_nil_r].
    unfold below. destruct k; [done|]. by rewrite Hv. }
  split; rewrite ?Ef; try done. intros j Hj Hn. apply F5; [done|]. intros Hin. apply Hn, elem_of_app. by left.
Qed.

Lemma freed_sub k' pre i post s fl' :
  k = S k' → frees k' → seqZ 0 512 = pre ++ i :: post → freed pre s fl' → pte_valid (ent m p i) = true →
  runs (free_page_table k (PTE2PA (ent m p i));; store64 (pte_at p i) 0) s (λ _ s', ∃ fl'', freed (pre ++ [i]) s' fl'').
Proof.
  intros Ek IH E [F1 F2 F3 F4 F5] Hv. destruct (tree_split pre i post E) as (Hi & Hipre & Hppre & Hpi & Hdis & Hnd1 & Hpg).
  destruct (bare_table_eq m k p i Hb Hi Hv) as (k2 & Ek2 & _ & Hbc). assert (k2 = k') as -> by congruence. clear Ek2.
  assert (below m k p i = pt_pages m k' (PTE2PA (ent m p i))) as Ebl by (unfold below; subst k; by rewrite Hv).
  set (c := PTE2PA (ent m p i)) in *. rewrite Ebl in *.
  destruct (pt_pages_same (λ q, q = p ∨ q ∈ flat_map (below m k p) pre) m (k_mem s) k' c F4) as [Ep Hbare].
  { intros q Hq. apply Hpg. tauto. }
  { intros q Hq. destruct (Hpg q ltac:(tauto)) as [? _]. split; [done|]. intros [->|Hq2]; [done|by apply (Hdis q)]. }
  assert (is_page p) as Hpp by (apply Hpg; by left).
  kstep. rewrite Ek at 1. kcall (IH c s fl' F1 (Hbare Hbc)).
  { rewrite Ep. intros q Hq. destruct (Hpg q ltac:(tauto)) as [? Hfl]. split; [done|]. rewrite F2, elem_of_app.
    intros [Hq2|?]; [by apply (Hdis q)|done]. }
  { by rewrite Ep. }
  rewrite Ep. intros _ s2 (fl2 & A2 & P2 & O2 & M2). unfold store64, upd_mem. kstep. set (s3 := set_k_mem _ s2).
  pose proof (mem_same_stn (k_mem s2) p i 0 Hi) as M3. change (st64 (k_mem s2) (pte_at p i) 0) with (k_mem s3) in M3.
  assert (fl2 ≡ₚ flat_map (below m k p) (pre ++ [i]) ++ fl) as Hfl2.
  { rewrite P2, F2, flat_map_app. cbn [flat_map]. rewrite Ebl, app_nil_r, !app_assoc. f_equiv. apply Permutation_app_comm. }
  assert (p ∉ fl2) as Hpfl.
  { rewrite P2, F2, !elem_of_app. destruct (Hpg p ltac:(by left)) as [_ ?]. tauto. }
  exists fl2. split; [|done| | |].
  - eapply (alloc_frame s2 s3 fl2 (eq p)); [done|apply only_mm_mem|done|apply stn_bytes_ok, A2|done|by intros ? <-|by intros q Hq <-].
  - eapply only_mm_trans; [apply Ha0|exact F3|]. eapply only_mm_trans; [apply F1|exact O2|apply only_mm_mem].
  - eapply mem_same_mono; [|apply (mem_same_trans _ _ _ _ _ F4 (mem_same_trans _ _ _ _ _ M2 M3))].
    intros q. rewrite flat_map_app, elem_of_app. cbn [flat_map]. rewrite Ebl, app_nil_r. intros [[?|?]|[?|?]]; [by left|by right; left|by right; right|by left].
  - intros j Hj Hn. rewrite elem_of_app, list_elem_of_singleton in Hn. cbn [s3 k_mem set_k_mem]. rewrite ent_store by (done || lia).
    rewrite decide_False by (intros [_ ->]; tauto). rewrite (ent_same (λ q, q ∈ pt_pages m k' c) (k_mem s) (k_mem s2)); [|done| |done|done|done].
    + apply F5; [done|tauto].
    + intros q Hq. apply Hpg. tauto.
Qed.

Lemma freed_step pre i post s fl' :
  (∀ k', k = S k' → frees k') → seqZ 0 512 = pre ++ i :: post → freed pre s fl' →
  runs (pte ← load64 (pte_at p i);
        if negb (Z.land pte PTE_V =? 0) && (Z.land pte (Z.lor (Z.lor PTE_R PTE_W) PTE_X) =? 0)
        then free_page_table k (PTE2PA pte);; store64 (pte_at p i) 0
        else if negb (Z.land pte PTE_V =? 0) then panic "free a page table in use"
        else mret tt) s (λ _ s', ∃ fl'', freed (pre ++ [i]) s' fl'').
Proof.
  intros IH E Hf. destruct (tree_split pre i post E) as (Hi & Hipre & _). unfold load64. kstep. kstep.
  fold (ent (k_mem s) p i). rewrite (fd_ent _ _ _ Hf i Hi Hipre). fold (pte_valid (ent m p i)).
  destruct (pte_valid (ent m p i)) eqn:Hv; cbn [andb].
  - destruct (bare_table_eq m k p i Hb Hi Hv) as (k' & Ek & Hl & _). unfold pte_leaf in Hl. apply negb_false_iff in Hl. rewrite Hl.
    by eapply freed_sub; [exact Ek|apply IH|..].
  - kstep. exists fl'. by eapply freed_keep.
Qed.

Lemma freed_all : (∀ k', k = S k' → frees k') →
  runs (free_page_table (S k) p) s0 (λ _ s', ∃ fl', alloc_inv s' fl' ∧ fl' ≡ₚ pt_pages m k p ++ fl ∧ confined (pt_pages m k p) s0 s').
Proof.
  intros IH. cbn [free_page_table]. kstep.
  eapply runs_conseq; [apply (runs_kiter (λ done s, ∃ fl', freed done s fl') _ (seqZ 0 512) [])|].
  - exists fl. apply freed_nothing.
  - cbn [app]. intros pre i post s E [fl' Hf]. by eapply freed_step.
  - cbn [app]. intros _ s [fl' [F1 F2 F3 F4 F5]]. destruct (HT p) as [Hp Hpf]; [rewrite pt_pages_eq; by left|].
    pose proof Hnd as Hnd'. rewrite pt_pages_eq in Hnd'. apply NoDup_cons in Hnd' as [Hpn _].
    kcall (alloc_free_spec s fl' p F1 Hp). { rewrite F2, elem_of_app. tauto. }
    intros _ s' (A & O & M). exists (p :: fl'). rewrite pt_pages_eq. split_and!; [done|by rewrite F2|].
    split; [eapply only_mm_trans; [apply Ha0|done|done]|].
    eapply mem_same_mono; [|apply (mem_same_trans _ _ _ _ _ F4 M)]. intros q. rewrite elem_of_cons. intros [[?|?]|<-]; tauto.
Qed.
End free.

Lemma free_page_table_spec k : frees k.
Proof.
  induction k as [|k IH]; intros c s fl Ha Hb HT Hnd; apply freed_all; try done. by intros k' [= <-].
Qed.

(** ** The tables of a page table *)

Section tables.
Context (m : memory) (N : gmap Z nat) (root : Z) (Hwf : pt_wf m N root).

Lemma below_inv k p i q :
  N !! p = Some k → 0 ≤ i < 512 → q ∈ below m k p i →
  ∃ k', k = S k' ∧ pte_valid (ent m p i) = true ∧ N !! PTE2PA (ent m p i) = Some k' ∧ q ∈ pt_pages m k' (PTE2PA (ent m p i)).
Proof.
  intros Hp Hi Hq. destruct k as [|k]; cbn [below] in Hq; [by apply elem_of_nil in Hq|].
  destruct (pte_valid (ent m p i)) eqn:Hv; [|by apply elem_of_nil in Hq]. exists k. split_and!; try done.
  by apply (wf_child _ _ _ Hwf p k i).
Qed.

(** Pages below a table have smaller levels. *)
Lemma pt_pages_level k : ∀ p q, N !! p = Some k → q ∈ pt_pages m k p → ∃ j, N !! q = Some j ∧ (q = p ∨ (j < k)%nat).
Proof.
  induction k as [|k IH]; intros p q Hp [->|(i & Hi & Hq)]%elem_of_pt_pages; [by exists 0%nat; split; [|left]|by apply elem_of_nil in Hq|by exists (S k); split; [|left]|].
  destruct (below_inv (S k) p i q Hp Hi Hq) as (k' & [= <-] & Hv & Hc & Hin).
  destruct (IH _ q Hc Hin) as (j & Hj & Hor). exists j. split; [done|]. right. destruct Hor as [->|?]; [|lia].
  rewrite Hj in Hc. injection Hc as ->. lia.
Qed.

(** The tables below different tables of a level are different. *)
Lemma pt_pages_disjoint k : ∀ p p' q, N !! p = Some k → N !! p' = Some k → q ∈ pt_pages m k p → q ∈ pt_pages m k p' → p = p'.
Proof.
  induction k as [|k IH]; intros p p' q Hp Hp' Hq Hq'.
  - apply elem_of_pt_pages in Hq as [->|(i & _ & Hq)]; [|by apply elem_of_nil in Hq].
    apply elem_of_pt_pages in Hq' as [->|(i & _ & Hq)]; [done|by apply elem_of_nil in Hq].
  - apply elem_of_pt_pages in Hq as [->|(i & Hi & Hq)].
    { destruct (pt_pages_level (S k) p' p Hp' Hq') as (j & Hj & [?|?]); [done|]. rewrite Hp in Hj. injection Hj as <-. lia. }
    destruct (below_inv (S k) p i q Hp Hi Hq) as (k1 & [= <-] & Hv & Hc & Hin).
    apply elem_of_pt_pages in Hq' as [->|(i' & Hi' & Hq')].
    { destruct (pt_pages_level k _ p' Hc Hin) as (j & Hj & Hor). rewrite Hp' in Hj. injection Hj as <-.
      destruct Hor as [Hor|?]; [|lia]. rewrite <-Hor, Hp' in Hc. injection Hc. lia. }
    destruct (below_inv (S k) p' i' q Hp' Hi' Hq') as (k1 & [= <-] & Hv' & Hc' & Hin').
    apply (wf_inj _ _ _ Hwf p k i p' k i' Hp Hi Hv Hp' Hi' Hv'). by apply (IH _ _ q).
Qed.

Lemma below_disjoint k p i j q :
  N !! p = Some k → 0 ≤ i < 512 → 0 ≤ j < 512 → q ∈ below m k p i → q ∈ below m k p j → i = j.
Proof.
  intros Hp Hi Hj Hq Hq'. destruct (below_inv k p i q Hp Hi Hq) as (k1 & -> & Hv & Hc & Hin).
  destruct (below_inv (S k1) p j q Hp Hj Hq') as (k2 & [= <-] & Hv' & Hc' & Hin').
  apply (wf_inj _ _ _ Hwf p k1 i p k1 j Hp Hi Hv Hp Hj Hv'). by apply (pt_pages_disjoint k1 _ _ q).
Qed.

Lemma pt_pages_NoDup k : ∀ p, N !! p = Some k → NoDup (pt_pages m k p).
Proof.
  induction k as [|k IH]; intros p Hp; rewrite pt_pages_eq; apply NoDup_cons; split.
  - intros (i & Hi & Hq)%elem_of_flat_map. by apply elem_of_nil in Hq.
  - induction (seqZ 0 512); [constructor|done].
  - intros (i & Hi%elem_of_seqZ & Hq)%elem_of_flat_map. destruct (below_inv (S k) p i p Hp ltac:(lia) Hq) as (k1 & [= <-] & Hv & Hc & Hin).
    destruct (pt_pages_level k _ p Hc Hin) as (j & Hj & Hor). rewrite Hp in Hj. injection Hj as <-. destruct Hor as [E|?]; [|lia].
    rewrite <-E, Hp in Hc. injection Hc. lia.
  - assert (∀ l, NoDup l → (∀ i, i ∈ l → 0 ≤ i < 512) → NoDup (flat_map (below m (S k) p) l)) as H.
    { intros l. induction l as [|i l IHl]; intros Hl Hr; cbn [flat_map]; [constructor|]. apply NoDup_cons in Hl as [Hil Hl].
      apply NoDup_app. split_and!; [|intros q Hq (j & Hj & Hq')%elem_of_flat_map|apply IHl; [done|intros j Hj; apply Hr; by right]].
      - cbn [below]. destruct (pte_valid (ent m p i)) eqn:Hv; [|constructor]. apply IH, (wf_child _ _ _ Hwf p k i); [done|apply Hr; by left|done].
      - apply Hil. rewrite (below_disjoint (S k) p i j q Hp); [done|apply Hr; by left|apply Hr; by right|done|done]. }
    apply H; [apply NoDup_seqZ|]. intros i Hi%elem_of_seqZ. lia.
Qed.

(** All tables are reached from the root. *)
Lemma level2_root q : N !! q = Some 2%nat → q = root.
Proof.
  intros Hq. destruct (wf_parent _ _ _ Hwf q 2%nat Hq) as [?|(p & i & Hp & _)]; [done|]. destruct (wf_page _ _ _ Hwf _ _ Hp). lia.
Qed.

Lemma level1_child q : N !! q = Some 1%nat → ∃ i, 0 ≤ i < 256 ∧ pte_valid (ent m root i) = true ∧ PTE2PA (ent m root i) = q.
Proof.
  intros Hq. destruct (wf_parent _ _ _ Hwf q 1%nat Hq) as [->|(p & i & Hp & Hi & Hv & E)].
  { by rewrite (wf_root _ _ _ Hwf) in Hq. }
  rewrite (level2_root p Hp) in *. exists i. split_and!; [lia| |done|done].
  destruct (decide (i < 256)); [done|]. rewrite (wf_half _ _ _ Hwf) in Hv by lia. done.
Qed.

Lemma level0_child q : N !! q = Some 0%nat → ∃ p i, N !! p = Some 1%nat ∧ 0 ≤ i < 512 ∧ pte_valid (ent m p i) = true ∧ PTE2PA (ent m p i) = q.
Proof.
  intros Hq. destruct (wf_parent _ _ _ Hwf q 0%nat Hq) as [->|(p & i & H)]; [by rewrite (wf_root _ _ _ Hwf) in Hq|by exists p, i].
Qed.

Lemma elem_of_tables q : q ∈ pt_pages m 2 root ↔ is_Some (N !! q).
Proof.
  split.
  { intros Hq. destruct (pt_pages_level 2 root q (wf_root _ _ _ Hwf) Hq) as (j & -> & _). by eexists. }
  assert (∀ i, 0 ≤ i < 256 → pte_valid (ent m root i) = true → ∀ q, q ∈ pt_pages m 1 (PTE2PA (ent m root i)) → q ∈ pt_pages m 2 root) as Hup.
  { intros i Hi Hv q' Hq'. apply elem_of_pt_pages. right. exists i. split; [lia|]. cbn [below]. by rewrite Hv. }
  intros [l Hl]. destruct l as [|[|[|l]]].
  - destruct (level0_child q Hl) as (p & i & Hp & Hi & Hv & E). destruct (level1_child p Hp) as (j & Hj & Hvj & Ej).
    apply (Hup j Hj Hvj). rewrite Ej. apply elem_of_pt_pages. right. exists i. split; [done|]. cbn [below]. rewrite Hv, E. apply elem_of_pt_pages. by left.
  - destruct (level1_child q Hl) as (j & Hj & Hvj & <-). apply (Hup j Hj Hvj), elem_of_pt_pages. by left.
  - rewrite (level2_root q Hl). apply elem_of_pt_pages. by left.
  - destruct (wf_page _ _ _ Hwf _ _ Hl). lia.
Qed.

(** Without translations the last level is empty. *)
Lemma level0_empty q i :
  (∀ va, 0 ≤ va < MAX_VADDR → pt_lookup m root va = None) → N !! q = Some 0%nat → 0 ≤ i < 512 → pte_valid (ent m q i) = false.
Proof.
  intros Hn Hq Hi. destruct (level0_child q Hq) as (p & i1 & Hp & Hi1 & Hv1 & E1). destruct (level1_child p Hp) as (i2 & Hi2 & Hv2 & E2).
  set (va := i2 * 2 ^ 30 + i1 * 2 ^ 21 + i * 2 ^ 12). assert (0 ≤ va < MAX_VADDR) as Hva by (change MAX_VADDR with (2 ^ 38); unfold va; lia).
  assert (PX va 2 = i2 ∧ PX va 1 = i1 ∧ PX va 0 = i) as (P2 & P1 & P0).
  { rewrite !PX_eq by lia. change (2 ^ (12 + 9 * 2)) with (2 ^ 30). change (2 ^ (12 + 9 * 1)) with (2 ^ 21). change (2 ^ (12 + 9 * 0)) with (2 ^ 12).
    unfold va. clear -Hi Hi1 Hi2. split_and!; Z.to_euclidean_division_equations; lia. }
  specialize (Hn va Hva). assert (pt_descend m 2 root va = Some q) as Hd.
  { cbn [pt_descend]. change (Z.of_nat 2) with 2. change (Z.of_nat 1) with 1. by rewrite P2, Hv2, E2, P1, Hv1, E1. }
  rewrite (pt_lookup_Some m root va (pte_at q i)) in Hn by (rewrite (pt_leaf_Some m root va q), P0 by (done || lia); done).
  fold (ent m q i) in Hn. by destruct (pte_valid (ent m q i)).
Qed.

Lemma bare_root : (∀ va, 0 ≤ va < MAX_VADDR → pt_lookup m root va = None) → bare_table m 2 root.
Proof.
  intros Hn. assert (∀ k p, N !! p = Some k → bare_table m k p) as H; [|by apply H, (wf_root _ _ _ Hwf)].
  induction k as [|k IH]; intros p Hp i Hi Hv.
  - by rewrite (level0_empty p i) in Hv.
  - destruct (wf_child _ _ _ Hwf p k i Hp Hi Hv) as [Hc Hl]. split; [done|by apply IH].
Qed.
End tables.

(** A table without translations is released page by page. *)
Lemma free_tables_spec s fl N root :
  mm_inv s fl N root → (∀ va, 0 ≤ va < MAX_VADDR → pt_lookup (k_mem s) root va = None) →
  runs (free_page_table 3 root) s (λ _ s', ∃ fl', alloc_inv s' fl' ∧ fl' ≡ₚ pt_pages (k_mem s) 2 root ++ fl ∧
    confined (pt_pages (k_mem s) 2 root) s s').
Proof.
  intros Hi Hn. pose proof (mi_pt _ _ _ _ Hi) as Hwf. apply (free_page_table_spec 2 root s fl).
  - by eapply alloc_of_inv.
  - by eapply bare_root.
  - intros q [l Hl]%(elem_of_tables _ _ _ Hwf). split; [by apply (wf_page _ _ _ Hwf q l)|]. intros Hin. by rewrite (mi_disj _ _ _ _ Hi q Hin) in Hl.
  - eapply pt_pages_NoDup; [done|apply (wf_root _ _ _ Hwf)].
Qed.

(** ** Releasing a process *)

(** The user space of a process of size [size]: its memory, and above it its
    stack, its trap frame and the trampoline. *)
Record proc_space (s : kstate) (fl : list Z) (N : gmap Z nat) (root size : Z) : Prop := {
  ps_uvm : uvm_ok s fl N root size;
  ps_stack : ∃ v, pt_lookup (k_mem s) root USER_STACK_BASE = Some v ∧ pte_user v = true;
  ps_frame : ∃ v, pt_lookup (k_mem s) root TRAP_FRAME = Some v ∧ pte_user v = false;
  ps_tramp : ∃ v, pt_lookup (k_mem s) root TRAMPOLINE = Some v ∧ pte_user v = false;
  ps_rest : ∀ va v, USER_STACK_BASE ≤ va → pt_lookup (k_mem s) root va = Some v →
    in_one_page USER_STACK_BASE va ∨ in_one_page TRAP_FRAME va ∨ in_one_page TRAMPOLINE va;
}.

(** The pages that the process can use. *)
Definition user_page (m : memory) (root q : Z) : Prop :=
  ∃ va v, 0 ≤ va ∧ pt_lookup m root va = Some v ∧ pte_user v = true ∧ q = PTE2PA v.

Lemma lookup_in_page m root a va v :
  0 ≤ a → a mod PAGE_SIZE = 0 → in_one_page a va → pt_lookup m root a = Some v → pt_lookup m root va = Some v.
Proof.
  intros H0 Ha Hva <-. apply pt_lookup_page; [unfold in_one_page in *; lia|done|]. by apply same_page.
Qed.

Lemma user_page_range s fl N root size q :
  proc_space s fl N root size →
  user_page (k_mem s) root q ↔
    range_page (k_mem s) root USER_STACK_BASE PAGE_SIZE q ∨ range_page (k_mem s) root 0 (PAGE_ROUND_UP size) q.
Proof.
  intros [[V1 V2 V3 V4 V5] (vs & Hs & Us) (vf & Hf & Uf) (vt & Ht & Ut) Hr]. split.
  - intros (va & v & Hva & Hv & Hu & ->). destruct (decide (va < USER_STACK_BASE)) as [Hlt|Hge].
    { right. exists va, v. destruct (decide (va < PAGE_ROUND_UP size)); [split; [lia|done]|]. rewrite V5 in Hv by lia. done. }
    left. destruct (Hr va v ltac:(lia) Hv) as [P|[P|P]]; [by exists va, v| |].
    + rewrite (lookup_in_page _ _ TRAP_FRAME va vf) in Hv by done. congruence.
    + rewrite (lookup_in_page _ _ TRAMPOLINE va vt) in Hv by done. congruence.
  - intros [(va & v & Hva & Hv & ->)|(va & v & Hva & Hv & ->)]; exists va, v.
    + rewrite (lookup_in_page _ _ USER_STACK_BASE va vs) in Hv by done. simplify_eq. rewrite USER_STACK_BASE_eq in Hva.
      split_and!; [lia|by apply (lookup_in_page _ _ USER_STACK_BASE va v)|done|done].
    + destruct (V4 va ltac:(lia)) as (w & Hw & Hu). rewrite Hw in Hv. simplify_eq. split_and!; [lia|done|done|done].
Qed.

(** A page of the kernel is unmapped. *)
Lemma unmap_kernel_page s fl N root a v :
  mm_inv s fl N root → user_space (k_mem s) fl N root → a mod PAGE_SIZE = 0 → 0 ≤ a → a + PAGE_SIZE ≤ MAX_VADDR →
  pt_lookup (k_mem s) root a = Some v →
  runs (unmap_pages root a PAGE_SIZE false) s (λ _ s',
    mm_inv s' fl N root ∧ user_space (k_mem s') fl N root ∧ only_mm s s' ∧ mem_same (λ q, is_Some (N !! q)) (k_mem s) (k_mem s') ∧
    ∀ va, 0 ≤ va → pt_lookup (k_mem s') root va = unmapped_range a PAGE_SIZE (pt_lookup (k_mem s) root) va).
Proof.
  intros Hi Hu Ha H0 Hm Hv. kcall (unmap_pages_keep s fl N root a PAGE_SIZE Hi Ha); try done.
  { intros va Hva. exists v. by apply (lookup_in_page _ _ a). }
  intros _ s' [[E1 E2 _ _ E5] Hl]. split_and!; [done| |done|done|done]. unfold unmapped_range in Hl. split.
  - intros va w Hva. rewrite Hl by done. case_decide; [done|]. by apply (us_own _ _ _ _ Hu).
  - intros va w va' w' H1 H2. rewrite !Hl by done. repeat case_decide; try done. by apply (us_inj _ _ _ _ Hu).
Qed.

(** [uvm_free] releases the memory below [size] and the table. *)
Lemma uvm_free_spec s fl N root size :
  uvm_ok s fl N root size → (∀ va, USER_STACK_BASE ≤ va → pt_lookup (k_mem s) root va = None) →
  runs (uvm_free root size) s (λ _ s', ∃ fl', alloc_inv s' fl' ∧ only_mm s s' ∧
    (∀ q, q ∈ fl' ↔ q ∈ fl ∨ is_Some (N !! q) ∨ range_page (k_mem s) root 0 (PAGE_ROUND_UP size) q) ∧
    mem_same (λ q, is_Some (N !! q) ∨ range_page (k_mem s) root 0 (PAGE_ROUND_UP size) q) (k_mem s) (k_mem s')).
Proof.
  intros [V1 V2 V3 V4 V5] Hup. destruct (round_up_bounds size V3) as (B1 & B2 & B3). pose proof USER_STACK_BASE_eq as EB.
  assert (runs (when (0 <? size) (unmap_pages root 0 (PAGE_ROUND_UP size) true)) s
    (λ _ s', ∃ fl', released s fl N root 0 (PAGE_ROUND_UP size) s' fl')) as Hrel.
  { destruct (Z.ltb_spec 0 size) as [Hlt|Hge]; cbn [when].
    - apply unmap_pages_release; try done; try lia. change MAX_VADDR with 274877906944. lia.
    - replace size with 0 by lia. change (PAGE_ROUND_UP 0) with 0. kstep. exists fl. by apply released_nil. }
  unfold uvm_free. kstep. kcall Hrel. intros _ s1 (fl1 & [R1 R2 R3 R4 (freed & -> & _ & R5) R6]).
  kcall (free_tables_spec s1 _ N root R1).
  { intros va Hva. rewrite R4 by lia. unfold unmapped_range. case_decide; [done|].
    destruct (decide (va < USER_STACK_BASE)); [apply V5; lia|apply Hup; lia]. }
  intros _ s2 (fl2 & A2 & P2 & O2 & M2). pose proof (elem_of_tables _ _ _ (mi_pt _ _ _ _ R1)) as Ht.
  exists fl2. split_and!; [done|by eapply only_mm_trans; [apply (mi_hart _ _ _ _ V1)| |]| |].
  - intros q. rewrite P2, !elem_of_app, Ht, R5. tauto.
  - eapply mem_same_mono; [|by apply (mem_same_trans _ _ _ _ _ R6 M2)]. intros q. cbv beta. rewrite Ht. tauto.
Qed.

(** What [free_user_page_table] gives back. *)
Definition all_back (s : kstate) (fl : list Z) (N : gmap Z nat) (root : Z) (s' : kstate) (fl' : list Z) : Prop :=
  alloc_inv s' fl' ∧ only_mm s s' ∧
  (∀ q, q ∈ fl' ↔ q ∈ fl ∨ is_Some (N !! q) ∨ user_page (k_mem s) root q) ∧
  mem_same (λ q, is_Some (N !! q) ∨ user_page (k_mem s) root q) (k_mem s) (k_mem s').

Lemma free_user_page_table_spec s fl N root size :
  proc_space s fl N root size → runs (free_user_page_table root size) s (λ _ s', ∃ fl', all_back s fl N root s' fl').
Proof.
  intros Hps. pose proof (user_page_range s fl N root size) as Hup. pose proof Hps as [[V1 V2 V3 V4 V5] (vs & Hs & Us) (vf & Hf & _) (vt & Ht & _) Hr].
  destruct (round_up_bounds size V3) as (_ & _ & B3). pose proof (mi_hart _ _ _ _ V1) as Hh.
  unfold free_user_page_table. kstep. kcall (unmap_pages_release s fl N root USER_STACK_BASE PAGE_SIZE V1 V2); try done.
  { intros va Hva. exists vs. split; [by apply (lookup_in_page _ _ USER_STACK_BASE)|done]. }
  intros _ s1 (fl1 & [R1 R2 R3 R4 (freed & -> & _ & R5) R6]). unfold unmapped_range in R4.
  kstep. kcall (unmap_kernel_page s1 _ N root TRAP_FRAME vf R1 R2); try done; [by rewrite R4, decide_False by layout_lia|].
  intros _ s2 (I2 & U2 & O2 & M2 & L2). unfold unmapped_range in L2.
  kstep. kcall (unmap_kernel_page s2 _ N root TRAMPOLINE vt I2 U2); try done; [by rewrite L2, decide_False, R4, decide_False by layout_lia|].
  intros _ s3 (I3 & U3 & O3 & M3 & L3). unfold unmapped_range in L3.
  assert (∀ va, 0 ≤ va < USER_STACK_BASE → pt_lookup (k_mem s3) root va = pt_lookup (k_mem s) root va) as Hlow.
  { intros va Hva. by rewrite L3, decide_False, L2, decide_False, R4, decide_False by layout_lia. }
  assert (∀ va, 0 ≤ va → USER_STACK_BASE ≤ va → pt_lookup (k_mem s3) root va = None) as Htop.
  { intros va H0 Hva. rewrite L3, L2, R4 by done. repeat case_decide; try done. destruct (pt_lookup (k_mem s) root va) eqn:E; [|done].
    destruct (Hr va _ Hva E) as [?|[?|?]]; by unfold in_one_page in *. }
  assert (∀ q, range_page (k_mem s3) root 0 (PAGE_ROUND_UP size) q ↔ range_page (k_mem s) root 0 (PAGE_ROUND_UP size) q) as Hrange.
  { intros q. split; intros (va & v & Hva & Hv & ->); exists va, v; (split; [done|]); rewrite Hlow in * by lia; done. }
  kcall (uvm_free_spec s3 _ N root size).
  { split; [done|done|done|intros va Hva; rewrite Hlow by lia; by apply V4|]. intros va Hva.
    destruct V3. pose proof (round_up_bounds size ltac:(lia)). rewrite Hlow by lia. by apply V5. }
  { intros va Hva. apply Htop; layout_lia. }
  intros _ s4 (fl4 & A4 & O4 & E4 & M4). exists fl4. split_and!; [done| | |].
  - eapply only_mm_trans; [done|done|]. eapply only_mm_trans; [apply (mi_hart _ _ _ _ R1)|done|]. eapply only_mm_trans; [apply (mi_hart _ _ _ _ I2)|done|done].
  - intros q. rewrite E4, elem_of_app, R5, Hrange, Hup by done. tauto.
  - eapply mem_same_mono; [|exact (mem_same_trans _ _ _ _ _ R6 (mem_same_trans _ _ _ _ _ M2 (mem_same_trans _ _ _ _ _ M3 M4)))].
    intros q. cbv beta. rewrite Hrange, Hup by done. tauto.
Qed.
