(* ===== verification/UserSpace.v ===== *)
(** The life of the memory of a process (kernel/mm/mm.c as [proc_alloc], [fork]
    and [proc_free] use it): a new table, a copy of the parent's memory in it, and
    its release, which gives every page back. *)

From S2P Require Import Prelude Mem State Machine Mm PageTable MmAlloc MmMap MmUser MmUvm MmInit MmTheorems UserTable MmCopy MmFree.

(** ** The life of a user space *)

Section life.
Context (trampoline : Z) (Htr : is_page trampoline).

(** A new process. *)
Lemma user_table_space tf fl0 s root s' fl N stack :
  alloc_inv s fl0 → is_page tf → user_table trampoline tf fl0 s root s' fl N stack → proc_space s' fl N root 0.
Proof.
  intros Ha Htf U. pose proof (user_table_uvm trampoline _ _ _ _ _ _ _ _ U) as V. pose proof (ut_lookup _ _ _ _ _ _ _ _ _ U) as Hl.
  assert (∀ a, is_page a → ∀ perm, 0 ≤ perm < 2 ^ 10 → Z.land perm PTE_U = 0 → pte_user (mk_pte a perm) = false) as Hk.
  { intros a Hpa perm Hp E. rewrite pte_user_flags, PTE_FLAGS_mk_pte by (done || destruct Hpa; lia). unfold pte_user.
    by rewrite Z.land_lor_distr_l, E. }
  unfold user_layout, with_page in Hl. split; [done| | | |].
  - destruct (fork_stack _ _ _ _ _ _ _ _ _ U) as [H1 H2]; [eapply fl_rep_page; [apply (ai_fl _ _ Ha)|apply (ut_stack _ _ _ _ _ _ _ _ _ U)]|by eexists].
  - rewrite Hl, decide_False, decide_True by layout_lia. eexists. split; [done|]. by apply Hk.
  - rewrite Hl, !decide_False, decide_True by layout_lia. eexists. split; [done|]. by apply Hk.
  - intros va v Hva. rewrite Hl by layout_lia. repeat case_decide; [tauto..|done].
Qed.

(** The parts above the memory stay. *)
Lemma space_kept s fl N root sz s' fl' N' sz' :
  proc_space s fl N root sz → uvm_ok s' fl' N' root sz' →
  (∀ va, USER_STACK_BASE ≤ va → pt_lookup (k_mem s') root va = pt_lookup (k_mem s) root va) →
  proc_space s' fl' N' root sz'.
Proof. intros [P1 P2 P3 P4 P5] V Hl. split; [done|by rewrite Hl..|]. intros va v Hva. rewrite Hl by done. by apply P5. Qed.

(** A process that grows. *)
Lemma grown_space s fl N root sz s' fl' N' sz' lo hi perm :
  proc_space s fl N root sz → uvm_ok s' fl' N' root sz' → grown s root lo hi perm s' fl' N' → hi ≤ USER_STACK_BASE →
  proc_space s' fl' N' root sz'.
Proof.
  intros P V G Hhi. eapply space_kept; [done|done|]. intros va Hva. apply (gw_old _ _ _ _ _ _ _ _ G); [layout_lia|lia].
Qed.

(** The child of a fork. *)
Lemma copied_space s0 fl0 N0 src dst size s' fl' N' :
  proc_space s0 fl0 N0 dst 0 → memory_copied s0 src dst size s' fl' N' → proc_space s' fl' N' dst size.
Proof.
  intros P M. eapply space_kept; [done|apply M|]. intros va Hva. apply (mc_high _ _ _ _ _ _ _ M).
  destruct (round_up_bounds size (uv_size _ _ _ _ _ (mc_uvm _ _ _ _ _ _ _ M))) as (_ & _ & ?). lia.
Qed.

(** The only page of a new process that the user can use is its stack. *)
Lemma new_user_page tf fl0 s root s' fl N stack q :
  alloc_inv s fl0 → is_page tf → user_table trampoline tf fl0 s root s' fl N stack → user_page (k_mem s') root q ↔ q = stack.
Proof.
  intros Ha Htf U. assert (is_page stack) as Hs by (eapply fl_rep_page; [apply (ai_fl _ _ Ha)|apply (ut_stack _ _ _ _ _ _ _ _ _ U)]).
  split.
  - intros (va & v & Hva & Hv & Hu & ->). rewrite (ut_lookup _ _ _ _ _ _ _ _ _ U) in Hv by done.
    destruct (user_layout_user trampoline Htr tf stack va v Htf Hv Hu) as [_ ->]. by apply PTE2PA_mk_pte.
  - intros ->. destruct (fork_stack _ _ _ _ _ _ _ _ _ U Hs) as [H1 H2]. exists USER_STACK_BASE. eexists. split_and!; [done|done|done|].
    symmetry. by apply PTE2PA_mk_pte.
Qed.

(** A new process that is released at once. *)
Lemma new_released tf fl0 s root s1 fl1 N stack :
  alloc_inv s fl0 → is_page tf → user_table trampoline tf fl0 s root s1 fl1 N stack →
  runs (free_user_page_table root 0) s1 (λ _ s2, ∃ fl2, alloc_inv s2 fl2 ∧ fl2 ≡ₚ fl0 ∧ confined fl0 s s2).
Proof.
  intros Ha Htf U. assert (∀ q, user_page (k_mem s1) root q ↔ q = stack) as Hup by (intros q; by eapply new_user_page).
  kcall (free_user_page_table_spec s1 fl1 N root 0 (user_table_space _ _ _ _ _ _ _ _ Ha Htf U)). intros _ s2 (fl2 & A2 & O2 & E2 & M2).
  pose proof U as [U1 U2 U3 _ _ U6 U7 _ _ U10]. exists fl2. split_and!; [done| |].
  - apply NoDup_Permutation; [apply (ai_nodup _ _ A2)|apply (ai_nodup _ _ Ha)|]. intros q. rewrite E2, Hup by done. split.
    + intros [?|[?| ->]]; [by apply U6|by apply U3|done].
    + intros [[->|?]%elem_of_cons|?]%U10; tauto.
  - eapply confined_trans; [apply (ai_hart _ _ Ha)|done|]. split; [done|]. eapply mem_same_mono; [|done].
    intros q. cbv beta. rewrite Hup by done. intros [?| ->]; [by apply U3|done].
Qed.

(** ** A copy in a new table *)

(** The translations and the bytes of the user's pages of a table. *)
Definition same_view (m m' : memory) (root : Z) : Prop :=
  (∀ va, pt_lookup m' root va = pt_lookup m root va) ∧
  ∀ va v, 0 ≤ va → pt_lookup m root va = Some v → pte_user v = true → ubyte m' root va = ubyte m root va.

Lemma same_view_trans m1 m2 m3 root : same_view m1 m2 root → same_view m2 m3 root → same_view m1 m3 root.
Proof.
  intros [L1 B1] [L2 B2]. split; [intros va; by rewrite L2|]. intros va v Hva Hv Hu. rewrite (B2 va v), (B1 va v) by (rewrite ?L1; done). done.
Qed.

(** The memory of the child is that of the parent below [size] and on the stack:
    the same permissions and the same bytes, in pages of its own. *)
Record child_copy (m m' : memory) (src dst size : Z) : Prop := {
  cc_low : ∀ va, 0 ≤ va < PAGE_ROUND_UP size → ∃ v w, pt_lookup m src va = Some v ∧ pt_lookup m' dst va = Some w ∧
    PTE_FLAGS w = PTE_FLAGS v ∧ ubyte m' dst va = ubyte m src va;
  cc_stack : ∀ va, in_one_page USER_STACK_BASE va → ubyte m' dst va = ubyte m src va;
  cc_apart : ∀ va va' v w, 0 ≤ va → 0 ≤ va' → pt_lookup m' src va = Some v → pte_user v = true →
    pt_lookup m' dst va' = Some w → pte_user w = true → PTE2PA v ≠ PTE2PA w;
}.

(** Copying to a new table, for a parent whose memory was as in [s]. *)
Lemma new_copied tf s fl Ns src size v root s1 fl1 N1 stack :
  alloc_inv s fl → is_page tf → uvm_ok s fl Ns src size → pt_lookup (k_mem s) src USER_STACK_BASE = Some v → pte_user v = true →
  user_table trampoline tf fl s root s1 fl1 N1 stack →
  runs (copy_user_page_table root src size) s1 (λ r s2,
    only_mm s1 s2 ∧ same_view (k_mem s) (k_mem s2) src ∧ ∃ fl2 N2,
    (r = 0 ∧ proc_space s2 fl2 N2 root size ∧ child_copy (k_mem s) (k_mem s2) src root size ∨ r = -1 ∧ proc_space s2 fl2 N2 root 0)).
Proof.
  intros Ha Htf V Hv Hu U. pose proof (user_table_space _ _ _ _ _ _ _ _ Ha Htf U) as P1.
  destruct (fork_ready trampoline Htr _ _ _ _ _ _ _ _ _ _ _ _ V Hv Hu Htf U) as (PO & CO & K & L1 & B1).
  assert (same_view (k_mem s) (k_mem s1) src) as W1 by by split.
  kcall (copy_user_page_table_spec _ _ _ _ _ _ _ PO CO _ _ K). intros r s2 [[-> (fl2 & N2 & M)]|[-> (fl2 & N2 & V2 & O2 & M2 & L2)]].
  - pose proof M as [M1 M2 M3 M4 M5 M6 M7 M8]. split_and!; [done|by eapply same_view_trans|]. exists fl2, N2. left. split_and!; [done|by eapply copied_space|]. split.
    + intros va Hva. destruct (M3 va Hva) as (x & w & Hx & Hw & Hf & Hb). rewrite L1 in Hx. exists x, w. split_and!; [done|done|done|].
      destruct (uv_low _ _ _ _ _ V va Hva) as (x' & Hx' & Hxu). rewrite Hb. apply (B1 va x'); [lia|done|done].
    + intros va Hva. rewrite M5 by done. apply (B1 va v); [layout_lia| |done]. by apply (lookup_in_page _ _ USER_STACK_BASE).
    + done.
  - destruct (parent_kept _ _ _ _ _ _ PO (child_page fl1 N1) (k_mem s2) M2) as (_ & L3 & B3); [by eapply child_page_page|apply (pa_tables _ _ _ _ _ _ PO)|].
    split_and!; [done| |].
    + eapply same_view_trans; [done|]. split; [done|]. intros va x Hva Hx Hxu. apply (B3 va x); [done|done|done|]. by apply (pa_pages _ _ _ _ _ _ PO va x).
    + exists fl2, N2. right. split; [done|]. eapply space_kept; [exact P1|done|]. intros va Hva. apply L2. layout_lia.
Qed.
End life.

(** ** Properties *)

(** C21: A fork copies memory.  For a process with memory below [size] and a stack,
    [get_user_page_table] for the child returns, and if it returns a table,
    [copy_user_page_table] to that table returns.  If it returns 0 the child has
    at each address below [size] the permissions and the byte that the parent had
    there, and the parent's bytes on its stack; no page that the one can use can
    the other use.  If memory runs out it returns -1 and the child's table is as it
    was.  In both cases the parent's translations and bytes are as they were, and
    the child's space is one that [free_user_page_table] can release. *)
Theorem user_memory_copied trampoline s fl Ns src size v p x :
  uvm_ok s fl Ns src size → pt_lookup (k_mem s) src USER_STACK_BASE = Some v → pte_user v = true →
  is_page trampoline → k_procs s !! p = Some x → is_page (p_tf x) → p_tf x ∉ fl →
  ∃ r s1, get_user_page_table trampoline p s = Ok r s1 ∧ (r ≠ 0 →
  ∃ c s2, copy_user_page_table r src size s1 = Ok c s2 ∧ only_mm s1 s2 ∧ same_view (k_mem s) (k_mem s2) src ∧ ∃ fl2 N2,
    (c = 0 ∧ proc_space s2 fl2 N2 r size ∧ child_copy (k_mem s) (k_mem s2) src r size ∨
     c = -1 ∧ proc_space s2 fl2 N2 r 0)).
Proof.
  intros V Hv Hu Htr Hx Htf Hf. pose proof (alloc_of_inv _ _ _ _ (uv_inv _ _ _ _ _ V)) as Ha.
  destruct (get_user_page_table_spec trampoline Htr s fl p x Ha Hx Htf Hf) as (r & s1 & Hr & Ho).
  exists r, s1. split; [done|]. intros Hz. destruct Ho as [[_ (fl1 & N1 & st & U)]|[-> _]]; [|done].
  exact (new_copied trampoline Htr _ _ _ _ _ _ _ _ _ _ _ _ Ha Htf V Hv Hu U).
Qed.

(** C22: A process gives all its memory back.  [free_user_page_table] on the space of
    a process of size [size] returns, and the pages that are free then are those
    that were free before, the pages of the table, and the pages that the process
    could use (its memory and its stack), each once.  The trap frame and the
    trampoline are not released, and no other page is written. *)
Theorem user_space_released s fl N root size :
  proc_space s fl N root size →
  ∃ s' fl', free_user_page_table root size s = Ok tt s' ∧ alloc_inv s' fl' ∧ only_mm s s' ∧
    (∀ q, q ∈ fl' ↔ q ∈ fl ∨ is_Some (N !! q) ∨ user_page (k_mem s) root q) ∧
    mem_same (λ q, is_Some (N !! q) ∨ user_page (k_mem s) root q) (k_mem s) (k_mem s').
Proof.
  intros H. destruct (free_user_page_table_spec _ _ _ _ _ H) as ([] & s' & Hr & fl' & B). exists s', fl'. split; [done|exact B].
Qed.

(** ** The two processes of [family] *)

Lemma family_sizes : 0 < 100 ≤ USER_STACK_BASE ∧ 0 ≤ PTE_W < 2 ^ 10 ∧ PAGE_ROUND_UP 100 ≤ USER_STACK_BASE ∧ family_root ≠ 0 ∧
  p_tf (family_proc 2) ∉ family_left.
Proof. split_and!; [by vm_compute..|apply (bool_decide_unpack _); by vm_compute]. Qed.

(** The first, when it has its page of memory. *)
Lemma family_parent : ∃ s2 s3 s4 N, proc_space s2 family_left N small_root 100 ∧ k_procs s2 !! 1%nat = Some (family_proc 2) ∧
  get_user_page_table 4096 1 s2 = Ok family_root s3 ∧ copy_user_page_table family_root small_root 100 s3 = Ok 0 s4.
Proof.
  destruct family_table as (s1 & fl & fl1 & N1 & st & G1 & Ha & _ & U), family_steps as (s1' & s2 & s3 & s4 & H1 & H2 & Hl & H3 & H4).
  rewrite H1 in G1. injection G1 as ->. destruct (family_frame 1 ltac:(lia)) as [F1 _], family_sizes as (Z1 & Z2 & Z3 & _).
  pose proof (user_table_space 4096 page_4096 _ _ _ _ _ _ _ _ Ha F1 U) as P1.
  destruct (uvm_alloc_spec s1 fl1 N1 small_root 0 100 PTE_W (ps_uvm _ _ _ _ _ P1) Z1 Z2) as (r & s & Hr & fl2 & N2 & Hg).
  rewrite H2 in Hr. injection Hr as <- <-. destruct Hg as [(_ & V2 & G2 & _)|[Hz _]]; [|discriminate Hz].
  assert (fl2 = family_left) as -> by (eapply free_pages_all; [apply (mi_fl _ _ _ _ (uv_inv _ _ _ _ _ V2))|exact Hl|cbn; lia]).
  exists s2, s3, s4, N2. split_and!; [eapply grown_space; [exact P1|exact V2|exact G2|exact Z3]| |exact H3|exact H4].
  rewrite (only_mm_procs _ _ (gw_only _ _ _ _ _ _ _ _ G2)), (only_mm_procs _ _ (proj1 (ut_only _ _ _ _ _ _ _ _ _ U))).
  exact (family_get 1 (Nat.lt_succ_diag_r 1)).
Qed.

Lemma user_memory_copied_witness : ∃ s2 s3 s4 N4 fl4,
  get_user_page_table 4096 1 s2 = Ok family_root s3 ∧ copy_user_page_table family_root small_root 100 s3 = Ok 0 s4 ∧
  proc_space s4 fl4 N4 family_root 100 ∧ same_view (k_mem s2) (k_mem s4) small_root ∧
  child_copy (k_mem s2) (k_mem s4) small_root family_root 100.
Proof.
  destruct family_parent as (s2 & s3 & s4 & N & P & Hx & H3 & H4), (family_frame 2 ltac:(lia)) as [F1 F2], family_sizes as (_ & _ & _ & Z4 & Z5).
  destruct (ps_stack _ _ _ _ _ P) as (v & Hv & Hu).
  destruct (user_memory_copied 4096 s2 family_left N small_root 100 v 1 (family_proc 2) (ps_uvm _ _ _ _ _ P) Hv Hu page_4096 Hx F1 Z5) as (r & s & Hr & Hc).
  rewrite H3 in Hr. injection Hr as <- <-. destruct (Hc Z4) as (c & s & Hr & _ & W & fl4 & N4 & Hd).
  rewrite H4 in Hr. injection Hr as <- <-. destruct Hd as [(_ & P4 & C)|[Hz _]]; [|discriminate Hz].
  exists s2, s3, s4, N4, fl4. split_and!; [exact H3|exact H4|exact P4|exact W|exact C].
Defined.

(** The first process is released. *)
Lemma user_space_released_witness : ∃ s2 s' fl', free_user_page_table small_root 100 s2 = Ok tt s' ∧ alloc_inv s' fl' ∧
  ∀ va v, 0 ≤ va < 4096 → pt_lookup (k_mem s2) small_root va = Some v → PTE2PA v ∈ fl'.
Proof.
  destruct family_parent as (s2 & _ & _ & N & P & _).
  destruct (user_space_released s2 family_left N small_root 100 P) as (s' & fl' & Hr & Ha & _ & Hq & _).
  exists s2, s', fl'. split_and!; [exact Hr|exact Ha|]. intros va v Hva Hv. apply Hq. right. right. exists va, v.
  destruct (uv_low _ _ _ _ _ (ps_uvm _ _ _ _ _ P) va) as (w & Hw & Hu); [exact Hva|]. rewrite Hv in Hw. injection Hw as <-.
  split_and!; [apply Hva|exact Hv|exact Hu|reflexivity].
Defined.
