(* ===== verification/Proc.v ===== *)
(** Processes: kernel/sched/proc.c without the calls into the file system
    ([fork], [do_exit] and [user_init] are in Fork.v).

    A process is an index in [k_procs].  [context_switch] to the scheduler is
    the outcome [Sleep p s k] of process [p]; what the scheduler does until it
    switches back is the relation between [s] and the state given to [k]. *)

From S2P Require Import Prelude Mem State Machine Mm.

Definition upd_proc (p : nat) (f : process → process) : KM unit :=
  modify (λ s, set_k_procs (alter f p (k_procs s)) s).

(** [FIRST_PROC] to [LAST_PROC]. *)
Definition all_procs : list nat := seq 0 N_PROC.

(** ** Process identifiers *)

Definition get_pid : KM pid_state := gets k_pid.

(** [for (; s < 8; s++)] on one byte of the bitmap: the first clear bit. *)
Fixpoint pid_scan (fuel : nat) (bits s : Z) : option Z :=
  match fuel with
  | O => None
  | S f =>
      if s <? 8 then
        if Z.land bits (Z.shiftl 1 s) =? 0 then Some s else pid_scan f bits (s + 1)
      else None
  end.

(** As in the code, the byte tested and marked is [pid_bitmap[byte]],
    whatever [b]. *)
Definition pid_alloc `{Rounds} : KM Z :=
  st0 ← get_pid;
  spin_lock_acquire LPid;;
  loop rounds
    (λ '(b, s),
       st ← get_pid;
       let bits := default 0 (pid_bitmap st !! Z.to_nat (pid_byte st)) in
       match pid_scan 8 bits s with
       | Some s' =>
           modify (set_k_pid (mk_pid_state
             (<[Z.to_nat (pid_byte st) := u8 (Z.lor bits (Z.shiftl 1 s'))]> (pid_bitmap st))
             b (s' + 1)));;
           spin_lock_release LPid;;
           mret (inr (b * 8 + s'))
       | None =>
           let b := (b + 1) mod 4096 in
           let s := 0 in
           if negb ((b =? pid_byte st) && (s =? pid_shift st)) then mret (inl (b, s))
           else spin_lock_release LPid;; panic "no free pid"
       end) (pid_byte st0, pid_shift st0).

Definition pid_free (pid : Z) : KM unit :=
  let b := Z.quot pid 8 in
  let s := Z.rem pid 8 in
  spin_lock_acquire LPid;;
  (if (b <? 0) || (s <? 0) || (4096 <=? b) then stuck Undefined else
   modify (λ st, set_k_pid (set_pid_bitmap
     (alter (λ bits, u8 (Z.land bits (Z.lnot (Z.shiftl 1 s)))) (Z.to_nat b)
        (pid_bitmap (k_pid st))) (k_pid st)) st));;
  spin_lock_release LPid.

Definition proc_init : KM unit :=
  spin_lock_init LPid "pid_lock";;
  spin_lock_init LWait "wait_lock";;
  kiter all_procs (λ i,
    spin_lock_init (LProc i) "process";;
    upd_proc i (λ p, set_p_kernel_stack (KERNEL_STACK (Z.of_nat i))
                       (set_p_state PROC_UNUSED (set_p_pid (-1) p)))).

(** ** Creation and destruction *)

Definition proc_free (p : nat) : KM unit :=
  x ← get_proc p;
  when (negb (p_tf x =? 0)) (pm_free (p_tf x));;
  upd_proc p (set_p_tf 0);;
  when (negb (p_page_table x =? 0)) (free_user_page_table (p_page_table x) (p_size x));;
  upd_proc p (set_p_page_table 0);;
  upd_proc p (set_p_size 0);;
  pid_free (p_pid x);;
  upd_proc p (λ x, set_p_state PROC_UNUSED (set_p_xstate 0 (set_p_killed false
    (set_p_chan None (set_p_parent None (set_p_pid (-1) x)))))).

Section linker.
(** Addresses fixed by the linker: the trampoline page and [fork_return]. *)
Context (trampoline fork_return : Z).

(** The body of the loop of [proc_alloc] for slot [p]: the [return] value, if
    it returns. *)
Definition proc_alloc_slot `{Rounds} (p : nat) : KM (option (option nat)) :=
  spin_lock_acquire (LProc p);;
  x ← get_proc p;
  if decide (p_state x = PROC_UNUSED) then
    pid ← pid_alloc;
    upd_proc p (set_p_pid pid);;
    upd_proc p (set_p_state PROC_USED);;
    tf ← pm_alloc;
    upd_proc p (set_p_tf tf);;
    if tf =? 0 then
      proc_free p;; spin_lock_release (LProc p);; mret (Some None)
    else
    pt ← get_user_page_table trampoline p;
    upd_proc p (set_p_page_table pt);;
    if pt =? 0 then
      proc_free p;; spin_lock_release (LProc p);; mret (Some None)
    else
    x ← get_proc p;
    upd_proc p (set_p_ctx (mk_context fork_return (u64 (p_kernel_stack x + PAGE_SIZE))
                             (replicate 12 0)));;
    mret (Some (Some p))
  else
    spin_lock_release (LProc p);; mret None.

Definition proc_alloc `{Rounds} : KM (option nat) :=
  r ← kfirst all_procs proc_alloc_slot;
  mret (default None r).

End linker.

Definition proc_grow (size : Z) : KM Z :=
  p ← the_proc;
  x ← get_proc p;
  new_size ← (if p_size x <? size
              then uvm_alloc (p_page_table x) (p_size x) size PTE_W
              else uvm_dealloc (p_page_table x) (p_size x) size);
  if negb (new_size =? 0) then upd_proc p (set_p_size new_size);; mret 0
  else mret (-1).

(** ** Scheduling *)

(** [sched]: [c] and the saved [intr_ena] are those of the hart that ran the
    process before the switch. *)
Definition sched : KM unit :=
  p ← the_proc;
  c ← current_cpu;
  h ← spin_lock_holding (LProc p);
  if negb h then panic "the process lock is not held during scheduling" else
  x ← get_cpu c;
  if negb (n_off x =? 1) then panic "locked during scheduling" else
  y ← get_proc p;
  if decide (p_state y = PROC_RUNNING) then panic "schedule a running process" else
  ie ← intr_get;
  if (ie : bool) then panic "scheduling can be interrupted" else
  sleep p;;
  upd_cpu c (set_intr_ena (intr_ena x)).

Section scheduler.
(** [context_switch(&c->ctx, &p->ctx)]: process [p] runs until it calls
    [sched]. *)
Context (run : nat → KM unit).

(** The body of the inner loop of [scheduler] for slot [p] on cpu [c]: whether
    the process was run. *)
Definition scheduler_visit (c p : nat) : KM bool :=
  spin_lock_acquire (LProc p);;
  x ← get_proc p;
  found ← (if decide (p_state x = PROC_RUNNABLE) then
             upd_proc p (set_p_state PROC_RUNNING);;
             upd_cpu c (set_c_proc (Some p));;
             run p;;
             upd_cpu c (set_c_proc None);;
             mret true
           else mret false);
  spin_lock_release (LProc p);;
  mret found.

(** One round of the [while (true)] loop: whether it found work; without any,
    the hart waits for an interrupt. *)
Definition scheduler_round (c : nat) : KM bool :=
  intr_on;;
  found ← (fix go ps found :=
             match ps with
             | [] => mret found
             | p :: ps => f ← scheduler_visit c p; go ps (found || f)
             end) all_procs false;
  when (negb found) intr_on;;
  mret found.

Definition scheduler (rounds : nat) : KM unit :=
  c ← current_cpu;
  upd_cpu c (set_c_proc None);;
  kiter (seq 0 rounds) (λ _, scheduler_round c;; mret tt).

End scheduler.

Definition killed (p : nat) : KM bool :=
  spin_lock_acquire (LProc p);;
  k ← (x ← get_proc p; mret (p_killed x));
  spin_lock_release (LProc p);;
  mret k.

Definition set_killed (p : nat) : KM unit :=
  spin_lock_acquire (LProc p);;
  upd_proc p (set_p_killed true);;
  spin_lock_release (LProc p).

Definition yield : KM unit :=
  p ← the_proc;
  spin_lock_acquire (LProc p);;
  upd_proc p (set_p_state PROC_RUNNABLE);;
  sched;;
  spin_lock_release (LProc p).

Definition sleep_on (c : chan) (lock : lockid) : KM unit :=
  p ← the_proc;
  spin_lock_acquire (LProc p);;
  spin_lock_release lock;;
  upd_proc p (set_p_chan (Some c));;
  upd_proc p (set_p_state PROC_SLEEPING);;
  sched;;
  upd_proc p (set_p_chan None);;
  spin_lock_release (LProc p);;
  spin_lock_acquire lock.

(** [if (p->state == PROC_SLEEPING && p->chan == chan) p->state = ...] *)
Definition wake_one (c : chan) (x : process) : process :=
  if decide (p_state x = PROC_SLEEPING ∧ p_chan x = Some c)
  then set_p_state PROC_RUNNABLE x else x.

Definition wake_up (c : chan) : KM unit :=
  rp ← running_proc;
  kiter all_procs (λ p,
    when (negb (bool_decide (rp = Some p)))
      (spin_lock_acquire (LProc p);;
       upd_proc p (wake_one c);;
       spin_lock_release (LProc p))).

(** The body of the loop of [kill] for slot [p]. *)
Definition kill_slot (pid : Z) (p : nat) : KM (option Z) :=
  spin_lock_acquire (LProc p);;
  x ← get_proc p;
  if p_pid x =? pid then
    upd_proc p (set_p_killed true);;
    when (bool_decide (p_state x = PROC_SLEEPING)) (upd_proc p (set_p_state PROC_RUNNABLE));;
    spin_lock_release (LProc p);;
    mret (Some 0)
  else
    spin_lock_release (LProc p);; mret None.

Definition kill (pid : Z) : KM Z :=
  r ← kfirst all_procs (kill_slot pid);
  mret (default (-1) r).

(** The bytes of a 4-byte integer in memory. *)
Definition le32 (v : Z) : list Z :=
  [v mod 256; v / 2 ^ 8 mod 256; v / 2 ^ 16 mod 256; v / 2 ^ 24 mod 256].

(** One child slot of the scan of [wait]: [inl b] continues with
    [have_kids = b], [inr r] returns [r]. *)
Definition wait_slot (parent : nat) (pstate : Z) (child : nat) : KM (bool + Z) :=
  x ← get_proc child;
  if decide (p_parent x = Some parent) then
    spin_lock_acquire (LProc child);;
    x ← get_proc child;
    if decide (p_state x = PROC_ZOMBIE) then
      px ← get_proc parent;
      r ← (if negb (pstate =? 0) then copy_out (p_page_table px) pstate (le32 (u32 (p_xstate x)))
           else mret 0);
      if negb (r =? 0) then
        spin_lock_release (LProc child);;
        spin_lock_release LWait;;
        mret (inr (-1))
      else
      proc_free child;;
      spin_lock_release (LProc child);;
      spin_lock_release LWait;;
      mret (inr (p_pid x))
    else
      spin_lock_release (LProc child);; mret (inl true)
  else mret (inl false).

Fixpoint wait_scan (parent : nat) (pstate : Z) (l : list nat) (have_kids : bool) : KM (bool + Z) :=
  match l with
  | [] => mret (inl have_kids)
  | child :: l =>
      r ← wait_slot parent pstate child;
      match r with
      | inl b => wait_scan parent pstate l (have_kids || b)
      | inr r => mret (inr r)
      end
  end.

Definition wait `{Rounds} (pstate : Z) : KM Z :=
  parent ← the_proc;
  spin_lock_acquire LWait;;
  loop rounds
    (λ '(),
       r ← wait_scan parent pstate all_procs false;
       match r with
       | inr r => mret (inr r)
       | inl have_kids =>
           stop ← (if (have_kids : bool) then killed parent else mret true);
           if (stop : bool) then spin_lock_release LWait;; mret (inr (-1))
           else sleep_on (ChProc parent) LWait;; mret (inl tt)
       end) tt.
