(* ===== verification/Sync.v ===== *)
(** Sleep locks (kernel/lock.c) and the system timer (kernel/dev/timer.c). *)

From S2P Require Import Prelude Mem State Machine Mm Proc.

(** ** kernel/lock.c: sleep locks *)

Definition get_slock (l : slockid) : KM sleep_lock :=
  gets (λ s, default (mk_sleep_lock false 0 "") (k_slocks s !! l)).
Definition upd_slock (l : slockid) (f : sleep_lock → sleep_lock) : KM unit :=
  x ← get_slock l; modify (λ s, set_k_slocks (<[l := f x]> (k_slocks s)) s).

Definition sleep_lock_init (l : slockid) (name : string) : KM unit :=
  spin_lock_init (LSleep l) "sleep_lock";;
  modify (λ s, set_k_slocks (<[l := mk_sleep_lock false (-1) name]> (k_slocks s)) s).

(** [running_proc()->pid] *)
Definition running_pid : KM Z :=
  p ← the_proc; x ← get_proc p; mret (p_pid x).

Definition sleep_lock_holding (l : slockid) : KM bool :=
  spin_lock_acquire (LSleep l);;
  is_holding ← (x ← get_slock l;
                if slk_locked x then (pid ← running_pid; mret (pid =? slk_pid x)) else mret false);
  spin_lock_release (LSleep l);;
  mret is_holding.

Definition sleep_lock_acquire `{Rounds} (l : slockid) : KM unit :=
  h ← sleep_lock_holding l;
  if (h : bool) then panic "repeatedly acquire lock" else
  spin_lock_acquire (LSleep l);;
  (loop rounds
     (λ '(),
        x ← get_slock l;
        if slk_locked x then sleep_on (ChSleep l) (LSleep l);; mret (inl tt)
        else mret (inr tt)) tt;;
   upd_slock l (set_slk_locked true);;
   pid ← running_pid;
   upd_slock l (set_slk_pid pid));;
  spin_lock_release (LSleep l).

Definition sleep_lock_release (l : slockid) : KM unit :=
  h ← sleep_lock_holding l;
  if negb h then panic "release unheld lock" else
  spin_lock_acquire (LSleep l);;
  (upd_slock l (set_slk_locked false);;
   upd_slock l (set_slk_pid (-1));;
   wake_up (ChSleep l));;
  spin_lock_release (LSleep l).

(** ** kernel/dev/timer.c *)

Definition timer_init : KM unit :=
  modify (set_k_ticks 0);;
  spin_lock_init LTimer "timer".

(** [timer_set_next] is a call to the firmware: no kernel state changes. *)
Definition timer_set_next : KM unit := mret tt.

Definition timer_intr : KM unit :=
  id ← current_cpuid;
  when (id =? 0)
    (spin_lock_acquire LTimer;;
     modify (λ s, set_k_ticks (u64 (k_ticks s + 1)) s);;
     spin_lock_release LTimer;;
     wake_up ChTicks);;
  timer_set_next.

Definition timer_sleep `{Rounds} (n : Z) : KM Z :=
  spin_lock_acquire LTimer;;
  ticks ← gets k_ticks;
  loop rounds
    (λ '(),
       now ← gets k_ticks;
       if u64 (now - ticks) <? n then
         p ← the_proc;
         k ← killed p;
         if (k : bool) then spin_lock_release LTimer;; mret (inr (-1))
         else sleep_on ChTicks LTimer;; mret (inl tt)
       else spin_lock_release LTimer;; mret (inr 0)) tt.
