(* ===== verification/Console.v ===== *)
(** The console: kernel/dev/uart.c, kernel/dev/console.c, kernel/printk.c and
    [proc_dump] of kernel/sched/proc.c, which print through each other.

    A call of [panic] is the outcome [Panic]; the message it prints first is
    not represented. *)

From S2P Require Import Prelude Mem State Machine Mm Proc Sync.

(** ** kernel/dev/uart.c *)

Definition RHR : Z := UART0 + 0.
Definition THR : Z := UART0 + 0.
Definition DLL : Z := UART0 + 0.
Definition IER : Z := UART0 + 1.
Definition DLM : Z := UART0 + 1.
Definition FCR : Z := UART0 + 2.
Definition LCR : Z := UART0 + 3.
Definition LSR : Z := UART0 + 5.
Definition LSR_RX_READY : Z := 1.
Definition LSR_TX_IDLE : Z := 32.
Definition UART_TX_BUF_SIZE : Z := 32.
Definition INPUT_SIZE : Z := 128.
Definition BACKSPACE : Z := 0x100.

Definition upd_tx (f : uart_tx → uart_tx) : KM unit := modify (λ s, set_k_tx (f (k_tx s)) s).
Definition upd_cons (f : console → console) : KM unit :=
  modify (λ s, set_k_cons (f (k_cons s)) s).

(** The characters [printk] can be given: a machine word, or a string ([None]
    the null pointer). *)
Inductive va_arg := VWord (x : Z) | VStr (str : option (list Z)).

(** ** kernel/printk.c: what is printed *)

Definition bytes_of_string (s : string) : list Z :=
  (λ c, Z.of_N (Ascii.N_of_ascii c)) <$> String.list_ascii_of_string s.

Definition digit (d : Z) : Z := if d <? 10 then 48 + d else 87 + d.

(** [do { buf[--pos] = digits[x % base]; x /= base; } while (x > 0);]: the
    bytes from [buf + pos], before the [acc] already stored.  The array holds
    32 bytes. *)
Fixpoint print_digits (fuel : nat) (x base : Z) (acc : list Z) : list Z :=
  match fuel with
  | O => acc
  | S fuel =>
      let acc := digit (x mod base) :: acc in
      let x := x / base in
      if 0 <? x then print_digits fuel x base acc else acc
  end.

Definition print_ptr (x : Z) : list Z := [48; 120] ++ print_digits 32 x 16 [].

(** [x] is the [unsigned long long] argument. *)
Definition print_int (x base : Z) (signed : bool) : list Z :=
  if signed && (s64 x <? 0)
  then 45 :: print_digits 32 (u64 (- s64 x)) base []
  else print_digits 32 x base [].

Definition print_str (str : option (list Z)) : list Z :=
  match str with None => bytes_of_string "(null)" | Some l => l end.

(** [va_arg] of the types the format letters name, at [longs] letters 'l'. *)
Definition word_arg (signed : bool) (longs : nat) (x : Z) : Z :=
  if signed then (if (longs =? 0)%nat then u64 (s32 x) else u64 x)
  else (if (longs =? 0)%nat then u32 x else u64 x).

(** A conversion after '%': the text printed, the rest of the format and of
    the arguments; [None] in the first component when it is not valid.  The
    outer option is an argument of the wrong kind. *)
Fixpoint conversion (fmt : list Z) (longs : nat) (args : list va_arg)
    : option (option (list Z * list Z) * list va_arg) :=
  match fmt with
  | [] => Some (None, args)
  | c :: fmt =>
      if (c =? 100) || (c =? 117) || (c =? 120) then
        match args with
        | VWord x :: args =>
            Some (Some (print_int (word_arg (c =? 100) longs x)
                          (if c =? 120 then 16 else 10) (c =? 100), fmt), args)
        | _ => None
        end
      else if c =? 112 then
        match args with
        | VWord x :: args => Some (Some (print_ptr (u64 x), fmt), args)
        | _ => None
        end
      else if c =? 115 then
        match args with
        | VStr str :: args => Some (Some (print_str str, fmt), args)
        | _ => None
        end
      else if c =? 99 then
        match args with
        | VWord x :: args => Some (Some ([s32 x], fmt), args)
        | _ => None
        end
      else if c =? 37 then Some (Some ([37], fmt), args)
      else if c =? 108 then conversion fmt (S longs) args
      else Some (None, args)
  end.

(** The loop of [printk] over the format. *)
Fixpoint printk_text (fuel : nat) (fmt : list Z) (args : list va_arg) : option (list Z) :=
  match fuel with
  | O => Some []
  | S fuel =>
      match fmt with
      | [] => Some []
      | c :: fmt =>
          if negb (c =? 37) then (λ t, c :: t) <$> printk_text fuel fmt args
          else
            match conversion fmt 0 args with
            | None => None
            | Some (Some (txt, fmt), args) => (λ t, txt ++ t) <$> printk_text fuel fmt args
            | Some (None, args) => (λ t, 37 :: t) <$> printk_text fuel fmt args
            end
      end
  end.

Section console.
Context `{Device} `{Rounds}.

Definition uart_start : KM unit :=
  loop (S (Z.to_nat UART_TX_BUF_SIZE))
    (λ '(),
       t ← gets k_tx;
       if tx_w t =? tx_r t then mret (inr tt) else
       st ← READ_REG LSR;
       if Z.land st LSR_TX_IDLE =? 0 then mret (inr tt) else
       match tx_buf t !! Z.to_nat (tx_r t) with
       | None => stuck Undefined
       | Some c =>
           upd_tx (set_tx_r ((tx_r t + 1) mod UART_TX_BUF_SIZE));;
           wake_up ChTxR;;
           WRITE_REG THR c;;
           mret (inl tt)
       end) tt.

Definition uart_init : KM unit :=
  WRITE_REG IER 0;;
  WRITE_REG LCR (Z.shiftl 1 7);;
  WRITE_REG DLL 3;;
  WRITE_REG DLM 0;;
  WRITE_REG LCR 3;;
  WRITE_REG FCR (Z.lor (Z.shiftl 3 1) 1);;
  WRITE_REG IER (Z.lor LSR_RX_READY LSR_TX_IDLE);;
  spin_lock_init LTx "uart".

Definition uart_putc_sync (c : Z) : KM unit :=
  push_off;;
  pk ← gets k_panicked;
  if (pk : bool) then stuck SpinForever else
  loop rounds
    (λ '(), st ← READ_REG LSR;
            mret (if Z.land st LSR_TX_IDLE =? 0 then inl tt else inr tt)) tt;;
  WRITE_REG THR (u8 c);;
  pop_off.

Definition uart_putc (c : Z) : KM unit :=
  spin_lock_acquire LTx;;
  pk ← gets k_panicked;
  if (pk : bool) then stuck SpinForever else
  loop rounds
    (λ '(),
       t ← gets k_tx;
       if (tx_w t + 1) mod UART_TX_BUF_SIZE =? tx_r t
       then sleep_on ChTxR LTx;; mret (inl tt) else mret (inr tt)) tt;;
  t ← gets k_tx;
  (if tx_w t <? UART_TX_BUF_SIZE
   then upd_tx (set_tx_buf (<[Z.to_nat (tx_w t) := u8 c]> (tx_buf t))) else stuck Undefined);;
  upd_tx (set_tx_w ((tx_w t + 1) mod UART_TX_BUF_SIZE));;
  uart_start;;
  spin_lock_release LTx.

Definition uart_getc : KM Z :=
  st ← READ_REG LSR;
  if negb (Z.land st LSR_RX_READY =? 0) then READ_REG RHR else mret (-1).

(** ** kernel/dev/console.c: output *)

Definition console_putc (c : Z) : KM unit :=
  if c =? BACKSPACE then uart_putc_sync 8;; uart_putc_sync 32;; uart_putc_sync 8
  else uart_putc_sync c.

Definition console_puts (l : list Z) : KM unit := kiter l console_putc.

(** ** kernel/printk.c *)

Definition printk_init : KM unit := spin_lock_init LPrintk "printk".

Definition printk (fmt : string) (args : list va_arg) : KM unit :=
  let fmt := bytes_of_string fmt in
  spin_lock_acquire LPrintk;;
  (match printk_text (S (length fmt)) fmt args with
   | Some txt => console_puts txt
   | None => stuck Undefined
   end);;
  spin_lock_release LPrintk.

(** ** kernel/sched/proc.c: proc_dump *)

Definition state_text (st : pstate) : string :=
  match st with
  | PROC_USED => "used    "
  | PROC_RUNNABLE => "runnable"
  | PROC_RUNNING => "running "
  | PROC_SLEEPING => "sleeping"
  | PROC_ZOMBIE => "zombie  "
  | PROC_UNUSED => "???     "
  end.

(** The bytes before the terminator. *)
Fixpoint until_nul (l : list Z) : list Z :=
  match l with
  | [] => []
  | c :: l => if c =? 0 then [] else c :: until_nul l
  end.

Definition newline : string := String.String (Ascii.ascii_of_nat 10) String.EmptyString.

Definition proc_dump : KM unit :=
  printk newline [];;
  kiter all_procs (λ p,
    x ← get_proc p;
    when (negb (bool_decide (p_state x = PROC_UNUSED)))
      (printk (String.append "%s %d %s" newline)
         [VStr (Some (bytes_of_string (state_text (p_state x)))); VWord (p_pid x);
          VStr (Some (until_nul (p_name x)))])).

(** ** kernel/dev/console.c: input *)

(** [cons.buf[i] = c], inside the array. *)
Definition set_cons_buf_at (i c : Z) : KM unit :=
  if i <? INPUT_SIZE
  then upd_cons (λ k, set_cons_buf (<[Z.to_nat i := u8 c]> (cons_buf k)) k) else stuck Undefined.

Definition console_default (c : Z) : KM unit :=
  k ← gets k_cons;
  when (negb (c =? 0) && negb (u32 (cons_e k + 1) mod INPUT_SIZE =? cons_r k))
    (let c := if c =? 13 then 10 else c in
     console_putc c;;
     set_cons_buf_at (cons_e k) c;;
     let e := u32 (cons_e k + 1) mod INPUT_SIZE in
     upd_cons (set_cons_e e);;
     when ((c =? 10) || (c =? 4) || (u32 (e + 1) mod INPUT_SIZE =? cons_r k))
       (upd_cons (set_cons_w e);; wake_up ChConsR)).

Definition console_intr (c : Z) : KM unit :=
  spin_lock_acquire LCons;;
  (if c =? 16 then proc_dump
   else if c =? 127 then
     k ← gets k_cons;
     when (negb (cons_e k =? cons_w k))
       (upd_cons (set_cons_e (u32 (cons_e k - 1)));;
        console_putc BACKSPACE)
   else console_default c);;
  spin_lock_release LCons.

(** The result and, for a kernel [dst], the bytes stored there. *)
Definition console_read (to_user : bool) (dst n : Z) : KM (Z * list Z) :=
  let target := n in
  spin_lock_acquire LCons;;
  r ← loop (rounds + Z.to_nat n)
    (λ '(dst, n, out),
       if 0 <? n then
         k ← gets k_cons;
         if cons_r k =? cons_w k then
           p ← the_proc;
           kl ← killed p;
           if (kl : bool) then spin_lock_release LCons;; mret (inr None)
           else sleep_on ChConsR LCons;; mret (inl (dst, n, out))
         else
         match cons_buf k !! Z.to_nat (cons_r k) with
         | None => stuck Undefined
         | Some c =>
             upd_cons (set_cons_r (u32 (cons_r k + 1) mod INPUT_SIZE));;
             if c =? 4 then
               when (n <? target) (upd_cons (λ k, set_cons_r (u32 (cons_r k - 1)) k));;
               mret (inr (Some (n, out)))
             else
             '(r, bs) ← either_copy_out to_user dst [c];
             if negb (r =? 0) then mret (inr (Some (n, out)))
             else mret (inl (u64 (dst + 1), n - 1, out ++ bs))
         end
       else mret (inr (Some (n, out)))) (dst, n, []);
  match r with
  | None => mret (-1, [])
  | Some (n, out) => spin_lock_release LCons;; mret (target - n, out)
  end.

(** [ksrc]: what a kernel [src] points to. *)
Definition console_write (from_user : bool) (src : Z) (ksrc : list Z) (n : Z) : KM Z :=
  spin_lock_acquire LCons;;
  i ← loop (S (Z.to_nat n))
    (λ i,
       if i <? n then
         '(r, bs) ← either_copy_in from_user (u64 (src + i)) 1 (drop (Z.to_nat i) ksrc);
         if negb (r =? 0) then mret (inr i) else
         uart_putc (default 0 (head bs));;
         mret (inl (i + 1))
       else mret (inr i)) 0;
  spin_lock_release LCons;;
  mret i.

Definition console_init : KM unit :=
  spin_lock_init LCons "console";;
  uart_init;;
  modify (λ s, set_k_devlist (<[1%nat := true]> (k_devlist s)) s).

Definition uart_intr : KM unit :=
  loop rounds
    (λ '(),
       c ← uart_getc;
       if c =? -1 then mret (inr tt) else console_intr c;; mret (inl tt)) tt;;
  spin_lock_acquire LTx;;
  uart_start;;
  spin_lock_release LTx.

End console.
