(* ===== verification/Virtio.v ===== *)
(** The driver of the virtio block device: kernel/dev/virtio_disk.c.

    The descriptors and rings are in [k_vdisk].  The device itself is not
    kernel code: its registers are those of the class [Device], and its transfers happen while the driver sleeps. *)

From S2P Require Import Prelude Mem State Machine Mm Proc Sync.

Definition NUM : Z := 8.
Definition VRING_DESC_F_NEXT : Z := 1.
Definition VRING_DESC_F_WRITE : Z := 2.
Definition VIRTIO_BLK_T_IN : Z := 0.
Definition VIRTIO_BLK_T_OUT : Z := 1.

Definition VIRTIO_MMIO_MAGIC_VALUE : Z := VIRTIO0 + 0x000.
Definition VIRTIO_MMIO_VERSION : Z := VIRTIO0 + 0x004.
Definition VIRTIO_MMIO_DEVICE_ID : Z := VIRTIO0 + 0x008.
Definition VIRTIO_MMIO_VENDOR_ID : Z := VIRTIO0 + 0x00c.
Definition VIRTIO_MMIO_DEVICE_FEATURES : Z := VIRTIO0 + 0x010.
Definition VIRTIO_MMIO_DRIVER_FEATURES : Z := VIRTIO0 + 0x020.
Definition VIRTIO_MMIO_GUEST_PAGE_SIZE : Z := VIRTIO0 + 0x028.
Definition VIRTIO_MMIO_QUEUE_SEL : Z := VIRTIO0 + 0x030.
Definition VIRTIO_MMIO_QUEUE_NUM_MAX : Z := VIRTIO0 + 0x034.
Definition VIRTIO_MMIO_QUEUE_NUM : Z := VIRTIO0 + 0x038.
Definition VIRTIO_MMIO_QUEUE_PFN : Z := VIRTIO0 + 0x040.
Definition VIRTIO_MMIO_QUEUE_READY : Z := VIRTIO0 + 0x044.
Definition VIRTIO_MMIO_QUEUE_NOTIFY : Z := VIRTIO0 + 0x050.
Definition VIRTIO_MMIO_INTERRUPT_STATUS : Z := VIRTIO0 + 0x060.
Definition VIRTIO_MMIO_INTERRUPT_ACK : Z := VIRTIO0 + 0x064.
Definition VIRTIO_MMIO_STATUS : Z := VIRTIO0 + 0x070.

Definition upd_vdisk (f : virtio_disk → virtio_disk) : KM unit :=
  modify (λ s, set_k_vdisk (f (k_vdisk s)) s).

(** [b->field], [b] an index in the buffer table. *)
Definition get_buf (b : nat) : KM buffer :=
  o ← gets (λ s, k_bufs s !! b);
  match o with Some x => mret x | None => stuck Undefined end.
Definition upd_buf (b : nat) (f : buffer → buffer) : KM unit :=
  modify (λ s, set_k_bufs (alter f b (k_bufs s)) s).

(** ** Descriptors *)

(** The first free descriptor, from index [i]. *)
Fixpoint find_free (l : list bool) (i : Z) : Z :=
  match l with
  | [] => -1
  | b :: l => if b then i else find_free l (i + 1)
  end.

Definition alloc_desc : KM Z :=
  i ← gets (λ s, find_free (vd_free (k_vdisk s)) 0);
  when (negb (i =? -1)) (upd_vdisk (λ d, set_vd_free (<[Z.to_nat i := false]> (vd_free d)) d));;
  mret i.

Definition free_desc (i : Z) : KM unit :=
  if (i <? 0) || (NUM <=? i) then panic "free an invalid descriptor" else
  d ← gets k_vdisk;
  if default true (vd_free d !! Z.to_nat i) then panic "the descriptor is already free" else
  upd_vdisk (λ d, set_vd_desc (<[Z.to_nat i := mk_virtq_desc DNull 0 0 0]> (vd_desc d)) d);;
  upd_vdisk (λ d, set_vd_free (<[Z.to_nat i := true]> (vd_free d)) d);;
  wake_up ChDiskFree.

(** A chain has at most [NUM] descriptors. *)
Fixpoint free_chain_from (fuel : nat) (i : Z) : KM unit :=
  match fuel with
  | O => stuck OutOfFuel
  | S fuel =>
      o ← gets (λ s, vd_desc (k_vdisk s) !! Z.to_nat i);
      match o with
      | None => stuck Undefined
      | Some x =>
          free_desc i;;
          if negb (Z.land (d_flags x) VRING_DESC_F_NEXT =? 0)
          then free_chain_from fuel (d_next x) else mret tt
      end
  end.
Definition free_chain (i : Z) : KM unit := free_chain_from (Z.to_nat NUM) i.

(** The three descriptors, or [None] for the result -1. *)
Definition alloc3_desc : KM (option (Z * Z * Z)) :=
  i0 ← alloc_desc;
  if i0 =? -1 then mret None else
  i1 ← alloc_desc;
  if i1 =? -1 then free_desc i0;; mret None else
  i2 ← alloc_desc;
  if i2 =? -1 then free_desc i0;; free_desc i1;; mret None else
  mret (Some (i0, i1, i2)).

Section device.
Context `{Device}.

(** ** Initialisation *)

Definition virtio_disk_init (virtq_mem : Z) : KM unit :=
  spin_lock_init LDisk "virtio_disk";;
  magic ← READ_REG VIRTIO_MMIO_MAGIC_VALUE;
  if negb (magic =? 0x74726976) then panic "could not find virtio disk" else
  version ← READ_REG VIRTIO_MMIO_VERSION;
  if negb (version =? 1) then panic "could not find virtio disk" else
  device ← READ_REG VIRTIO_MMIO_DEVICE_ID;
  if negb (device =? 2) then panic "could not find virtio disk" else
  vendor ← READ_REG VIRTIO_MMIO_VENDOR_ID;
  if negb (vendor =? 0x554d4551) then panic "could not find virtio disk" else
  (* reset device, then ACKNOWLEDGE and DRIVER *)
  WRITE_REG VIRTIO_MMIO_STATUS 0;;
  WRITE_REG VIRTIO_MMIO_STATUS 1;;
  WRITE_REG VIRTIO_MMIO_STATUS (Z.lor 1 2);;
  (* negotiate features *)
  features ← READ_REG VIRTIO_MMIO_DEVICE_FEATURES;
  WRITE_REG VIRTIO_MMIO_DRIVER_FEATURES
    (u32 (Z.land features (Z.lnot (fold_right Z.lor 0 (Z.shiftl 1 <$> [5; 7; 11; 12; 27; 29; 28])))));;
  WRITE_REG VIRTIO_MMIO_STATUS (Z.lor (Z.lor 1 2) 8);;
  status ← READ_REG VIRTIO_MMIO_STATUS;
  if Z.land status 8 =? 0 then panic "virtio disk FEATURES_OK unset" else
  (* initialize queue 0 *)
  WRITE_REG VIRTIO_MMIO_QUEUE_SEL 0;;
  ready ← READ_REG VIRTIO_MMIO_QUEUE_READY;
  if negb (ready =? 0) then panic "virtio disk should not be ready" else
  WRITE_REG VIRTIO_MMIO_GUEST_PAGE_SIZE PAGE_SIZE;;
  max_q_size ← READ_REG VIRTIO_MMIO_QUEUE_NUM_MAX;
  if max_q_size =? 0 then panic "virtio disk has no queue 0" else
  if max_q_size <? NUM then panic "virtio disk max queue too short" else
  upd_vdisk (λ d, mk_virtio_disk (replicate 8 (mk_virtq_desc DNull 0 0 0)) 0 (replicate 8 0) 0
                    (replicate 8 0) (vd_free d) (vd_used_idx d) (vd_info d) (vd_ops d));;
  WRITE_REG VIRTIO_MMIO_QUEUE_NUM NUM;;
  WRITE_REG VIRTIO_MMIO_QUEUE_PFN (u32 (Z.shiftr virtq_mem 12));;
  WRITE_REG VIRTIO_MMIO_QUEUE_READY 1;;
  upd_vdisk (set_vd_free (replicate 8 true));;
  WRITE_REG VIRTIO_MMIO_STATUS (Z.lor status 4).

(** ** Transfers *)

(** The descriptors, the tracking data and the entry of the available ring
    for a transfer of buffer [b] with the chain [idx]. *)
Definition fill_request (b : nat) (bno : Z) (is_write : bool) (idx : Z * Z * Z) : KM unit :=
  let '(i0, i1, i2) := idx in
  let n0 := Z.to_nat i0 in
  upd_vdisk (λ d, set_vd_ops (<[n0 := mk_virtio_blk_req
    (if is_write then VIRTIO_BLK_T_OUT else VIRTIO_BLK_T_IN) 0 (u32 (bno * (BLOCK_SIZE / 512)))]>
    (vd_ops d)) d);;
  upd_vdisk (λ d, set_vd_desc (<[n0 := mk_virtq_desc (DReq n0) 16 VRING_DESC_F_NEXT i1]> (vd_desc d)) d);;
  upd_vdisk (λ d, set_vd_desc (<[Z.to_nat i1 := mk_virtq_desc (DData b) BLOCK_SIZE
    (Z.lor (if is_write then 0 else VRING_DESC_F_WRITE) VRING_DESC_F_NEXT) i2]> (vd_desc d)) d);;
  upd_vdisk (λ d, set_vd_info (alter (set_ti_status 0xff) n0 (vd_info d)) d);;
  upd_vdisk (λ d, set_vd_desc (<[Z.to_nat i2 := mk_virtq_desc (DStatus n0) 1 VRING_DESC_F_WRITE 0]>
    (vd_desc d)) d);;
  upd_buf b (set_b_disk true);;
  upd_vdisk (λ d, set_vd_info (alter (set_ti_b (Some b)) n0 (vd_info d)) d);;
  upd_vdisk (λ d, set_vd_avail_ring (<[Z.to_nat (vd_avail_idx d mod NUM) := i0]> (vd_avail_ring d)) d);;
  upd_vdisk (λ d, set_vd_avail_idx (wrap 16 (vd_avail_idx d + 1)) d).

Definition virtio_disk_rw `{Rounds} (b : nat) (is_write : bool) : KM unit :=
  spin_lock_acquire LDisk;;
  x ← get_buf b;
  idx ← loop rounds
    (λ '(),
       r ← alloc3_desc;
       match r with
       | Some idx => mret (inr idx)
       | None => sleep_on ChDiskFree LDisk;; mret (inl tt)
       end) tt;
  fill_request b (b_bno x) is_write idx;;
  WRITE_REG VIRTIO_MMIO_QUEUE_NOTIFY 0;;
  loop rounds
    (λ '(),
       x ← get_buf b;
       if b_disk x then sleep_on (ChBuf b) LDisk;; mret (inl tt) else mret (inr tt)) tt;;
  upd_vdisk (λ d, set_vd_info (alter (set_ti_b None) (Z.to_nat (fst (fst idx))) (vd_info d)) d);;
  free_chain (fst (fst idx));;
  spin_lock_release LDisk.

Definition virtio_disk_read `{Rounds} (b : nat) : KM unit := virtio_disk_rw b false.
Definition virtio_disk_write `{Rounds} (b : nat) : KM unit := virtio_disk_rw b true.

(** The device has completed at most [NUM] requests the driver has not seen. *)
Definition virtio_disk_intr : KM unit :=
  spin_lock_acquire LDisk;;
  st ← READ_REG VIRTIO_MMIO_INTERRUPT_STATUS;
  WRITE_REG VIRTIO_MMIO_INTERRUPT_ACK (Z.land st 3);;
  loop (S (Z.to_nat (2 ^ 16)))
    (λ '(),
       d ← gets k_vdisk;
       if negb (vd_used_idx d =? vd_dev_idx d) then
         let id := default 0 (vd_used_ring d !! Z.to_nat (vd_used_idx d mod NUM)) in
         match vd_info d !! Z.to_nat id with
         | None => stuck Undefined
         | Some i =>
             if negb (ti_status i =? 0) then panic "virtio disk interrupt status" else
             match ti_b i with
             | None => stuck Undefined
             | Some b =>
                 upd_buf b (set_b_disk false);;
                 wake_up (ChBuf b);;
                 upd_vdisk (λ d, set_vd_used_idx (wrap 16 (vd_used_idx d + 1)) d);;
                 mret (inl tt)
             end
         end
       else mret (inr tt)) tt;;
  spin_lock_release LDisk.

End device.
