(* ===== verification/Buf.v ===== *)
(** The buffer cache: kernel/fs/buf.c.

    A buffer is an index in [k_bufs]; index [N_BUF] is the list head
    [bcache.head].  The doubly linked list is in the fields [b_prev] and
    [b_next], as in the code. *)

From S2P Require Import Prelude Mem State Machine Mm Proc Sync Virtio.

Definition bhead : nat := N_BUF.

(** [b->next] and [b->prev]. *)
Definition bnext (b : nat) : KM nat := x ← get_buf b; mret (b_next x).
Definition bprev (b : nat) : KM nat := x ← get_buf b; mret (b_prev x).

(** Link [b] after the head: the last four statements of [brelse]. *)
Definition link_front (b : nat) : KM unit :=
  hn ← bnext bhead;
  upd_buf b (set_b_next hn);;
  upd_buf b (set_b_prev bhead);;
  upd_buf hn (set_b_prev b);;
  upd_buf bhead (set_b_next b).

Definition binit : KM unit :=
  spin_lock_init LBcache "bcache";;
  upd_buf bhead (set_b_prev bhead);;
  upd_buf bhead (set_b_next bhead);;
  kiter (seq 0 N_BUF) (λ b,
    sleep_lock_init (SlBuf b) "buf";;
    upd_buf b (set_b_refcnt 0);;
    upd_buf b (set_b_valid false);;
    link_front b).

(** [for (b = bcache.head.next; b != &bcache.head; b = b->next)]: the first
    buffer of the list that satisfies [f]; [step] is [bnext] or [bprev]. *)
Definition bfind (step : nat → KM nat) (f : buffer → bool) : KM (option nat) :=
  b ← step bhead;
  loop (S N_BUF)
    (λ b, if decide (b = bhead) then mret (inr None) else
          x ← get_buf b;
          if f x then mret (inr (Some b)) else
          b ← step b; mret (inl b)) b.

Section buf.
Context `{Device} `{Rounds}.

Definition bread (dev bno : Z) : KM nat :=
  spin_lock_acquire LBcache;;
  hit ← bfind bnext (λ x, (b_dev x =? dev) && (b_bno x =? bno));
  match hit with
  | Some b =>
      upd_buf b (λ x, set_b_refcnt (u32 (b_refcnt x + 1)) x);;
      spin_lock_release LBcache;;
      sleep_lock_acquire (SlBuf b);;
      mret b
  | None =>
      lru ← bfind bprev (λ x, b_refcnt x =? 0);
      match lru with
      | Some b =>
          upd_buf b (set_b_dev dev);;
          upd_buf b (set_b_bno bno);;
          upd_buf b (set_b_valid false);;
          upd_buf b (set_b_refcnt 1);;
          spin_lock_release LBcache;;
          sleep_lock_acquire (SlBuf b);;
          virtio_disk_read b;;
          upd_buf b (set_b_valid true);;
          mret b
      | None => panic "no buffers"
      end
  end.

Definition bwrite (b : nat) : KM unit :=
  h ← sleep_lock_holding (SlBuf b);
  if negb h then panic "write an unlocked buffer" else
  virtio_disk_write b.

Definition brelse (b : nat) : KM unit :=
  sleep_lock_release (SlBuf b);;
  spin_lock_acquire LBcache;;
  (upd_buf b (λ x, set_b_refcnt (u32 (b_refcnt x - 1)) x);;
   x ← get_buf b;
   when (b_refcnt x =? 0)
     (upd_buf (b_next x) (set_b_prev (b_prev x));;
      upd_buf (b_prev x) (set_b_next (b_next x));;
      link_front b));;
  spin_lock_release LBcache.

Definition bpin (b : nat) : KM unit :=
  spin_lock_acquire LBcache;;
  (x ← get_buf b;
   if b_refcnt x <? 1 then panic "pin an invalid buffer" else
   upd_buf b (set_b_refcnt (u32 (b_refcnt x + 1))));;
  spin_lock_release LBcache.

Definition bunpin (b : nat) : KM unit :=
  spin_lock_acquire LBcache;;
  (x ← get_buf b;
   if b_refcnt x <? 1 then panic "unpin an invalid buffer" else
   upd_buf b (set_b_refcnt (u32 (b_refcnt x - 1))));;
  spin_lock_release LBcache.

(** [b->data], and stores into it. *)
Definition buf_data (b : nat) : KM (list Z) := x ← get_buf b; mret (b_data x).
Definition set_buf_data (b : nat) (f : list Z → list Z) : KM unit :=
  upd_buf b (λ x, set_b_data (f (b_data x)) x).

End buf.
