(* ===== verification/Log.v ===== *)
(** The write-ahead log: kernel/fs/log.c, and kernel/fs/fs.c that starts it. *)

From S2P Require Import Prelude Mem State Machine Mm Proc Sync Virtio Buf.

(** ** Little-endian integers in block buffers *)

Definition get_le (n : nat) (bs : list Z) (off : nat) : Z :=
  foldr (λ b acc, b + 256 * acc) 0 (take n (drop off bs)).
Definition put_le (n : nat) (v : Z) (off : nat) (bs : list Z) : list Z :=
  list_inserts off ((λ i, (v / 2 ^ (8 * i)) mod 256) <$> seqZ 0 (Z.of_nat n)) bs.

(** Element [i] of a block seen as an array of [uint32_t]. *)
Definition word32 (bs : list Z) (i : nat) : Z := get_le 4 bs (4 * i).
Definition set_word32 (v : Z) (i : nat) (bs : list Z) : list Z := put_le 4 v (4 * i) bs.

Definition upd_log (f : log → log) : KM unit := modify (λ s, set_k_log (f (k_log s)) s).
Definition get_log : KM log := gets k_log.

(** [lg.lh.blocks[i]], inside the array. *)
Definition log_block (i : nat) : KM Z :=
  g ← get_log;
  match lh_blocks g !! i with Some b => mret b | None => stuck Undefined end.
Definition set_log_block (i : nat) (b : Z) : KM unit :=
  g ← get_log;
  if decide (i < length (lh_blocks g))%nat
  then upd_log (λ g, set_lh_blocks (<[i := b]> (lh_blocks g)) g) else stuck Undefined.

Section log.
Context `{Device} `{Rounds}.

Definition install_one (recovering : bool) (i : nat) : KM unit :=
  g ← get_log;
  from ← bread (lg_dev g) (u32 (lg_start g + 1 + Z.of_nat i));
  bno ← log_block i;
  to ← bread (lg_dev g) bno;
  d ← buf_data from;
  set_buf_data to (λ _, d);;
  bwrite to;;
  when (negb recovering) (bunpin to);;
  brelse from;;
  brelse to.

Definition install_trans (recovering : bool) : KM unit :=
  g ← get_log;
  kiter (seq 0 (Z.to_nat (lh_n g))) (install_one recovering).

Definition read_log_header : KM unit :=
  g ← get_log;
  b ← bread (lg_dev g) (lg_start g);
  d ← buf_data b;
  upd_log (set_lh_n (word32 d 0));;
  kiter (seq 0 (Z.to_nat (word32 d 0))) (λ i, set_log_block i (word32 d (S i)));;
  brelse b.

Definition write_log_header : KM unit :=
  g ← get_log;
  b ← bread (lg_dev g) (lg_start g);
  set_buf_data b (set_word32 (lh_n g) 0);;
  kiter (seq 0 (Z.to_nat (lh_n g))) (λ i,
    bno ← log_block i;
    set_buf_data b (set_word32 bno (S i)));;
  bwrite b;;
  brelse b.

Definition recover_from_log : KM unit :=
  read_log_header;;
  install_trans true;;
  upd_log (set_lh_n 0);;
  write_log_header.

Definition log_init (dev : Z) : KM unit :=
  spin_lock_init LLog "log";;
  sb ← gets k_sb;
  upd_log (set_lg_start (sb_log_start sb));;
  upd_log (set_lg_size (sb_n_log_blks sb));;
  upd_log (set_lg_dev dev);;
  recover_from_log.

Definition begin_op : KM unit :=
  spin_lock_acquire LLog;;
  loop rounds
    (λ '(),
       g ← get_log;
       if lg_committing g then sleep_on ChLog LLog;; mret (inl tt)
       else if LOG_SIZE <? u32 (lh_n g + (lg_outstanding g + 1) * MAX_OP_BLKS)
       then sleep_on ChLog LLog;; mret (inl tt)
       else
         upd_log (set_lg_outstanding (s32 (lg_outstanding g + 1)));;
         spin_lock_release LLog;;
         mret (inr tt)) tt.

Definition write_one_to_log (i : nat) : KM unit :=
  g ← get_log;
  bno ← log_block i;
  from ← bread (lg_dev g) bno;
  to ← bread (lg_dev g) (u32 (lg_start g + 1 + Z.of_nat i));
  d ← buf_data from;
  set_buf_data to (λ _, d);;
  bwrite to;;
  brelse from;;
  brelse to.

Definition write_to_log : KM unit :=
  g ← get_log;
  kiter (seq 0 (Z.to_nat (lh_n g))) write_one_to_log.

Definition commit : KM unit :=
  g ← get_log;
  when (0 <? lh_n g)
    (write_to_log;;
     write_log_header;;
     install_trans false;;
     upd_log (set_lh_n 0);;
     write_log_header).

Definition end_op : KM unit :=
  spin_lock_acquire LLog;;
  upd_log (λ g, set_lg_outstanding (s32 (lg_outstanding g - 1)) g);;
  g ← get_log;
  if lg_committing g then panic "end the operation when the log is committing" else
  do_committing ← (if lg_outstanding g =? 0 then upd_log (set_lg_committing true);; mret true
                   else wake_up ChLog;; mret false);
  spin_lock_release LLog;;
  when do_committing
    (commit;;
     spin_lock_acquire LLog;;
     upd_log (set_lg_committing false);;
     wake_up ChLog;;
     spin_lock_release LLog).

(** The index of [bno] in [blocks], or the length. *)
Fixpoint block_index (bno : Z) (l : list Z) : nat :=
  match l with
  | [] => O
  | x :: l => if x =? bno then O else S (block_index bno l)
  end.

Definition log_write (b : nat) : KM unit :=
  spin_lock_acquire LLog;;
  g ← get_log;
  if u32 (lg_size g - 1) <=? lh_n g then panic "too big a transaction" else
  if lg_outstanding g <? 1 then panic "outside of transaction" else
  x ← get_buf b;
  let i := block_index (b_bno x) (take (Z.to_nat (lh_n g)) (lh_blocks g)) in
  set_log_block i (b_bno x);;
  when (Z.of_nat i =? lh_n g) (bpin b;; upd_log (set_lh_n (u32 (lh_n g + 1))));;
  spin_lock_release LLog.

(** ** kernel/fs/fs.c *)

Definition parse_sb (d : list Z) : super_block :=
  mk_super_block (word32 d 0) (word32 d 1) (word32 d 2) (word32 d 3) (word32 d 4) (word32 d 5)
    (word32 d 6) (word32 d 7) (word32 d 8).

Definition fs_init (dev : Z) : KM unit :=
  b ← bread dev 1;
  d ← buf_data b;
  modify (set_k_sb (parse_sb d));;
  brelse b;;
  log_init dev.

End log.
