(* ===== verification/Inode.v ===== *)
(** Inodes, files' data blocks, directories and paths: kernel/fs/inode.c.

    An in-memory inode is an index in [k_inodes].  Kernel buffers are byte
    lists: [readi] returns what it stored at a kernel [dst], [writei] takes
    what a kernel [src] points to. *)

From S2P Require Import Prelude Mem State Machine Mm Proc Sync Virtio Buf Log.

Definition FT_NONE : Z := 0.
Definition FT_DIR : Z := 1.
Definition FT_FILE : Z := 2.
Definition FT_DEVICE : Z := 3.

Definition D_INODE_SIZE : nat := 64.
Definition IPB : Z := 16.
Definition APB : Z := 256.
Definition DIRENT_SIZE : Z := 32.

Definition get_inode (i : nat) : KM m_inode :=
  o ← gets (λ s, k_inodes s !! i);
  match o with Some x => mret x | None => stuck Undefined end.
Definition upd_inode (i : nat) (f : m_inode → m_inode) : KM unit :=
  modify (λ s, set_k_inodes (alter f i (k_inodes s)) s).

Definition IBLOCK (ino : Z) : KM Z :=
  sb ← gets k_sb; mret (u32 (ino / IPB + sb_inode_start sb)).

(** ** On-disk inodes *)

Record d_inode := mk_d_inode {
  di_type : Z; di_major : Z; di_minor : Z; di_nlink : Z; di_size : Z; di_addrs : list Z
}.

Definition dinode_off (ino : Z) : nat := D_INODE_SIZE * Z.to_nat (ino mod IPB).

Definition get_dinode (data : list Z) (ino : Z) : d_inode :=
  let o := dinode_off ino in
  mk_d_inode (get_le 2 data o) (get_le 2 data (o + 2)) (get_le 2 data (o + 4))
    (get_le 2 data (o + 6)) (get_le 4 data (o + 8))
    ((λ k, get_le 4 data (o + 12 + 4 * k)) <$> seq 0 13).

(** The stores of [iupdate] into the block. *)
Definition put_dinode (di : d_inode) (ino : Z) (data : list Z) : list Z :=
  let o := dinode_off ino in
  let data := put_le 2 (di_type di) o data in
  let data := put_le 2 (di_major di) (o + 2) data in
  let data := put_le 2 (di_minor di) (o + 4) data in
  let data := put_le 2 (di_nlink di) (o + 6) data in
  let data := put_le 4 (di_size di) (o + 8) data in
  foldl (λ data k, put_le 4 (default 0 (di_addrs di !! k)) (o + 12 + 4 * k) data) data (seq 0 13).

(** ** Bitmaps *)

(** Bit [k] of a bitmap block: bit [k mod 8] of byte [k / 8]. *)
Definition bit_clear (bs : list Z) (k : nat) : bool :=
  Z.land (default 0 (bs !! (k / 8)%nat)) (Z.shiftl 1 (Z.of_nat (k mod 8))) =? 0.
Definition set_bit (k : nat) (bs : list Z) : list Z :=
  alter (λ x, u8 (Z.lor x (Z.shiftl 1 (Z.of_nat (k mod 8))))) (k / 8)%nat bs.
Definition clear_bit (k : nat) (bs : list Z) : list Z :=
  alter (λ x, u8 (Z.land x (Z.lnot (Z.shiftl 1 (Z.of_nat (k mod 8)))))) (k / 8)%nat bs.

(** The two nested [for] loops: the first clear bit among [n] bits from [k]. *)
Fixpoint find_bit (bs : list Z) (skip0 : bool) (k n : nat) : option nat :=
  match n with
  | O => None
  | S n =>
      if bit_clear bs k && negb (skip0 && (k =? 0)%nat) then Some k
      else find_bit bs skip0 (S k) n
  end.

Definition BITS : nat := 8 * Z.to_nat BLOCK_SIZE.

Definition iinit : KM unit :=
  spin_lock_init LItable "itable";;
  kiter (seq 0 N_INODE) (λ i, sleep_lock_init (SlInode i) "inode").

(** ** The inode table *)

(** The loop of [iget]: the index of a hit, or of the first empty slot. *)
Fixpoint iget_scan (l : list m_inode) (i : nat) (dev ino : Z) (empty : option nat)
    : option nat * option nat :=
  match l with
  | [] => (None, empty)
  | x :: l =>
      if (0 <? i_refcnt x) && (i_dev x =? dev) && (i_ino x =? ino) then (Some i, empty)
      else iget_scan l (S i) dev ino
             (match empty with
              | None => if i_refcnt x =? 0 then Some i else None
              | Some e => Some e
              end)
  end.

Definition iget (dev ino : Z) : KM nat :=
  let dev := wrap 16 dev in
  let ino := wrap 16 ino in
  spin_lock_acquire LItable;;
  r ← gets (λ s, iget_scan (k_inodes s) 0 dev ino None);
  match r with
  | (Some i, _) =>
      upd_inode i (λ x, set_i_refcnt (u32 (i_refcnt x + 1)) x);;
      spin_lock_release LItable;;
      mret i
  | (None, None) => panic "no inodes"
  | (None, Some i) =>
      upd_inode i (set_i_refcnt 1);;
      upd_inode i (set_i_dev dev);;
      upd_inode i (set_i_ino ino);;
      upd_inode i (set_i_valid false);;
      spin_lock_release LItable;;
      mret i
  end.

Definition idup (i : nat) : KM nat :=
  spin_lock_acquire LItable;;
  x ← get_inode i;
  if i_refcnt x <? 1 then panic "duplicate an invalid inode" else
  upd_inode i (set_i_refcnt (u32 (i_refcnt x + 1)));;
  spin_lock_release LItable;;
  mret i.

Section inode.
Context `{Device} `{Rounds}.

(** ** Data blocks *)

Definition bzero (dev bno : Z) : KM unit :=
  b ← bread dev bno;
  set_buf_data b (λ d, replicate (length d) 0);;
  log_write b;;
  brelse b.

Definition balloc (dev : Z) : KM Z :=
  sb ← gets k_sb;
  bitmap ← bread dev (sb_data_bitmap_start sb);
  d ← buf_data bitmap;
  match find_bit d false 0 BITS with
  | Some k =>
      set_buf_data bitmap (set_bit k);;
      log_write bitmap;;
      brelse bitmap;;
      let bno := u32 (Z.of_nat k + sb_data_start sb) in
      bzero dev bno;;
      mret bno
  | None => brelse bitmap;; mret 0
  end.

Definition bfree (dev bno : Z) : KM unit :=
  sb ← gets k_sb;
  b ← bread dev (sb_data_bitmap_start sb);
  let k := u32 (bno - sb_data_start sb) in
  (if k / 8 <? BLOCK_SIZE then set_buf_data b (clear_bit (Z.to_nat k)) else stuck Undefined);;
  log_write b;;
  brelse b.

(** ** Inodes *)

Definition ialloc (dev type : Z) : KM (option nat) :=
  sb ← gets k_sb;
  bitmap ← bread dev (sb_inode_bitmap_start sb);
  d ← buf_data bitmap;
  match find_bit d true 0 BITS with
  | Some k =>
      set_buf_data bitmap (set_bit k);;
      log_write bitmap;;
      brelse bitmap;;
      let ino := Z.of_nat k in
      ib ← IBLOCK ino;
      iblock ← bread dev ib;
      set_buf_data iblock (put_dinode (mk_d_inode (wrap 16 type) 0 0 0 0 (replicate 13 0)) ino);;
      log_write iblock;;
      brelse iblock;;
      i ← iget dev ino;
      mret (Some i)
  | None => brelse bitmap;; mret None
  end.

Definition iupdate (i : nat) : KM unit :=
  x ← get_inode i;
  ib ← IBLOCK (i_ino x);
  b ← bread (i_dev x) ib;
  set_buf_data b (put_dinode (mk_d_inode (i_type x) (i_major x) (i_minor x) (i_nlink x)
                                (i_size x) (i_addrs x)) (i_ino x));;
  log_write b;;
  brelse b.

Definition ilock (i : nat) : KM unit :=
  x ← get_inode i;
  if i_refcnt x <? 1 then panic "lock an invalid inode" else
  sleep_lock_acquire (SlInode i);;
  x ← get_inode i;
  if negb (i_valid x) then
    ib ← IBLOCK (i_ino x);
    b ← bread (i_dev x) ib;
    d ← buf_data b;
    let di := get_dinode d (i_ino x) in
    upd_inode i (λ x, set_i_addrs (di_addrs di) (set_i_size (di_size di)
      (set_i_nlink (di_nlink di) (set_i_minor (di_minor di) (set_i_major (di_major di)
      (set_i_type (di_type di) x))))));;
    brelse b;;
    upd_inode i (set_i_valid true);;
    when (di_type di =? 0) (panic "inode has no type")
  else mret tt.

Definition iunlock (i : nat) : KM unit :=
  x ← get_inode i;
  if i_refcnt x <? 1 then panic "unlock an invalid inode" else
  sleep_lock_release (SlInode i).

(** Entry [k] of [inode->addrs]. *)
Definition iaddr (i k : nat) : KM Z :=
  x ← get_inode i;
  match i_addrs x !! k with Some a => mret a | None => stuck Undefined end.
Definition set_iaddr (i k : nat) (a : Z) : KM unit :=
  upd_inode i (λ x, set_i_addrs (<[k := a]> (i_addrs x)) x).

Definition bmap (i : nat) (nth : Z) : KM Z :=
  x ← get_inode i;
  if nth <? N_DIRECT then
    let k := Z.to_nat nth in
    a ← iaddr i k;
    when (a =? 0) (a ← balloc (i_dev x); set_iaddr i k a);;
    iaddr i k
  else
  let nth := nth - N_DIRECT in
  if nth <? N_INDIRECT * APB then
    let k := Z.to_nat (N_DIRECT + nth / APB) in
    a ← iaddr i k;
    when (a =? 0) (a ← balloc (i_dev x); set_iaddr i k a);;
    a ← iaddr i k;
    if a =? 0 then mret 0 else
    b ← bread (i_dev x) a;
    let j := Z.to_nat (nth mod APB) in
    d ← buf_data b;
    if word32 d j =? 0 then
      a ← balloc (i_dev x);
      set_buf_data b (set_word32 a j);;
      if a =? 0 then brelse b;; mret 0 else
      log_write b;;
      d ← buf_data b;
      brelse b;;
      mret (word32 d j)
    else
      brelse b;;
      mret (word32 d j)
  else panic "the maximum number of blocks for a single file".

Definition itrunc_direct (i k : nat) : KM unit :=
  a ← iaddr i k;
  when (negb (a =? 0))
    (x ← get_inode i;
     bfree (i_dev x) a;;
     set_iaddr i k 0).

Definition itrunc_indirect (i k : nat) : KM unit :=
  a ← iaddr i k;
  when (negb (a =? 0))
    (x ← get_inode i;
     b ← bread (i_dev x) a;
     kiter (seq 0 (Z.to_nat APB)) (λ j,
       d ← buf_data b;
       when (negb (word32 d j =? 0)) (bfree (i_dev x) (word32 d j)));;
     brelse b;;
     bfree (i_dev x) a;;
     set_iaddr i k 0).

Definition itrunc (i : nat) : KM unit :=
  kiter (seq 0 (Z.to_nat N_DIRECT)) (itrunc_direct i);;
  kiter (seq (Z.to_nat N_DIRECT) (Z.to_nat N_INDIRECT)) (itrunc_indirect i);;
  upd_inode i (set_i_size 0);;
  iupdate i.

Definition iput (i : nat) : KM unit :=
  spin_lock_acquire LItable;;
  x ← get_inode i;
  when ((i_refcnt x =? 1) && i_valid x && (i_nlink x =? 0))
    (sleep_lock_acquire (SlInode i);;
     spin_lock_release LItable;;
     itrunc i;;
     upd_inode i (set_i_type 0);;
     iupdate i;;
     upd_inode i (set_i_valid false);;
     sleep_lock_release (SlInode i);;
     spin_lock_acquire LItable);;
  upd_inode i (λ x, set_i_refcnt (u32 (i_refcnt x - 1)) x);;
  spin_lock_release LItable.

(** ** Reading and writing files *)

(** The bytes of a block from offset [o], [n] of them. *)
Definition slice (o n : Z) (d : list Z) : list Z := take (Z.to_nat n) (drop (Z.to_nat o) d).

(** The result and the bytes stored at a kernel [dst]. *)
Definition readi (i : nat) (to_user : bool) (dst off n : Z) : KM (Z * list Z) :=
  x ← get_inode i;
  if i_size x <? off then mret (-1, []) else
  let n := if i_size x <? u64 (off + n) then u64 (i_size x - off) else n in
  let target := n in
  '(n, out) ← loop (S (Z.to_nat n))
    (λ '(dst, off, n, out),
       if 0 <? n then
         addr ← bmap i (u32 (Z.quot off BLOCK_SIZE));
         if addr =? 0 then mret (inr (n, out)) else
         b ← bread (i_dev x) addr;
         let o := Z.rem off BLOCK_SIZE in
         let len := BLOCK_SIZE - o in
         let len := if n <? len then n else len in
         d ← buf_data b;
         '(r, bs) ← either_copy_out to_user dst (slice o len d);
         if negb (r =? 0) then brelse b;; mret (inr (n, out)) else
         brelse b;;
         mret (inl (u64 (dst + len), off + len, n - len, out ++ bs))
       else mret (inr (n, out))) (dst, off, n, []);
  mret (target - n, out).

(** [ksrc]: what a kernel [src] points to. *)
Definition writei (i : nat) (from_user : bool) (src : Z) (ksrc : list Z) (off n : Z) : KM Z :=
  x ← get_inode i;
  if i_size x <? off then mret (-1) else
  let target := n in
  '(off, n) ← loop (S (Z.to_nat n))
    (λ '(src, ksrc, off, n),
       if 0 <? n then
         addr ← bmap i (u32 (Z.quot off BLOCK_SIZE));
         if addr =? 0 then mret (inr (off, n)) else
         b ← bread (i_dev x) addr;
         let o := Z.rem off BLOCK_SIZE in
         let len := BLOCK_SIZE - o in
         let len := if n <? len then n else len in
         '(r, bs) ← either_copy_in from_user src len ksrc;
         set_buf_data b (list_inserts (Z.to_nat o) bs);;
         if negb (r =? 0) then brelse b;; mret (inr (off, n)) else
         log_write b;;
         brelse b;;
         mret (inl (u64 (src + len), drop (Z.to_nat len) ksrc, off + len, n - len))
       else mret (inr (off, n))) (src, ksrc, off, n);
  x ← get_inode i;
  when (i_size x <? off) (upd_inode i (set_i_size (u32 off)));;
  iupdate i;;
  mret (target - n).

Record stat := mk_stat { st_type : Z; st_ino : Z; st_nlink : Z; st_size : Z }.

Definition stati (i : nat) : KM stat :=
  x ← get_inode i; mret (mk_stat (i_type x) (i_ino x) (i_nlink x) (i_size x)).

Definition lseeki (i : nat) (offset : Z) : KM Z :=
  x ← get_inode i;
  if negb (i_type x =? FT_FILE) then mret (-1) else
  a ← bmap i (u32 (Z.quot offset BLOCK_SIZE));
  mret (if negb (a =? 0) then offset else -1).

(** ** Directories *)

Definition de_ino (de : list Z) : Z := get_le 2 de 0.
Definition de_name (de : list Z) : list Z := drop 2 de.

(** The inode found and the offset of its entry. *)
Definition dir_lookup (dir : nat) (name : list Z) : KM (option (nat * Z)) :=
  x ← get_inode dir;
  if negb (i_type x =? FT_DIR) then panic "lookup in non-directory files" else
  loop (S (Z.to_nat (i_size x)))
    (λ off,
       if off <? i_size x then
         '(r, de) ← readi dir false 0 off DIRENT_SIZE;
         if negb (r =? DIRENT_SIZE) then panic "inode read error" else
         if de_ino de =? 0 then mret (inl (off + DIRENT_SIZE)) else
         if strncmp (rdl (de_name de)) (rdl name) DIR_SIZE =? 0 then
           i ← iget (i_dev x) (de_ino de);
           mret (inr (Some (i, off)))
         else mret (inl (off + DIRENT_SIZE))
       else mret (inr None)) 0.

(** As in the code, the scan for a free entry tests [dir->ino]. *)
Definition dir_link (dir : nat) (name : list Z) (ino : Z) : KM Z :=
  r ← dir_lookup dir name;
  match r with
  | Some (i, _) => iput i;; mret (-1)
  | None =>
      x ← get_inode dir;
      off ← loop (S (Z.to_nat (i_size x)))
        (λ off,
           if off <? i_size x then
             '(r, de) ← readi dir false 0 off DIRENT_SIZE;
             if negb (r =? DIRENT_SIZE) then panic "inode read error" else
             if i_ino x =? 0 then mret (inr off) else mret (inl (off + DIRENT_SIZE))
           else mret (inr off)) 0;
      let de := put_le 2 (wrap 16 ino) 0 [0; 0] ++ strncpy (rdl name) DIR_SIZE in
      r ← writei dir false 0 de off DIRENT_SIZE;
      mret (if negb (r =? DIRENT_SIZE) then -1 else 0)
  end.

(** ** Paths *)

(** [while ( *path == '/') path++;] *)
Fixpoint skip_slashes (path : list Z) : list Z :=
  match path with
  | c :: rest => if c =? 47 then skip_slashes rest else path
  | [] => []
  end.

(** The bytes before the next '/' or the end, and the rest. *)
Fixpoint span_elem (path : list Z) : list Z * list Z :=
  match path with
  | c :: rest =>
      if c =? 47 then ([], path)
      else let '(e, r) := span_elem rest in (c :: e, r)
  | [] => ([], [])
  end.

(** The path is the list of its bytes before the terminator; [None] for the
    null pointer, else the rest of the path and the contents of [name]. *)
Definition skip_elem (path : list Z) : option (list Z * list Z) :=
  match skip_slashes path with
  | [] => None
  | path =>
      let '(e, rest) := span_elem path in
      Some (skip_slashes rest, take DIR_SIZE e)
  end.

(** The inode and the last element copied to [name]. *)
Definition lookup (path : list Z) (parent : bool) : KM (option nat * list Z) :=
  start ← (match path with
           | 47 :: _ => iget ROOT_DEV ROOT_INO
           | _ => p ← the_proc; x ← get_proc p;
                  match p_cwd x with Some i => idup i | None => stuck Undefined end
           end);
  loop (S (length path))
    (λ '(path, inode, name),
       match skip_elem path with
       | Some (path, name) =>
           ilock inode;;
           x ← get_inode inode;
           if negb (i_type x =? FT_DIR) then
             iunlock inode;; iput inode;; mret (inr (None, name))
           else if parent && bool_decide (path = []) then
             iunlock inode;; mret (inr (Some inode, name))
           else
             r ← dir_lookup inode name;
             match r with
             | None => iunlock inode;; iput inode;; mret (inr (None, name))
             | Some (next, _) =>
                 iunlock inode;; iput inode;; mret (inl (path, next, name))
             end
       | None =>
           if (parent : bool) then iput inode;; mret (inr (None, name))
           else mret (inr (Some inode, name))
       end) (path, start, []).

Definition namei (path : list Z) : KM (option nat) :=
  '(i, _) ← lookup path false; mret i.

Definition parenti (path : list Z) : KM (option nat * list Z) := lookup path true.

End inode.
