(* ===== verification/Pipe.v ===== *)
(** Pipes: kernel/fs/pipe.c ([pipe_alloc] is in File.v).

    A pipe is named by the address of its page; its fields are in [k_pipes]. *)

From S2P Require Import Prelude Mem State Machine Mm Proc Sync.

Definition PIPE_SIZE : Z := 1024.

Definition get_pipe (pi : Z) : KM pipe :=
  o ← gets (λ s, k_pipes s !! pi);
  match o with Some x => mret x | None => stuck Undefined end.
Definition upd_pipe (pi : Z) (f : pipe → pipe) : KM unit :=
  modify (λ s, set_k_pipes (alter f pi (k_pipes s)) s).

(** [pi->data[i]], inside the array. *)
Definition pipe_byte (pi i : Z) : KM Z :=
  x ← get_pipe pi;
  match pi_data x !! Z.to_nat i with Some c => mret c | None => stuck Undefined end.
Definition set_pipe_byte (pi i c : Z) : KM unit :=
  x ← get_pipe pi;
  if decide (Z.to_nat i < length (pi_data x))%nat
  then upd_pipe pi (λ x, set_pi_data (<[Z.to_nat i := c]> (pi_data x)) x) else stuck Undefined.

Definition pipe_close (pi : Z) (writable : bool) : KM unit :=
  spin_lock_acquire (LPipe pi);;
  (if writable then upd_pipe pi (set_pi_write_open false);; wake_up (ChPipeR pi)
   else upd_pipe pi (set_pi_read_open false);; wake_up (ChPipeW pi));;
  x ← get_pipe pi;
  if negb (pi_read_open x) && negb (pi_write_open x) then
    spin_lock_release (LPipe pi);;
    pm_free pi;;
    modify (λ s, set_k_pipes (delete pi (k_pipes s)) s)
  else spin_lock_release (LPipe pi).

(** The [for] loop of [pipe_read]: [i] bytes are already read. *)
Definition pipe_read_loop (p : nat) (pi dst n : Z) : KM Z :=
  loop (S (Z.to_nat n))
    (λ i,
       if i <? n then
         x ← get_pipe pi;
         if pi_r x =? pi_w x then mret (inr i) else
         c ← pipe_byte pi (pi_r x);
         upd_pipe pi (set_pi_r ((pi_r x + 1) mod PIPE_SIZE));;
         pr ← get_proc p;
         r ← copy_out (p_page_table pr) (u64 (dst + i)) [c];
         if negb (r =? 0) then mret (inr i) else mret (inl (i + 1))
       else mret (inr i)) 0.

Definition pipe_read `{Rounds} (pi dst n : Z) : KM Z :=
  p ← the_proc;
  spin_lock_acquire (LPipe pi);;
  go ← loop rounds
    (λ '(),
       x ← get_pipe pi;
       if (pi_r x =? pi_w x) && pi_write_open x then
         k ← killed p;
         if (k : bool) then spin_lock_release (LPipe pi);; mret (inr false)
         else sleep_on (ChPipeR pi) (LPipe pi);; mret (inl tt)
       else mret (inr true)) tt;
  if negb go then mret (-1) else
  i ← pipe_read_loop p pi dst n;
  wake_up (ChPipeW pi);;
  spin_lock_release (LPipe pi);;
  mret i.

(** One round of the loop of [pipe_write], [i] bytes already written. *)
Definition pipe_write_round (p : nat) (pi src n i : Z) : KM (Z + option Z) :=
  if i <? n then
    x ← get_pipe pi;
    stop ← (if negb (pi_read_open x) then mret true else killed p);
    if (stop : bool) then spin_lock_release (LPipe pi);; mret (inr None) else
    if (pi_w x + 1) mod PIPE_SIZE =? pi_r x then
      wake_up (ChPipeR pi);;
      sleep_on (ChPipeW pi) (LPipe pi);;
      mret (inl i)
    else
      pr ← get_proc p;
      '(r, bs) ← copy_in (p_page_table pr) (u64 (src + i)) 1;
      if negb (r =? 0) then mret (inr (Some i)) else
      set_pipe_byte pi (pi_w x) (default 0 (head bs));;
      upd_pipe pi (set_pi_w ((pi_w x + 1) mod PIPE_SIZE));;
      mret (inl (i + 1))
  else mret (inr (Some i)).

Definition pipe_write `{Rounds} (pi src n : Z) : KM Z :=
  p ← the_proc;
  spin_lock_acquire (LPipe pi);;
  r ← loop (rounds + Z.to_nat n) (pipe_write_round p pi src n) 0;
  match r with
  | None => mret (-1)
  | Some i =>
      wake_up (ChPipeR pi);;
      spin_lock_release (LPipe pi);;
      mret i
  end.
