(* ===== verification/File.v ===== *)
(** Open files: kernel/fs/file.c, and [pipe_alloc] of kernel/fs/pipe.c. *)

From S2P Require Import Prelude Mem State Machine Mm Proc Sync Console Virtio Buf Log Inode Pipe.

Definition FD_NONE : Z := 0.
Definition FD_INODE : Z := 1.
Definition FD_DEVICE : Z := 2.
Definition FD_PIPE : Z := 3.
Definition SEEK_SET : Z := 0.
Definition SEEK_CUR : Z := 1.
Definition SEEK_END : Z := 2.

Definition get_file (f : nat) : KM file :=
  o ← gets (λ s, k_files s !! f);
  match o with Some x => mret x | None => stuck Undefined end.
Definition upd_file (f : nat) (g : file → file) : KM unit :=
  modify (λ s, set_k_files (alter g f (k_files s)) s).

Definition file_init : KM unit := spin_lock_init LFtable "ftable".

(** The first file from index [f] with no references. *)
Fixpoint find_file (l : list file) (f : nat) : option nat :=
  match l with
  | [] => None
  | x :: l => if f_refcnt x =? 0 then Some f else find_file l (S f)
  end.

Definition file_alloc : KM (option nat) :=
  spin_lock_acquire LFtable;;
  o ← (o ← gets (λ s, find_file (k_files s) 0);
       match o with
       | Some f => upd_file f (set_f_refcnt 1);; mret (Some f)
       | None => mret None
       end);
  spin_lock_release LFtable;;
  mret o.

Definition file_dup (f : nat) : KM nat :=
  spin_lock_acquire LFtable;;
  r ← (x ← get_file f;
       if f_refcnt x <? 1 then panic "duplicate an invalid file" else
       upd_file f (set_f_refcnt (u32 (f_refcnt x + 1)));;
       mret f);
  spin_lock_release LFtable;;
  mret r.

Section file.
Context `{Device} `{Rounds}.

Definition file_close (f : nat) : KM unit :=
  spin_lock_acquire LFtable;;
  x ← get_file f;
  if f_refcnt x <? 1 then panic "close an invalid file" else
  upd_file f (set_f_refcnt (u32 (f_refcnt x - 1)));;
  when (f_refcnt x - 1 =? 0)
    ((if f_type x =? FD_PIPE then pipe_close (f_pi x) (f_writable x)
      else match f_inode x with Some i => iput i | None => stuck Undefined end);;
     upd_file f (set_f_type FD_NONE));;
  spin_lock_release LFtable.

(** [f->inode->...] *)
Definition file_inode (f : nat) : KM nat :=
  x ← get_file f;
  match f_inode x with Some i => mret i | None => stuck Undefined end.

(** The bytes of [struct stat]: type, ino, nlink, two bytes of padding, size.
    The padding is whatever the kernel stack holds. *)
Definition stat_bytes (pad : list Z) (st : stat) : list Z :=
  put_le 2 (st_type st) 0 [0; 0] ++ put_le 2 (st_ino st) 0 [0; 0] ++
  put_le 2 (st_nlink st) 0 [0; 0] ++ pad ++ put_le 4 (st_size st) 0 [0; 0; 0; 0].

Definition file_stat (pad : list Z) (f : nat) (pstat : Z) : KM Z :=
  x ← get_file f;
  if (f_type x =? FD_INODE) || (f_type x =? FD_DEVICE) then
    i ← file_inode f;
    ilock i;;
    st ← stati i;
    iunlock i;;
    pt ← running_page_table;
    copy_out pt pstat (stat_bytes pad st)
  else mret (-1).

Definition file_lseek (f : nat) (offset whence : Z) : KM Z :=
  x ← get_file f;
  if negb (f_type x =? FD_INODE) then mret (-1) else
  i ← file_inode f;
  ret ← (if whence =? SEEK_SET then lseeki i offset
         else if whence =? SEEK_CUR then lseeki i (s64 (f_off x + offset))
         else if whence =? SEEK_END then
           (y ← get_inode i; lseeki i (s64 (i_size y + offset)))
         else mret (-1));
  when (negb (ret =? -1)) (upd_file f (set_f_off (u32 ret)));;
  mret ret.

(** [devlist[major].read] and [.write] are null or the console's. *)
Definition has_device (major : Z) : KM bool :=
  l ← gets k_devlist;
  mret ((major <? N_DEV) && default false (l !! Z.to_nat major)).

Definition file_read (f : nat) (dst n : Z) : KM Z :=
  x ← get_file f;
  if negb (f_readable x) then mret (-1) else
  if f_type x =? FD_DEVICE then
    d ← has_device (f_major x);
    if negb d then mret (-1) else
    '(r, _) ← console_read true dst n;
    mret r
  else if f_type x =? FD_INODE then
    i ← file_inode f;
    ilock i;;
    y ← get_file f;
    '(r, _) ← readi i true dst (f_off y) n;
    when (0 <? r) (upd_file f (set_f_off (u32 (f_off y + r))));;
    iunlock i;;
    mret r
  else if f_type x =? FD_PIPE then pipe_read (f_pi x) dst n
  else panic "unknown file descriptor type".

(** As in the code, every round passes [n] and [src] to [writei], not what is
    left of them. *)
Definition file_write_inode (f : nat) (src n : Z) : KM Z :=
  let max := (MAX_OP_BLKS - 1 - 1 - 2) / 2 * BLOCK_SIZE in
  i ← loop (S (Z.to_nat n))
    (λ i,
       if i <? n then
         let len := n - i in
         let len := if max <? len then max else len in
         begin_op;;
         ino ← file_inode f;
         ilock ino;;
         y ← get_file f;
         r ← writei ino true src [] (f_off y) n;
         when (0 <? r) (upd_file f (set_f_off (u32 (f_off y + r))));;
         iunlock ino;;
         end_op;;
         if negb (u64 r =? len) then mret (inr i) else mret (inl (i + r))
       else mret (inr i)) 0;
  mret (if i =? n then n else -1).

Definition file_write (f : nat) (src n : Z) : KM Z :=
  x ← get_file f;
  if negb (f_writable x) then mret (-1) else
  if f_type x =? FD_DEVICE then
    d ← has_device (f_major x);
    if negb d then mret (-1) else
    console_write true src [] n
  else if f_type x =? FD_INODE then file_write_inode f src n
  else if f_type x =? FD_PIPE then pipe_write (f_pi x) src n
  else panic "unknown file descriptor type".

(** ** kernel/fs/pipe.c: pipe_alloc *)

(** The two files, or [None] for the result -1.  When the first [file_alloc]
    fails, [*wfile] has never been assigned and the code reads it. *)
Definition pipe_alloc : KM (option (nat * nat)) :=
  r ← file_alloc;
  match r with
  | None => stuck Undefined
  | Some rfile =>
      w ← file_alloc;
      match w with
      | None => file_close rfile;; mret None
      | Some wfile =>
          pi ← pm_alloc;
          if pi =? 0 then file_close rfile;; file_close wfile;; mret None else
          modify (λ s, set_k_pipes (<[pi := mk_pipe 0 0 true true
            (mbytes (k_mem s) (pi + 26) (Z.to_nat PIPE_SIZE))]> (k_pipes s)) s);;
          spin_lock_init (LPipe pi) "pipe";;
          upd_file rfile (λ x, set_f_pi pi (set_f_writable false (set_f_readable true
            (set_f_type FD_PIPE x))));;
          upd_file wfile (λ x, set_f_pi pi (set_f_writable true (set_f_readable false
            (set_f_type FD_PIPE x))));;
          mret (Some (rfile, wfile))
      end
  end.

End file.
