(* ===== verification/Fork.v ===== *)
(** The part of kernel/sched/proc.c that uses the file system: [fork],
    [do_exit], [fork_return] and [user_init]; and the trap frame. *)

From S2P Require Import Prelude Mem State Machine Mm Proc Sync Console Virtio Buf Log Inode Pipe File.

(** ** The trap frame, in memory at [p->tf] *)

Definition tf_get (p : nat) (field : Z) : KM Z :=
  x ← get_proc p; load64 (p_tf x + field).
Definition tf_set (p : nat) (field v : Z) : KM unit :=
  x ← get_proc p; store64 (p_tf x + field) v.

(** The machine code of the first process, [initcode] in proc.c. *)
Definition initcode : list Z :=
  [0x17; 0x05; 0x00; 0x00; 0x13; 0x05; 0xc5; 0x02; 0x97; 0x05; 0x00; 0x00;
   0x93; 0x85; 0x65; 0x03; 0x17; 0x06; 0x00; 0x00; 0x13; 0x06; 0xe6; 0x03;
   0x93; 0x08; 0xd0; 0x00; 0x73; 0x00; 0x00; 0x00; 0x93; 0x08; 0x40; 0x00;
   0x73; 0x00; 0x00; 0x00; 0xef; 0xf0; 0x9f; 0xff; 0x2f; 0x69; 0x6e; 0x69;
   0x74; 0x00; 0x00; 0x53; 0x48; 0x45; 0x4c; 0x4c; 0x3d; 0x2f; 0x73; 0x68;
   0x00; 0x00; 0x2c; 0x00; 0x00; 0x00; 0x00; 0x00; 0x00; 0x00; 0x00; 0x00;
   0x00; 0x00; 0x00; 0x00; 0x00; 0x00; 0x33; 0x00; 0x00; 0x00; 0x00; 0x00;
   0x00; 0x00; 0x00; 0x00; 0x00; 0x00; 0x00; 0x00; 0x00; 0x00; 0x01; 0x00].

Section fork.
Context `{Device} `{Rounds} (trampoline fork_return_addr : Z).

(** [for (fd = 0; fd < N_OFILE; fd++) ...] of [fork]. *)
Definition copy_ofile (parent child fd : nat) : KM unit :=
  x ← get_proc parent;
  match p_ofile x !! fd with
  | Some (Some f) =>
      f ← file_dup f;
      upd_proc child (λ y, set_p_ofile (<[fd := Some f]> (p_ofile y)) y)
  | Some None => mret tt
  | None => stuck Undefined
  end.

Definition fork : KM Z :=
  o ← proc_alloc trampoline fork_return_addr;
  match o with
  | None => mret (-1)
  | Some child =>
      parent ← the_proc;
      px ← get_proc parent;
      cx ← get_proc child;
      r ← copy_user_page_table (p_page_table cx) (p_page_table px) (p_size px);
      if negb (r =? 0) then
        proc_free child;; spin_lock_release (LProc child);; mret (-1)
      else
      upd_proc child (set_p_size (p_size px));;
      upd_mem (λ m, memmove m (p_tf cx) (p_tf px) (Z.to_nat TF_SIZE));;
      tf_set child TF_a0 0;;
      kiter (seq 0 N_OFILE) (copy_ofile parent child);;
      px ← get_proc parent;
      cwd ← (match p_cwd px with Some i => idup i | None => stuck Undefined end);
      upd_proc child (set_p_cwd (Some cwd));;
      upd_proc child (set_p_name (strncpy (rdl (p_name px)) 20));;
      cx ← get_proc child;
      let pid := p_pid cx in
      spin_lock_release (LProc child);;
      spin_lock_acquire LWait;;
      upd_proc child (set_p_parent (Some parent));;
      spin_lock_release LWait;;
      spin_lock_acquire (LProc child);;
      upd_proc child (set_p_state PROC_RUNNABLE);;
      spin_lock_release (LProc child);;
      mret pid
  end.

Definition close_ofile (p fd : nat) : KM unit :=
  x ← get_proc p;
  match p_ofile x !! fd with
  | Some (Some f) =>
      file_close f;;
      upd_proc p (λ y, set_p_ofile (<[fd := None]> (p_ofile y)) y)
  | Some None => mret tt
  | None => stuck Undefined
  end.

(** [wake_up(q)] on a process, [q] possibly null: nothing sleeps on the null
    channel, but the locks are taken in turn. *)
Definition wake_up_proc (q : option nat) : KM unit :=
  match q with
  | Some q => wake_up (ChProc q)
  | None =>
      rp ← running_proc;
      kiter all_procs (λ p,
        when (negb (bool_decide (rp = Some p)))
          (spin_lock_acquire (LProc p);;
           upd_proc p (λ x, if decide (p_state x = PROC_SLEEPING ∧ p_chan x = None)
                            then set_p_state PROC_RUNNABLE x else x);;
           spin_lock_release (LProc p)))
  end.

Definition do_exit (state : Z) : KM unit :=
  p ← the_proc;
  ip ← gets k_init_proc;
  if decide (ip = Some p) then panic "'init' exit" else
  kiter (seq 0 N_OFILE) (close_ofile p);;
  begin_op;;
  x ← get_proc p;
  (match p_cwd x with Some i => iput i | None => stuck Undefined end);;
  end_op;;
  upd_proc p (set_p_cwd None);;
  spin_lock_acquire LWait;;
  kiter all_procs (λ child,
    upd_proc child (λ y,
      if decide (p_state y ≠ PROC_UNUSED ∧ p_parent y = Some p)
      then set_p_parent ip y else y));;
  spin_lock_release LWait;;
  wake_up_proc ip;;
  spin_lock_acquire (LProc p);;
  upd_proc p (set_p_xstate (s32 state));;
  upd_proc p (set_p_state PROC_ZOMBIE);;
  x ← get_proc p;
  wake_up_proc (p_parent x);;
  sched;;
  panic "zombie process".

(** [fork_return] up to [user_trap_return]. *)
Definition fork_return : KM unit :=
  p ← the_proc;
  spin_lock_release (LProc p);;
  first ← gets k_first;
  when first
    (modify (set_k_first false);;
     fs_init ROOT_DEV).

Definition user_init : KM unit :=
  o ← proc_alloc trampoline fork_return_addr;
  match o with
  | None => stuck Undefined
  | Some p =>
      mem ← pm_alloc;
      upd_mem (λ m, memset m mem 0 (Z.to_nat PAGE_SIZE));;
      x ← get_proc p;
      map_pages (p_page_table x) 0 mem PAGE_SIZE (Z.lor (Z.lor (Z.lor PTE_U PTE_R) PTE_W) PTE_X);;
      upd_mem (λ m, mwrite m mem initcode);;
      upd_proc p (set_p_size PAGE_SIZE);;
      tf_set p TF_epc 0;;
      tf_set p TF_sp USER_STACK_TOP;;
      upd_proc p (set_p_state PROC_RUNNABLE);;
      cwd ← namei [47];
      upd_proc p (set_p_cwd cwd);;
      modify (set_k_init_proc (Some p));;
      upd_proc p (set_p_name (strncpy (rdl (bytes_of_string "init")) 20));;
      spin_lock_release (LProc p)
  end.

End fork.
