(* ===== verification/Exec.v ===== *)
(** Program loading: kernel/fs/exec.c.

    [argv] and [env] are the addresses, before the null pointer, of strings in
    kernel pages. *)

From S2P Require Import Prelude Mem State Machine Mm Proc Sync Virtio Buf Log Inode Pipe File Fork.

Definition ELF_MAGIC : Z := 0x464C457F.
Definition ELF_PROG_LOAD : Z := 1.
Definition ELFHDR_SIZE : Z := 64.
Definition PROGHDR_SIZE : Z := 56.

Record elfhdr := mk_elfhdr { elf_magic : Z; elf_entry : Z; elf_phoff : Z; elf_phnum : Z }.
Record proghdr := mk_proghdr {
  ph_type : Z; ph_flags : Z; ph_off : Z; ph_vaddr : Z; ph_filesz : Z; ph_memsz : Z
}.

Definition parse_elfhdr (d : list Z) : elfhdr :=
  mk_elfhdr (get_le 4 d 0) (get_le 8 d 24) (get_le 8 d 32) (get_le 2 d 56).
Definition parse_proghdr (d : list Z) : proghdr :=
  mk_proghdr (get_le 4 d 0) (get_le 4 d 4) (get_le 8 d 8) (get_le 8 d 16) (get_le 8 d 32)
    (get_le 8 d 40).

Definition flags2perm (flags : Z) : Z :=
  let perm := 0 in
  let perm := if negb (Z.land flags 1 =? 0) then PTE_X else perm in
  if negb (Z.land flags 2 =? 0) then Z.lor perm PTE_W else perm.

Section exec.
Context `{Device} `{Rounds} (trampoline : Z).

Definition load_seg (page_table va : Z) (inode : nat) (off sz : Z) : KM Z :=
  loop (S (Z.to_nat sz))
    (λ i,
       if i <? sz then
         pa ← uvm_walk_addr page_table (u64 (va + i));
         if pa =? 0 then panic "the address does not exist when loading segment" else
         let n := if sz - i <? PAGE_SIZE then sz - i else PAGE_SIZE in
         '(r, bs) ← readi inode false pa (u64 (off + i)) n;
         upd_mem (λ m, mwrite m pa bs);;
         if negb (u64 r =? n) then mret (inr (-1)) else mret (inl (i + PAGE_SIZE))
       else mret (inr 0)) 0.

(** The [for] loop over the program headers: the new size, or [None] for
    [goto bad] with the size reached. *)
Fixpoint load_segs (page_table : Z) (inode : nat) (n : nat) (off new_sz : Z) : KM (bool * Z) :=
  match n with
  | O => mret (true, new_sz)
  | S n =>
      '(r, d) ← readi inode false 0 off PROGHDR_SIZE;
      if negb (r =? PROGHDR_SIZE) then mret (false, new_sz) else
      let ph := parse_proghdr d in
      if negb (ph_type ph =? ELF_PROG_LOAD)
      then load_segs page_table inode n (u64 (off + PROGHDR_SIZE)) new_sz else
      if ph_memsz ph <? ph_filesz ph then mret (false, new_sz) else
      if u64 (ph_vaddr ph + ph_memsz ph) <? ph_vaddr ph then mret (false, new_sz) else
      if negb (ph_vaddr ph mod PAGE_SIZE =? 0) then mret (false, new_sz) else
      ret ← uvm_alloc page_table new_sz (u64 (ph_vaddr ph + ph_memsz ph)) (flags2perm (ph_flags ph));
      if ret =? 0 then mret (false, new_sz) else
      let new_sz := ret in
      e ← load_seg page_table (ph_vaddr ph) inode (ph_off ph) (ph_filesz ph);
      if negb (e =? 0) then mret (false, new_sz)
      else load_segs page_table inode n (u64 (off + PROGHDR_SIZE)) new_sz
  end.

(** [sp -= len; sp -= sp % 16;] *)
Definition push_sp (sp len : Z) : Z :=
  let sp := u64 (sp - len) in u64 (sp - sp mod 16).

(** The strings pushed on the new stack: their addresses and the stack
    pointer, or [None] for [goto bad]. *)
Fixpoint push_strings (page_table : Z) (max : Z) (i : Z) (strs : list Z) (sp : Z) (acc : list Z)
    : KM (option (list Z * Z)) :=
  match strs with
  | [] => mret (Some (acc, sp))
  | a :: strs =>
      if max <=? i then mret None else
      o ← gets (λ s, strlen (Z.to_nat (PAGE_SIZE + 1)) (rd (k_mem s) a));
      match o with
      | None => stuck Undefined
      | Some l =>
          let len := l + 1 in
          let sp := push_sp sp len in
          if sp <? USER_STACK_BASE then mret None else
          bs ← gets (λ s, mbytes (k_mem s) a (Z.to_nat len));
          r ← copy_out page_table sp bs;
          if negb (r =? 0) then mret None
          else push_strings page_table max (i + 1) strs sp (acc ++ [sp])
      end
  end.

Definition le64 (v : Z) : list Z := put_le 8 v 0 (replicate 8 0).

(** The array of pointers, with its null terminator, pushed after the strings. *)
Definition push_array (page_table sp : Z) (ptrs : list Z) : KM (option Z) :=
  let bs := concat (le64 <$> (ptrs ++ [0])) in
  let sp := push_sp sp (Z.of_nat (length bs)) in
  if sp <? USER_STACK_BASE then mret None else
  r ← copy_out page_table sp bs;
  mret (if negb (r =? 0) then None else Some sp).

(** The last element of the path. *)
Definition base_name (path : list Z) : list Z :=
  match strrchr (S (length path)) (rdl path) 47 with
  | Some (Some i) => drop (Z.to_nat (i + 1)) path
  | _ => path
  end.

(** From the point where the inode is released. *)
Definition exec_stack (p : nat) (page_table : Z) (argv env : list Z) : KM (option (Z * Z)) :=
  o ← push_strings page_table MAX_ARGS 0 argv USER_STACK_TOP [];
  match o with
  | None => mret None
  | Some (uargv, sp) =>
      o ← push_array page_table sp uargv;
      match o with
      | None => mret None
      | Some sp =>
          tf_set p TF_a1 sp;;
          o ← push_strings page_table MAX_ENVS 0 env sp [];
          match o with
          | None => mret None
          | Some (uenv, sp) =>
              o ← push_array page_table sp uenv;
              match o with
              | None => mret None
              | Some sp =>
                  tf_set p TF_a2 sp;;
                  mret (Some (Z.of_nat (length uargv), sp))
              end
          end
      end
  end.

Definition do_execve (path : list Z) (argv env : list Z) : KM Z :=
  p ← the_proc;
  begin_op;;
  o ← namei path;
  match o with
  | None => end_op;; mret (-1)
  | Some inode =>
      let bad (new_page_table new_sz : Z) (locked : bool) : KM Z :=
        when (negb (new_page_table =? 0)) (free_user_page_table new_page_table new_sz);;
        when locked (iunlock inode;; iput inode;; end_op);;
        mret (-1) in
      ilock inode;;
      '(r, d) ← readi inode false 0 0 ELFHDR_SIZE;
      if negb (r =? ELFHDR_SIZE) then bad 0 0 true else
      let elf := parse_elfhdr d in
      if negb (elf_magic elf =? ELF_MAGIC) then bad 0 0 true else
      pt ← get_user_page_table trampoline p;
      if pt =? 0 then bad 0 0 true else
      '(ok, new_sz) ← load_segs pt inode (Z.to_nat (elf_phnum elf)) (elf_phoff elf) 0;
      if negb ok then bad pt new_sz true else
      iunlock inode;;
      iput inode;;
      end_op;;
      o ← exec_stack p pt argv env;
      match o with
      | None => bad pt new_sz false
      | Some (uargc, sp) =>
          upd_proc p (set_p_name (strncpy (rdl (base_name path)) 20));;
          x ← get_proc p;
          let old_page_table := p_page_table x in
          let old_sz := p_size x in
          upd_proc p (set_p_page_table pt);;
          upd_proc p (set_p_size new_sz);;
          tf_set p TF_epc (elf_entry elf);;
          tf_set p TF_sp sp;;
          free_user_page_table old_page_table old_sz;;
          mret uargc
      end
  end.

End exec.
