(* ===== verification/Sysfile.v ===== *)
(** System calls on processes and files: kernel/syscall/sysproc.c,
    kernel/syscall/sysfile.c and the argument helpers of
    kernel/syscall/syscall.c.  A result is the [uint64_t] stored in [a0]. *)

From S2P Require Import Prelude Mem State Machine Mm Proc Sync Console Virtio Buf Log Inode Pipe File Fork Exec.

Definition O_RDONLY : Z := 0.
Definition O_WRONLY : Z := 1.
Definition O_RDWR : Z := 2.
Definition O_CREAT : Z := 64.
Definition O_TRUNC : Z := 512.
Definition O_APPEND : Z := 1024.

(** ** kernel/syscall/syscall.c: arguments *)

Definition arg_raw (num : Z) : KM Z :=
  p ← the_proc;
  if (0 <=? num) && (num <=? 5) then tf_get p (TF_a0 + 8 * num)
  else panic "illegal argument number".

Section sysfile.
Context `{Device} `{Rounds} (trampoline fork_return_addr : Z) (pad : list Z).

(** The result and the bytes stored in [buf]. *)
Definition fetch_str (addr len : Z) : KM (Z * list Z) :=
  pt ← running_page_table; copy_str_in rounds pt addr len.

Definition fetch_addr (addr : Z) : KM (Z * Z) :=
  pt ← running_page_table;
  '(r, bs) ← copy_in pt addr 8;
  mret (r, get_le 8 bs 0).

(** A path argument, up to its terminator; [None] when [fetch_str] fails. *)
Definition fetch_path (addr : Z) : KM (option (list Z)) :=
  '(r, bs) ← fetch_str addr (Z.of_nat MAX_PATH);
  mret (if negb (r =? 0) then None else Some (until_nul bs)).

(** ** kernel/syscall/sysproc.c *)

Definition sys_brk : KM Z := a ← arg_raw 0; r ← proc_grow a; mret (u64 r).
Definition sys_fork : KM Z := r ← fork trampoline fork_return_addr; mret (u64 r).
Definition sys_wait : KM Z := a ← arg_raw 0; r ← wait a; mret (u64 r).
Definition sys_exit : KM Z := a ← arg_raw 0; do_exit (s32 a);; mret 0.
Definition sys_sleep : KM Z := a ← arg_raw 0; r ← timer_sleep a; mret (u64 r).
Definition sys_kill : KM Z := a ← arg_raw 0; r ← kill (s32 a); mret (u64 r).
Definition sys_getpid : KM Z := pid ← running_pid; mret (u64 pid).

Definition sys_getppid : KM Z :=
  p ← the_proc;
  x ← get_proc p;
  match p_parent x with
  | Some q => y ← get_proc q; mret (u64 (p_pid y))
  | None => stuck Undefined
  end.

Definition sys_sbrk : KM Z :=
  a ← arg_raw 0;
  let increment := s64 a in
  p ← the_proc;
  x ← get_proc p;
  let old_size := p_size x in
  if increment =? 0 then mret old_size else
  let new_size := if increment <? 0 then u64 (old_size - u64 (- increment))
                  else u64 (old_size + u64 increment) in
  r ← proc_grow new_size;
  mret (if r =? 0 then old_size else u64 (-1)).

(** ** kernel/syscall/sysfile.c *)

Definition cur_file (fd : Z) : KM (option nat) :=
  p ← the_proc;
  x ← get_proc p;
  mret (default None (p_ofile x !! Z.to_nat fd)).

Definition arg_fd (num : Z) : KM Z :=
  a ← arg_raw num;
  let fd := s32 a in
  if (fd <? 0) || (Z.of_nat N_OFILE <=? fd) then mret (-1) else
  o ← cur_file fd;
  mret (match o with None => -1 | Some _ => fd end).

(** [running_proc()->ofile[fd] = f], inside the array. *)
Definition set_ofile (fd : Z) (f : option nat) : KM unit :=
  p ← the_proc;
  if (0 <=? fd) && (fd <? Z.of_nat N_OFILE)
  then upd_proc p (λ x, set_p_ofile (<[Z.to_nat fd := f]> (p_ofile x)) x) else stuck Undefined.

(** The first free descriptor from [fd]. *)
Fixpoint find_fd (l : list (option nat)) (fd : Z) : Z :=
  match l with
  | [] => -1
  | None :: _ => fd
  | Some _ :: l => find_fd l (fd + 1)
  end.

Definition fd_alloc (f : nat) : KM Z :=
  p ← the_proc;
  x ← get_proc p;
  let fd := find_fd (p_ofile x) 0 in
  when (negb (fd =? -1)) (set_ofile fd (Some f));;
  mret fd.

(** [running_proc()->ofile[fd]] for an open [fd]. *)
Definition the_file (fd : Z) : KM nat :=
  o ← cur_file fd;
  match o with Some f => mret f | None => stuck Undefined end.

Definition sys_read : KM Z :=
  fd ← arg_fd 0;
  if fd <? 0 then mret (u64 (-1)) else
  dst ← arg_raw 1;
  n ← arg_raw 2;
  f ← the_file fd;
  r ← file_read f dst n;
  mret (u64 r).

Definition sys_write : KM Z :=
  fd ← arg_fd 0;
  if fd <? 0 then mret (u64 (-1)) else
  src ← arg_raw 1;
  n ← arg_raw 2;
  f ← the_file fd;
  r ← file_write f src n;
  mret (u64 r).

(** The end of [create] after [fail:]. *)
Definition create_fail (inode parent : nat) : KM (option nat) :=
  upd_inode inode (set_i_nlink 0);;
  iupdate inode;;
  iunlock inode;;
  iput inode;;
  iunlock parent;;
  iput parent;;
  mret None.

Definition create (path : list Z) (type major minor : Z) : KM (option nat) :=
  '(o, name) ← parenti path;
  match o with
  | None => mret None
  | Some parent =>
      ilock parent;;
      o ← dir_lookup parent name;
      match o with
      | Some (inode, _) =>
          iunlock parent;;
          iput parent;;
          ilock inode;;
          x ← get_inode inode;
          if (type =? FT_FILE) && ((i_type x =? FT_FILE) || (i_type x =? FT_DEVICE))
          then mret (Some inode)
          else iunlock inode;; iput inode;; mret None
      | None =>
          px ← get_inode parent;
          o ← ialloc (i_dev px) type;
          match o with
          | None => iunlock parent;; iput parent;; mret None
          | Some inode =>
              ilock inode;;
              upd_inode inode (set_i_major major);;
              upd_inode inode (set_i_minor minor);;
              upd_inode inode (set_i_nlink 1);;
              iupdate inode;;
              x ← get_inode inode;
              bad ← (if type =? FT_DIR then
                       r ← dir_link inode (bytes_of_string ".") (i_ino x);
                       if negb (r =? 0) then mret true else
                       r ← dir_link inode (bytes_of_string "..") (i_ino px);
                       mret (negb (r =? 0))
                     else mret false);
              if (bad : bool) then create_fail inode parent else
              r ← dir_link parent name (i_ino x);
              if negb (r =? 0) then create_fail inode parent else
              when (type =? FT_DIR)
                (upd_inode inode (λ x, set_i_nlink (wrap 16 (i_nlink x + 1)) x);;
                 iupdate inode);;
              iunlock parent;;
              iput parent;;
              mret (Some inode)
          end
      end
  end.

(** [iunlock(inode); iput(inode); end_op(); return -1;] *)
Definition drop_inode (inode : nat) : KM Z :=
  iunlock inode;; iput inode;; end_op;; mret (u64 (-1)).

(** [sys_open] once the inode is found and locked. *)
Definition open_inode (omode : Z) (inode : nat) : KM Z :=
  x ← get_inode inode;
  if (i_type x =? FT_DEVICE) && (N_DEV <=? i_major x) then drop_inode inode else
  o ← file_alloc;
  match o with
  | None => drop_inode inode
  | Some f =>
      fd ← fd_alloc f;
      if fd <? 0 then file_close f;; drop_inode inode else
      (if i_type x =? FT_DEVICE
       then upd_file f (λ y, set_f_major (i_major x) (set_f_type FD_DEVICE y))
       else upd_file f (λ y, set_f_off 0 (set_f_type FD_INODE y)));;
      upd_file f (set_f_inode (Some inode));;
      upd_file f (set_f_readable (Z.land omode O_WRONLY =? 0));;
      upd_file f (set_f_writable (negb (Z.land omode O_WRONLY =? 0) ||
                                  negb (Z.land omode O_RDWR =? 0)));;
      when (negb (Z.land omode O_TRUNC =? 0) && (i_type x =? FT_FILE)) (itrunc inode);;
      x ← get_inode inode;
      bad ← (if negb (Z.land omode O_APPEND =? 0) then
               r ← lseeki inode (i_size x);
               if negb (r =? i_size x) then mret true
               else upd_file f (set_f_off (i_size x));; mret false
             else mret false);
      if (bad : bool) then
        file_close f;; set_ofile fd None;; drop_inode inode
      else
      iunlock inode;;
      end_op;;
      mret fd
  end.

Definition sys_open : KM Z :=
  a ← arg_raw 0;
  o ← fetch_path a;
  match o with
  | None => mret (u64 (-1))
  | Some path =>
      m ← arg_raw 1;
      let omode := s32 m in
      begin_op;;
      if negb (Z.land omode O_CREAT =? 0) then
        o ← create path FT_FILE 0 0;
        match o with
        | None => end_op;; mret (u64 (-1))
        | Some inode => open_inode omode inode
        end
      else
        o ← namei path;
        match o with
        | None => end_op;; mret (u64 (-1))
        | Some inode =>
            ilock inode;;
            x ← get_inode inode;
            if (i_type x =? FT_DIR) && negb (omode =? O_RDONLY) then drop_inode inode
            else open_inode omode inode
        end
  end.

Definition sys_close : KM Z :=
  fd ← arg_fd 0;
  if fd <? 0 then mret (u64 (-1)) else
  f ← the_file fd;
  file_close f;;
  set_ofile fd None;;
  mret 0.

(** As in the code, a failed [create] returns without [end_op]. *)
Definition sys_mkdir : KM Z :=
  a ← arg_raw 0;
  o ← fetch_path a;
  match o with
  | None => mret (u64 (-1))
  | Some path =>
      begin_op;;
      o ← create path FT_DIR 0 0;
      match o with
      | None => mret (u64 (-1))
      | Some inode => iunlock inode;; iput inode;; end_op;; mret 0
      end
  end.

Definition sys_mknod : KM Z :=
  a ← arg_raw 0;
  o ← fetch_path a;
  match o with
  | None => mret (u64 (-1))
  | Some path =>
      major ← arg_raw 1;
      minor ← arg_raw 2;
      begin_op;;
      o ← create path FT_DEVICE (wrap 16 major) (wrap 16 minor);
      match o with
      | None => end_op;; mret (u64 (-1))
      | Some inode => iunlock inode;; iput inode;; end_op;; mret 0
      end
  end.

Definition sys_fstat : KM Z :=
  fd ← arg_fd 0;
  if fd <? 0 then mret (u64 (-1)) else
  pstat ← arg_raw 1;
  f ← the_file fd;
  r ← file_stat pad f pstat;
  mret (u64 r).

(** One of the two fetch loops of [sys_execve]: the pages allocated, and
    whether the terminating null pointer was reached. *)
Fixpoint fetch_args (n : nat) (i uargv : Z) (acc : list Z) : KM (bool * list Z) :=
  match n with
  | O => mret (false, acc)
  | S n =>
      '(r, str) ← fetch_addr (u64 (uargv + 8 * i));
      if negb (r =? 0) then mret (false, acc) else
      if str =? 0 then mret (true, acc) else
      page ← pm_alloc;
      if page =? 0 then mret (false, acc) else
      '(r, bs) ← fetch_str str PAGE_SIZE;
      upd_mem (λ m, mwrite m page bs);;
      if negb (r =? 0) then mret (false, acc ++ [page])
      else fetch_args n (i + 1) uargv (acc ++ [page])
  end.

(** The pages of [env] are never freed, as in the code. *)
Definition sys_execve : KM Z :=
  a ← arg_raw 0;
  o ← fetch_path a;
  match o with
  | None => mret (u64 (-1))
  | Some path =>
      uargv ← arg_raw 1;
      '(ok, argv) ← fetch_args (Z.to_nat MAX_ARGS) 0 uargv [];
      if negb ok then kiter argv pm_free;; mret (u64 (-1)) else
      uenv ← arg_raw 2;
      '(ok, env) ← fetch_args (Z.to_nat MAX_ENVS) 0 uenv [];
      if negb ok then kiter argv pm_free;; mret (u64 (-1)) else
      ret ← do_execve trampoline path argv env;
      kiter argv pm_free;;
      mret (u64 ret)
  end.

Definition sys_chdir : KM Z :=
  a ← arg_raw 0;
  o ← fetch_path a;
  match o with
  | None => mret (u64 (-1))
  | Some path =>
      begin_op;;
      o ← namei path;
      match o with
      | None => end_op;; mret (u64 (-1))
      | Some inode =>
          ilock inode;;
          x ← get_inode inode;
          if negb (i_type x =? FT_DIR) then drop_inode inode else
          iunlock inode;;
          p ← the_proc;
          y ← get_proc p;
          (match p_cwd y with Some i => iput i | None => stuck Undefined end);;
          end_op;;
          upd_proc p (set_p_cwd (Some inode));;
          mret 0
      end
  end.

(** As in the code, success returns 0, not the new descriptor. *)
Definition sys_dup : KM Z :=
  fd ← arg_fd 0;
  if fd <? 0 then mret (u64 (-1)) else
  f ← the_file fd;
  fd ← fd_alloc f;
  if fd <? 0 then mret (u64 (-1)) else
  file_dup f;;
  mret 0.

Definition link_bad (inode : nat) : KM Z :=
  ilock inode;;
  upd_inode inode (λ x, set_i_nlink (wrap 16 (i_nlink x - 1)) x);;
  iupdate inode;;
  drop_inode inode.

Definition sys_link : KM Z :=
  a ← arg_raw 0;
  o ← fetch_path a;
  match o with
  | None => mret (u64 (-1))
  | Some old =>
      b ← arg_raw 1;
      o ← fetch_path b;
      match o with
      | None => mret (u64 (-1))
      | Some new =>
          begin_op;;
          o ← namei old;
          match o with
          | None => end_op;; mret (u64 (-1))
          | Some inode =>
              ilock inode;;
              x ← get_inode inode;
              if i_type x =? FT_DIR then drop_inode inode else
              upd_inode inode (λ x, set_i_nlink (wrap 16 (i_nlink x + 1)) x);;
              iupdate inode;;
              iunlock inode;;
              '(o, name) ← parenti new;
              match o with
              | None => link_bad inode
              | Some parent =>
                  ilock parent;;
                  r ← dir_link parent name (i_ino x);
                  if negb (r =? 0) then iunlock parent;; iput parent;; link_bad inode else
                  iunlock parent;;
                  iput parent;;
                  iput inode;;
                  end_op;;
                  mret 0
              end
          end
      end
  end.

Definition is_dir_empty (dir : nat) : KM bool :=
  x ← get_inode dir;
  loop (S (Z.to_nat (i_size x)))
    (λ off,
       if off <? i_size x then
         '(r, de) ← readi dir false 0 off DIRENT_SIZE;
         if negb (r =? DIRENT_SIZE) then panic "inode read error" else
         if negb (de_ino de =? 0) then mret (inr false) else mret (inl (off + DIRENT_SIZE))
       else mret (inr true)) (2 * DIRENT_SIZE).

Definition sys_unlink : KM Z :=
  a ← arg_raw 0;
  o ← fetch_path a;
  match o with
  | None => mret (u64 (-1))
  | Some path =>
      begin_op;;
      '(o, name) ← parenti path;
      match o with
      | None => end_op;; mret (u64 (-1))
      | Some parent =>
          ilock parent;;
          if (strncmp (rdl name) (rdl (bytes_of_string ".")) DIR_SIZE =? 0) ||
             (strncmp (rdl name) (rdl (bytes_of_string "..")) DIR_SIZE =? 0)
          then drop_inode parent else
          o ← dir_lookup parent name;
          match o with
          | None => drop_inode parent
          | Some (inode, off) =>
              ilock inode;;
              x ← get_inode inode;
              if i_nlink x <? 1 then panic "unlink an invalid inode" else
              full ← (if i_type x =? FT_DIR then e ← is_dir_empty inode; mret (negb e)
                      else mret false);
              if (full : bool) then iunlock inode;; iput inode;; drop_inode parent else
              r ← writei parent false 0 (replicate 32 0) off DIRENT_SIZE;
              if negb (r =? DIRENT_SIZE) then panic "inode write error" else
              when (i_type x =? FT_DIR)
                (upd_inode parent (λ x, set_i_nlink (wrap 16 (i_nlink x - 1)) x);;
                 iupdate parent);;
              iunlock parent;;
              iput parent;;
              upd_inode inode (λ x, set_i_nlink (wrap 16 (i_nlink x - 1)) x);;
              iupdate inode;;
              iunlock inode;;
              iput inode;;
              end_op;;
              mret 0
          end
      end
  end.

Definition sys_pipe : KM Z :=
  p ← the_proc;
  fd_array ← arg_raw 0;
  o ← pipe_alloc;
  match o with
  | None => mret (u64 (-1))
  | Some (rfile, wfile) =>
      fd0 ← fd_alloc rfile;
      fd1 ← fd_alloc wfile;
      let bad : KM Z :=
        when (0 <=? fd0) (set_ofile fd0 None);;
        when (0 <=? fd1) (set_ofile fd1 None);;
        file_close rfile;;
        file_close wfile;;
        mret (u64 (-1)) in
      if (fd0 <? 0) || (fd1 <? 0) then bad else
      x ← get_proc p;
      r ← copy_out (p_page_table x) fd_array (le32 (u32 fd0));
      if negb (r =? 0) then bad else
      r ← copy_out (p_page_table x) (u64 (fd_array + 4)) (le32 (u32 fd1));
      if negb (r =? 0) then bad else
      mret 0
  end.

Definition sys_lseek : KM Z :=
  fd ← arg_fd 0;
  if fd <? 0 then mret (u64 (-1)) else
  offset ← arg_raw 1;
  whence ← arg_raw 2;
  f ← the_file fd;
  r ← file_lseek f (s64 offset) (s32 whence);
  mret (u64 r).

(** As in the code, a [newfd] that is not open is stored at [ofile[-1]]. *)
Definition sys_dup2 : KM Z :=
  oldfd ← arg_fd 0;
  if oldfd <? 0 then mret (u64 (-1)) else
  f ← the_file oldfd;
  newfd ← arg_fd 1;
  if newfd <? 0 then
    f ← file_dup f;
    set_ofile newfd (Some f);;
    mret (u64 newfd)
  else
    g ← the_file newfd;
    if decide (f = g) then mret newfd else
    file_close g;;
    f ← file_dup f;
    set_ofile newfd (Some f);;
    mret newfd.

End sysfile.
