(* ===== verification/Trap.v ===== *)
(** System call dispatch (kernel/syscall/syscall.c), the interrupt controller
    (kernel/dev/plic.c), traps (kernel/trap/trap.c) and the boot sequence
    (kernel/boot/main.c). *)

From S2P Require Import Prelude Mem State Machine Mm Proc Sync Console Virtio Buf Log Inode Pipe File Fork Exec Sysfile.

Definition UART0_IRQ : Z := 10.
Definition VIRTIO0_IRQ : Z := 1.
Definition PLIC_SENABLE (hart : Z) : Z := PLIC + 0x2080 + hart * 0x100.
Definition PLIC_SPRIORITY (hart : Z) : Z := PLIC + 0x201000 + hart * 0x2000.
Definition PLIC_SCLAIM (hart : Z) : Z := PLIC + 0x201004 + hart * 0x2000.

Definition TF_kernel_satp : Z := 0.
Definition TF_kernel_sp : Z := 8.
Definition TF_kernel_trap : Z := 16.
Definition TF_kernel_hartid : Z := 24.

(** ** include/riscv.h: control registers *)

Definition upd_hart (f : hart → hart) : KM unit := modify (λ s, set_k_hart (f (k_hart s)) s).
Definition read_scause : KM Z := gets (λ s, scause (k_hart s)).
Definition read_sepc : KM Z := gets (λ s, sepc (k_hart s)).
Definition write_sepc (x : Z) : KM unit := upd_hart (set_sepc x).
Definition write_stvec (x : Z) : KM unit := upd_hart (set_stvec x).
Definition read_satp : KM Z := gets (λ s, satp (k_hart s)).
Definition write_satp (x : Z) : KM unit := upd_hart (set_satp x).
Definition read_tp : KM Z := gets (λ s, tp (k_hart s)).

(** Addresses fixed by the linker. *)
Record linker := mk_linker {
  ld_trampoline : Z;
  ld_fork_return : Z;
  ld_kernel_trap_vector : Z;
  ld_user_trap_handler : Z;
  ld_user_trap_vector : Z;
  ld_return_to_user_space : Z;
  ld_KERNEL_END : Z;
  ld_TEXT_START : Z;
  ld_TEXT_END : Z;
  ld_virtq_mem : Z
}.

Section trap.
Context `{Device} `{Rounds} (ld : linker) (pad : list Z).

(** ** kernel/syscall/syscall.c *)

(** The [return 0] is reached only if the firmware's call returns. *)
Definition sys_shutdown : KM Z := ECALL_SHUTDOWN;; mret 0.

Definition syscalls : list (option (KM Z)) :=
  [None;
   Some sys_brk; Some (sys_fork (ld_trampoline ld) (ld_fork_return ld)); Some sys_wait;
   Some sys_exit; Some sys_sleep; Some sys_kill; Some sys_getpid; Some sys_read; Some sys_write;
   Some sys_open; Some sys_close; Some sys_mknod; Some (sys_execve (ld_trampoline ld));
   Some sys_dup; Some sys_mkdir; Some (sys_fstat pad); Some sys_chdir; Some sys_getppid;
   Some sys_link; Some sys_unlink; Some sys_pipe; Some sys_sbrk; Some sys_shutdown;
   Some sys_lseek; Some sys_dup2].

Definition N_SYSCALL : Z := 26.

Definition syscall : KM unit :=
  p ← the_proc;
  num ← tf_get p TF_a7;
  match (if (0 <? num) && (num <? N_SYSCALL) then syscalls !! Z.to_nat num else None) with
  | Some (Some f) => r ← f; tf_set p TF_a0 r
  | _ =>
      x ← get_proc p;
      printk (String.append "pid %d: unknown system call %lu" newline) [VWord (p_pid x); VWord num];;
      tf_set p TF_a0 (u64 (-1))
  end.

(** ** kernel/dev/plic.c *)

Definition plic_init : KM unit :=
  WRITE_REG (PLIC + UART0_IRQ * 4) 1;;
  WRITE_REG (PLIC + VIRTIO0_IRQ * 4) 1.

Definition plic_init_hart : KM unit :=
  hart ← current_cpuid;
  WRITE_REG (PLIC_SENABLE hart) (Z.lor (Z.shiftl 1 UART0_IRQ) (Z.shiftl 1 VIRTIO0_IRQ));;
  WRITE_REG (PLIC_SPRIORITY hart) 0.

Definition plic_claim : KM Z :=
  hart ← current_cpuid; irq ← READ_REG (PLIC_SCLAIM hart); mret (s32 irq).

Definition plic_complete (irq : Z) : KM unit :=
  hart ← current_cpuid; WRITE_REG (PLIC_SCLAIM hart) (u32 irq).

(** ** kernel/trap/trap.c *)

Definition trap_init : KM unit := timer_init.

Definition trap_init_hart : KM unit :=
  write_stvec (ld_kernel_trap_vector ld);;
  timer_set_next;;
  intr_on.

Definition external_intr : KM unit :=
  irq ← plic_claim;
  if irq =? 0 then mret tt else
  (if irq =? UART0_IRQ then uart_intr
   else if irq =? VIRTIO0_IRQ then virtio_disk_intr
   else printk (String.append "unexpected interrupt irq: %d" newline) [VWord irq]);;
  plic_complete irq.

Definition INTERRUPT : Z := 0x8000000000000000.

Definition kernel_trap_handler : KM unit :=
  epc ← read_sepc;
  st ← read_sstatus;
  cause ← read_scause;
  if Z.land st SSTATUS_SPP =? 0 then panic "the kernel trap is not from S-mode" else
  ie ← intr_get;
  if (ie : bool) then panic "interrupts are enabled when processing interruptions" else
  (if negb (Z.land cause INTERRUPT =? 0) then
     if cause =? 0x8000000000000005 then
       timer_intr;;
       rp ← running_proc;
       match rp with Some _ => yield | None => mret tt end
     else if cause =? 0x8000000000000009 then external_intr
     else panic "kernel trap"
   else panic "kernel trap");;
  write_sepc epc;;
  write_sstatus st.

(** Up to the jump to the trampoline with the user's [satp]. *)
Definition user_trap_return : KM Z :=
  p ← the_proc;
  intr_off;;
  write_stvec (u64 (TRAMPOLINE + (ld_user_trap_vector ld - ld_trampoline ld)));;
  x ← read_satp;
  tf_set p TF_kernel_satp x;;
  pr ← get_proc p;
  tf_set p TF_kernel_sp (u64 (p_kernel_stack pr + PAGE_SIZE));;
  tf_set p TF_kernel_trap (ld_user_trap_handler ld);;
  id ← read_tp;
  tf_set p TF_kernel_hartid id;;
  st ← read_sstatus;
  write_sstatus (Z.lor (Z.land st (Z.lnot SSTATUS_SPP)) SSTATUS_SPIE);;
  epc ← tf_get p TF_epc;
  write_sepc epc;;
  mret (MAKE_SATP (p_page_table pr)).

Definition exit_if_killed (p : nat) : KM unit :=
  k ← killed p;
  when k (do_exit 1).

Definition user_trap_handler : KM Z :=
  cause ← read_scause;
  st ← read_sstatus;
  p ← the_proc;
  if negb (Z.land st SSTATUS_SPP =? 0) then panic "the user trap is not from U-mode" else
  write_stvec (ld_kernel_trap_vector ld);;
  epc ← read_sepc;
  tf_set p TF_epc epc;;
  (if negb (Z.land cause INTERRUPT =? 0) then
     if cause =? 0x8000000000000005 then timer_intr;; yield
     else if cause =? 0x8000000000000009 then external_intr
     else set_killed p
   else if cause =? 8 then
     exit_if_killed p;;
     epc ← tf_get p TF_epc;
     tf_set p TF_epc (u64 (epc + 4));;
     intr_on;;
     syscall
   else set_killed p);;
  exit_if_killed p;;
  user_trap_return.

(** ** kernel/boot/main.c: the first hart, up to [scheduler] *)

(** [kvm_init_hart]: write the kernel's [satp], flush the TLB. *)
Definition kvm_init_hart : KM unit :=
  pt ← gets k_kpt; write_satp (MAKE_SATP pt).

Definition boot_hart : KM unit :=
  console_init;;
  printk_init;;
  printk (String.append "kernel is booting" newline) [];;
  id ← current_cpuid;
  printk (String.append "hart %d starting" newline) [VWord id];;
  pm_init (ld_KERNEL_END ld);;
  kvm_init (ld_TEXT_START ld) (ld_TEXT_END ld) (ld_trampoline ld);;
  kvm_init_hart;;
  proc_init;;
  trap_init;;
  trap_init_hart;;
  plic_init;;
  plic_init_hart;;
  binit;;
  iinit;;
  file_init;;
  virtio_disk_init (ld_virtq_mem ld);;
  user_init (ld_trampoline ld) (ld_fork_return ld).

(** The other harts, once [started] is set. *)
Definition boot_other_hart : KM unit :=
  id ← current_cpuid;
  printk (String.append "hart %d starting" newline) [VWord id];;
  kvm_init_hart;;
  trap_init_hart;;
  plic_init_hart.

End trap.
