(* ===== verification/Asm.v ===== *)
(** The assembly of the kernel: entering and leaving the kernel
    (kernel/trap/trap_vector.S), switching contexts (kernel/sched/switch.S), the
    entry of a hart (kernel/boot/entry.S), the stubs of the system calls
    (user/usys.S) and the machine code of the first process ([initcode] of
    kernel/sched/proc.c), with the instructions that they use. *)

From S2P Require Import Prelude Mem State Machine Mm PageTable Fork.

(** ** Registers *)

Inductive reg :=
  | X0 | Ra | Sp | Gp | Tp | T0 | T1 | T2 | S0 | S1
  | A0 | A1 | A2 | A3 | A4 | A5 | A6 | A7
  | S2 | S3 | S4 | S5 | S6 | S7 | S8 | S9 | S10 | S11
  | T3 | T4 | T5 | T6.

#[export] Instance reg_eq_dec : EqDecision reg.
Proof. solve_decision. Defined.

(** The control registers that the assembly names. *)
Inductive csr := Sscratch | Satp.

(** One hart, as the assembly sees it. *)
Record acore := mk_acore {
  c_regs : reg → Z;
  c_sscratch : Z;
  c_satp : Z;
  c_mem : memory
}.

Definition set_c_sscratch (v : Z) (c : acore) : acore := mk_acore (c_regs c) v (c_satp c) (c_mem c).
Definition set_c_satp (v : Z) (c : acore) : acore := mk_acore (c_regs c) (c_sscratch c) v (c_mem c).
Definition set_c_mem (m : memory) (c : acore) : acore := mk_acore (c_regs c) (c_sscratch c) (c_satp c) m.

(** Register [x0] is always 0. *)
Definition rget (c : acore) (r : reg) : Z := if decide (r = X0) then 0 else c_regs c r.
Definition rset (r : reg) (v : Z) (c : acore) : acore :=
  mk_acore (λ r', if decide (r' = r) then v else c_regs c r') (c_sscratch c) (c_satp c) (c_mem c).

(** ** Memory accesses *)

(** The root of the page table in [satp]. *)
Definition satp_root (v : Z) : Z := Z.shiftl (Z.land v (Z.ones 44)) 12.

(** The physical address of an access in supervisor mode that needs the permission
    [need]: the address itself, or Sv39 translation; [None] is a page fault.
    User pages cannot be accessed. *)
Definition phys (need satp : Z) (m : memory) (va : Z) : option Z :=
  if satp =? 0 then Some va else
  v ← pt_lookup m (satp_root satp) va;
  if negb (Z.land v need =? 0) && (Z.land v PTE_U =? 0) then Some (PTE2PA v + va mod PAGE_SIZE) else None.

(** Aligned accesses only. *)
Definition access (need : Z) (c : acore) (va : Z) : option Z :=
  if va mod 8 =? 0 then phys need (c_satp c) (c_mem c) va else None.

(** ** Instructions *)

Inductive instr :=
  | Sd (rs : reg) (off : Z) (rb : reg)
  | Ld (rd : reg) (off : Z) (rb : reg)
  | Li (rd : reg) (v : Z)              (* also [la], with the address *)
  | Mv (rd rs : reg)
  | Addi (rd rs : reg) (imm : Z)
  | Add (rd rs1 rs2 : reg)
  | Slli (rd rs : reg) (n : Z)
  | Csrw (x : csr) (rs : reg)
  | Csrr (rd : reg) (x : csr)
  | Sfence
  | Call (f : string)
  | Jr (rs : reg)
  | Ret
  | Sret
  | Ecall.

(** An instruction that goes on with the next one. *)
Definition exec (i : instr) (c : acore) : option acore :=
  match i with
  | Sd rs off rb =>
      pa ← access PTE_W c (u64 (rget c rb + off));
      Some (set_c_mem (st64 (c_mem c) pa (rget c rs)) c)
  | Ld rd off rb =>
      pa ← access PTE_R c (u64 (rget c rb + off));
      Some (rset rd (ld64 (c_mem c) pa) c)
  | Li rd v => Some (rset rd (u64 v) c)
  | Mv rd rs => Some (rset rd (rget c rs) c)
  | Addi rd rs imm => Some (rset rd (u64 (rget c rs + imm)) c)
  | Add rd rs1 rs2 => Some (rset rd (u64 (rget c rs1 + rget c rs2)) c)
  | Slli rd rs n => Some (rset rd (u64 (Z.shiftl (rget c rs) n)) c)
  | Csrw Sscratch rs => Some (set_c_sscratch (rget c rs) c)
  | Csrw Satp rs => Some (set_c_satp (rget c rs) c)
  | Csrr rd Sscratch => Some (rset rd (c_sscratch c) c)
  | Csrr rd Satp => Some (rset rd (c_satp c) c)
  | Sfence => Some c
  | Call _ | Jr _ | Ret | Sret | Ecall => None
  end.

(** How a sequence of instructions ends. *)
Inductive leaves := LJump (a : Z) | LSret | LEcall | LCall (f : string) | LEnd.

(** Where the sequence is left, the instructions after that place, and the state
    there. After a [call] the register [ra] has the address of the rest. *)
Fixpoint run (code : list instr) (c : acore) : option (leaves * list instr * acore) :=
  match code with
  | [] => Some (LEnd, [], c)
  | Jr rs :: rest => Some (LJump (rget c rs), rest, c)
  | Ret :: rest => Some (LJump (rget c Ra), rest, c)
  | Sret :: rest => Some (LSret, rest, c)
  | Ecall :: rest => Some (LEcall, rest, c)
  | Call f :: rest => Some (LCall f, rest, c)
  | i :: rest => c ← exec i c; run rest c
  end.

(** ** kernel/sched/switch.S *)

Definition context_switch : list instr :=
  [Sd Ra 0 A0; Sd Sp 8 A0; Sd S0 16 A0; Sd S1 24 A0; Sd S2 32 A0; Sd S3 40 A0; Sd S4 48 A0;
   Sd S5 56 A0; Sd S6 64 A0; Sd S7 72 A0; Sd S8 80 A0; Sd S9 88 A0; Sd S10 96 A0; Sd S11 104 A0;
   Ld Ra 0 A1; Ld Sp 8 A1; Ld S0 16 A1; Ld S1 24 A1; Ld S2 32 A1; Ld S3 40 A1; Ld S4 48 A1;
   Ld S5 56 A1; Ld S6 64 A1; Ld S7 72 A1; Ld S8 80 A1; Ld S9 88 A1; Ld S10 96 A1; Ld S11 104 A1;
   Ret].

(** ** kernel/trap/trap_vector.S *)

Definition kernel_trap_vector : list instr :=
  [Addi Sp Sp (-256);
   Sd Ra 0 Sp; Sd Sp 8 Sp; Sd Gp 16 Sp; Sd Tp 24 Sp; Sd T0 32 Sp; Sd T1 40 Sp; Sd T2 48 Sp;
   Sd A0 72 Sp; Sd A1 80 Sp; Sd A2 88 Sp; Sd A3 96 Sp; Sd A4 104 Sp; Sd A5 112 Sp; Sd A6 120 Sp;
   Sd A7 128 Sp; Sd T3 216 Sp; Sd T4 224 Sp; Sd T5 232 Sp; Sd T6 240 Sp;
   Call "kernel_trap_handler";
   Ld Ra 0 Sp; Ld Sp 8 Sp; Ld Gp 16 Sp; Ld T0 32 Sp; Ld T1 40 Sp; Ld T2 48 Sp;
   Ld A0 72 Sp; Ld A1 80 Sp; Ld A2 88 Sp; Ld A3 96 Sp; Ld A4 104 Sp; Ld A5 112 Sp; Ld A6 120 Sp;
   Ld A7 128 Sp; Ld T3 216 Sp; Ld T4 224 Sp; Ld T5 232 Sp; Ld T6 240 Sp;
   Addi Sp Sp 256;
   Sret].

Definition user_trap_vector : list instr :=
  [Csrw Sscratch A0;
   Li A0 TRAP_FRAME;
   Sd Ra 40 A0; Sd Sp 48 A0; Sd Gp 56 A0; Sd Tp 64 A0; Sd T0 72 A0; Sd T1 80 A0; Sd T2 88 A0;
   Sd S0 96 A0; Sd S1 104 A0; Sd A1 120 A0; Sd A2 128 A0; Sd A3 136 A0; Sd A4 144 A0;
   Sd A5 152 A0; Sd A6 160 A0; Sd A7 168 A0; Sd S2 176 A0; Sd S3 184 A0; Sd S4 192 A0;
   Sd S5 200 A0; Sd S6 208 A0; Sd S7 216 A0; Sd S8 224 A0; Sd S9 232 A0; Sd S10 240 A0;
   Sd S11 248 A0; Sd T3 256 A0; Sd T4 264 A0; Sd T5 272 A0; Sd T6 280 A0;
   Csrr T0 Sscratch; Sd T0 112 A0;
   Ld Sp 8 A0;
   Ld Tp 24 A0;
   Ld T0 16 A0;
   Ld T1 0 A0;
   Sfence; Csrw Satp T1; Sfence;
   Jr T0].

Definition return_to_user_space : list instr :=
  [Sfence; Csrw Satp A0; Sfence;
   Li A0 TRAP_FRAME;
   Ld Ra 40 A0; Ld Sp 48 A0; Ld Gp 56 A0; Ld Tp 64 A0; Ld T0 72 A0; Ld T1 80 A0; Ld T2 88 A0;
   Ld S0 96 A0; Ld S1 104 A0; Ld A1 120 A0; Ld A2 128 A0; Ld A3 136 A0; Ld A4 144 A0;
   Ld A5 152 A0; Ld A6 160 A0; Ld A7 168 A0; Ld S2 176 A0; Ld S3 184 A0; Ld S4 192 A0;
   Ld S5 200 A0; Ld S6 208 A0; Ld S7 216 A0; Ld S8 224 A0; Ld S9 232 A0; Ld S10 240 A0;
   Ld S11 248 A0; Ld T3 256 A0; Ld T4 264 A0; Ld T5 272 A0; Ld T6 280 A0;
   Ld A0 112 A0;
   Sret].

(** The field of struct trap_frame for a register (include/sched/proc.h). *)
Definition trap_frame (r : reg) : Z :=
  match r with
  | X0 => 0
  | Ra => 40 | Sp => 48 | Gp => 56 | Tp => 64 | T0 => 72 | T1 => 80 | T2 => 88 | S0 => 96 | S1 => 104
  | A0 => 112 | A1 => 120 | A2 => 128 | A3 => 136 | A4 => 144 | A5 => 152 | A6 => 160 | A7 => 168
  | S2 => 176 | S3 => 184 | S4 => 192 | S5 => 200 | S6 => 208 | S7 => 216 | S8 => 224 | S9 => 232
  | S10 => 240 | S11 => 248 | T3 => 256 | T4 => 264 | T5 => 272 | T6 => 280
  end.

(** ** kernel/boot/entry.S *)

(** Up to the jump to [start]; [boot_stack] is the address of the array. *)
Definition entry (boot_stack : Z) : list instr :=
  [Li Sp (boot_stack + 4096);
   Mv T0 A0;
   Slli T0 T0 12;
   Add Sp Sp T0;
   Call "start"].

(** ** user/usys.S and include/syscall/sysnum.h *)

Inductive sysname :=
  | SYS_brk | SYS_fork | SYS_wait | SYS_exit | SYS_sleep | SYS_kill | SYS_getpid | SYS_read | SYS_write
  | SYS_open | SYS_close | SYS_mknod | SYS_execve | SYS_dup | SYS_mkdir | SYS_fstat | SYS_chdir
  | SYS_getppid | SYS_link | SYS_unlink | SYS_pipe | SYS_sbrk | SYS_shutdown | SYS_lseek | SYS_dup2.

Definition sysnum (x : sysname) : Z :=
  match x with
  | SYS_brk => 1 | SYS_fork => 2 | SYS_wait => 3 | SYS_exit => 4 | SYS_sleep => 5 | SYS_kill => 6
  | SYS_getpid => 7 | SYS_read => 8 | SYS_write => 9 | SYS_open => 10 | SYS_close => 11 | SYS_mknod => 12
  | SYS_execve => 13 | SYS_dup => 14 | SYS_mkdir => 15 | SYS_fstat => 16 | SYS_chdir => 17
  | SYS_getppid => 18 | SYS_link => 19 | SYS_unlink => 20 | SYS_pipe => 21 | SYS_sbrk => 22
  | SYS_shutdown => 23 | SYS_lseek => 24 | SYS_dup2 => 25
  end.

(** The stub of a system call. *)
Definition usys (x : sysname) : list instr := [Li A7 (sysnum x); Ecall; Ret].

(** ** The machine code of the first process *)

(** The encodings that [initcode] has. *)
Inductive uinstr := UAuipc (rd : reg) (imm : Z) | UAddi (rd rs : reg) (imm : Z) | UEcall | UJal (rd : reg) (off : Z).

Definition xregs : list reg :=
  [X0; Ra; Sp; Gp; Tp; T0; T1; T2; S0; S1; A0; A1; A2; A3; A4; A5; A6; A7;
   S2; S3; S4; S5; S6; S7; S8; S9; S10; S11; T3; T4; T5; T6].
Definition xreg (n : Z) : reg := default X0 (xregs !! Z.to_nat n).

(** Bits [lo] to [lo + n - 1] of a word, and sign extension from [n] bits. *)
Definition bits (lo n w : Z) : Z := Z.land (Z.shiftr w lo) (Z.ones n).
Definition sext (n v : Z) : Z := if v <? 2 ^ (n - 1) then v else v - 2 ^ n.

Definition decode (w : Z) : option uinstr :=
  let op := bits 0 7 w in
  let rd := xreg (bits 7 5 w) in
  if op =? 0x17 then Some (UAuipc rd (sext 32 (Z.shiftl (bits 12 20 w) 12)))
  else if (op =? 0x13) && (bits 12 3 w =? 0) then Some (UAddi rd (xreg (bits 15 5 w)) (sext 12 (bits 20 12 w)))
  else if w =? 0x73 then Some UEcall
  else if op =? 0x6f then
    Some (UJal rd (sext 21 (Z.lor (Z.lor (Z.shiftl (bits 31 1 w) 20) (Z.shiftl (bits 12 8 w) 12))
                                  (Z.lor (Z.shiftl (bits 20 1 w) 11) (Z.shiftl (bits 21 10 w) 1)))))
  else None.

(** user/initcode.S, assembled at address 0: [start] and [exit], with the places
    that the strings and the arrays of pointers have in the array [initcode]. *)
Definition init_at : Z := 44.
Definition argv_at : Z := 62.
Definition env_at : Z := 78.
Definition initcode_S : list uinstr :=
  let la rd pc at_ := [UAuipc rd 0; UAddi rd rd (at_ - pc)] in
  la A0 0 init_at ++ la A1 8 argv_at ++ la A2 16 env_at ++
  [UAddi A7 X0 (sysnum SYS_execve); UEcall] ++
  [UAddi A7 X0 (sysnum SYS_exit); UEcall; UJal Ra (-8)].

(** A user program with its memory at virtual addresses. *)
Record ucore := mk_ucore { uc_pc : Z; uc_regs : reg → Z; uc_mem : memory }.

Definition uget (u : ucore) (r : reg) : Z := if decide (r = X0) then 0 else uc_regs u r.
Definition uset (r : reg) (v pc : Z) (u : ucore) : ucore :=
  mk_ucore pc (λ r', if decide (r' = r) then v else uc_regs u r') (uc_mem u).

(** The program up to its next [ecall]. *)
Fixpoint urun (fuel : nat) (u : ucore) : option ucore :=
  match fuel with
  | O => None
  | S fuel =>
      let pc := uc_pc u in
      i ← decode (ld32 (uc_mem u) pc);
      match i with
      | UAuipc rd imm => urun fuel (uset rd (u64 (pc + imm)) (u64 (pc + 4)) u)
      | UAddi rd rs imm => urun fuel (uset rd (u64 (uget u rs + imm)) (u64 (pc + 4)) u)
      | UJal rd off => urun fuel (uset rd (u64 (pc + 4)) (u64 (pc + off)) u)
      | UEcall => Some u
      end
  end.

(** The kernel goes on after the [ecall], with the result in [a0]. *)
Definition uresume (r : Z) (u : ucore) : ucore := uset A0 r (u64 (uc_pc u + 4)) u.
