(* ===== verification/Boot.v ===== *)
(** Starting the harts (kernel/boot/start.c, kernel/boot/main.c): the firmware
    starts one hart, which initialises the kernel and then has the firmware start
    the others.  The harts take steps in any order. *)

From S2P Require Import Prelude Mem State Machine Mm Proc Sync Console Virtio Buf Log Inode Pipe File Fork Exec Sysfile Trap.

(** ** kernel/boot/start.c *)

Definition SIE_SEIE : Z := Z.shiftl 1 9.
Definition SIE_STIE : Z := Z.shiftl 1 5.
Definition SIE_SSIE : Z := Z.shiftl 1 1.

(** [start] up to the call of [main]; the value is that of register [sie] when it
    was [v]. *)
Definition start (hartid v : Z) : KM Z :=
  write_satp 0;;
  upd_hart (set_tp hartid);;
  mret (Z.lor (Z.lor (Z.lor v SIE_SEIE) SIE_SSIE) SIE_STIE).

(** ** kernel/boot/main.c: the call of the firmware *)

Definition SBI_HSM_EXTENSION : Z := 0x48534D.
Definition SBI_HSM_HART_START : Z := 0.

Section wake.
(** [ecall] with the registers a7, a6, a0, a1 and a2. *)
Context (sbi : Z → Z → Z → Z → Z → KM Z) (_entry : Z).

Definition hart_start (hartid start_addr opaque : Z) : KM Z :=
  sbi SBI_HSM_EXTENSION SBI_HSM_HART_START hartid start_addr opaque.

Definition wake_up_other_harts : KM unit :=
  kiter (seqZ 0 N_CPU) (λ id,
    me ← current_cpuid;
    when (negb (id =? me)) (hart_start id _entry 0;; mret tt)).
End wake.

(** ** kernel/boot/main.c: [main] on all harts *)

(** Where a hart is. *)
Inductive bpc :=
| Stopped       (* the firmware has not started it *)
| ReadFirst     (* [if (first)] *)
| ClearFirst    (* [first = false] *)
| InitKernel    (* [console_init] to [user_init]: [boot_hart] *)
| SetStarted    (* [started = true] *)
| Waking (id : nat)   (* [wake_up_other_harts], at hart [id] *)
| ReadStarted   (* [while (!started)] *)
| InitHart      (* [boot_other_hart] *)
| Scheduling.   (* [scheduler()] *)

#[export] Instance bpc_eq_dec : EqDecision bpc.
Proof. solve_decision. Defined.

(** The static variables and the harts. *)
Record boot := mk_boot { bt_first : bool; bt_started : bool; bt_harts : list bpc }.

Definition at_pc (h : nat) (p : bpc) (b : boot) : boot := mk_boot (bt_first b) (bt_started b) (<[h := p]> (bt_harts b)).

(** The firmware starts a hart that is stopped, at [_entry]; for another one it
    returns an error, which is ignored. *)
Definition sbi_start (id : nat) (b : boot) : boot :=
  if decide (bt_harts b !! id = Some Stopped) then at_pc id ReadFirst b else b.

(** One step of hart [h].  The order of the accesses to [first] and [started] is
    what the steps are about: the initialisations between them ([boot_hart],
    [boot_other_hart]) are one step each, which returns, and the two memory barriers
    are no steps, as the harts see one memory. *)
Definition main_step (h : nat) (b : boot) : option boot :=
  match bt_harts b !! h with
  | Some ReadFirst => Some (at_pc h (if bt_first b then ClearFirst else ReadStarted) b)
  | Some ClearFirst => Some (at_pc h InitKernel (mk_boot false (bt_started b) (bt_harts b)))
  | Some InitKernel => Some (at_pc h SetStarted b)
  | Some SetStarted => Some (at_pc h (Waking 0) (mk_boot (bt_first b) true (bt_harts b)))
  | Some (Waking id) =>
      if (Z.of_nat id <? N_CPU) then Some (at_pc h (Waking (S id)) (if (id =? h)%nat then b else sbi_start id b))
      else Some (at_pc h Scheduling b)
  | Some ReadStarted => Some (at_pc h (if bt_started b then InitHart else ReadStarted) b)
  | Some InitHart => Some (at_pc h Scheduling b)
  | Some Stopped | Some Scheduling | None => None
  end.

Definition boot_step (b b' : boot) : Prop := ∃ h, main_step h b = Some b'.

(** Hart [k] has been started. *)
Definition powered_on (k : nat) : boot := mk_boot true false (<[k := ReadFirst]> (replicate (Z.to_nat N_CPU) Stopped)).

(** ** The invariant *)

(** The hart that boots, and the others. *)
Definition booting (b : boot) (p : bpc) : Prop :=
  match p with
  | ReadFirst | ClearFirst => bt_first b = true ∧ bt_started b = false
  | InitKernel | SetStarted => bt_first b = false ∧ bt_started b = false
  | Waking _ | Scheduling => bt_first b = false ∧ bt_started b = true
  | _ => False
  end.
Definition following (b : boot) (p : bpc) : Prop :=
  match p with
  | Stopped => True
  | ReadFirst | ReadStarted | InitHart | Scheduling => bt_first b = false ∧ bt_started b = true
  | _ => False
  end.

(** The hart that boots, at [p], has started hart [h]. *)
Definition has_woken (p : bpc) (h : nat) : Prop :=
  match p with Waking id => (h < id)%nat | Scheduling => True | _ => False end.

Record boot_inv (k : nat) (b : boot) : Prop := {
  bi_len : length (bt_harts b) = Z.to_nat N_CPU;
  bi_boot : ∃ p, bt_harts b !! k = Some p ∧ booting b p ∧
    ∀ h, h ≠ k → has_woken p h → bt_harts b !! h ≠ Some Stopped;
  bi_other : ∀ h p, h ≠ k → bt_harts b !! h = Some p → following b p;
}.

(** How many steps a hart still makes at most. *)
Definition to_go (p : bpc) : nat :=
  let n := Z.to_nat N_CPU in
  match p with
  | Scheduling => 0
  | InitHart => 1
  | ReadStarted => 2
  | Waking id => 1 + (n - id)
  | SetStarted => 2 + n
  | InitKernel => 3 + n
  | ClearFirst => 4 + n
  | ReadFirst => 5 + n
  | Stopped => 6 + n
  end.
Definition steps_left (b : boot) : nat := sum_list (to_go <$> bt_harts b).

(** ** Lemmas *)

Lemma lookup_at_pc h p b j :
  (h < length (bt_harts b))%nat → bt_harts (at_pc h p b) !! j = if decide (j = h) then Some p else bt_harts b !! j.
Proof.
  intros Hh. cbn [at_pc bt_harts]. case_decide as D; [subst; by apply list_lookup_insert_eq|by apply list_lookup_insert_ne].
Qed.

Lemma steps_left_at_pc h p q b :
  bt_harts b !! h = Some p → (steps_left (at_pc h q b) + to_go p = steps_left b + to_go q)%nat.
Proof.
  unfold steps_left. cbn [at_pc bt_harts]. generalize (bt_harts b). intros l. revert h.
  induction l as [|x l IH]; intros [|h] Hl; simplify_eq/=; [lia|]. specialize (IH h Hl). lia.
Qed.

(** A step of another hart that leaves the variables as they are. *)
Lemma follow_step k b h p q :
  boot_inv k b → h ≠ k → bt_harts b !! h = Some p → following b q → q ≠ Stopped → (to_go q < to_go p)%nat →
  boot_inv k (at_pc h q b) ∧ (steps_left (at_pc h q b) < steps_left b)%nat.
Proof.
  intros [I1 (pk & K1 & K2 & K3) I3] Hne Hh Hq Hs Hlt. pose proof (lookup_lt_Some _ _ _ Hh) as Hl. split.
  - split; [cbn; by rewrite length_insert|exists pk|].
    + rewrite lookup_at_pc, decide_False by done. split_and!; [done|done|]. intros j Hj Hw. rewrite lookup_at_pc by done.
      case_decide; [congruence|by apply K3].
    + intros j pj Hj. rewrite lookup_at_pc by done. case_decide; [intros [= <-]; exact Hq|apply I3; done].
  - pose proof (steps_left_at_pc h p q b Hh). lia.
Qed.

(** A step of the hart that boots, with new values of the variables. *)
Lemma booting_step k b p q f st :
  boot_inv k b → bt_harts b !! k = Some p → (to_go q < to_go p)%nat → let b' := at_pc k q (mk_boot f st (bt_harts b)) in
  booting b' q → (∀ h, h ≠ k → has_woken q h → bt_harts b !! h ≠ Some Stopped) →
  (∀ h r, h ≠ k → bt_harts b !! h = Some r → following b' r) →
  boot_inv k b' ∧ (steps_left b' < steps_left b)%nat.
Proof.
  intros [I1 _ I3] Hk Hlt b' Hb Hw Hf. pose proof (lookup_lt_Some _ _ _ Hk) as Hl.
  assert (∀ j, bt_harts b' !! j = if decide (j = k) then Some q else bt_harts b !! j) as E by (intros j; exact (lookup_at_pc k q (mk_boot f st (bt_harts b)) j Hl)).
  split; [split|].
  - cbn. by rewrite length_insert.
  - exists q. rewrite E, decide_True by done. split_and!; [done|done|]. intros h Hne Hwk. rewrite E, decide_False by done. by apply Hw.
  - intros h r Hne. rewrite E, decide_False by done. by apply Hf.
  - pose proof (steps_left_at_pc k p q (mk_boot f st (bt_harts b)) Hk) as Hs. change (steps_left (mk_boot f st (bt_harts b))) with (steps_left b) in Hs.
    fold b' in Hs. lia.
Qed.

(** Before [started] is set the other harts are stopped. *)
Lemma others_stopped k b h r : boot_inv k b → bt_started b = false → h ≠ k → bt_harts b !! h = Some r → r = Stopped.
Proof. intros [_ _ I3] Hs Hne Hr. specialize (I3 h r Hne Hr). destruct r; cbn in I3; try done; destruct I3; congruence. Qed.

Lemma sbi_start_inv k b id n :
  boot_inv k b → bt_harts b !! k = Some (Waking n) → id ≠ k → bt_started b = true → bt_first b = false →
  boot_inv k (sbi_start id b) ∧ (steps_left (sbi_start id b) ≤ steps_left b)%nat ∧ bt_harts (sbi_start id b) !! k = Some (Waking n) ∧
  bt_harts (sbi_start id b) !! id ≠ Some Stopped ∧ bt_started (sbi_start id b) = true ∧ bt_first (sbi_start id b) = false.
Proof.
  intros HI Hk Hne Hs Hf. unfold sbi_start. case_decide as D; [|done]. pose proof (lookup_lt_Some _ _ _ D) as Hl.
  destruct (follow_step k b id Stopped ReadFirst HI Hne D) as [HI' Hlt]; [done|done|cbn; lia|].
  split_and!; [done|lia| |rewrite lookup_at_pc, decide_True by done; congruence|done|done]. by rewrite lookup_at_pc, decide_False by done.
Qed.

Lemma main_step_inv k b h b' :
  boot_inv k b → main_step h b = Some b' → boot_inv k b' ∧ (steps_left b' < steps_left b)%nat.
Proof.
  intros HI. pose proof HI as [I1 (pk & K1 & K2 & K3) I3]. unfold main_step.
  destruct (bt_harts b !! h) as [p|] eqn:Hh; [|done]. destruct (decide (h = k)) as [->|Hne].
  - simplify_eq. destruct pk as [| | | | |id| | |]; cbn [booting] in K2; try done; destruct K2 as [Kf Ks].
    + intros [= <-]. rewrite Kf. apply (booting_step k b ReadFirst ClearFirst (bt_first b) (bt_started b)); [done|done|cbn; lia|done|done|].
      intros h r Hne Hr. by rewrite (others_stopped k b h r).
    + intros [= <-]. apply (booting_step k b ClearFirst InitKernel); [done|done|cbn; lia|done|done|].
      intros h r Hne Hr. by rewrite (others_stopped k b h r).
    + intros [= <-]. apply (booting_step k b InitKernel SetStarted (bt_first b) (bt_started b)); [done|done|cbn; lia|done|done|].
      intros h r Hne Hr. by rewrite (others_stopped k b h r).
    + intros [= <-]. apply (booting_step k b SetStarted (Waking 0)); [done|done|cbn; lia|done|cbn; lia|].
      intros h r Hne Hr. by rewrite (others_stopped k b h r).
    + destruct (Z.ltb_spec (Z.of_nat id) N_CPU) as [Hlt|Hge].
      * intros [= <-]. set (b1 := if (id =? k)%nat then b else sbi_start id b).
        assert (boot_inv k b1 ∧ (steps_left b1 ≤ steps_left b)%nat ∧ bt_harts b1 !! k = Some (Waking id) ∧
          (id ≠ k → bt_harts b1 !! id ≠ Some Stopped) ∧ bt_started b1 = true ∧ bt_first b1 = false) as (J1 & J2 & J3 & J4 & J5 & J6).
        { unfold b1. destruct (Nat.eqb_spec id k) as [->|Hne]; [done|].
          destruct (sbi_start_inv k b id id HI K1 Hne Ks Kf) as (J1 & J2 & J3 & J4 & J5 & J6). done. }
        destruct (booting_step k b1 (Waking id) (Waking (S id)) (bt_first b1) (bt_started b1)) as [L1 L2]; [done|done|cbn; lia|done| | |].
        { intros h Hne Hw. cbn in Hw. destruct (decide (h = id)) as [->|Hi]; [by apply J4|].
          destruct (bi_boot _ _ J1) as (p & P1 & _ & P3). rewrite J3 in P1. injection P1 as <-. apply P3; [done|]. cbn. lia. }
        { intros h r Hne Hr. pose proof (bi_other _ _ J1 h r Hne Hr) as Hf. destruct b1. exact Hf. }
        destruct b1 as [f1 s1 l1]. split; [exact L1|]. cbn [bt_first bt_started bt_harts] in *. lia.
      * intros [= <-]. apply (booting_step k b (Waking id) Scheduling (bt_first b) (bt_started b)); [done|done|cbn; lia|done| |].
        -- intros h Hne _. destruct (bt_harts b !! h) as [r|] eqn:Hr; [|done]. rewrite <-Hr. apply K3; [done|]. cbn.
           apply lookup_lt_Some in Hr. rewrite I1 in Hr. lia.
        -- intros h r Hne Hr. exact (I3 h r Hne Hr).
  - specialize (I3 h p Hne Hh). destruct p; cbn [following] in I3; try done; destruct I3 as [Jf Js]; intros [= <-]; rewrite ?Jf, ?Js;
      (eapply follow_step; [done|done|done|done|done|cbn; lia]).
Qed.

Lemma powered_on_inv k : (k < Z.to_nat N_CPU)%nat → boot_inv k (powered_on k).
Proof.
  intros Hk. split; cbn [powered_on bt_harts].
  - by rewrite length_insert, length_replicate.
  - exists ReadFirst. rewrite list_lookup_insert_eq by by rewrite length_replicate. done.
  - intros h p Hne. rewrite list_lookup_insert_ne by done. by intros [-> _]%lookup_replicate.
Qed.

Lemma boot_nsteps k n b b' : boot_inv k b → nsteps boot_step n b b' → boot_inv k b' ∧ (steps_left b' + n ≤ steps_left b)%nat.
Proof.
  intros HI H. induction H as [b|n b b1 b2 [h Hs] _ IH]; [split; [done|lia]|].
  destruct (main_step_inv k b h b1 HI Hs) as [HI1 Hlt]. destruct (IH HI1). split; [done|lia].
Qed.

(** A run that follows a schedule. *)
Fixpoint boot_run (hs : list nat) (b : boot) : option boot :=
  match hs with
  | [] => Some b
  | h :: hs => match main_step h b with Some b1 => boot_run hs b1 | None => None end
  end.

Lemma boot_run_steps hs b b' : boot_run hs b = Some b' → nsteps boot_step (length hs) b b'.
Proof.
  revert b. induction hs as [|h hs IH]; intros b; cbn; [intros [= <-]; constructor|].
  destruct (main_step h b) as [b1|] eqn:E; [|done]. intros Hr. econstructor; [by exists h|by apply IH].
Qed.

(** ** Properties *)

(** C16: however the harts interleave, the kernel is initialised exactly once and
    before any other hart uses it: only the hart that the firmware started runs
    the initialisation; a hart that runs at all besides it finds [started] set
    and [first] cleared, so that it never waits; and [started] is set only when
    the initialisation is over. *)
Theorem boot_once k b :
  (k < Z.to_nat N_CPU)%nat → rtc boot_step (powered_on k) b →
  ∀ h p, bt_harts b !! h = Some p →
    (p = ClearFirst ∨ p = InitKernel ∨ p = SetStarted ∨ (∃ id, p = Waking id) → h = k) ∧
    (h ≠ k → p ≠ Stopped → bt_started b = true ∧ bt_first b = false) ∧
    (h = k → bt_started b = true → p = Scheduling ∨ ∃ id, p = Waking id).
Proof.
  intros Hk [n Hr]%rtc_nsteps_1. destruct (boot_nsteps k n _ b (powered_on_inv k Hk) Hr) as [[I1 (pk & K1 & K2 & K3) I3] _].
  intros h p Hh. split_and!.
  - intros Hp. destruct (decide (h = k)) as [|Hne]; [done|]. specialize (I3 h p Hne Hh).
    destruct Hp as [->|[->|[->|[id ->]]]]; done.
  - intros Hne Hp. specialize (I3 h p Hne Hh). destruct p; cbn in I3; try done; by destruct I3.
  - intros -> Hs. simplify_eq. destruct pk; cbn in K2; try done; try (destruct K2; congruence); [by right; eexists|by left].
Qed.

(** C17: booting ends: no interleaving has more than [steps_left] steps (with three
    harts 26), and when no hart can make a step all of them are in the scheduler. *)
Theorem boot_terminates k n b :
  (k < Z.to_nat N_CPU)%nat → nsteps boot_step n (powered_on k) b →
  (n ≤ 26)%nat ∧ ((∀ h, main_step h b = None) → bt_harts b = replicate (Z.to_nat N_CPU) Scheduling).
Proof.
  intros Hk Hr. destruct (boot_nsteps k n _ b (powered_on_inv k Hk) Hr) as [[I1 (pk & K1 & K2 & K3) I3] Hn]. split.
  - assert (steps_left (powered_on k) = 26%nat) as E; [|lia]. change (Z.to_nat N_CPU) with 3%nat in Hk.
    destruct k as [|[|[|k]]]; [done..|lia].
  - intros Hstuck. assert (∀ h p, bt_harts b !! h = Some p → p = Scheduling ∨ p = Stopped) as Hp.
    { intros h p Hh. specialize (Hstuck h). unfold main_step in Hstuck. rewrite Hh in Hstuck.
      destruct p; try done; [by right|by case_match|by left]. }
    assert (pk = Scheduling) as -> by (destruct (Hp k pk K1) as [->| ->]; done).
    apply list_eq_same_length with (n := Z.to_nat N_CPU); [by rewrite length_replicate|done|].
    intros h p q Hlt Hh [-> _]%lookup_replicate. destruct (Hp h p Hh) as [| ->]; [done|]. destruct (decide (h = k)) as [->|Hne]; [congruence|].
    by destruct (K3 h Hne I).
Qed.

(** The harts interleave: hart 1 boots and starts hart 0, which is in the
    scheduler before hart 2 is started. *)
Definition interleaved : list nat := [1; 1; 1; 1; 1; 0; 1; 0; 0; 1; 1; 2; 2; 2]%nat.

Lemma boot_once_witness :
  let b := default (powered_on 1) (boot_run (take 9 interleaved) (powered_on 1)) in
  bt_harts b = [Scheduling; Waking 2; Stopped] ∧ bt_started b = true ∧ bt_first b = false.
Proof.
  intros b. split; [by vm_compute|].
  refine (proj1 (proj2 (boot_once 1 b _ _ 0 Scheduling _)) _ _).
  - vm_compute; lia.
  - eapply rtc_nsteps_2, (boot_run_steps (take 9 interleaved)). by vm_compute.
  - by vm_compute.
  - done.
  - done.
Defined.

Lemma boot_terminates_witness :
  (length interleaved ≤ 26)%nat ∧ bt_harts (default (powered_on 1) (boot_run interleaved (powered_on 1))) = [Scheduling; Scheduling; Scheduling].
Proof.
  destruct (boot_terminates 1 (length interleaved) (default (powered_on 1) (boot_run interleaved (powered_on 1)))) as [Hn Hs].
  - vm_compute; lia.
  - apply boot_run_steps. by vm_compute.
  - split; [exact Hn|]. apply Hs. intros [|[|[|h]]]; by vm_compute.
Defined.
