(* ===== verification/Mkfs.v ===== *)
(** The tool that writes the initial disk image: tools/mkfs.c.

    The image is the map of its blocks; the host is little-endian, as the tool
    requires of the numbers it computes with.  What the tool prints is not
    represented; [exit(1)] is the outcome [Panic].  A file of the host is the
    list of its bytes, or [None] when it cannot be opened. *)

From S2P Require Import Prelude Mem State Machine Mm Proc Sync Virtio Buf Log Inode.

Record mkfs := mk_mkfs {
  fs_fd : gmap Z (list Z);  (* the image *)
  mk_sb : super_block;
  root_inode : d_inode;
  root_ino : Z;
  root_block : Z;
}.

Definition set_fs_fd v r := mk_mkfs v (mk_sb r) (root_inode r) (root_ino r) (root_block r).
Definition set_mk_sb v r := mk_mkfs (fs_fd r) v (root_inode r) (root_ino r) (root_block r).
Definition set_root_inode v r := mk_mkfs (fs_fd r) (mk_sb r) v (root_ino r) (root_block r).
Definition set_root_ino v r := mk_mkfs (fs_fd r) (mk_sb r) (root_inode r) v (root_block r).
Definition set_root_block v r := mk_mkfs (fs_fd r) (mk_sb r) (root_inode r) (root_ino r) v.

Definition HM : Type → Type := K Empty_set mkfs.

(** ** The layout *)

Definition n_log_blks : Z := LOG_SIZE.
Definition n_inode_blks : Z := BLOCK_SIZE * 8 / IPB.
Definition n_data_blks : Z := BLOCK_SIZE * 8.
Definition n_blks : Z := 1 + 1 + n_log_blks + 1 + n_inode_blks + 1 + n_data_blks.
Definition log_start : Z := 1 + 1.
Definition inode_bitmap_start : Z := log_start + n_log_blks.
Definition inode_start : Z := inode_bitmap_start + 1.
Definition data_bitmap_start : Z := inode_start + n_inode_blks.
Definition data_start : Z := data_bitmap_start + 1.

(** [a[0] = x; a[1] = x >> 8; ...], and the number in [a]. *)
Definition mkfs_xuint16 (x : Z) : Z := get_le 2 (put_le 2 x 0 [0; 0]) 0.
Definition mkfs_xuint32 (x : Z) : Z := get_le 4 (put_le 4 x 0 [0; 0; 0; 0]) 0.

(** ** Blocks of the image *)

(** A read beyond the end of the image is short. *)
Definition mkfs_read_block (bno : Z) : HM (list Z) :=
  o ← gets (λ s, fs_fd s !! bno);
  match o with Some d => mret d | None => panic "read" end.

Definition mkfs_write_block (bno : Z) (buf : list Z) : HM unit :=
  modify (λ s, set_fs_fd (<[bno := buf]> (fs_fd s)) s).

(** The first clear bit is found by the same two loops as in the kernel. *)
Definition mkfs_block_alloc : HM Z :=
  sb ← gets mk_sb;
  buf ← mkfs_read_block (sb_data_bitmap_start sb);
  match find_bit buf false 0 BITS with
  | Some k =>
      mkfs_write_block (sb_data_bitmap_start sb) (set_bit k buf);;
      mret (u32 (Z.of_nat k + sb_data_start sb))
  | None => panic "no free block"
  end.

Definition mkfs_inode_alloc : HM Z :=
  sb ← gets mk_sb;
  buf ← mkfs_read_block (sb_inode_bitmap_start sb);
  match find_bit buf true 0 BITS with
  | Some k =>
      mkfs_write_block (sb_inode_bitmap_start sb) (set_bit k buf);;
      mret (u16 (Z.of_nat k))
  | None => panic "no free inode"
  end.

(** [struct d_inode] as its bytes: 64 of them, without padding. *)
Definition dinode_bytes (di : d_inode) : list Z := put_dinode di 0 (replicate D_INODE_SIZE 0).

Definition mkfs_write_inode (ino : Z) (inode : d_inode) : HM unit :=
  sb ← gets mk_sb;
  let ib := u32 (ino / IPB + sb_inode_start sb) in
  buf ← mkfs_read_block ib;
  mkfs_write_block ib (list_inserts (dinode_off ino) (dinode_bytes inode) buf).

(** The inode as the tool leaves it. *)
Definition mkfs_update_inode (ino : Z) (inode : d_inode) : HM d_inode :=
  let inode := mk_d_inode (di_type inode) (di_major inode) (di_minor inode) (di_nlink inode)
                 (mkfs_xuint32 (di_size inode)) (mkfs_xuint32 <$> di_addrs inode) in
  mkfs_write_inode ino inode;;
  mret inode.

Definition mkfs_create_inode (ino type : Z) : HM d_inode :=
  let inode := mk_d_inode (mkfs_xuint16 type) (mkfs_xuint16 0) (mkfs_xuint16 0) (mkfs_xuint16 1)
                 (mkfs_xuint32 0) (replicate 13 (mkfs_xuint32 0)) in
  mkfs_write_inode ino inode;;
  mret inode.

Definition set_di_addr (k : nat) (a : Z) (di : d_inode) : d_inode :=
  mk_d_inode (di_type di) (di_major di) (di_minor di) (di_nlink di) (di_size di) (<[k := a]> (di_addrs di)).
Definition add_di_size (len : Z) (di : d_inode) : d_inode :=
  mk_d_inode (di_type di) (di_major di) (di_minor di) (di_nlink di) (u32 (di_size di + len)) (di_addrs di).

(** [if (addrs[k] == 0) addrs[k] = mkfs_block_alloc();] *)
Definition mkfs_addr (inode : d_inode) (k : nat) : HM (d_inode * Z) :=
  match di_addrs inode !! k with
  | None => stuck Undefined
  | Some a =>
      if a =? 0 then a ← mkfs_block_alloc; mret (set_di_addr k a inode, a)
      else mret (inode, a)
  end.

(** The address of block [n] of the file, and the inode. *)
Definition mkfs_block_map (inode : d_inode) (n : Z) : HM (d_inode * Z) :=
  if n <? N_DIRECT then mkfs_addr inode (Z.to_nat n) else
  let n := n - N_DIRECT in
  if n <? N_INDIRECT * APB then
    '(inode, ind) ← mkfs_addr inode (Z.to_nat (N_DIRECT + n / APB));
    buf ← mkfs_read_block ind;
    let j := Z.to_nat (n mod APB) in
    if word32 buf j =? 0 then
      a ← mkfs_block_alloc;
      mkfs_write_block ind (set_word32 a j buf);;
      mret (inode, a)
    else mret (inode, word32 buf j)
  else panic "block overflow".

Definition mkfs_init_sb : HM unit :=
  modify (set_mk_sb (mk_super_block (mkfs_xuint32 BLOCK_SIZE) (mkfs_xuint32 n_log_blks)
    (mkfs_xuint32 n_inode_blks) (mkfs_xuint32 n_data_blks) (mkfs_xuint32 log_start)
    (mkfs_xuint32 inode_bitmap_start) (mkfs_xuint32 inode_start) (mkfs_xuint32 data_bitmap_start)
    (mkfs_xuint32 data_start))).

(** [name]: the bytes of the string. *)
Definition mkfs_create_dir_entry (off : Z) (name : list Z) (ino : Z) : HM Z :=
  let de := put_le 2 (mkfs_xuint16 ino) 0 [0; 0] ++ strncpy (rdl name) DIR_SIZE in
  rb ← gets root_block;
  buf ← mkfs_read_block rb;
  (if off + DIRENT_SIZE <=? BLOCK_SIZE
   then mkfs_write_block rb (list_inserts (Z.to_nat off) de buf) else stuck Undefined);;
  mret (off + DIRENT_SIZE).

(** ** [main] *)

(** [struct super_block] as its bytes. *)
Definition sb_bytes (sb : super_block) : list Z :=
  let words := [sb_block_size sb; sb_n_log_blks sb; sb_n_inode_blks sb; sb_n_data_blks sb; sb_log_start sb;
                sb_inode_bitmap_start sb; sb_inode_start sb; sb_data_bitmap_start sb; sb_data_start sb] in
  w ← words; put_le 4 w 0 [0; 0; 0; 0].

(** The name after the last '/', without leading '_'. *)
Fixpoint skip_underscores (name : list Z) : list Z :=
  match name with
  | c :: rest => if c =? 95 then skip_underscores rest else name
  | [] => []
  end.
Fixpoint after_slash (arg best : list Z) : list Z :=
  match arg with
  | [] => best
  | c :: rest => after_slash rest (if c =? 47 then rest else best)
  end.
Definition short_name (arg : list Z) : list Z := skip_underscores (after_slash arg arg).

(** The loop that copies the bytes left of a file into its blocks.  The host's
    [read] gives the bytes of the file, a whole block at a time while there is one;
    an error of [read] (-1, which the loop would add to the size) is not
    represented. *)
Fixpoint copy_blocks (fuel : nat) (inode : d_inode) (nth : Z) (rest : list Z) : HM d_inode :=
  match fuel with
  | O => stuck OutOfFuel
  | S fuel =>
      let buf := take (Z.to_nat BLOCK_SIZE) rest in
      let len := Z.of_nat (length buf) in
      '(inode, bno) ← mkfs_block_map inode nth;
      mkfs_write_block bno (buf ++ replicate (Z.to_nat BLOCK_SIZE - length buf) 0);;
      let inode := add_di_size len inode in
      if len <? BLOCK_SIZE then mret inode
      else copy_blocks fuel inode (nth + 1) (drop (Z.to_nat BLOCK_SIZE) rest)
  end.

(** One argument: the offset of the next entry. *)
Definition copy_file (off : Z) (arg : list Z) (contents : option (list Z)) : HM Z :=
  ino ← mkfs_inode_alloc;
  inode ← mkfs_create_inode ino FT_FILE;
  off ← mkfs_create_dir_entry off (short_name arg) ino;
  match contents with
  | None => panic "open"
  | Some bytes =>
      inode ← copy_blocks (S (length bytes)) inode 0 bytes;
      mkfs_update_inode ino inode;;
      mret off
  end.

(** The files from the second argument on, and the number of entries. *)
Fixpoint copy_files (off entry_count : Z) (files : list (list Z * option (list Z))) : HM Z :=
  match files with
  | [] => mret entry_count
  | (arg, contents) :: files =>
      if BLOCK_SIZE <=? off then mret entry_count else
      off ← copy_file off arg contents;
      copy_files off (entry_count + 1) files
  end.

Definition mkfs_main (files : list (list Z * option (list Z))) : HM unit :=
  mkfs_init_sb;;
  let zero := replicate (Z.to_nat BLOCK_SIZE) 0 in
  kiter (seqZ 0 n_blks) (λ i, mkfs_write_block i zero);;
  sb ← gets mk_sb;
  mkfs_write_block 1 (list_inserts 0 (sb_bytes sb) zero);;
  rino ← mkfs_inode_alloc;
  modify (set_root_ino rino);;
  if negb (rino =? ROOT_INO) then panic "assert" else
  rb ← mkfs_block_alloc;
  modify (set_root_block rb);;
  root ← mkfs_create_inode rino FT_DIR;
  modify (set_root_inode root);;
  off ← mkfs_create_dir_entry 0 [46] ROOT_INO;
  off ← mkfs_create_dir_entry off [46; 46] ROOT_INO;
  entry_count ← copy_files off 2 files;
  root ← gets root_inode;
  rb ← gets root_block;
  let root := set_di_addr 0 rb root in
  let root := mk_d_inode (di_type root) (di_major root) (di_minor root) (di_nlink root)
                (u32 (entry_count * DIRENT_SIZE)) (di_addrs root) in
  root ← mkfs_update_inode rino root;
  modify (set_root_inode root).

(** The image of the files. *)
Definition mkfs_image (files : list (list Z * option (list Z))) : outcome Empty_set mkfs unit :=
  mkfs_main files (mk_mkfs ∅ (mk_super_block 0 0 0 0 0 0 0 0 0) (mk_d_inode 0 0 0 0 0 []) 0 0).
