(* ===== verification/ULib.v ===== *)
(** The user library: user/ulib.c, and the system calls of user/usys.S that it
    and the programs use.

    A program has its own byte memory.  What the kernel does for it is the
    class [Os]: a system call takes the bytes that its pointers address and
    gives back the bytes to store.  The string functions that only read take
    the bytes a pointer addresses as a function of the offset ([rd]), with a
    bound on the number of bytes read; [rounds] bounds the loops of the code
    that the code does not. *)

From S2P Require Import Prelude Mem State Machine Mm Proc Sync Console Virtio Buf Log Inode Pipe File Fork Exec Sysfile.

(** How a program ends. *)
Inductive uend := Exited (status : Z) | Execed (path : list Z) (argv env : Z).

(** The memory, [head] of the heap's list and [olds] of [strtok] (0 for the
    null pointer), and the kernel's side. *)
Record ustate (W : Type) := mk_ustate { u_mem : memory; u_head : Z; u_olds : Z; u_os : W }.
Arguments mk_ustate {W}.
Arguments u_mem {W}.
Arguments u_head {W}.
Arguments u_olds {W}.
Arguments u_os {W}.

Definition set_u_mem {W} v (s : ustate W) := mk_ustate v (u_head s) (u_olds s) (u_os s).
Definition set_u_head {W} v (s : ustate W) := mk_ustate (u_mem s) v (u_olds s) (u_os s).
Definition set_u_olds {W} v (s : ustate W) := mk_ustate (u_mem s) (u_head s) v (u_os s).
Definition set_u_os {W} (v : W) (s : ustate W) := mk_ustate (u_mem s) (u_head s) (u_olds s) v.

Class Os (W : Type) := {
  os_read : Z → Z → W → (Z * list Z) * W;  (* fd, n: the result and the bytes *)
  os_write : Z → list Z → W → Z * W;
  os_open : list Z → Z → W → Z * W;
  os_close : Z → W → Z * W;
  os_fstat : Z → W → option stat * W;
  os_mkdir : list Z → W → Z * W;
  os_mknod : list Z → Z → Z → W → Z * W;
  os_link : list Z → list Z → W → Z * W;
  os_unlink : list Z → W → Z * W;
  os_chdir : list Z → W → Z * W;
  os_kill : Z → W → Z * W;
  os_dup : Z → W → Z * W;
  os_dup2 : Z → Z → W → Z * W;
  os_pipe : W → option (Z * Z) * W;
  os_fork : W → Z * W;
  os_wait : W → Z * W;
  os_sbrk : Z → W → Z * W;
  os_execve : list Z → Z → Z → W → bool * W;  (* whether the image is replaced *)
}.

Definition bytes (s : string) : list Z := bytes_of_string s.

(** ** The functions that read strings *)

Definition strlen (fuel : nat) (s : Z → Z) : option Z := Mem.strlen fuel s.

Fixpoint strcmp_from (fuel : nat) (s1 s2 : Z → Z) (i : Z) : option Z :=
  match fuel with
  | O => None
  | S fuel =>
      if negb (s1 i =? 0) && (s1 i =? s2 i) then strcmp_from fuel s1 s2 (i + 1)
      else Some (s1 i - s2 i)
  end.
Definition strcmp (fuel : nat) (s1 s2 : Z → Z) : option Z := strcmp_from fuel s1 s2 0.

Definition strncmp (s1 s2 : Z → Z) (n : nat) : Z := Mem.strncmp s1 s2 n.

(** [for (a = set; *a != '\0'; ++a) if (c == *a) break;]: whether it breaks. *)
Fixpoint char_in (fuel : nat) (set : Z → Z) (c i : Z) : option bool :=
  match fuel with
  | O => None
  | S fuel =>
      if set i =? 0 then Some false
      else if c =? set i then Some true else char_in fuel set c (i + 1)
  end.

Fixpoint strspn_from (fuel : nat) (str accept : Z → Z) (count : Z) : option Z :=
  match fuel with
  | O => None
  | S fuel' =>
      if str count =? 0 then Some count else
      match char_in fuel accept (str count) 0 with
      | None => None
      | Some false => Some count
      | Some true => strspn_from fuel' str accept (count + 1)
      end
  end.
Definition strspn (fuel : nat) (str accept : Z → Z) : option Z := strspn_from fuel str accept 0.

Fixpoint strcspn_from (fuel : nat) (str reject : Z → Z) (count : Z) : option Z :=
  match fuel with
  | O => None
  | S fuel' =>
      if str count =? 0 then Some count else
      match char_in fuel reject (str count) 0 with
      | None => None
      | Some true => Some count
      | Some false => strcspn_from fuel' str reject (count + 1)
      end
  end.
Definition strcspn (fuel : nat) (str reject : Z → Z) : option Z := strcspn_from fuel str reject 0.

(** The offset of the first [c], or [None] for the null pointer. *)
Fixpoint strchr_from (fuel : nat) (str : Z → Z) (c i : Z) : option (option Z) :=
  match fuel with
  | O => None
  | S fuel =>
      if str i =? 0 then Some None
      else if str i =? c then Some (Some i) else strchr_from fuel str c (i + 1)
  end.
Definition strchr (fuel : nat) (str : Z → Z) (c : Z) : option (option Z) := strchr_from fuel str c 0.

Definition strrchr (fuel : nat) (str : Z → Z) (c : Z) : option (option Z) := Mem.strrchr fuel str c.

(** The inner loop of [strstr] at offset [i] of both strings: whether the
    needle ended. *)
Fixpoint prefix_at (fuel : nat) (h n : Z → Z) (i : Z) : option bool :=
  match fuel with
  | O => None
  | S fuel =>
      if negb (h i =? 0) && negb (n i =? 0) && (h i =? n i) then prefix_at fuel h n (i + 1)
      else Some (n i =? 0)
  end.
Fixpoint strstr_from (fuel : nat) (h n : Z → Z) (p : Z) : option (option Z) :=
  match fuel with
  | O => None
  | S fuel' =>
      if h p =? 0 then Some None else
      match prefix_at fuel (λ i, h (p + i)) n 0 with
      | None => None
      | Some true => Some (Some p)
      | Some false => strstr_from fuel' h n (p + 1)
      end
  end.
Definition strstr (fuel : nat) (haystack needle : Z → Z) : option (option Z) :=
  if needle 0 =? 0 then Some (Some 0) else strstr_from fuel haystack needle 0.

Fixpoint atoi_from (fuel : nat) (p : Z → Z) (i n : Z) : option Z :=
  match fuel with
  | O => None
  | S fuel =>
      if (48 <=? p i) && (p i <=? 57) then atoi_from fuel p (i + 1) (s32 (s32 (n * 10) + (p i - 48)))
      else Some n
  end.
Definition atoi (fuel : nat) (nptr : Z → Z) : option Z := atoi_from fuel nptr 0 0.

Section ulib.
Context {W : Type} `{Os W} `{Rounds}.

Definition UM (A : Type) : Type := K uend (ustate W) A.

(** ** Memory and system calls *)

Definition ldb (p : Z) : UM Z := gets (λ s, mget (u_mem s) p).
Definition stb (p v : Z) : UM unit := modify (λ s, set_u_mem (mset (u_mem s) p v) s).
Definition lift {A} (o : option A) : UM A := match o with Some a => mret a | None => stuck OutOfFuel end.
(** The bytes that [p] addresses. *)
Definition str_at (p : Z) : UM (Z → Z) := gets (λ s, rd (u_mem s) p).
(** The string at [p], without its terminator. *)
Definition string_at (p : Z) : UM (list Z) :=
  m ← gets u_mem;
  n ← lift (strlen rounds (rd m p));
  mret (mbytes m p (Z.to_nat n)).
Definition call {A} (f : W → A * W) : UM A :=
  s ← get;
  let '(a, w) := f (u_os s) in
  modify (set_u_os w);;
  mret a.

(** The program is not resumed after its end. *)
Definition leave {A} (e : uend) : UM A := λ s, Sleep e s (λ _, Stuck Undefined).
Definition exit {A} (status : Z) : UM A := leave (Exited status).
Definition read (fd buf n : Z) : UM Z :=
  '(r, bs) ← call (os_read fd n);
  modify (λ s, set_u_mem (mwrite (u_mem s) buf bs) s);;
  mret r.
Definition write (fd buf n : Z) : UM Z :=
  m ← gets u_mem;
  call (os_write fd (mbytes m buf (Z.to_nat n))).
(** [write] of bytes that are not in memory: a literal, a local array. *)
Definition write_bytes (fd : Z) (bs : list Z) : UM unit := call (os_write fd bs);; mret tt.
Definition open (path omode : Z) : UM Z := l ← string_at path; call (os_open l omode).
Definition close (fd : Z) : UM Z := call (os_close fd).
Definition fstat (fd : Z) : UM (option stat) := call (os_fstat fd).
Definition sbrk (increment : Z) : UM Z := call (os_sbrk increment).
(** [execve] of the path [l] returns only when it fails. *)
Definition execve (l : list Z) (argv env : Z) : UM unit :=
  done ← call (os_execve l argv env);
  if (done : bool) then leave (Execed l argv env) else mret tt.

(** ** The functions that write strings *)

Definition strcpy (dst src : Z) : UM Z :=
  loop rounds
    (λ '(s, src),
       c ← ldb src;
       if negb (c =? 0) then stb s c;; mret (inl (s + 1, src + 1))
       else stb s 0;; mret (inr dst)) (dst, src).

Definition strncpy (dst src : Z) (n : nat) : UM Z :=
  '(s, n) ← loop (S n)
    (λ '(s, src, n),
       c ← ldb src;
       if (0 <? n)%nat && negb (c =? 0) then stb s c;; mret (inl (s + 1, src + 1, (n - 1)%nat))
       else mret (inr (s, n))) (dst, src, n);
  when (0 <? n)%nat (stb s 0);;
  mret dst.

Definition memset (ptr v : Z) (n : nat) : UM unit :=
  modify (λ s, set_u_mem (Mem.memset (u_mem s) ptr v n) s).
Definition memmove (dst src : Z) (n : nat) : UM unit :=
  modify (λ s, set_u_mem (Mem.memmove (u_mem s) dst src n) s).
Definition memcpy (dst src : Z) (n : nat) : UM unit := memmove dst src n.

(** The token, 0 for the null pointer. *)
Definition strtok (s delim : Z) : UM Z :=
  olds ← gets u_olds;
  let s := if s =? 0 then olds else s in
  if s =? 0 then stuck Undefined else
  c ← ldb s;
  if c =? 0 then modify (set_u_olds s);; mret 0 else
  d ← str_at delim;
  m ← gets u_mem;
  n ← lift (strspn rounds (rd m s) d);
  let s := s + n in
  c ← ldb s;
  if c =? 0 then modify (set_u_olds s);; mret 0 else
  n ← lift (strcspn rounds (rd m s) d);
  let e := s + n in
  c ← ldb e;
  if c =? 0 then modify (set_u_olds e);; mret s else
  stb e 0;;
  modify (set_u_olds (e + 1));;
  mret s.

(** ** Formatted output *)

(** A variadic argument: a number, a pointer to a string, or a pointer to a
    local array that holds a string. *)
Inductive uarg := UInt (x : Z) | UPtr (p : Z) | UStr (l : list Z).

Definition PF_SIGNED : Z := Z.shiftl 1 0.
Definition PF_LONG : Z := Z.shiftl 1 5.
Definition PF_LONG_LONG : Z := Z.shiftl 1 8.
(** [digits] of ulib.c *)
Definition PF_digits : list Z := bytes "0123456789abcdef".

Definition dprint_str (fd p : Z) : UM unit :=
  if p =? 0 then write_bytes fd (bytes "(null)")
  else l ← string_at p; write_bytes fd l.

(** [do { buf[--pos] = digits[x % base]; x /= base; } while (x > 0);]: the buffer
    and [pos].  [None]: a store before the buffer, or no such digit. *)
Fixpoint fill_digits (pos : nat) (buf : list Z) (x base : Z) : option (list Z * nat) :=
  match pos with
  | O => None
  | S pos =>
      match PF_digits !! Z.to_nat (x mod base) with
      | None => None
      | Some d =>
          let buf := <[pos := d]> buf in
          let x := x / base in
          if 0 <? x then fill_digits pos buf x base else Some (buf, pos)
      end
  end.

(** [char buf[32]], filled from its end. *)
Definition digit_buf (x base : Z) : UM (list Z * nat) :=
  match fill_digits 32 (replicate 32 0) x base with
  | Some r => mret r
  | None => stuck Undefined
  end.

Definition dprint_ptr (fd x : Z) : UM unit :=
  '(buf, pos) ← digit_buf x 16;
  write_bytes fd (bytes "0x");;
  write_bytes fd (drop pos buf).

Definition dprint_int (fd x base flag : Z) : UM unit :=
  let is_negative := negb (Z.land flag PF_SIGNED =? 0) && (s64 x <? 0) in
  let x := if is_negative then u64 (- s64 x) else x in
  '(buf, pos) ← digit_buf x base;
  when is_negative (write_bytes fd (bytes "-"));;
  write_bytes fd (drop pos buf).

(** [x = va_arg(args, type)], of the type that the letter [c] and [flag] give. *)
Definition int_arg (c flag x : Z) : Z :=
  if c =? 100 then
    if negb (Z.land flag PF_LONG_LONG =? 0) then u64 (s64 x)
    else if negb (Z.land flag PF_LONG =? 0) then u64 (s64 x)
    else u64 (s32 x)
  else
    if negb (Z.land flag PF_LONG_LONG =? 0) then u64 x
    else if negb (Z.land flag PF_LONG =? 0) then u64 x
    else u32 x.

(** The inner loop: the rest of the format after a valid conversion, and of
    the arguments. *)
Fixpoint vdprintf_conv (fd : Z) (fmt : list Z) (flag : Z) (args : list uarg)
    : UM (option (list Z) * list uarg) :=
  match fmt with
  | [] => mret (None, args)
  | c :: fmt =>
      if (c =? 100) || (c =? 117) || (c =? 120) then
        match args with
        | UInt x :: args =>
            let flag := if c =? 100 then Z.lor flag PF_SIGNED else flag in
            let x := int_arg c flag x in
            dprint_int fd x (if (c =? 100) || (c =? 117) then 10 else 16) flag;;
            mret (Some fmt, args)
        | _ => stuck Undefined
        end
      else if c =? 112 then
        match args with
        | (UInt x | UPtr x) :: args => dprint_ptr fd (u64 x);; mret (Some fmt, args)
        | _ => stuck Undefined
        end
      else if c =? 115 then
        match args with
        | UPtr p :: args => dprint_str fd p;; mret (Some fmt, args)
        | UStr l :: args => write_bytes fd l;; mret (Some fmt, args)
        | _ => stuck Undefined
        end
      else if c =? 99 then
        match args with
        | UInt x :: args => write_bytes fd [u8 x];; mret (Some fmt, args)
        | _ => stuck Undefined
        end
      else if c =? 37 then write_bytes fd (bytes "%");; mret (Some fmt, args)
      else if c =? 108 then
        vdprintf_conv fd fmt (Z.lor flag (if Z.land flag PF_LONG =? 0 then PF_LONG else PF_LONG_LONG)) args
      else mret (None, args)
  end.

Fixpoint vdprintf_from (fuel : nat) (fd : Z) (fmt : list Z) (args : list uarg) : UM unit :=
  match fuel, fmt with
  | O, _ => stuck OutOfFuel
  | _, [] => mret tt
  | S fuel, c :: fmt =>
      if negb (c =? 37) then write_bytes fd [c];; vdprintf_from fuel fd fmt args else
      '(r, args) ← vdprintf_conv fd fmt 0 args;
      match r with
      | None => write_bytes fd (bytes "%");; vdprintf_from fuel fd fmt args
      | Some rest => vdprintf_from fuel fd rest args
      end
  end.

(** The loop ends at the end of the format, whose index is returned. *)
Definition vdprintf (fd : Z) (fmt : string) (args : list uarg) : UM Z :=
  let l := bytes fmt in
  vdprintf_from (S (length l)) fd l args;;
  mret (s32 (Z.of_nat (length l))).

Definition printf (fmt : string) (args : list uarg) : UM Z := vdprintf 1 fmt args.
Definition dprintf (fd : Z) (fmt : string) (args : list uarg) : UM Z := vdprintf fd fmt args.

(** ** The heap *)

(** [struct block]: [size], [free] and [next]. *)
Definition BLOCK_HDR : Z := 24.
Definition blk_size (b : Z) : UM Z := gets (λ s, ld64 (u_mem s) b).
Definition blk_free (b : Z) : UM bool := gets (λ s, negb (mget (u_mem s) (b + 8) =? 0)).
Definition blk_next (b : Z) : UM Z := gets (λ s, ld64 (u_mem s) (b + 16)).
Definition set_blk_size (b v : Z) : UM unit := modify (λ s, set_u_mem (st64 (u_mem s) b v) s).
Definition set_blk_free (b : Z) (v : bool) : UM unit := stb (b + 8) (if v then 1 else 0).
Definition set_blk_next (b v : Z) : UM unit := modify (λ s, set_u_mem (st64 (u_mem s) (b + 16) v) s).

(** 0 is the null pointer. *)
Definition malloc (size : Z) : UM Z :=
  if size =? 0 then mret 0 else
  h ← gets u_head;
  r ← loop rounds
    (λ '(curr, prev),
       if curr =? 0 then mret (inr (inr prev)) else
       fr ← blk_free curr;
       sz ← blk_size curr;
       if fr && (size <=? sz) then set_blk_free curr false;; mret (inr (inl (curr + BLOCK_HDR)))
       else nx ← blk_next curr; mret (inl (nx, curr))) (h, 0);
  match r with
  | inl p => mret p
  | inr prev =>
      new_block ← sbrk (u64 (BLOCK_HDR + size));
      if new_block =? u64 (-1) then mret 0 else
      set_blk_size new_block size;;
      set_blk_free new_block false;;
      set_blk_next new_block 0;;
      (if prev =? 0 then modify (set_u_head new_block) else set_blk_next prev new_block);;
      mret (new_block + BLOCK_HDR)
  end.

Definition free (ptr : Z) : UM unit :=
  if ptr =? 0 then mret tt else
  set_blk_free (ptr - BLOCK_HDR) true;;
  h ← gets u_head;
  loop rounds
    (λ curr,
       if curr =? 0 then mret (inr tt) else
       nx ← blk_next curr;
       if nx =? 0 then mret (inr tt) else
       fr ← blk_free curr;
       nfr ← blk_free nx;
       when (fr && nfr)
         (sz ← blk_size curr;
          set_blk_size curr (u64 (sz + BLOCK_HDR));;
          nn ← blk_next nx;
          set_blk_next curr nn);;
       nx ← blk_next curr;
       mret (inl nx)) h.

(** ** Files *)

(** [name]: the bytes of the string. *)
Definition stat (name : list Z) : UM (option Inode.stat) :=
  fd ← call (os_open name O_RDONLY);
  if s32 fd <? 0 then mret None else
  r ← fstat fd;
  close fd;;
  mret r.

(** [path] and [cwd] of [getcwd] are local arrays of 64 and 128 bytes: the
    string in the first, and the bytes of the second from index [i] on. *)
Definition getcwd_open (path : list Z) : UM Z :=
  if (length path <? 64)%nat then call (os_open path O_RDONLY) else stuck Undefined.

(** The name of inode [ino] in the directory open at [fd]. *)
Definition getcwd_find (fd ino : Z) : UM (option (list Z)) :=
  loop rounds
    (λ '(),
       '(r, de) ← call (os_read fd DIRENT_SIZE);
       if negb (r =? DIRENT_SIZE) then mret (inr None) else
       if de_ino de =? 0 then mret (inl tt) else
       if de_ino de =? ino then
         match Mem.strlen 30 (rdl (de_name de)) with
         | Some n => mret (inr (Some (take (Z.to_nat n) (de_name de))))
         | None => stuck Undefined
         end
       else mret (inl tt)) tt.

(** The path from the root, or [None] for the null pointer. *)
Definition getcwd_path : UM (option (list Z)) :=
  loop rounds
    (λ '(path, cwd),
       let path := path ++ [46] in
       fd ← getcwd_open path;
       if fd =? 0 then mret (inr None) else
       st ← fstat fd;
       close fd;;
       match st with
       | None => mret (inr None)
       | Some st =>
           let ino := st_ino st in
           if ino =? ROOT_INO then mret (inr (Some (if decide (cwd = []) then [47] else cwd))) else
           let path := path ++ [46] in
           fd ← getcwd_open path;
           if s32 fd <? 0 then mret (inr None) else
           r ← getcwd_find fd ino;
           close fd;;
           match r with
           | None => mret (inr None)
           | Some name =>
               if (length cwd + length name <? 128)%nat
               then mret (inl (path ++ [47], 47 :: name ++ cwd)) else stuck Undefined
           end
       end) ([], []).

Definition getcwd (buf max_len : Z) : UM Z :=
  r ← getcwd_path;
  match r with
  | None => mret 0
  | Some cwd =>
      let len := Z.of_nat (length cwd) in
      '(buf, max_len) ← (if buf =? 0 then b ← malloc (len + 1); mret (b, len + 1) else mret (buf, max_len));
      if (buf =? 0) || (max_len <? len) then mret 0 else
      modify (λ s, set_u_mem (mwrite (u_mem s) buf cwd) s);;
      when (len <? max_len) (stb (buf + len) 0);;
      mret buf
  end.

(** [buf] is a local array of 64 bytes; [environ] is a variable. *)
Definition execvp (environ name argv : Z) : UM Z :=
  n ← str_at name;
  if (strncmp n (rdl (bytes "./")) 2 =? 0) || (strncmp n (rdl (bytes "/")) 1 =? 0) then
    fd ← open name O_RDONLY;
    if s32 fd <? 0 then mret (-1) else
    close fd;;
    l ← string_at name;
    execve l argv environ;;
    mret (-1)
  else
    l ← string_at name;
    let buf := 47 :: l in
    if (64 <=? length buf)%nat then stuck Undefined else
    fd ← call (os_open buf O_RDONLY);
    if s32 fd <? 0 then mret (-1) else
    close fd;;
    execve buf argv environ;;
    mret (-1).

(** [_start]: the status is what [main] returns. *)
Definition _start {A} (main : UM Z) : UM A := st ← main; exit st.
End ulib.
