(* ===== verification/UProgs.v ===== *)
(** The user programs: user/cat.c, cp.c, echo.c, grep.c, init.c, kill.c, ln.c,
    ls.c, mkdir.c and rm.c.

    [argv] is the list of the argument pointers; the static array [buf] of a
    program is at the address [buf]. *)

From S2P Require Import Prelude Mem State Machine Mm Proc Sync Console Virtio Buf Log Inode Pipe File Fork Exec Sysfile ULib.

Section programs.
Context {W : Type} `{Os W} `{Rounds}.
Local Abbreviation UM := (@ULib.UM W).

(** [argv[i]], inside the array. *)
Definition argp (argv : list Z) (i : nat) : UM Z :=
  match argv !! i with Some p => mret p | None => stuck Undefined end.

(** ** cat *)

Definition cat (buf fd : Z) : UM unit :=
  n ← loop rounds
    (λ '(),
       n ← read fd buf 1024;
       if 0 <? s64 n then
         w ← write 1 buf n;
         if negb (w =? n) then dprintf 2 "write error
" [];; exit 1 else mret (inl tt)
       else mret (inr n)) tt;
  when (s64 n <? 0) (dprintf 2 "read error
" [];; exit 1).

Definition cat_main (buf : Z) (argv : list Z) : UM Z :=
  if (length argv <? 2)%nat then cat buf 0;; exit 0 else
  kiter (drop 1 argv) (λ arg,
    fd ← open arg O_RDONLY;
    if s32 fd <? 0 then dprintf 2 "failed to open %s
" [UPtr arg];; exit 1 else
    cat buf fd;;
    close fd;;
    mret tt);;
  mret 0.

(** ** cp *)

Definition cp (buf src dst : Z) : UM Z :=
  sfd ← open src O_RDONLY;
  if s32 sfd <? 0 then dprintf 2 "cannot open %s
" [UPtr src];; mret (-1) else
  st ← fstat sfd;
  match st with
  | None => dprintf 2 "cannot stat %s
" [UPtr src];; close sfd;; mret (-1)
  | Some st =>
      (* as in the code, the argument of %s is missing *)
      if st_type st =? FT_DIR then dprintf 2 "%s is directory
" [];; close sfd;; mret (-1) else
      dfd ← open dst (Z.lor (Z.lor O_CREAT O_TRUNC) O_WRONLY);
      if s32 dfd <? 0 then close sfd;; dprintf 2 "cannot open %s
" [UPtr dst];; mret (-1) else
      failed ← loop rounds
        (λ '(),
           n ← read sfd buf 1024;
           if 0 <? s64 n then
             w ← write dfd buf n;
             if negb (w =? n) then mret (inr true) else mret (inl tt)
           else mret (inr false)) tt;
      close sfd;;
      close dfd;;
      if (failed : bool) then l ← string_at dst; call (os_unlink l);; mret (-1) else mret 0
  end.

Definition cp_main (buf : Z) (argv : list Z) : UM Z :=
  if (length argv <? 3)%nat then
    a ← argp argv 0; dprintf 2 "usage: %s [source] [dest]
" [UPtr a];; exit 1 else
  a1 ← argp argv 1;
  a2 ← argp argv 2;
  r ← cp buf a1 a2;
  if s32 r <? 0 then dprintf 2 "cp %s to %s failed
" [UPtr a1; UPtr a2];; exit 1 else mret 0.

(** ** echo *)

Definition echo_main (argv : list Z) : UM Z :=
  kiter (seq 1 (length argv - 1)) (λ i,
    a ← argp argv i;
    (if (i <? length argv - 1)%nat then printf "%s " [UPtr a] else printf "%s
" [UPtr a]);;
    mret tt);;
  mret 0.

(** ** grep *)

(** The lines of [buf] from [line]: the offset after the last of them. *)
Definition grep_lines (pattern buf : Z) : UM Z :=
  loop rounds
    (λ '(line, i),
       l ← str_at line;
       o ← lift (strchr rounds l 10);
       match o with
       | None => mret (inr i)
       | Some k =>
           let b := line + k in
           stb b 0;;
           let i := i + k + 1 in
           l ← str_at line;
           pat ← str_at pattern;
           f ← lift (strstr rounds l pat);
           (match f with
            | Some _ => stb b 10;; write 1 line (k + 1);; mret tt
            | None => mret tt
            end);;
           mret (inl (b + 1, i))
       end) (buf, 0).

Definition grep (buf pattern fd : Z) : UM unit :=
  loop rounds
    (λ i,
       n ← read fd (buf + i) (1023 - i);
       if 0 <? s64 n then
         let n := i + n in
         stb (buf + n) 0;;
         i ← grep_lines pattern buf;
         memmove buf (buf + i) (Z.to_nat (n - i));;
         mret (inl (n - i))
       else mret (inr tt)) 0.

Definition grep_main (buf : Z) (argv : list Z) : UM Z :=
  if (length argv <? 2)%nat then
    a ← argp argv 0; dprintf 2 "usage: %s [pattern] [file]
" [UPtr a];; exit 1 else
  pat ← argp argv 1;
  if (length argv =? 2)%nat then grep buf pat 0;; exit 0 else
  kiter (drop 2 argv) (λ arg,
    fd ← open arg O_RDONLY;
    if s32 fd <? 0 then dprintf 2 "grep: open %s failed
" [UPtr arg];; exit 1 else
    grep buf pat fd;;
    close fd;;
    mret tt);;
  mret 0.

(** ** kill, ln, mkdir, rm *)

Definition kill_main (argv : list Z) : UM Z :=
  if (length argv <? 2)%nat then a ← argp argv 0; dprintf 2 "usage: %s [pid]
" [UPtr a];; exit 1 else
  kiter (drop 1 argv) (λ arg,
    p ← str_at arg;
    n ← lift (atoi rounds p);
    call (os_kill n);;
    mret tt);;
  mret 0.

Definition ln_main (argv : list Z) : UM Z :=
  if negb (length argv =? 3)%nat then a ← argp argv 0; dprintf 2 "usage: %s [from] [to]
" [UPtr a];; exit 1 else
  a1 ← argp argv 1;
  a2 ← argp argv 2;
  l1 ← string_at a1;
  l2 ← string_at a2;
  r ← call (os_link l1 l2);
  if s32 r <? 0 then dprintf 2 "link %s %s failed
" [UPtr a1; UPtr a2];; exit 1 else mret 0.

(** [for (...) { if (f(argv[i]) < 0) { dprintf(...); break; } }] *)
Definition each_arg (f : list Z → W → Z * W) (msg : string) (argv : list Z) : UM unit :=
  kfirst (drop 1 argv) (λ arg,
    l ← string_at arg;
    r ← call (f l);
    if s32 r <? 0 then dprintf 2 msg [UPtr arg];; mret (Some tt) else mret None);;
  mret tt.

Definition mkdir_main (argv : list Z) : UM Z :=
  if (length argv <? 2)%nat then a ← argp argv 0; dprintf 2 "usage: %s [directory]
" [UPtr a];; exit 1 else
  each_arg os_mkdir "failed to create %s
" argv;;
  mret 0.

Definition rm_main (argv : list Z) : UM Z :=
  if (length argv <? 2)%nat then a ← argp argv 0; dprintf 2 "usage: %s [file]
" [UPtr a];; exit 1 else
  each_arg os_unlink "failed to delete %s
" argv;;
  mret 0.

(** ** ls *)

(** A node of the list: its address, the name and the file's data.  The fields
    are kept here and not at the address. *)
Record file_info := mk_file_info { fi_ptr : Z; fi_name : list Z; fi_st : Inode.stat }.
Definition FILE_INFO_SIZE : Z := 56.

Definition malloc1 (size : Z) : UM Z :=
  p ← malloc size;
  if p =? 0 then dprintf 2 "malloc failed
" [];; exit 1 else mret p.

Fixpoint numlen_from (fuel : nat) (num len : Z) : Z :=
  match fuel with
  | O => len
  | S fuel => let num := num / 10 in if 0 <? num then numlen_from fuel num (len + 1) else len + 1
  end.
(** A [uint32_t] has at most ten digits. *)
Definition numlen (num : Z) : Z := numlen_from 10 num 0.

Definition max (x y : Z) : Z := if y <? x then x else y.

Definition padding (len width : Z) : UM unit :=
  kiter (seqZ len (width - len)) (λ _, printf " " [];; mret tt).

(** What precedes the first '/' of [path], with a '/' when there is none: the
    bytes of [buf] before [p]. *)
Fixpoint dir_prefix (path : list Z) : list Z :=
  match path with
  | [] => [47]
  | c :: path => if c =? 47 then [] else c :: dir_prefix path
  end.

(** The entries of the directory open at [fd], in order, the two widths and
    the number of blocks.  [buf] has 512 bytes. *)
Definition ls_read (fd : Z) (path : list Z) : UM (list file_info * Z * Z * Z) :=
  if (511 <? Nat.max (length path) (length (dir_prefix path) + 30))%nat then stuck Undefined else
  loop rounds
    (λ '(infos, w0, w1, tot),
       '(r, de) ← call (os_read fd DIRENT_SIZE);
       if negb (r =? DIRENT_SIZE) then mret (inr (infos, w0, w1, tot)) else
       if de_ino de =? 0 then mret (inl (infos, w0, w1, tot)) else
       let name := until_nul (de_name de) in
       let buf := dir_prefix path ++ name in
       st ← stat buf;
       match st with
       | None =>
           printf "cannot stat %s
" [UStr buf];;
           mret (inl (infos, w0, w1, tot))
       | Some st =>
           p ← malloc1 FILE_INFO_SIZE;
           mret (inl (infos ++ [mk_file_info p name st], max w0 (numlen (st_nlink st)),
                      max w1 (numlen (st_size st)), tot + (st_size st / BLOCK_SIZE + 1)))
       end) ([], 0, 0, 0).

Definition ls_print (w0 w1 : Z) (info : file_info) : UM unit :=
  let st := fi_st info in
  padding (numlen (st_nlink st)) w0;;
  printf "%u " [UInt (st_nlink st)];;
  padding (numlen (st_size st)) w1;;
  printf "%u " [UInt (st_size st)];;
  printf "%s
" [UStr (fi_name info)];;
  mret tt.

Definition ls (path : list Z) : UM unit :=
  fd ← call (os_open path O_RDONLY);
  if s32 fd <? 0 then
    dprintf 2 "cannot open %s
" [UStr path];; mret tt
  else
  st ← fstat fd;
  match st with
  | None =>
      dprintf 2 "cannot stat %s
" [UStr path];;
      close fd;; mret tt
  | Some st =>
      (if (st_type st =? FT_DEVICE) || (st_type st =? FT_FILE) then
         printf "%u %u %s
" [UInt (st_nlink st); UInt (st_size st); UStr path];; mret tt
       else if st_type st =? FT_DIR then
         '(infos, w0, w1, tot) ← ls_read fd path;
         (* with no entry the pointer [infos] has no value *)
         if decide (infos = []) then stuck Undefined else
         printf "total %lu
" [UInt tot];;
         kiter infos (ls_print w0 w1);;
         kiter infos (λ info, free (fi_ptr info))
       else mret tt);;
      close fd;;
      mret tt
  end.

Definition ls_main (argv : list Z) : UM Z :=
  if (length argv <? 2)%nat then ls (bytes ".");; exit 0 else
  kiter (drop 1 argv) (λ arg, l ← string_at arg; ls l);;
  mret 0.

(** ** init *)

Definition CONSOLE : Z := 1.

(** [argv] and [environ] are the program's arrays. *)
Definition init_main (argv environ : Z) : UM Z :=
  fd ← call (os_open (bytes "console") O_RDWR);
  when (s32 fd <? 0)
    (call (os_mknod (bytes "console") CONSOLE 0);;
     call (os_open (bytes "console") O_RDWR);; mret tt);;
  call (os_dup 0);;
  call (os_dup 0);;
  loop rounds
    (λ '(),
       pid ← call os_fork;
       if pid =? 0 then
         execve (bytes "/sh") argv environ;;
         dprintf 2 "exec sh failed
" [];;
         exit 1
       else
         loop rounds (λ '(), w ← call os_wait; mret (if w =? pid then inr tt else inl tt)) tt;;
         mret (inl tt)) tt.
End programs.
