(* ===== verification/Shell.v ===== *)
(** The shell: user/sh.c.

    The input line and the argument arrays are in the program's memory.  A
    token list is the list of its nodes, which the parser updates; a node of
    the list or of a command keeps its address for [free]. *)

From S2P Require Import Prelude Mem State Machine Mm Proc Sync Console Virtio Buf Log Inode Pipe File Fork Exec Sysfile ULib.

Definition MAX_INPUT : Z := 128.
Definition MAX_ARGS : nat := 10.

Inductive toktype :=
| TOK_ILLEGAL | TOK_EOF | TOK_ARG | TOK_PIPE | TOK_REDIR_IN | TOK_REDIR_OUT | TOK_REDIR_OUT_A
| TOK_REDIR_ERR | TOK_REDIR_ERR_A.

#[export] Instance toktype_eq_dec : EqDecision toktype.
Proof. solve_decision. Defined.

Record token := mk_token { tk_ptr : Z; tk_type : toktype; tk_len : Z; tk_lexeme : Z }.
Definition set_tk_type (v : toktype) (t : token) := mk_token (tk_ptr t) v (tk_len t) (tk_lexeme t).

(** [argv] of an [exec_command] is the array at [ptr + 8]. *)
Inductive command :=
| CExec (ptr : Z)
| CPipe (ptr : Z) (left right : command)
| CRedir (ptr : Z) (cmd : command) (file omode fd : Z).

Definition TOKEN_SIZE : Z := 24.
Definition EXEC_SIZE : Z := 88.
Definition PIPE_SIZE : Z := 24.
Definition REDIR_SIZE : Z := 32.

(** [WHITESPACE], and the characters that end a word. *)
Definition WHITESPACE : list Z := [32; 9; 10; 13; 11].
Definition OPERATORS : list Z := [50; 124; 60; 62].

Section shell.
Context {W : Type} `{Os W} `{Rounds}.
Local Abbreviation UM := (@ULib.UM W).

(** ** Failures end the shell *)

Definition sh_panic {A} (str : string) : UM A :=
  dprintf 2 "%s
" [UStr (bytes str)];; exit 1.

Definition malloc1 (size : Z) : UM Z :=
  p ← malloc size;
  if p =? 0 then sh_panic "malloc failed" else mret p.

Definition fork1 : UM Z :=
  pid ← call os_fork;
  if s32 pid <? 0 then sh_panic "fork failed" else mret pid.

(** ** Nodes *)

Definition token_new (type : toktype) (lexeme len : Z) : UM token :=
  p ← malloc1 TOKEN_SIZE;
  mret (mk_token p type len lexeme).

Definition exec_command_new : UM Z :=
  p ← malloc1 EXEC_SIZE;
  memset (p + 8) 0 (8 * MAX_ARGS);;
  mret p.

Definition pipe_command_new (lf rg : command) : UM command :=
  p ← malloc1 PIPE_SIZE; mret (CPipe p lf rg).

Definition redir_command_new (cmd : command) (file omode fd : Z) : UM command :=
  p ← malloc1 REDIR_SIZE; mret (CRedir p cmd file omode fd).

(** ** Words and operators *)

(** [strchr(set, c)] of a literal. *)
Definition in_set (set : list Z) (c : Z) : bool := bool_decide (c ∈ set).

Definition skip_white (i : Z) : UM Z :=
  loop rounds
    (λ i, c ← ldb i;
          mret (if negb (c =? 0) && in_set WHITESPACE c then inl (i + 1) else inr i)) i.

(** [do { ++i; } while ( *i && !strchr(WHITESPACE, *i) && !strchr("2|<>", *i));] *)
Definition end_of_word (i : Z) : UM Z :=
  loop rounds
    (λ i, let i := i + 1 in
          c ← ldb i;
          mret (if negb (c =? 0) && negb (in_set WHITESPACE c) && negb (in_set OPERATORS c)
                then inl i else inr i)) i.

Definition get_word (i : Z) : UM (token * Z) :=
  tok ← token_new TOK_ARG i 1;
  j ← end_of_word i;
  mret (mk_token (tk_ptr tok) TOK_ARG (j - i) i, j).

(** The token and the rest of the input. *)
Definition get_token (input : Z) : UM (token * Z) :=
  i ← skip_white input;
  c ← ldb i;
  c1 ← ldb (i + 1);
  c2 ← ldb (i + 2);
  if c =? 0 then tok ← token_new TOK_EOF 0 0; mret (tok, i) else
  if c =? 124 then tok ← token_new TOK_PIPE i 1; mret (tok, i + 1) else
  if c =? 62 then
    if c1 =? 62 then tok ← token_new TOK_REDIR_OUT_A i 2; mret (tok, i + 2)
    else tok ← token_new TOK_REDIR_OUT i 1; mret (tok, i + 1) else
  if c =? 60 then tok ← token_new TOK_REDIR_IN i 1; mret (tok, i + 1) else
  if (c =? 50) && (c1 =? 62) then
    if c2 =? 62 then tok ← token_new TOK_REDIR_ERR_A i 3; mret (tok, i + 3)
    else tok ← token_new TOK_REDIR_ERR i 2; mret (tok, i + 2)
  else get_word i.

Definition parse_line (input : Z) : UM (list token) :=
  loop rounds
    (λ '(toks, input),
       '(tok, input) ← get_token input;
       let toks := toks ++ [tok] in
       mret (if decide (tk_type tok = TOK_EOF) then inr toks else inl (toks, input))) ([], input).

(** ** Commands *)

(** A pointer into the token list is an index; the list ends after its last
    token. *)
Definition tok_at (toks : list token) (k : nat) : UM token :=
  match toks !! k with Some t => mret t | None => stuck Undefined end.

(** [tok->lexeme[tok->len] = 0; ecmd->argv[argc++] = tok->lexeme;] from token
    [k] on. *)
Fixpoint parse_args (fuel : nat) (toks : list token) (k : nat) (p : Z) (argc : nat) : UM unit :=
  match fuel with
  | O => stuck OutOfFuel
  | S fuel =>
      tok ← tok_at toks k;
      if decide (tk_type tok = TOK_EOF) then mret tt else
      stb (tk_lexeme tok + tk_len tok) 0;;
      (if (argc <? MAX_ARGS)%nat
       then modify (λ s, set_u_mem (st64 (u_mem s) (p + 8 + 8 * Z.of_nat argc) (tk_lexeme tok)) s)
       else stuck Undefined);;
      parse_args fuel toks (S k) p (S argc)
  end.

Definition parse_exec (toks : list token) (k : nat) : UM command :=
  p ← exec_command_new;
  parse_args (S (length toks)) toks k p 0;;
  mret (CExec p).

Definition redir_mode (op : toktype) : option (Z * Z) :=
  match op with
  | TOK_REDIR_IN => Some (O_RDONLY, 0)
  | TOK_REDIR_OUT => Some (Z.lor (Z.lor O_WRONLY O_CREAT) O_TRUNC, 1)
  | TOK_REDIR_OUT_A => Some (Z.lor (Z.lor O_WRONLY O_CREAT) O_APPEND, 1)
  | TOK_REDIR_ERR => Some (Z.lor (Z.lor O_WRONLY O_CREAT) O_TRUNC, 2)
  | TOK_REDIR_ERR_A => Some (Z.lor (Z.lor O_WRONLY O_CREAT) O_APPEND, 2)
  | _ => None
  end.

(** [op] and [file] are the indices of the operator and of the next token. *)
Definition parse_redir (toks : list token) (k op : nat) : UM command :=
  match toks !! S op with
  | None => sh_panic "missing arguments for redirect"
  | Some file =>
      if negb (bool_decide (tk_type file = TOK_ARG)) then sh_panic "missing arguments for redirect" else
      o ← tok_at toks op;
      match redir_mode (tk_type o) with
      | None => sh_panic "unsupported redirect operation"
      | Some (omode, fd) =>
          let toks := alter (set_tk_type TOK_EOF) op toks in
          stb (tk_lexeme file + tk_len file) 0;;
          cmd ← parse_exec toks k;
          redir_command_new cmd (tk_lexeme file) omode fd
      end
  end.

(** The loop of [parse_cmd]: the first pipe or redirection from token [j]. *)
Fixpoint first_op (toks : list token) (j : nat) : option nat :=
  match toks with
  | [] => None
  | t :: toks =>
      match tk_type t with
      | TOK_ARG | TOK_EOF => first_op toks (S j)
      | _ => Some j
      end
  end.

(** From token [k]; [None] is the null pointer.  A pipe's operands are built
    from left to right. *)
Fixpoint parse_cmd (fuel : nat) (toks : list token) (k : nat) : UM (option command) :=
  match fuel with
  | O => stuck OutOfFuel
  | S fuel =>
      tok ← tok_at toks k;
      if decide (tk_type tok = TOK_EOF) then mret None else
      match first_op (drop k toks) k with
      | None => c ← parse_exec toks k; mret (Some c)
      | Some j =>
          op ← tok_at toks j;
          match tk_type op with
          | TOK_PIPE =>
              let toks := alter (set_tk_type TOK_EOF) j toks in
              lt ← tok_at toks k;
              if negb (bool_decide (tk_type lt = TOK_ARG)) then sh_panic "illegal command for pipe" else
              match toks !! S j with
              | None => sh_panic "missing arguments for pipe"
              | Some rt =>
                  if decide (tk_type rt = TOK_EOF) then sh_panic "missing arguments for pipe" else
                  l ← parse_exec toks k;
                  r ← parse_cmd fuel toks (S j);
                  match r with
                  | Some r => c ← pipe_command_new l r; mret (Some c)
                  | None => stuck Undefined
                  end
              end
          | TOK_REDIR_IN | TOK_REDIR_OUT | TOK_REDIR_OUT_A | TOK_REDIR_ERR | TOK_REDIR_ERR_A =>
              c ← parse_redir toks k j; mret (Some c)
          | _ => sh_panic "illegal token"
          end
      end
  end.

(** ** Running a command *)

Fixpoint run_cmd (environ : Z) (cmd : command) : UM unit :=
  match cmd with
  | CExec p =>
      a0 ← gets (λ s, ld64 (u_mem s) (p + 8));
      if a0 =? 0 then exit 1 else
      execvp environ a0 (p + 8);;
      dprintf 2 "exec %s failed
" [UPtr a0];;
      exit 1
  | CPipe _ lf rg =>
      r ← call os_pipe;
      match r with
      | None => sh_panic "pipe failed"
      | Some (fd0, fd1) =>
          cpid ← fork1;
          when (cpid =? 0) (close fd0;; call (os_dup2 fd1 1);; run_cmd environ lf);;
          cpid ← fork1;
          when (cpid =? 0) (close fd1;; call (os_dup2 fd0 0);; run_cmd environ rg);;
          close fd0;;
          close fd1;;
          call os_wait;;
          call os_wait;;
          exit 0
      end
  | CRedir _ cmd file omode rfd =>
      fd ← open file omode;
      if s32 fd <? 0 then dprintf 2 "cannot open %s
" [UPtr file];; exit 1 else
      call (os_dup2 fd rfd);;
      close fd;;
      run_cmd environ cmd
  end.

Fixpoint end_cmd (cmd : command) : UM unit :=
  match cmd with
  | CExec p => free p
  | CPipe p lf rg => end_cmd lf;; end_cmd rg;; free p
  | CRedir p cmd _ _ _ => end_cmd cmd;; free p
  end.

Definition free_tokens (toks : list token) : UM unit := kiter toks (λ t, free (tk_ptr t)).

(** ** Reading lines *)

Definition safe_gets (buf max_len : Z) : UM Z :=
  i ← loop (S (Z.to_nat max_len))
    (λ i,
       if i + 1 <? max_len then
         '(r, bs) ← call (os_read 0 1);
         if s64 r <? 1 then mret (inr i) else
         match bs with
         | c :: _ =>
             stb (buf + i) c;;
             if (u8 c =? 10) || (u8 c =? 13) then mret (inr (i + 1)) else mret (inl (i + 1))
         | [] => stuck Undefined
         end
       else mret (inr i)) 0;
  stb (buf + i) 0;;
  mret buf.

Definition get_cmd (buf max_len : Z) : UM Z :=
  safe_gets buf max_len;;
  c ← ldb buf;
  mret (if c =? 0 then -1 else 0).

(** One line that is not a command of the shell itself. *)
Definition run_line (environ buf : Z) : UM unit :=
  toks ← parse_line buf;
  cmd ← parse_cmd (S (length toks)) toks 0;
  pid ← fork1;
  when (pid =? 0) (match cmd with Some c => run_cmd environ c | None => stuck Undefined end);;
  (match cmd with Some c => end_cmd c | None => stuck Undefined end);;
  free_tokens toks;;
  call os_wait;;
  mret tt.

(** [cwd] and [buf] are the addresses of the static arrays. *)
Definition sh_main (environ cwd buf : Z) : UM Z :=
  d ← getcwd cwd 128;
  if d =? 0 then sh_panic "getcwd failed" else
  loop rounds
    (λ '(),
       printf "shell> %s$ " [UPtr cwd];;
       r ← get_cmd buf MAX_INPUT;
       if r <? 0 then mret (inr tt) else
       c ← ldb buf;
       if (c =? 10) || (c =? 13) then mret (inl tt) else
       l ← str_at buf;
       n ← lift (strcspn rounds l (rdl [10; 13]));
       stb (buf + n) 0;;
       l ← str_at buf;
       if strncmp l (rdl (bytes "cd ")) 3 =? 0 then
         path ← string_at (buf + 3);
         r ← call (os_chdir path);
         if s32 r <? 0 then dprintf 2 "cannot cd %s
" [UPtr (buf + 3)];; mret (inl tt) else
         d ← getcwd cwd 128;
         if d =? 0 then sh_panic "getcwd failed" else mret (inl tt)
       else if strncmp l (rdl (bytes "exit")) 4 =? 0 then
         printf "exit
" [];; exit 0
       else run_line environ buf;; mret (inl tt)) tt;;
  printf "
exit
" [];;
  mret 0.
End shell.
