(* ===== verification/Ring.v ===== *)
(** Ring buffers: the bytes of an array of [N] elements between two indices
    that are advanced modulo [N], as the pipes and the console keep them. *)

From S2P Require Import Prelude.

(** ** Definitions *)

(** The [n] elements from index [r] on. *)
Definition ring (N : Z) (data : list Z) (r : Z) (n : nat) : list Z :=
  (λ i : nat, default 0 (data !! Z.to_nat ((r + Z.of_nat i) mod N))) <$> seq 0 n.

(** The elements from index [r] up to index [w]. *)
Definition ring_between (N : Z) (data : list Z) (r w : Z) : list Z := ring N data r (Z.to_nat ((w - r) mod N)).

(** ** Lemmas *)

Section ring.
Context (N : Z) (HN : 1 < N).

Lemma mod_diff r w : 0 ≤ r < N → 0 ≤ w < N → (w - r) mod N = if w <? r then w - r + N else w - r.
Proof.
  intros Hr Hw. destruct (Z.ltb_spec w r).
  - symmetry. apply (Z.mod_unique_pos _ _ (-1)); lia.
  - apply Z.mod_small. lia.
Qed.

Lemma mod_next w : 0 ≤ w < N → (w + 1) mod N = if w + 1 =? N then 0 else w + 1.
Proof.
  intros Hw. destruct (Z.eqb_spec (w + 1) N) as [->|]; [apply Z.mod_same; lia|]. apply Z.mod_small. lia.
Qed.

Lemma mod_plus r i : 0 ≤ r < N → 0 ≤ i < N → (r + i) mod N = if r + i <? N then r + i else r + i - N.
Proof.
  intros Hr Hi. destruct (Z.ltb_spec (r + i) N); [apply Z.mod_small; lia|].
  symmetry. apply (Z.mod_unique_pos _ _ 1); lia.
Qed.

Lemma length_ring data r n : length (ring N data r n) = n.
Proof. unfold ring. by rewrite length_fmap, length_seq. Qed.

Lemma ring_lookup data r n i :
  (i < n)%nat → ring N data r n !! i = Some (default 0 (data !! Z.to_nat ((r + Z.of_nat i) mod N))).
Proof. intros Hi. unfold ring. by rewrite list_lookup_fmap, lookup_seq_lt. Qed.

Lemma ring_app data r n m : ring N data r (n + m) = ring N data r n ++ ring N data ((r + Z.of_nat n) mod N) m.
Proof.
  apply list_eq. intros i. destruct (decide (i < n + m)%nat) as [Hi|Hi].
  - rewrite ring_lookup by done. destruct (decide (i < n)%nat).
    + rewrite lookup_app_l by (rewrite length_ring; lia). by rewrite ring_lookup.
    + rewrite lookup_app_r, length_ring, ring_lookup by (rewrite ?length_ring; lia).
      rewrite Zplus_mod_idemp_l. by replace (r + Z.of_nat n + Z.of_nat (i - n)) with (r + Z.of_nat i) by lia.
  - rewrite !lookup_ge_None_2; [done|rewrite ?length_app, !length_ring; lia..].
Qed.

Lemma ring_one data r : 0 ≤ r < N → ring N data r 1 = [default 0 (data !! Z.to_nat r)].
Proof. intros Hr. unfold ring. simpl. by rewrite Z.add_0_r, Z.mod_small. Qed.

(** A store at an index that is not among them. *)
Lemma ring_insert data r n w c :
  0 ≤ w < N → (∀ i, 0 ≤ i < Z.of_nat n → (r + i) mod N ≠ w) →
  ring N (<[Z.to_nat w := c]> data) r n = ring N data r n.
Proof.
  intros Hw Hne. unfold ring. apply list_fmap_ext. intros i j [-> Hj]%lookup_seq. simpl.
  rewrite list_lookup_insert_ne; [done|]. intros E.
  pose proof (Z.mod_pos_bound (r + Z.of_nat i) N ltac:(lia)).
  apply (Hne (Z.of_nat i)); [lia|]. lia.
Qed.

(** *** Between two indices *)

Lemma length_ring_between data r w : Z.of_nat (length (ring_between N data r w)) = (w - r) mod N.
Proof. unfold ring_between. rewrite length_ring, Z2Nat.id; [done|]. apply Z.mod_pos_bound. lia. Qed.

Lemma ring_nil data r : ring_between N data r r = [].
Proof. unfold ring_between. by rewrite Z.sub_diag, Z.mod_0_l by lia. Qed.

Lemma ring_nil_inv data r w : 0 ≤ r < N → 0 ≤ w < N → ring_between N data r w = [] → r = w.
Proof.
  intros Hr Hw E. pose proof (length_ring_between data r w) as L. rewrite E in L. simpl in L.
  rewrite mod_diff in L by done. destruct (Z.ltb_spec w r); lia.
Qed.

(** From [r] to [w] and from there to [e]. *)
Lemma ring_split data r w e :
  0 ≤ r < N → 0 ≤ w < N → 0 ≤ e < N → (w - r) mod N ≤ (e - r) mod N →
  ring_between N data r e = ring_between N data r w ++ ring_between N data w e.
Proof.
  intros Hr Hw He Hle. unfold ring_between.
  pose proof (Z.mod_pos_bound (w - r) N ltac:(lia)). pose proof (Z.mod_pos_bound (e - w) N ltac:(lia)).
  assert ((e - r) mod N = (w - r) mod N + (e - w) mod N) as ->.
  { rewrite !mod_diff in * by done. repeat case_match; lia. }
  rewrite Z2Nat.inj_add, ring_app, Z2Nat.id by lia. do 2 f_equal. rewrite Zplus_mod_idemp_r.
  replace (r + (w - r)) with w by lia. by rewrite Z.mod_small.
Qed.

Lemma ring_pop data r w :
  0 ≤ r < N → 0 ≤ w < N → r ≠ w →
  ring_between N data r w = default 0 (data !! Z.to_nat r) :: ring_between N data ((r + 1) mod N) w.
Proof.
  intros Hr Hw Hne. rewrite (ring_split data r ((r + 1) mod N) w); [|done|by apply Z.mod_pos_bound; lia|done|].
  2: { rewrite mod_next by done. case_match eqn:E; rewrite !mod_diff by lia; repeat case_match; lia. }
  change (?x :: ?l) with ([x] ++ l). f_equal. rewrite <-ring_one by done. unfold ring_between. f_equal.
  rewrite Zminus_mod_idemp_l. replace (r + 1 - r) with 1 by lia. by rewrite Z.mod_small.
Qed.

Lemma ring_push data r w c :
  0 ≤ r < N → 0 ≤ w < N → length data = Z.to_nat N → (w + 1) mod N ≠ r →
  ring_between N (<[Z.to_nat w := c]> data) r ((w + 1) mod N) = ring_between N data r w ++ [c].
Proof.
  intros Hr Hw Hl Hne. pose proof (Z.mod_pos_bound (w + 1) N ltac:(lia)) as Hm.
  rewrite mod_next in * by done.
  rewrite (ring_split _ r w); [|done..|rewrite !mod_diff by done; repeat case_match; lia]. f_equal.
  - apply ring_insert; [done|]. intros i Hi. rewrite Z2Nat.id in Hi by (apply Z.mod_pos_bound; lia).
    rewrite mod_diff in Hi by done. rewrite mod_plus by (repeat case_match; lia). repeat case_match; lia.
  - unfold ring_between. rewrite <-mod_next, Zminus_mod_idemp_l by done.
    replace (w + 1 - w) with 1 by lia. rewrite Z.mod_small by lia.
    change (Z.to_nat 1) with 1%nat. rewrite ring_one, list_lookup_insert_eq by (done || lia). done.
Qed.
End ring.
