(* ===== verification/PrintkTheorems.v ===== *)
(** The numbers and formats of kernel/printk.c: what is printed reads back as
    the number, and the format loop ends. *)

From S2P Require Import Prelude Mem State Machine Mm Proc Sync Console.

(** Reading the digits back. *)
Definition digit_val (c : Z) : Z := if c <? 58 then c - 48 else c - 87.
Definition read_digits (base : Z) (l : list Z) : Z :=
  foldl (λ acc c, acc * base + digit_val c) 0 l.
Definition read_signed (l : list Z) : Z :=
  match l with
  | 45 :: l => - read_digits 10 l
  | l => read_digits 10 l
  end.

Lemma digit_val_digit d : 0 ≤ d < 16 → digit_val (digit d) = d ∧ digit d ≠ 45.
Proof.
  intros H. unfold digit, digit_val. destruct (Z.ltb_spec d 10).
  - destruct (Z.ltb_spec (48 + d) 58); lia.
  - destruct (Z.ltb_spec (87 + d) 58); lia.
Qed.

Lemma read_digits_app base l l' acc :
  foldl (λ acc c, acc * base + digit_val c) acc (l ++ l') =
  foldl (λ acc c, acc * base + digit_val c) (foldl (λ acc c, acc * base + digit_val c) acc l) l'.
Proof. apply foldl_app. Qed.

(** [print_digits] puts the digits of [x] before [acc]. *)
Lemma print_digits_spec base fuel : ∀ x acc,
  2 ≤ base ≤ 16 → 0 ≤ x < base ^ Z.of_nat fuel →
  ∃ l, print_digits fuel x base acc = l ++ acc ∧ read_digits base l = x ∧
    (length l ≤ fuel)%nat ∧ Forall (λ c, c ≠ 45) l ∧ (0 < fuel → l ≠ [])%nat.
Proof.
  induction fuel as [|fuel IH]; intros x acc Hb Hx.
  { exists []. change (Z.of_nat 0) with 0 in Hx. rewrite Z.pow_0_r in Hx.
    split_and!; [done|unfold read_digits; simpl; lia|done|done|lia]. }
  cbn [print_digits]. pose proof (Z.mod_pos_bound x base ltac:(lia)) as Hm.
  destruct (digit_val_digit (x mod base)) as [Hd Hne]; [lia|].
  destruct (Z.ltb_spec 0 (x / base)) as [Hpos|Hz].
  - destruct (IH (x / base) (digit (x mod base) :: acc)) as (l & -> & Hl & Hlen & Hf & _); [done| |].
    { split; [lia|]. apply Z.div_lt_upper_bound; [lia|]. rewrite Nat2Z.inj_succ, Z.pow_succ_r in Hx by lia. lia. }
    exists (l ++ [digit (x mod base)]). split_and!.
    + by rewrite <-app_assoc.
    + unfold read_digits in *. rewrite read_digits_app, Hl. simpl. rewrite Hd.
      rewrite (Z.div_mod x base) at 3 by lia. lia.
    + rewrite length_app. simpl. lia.
    + apply Forall_app. split; [done|]. by repeat constructor.
    + intros _ [? ?]%app_nil. done.
  - exists [digit (x mod base)]. assert (x / base = 0) as E.
    { apply Z.le_antisymm; [done|]. apply Z.div_pos; lia. }
    split_and!; [done| |simpl; lia|by repeat constructor|done].
    unfold read_digits. simpl. rewrite Hd. rewrite (Z.div_mod x base) at 2 by lia. rewrite E. lia.
Qed.

(** 32 bytes are enough for the digits of any 64-bit number. *)
Lemma print_digits_64 base x :
  base = 10 ∨ base = 16 → 0 ≤ x < 2 ^ 64 →
  read_digits base (print_digits 32 x base []) = x ∧
  (length (print_digits 32 x base []) ≤ 32)%nat ∧
  Forall (λ c, c ≠ 45) (print_digits 32 x base []) ∧ print_digits 32 x base [] ≠ [].
Proof.
  intros Hb Hx. destruct (print_digits_spec base 32 x []) as (l & -> & Hl & Hlen & Hf & Hn).
  - lia.
  - split; [lia|]. destruct Hb as [->| ->]; (eapply Z.lt_le_trans; [apply Hx|by vm_compute]).
  - rewrite app_nil_r. split_and!; [done|done|done|apply Hn; lia].
Qed.

(** A conversion consumes part of the format. *)
Lemma conversion_shorter fmt : ∀ longs args txt fmt' args',
  conversion fmt longs args = Some (Some (txt, fmt'), args') → (length fmt' < length fmt)%nat.
Proof.
  induction fmt as [|c fmt IH]; intros longs args txt fmt' args'; cbn [conversion]; [done|].
  repeat case_match; intros; simplify_eq; simpl; try lia.
  specialize (IH (S longs) args txt fmt' args' ltac:(done)). lia.
Qed.

Lemma printk_text_fuel fuel : ∀ fuel' fmt args,
  (length fmt < fuel)%nat → (length fmt < fuel')%nat →
  printk_text fuel fmt args = printk_text fuel' fmt args.
Proof.
  induction fuel as [|fuel IH]; intros fuel' fmt args Hf Hf'; [lia|].
  destruct fuel' as [|fuel']; [lia|]. destruct fmt as [|c fmt]; [done|]. cbn [printk_text]. simpl in Hf, Hf'.
  destruct (negb (c =? 37)); [by rewrite (IH fuel') by lia|].
  destruct (conversion fmt 0 args) as [[[[txt fmt']|] args']|] eqn:E; [| |done].
  - pose proof (conversion_shorter _ _ _ _ _ _ E). by rewrite (IH fuel') by lia.
  - by rewrite (IH fuel') by lia.
Qed.

(** A signed number printed with %d or %ld, the most negative one
    included, reads back as itself; it takes at most 33 characters, the 32
    bytes of the buffer and the sign. *)
Theorem print_int_signed v :
  - 2 ^ 63 ≤ v < 2 ^ 63 →
  read_signed (print_int (u64 v) 10 true) = v ∧ (length (print_int (u64 v) 10 true) ≤ 33)%nat.
Proof.
  intros Hv. unfold print_int. rewrite swrap_wrap by done. cbn [andb].
  destruct (Z.ltb_spec v 0) as [Hneg|Hpos].
  - rewrite (wrap_small 64 (- v)) by lia.
    destruct (print_digits_64 10 (- v)) as (Hr & Hl & _ & _); [by left|lia|].
    split; [|exact (le_n_S _ _ Hl)]. unfold read_signed. rewrite Hr. lia.
  - rewrite (wrap_small 64 v) by lia.
    destruct (print_digits_64 10 v) as (Hr & Hl & Hf & Hn); [by left|lia|]. split; [|lia].
    destruct (print_digits 32 v 10 []) as [|c l] eqn:E; [done|].
    apply Forall_cons in Hf as [Hc _]. unfold read_signed. by repeat case_match.
Qed.

Lemma print_int_signed_witness :
  read_signed (print_int (u64 (- 2 ^ 63)) 10 true) = - 2 ^ 63 ∧
  (length (print_int (u64 (- 2 ^ 63)) 10 true) ≤ 33)%nat.
Proof. apply print_int_signed. lia. Defined.

(** The loop of [printk] over the format ends: the text does not depend
    on the fuel once it exceeds the length of the format. *)
Theorem printk_ends fuel fmt args :
  (length fmt < fuel)%nat →
  printk_text fuel fmt args = printk_text (S (length fmt)) fmt args.
Proof. intros H. apply printk_text_fuel; lia. Qed.

Lemma printk_ends_witness :
  printk_text 100 [37; 108; 100; 37] [VWord 7] = printk_text 5 [37; 108; 100; 37] [VWord 7].
Proof. apply (printk_ends 100 [37; 108; 100; 37] [VWord 7]). simpl. lia. Defined.
