(* ===== verification/ULibTheorems.v ===== *)
(** The user library (user/ulib.c): formatted output against the kernel's
    [printk], and the search for a substring. *)

From S2P Require Import Prelude Mem Strings State Machine Mm Proc Sync Console Virtio Buf Log Inode Pipe File Fork Exec Sysfile PrintkTheorems ULib.

(** ** Definitions *)

Definition is_byte (c : Z) : Prop := 0 ≤ c < 256.

(** What [write] calls of the chunks [ws] on [fd] leave of the kernel's side;
    nothing else changes. *)
Definition outputs {W} `{Os W} (fd : Z) (ws : list (list Z)) (s s' : ustate W) : Prop :=
  s' = set_u_os (foldl (λ w b, (os_write fd b w).2) (u_os s) ws) s.

(** The same argument for [printf] and for [printk]: the memory gives the
    string that a pointer names. *)
Inductive uarg_val `{Rounds} (m : memory) : uarg → va_arg → Prop :=
| uv_int x : uarg_val m (UInt x) (VWord x)
| uv_null : uarg_val m (UPtr 0) (VStr None)
| uv_str p l : p ≠ 0 → cstr (rd m p) l → (length l < rounds)%nat → uarg_val m (UPtr p) (VStr (Some l))
| uv_array l : Forall is_byte l → uarg_val m (UStr l) (VStr (Some l)).

(** [needle] is in [haystack] at offset [p]. *)
Definition occurs_at (haystack needle : list Z) (p : nat) : Prop :=
  (p + length needle ≤ length haystack)%nat ∧ take (length needle) (drop p haystack) = needle.

(** ** Formatted output *)

Section output.
Context {W : Type} `{Os W} `{Rounds}.
Implicit Types s : ustate W.

Lemma outputs_nil fd s : outputs fd [] s s.
Proof. by destruct s. Qed.

Lemma outputs_trans fd ws1 ws2 s1 s2 s3 : outputs fd ws1 s1 s2 → outputs fd ws2 s2 s3 → outputs fd (ws1 ++ ws2) s1 s3.
Proof. unfold outputs. intros -> ->. by rewrite foldl_app. Qed.

(** A run that writes [text] on [fd], in some chunks. *)
Definition prints (fd : Z) (text : list Z) (s s' : ustate W) : Prop :=
  ∃ ws, outputs fd ws s s' ∧ concat ws = (λ c, u8 c) <$> text.

Lemma prints_nil fd s : prints fd [] s s.
Proof. exists []. split; [apply outputs_nil|done]. Qed.

Lemma prints_trans fd t1 t2 s1 s2 s3 : prints fd t1 s1 s2 → prints fd t2 s2 s3 → prints fd (t1 ++ t2) s1 s3.
Proof.
  intros (ws1 & O1 & E1) (ws2 & O2 & E2). exists (ws1 ++ ws2). split; [by eapply outputs_trans|].
  by rewrite concat_app, fmap_app, E1, E2.
Qed.

Lemma prints_mem fd t s s' : prints fd t s s' → u_mem s' = u_mem s.
Proof. by intros (ws & -> & _). Qed.

Lemma u8_bytes l : Forall is_byte l → (λ c, u8 c) <$> l = l.
Proof.
  intros Hl. rewrite <-(list_fmap_id l) at 2. apply Forall_fmap_ext_1. eapply Forall_impl; [done|].
  intros c Hc. by apply wrap_small.
Qed.

Lemma write_bytes_spec fd l s : runs (write_bytes fd ((λ c, u8 c) <$> l)) s (λ _ s', prints fd l s s').
Proof.
  unfold write_bytes, call. kstep. kstep. eapply runs_ok; [done|]. destruct (os_write fd _ (u_os s)) as [r w] eqn:E.
  kstep. kstep. kstep. kstep. exists [(λ c, u8 c) <$> l]. split; [|by rewrite concat_cons, app_nil_r].
  unfold outputs. simpl. by rewrite E.
Qed.

Lemma write_bytes_byte fd l s : Forall is_byte l → runs (write_bytes fd l) s (λ _ s', prints fd l s s').
Proof. intros Hl. rewrite <-(u8_bytes l Hl) at 1. apply write_bytes_spec. Qed.

Lemma digits_bytes fuel base : 2 ≤ base ≤ 16 → ∀ x acc, Forall is_byte acc → Forall is_byte (print_digits fuel x base acc).
Proof.
  intros Hb. induction fuel as [|fuel IH]; intros x acc Ha; cbn [print_digits]; [done|].
  assert (Forall is_byte (digit (x mod base) :: acc)) as Hd.
  { constructor; [|done]. pose proof (Z.mod_pos_bound x base ltac:(lia)). unfold digit, is_byte. case_match; lia. }
  case_match; [by apply IH|done].
Qed.

Lemma print_digits_app fuel base : ∀ x acc, print_digits fuel x base acc = print_digits fuel x base [] ++ acc.
Proof.
  induction fuel as [|fuel IH]; intros x acc; cbn [print_digits]; [done|].
  case_match; [|done]. rewrite IH, (IH _ [_]), <-app_assoc. done.
Qed.

Lemma PF_digits_digit d : 0 ≤ d < 16 → PF_digits !! Z.to_nat d = Some (digit d).
Proof.
  intros Hd. assert (Z.to_nat d ∈ seq 0 16) as Hin by (apply elem_of_seq; lia). rewrite <-(Z2Nat.id d) at 2 by lia.
  revert Hin. generalize (Z.to_nat d). apply Forall_forall. by repeat constructor.
Qed.

(** The buffer of the user's library has the digits of the kernel. *)
Lemma fill_digits_spec base n : 2 ≤ base ≤ 16 → ∀ buf x,
  0 ≤ x < base ^ Z.of_nat n → (0 < n ≤ length buf)%nat →
  ∃ buf' pos, fill_digits n buf x base = Some (buf', pos) ∧ length buf' = length buf ∧
    drop pos buf' = print_digits n x base [] ++ drop n buf.
Proof.
  intros Hb. induction n as [|n IH]; intros buf x Hx Hn; [lia|]. cbn [fill_digits print_digits].
  pose proof (Z.mod_pos_bound x base ltac:(lia)) as Hm. rewrite PF_digits_digit by lia.
  set (d := digit (x mod base)). assert (drop n (<[n := d]> buf) = d :: drop (S n) buf) as Hd.
  { rewrite (drop_S _ d) by (apply list_lookup_insert_eq; lia). by rewrite drop_insert_lt by lia. }
  destruct (Z.ltb_spec 0 (x / base)) as [Hlt|Hge].
  - destruct (IH (<[n := d]> buf) (x / base)) as (buf' & pos & E & Hl & Hp).
    + rewrite Nat2Z.inj_succ, Z.pow_succ_r in Hx by lia. split; [lia|]. apply Z.div_lt_upper_bound; lia.
    + rewrite length_insert. split; [|lia]. destruct n; [|lia]. rewrite Z.pow_1_r in Hx. rewrite Z.div_small in Hlt by lia. lia.
    + exists buf', pos. split_and!; [done|by rewrite Hl, length_insert|]. rewrite Hp, Hd, (print_digits_app _ _ _ [d]), <-app_assoc. done.
  - exists (<[n := d]> buf), n. split_and!; [done|by rewrite length_insert|by rewrite Hd].
Qed.

Lemma digit_buf_spec x base s :
  10 ≤ base ≤ 16 → 0 ≤ x < 2 ^ 64 → runs (digit_buf x base) s (λ '(buf, pos) s', drop pos buf = print_digits 32 x base [] ∧ s' = s).
Proof.
  intros Hb Hx. unfold digit_buf. destruct (fill_digits_spec base 32 ltac:(lia) (replicate 32 0) x) as (buf & pos & E & _ & Hp).
  - split; [lia|]. eapply Z.lt_le_trans; [apply Hx|]. etrans; [|apply (Z.pow_le_mono_l 10); lia]. by apply Z.leb_le.
  - rewrite length_replicate. lia.
  - rewrite E. kstep. rewrite Hp, app_nil_r. done.
Qed.

Lemma dprint_int_spec fd x base flag s :
  10 ≤ base ≤ 16 → 0 ≤ x < 2 ^ 64 →
  runs (dprint_int fd x base flag) s (λ _ s', prints fd (print_int x base (negb (Z.land flag PF_SIGNED =? 0))) s s').
Proof.
  intros Hb Hx. unfold dprint_int, print_int. destruct (negb _ && (s64 x <? 0)); kstep.
  - kcall (digit_buf_spec (u64 (- s64 x)) base s Hb); [by apply Z.mod_pos_bound|]. intros [buf pos] ? [-> ->].
    kstep. cbn [when]. kcall (write_bytes_byte fd (bytes "-")); [by repeat constructor|]. intros [] s1 P1.
    kcall (write_bytes_byte fd (print_digits 32 (u64 (- s64 x)) base [])); [apply digits_bytes; [lia|done]|].
    intros [] s2 P2. exact (prints_trans _ _ _ _ _ _ P1 P2).
  - kcall (digit_buf_spec x base s Hb Hx). intros [buf pos] ? [-> ->]. kstep. cbn [when]. kstep.
    apply write_bytes_byte, digits_bytes; [lia|done].
Qed.

Lemma dprint_ptr_spec fd x s : 0 ≤ x < 2 ^ 64 → runs (dprint_ptr fd x) s (λ _ s', prints fd (print_ptr x) s s').
Proof.
  intros Hx. unfold dprint_ptr. kstep. kcall (digit_buf_spec x 16 s); [lia|done|]. intros [buf pos] ? [-> ->].
  kstep. kcall (write_bytes_byte fd (bytes "0x")); [by repeat constructor|]. intros [] s1 P1.
  kcall (write_bytes_byte fd (print_digits 32 x 16 [])); [by apply digits_bytes|].
  intros [] s2 P2. exact (prints_trans _ _ _ _ _ _ P1 P2).
Qed.

(** The flags after [longs] letters 'l'. *)
Definition long_flag (longs : nat) : Z := match longs with O => 0 | S O => 32 | _ => 288 end.

Lemma long_flag_S longs :
  Z.lor (long_flag longs) (if Z.land (long_flag longs) PF_LONG =? 0 then PF_LONG else PF_LONG_LONG) = long_flag (S longs).
Proof. by destruct longs as [|[|longs]]. Qed.

Lemma int_arg_word c longs x :
  let flag := if c =? 100 then Z.lor (long_flag longs) PF_SIGNED else long_flag longs in
  int_arg c flag x = word_arg (c =? 100) longs x ∧ negb (Z.land flag PF_SIGNED =? 0) = (c =? 100).
Proof.
  unfold int_arg, word_arg. destruct (c =? 100), longs as [|[|longs]]; cbn; split; try done; unfold wrap, swrap;
    rewrite Zminus_mod_idemp_l; f_equal; lia.
Qed.

Lemma word_arg_bounds signed longs x : 0 ≤ word_arg signed longs x < 2 ^ 64.
Proof.
  unfold word_arg, wrap. repeat case_match; pose proof (Z.mod_pos_bound x (2 ^ 32)); try (by apply Z.mod_pos_bound); lia.
Qed.

Lemma mbytes_cstr m p l : cstr (rd m p) l → mbytes m p (length l) = l.
Proof.
  revert p. induction l as [|c l IH]; intros p [Hl Hz]; [done|]. cbn [length mbytes]. f_equal.
  - destruct (Hl O c eq_refl) as [E _]. unfold rd in E. by rewrite Z.add_0_r in E.
  - apply IH. split.
    + intros i d Hd. destruct (Hl (S i) d Hd) as [E ?]. split; [|done]. rewrite <-E. unfold rd. f_equal. lia.
    + rewrite <-Hz. unfold rd. f_equal. simpl. lia.
Qed.

Lemma string_at_spec p l s :
  cstr (rd (u_mem s) p) l → (length l < rounds)%nat → runs (string_at p) s (λ l' s', l' = l ∧ s' = s).
Proof.
  intros Hl Hr. unfold string_at. kstep. kstep.
  assert (ULib.strlen rounds (rd (u_mem s) p) = Some (Z.of_nat (length l))) as E.
  { unfold ULib.strlen, Mem.strlen. destruct Hl as [H1 H2]. by rewrite (strlen_from_spec l). }
  rewrite E. kstep. cbn [lift]. kstep. kstep. rewrite Nat2Z.id. split; [by apply mbytes_cstr|done].
Qed.

Lemma cstr_bytes m p l : bytes_ok m → cstr (rd m p) l → Forall is_byte l.
Proof.
  intros Hm [Hl _]. apply Forall_lookup_2. intros i c Hc. destruct (Hl i c Hc) as [<- _]. apply Hm.
Qed.

Lemma dprint_str_spec fd p str s :
  bytes_ok (u_mem s) → uarg_val (u_mem s) (UPtr p) (VStr str) →
  runs (dprint_str fd p) s (λ _ s', prints fd (print_str str) s s').
Proof.
  intros Hm Ha. unfold dprint_str. inversion Ha as [| |? l Hp Hl Hr|]; subst.
  - apply write_bytes_byte. by repeat constructor.
  - rewrite (proj2 (Z.eqb_neq p 0)) by done. kstep. kcall (string_at_spec p l s Hl Hr). intros ? ? [-> ->].
    apply write_bytes_byte. by eapply cstr_bytes.
Qed.

Lemma u8_s32 x : u8 (s32 x) = u8 x.
Proof.
  unfold wrap, swrap. replace (2 ^ 32) with (2 ^ 8 * 2 ^ 24) by done. change (32 - 1) with 31.
  pose proof (Z.div_mod (x + 2 ^ 31) (2 ^ 8 * 2 ^ 24) ltac:(done)) as E.
  set (k := (x + 2 ^ 31) / (2 ^ 8 * 2 ^ 24)) in *. set (r := (x + 2 ^ 31) mod (2 ^ 8 * 2 ^ 24)) in *.
  replace x with (r - 2 ^ 31 + k * 2 ^ 24 * 2 ^ 8) by lia. by rewrite Z.mod_add by done.
Qed.

(** One conversion and the rest of the format. *)
Lemma conv_one fd txt (rest : list Z) (m : UM unit) (args' : list uarg) vargs' s :
  runs m s (λ _ s', prints fd txt s s') → Forall2 (uarg_val (u_mem s)) args' vargs' →
  runs (m;; mret (Some rest, args')) s (λ '(r', args') s',
    r' = Some rest ∧ prints fd txt s s' ∧ Forall2 (uarg_val (u_mem s)) args' vargs').
Proof. intros Hr Hw. kstep. eapply runs_conseq; [exact Hr|]. intros [] s' P. by kstep. Qed.

(** A conversion of the user's library prints what the kernel's would. *)
Lemma vdprintf_conv_spec fd fmt : ∀ longs args vargs r vargs' s,
  bytes_ok (u_mem s) → Forall2 (uarg_val (u_mem s)) args vargs → conversion fmt longs vargs = Some (r, vargs') →
  runs (vdprintf_conv fd fmt (long_flag longs) args) s (λ '(r', args') s',
    match r with
    | None => r' = None ∧ s' = s ∧ Forall2 (uarg_val (u_mem s)) args' vargs'
    | Some (txt, rest) => r' = Some rest ∧ prints fd txt s s' ∧ Forall2 (uarg_val (u_mem s)) args' vargs'
    end).
Proof.
  induction fmt as [|c fmt IH]; intros longs args vargs r vargs' s Hm Ha; cbn [conversion vdprintf_conv].
  { intros [= <- <-]. by kstep. }
  destruct ((c =? 100) || (c =? 117) || (c =? 120)) eqn:Ec.
  { destruct Ha as [|a v args vargs [] Ha]; intros ?; simplify_eq. apply conv_one; [|done].
    destruct (int_arg_word c longs x) as [E1 E2]. rewrite E1. kcall (dprint_int_spec fd (word_arg (c =? 100) longs x));
      [destruct ((c =? 100) || (c =? 117)); lia|apply word_arg_bounds|]. intros [] s'. rewrite E2. 
    by replace (if c =? 120 then 16 else 10) with (if (c =? 100) || (c =? 117) then 10 else 16)
      by (destruct (Z.eqb_spec c 100), (Z.eqb_spec c 117), (Z.eqb_spec c 120); try done; lia). }
  destruct (c =? 112).
  { destruct Ha as [|a v args vargs [] Ha]; intros ?; simplify_eq. apply conv_one; [|done]. apply dprint_ptr_spec. by apply Z.mod_pos_bound. }
  destruct (c =? 115).
  { destruct Ha as [|a v args vargs Hav Ha]; [done|]. destruct v as [|str]; [done|]. intros [= <- <-].
    destruct a as [|p|l]; [by inversion Hav|by apply conv_one; [apply dprint_str_spec|]|].
    inversion Hav; subst. apply conv_one; [by apply write_bytes_byte|done]. }
  destruct (c =? 99).
  { destruct Ha as [|a v args vargs [] Ha]; intros ?; simplify_eq. apply conv_one; [|done].
    rewrite <-u8_s32. exact (write_bytes_spec fd [s32 x] s). }
  destruct (c =? 37).
  { intros [= <- <-]. apply conv_one; [|done]. apply write_bytes_byte. by repeat constructor. }
  destruct (c =? 108); [rewrite long_flag_S; by apply IH|]. intros [= <- <-]. by kstep.
Qed.

Lemma conversion_rest (P : Z → Prop) fmt : ∀ longs args txt rest args',
  conversion fmt longs args = Some (Some (txt, rest), args') → Forall P fmt → Forall P rest.
Proof.
  induction fmt as [|c fmt IH]; intros longs args txt rest args'; cbn [conversion]; [done|].
  intros E [_ Hf]%Forall_cons. repeat case_match; simplify_eq; try done. by eapply IH.
Qed.

Lemma vdprintf_from_spec fd fuel : ∀ fmt args vargs text s,
  (length fmt < fuel)%nat → Forall is_byte fmt → bytes_ok (u_mem s) → Forall2 (uarg_val (u_mem s)) args vargs →
  printk_text fuel fmt vargs = Some text →
  runs (vdprintf_from fuel fd fmt args) s (λ _ s', prints fd text s s').
Proof.
  induction fuel as [|fuel IH]; intros fmt args vargs text s Hf Hb Hm Ha; [lia|].
  destruct fmt as [|c fmt]; cbn [printk_text vdprintf_from].
  { intros [= <-]. kstep. apply prints_nil. }
  apply Forall_cons in Hb as [Hc Hb]. cbn [length] in Hf. destruct (negb (c =? 37)).
  { intros (t & Ht & ->)%fmap_Some_1. kstep. kcall (write_bytes_byte fd [c]); [by apply Forall_singleton|].
    intros [] s1 P1. rewrite <-(prints_mem _ _ _ _ P1) in *. kcall (IH fmt args vargs t s1); [lia|done..|].
    intros [] s2 P2. exact (prints_trans _ _ _ _ _ _ P1 P2). }
  destruct (conversion fmt 0 vargs) as [[r vargs']|] eqn:E; [|done]. intros Hk.
  kstep. kcall (vdprintf_conv_spec fd fmt 0 args vargs r vargs' s Hm Ha E). intros [r' args'] s1.
  destruct r as [[txt rest]|]; intros (-> & P1 & Ha').
  - apply fmap_Some_1 in Hk as (t & Ht & ->). pose proof (conversion_shorter _ _ _ _ _ _ E) as Hs.
    rewrite <-(prints_mem _ _ _ _ P1) in *. kcall (IH rest args' vargs' t s1); [lia| |done..|].
    { by eapply conversion_rest. }
    intros [] s2 P2. exact (prints_trans _ _ _ _ _ _ P1 P2).
  - subst s1. apply fmap_Some_1 in Hk as (t & Ht & ->). kstep.
    kcall (write_bytes_byte fd (bytes "%")); [by repeat constructor|].
    intros [] s1 P1. rewrite <-(prints_mem _ _ _ _ P1) in *. kcall (IH fmt args' vargs' t s1); [lia|done..|].
    intros [] s2 P2. exact (prints_trans _ _ _ _ _ _ P1 P2).
Qed.
End output.

Lemma bytes_of_string_bytes str : Forall is_byte (bytes str).
Proof.
  unfold bytes, bytes_of_string. apply Forall_fmap, Forall_forall. intros c _. unfold is_byte, compose.
  pose proof (Ascii.N_ascii_bounded c). lia.
Qed.

(** ** Search for a string *)

Section strstr.
Context (h n : Z → Z) (lh ln : list Z) (Hh : cstr h lh) (Hn : cstr n ln).

Lemma cstr_lookup (f : Z → Z) l i : cstr f l → (i ≤ length l)%nat → f (Z.of_nat i) = default 0 (l !! i).
Proof.
  intros [H1 H2] Hi. destruct (l !! i) as [c|] eqn:E; [by destruct (H1 i c E)|].
  apply lookup_ge_None in E. by replace i with (length l) by lia.
Qed.

(** The inner loop at offset [p]: [k] characters agree so far. *)
Lemma prefix_at_spec p fuel : ∀ k : nat,
  (p ≤ length lh)%nat → (k ≤ length ln)%nat → take k (drop p lh) = take k ln → (p + k ≤ length lh)%nat →
  (length ln - k < fuel)%nat →
  ∃ b, prefix_at fuel (λ i, h (Z.of_nat p + i)) n (Z.of_nat k) = Some b ∧ (b = true ↔ occurs_at lh ln p).
Proof.
  induction fuel as [|fuel IH]; intros k Hp Hk Ht Hpk Hf; [lia|]. cbn [prefix_at].
  replace (Z.of_nat p + Z.of_nat k) with (Z.of_nat (p + k)) by lia.
  rewrite (cstr_lookup h lh) by done. rewrite (cstr_lookup n ln) by done.
  destruct (ln !! k) as [c|] eqn:Ec; cbn [from_option id].
  - assert (c ≠ 0) as Hc0 by by destruct (proj1 Hn k c Ec). rewrite (proj2 (Z.eqb_neq c 0)) by done.
    rewrite andb_true_r. destruct (lh !! (p + k)%nat) as [d|] eqn:Ed; cbn [from_option id].
    + assert (d ≠ 0) as Hd0 by by destruct (proj1 Hh _ d Ed). rewrite (proj2 (Z.eqb_neq d 0)) by done. cbn [negb andb].
      destruct (Z.eqb_spec d c) as [->|Hne].
      * replace (Z.of_nat k + 1) with (Z.of_nat (S k)) by lia. apply lookup_lt_Some in Ec as Hlt. apply lookup_lt_Some in Ed as Hlt'.
        apply IH; [done|lia| |lia|lia]. rewrite (take_S_r ln k c Ec), (take_S_r _ k c), Ht; [done|]. by rewrite lookup_drop.
      * exists false. split; [done|]. split; [done|]. intros [_ Ho]. exfalso. apply Hne.
        apply (f_equal (.!! k)) in Ho. rewrite lookup_take_lt, lookup_drop, Ed, Ec in Ho by (by eapply lookup_lt_Some). congruence.
    + cbn [negb andb]. exists false. split; [done|]. split; [done|]. intros [Ho _]. apply lookup_ge_None in Ed.
      apply lookup_lt_Some in Ec. lia.
  - apply lookup_ge_None in Ec. assert (k = length ln) as -> by lia.
    rewrite Z.eqb_refl. cbn [negb]. rewrite andb_false_r. cbn [andb]. exists true. split; [done|]. split; [|done]. intros _.
    split; [done|]. by rewrite Ht, take_ge.
Qed.

(** The first occurrence from offset [p] on. *)
Definition first_from (p : nat) (r : option Z) : Prop :=
  match r with
  | Some q => ∃ k : nat, q = Z.of_nat k ∧ occurs_at lh ln k ∧ ∀ j, (p ≤ j < k)%nat → ¬ occurs_at lh ln j
  | None => ∀ j, (p ≤ j)%nat → ¬ occurs_at lh ln j
  end.

Lemma strstr_from_spec fuel : ∀ p : nat,
  ln ≠ [] → (p ≤ length lh)%nat → (length lh - p + length ln < fuel)%nat →
  ∃ r, strstr_from fuel h n (Z.of_nat p) = Some r ∧ first_from p r.
Proof.
  induction fuel as [|fuel IH]; intros p Hne Hp Hf; [lia|]. cbn [strstr_from].
  assert (0 < length ln)%nat as Hln by (destruct ln; [done|simpl; lia]).
  rewrite (cstr_lookup h lh) by done. destruct (lh !! p) as [c|] eqn:Ec; cbn [from_option id].
  - assert (c ≠ 0) as Hc0 by by destruct (proj1 Hh p c Ec). rewrite (proj2 (Z.eqb_neq c 0)) by done.
    apply lookup_lt_Some in Ec as Hlt.
    destruct (prefix_at_spec p (S fuel) 0) as (b & Hb & Hocc); [done|lia|done|lia|lia|]. change 0 with (Z.of_nat 0) at 1.
    rewrite Hb. destruct b.
    + eexists. split; [done|]. exists p. split_and!; [done|by apply Hocc|intros; lia].
    + replace (Z.of_nat p + 1) with (Z.of_nat (S p)) by lia. destruct (IH (S p)) as (r & -> & Hr); [done|lia|lia|].
      exists r. split; [done|]. assert (¬ occurs_at lh ln p) as Hno by (intros Ho%Hocc; done).
      destruct r as [q|].
      * destruct Hr as (k & -> & Ho & Hj). exists k. split_and!; [done..|]. intros j Hjk.
        destruct (decide (j = p)) as [->|]; [done|]. apply Hj. lia.
      * intros j Hj. destruct (decide (j = p)) as [->|]; [done|]. apply Hr. lia.
  - rewrite Z.eqb_refl. exists None. split; [done|]. intros j Hj [Ho _]. apply lookup_ge_None in Ec. lia.
Qed.
End strstr.

(** ** Properties *)

(** [printf] and [dprintf] write the text of [printk_text] to the descriptor. *)
Lemma vdprintf_spec {W} `{Os W} `{Rounds} fd fmt args vargs text (s : ustate W) :
  bytes_ok (u_mem s) → Forall2 (uarg_val (u_mem s)) args vargs →
  printk_text (S (length (bytes fmt))) (bytes fmt) vargs = Some text →
  runs (vdprintf fd fmt args) s (λ r s', r = s32 (Z.of_nat (length (bytes fmt))) ∧ prints fd text s s').
Proof.
  intros Hm Ha Ht. unfold vdprintf. kstep.
  kcall (vdprintf_from_spec fd _ (bytes fmt) args vargs text s); [lia|apply bytes_of_string_bytes|done..|].
  intros [] s' P. by kstep.
Qed.

(** [strstr] finds the first occurrence of the needle in the haystack, or
    answers the null pointer when there is none. *)
Theorem strstr_first h n lh ln fuel :
  cstr h lh → cstr n ln → (length lh + length ln < fuel)%nat →
  ∃ r, strstr fuel h n = Some r ∧
    match r with
    | Some q => ∃ k : nat, q = Z.of_nat k ∧ occurs_at lh ln k ∧ ∀ j, (j < k)%nat → ¬ occurs_at lh ln j
    | None => ∀ j, ¬ occurs_at lh ln j
    end.
Proof.
  intros Hh Hn Hf. unfold strstr. change (n 0) with (n (Z.of_nat 0)). rewrite (cstr_lookup n ln 0 Hn) by lia. destruct ln as [|c ln].
  - exists (Some 0). split; [done|]. exists 0%nat. split_and!; [done|split; simpl; [lia|done]|lia].
  - change (default 0 ((c :: ln) !! 0%nat)) with c. assert (c ≠ 0) as Hc by by destruct (proj1 Hn 0%nat c). rewrite (proj2 (Z.eqb_neq c 0)) by done.
    destruct (strstr_from_spec h n lh (c :: ln) Hh Hn fuel 0) as (r & Hr & Hfr); [done|lia|lia|].
    exists r. split; [exact Hr|]. destruct r as [q|].
    + destruct Hfr as (k & -> & Ho & Hj). exists k. split_and!; [done..|]. intros j Hjk. apply Hj. lia.
    + intros j. apply Hfr. lia.
Qed.

(** An operating system that keeps what is written, newest first. *)
Definition recorder : Type := list (Z * list Z).
#[export] Instance recorder_os : Os recorder := {|
  os_read _ _ w := ((0, []), w);
  os_write fd bs w := (Z.of_nat (length bs), (fd, bs) :: w);
  os_open _ _ w := (3, w);
  os_close _ w := (0, w);
  os_fstat _ w := (None, w);
  os_mkdir _ w := (0, w);
  os_mknod _ _ _ w := (0, w);
  os_link _ _ w := (0, w);
  os_unlink _ w := (0, w);
  os_chdir _ w := (0, w);
  os_kill _ w := (0, w);
  os_dup _ w := (0, w);
  os_dup2 _ _ w := (0, w);
  os_pipe w := (None, w);
  os_fork w := (1, w);
  os_wait w := (1, w);
  os_sbrk _ w := (0, w);
  os_execve _ _ _ w := (false, w);
|}.

Definition empty_user : ustate recorder := mk_ustate ∅ 0 0 [].

(** "issi" in "mississippi". *)
Lemma strstr_first_witness :
  let h := [109; 105; 115; 115; 105; 115; 115; 105; 112; 112; 105] in
  ∃ r, strstr 20 (rdl h) (rdl [105; 115; 115; 105]) = Some r ∧ r = Some 1.
Proof.
  destruct (strstr_first (rdl [109; 105; 115; 115; 105; 115; 115; 105; 112; 112; 105]) (rdl [105; 115; 115; 105])
    [109; 105; 115; 115; 105; 115; 115; 105; 112; 112; 105] [105; 115; 115; 105] 20) as (r & Hr & _).
  - split; [|reflexivity]. intros i c Hi. unfold rdl. rewrite Nat2Z.id, Hi. split; [done|].
    apply list_elem_of_lookup_2 in Hi. set_solver.
  - split; [|reflexivity]. intros i c Hi. unfold rdl. rewrite Nat2Z.id, Hi. split; [done|].
    apply list_elem_of_lookup_2 in Hi. set_solver.
  - simpl. lia.
  - exists r. split; [exact Hr|]. vm_compute in Hr. congruence.
Defined.
