(* ===== verification/UHeap.v ===== *)
(** The heap of a user program ([malloc] and [free] of user/ulib.c): blocks in
    use never overlap, and keep their contents while others come and go. *)

From S2P Require Import Prelude Mem Strings State Machine Mm Proc Sync Console Virtio Buf Log Inode Pipe File Fork Exec Sysfile ULib.

(** ** Definitions *)

(** What the heap relies on of the kernel: [sbrk] returns the old end of the
    memory and moves it, or fails and leaves it; it does not fail when the new
    end is at most [os_top]. *)
Class HeapOs (W : Type) `{Os W} := {
  os_brk : W → Z;
  os_top : Z;
  os_brk_pos : ∀ w, 0 < os_brk w < 2 ^ 63;
  os_sbrk_spec : ∀ n w, 0 ≤ n → let '(r, w') := os_sbrk n w in
    r = os_brk w ∧ os_brk w' = os_brk w + n ∨ r = u64 (-1) ∧ os_brk w' = os_brk w ∧ os_top < os_brk w + n;
}.

(** A block: its header is at [hb_addr], its bytes follow. *)
Record hblock := mk_hblock { hb_addr : Z; hb_size : Z; hb_free : bool }.

Definition header (b : hblock) (x : Z) : Prop := hb_addr b ≤ x < hb_addr b + BLOCK_HDR.
Definition payload (b : hblock) (x : Z) : Prop := hb_addr b + BLOCK_HDR ≤ x < hb_addr b + BLOCK_HDR + hb_size b.

(** The list of headers in memory, from the pointer [a] to the pointer [z]. *)
Definition node (m : memory) (b : hblock) : Prop :=
  ld64 m (hb_addr b) = hb_size b ∧ negb (mget m (hb_addr b + 8) =? 0) = hb_free b.
Fixpoint seg (m : memory) (a : Z) (bl : list hblock) (z : Z) : Prop :=
  match bl with
  | [] => a = z
  | b :: bl => a = hb_addr b ∧ node m b ∧ seg m (ld64 m (a + 16)) bl z
  end.

(** The blocks are in the order of the addresses, between [lo] and [hi]. *)
Fixpoint placed (lo : Z) (bl : list hblock) (hi : Z) : Prop :=
  match bl with
  | [] => lo ≤ hi
  | b :: bl => lo ≤ hb_addr b ∧ 0 ≤ hb_size b ∧ placed (hb_addr b + BLOCK_HDR + hb_size b) bl hi
  end.

(** The heap is above the address [lo]. *)
Record heap_ok {W} `{HeapOs W} (lo : Z) (bl : list hblock) (s : ustate W) : Prop := {
  ho_lo : 1 ≤ lo;
  ho_seg : seg (u_mem s) (u_head s) bl 0;
  ho_placed : placed lo bl (os_brk (u_os s));
}.

(** The blocks in use. *)
Definition owned (bl : list hblock) : list hblock := filter (λ b, hb_free b = false) bl.

Definition set_hb_free (v : bool) (b : hblock) : hblock := mk_hblock (hb_addr b) (hb_size b) v.

(** ** Lists of headers *)

Lemma seg_app m l1 l2 z : ∀ a, seg m a (l1 ++ l2) z ↔ ∃ c, seg m a l1 c ∧ seg m c l2 z.
Proof.
  induction l1 as [|b l1 IH]; intros a; cbn [app seg].
  - split; [intros Hs; by exists a|by intros (c & -> & Hs)].
  - rewrite IH. split; [intros (-> & Hn & c & H1 & H2); by exists c|intros (c & (-> & Hn & H1) & H2)]. eauto.
Qed.

Lemma seg_ext m m' bl z : ∀ a,
  seg m a bl z → (∀ b x, b ∈ bl → header b x → mget m' x = mget m x) → seg m' a bl z.
Proof.
  induction bl as [|b bl IH]; intros a Hs He; cbn [seg] in *; [done|]. destruct Hs as (-> & [N1 N2] & Hs).
  assert (∀ x, header b x → mget m' x = mget m x) as Hb by (intros x; apply He; left). unfold header, BLOCK_HDR in Hb.
  rewrite (ldn_ext 8 m' m (hb_addr b + 16)) by (intros; apply Hb; lia). split_and!; [done| |].
  - split; [rewrite (ldn_ext 8 m' m) by (intros; apply Hb; lia); done|]. by rewrite Hb by lia.
  - apply IH; [done|]. intros b' x Hb'. apply He. by right.
Qed.

Lemma placed_app l1 l2 hi : ∀ lo, placed lo (l1 ++ l2) hi ↔ ∃ c, placed lo l1 c ∧ placed c l2 hi.
Proof.
  induction l1 as [|b l1 IH]; intros lo; cbn [app placed].
  - split; [intros Hp; by exists lo|]. intros (c & Hlo & Hp). destruct l2 as [|b l2]; cbn [placed] in *; [lia|].
    split; [lia|apply Hp].
  - rewrite IH. split; [intros (H1 & H2 & c & H3 & H4); by exists c|intros (c & (H1 & H2 & H3) & H4)]. eauto.
Qed.

Lemma placed_bounds bl hi : ∀ lo b,
  placed lo bl hi → b ∈ bl → lo ≤ hb_addr b ∧ 0 ≤ hb_size b ∧ hb_addr b + BLOCK_HDR + hb_size b ≤ hi.
Proof.
  induction bl as [|c bl IH]; intros lo b Hp Hb; [by apply elem_of_nil in Hb|]. destruct Hp as (H1 & H2 & H3).
  unfold BLOCK_HDR in *. apply elem_of_cons in Hb as [->|Hb].
  - split_and!; [done|done|]. clear -H3. revert H3. generalize (hb_addr c + 24 + hb_size c).
    induction bl as [|d bl IH]; intros lo Hp; cbn [placed] in Hp; [done|]. destruct Hp as (P1 & P2 & P3%IH). unfold BLOCK_HDR in *. lia.
  - apply (IH _ _ H3) in Hb. lia.
Qed.

(** Different blocks are in different places. *)
Lemma placed_disjoint l1 b l2 lo hi b' x :
  placed lo (l1 ++ b :: l2) hi → b' ∈ l1 ++ l2 → header b x ∨ payload b x → header b' x ∨ payload b' x → False.
Proof.
  intros (c & P1 & P2)%placed_app [Hb|Hb]%elem_of_app Hx Hx'; cbn [placed] in P2; destruct P2 as (P2 & P3 & P4).
  - apply (placed_bounds _ _ _ _ P1) in Hb. unfold header, payload, BLOCK_HDR in *. lia.
  - apply (placed_bounds _ _ _ _ P4) in Hb. unfold header, payload, BLOCK_HDR in *. lia.
Qed.

Lemma placed_lt lo bl hi : placed lo bl hi → lo ≤ hi.
Proof.
  revert lo. induction bl as [|b bl IH]; intros lo Hp; [done|]. destruct Hp as (P1 & P2 & P3%IH).
  unfold BLOCK_HDR in *. lia.
Qed.

(** A block is replaced by one at the same address. *)
Lemma seg_replace m m' a pre b b' post z :
  seg m a pre (hb_addr b) → (∀ c x, c ∈ pre → header c x → mget m' x = mget m x) →
  hb_addr b' = hb_addr b → node m' b' → seg m' (ld64 m' (hb_addr b + 16)) post z →
  seg m' a (pre ++ b' :: post) z.
Proof.
  intros H1 He Ha Hn H2. apply seg_app. exists (hb_addr b). split; [by eapply seg_ext|].
  cbn [seg]. by rewrite <-Ha in *.
Qed.

Lemma owned_app l1 l2 : owned (l1 ++ l2) = owned l1 ++ owned l2.
Proof. apply filter_app. Qed.
Lemma owned_free b l : hb_free b = true → owned (b :: l) = owned l.
Proof. intros Hb. unfold owned. rewrite filter_cons_False; [done|]. by rewrite Hb. Qed.
Lemma owned_used b l : hb_free b = false → owned (b :: l) = b :: owned l.
Proof. intros Hb. unfold owned. by rewrite filter_cons_True. Qed.

Section heap.
Context {W : Type} `{OS : Os W} `{HO : !HeapOs W} `{RN : Rounds}.
Implicit Types s : ustate W.

(** The bytes of the blocks [bl] and below the heap are as before. *)
Definition kept_bytes (lo : Z) (bl : list hblock) s s' : Prop :=
  (∀ b x, b ∈ bl → payload b x → mget (u_mem s') x = mget (u_mem s) x) ∧
  ∀ x, x < lo → mget (u_mem s') x = mget (u_mem s) x.

Context {lo : Z}.

(** A store into the header of one block leaves the other headers and the
    bytes of all blocks. *)
Lemma header_store pre b post s m' :
  placed lo (pre ++ b :: post) (os_brk (u_os s)) → (∀ x, ¬ header b x → mget m' x = mget (u_mem s) x) →
  (∀ c x, c ∈ pre ++ post → header c x → mget m' x = mget (u_mem s) x) ∧
  kept_bytes lo (pre ++ b :: post) s (set_u_mem m' s).
Proof.
  intros Hp Hm. split_and!; [|split].
  - intros c x Hc Hx. apply Hm. intros Hb. eapply (placed_disjoint pre b post); [done|done|by left|by left].
  - intros c x Hc Hx. apply Hm. intros Hb. apply elem_of_app in Hc as [Hc|[->|Hc]%elem_of_cons].
    + eapply (placed_disjoint pre b post); [done|by apply elem_of_app; left|by left|by right].
    + unfold header, payload in *. lia.
    + eapply (placed_disjoint pre b post); [done|by apply elem_of_app; right|by left|by right].
  - intros x Hx. apply Hm. destruct (placed_bounds _ _ _ b Hp) as [B1 _]; [set_solver|]. unfold header. lia.
Qed.

(** The flag of a block is set. *)
Lemma set_free_spec pre b post v s :
  heap_ok lo (pre ++ b :: post) s →
  runs (set_blk_free (hb_addr b) v) s (λ _ s', heap_ok lo (pre ++ set_hb_free v b :: post) s' ∧
    kept_bytes lo (pre ++ b :: post) s s' ∧ u_os s' = u_os s ∧ u_head s' = u_head s).
Proof.
  intros [Hlo Hs Hp]. unfold set_blk_free, stb. kstep. set (m' := mset _ _ _).
  assert (∀ x, x ≠ hb_addr b + 8 → mget m' x = mget (u_mem s) x) as Hm by (intros x Hx; apply mget_mset_ne; lia).
  destruct (header_store pre b post s m' Hp) as [He Hk]; [intros x Hx; apply Hm; unfold header, BLOCK_HDR in *; lia|].
  split_and!; [|exact Hk|done|done]. apply seg_app in Hs as (c & S1 & S2). cbn [seg] in S2. destruct S2 as (-> & [N1 N2] & S3).
  split; cbn [u_mem u_head u_os set_u_mem]; [done| |].
  - eapply (seg_replace (u_mem s) m' _ pre b); [done| |done| |].
    + intros c x Hc. apply He, elem_of_app. by left.
    + split; cbn [set_hb_free hb_addr hb_size hb_free].
      * rewrite (ldn_ext 8 m' (u_mem s)); [done|]. intros; apply Hm; lia.
      * unfold m'. rewrite mget_mset_eq. by destruct v.
    + rewrite (ldn_ext 8 m' (u_mem s)) by (intros; apply Hm; lia).
      eapply seg_ext; [done|]. intros c x Hc. apply He, elem_of_app. by right.
  - apply placed_app in Hp as (c & P1 & P2). apply placed_app. by exists c.
Qed.

(** The address of the last block. *)
Definition last_addr (bl : list hblock) : Z := from_option hb_addr 0 (last bl).

(** The scan of [malloc]. *)
Definition malloc_body (size : Z) (l : Z * Z) : @ULib.UM W ((Z * Z) + (Z + Z))%type :=
  let '(curr, prev) := l in
    if curr =? 0 then mret (inr (inr prev)) else
    fr ← blk_free curr;
    sz ← blk_size curr;
    if fr && (size <=? sz) then set_blk_free curr false;; mret (inr (inl (curr + BLOCK_HDR)))
    else nx ← blk_next curr; mret (inl (nx, curr)).

Lemma malloc_scan size s post : ∀ pre curr fuel,
  heap_ok lo (pre ++ post) s → seg (u_mem s) curr post 0 → (length post < fuel)%nat →
  runs (loop fuel (malloc_body size) (curr, last_addr pre)) s (λ r s',
    match r with
    | inl p => ∃ l1 b l2, pre ++ post = l1 ++ b :: l2 ∧ hb_free b = true ∧ size ≤ hb_size b ∧ p = hb_addr b + BLOCK_HDR ∧
        heap_ok lo (l1 ++ set_hb_free false b :: l2) s' ∧ kept_bytes lo (pre ++ post) s s' ∧ u_os s' = u_os s
    | inr prev => s' = s ∧ prev = last_addr (pre ++ post)
    end).
Proof.
  induction post as [|b post IH]; intros pre curr fuel Hok Hs Hf; (destruct fuel as [|fuel]; [simpl in Hf; lia|]);
    cbn [loop malloc_body seg] in *.
  { subst curr. rewrite Z.eqb_refl. kstep. kstep. kstep. by rewrite app_nil_r. }
  destruct Hs as (-> & [N1 N2] & Hs).
  destruct (placed_bounds _ _ _ b (ho_placed _ _ _ Hok)) as (B1 & B2 & B3); [apply elem_of_app; right; left|].
  pose proof (ho_lo _ _ _ Hok). rewrite (proj2 (Z.eqb_neq _ _)) by lia. unfold blk_free, blk_size, blk_next. kstep. kstep. kstep. kstep. kstep. rewrite N1, N2.
  destruct (hb_free b && (size <=? hb_size b)) eqn:E.
  - apply andb_true_iff in E as [E1 E2%Z.leb_le]. kstep. kcall (set_free_spec pre b post false s Hok).
    intros [] s1 (H1 & K1 & O1 & _). kstep. kstep. exists pre, b, post. by split_and!.
  - kstep. kstep. kstep. assert (pre ++ b :: post = (pre ++ [b]) ++ post) as El by by rewrite <-(assoc_L (++)).
    rewrite El in *. assert (hb_addr b = last_addr (pre ++ [b])) as Ea by (unfold last_addr; by rewrite last_snoc).
    rewrite Ea at 2. apply IH; [done|done|simpl in Hf; lia].
Qed.

Lemma malloc_eq size :
  malloc size = (if size =? 0 then mret 0 else
    h ← gets u_head;
    r ← loop rounds (malloc_body size) (h, 0);
    match r with
    | inl p => mret p
    | inr prev =>
        new_block ← sbrk (u64 (BLOCK_HDR + size));
        if new_block =? u64 (-1) then mret 0 else
        set_blk_size new_block size;;
        set_blk_free new_block false;;
        set_blk_next new_block 0;;
        (if prev =? 0 then modify (set_u_head new_block) else set_blk_next prev new_block);;
        mret (new_block + BLOCK_HDR)
    end).
Proof. done. Qed.

(** The three stores of a new header at [a]. *)
Definition new_header (m : memory) (a size : Z) : memory := st64 (mset (st64 m a size) (a + 8) 0) (a + 16) 0.

Lemma new_header_spec m a size :
  0 ≤ size < 2 ^ 63 → seg (new_header m a size) a [mk_hblock a size false] 0 ∧
  ∀ x, x < a ∨ a + BLOCK_HDR ≤ x → mget (new_header m a size) x = mget m x.
Proof.
  intros Hsz. unfold new_header, BLOCK_HDR. split.
  - cbn [seg]. split_and!; [done| |by apply ldn_stn]. split; cbn [hb_addr hb_size hb_free].
    + rewrite ldn_stn_out by lia. rewrite (ldn_ext 8 _ (st64 m a size)) by (intros; apply mget_mset_ne; lia).
      apply ldn_stn. lia.
    + rewrite mget_stn_out by lia. by rewrite mget_mset_eq.
  - intros x Hx. rewrite mget_stn_out, mget_mset_ne, mget_stn_out by lia. done.
Qed.

(** A block after the last one is linked. *)
Lemma link_new bl a size m h :
  seg m h bl 0 → placed lo bl a → seg m a [mk_hblock a size false] 0 → 1 ≤ lo → 0 < a < 2 ^ 63 →
  let '(m', h') := if last_addr bl =? 0 then (m, a) else (st64 m (last_addr bl + 16) a, h) in
  seg m' h' (bl ++ [mk_hblock a size false]) 0 ∧
  (∀ c x, c ∈ bl → payload c x → mget m' x = mget m x) ∧ ∀ x, x < lo → mget m' x = mget m x.
Proof.
  intros Hs Hp Hn Hlo Ha. destruct bl as [|l pre _] using rev_ind; [by cbn|].
  unfold last_addr. rewrite last_snoc. cbn [from_option].
  destruct (placed_bounds _ _ _ l Hp) as (B1 & B2 & B3); [set_solver|]. rewrite (proj2 (Z.eqb_neq _ _)) by lia.
  set (m' := st64 m _ a). unfold BLOCK_HDR in *.
  assert (∀ x, x < hb_addr l + 16 ∨ hb_addr l + 24 ≤ x → mget m' x = mget m x) as Hm by (intros x Hx; apply mget_stn_out; lia).
  apply seg_app in Hs as (c & S1 & S2). cbn [seg] in S2. destruct S2 as (-> & [N1 N2] & S2).
  assert (∀ c x, c ∈ pre → header c x ∨ payload c x → mget m' x = mget m x) as Hpre.
  { intros c x Hc Hx. apply Hm. apply placed_app in Hp as (d & P1 & P2). apply (placed_bounds _ _ _ _ P1) in Hc.
    cbn [placed] in P2. unfold header, payload, BLOCK_HDR in *. lia. }
  split_and!.
  - rewrite <-(assoc_L (++)). cbn [app]. eapply (seg_replace m m' _ pre l); [done|eauto|done| |].
    + split; [|by rewrite Hm by lia]. rewrite (ldn_ext 8 m' m); [done|]. intros; apply Hm; lia.
    + unfold m' at 2. rewrite ldn_stn by lia. eapply seg_ext; [exact Hn|].
      intros b x ->%list_elem_of_singleton Hx. apply Hm. unfold header, BLOCK_HDR in Hx. cbn [hb_addr] in Hx. lia.
  - intros c x Hc Hx. apply elem_of_app in Hc as [Hc| ->%list_elem_of_singleton]; [by eauto|].
    apply Hm. unfold payload, BLOCK_HDR in Hx. lia.
  - intros x Hx. apply Hm. lia.
Qed.

(** [malloc]: a block is taken out of the list or added to it. *)
Lemma malloc_spec size bl s :
  heap_ok lo bl s → (length bl < rounds)%nat → 0 < size < 2 ^ 63 →
  runs (malloc size) s (λ p s', os_brk (u_os s') ≤ os_brk (u_os s) + BLOCK_HDR + size ∧ (
    p = 0 ∧ os_top < os_brk (u_os s) + BLOCK_HDR + size ∧ heap_ok lo bl s' ∧ kept_bytes lo bl s s' ∨
    ∃ l1 b l2, heap_ok lo (l1 ++ b :: l2) s' ∧ p = hb_addr b + BLOCK_HDR ∧ size ≤ hb_size b ∧ hb_free b = false ∧
      owned (l1 ++ l2) = owned bl ∧ (length (l1 ++ l2) ≤ length bl)%nat ∧ kept_bytes lo bl s s')).
Proof.
  intros Hok Hr Hsz. rewrite malloc_eq, (proj2 (Z.eqb_neq size 0)) by lia. kstep. kstep.
  kstep. kcall (malloc_scan size s bl [] (u_head s) rounds); [done|apply Hok|done|]. cbn [app].
  intros [p|prev] s1.
  { intros (l1 & b & l2 & -> & Hfr & Hge & -> & H1 & K1 & O1). kstep. split; [rewrite O1; unfold BLOCK_HDR; lia|]. right. exists l1, (set_hb_free false b), l2.
    split_and!; [done..| | |done]; [by rewrite !owned_app, owned_free|rewrite !length_app; simpl; lia]. }
  intros [-> ->]. unfold sbrk, call. rewrite (wrap_small 64 (BLOCK_HDR + size)) by (unfold BLOCK_HDR; lia). kstep. kstep.
  eapply runs_ok; [done|]. pose proof (os_sbrk_spec (BLOCK_HDR + size) (u_os s)) as Hb.
  destruct (os_sbrk (BLOCK_HDR + size) (u_os s)) as [r w]. kstep. kstep. kstep.
  pose proof (os_brk_pos (u_os s)) as Hpos. pose proof (os_brk_pos w) as Hpos'.
  destruct Hb as [[-> Hw]|(-> & Hw & Hfull)]; [unfold BLOCK_HDR; lia| |].
  - assert (os_brk (u_os s) ≠ u64 (-1)) as Hne by (change (u64 (-1)) with 18446744073709551615; lia).
    rewrite (proj2 (Z.eqb_neq _ _) Hne).
    unfold set_blk_size, set_blk_free, set_blk_next, stb. do 6 kstep. set (a := os_brk (u_os s)) in *. unfold BLOCK_HDR in *.
    destruct (new_header_spec (u_mem s) a size) as [G1 G2]; [lia|].
    set (m1 := new_header (u_mem s) a size) in *. change (st64 (mset _ _ _) _ 0) with m1.
    match goal with |- runs _ ?x _ => change x with (set_u_mem m1 (set_u_os w s)) end.
    assert (∀ c x, c ∈ bl → header c x ∨ payload c x → mget m1 x = mget (u_mem s) x) as Hm1.
    { intros c x Hc Hx. apply G2. apply (placed_bounds _ _ _ _ (ho_placed _ _ _ Hok)) in Hc.
      unfold header, payload, BLOCK_HDR in *. lia. }
    pose proof (link_new bl a size m1 (u_head s)) as Hl.
    destruct (if last_addr bl =? 0 then _ else _) as [m2 h2] eqn:Em.
    destruct Hl as (L1 & L2 & L3); [eapply seg_ext; [apply Hok|eauto]|apply Hok|done|apply Hok|lia|].
    kstep. apply (runs_conseq _ _ (λ _ s', s' = mk_ustate m2 h2 (u_olds s) w)).
    { destruct (last_addr bl =? 0); injection Em as <- <-; by kstep. }
    intros [] ? ->. kstep. split; [cbn [u_os]; lia|]. right. exists bl, (mk_hblock a size false), []. rewrite app_nil_r.
    split_and!; [split|done|done|done|done|done|].
    + apply Hok.
    + exact L1.
    + apply placed_app. exists a. split; [apply Hok|]. cbn [placed hb_addr hb_size u_os]. unfold BLOCK_HDR. lia.
    + split; cbn [u_mem]; [intros c x Hc Hx; rewrite (L2 c x Hc Hx); eauto|].
      intros x Hx. rewrite L3 by done. apply G2. pose proof (placed_lt _ _ _ (ho_placed _ _ _ Hok)). lia.
  - rewrite Z.eqb_refl. kstep. split; [cbn [u_os set_u_os]; unfold BLOCK_HDR in *; lia|]. left. split_and!; [done|lia| |done]. destruct Hok as [O0 O1 O2]. split; [done|exact O1|]. cbn [u_os set_u_os]. by rewrite Hw.
Qed.

Lemma seg_start m a bl l h : seg m a bl 0 → placed l bl h → a = 0 ∨ l ≤ a ≤ h.
Proof.
  destruct bl as [|b bl]; [by left|]. intros (-> & _) (P1 & P2 & P3%placed_lt). right. unfold BLOCK_HDR in *. lia.
Qed.

(** Two free neighbours become one block; the bytes of the second one are not
    counted. *)
Lemma merge_spec pre b c rest s :
  heap_ok lo (pre ++ b :: c :: rest) s → hb_free b = true →
  runs (sz ← blk_size (hb_addr b);
        set_blk_size (hb_addr b) (u64 (sz + BLOCK_HDR));;
        nn ← blk_next (hb_addr c);
        set_blk_next (hb_addr b) nn) s (λ _ s',
    heap_ok lo (pre ++ mk_hblock (hb_addr b) (hb_size b + BLOCK_HDR) true :: rest) s' ∧ kept_bytes lo (pre ++ rest) s s').
Proof.
  intros [Hlo Hs Hp] Hb. pose proof Hs as Hs'. apply seg_app in Hs' as (a & S1 & S2). cbn [seg] in S2.
  destruct S2 as (-> & [N1 N2] & E2 & [M1 M2] & S3).
  destruct (placed_bounds _ _ _ b Hp) as (B1 & B2 & B3); [set_solver|]. pose proof (os_brk_pos (u_os s)) as Hbrk.
  pose proof Hp as Hp'. apply placed_app in Hp' as (lo' & P1 & P2). cbn [placed] in P2. destruct P2 as (P2 & _ & P3 & P4 & P5).
  rewrite E2 in S3. assert (0 ≤ ld64 (u_mem s) (hb_addr c + 16) < 2 ^ 64) as Hz.
  { pose proof (seg_start _ _ _ _ _ S3 P5). unfold BLOCK_HDR in *. lia. }
  unfold blk_size, set_blk_size, blk_next, set_blk_next, BLOCK_HDR in *. do 7 kstep. rewrite N1, wrap_small by lia. cbn [u_mem set_u_mem].
  rewrite (ldn_stn_out 8 8) by lia. set (z := ld64 (u_mem s) (hb_addr c + 16)) in *. set (m' := st64 _ _ z).
  assert (∀ x, ¬ header b x → mget m' x = mget (u_mem s) x) as Hm.
  { intros x Hx. unfold m'. unfold header, BLOCK_HDR in Hx. rewrite !mget_stn_out by lia. done. }
  destruct (header_store pre b (c :: rest) s m' Hp Hm) as [He Hk]. split.
  - split; cbn [u_mem u_head u_os set_u_mem]; [done| |].
    + eapply (seg_replace (u_mem s) m' _ pre b); [done| |done| |].
      * intros d x Hd. apply He. set_solver.
      * split; cbn [hb_addr hb_size hb_free]; unfold m'.
        -- rewrite (ldn_stn_out 8 8) by lia. apply ldn_stn. lia.
        -- rewrite !mget_stn_out by lia. by rewrite N2.
      * assert (ld64 m' (hb_addr b + 16) = z) as ->.
        { by apply ldn_stn. }
        eapply seg_ext; [exact S3|]. intros d x Hd. apply He. set_solver.
    + apply placed_app. exists lo'. split; [done|]. cbn [placed hb_addr hb_size]. unfold BLOCK_HDR.
      split_and!; [done|lia|]. destruct rest as [|d rest]; cbn [placed] in *; unfold BLOCK_HDR in *; [lia|].
      split; [lia|]. apply P5.
  - destruct Hk as [Hk Hl]. split; [|exact Hl]. intros d x Hd. apply Hk. set_solver.
Qed.

(** The loop of [free]. *)
Definition free_body (curr : Z) : @ULib.UM W (Z + unit)%type :=
  if curr =? 0 then mret (inr tt) else
  nx ← blk_next curr;
  if nx =? 0 then mret (inr tt) else
  fr ← blk_free curr;
  nfr ← blk_free nx;
  when (fr && nfr)
    (sz ← blk_size curr;
     set_blk_size curr (u64 (sz + BLOCK_HDR));;
     nn ← blk_next nx;
     set_blk_next curr nn);;
  nx ← blk_next curr;
  mret (inl nx).

Lemma kept_bytes_sub bl bl' s s' : bl' ⊆ bl → kept_bytes lo bl s s' → kept_bytes lo bl' s s'.
Proof. intros Hs [Hk Hl]. split; [|done]. intros b x Hb. apply Hk. set_solver. Qed.

Lemma kept_bytes_trans bl s1 s2 s3 : kept_bytes lo bl s1 s2 → kept_bytes lo bl s2 s3 → kept_bytes lo bl s1 s3.
Proof.
  intros [H1 L1] [H2 L2]. split; [intros b x Hb Hx; rewrite (H2 b x Hb Hx); exact (H1 b x Hb Hx)|].
  intros x Hx. by rewrite L2, L1.
Qed.

Lemma owned_sub bl : owned bl ⊆ bl.
Proof. intros b [_ Hb]%list_elem_of_filter. done. Qed.

Lemma free_scan fuel : ∀ pre post curr s,
  heap_ok lo (pre ++ post) s → seg (u_mem s) curr post 0 → (length post < fuel)%nat →
  runs (loop fuel free_body curr) s (λ _ s', ∃ bl', heap_ok lo bl' s' ∧ owned bl' = owned (pre ++ post) ∧
    kept_bytes lo (owned (pre ++ post)) s s').
Proof.
  induction fuel as [|fuel IH]; intros pre post curr s Hok Hs Hf; [lia|]. cbn [loop].
  pose proof (ho_lo _ _ _ Hok) as Hlo. assert (kept_bytes lo (owned (pre ++ post)) s s) as Hdone by done.
  kstep. unfold free_body at 1. destruct post as [|b post]; cbn [seg] in Hs.
  { subst curr. rewrite Z.eqb_refl. kstep. kstep. eauto. }
  destruct Hs as (-> & [N1 N2] & Hs).
  destruct (placed_bounds _ _ _ b (ho_placed _ _ _ Hok)) as (B1 & B2 & B3); [set_solver|].
  rewrite (proj2 (Z.eqb_neq _ _)) by lia. unfold blk_next. kstep. kstep. destruct post as [|c post]; cbn [seg] in Hs.
  { rewrite Hs, Z.eqb_refl. kstep. kstep. eauto. }
  destruct Hs as (Ec & [M1 M2] & Hs). rewrite Ec in *.
  destruct (placed_bounds _ _ _ c (ho_placed _ _ _ Hok)) as (C1 & C2 & C3); [set_solver|].
  rewrite (proj2 (Z.eqb_neq _ _)) by lia. unfold blk_free. kstep. kstep. kstep. kstep. rewrite N2, M2. kstep. kstep.
  - intros [Hb Hc]%andb_true_iff. kcall (merge_spec pre b c post s Hok Hb). intros [] s1 [H1 K1].
    unfold blk_next. kstep. kstep. kstep. set (b' := mk_hblock _ _ true) in *.
    assert (pre ++ b' :: post = (pre ++ [b']) ++ post) as El by by rewrite <-(assoc_L (++)).
    assert (owned (pre ++ b :: c :: post) = owned ((pre ++ [b']) ++ post)) as Eo.
    { rewrite <-El, !owned_app, !owned_free by done. done. }
    pose proof (ho_seg _ _ _ H1) as Hs1. apply seg_app in Hs1 as (d & _ & Hs1). cbn [seg] in Hs1.
    destruct Hs1 as (-> & _ & Hs1). rewrite El in H1.
    kcall (IH (pre ++ [b']) post _ s1 H1 Hs1); [simpl in Hf; lia|]. intros [] s2 (bl' & H2 & E2 & K2).
    exists bl'. rewrite Eo. split_and!; [done|done|]. eapply kept_bytes_trans; [|exact K2].
    eapply kept_bytes_sub; [|exact K1]. rewrite <-El, owned_app, owned_free, <-owned_app by done. apply owned_sub.
  - intros _. unfold blk_next. kstep. kstep. kstep. rewrite Ec.
    assert (pre ++ b :: c :: post = (pre ++ [b]) ++ c :: post) as El by by rewrite <-(assoc_L (++)). rewrite El in *.
    apply IH; [done|by split_and!|simpl in Hf |- *; lia].
Qed.

Lemma free_eq ptr :
  free ptr = (if ptr =? 0 then mret tt else
    set_blk_free (ptr - BLOCK_HDR) true;; h ← gets u_head; loop rounds free_body h).
Proof. done. Qed.

Lemma free_spec l1 b l2 s :
  heap_ok lo (l1 ++ b :: l2) s → (length (l1 ++ b :: l2) < rounds)%nat →
  runs (free (hb_addr b + BLOCK_HDR)) s (λ _ s', ∃ bl', heap_ok lo bl' s' ∧ owned bl' = owned (l1 ++ l2) ∧
    kept_bytes lo (owned (l1 ++ l2)) s s').
Proof.
  intros Hok Hr. destruct (placed_bounds _ _ _ b (ho_placed _ _ _ Hok)) as (B1 & B2 & B3); [set_solver|].
  pose proof (ho_lo _ _ _ Hok). rewrite free_eq, (proj2 (Z.eqb_neq _ _)) by (unfold BLOCK_HDR; lia). rewrite Z.add_simpl_r.
  kstep. kcall (set_free_spec l1 b l2 true s Hok). intros [] s1 (H1 & K1 & _). kstep. kstep.
  set (bf := set_hb_free true b) in *.
  assert (owned ([] ++ l1 ++ bf :: l2) = owned (l1 ++ l2)) as Eo by (cbn [app]; by rewrite !owned_app, owned_free).
  kcall (free_scan rounds [] (l1 ++ bf :: l2) (u_head s1) s1 H1 (ho_seg _ _ _ H1)).
  { rewrite length_app in *. simpl in *. lia. }
  rewrite Eo. intros [] s2 (bl' & H2 & E2 & K2). exists bl'. split_and!; [done|done|].
  eapply kept_bytes_trans; [|exact K2]. eapply kept_bytes_sub; [|exact K1]. etrans; [apply owned_sub|]. set_solver.
Qed.
End heap.

(** ** Properties *)

(** C29: the blocks that a program has from [malloc] do not overlap.  [malloc]
    gives a block of at least the size asked for, apart from every block in
    use, or the null pointer; [free] takes the block off those in use.  Both
    keep the list of headers well-formed and the bytes of all other blocks in
    use and of the memory below the heap. *)
Theorem heap_safe {W} `{OS : Os W} `{HO : !HeapOs W} `{RN : Rounds} lo bl (s : ustate W) :
  heap_ok lo bl s → (length bl < rounds)%nat →
  (∀ size, 0 < size < 2 ^ 63 →
     runs (malloc size) s (λ p s', kept_bytes lo (owned bl) s s' ∧
       (p = 0 ∧ heap_ok lo bl s' ∨
        ∃ bl' b, heap_ok lo bl' s' ∧ owned bl' ≡ₚ b :: owned bl ∧ p = hb_addr b + BLOCK_HDR ∧ size ≤ hb_size b ∧
          ∀ c x, c ∈ owned bl → payload c x → ¬ payload b x))) ∧
  (∀ b, b ∈ owned bl →
     runs (free (hb_addr b + BLOCK_HDR)) s (λ _ s', ∃ bl', heap_ok lo bl' s' ∧ owned bl ≡ₚ b :: owned bl' ∧
       kept_bytes lo (owned bl') s s')).
Proof.
  intros Hok Hr. split.
  - intros size Hsz. kcall (malloc_spec size bl s Hok Hr Hsz).
    intros p s' [_ [(-> & _ & H1 & K1)|(l1 & b & l2 & H1 & -> & Hge & Hf & Eo & _ & K1)]].
    { split; [eapply kept_bytes_sub; [apply owned_sub|done]|by left]. }
    split; [eapply kept_bytes_sub; [apply owned_sub|done]|right]. exists (l1 ++ b :: l2), b. rewrite <-Eo.
    split_and!; [done| |done|done|].
    + rewrite owned_app, owned_used, owned_app by done. by rewrite Permutation_middle.
    + intros c x Hc Hx Hx'. eapply (placed_disjoint l1 b l2); [apply H1|by apply owned_sub|by right|by right].
  - intros b [Hf Hb]%list_elem_of_filter. apply list_elem_of_split in Hb as (l1 & l2 & ->).
    kcall (free_spec l1 b l2 s Hok Hr). intros [] s' (bl' & H1 & E1 & K1). exists bl'. rewrite E1.
    split_and!; [done| |done]. rewrite owned_app, owned_used, owned_app by done. by rewrite Permutation_middle.
Qed.

(** A kernel that gives a program up to 2^40 bytes. *)
Definition break : Type := Z.
Definition break_of (w : break) : Z := Z.max 1 (Z.min w (2 ^ 40)).
#[export] Instance break_os : Os break := {|
  os_read _ _ w := ((0, []), w);
  os_write _ bs w := (Z.of_nat (length bs), w);
  os_open _ _ w := (3, w);
  os_close _ w := (0, w);
  os_fstat _ w := (None, w);
  os_mkdir _ w := (0, w);
  os_mknod _ _ _ w := (0, w);
  os_link _ _ w := (0, w);
  os_unlink _ w := (0, w);
  os_chdir _ w := (0, w);
  os_kill _ w := (0, w);
  os_dup _ w := (0, w);
  os_dup2 _ _ w := (0, w);
  os_pipe w := (None, w);
  os_fork w := (1, w);
  os_wait w := (1, w);
  os_sbrk n w := if break_of w + n <=? 2 ^ 40 then (break_of w, break_of w + n) else (u64 (-1), break_of w);
  os_execve _ _ _ w := (false, w);
|}.
#[export] Instance break_heap : HeapOs break.
Proof.
  refine {| os_brk := break_of; os_top := 2 ^ 40 |}; unfold break_of; [lia|]. intros n w Hn. cbn [os_sbrk break_os]. unfold break_of.
  destruct (Z.leb_spec (Z.max 1 (Z.min w (2 ^ 40)) + n) (2 ^ 40)); lia.
Defined.

(** The program has one block of 10 bytes at address 8192. *)
Definition one_block : ustate break :=
  mk_ustate (new_header ∅ 8192 10) 8192 0 (8192 + 34).

Lemma heap_safe_witness :
  let rn : Rounds := 4%nat in
  runs (malloc 100) one_block (λ p s', p = 0 ∨ p = 8192 + 34 + 24) ∧
  runs (free (8192 + 24)) one_block (λ _ _, True).
Proof.
  assert (heap_ok 8192 [mk_hblock 8192 10 false] one_block) as Hok.
  { split; [lia|vm_compute; repeat split; reflexivity|]. vm_compute. repeat split; discriminate. }
  pose (rn := 4%nat : Rounds).
  destruct (heap_safe (RN := rn) 8192 [mk_hblock 8192 10 false] one_block Hok) as [Hm Hf]; [vm_compute; lia|]. split.
  - destruct (Hm 100) as (p & s' & Hr & _); [lia|]. exists p, s'. split; [exact Hr|].
    right. vm_compute in Hr. injection Hr as <- _. reflexivity.
  - destruct (Hf (mk_hblock 8192 10 false)) as ([] & s' & Hr & _).
    + apply list_elem_of_filter. split; [reflexivity|left].
    + exists tt, s'. split; [exact Hr|exact I].
Defined.
