(* ===== verification/ShellTheorems.v ===== *)
(** The shell (user/sh.c): the tokens of a line, and the arguments that the
    parser makes of them. *)

From S2P Require Import Prelude Mem Strings State Machine Mm Proc Sync Console Virtio Buf Log Inode Pipe File Fork Exec Sysfile ULib UHeap Shell.

(** ** Definitions *)

(** The characters that may be anywhere in a word. *)
Definition plain (c : Z) : Prop := c ≠ 0 ∧ (c ∉ WHITESPACE) ∧ (c ∉ OPERATORS).
Definition word (w : list Z) : Prop := w ≠ [] ∧ Forall plain w.

(** What the parser takes for a word: it may start with a digit 2. *)
Definition chunk (w : list Z) : Prop := ∃ c r, w = c :: r ∧ (plain c ∨ c = 50) ∧ Forall plain r.

(** The line with the words [w] of [l], each after [k] blanks, and [t] blanks at
    the end. *)
Fixpoint render_line (l : list (nat * list Z)) (t : nat) : list Z :=
  match l with
  | [] => replicate t 32
  | (k, w) :: l => replicate k 32 ++ w ++ render_line l t
  end.

(** Before every word but the first there is a blank, or it starts with a 2. *)
Definition parted (x : nat * list Z) : Prop := (0 < x.1)%nat ∨ head x.2 = Some 50.
Definition spaced (l : list (nat * list Z)) : Prop := Forall parted (tail l).

(** The bytes [l] are at address [a]. *)
Definition text (m : memory) (a : Z) (l : list Z) : Prop := ∀ i c, l !! i = Some c → mget m (a + Z.of_nat i) = c.

(** The tokens of such a line at address [a]. *)
Fixpoint tokens_at (a : Z) (l : list (nat * list Z)) (toks : list token) : Prop :=
  match l, toks with
  | [], [t] => tk_type t = TOK_EOF
  | (k, w) :: l, t :: toks =>
      tk_type t = TOK_ARG ∧ tk_lexeme t = a + Z.of_nat k ∧ tk_len t = Z.of_nat (length w) ∧
      tokens_at (a + Z.of_nat (k + length w)) l toks
  | _, _ => False
  end.

(** The program goes on and [Q] holds, or it has ended with status 1. *)
Definition runs_or_exit {W A} (m : K uend (ustate W) A) (s : ustate W) (Q : A → ustate W → Prop) : Prop :=
  match m s with
  | Ok a s' => Q a s'
  | Sleep (Exited st) _ _ => st = 1
  | _ => False
  end.

(** The program goes on and [Q] holds; it ends with status 1 only if the kernel
    does not give it the memory below [z]. *)
Definition runs_below {W} `{HeapOs W} {A} (z : Z) (m : K uend (ustate W) A) (s : ustate W) (Q : A → ustate W → Prop) : Prop :=
  match m s with
  | Ok a s' => Q a s'
  | Sleep (Exited st) _ _ => st = 1 ∧ os_top < z
  | _ => False
  end.

(** ** [runs_or_exit] and [runs_below] *)

Section exits.
Context {W : Type}.

Lemma xruns_runs {A} (m : K uend (ustate W) A) s Q : runs m s Q → runs_or_exit m s Q.
Proof. intros (a & s' & Hm & HQ). unfold runs_or_exit. by rewrite Hm. Qed.

Lemma xruns_bind {A B} (m : K uend (ustate W) A) (f : A → K uend (ustate W) B) s Q :
  runs_or_exit m s (λ a s', runs_or_exit (f a) s' Q) → runs_or_exit (m ≫= f) s Q.
Proof. unfold runs_or_exit. rewrite K_bind_eq. destruct (m s) as [| |[] |]; simpl; done. Qed.

Lemma xruns_conseq {A} (m : K uend (ustate W) A) s (P Q : A → ustate W → Prop) :
  runs_or_exit m s P → (∀ a s', P a s' → Q a s') → runs_or_exit m s Q.
Proof. unfold runs_or_exit. destruct (m s) as [| |[] |]; auto. Qed.
End exits.

Section below.
Context {W : Type} `{OS : Os W} `{HO : !HeapOs W} {z : Z}.

Lemma bruns_runs {A} (m : K uend (ustate W) A) s Q : runs m s Q → runs_below z m s Q.
Proof. intros (a & s' & Hm & HQ). unfold runs_below. by rewrite Hm. Qed.

Lemma bruns_bind {A B} (m : K uend (ustate W) A) (f : A → K uend (ustate W) B) s Q :
  runs_below z m s (λ a s', runs_below z (f a) s' Q) → runs_below z (m ≫= f) s Q.
Proof. unfold runs_below. rewrite K_bind_eq. destruct (m s) as [| |[] |]; simpl; done. Qed.

Lemma bruns_conseq {A} (m : K uend (ustate W) A) s (P Q : A → ustate W → Prop) :
  runs_below z m s P → (∀ a s', P a s' → Q a s') → runs_below z m s Q.
Proof. unfold runs_below. destruct (m s) as [| |[] |]; auto. Qed.

Lemma bruns_exit {A} (m : K uend (ustate W) A) s Q : runs_below z m s Q → runs_or_exit m s Q.
Proof. unfold runs_below, runs_or_exit. destruct (m s) as [| |[] |]; naive_solver. Qed.

(** With that memory, it goes on. *)
Lemma bruns_top {A} (m : K uend (ustate W) A) s Q : runs_below z m s Q → z ≤ os_top → runs m s Q.
Proof. unfold runs_below, runs. intros Hm Hz. destruct (m s) as [a s'| |[] |]; try done; [eauto|]. destruct Hm. lia. Qed.
End below.

Tactic Notation "xcall" uconstr(H) := eapply xruns_conseq; [eapply H|].
Tactic Notation "xcallr" uconstr(H) := eapply xruns_conseq; [eapply xruns_runs, H|].
Tactic Notation "bcall" uconstr(H) := eapply bruns_conseq; [eapply H|].
Tactic Notation "bcallr" uconstr(H) := eapply bruns_conseq; [eapply bruns_runs, H|].
Ltac xstep :=
  match goal with
  | |- runs_below _ (mbind _ _) _ _ => apply bruns_bind
  | |- runs_below _ (mret _) _ _ => apply bruns_runs, runs_ret
  | |- runs_below _ (gets _) _ _ => apply bruns_runs, runs_gets
  | |- runs_below _ (modify _) _ _ => apply bruns_runs, runs_modify
  | |- runs_or_exit (mbind _ _) _ _ => apply xruns_bind
  | |- runs_or_exit (mret _) _ _ => apply xruns_runs, runs_ret
  | |- runs_or_exit (gets _) _ _ => apply xruns_runs, runs_gets
  | |- runs_or_exit (modify _) _ _ => apply xruns_runs, runs_modify
  end.

(** ** Text in memory *)

Lemma text_app m a l1 l2 : text m a (l1 ++ l2) ↔ text m a l1 ∧ text m (a + Z.of_nat (length l1)) l2.
Proof.
  split.
  - intros Ht. split; intros i c Hc.
    + apply Ht. by apply lookup_app_l_Some.
    + rewrite <-Z.add_assoc, <-Nat2Z.inj_add. apply Ht. rewrite lookup_app_r by lia. by replace (length l1 + i - length l1)%nat with i by lia.
  - intros [H1 H2] i c Hc. apply lookup_app_Some in Hc as [Hc|[Hi Hc]]; [by apply H1|].
    apply H2 in Hc. rewrite <-Hc. f_equal. lia.
Qed.

Lemma text_ext m m' a l lo :
  text m a l → a + Z.of_nat (length l) ≤ lo → (∀ x, x < lo → mget m' x = mget m x) → text m' a l.
Proof. intros Ht Ha He i c Hc. rewrite He; [by apply Ht|]. apply lookup_lt_Some in Hc. lia. Qed.

Section scan.
Context {W : Type} `{OS : Os W} `{RN : Rounds}.
Implicit Types s : ustate W.

Lemma skip_white_spec k : ∀ fuel a c rest s,
  text (u_mem s) a (replicate k 32 ++ c :: rest) → c = 0 ∨ c ∉ WHITESPACE → (k < fuel)%nat →
  runs (loop fuel (λ i, c ← ldb i; mret (if negb (c =? 0) && in_set WHITESPACE c then inl (i + 1) else inr i)) a) s
    (λ i s', i = a + Z.of_nat k ∧ s' = s).
Proof.
  induction k as [|k IH]; intros fuel a c rest s Ht Hc Hf; (destruct fuel as [|fuel]; [lia|]); cbn [loop].
  - pose proof (Ht 0%nat c eq_refl) as E. rewrite Z.add_0_r in *. unfold ldb. kstep. kstep. kstep. kstep. rewrite E.
    replace (negb (c =? 0) && in_set WHITESPACE c) with false; [by kstep|]. unfold in_set. destruct Hc as [->|Hc]; [done|].
    by rewrite bool_decide_eq_false_2, andb_false_r by done.
  - pose proof (Ht 0%nat 32 eq_refl) as E. rewrite Z.add_0_r in E. unfold ldb. kstep. kstep. kstep. kstep. rewrite E. cbn [Z.eqb negb andb].
    change (in_set WHITESPACE 32) with true. cbn [andb].
    kcall (IH fuel (a + 1) c rest s); [|done|lia|].
    + apply (text_app _ a [32]) in Ht as [_ Ht]. exact Ht.
    + intros i s' [-> ->]. split; [lia|done].
Qed.

(** The characters that end a word. *)
Definition stops (c : Z) : Prop := c = 0 ∨ c ∈ WHITESPACE ∨ c ∈ OPERATORS.

Lemma end_of_word_spec w : ∀ fuel i c rest s,
  text (u_mem s) (i + 1) (w ++ c :: rest) → Forall plain w → stops c → (length w < fuel)%nat →
  runs (loop fuel (λ i, let i := i + 1 in c ← ldb i;
      mret (if negb (c =? 0) && negb (in_set WHITESPACE c) && negb (in_set OPERATORS c) then inl i else inr i)) i) s
    (λ j s', j = i + 1 + Z.of_nat (length w) ∧ s' = s).
Proof.
  induction w as [|d w IH]; intros fuel i c rest s Ht Hw Hc Hf; (destruct fuel as [|fuel]; [simpl in Hf; lia|]); cbn [loop].
  - pose proof (Ht 0%nat c eq_refl) as E. rewrite Z.add_0_r in E. unfold ldb. kstep. kstep. kstep. kstep. rewrite E.
    replace (negb (c =? 0) && negb (in_set WHITESPACE c) && negb (in_set OPERATORS c)) with false.
    { kstep. split; [simpl; lia|done]. }
    unfold in_set. destruct Hc as [->|[Hc|Hc]]; [done| |]; rewrite (bool_decide_eq_true_2 (c ∈ _) Hc), ?andb_false_r; done.
  - apply Forall_cons in Hw as [(D1 & D2 & D3) Hw]. pose proof (Ht 0%nat d eq_refl) as E. rewrite Z.add_0_r in E.
    unfold ldb. kstep. kstep. kstep. kstep. rewrite E. unfold in_set.
    rewrite (proj2 (Z.eqb_neq d 0)), !bool_decide_eq_false_2 by done. cbn [negb andb].
    kcall (IH fuel (i + 1) c rest s); [|done|done|simpl in Hf; lia|].
    + apply (text_app _ (i + 1) [d]) in Ht as [_ Ht]. exact Ht.
    + intros j s' [-> ->]. split; [simpl; lia|done].
Qed.
End scan.

(** ** Tokens *)

Section tokens.
Context {W : Type} `{OS : Os W} `{HO : !HeapOs W} `{RN : Rounds} {lo : Z}.
Implicit Types s : ustate W.

Lemma write_bytes_runs fd l s : runs (write_bytes fd l) s (λ _ _, True).
Proof.
  unfold write_bytes, call. kstep. kstep. eapply runs_ok; [done|]. destruct (os_write fd l (u_os s)). kstep. kstep. kstep. by kstep.
Qed.

Lemma sh_panic_exits {A} str s (Q : A → ustate W → Prop) z : os_top < z → runs_below z (sh_panic str) s Q.
Proof.
  intros Hz. unfold sh_panic. xstep. eapply (bruns_conseq _ _ (λ _ _, True)); [apply bruns_runs|by intros].
  unfold dprintf, vdprintf. kstep. match goal with |- runs _ _ (λ _ s', runs ?m s' _) => apply (runs_conseq _ _ (λ _ _, True)) end;
    [|by intros; kstep].
  change (bytes _) with [37; 115; 10] at 1 2. cbn [length vdprintf_from negb Z.eqb Pos.eqb vdprintf_conv orb].
  kstep. kstep. kcall (write_bytes_runs 2 (bytes str)). intros [] s1 _. kstep. cbn [negb Z.eqb Pos.eqb]. kstep.
  kcall (write_bytes_runs 2 [10]). intros [] s2 _. by kstep.
Qed.

(** Below the heap nothing changes. *)
Definition same_below (s s' : ustate W) : Prop := ∀ x, x < lo → mget (u_mem s') x = mget (u_mem s) x.

(** The end of the memory moves by at most [n]. *)
Definition brk_grows (n : Z) (s s' : ustate W) : Prop := os_brk (u_os s') ≤ os_brk (u_os s) + n.

Lemma malloc1_spec z size bl s :
  heap_ok lo bl s → (length bl < rounds)%nat → 0 < size < 2 ^ 63 → os_brk (u_os s) + BLOCK_HDR + size ≤ z →
  runs_below z (malloc1 size) s (λ p s', ∃ l1 b l2, heap_ok lo (l1 ++ b :: l2) s' ∧ p = hb_addr b + BLOCK_HDR ∧
    size ≤ hb_size b ∧ (length (l1 ++ b :: l2) ≤ S (length bl))%nat ∧ same_below s s' ∧ brk_grows (BLOCK_HDR + size) s s').
Proof.
  intros Hok Hr Hsz Hz. unfold malloc1. xstep. bcallr (malloc_spec size bl s Hok Hr Hsz).
  intros p s1 [Hg [(-> & Hfull & _)|(l1 & b & l2 & H1 & -> & Hge & Hf & _ & Hl & [_ K1])]].
  - rewrite Z.eqb_refl. apply sh_panic_exits. lia.
  - destruct (placed_bounds _ _ _ b (ho_placed _ _ _ H1)) as (B1 & _); [set_solver|]. pose proof (ho_lo _ _ _ H1).
    rewrite (proj2 (Z.eqb_neq _ _)) by (unfold BLOCK_HDR; lia). xstep. exists l1, b, l2.
    split_and!; [done..| |done|unfold brk_grows; lia]. rewrite length_app in *. simpl. lia.
Qed.

(** The memory that a token takes. *)
Definition TOKEN_ROOM : Z := BLOCK_HDR + TOKEN_SIZE.

Lemma token_new_below z type lexeme len bl s :
  heap_ok lo bl s → (length bl < rounds)%nat → os_brk (u_os s) + TOKEN_ROOM ≤ z →
  runs_below z (token_new type lexeme len) s (λ t s', tk_type t = type ∧ tk_lexeme t = lexeme ∧ tk_len t = len ∧
    (∃ bl', heap_ok lo bl' s' ∧ (length bl' ≤ S (length bl))%nat ∧ same_below s s') ∧ brk_grows TOKEN_ROOM s s').
Proof.
  intros Hok Hr Hz. unfold token_new. xstep. bcall (malloc1_spec z TOKEN_SIZE bl s Hok Hr); [done|unfold TOKEN_ROOM in Hz; lia|].
  intros p s1 (l1 & b & l2 & H1 & _ & _ & Hl & K1 & G1). xstep. split_and!; eauto.
Qed.

Lemma token_new_spec type lexeme len bl s :
  heap_ok lo bl s → (length bl < rounds)%nat →
  runs_or_exit (token_new type lexeme len) s (λ t s', tk_type t = type ∧ tk_lexeme t = lexeme ∧ tk_len t = len ∧
    ∃ bl', heap_ok lo bl' s' ∧ (length bl' ≤ S (length bl))%nat ∧ same_below s s').
Proof.
  intros Hok Hr. eapply bruns_exit, bruns_conseq; [by eapply token_new_below|]. by intros t s1 (T1 & T2 & T3 & G & _).
Qed.

(** A word after blanks. *)
Lemma get_token_word z bl s a k w c :
  heap_ok lo bl s → (length bl < rounds)%nat → text (u_mem s) a (replicate k 32 ++ w ++ [c]) →
  a + Z.of_nat (k + length w + 1) ≤ lo → chunk w → stops c → c ≠ 62 → (k + length w < rounds)%nat →
  os_brk (u_os s) + TOKEN_ROOM ≤ z →
  runs_below z (get_token a) s (λ '(t, i) s', tk_type t = TOK_ARG ∧ tk_lexeme t = a + Z.of_nat k ∧
    tk_len t = Z.of_nat (length w) ∧ i = a + Z.of_nat (k + length w) ∧
    (∃ bl', heap_ok lo bl' s' ∧ (length bl' ≤ S (length bl))%nat ∧ same_below s s') ∧ brk_grows TOKEN_ROOM s s').
Proof.
  intros Hok Hb Ht Ha (d & r & -> & Hd & Hr') Hc Hc62 Hr Hz. cbn [app length] in *.
  assert (d ≠ 0 ∧ d ∉ WHITESPACE ∧ d ≠ 124 ∧ d ≠ 62 ∧ d ≠ 60) as (D1 & D2 & D3 & D4 & D5).
  { destruct Hd as [(D1 & D2 & D3)| ->]; [unfold OPERATORS in D3; set_solver|]. split_and!; try done. apply (bool_decide_unpack _). by vm_compute. }
  unfold get_token. xstep. bcallr (skip_white_spec k rounds a d (r ++ [c]) s Ht); [by right|lia|]. intros ? ? [-> ->].
  apply text_app in Ht as [_ Ht]. rewrite length_replicate in Ht. set (i := a + Z.of_nat k) in *.
  pose proof (Ht 0%nat d eq_refl) as E. rewrite Z.add_0_r in E.
  assert (mget (u_mem s) (i + 1) ≠ 62) as E1.
  { change 1 with (Z.of_nat 1). destruct r as [|d' r]; [by rewrite (Ht 1%nat c eq_refl)|]. rewrite (Ht 1%nat d' eq_refl).
    apply Forall_cons in Hr' as [(_ & _ & Hn) _]. unfold OPERATORS in Hn. set_solver. }
  unfold ldb. do 6 xstep. rewrite E.
  rewrite (proj2 (Z.eqb_neq d 0)), (proj2 (Z.eqb_neq d 124)), (proj2 (Z.eqb_neq d 62)), (proj2 (Z.eqb_neq d 60)),
    (proj2 (Z.eqb_neq _ _) E1), andb_false_r by done.
  unfold get_word. xstep. bcall (token_new_below z TOK_ARG i 1 bl s Hok Hb Hz).
  intros t s1 (_ & _ & _ & (bl1 & H1 & L1 & K1) & G1). xstep. unfold end_of_word.
  bcallr (end_of_word_spec r rounds i c [] s1); [|done|done|lia|].
  { apply (text_app _ i [d]) in Ht as [_ Ht]. eapply text_ext; [exact Ht| |exact K1]. rewrite length_app. simpl. lia. }
  intros j s2 [-> ->]. xstep. cbn [tk_type tk_lexeme tk_len]. split_and!; [done|done|lia|lia|eauto|done].
Qed.

(** The end of the line. *)
Lemma get_token_end z bl s a k :
  heap_ok lo bl s → (length bl < rounds)%nat → text (u_mem s) a (replicate k 32 ++ [0]) → (k < rounds)%nat →
  os_brk (u_os s) + TOKEN_ROOM ≤ z →
  runs_below z (get_token a) s (λ '(t, i) s', tk_type t = TOK_EOF ∧
    (∃ bl', heap_ok lo bl' s' ∧ (length bl' ≤ S (length bl))%nat ∧ same_below s s') ∧ brk_grows TOKEN_ROOM s s').
Proof.
  intros Hok Hb Ht Hr Hz. unfold get_token. xstep.
  bcallr (skip_white_spec k rounds a 0 [] s Ht); [by left|lia|]. intros ? ? [-> ->].
  apply text_app in Ht as [_ Ht]. rewrite length_replicate in Ht. set (i := a + Z.of_nat k) in *.
  pose proof (Ht 0%nat 0 eq_refl) as E. rewrite Z.add_0_r in E. unfold ldb. do 6 xstep. rewrite E. cbn [Z.eqb].
  xstep. bcall (token_new_below z TOK_EOF 0 0 bl s Hok Hb Hz). intros t s1 (T1 & _ & _ & H1). xstep. split; [done|exact H1].
Qed.

Lemma after_word l t :
  Forall (λ x, chunk x.2) l → Forall parted l → ∃ c rest, render_line l t ++ [0] = c :: rest ∧ stops c ∧ c ≠ 62.
Proof.
  intros Hw Hl. destruct l as [|[k w] l]; cbn [render_line].
  - destruct t as [|t]; cbn [replicate app]; [exists 0, []|exists 32, (replicate t 32 ++ [0])]; (split_and!; [done| |done]); [by left|].
    right. left. by left.
  - apply Forall_cons in Hl as [Hk _]. destruct k as [|k].
    + apply Forall_cons in Hw as [(c & r & E & _) _]. cbn in E. subst w. destruct Hk as [Hk|Hk]; cbn in Hk; [lia|]. injection Hk as ->. cbn [replicate app].
      eexists 50, _. split_and!; [done| |done]. right. right. by left.
    + cbn [replicate app]. eexists 32, _. split_and!; [done| |done]. right. left. by left.
Qed.

Lemma same_below_trans s1 s2 s3 : same_below s1 s2 → same_below s2 s3 → same_below s1 s3.
Proof. intros H1 H2 x Hx. rewrite H2, H1 by done. done. Qed.

Lemma parse_line_spec z t l : ∀ a acc bl s fuel,
  heap_ok lo bl s → (length bl + length l < rounds)%nat → text (u_mem s) a (render_line l t ++ [0]) →
  a + Z.of_nat (length (render_line l t) + 1) ≤ lo → Forall (λ x, chunk x.2) l → spaced l →
  (length (render_line l t) < rounds)%nat → (length l < fuel)%nat →
  os_brk (u_os s) + TOKEN_ROOM * Z.of_nat (S (length l)) ≤ z →
  runs_below z (loop fuel (λ '(toks, input),
       '(tok, input) ← get_token input;
       let toks := toks ++ [tok] in
       mret (if decide (tk_type tok = TOK_EOF) then inr toks else inl (toks, input))) (acc, a)) s
    (λ r s', ∃ toks bl', r = acc ++ toks ∧ tokens_at a l toks ∧ heap_ok lo bl' s' ∧
      (length bl' ≤ length bl + length l + 1)%nat ∧ same_below s s' ∧ brk_grows (TOKEN_ROOM * Z.of_nat (S (length l))) s s').
Proof.
  unfold brk_grows. induction l as [|[k w] l IH]; intros a acc bl s fuel Hok Hb Ht Ha Hw Hsp Hr Hf Hz;
    (destruct fuel as [|fuel]; [simpl in Hf; lia|]); cbn [loop render_line length] in *.
  - rewrite length_replicate in *. xstep. xstep. bcall (get_token_end z bl s a t Hok); [lia|done|lia|lia|].
    intros [tok i] s1 (T1 & (bl1 & H1 & L1 & K1) & G1). xstep. rewrite decide_True by done. xstep. exists [tok], bl1.
    split_and!; [done|done|done|lia|done|unfold brk_grows in G1; lia].
  - apply Forall_cons in Hw as [Hw1 Hw]. cbn [snd] in Hw1. destruct (after_word l t Hw Hsp) as (c & rest & Ec & Hc & Hc62).
    rewrite !length_app, length_replicate in *. rewrite <-!(assoc_L (++)), Ec in Ht.
    xstep. xstep. bcall (get_token_word z bl s a k w c Hok); [lia| |lia|done|done|done|lia|unfold TOKEN_ROOM, BLOCK_HDR, TOKEN_SIZE in *; lia|].
    { intros i x Hi. apply Ht. rewrite cons_middle, !(assoc_L (++)). rewrite !(assoc_L (++)) in Hi. by apply lookup_app_l_Some. }
    intros [tok i] s1 (T1 & T2 & T3 & -> & (bl1 & H1 & L1 & K1) & G1). unfold brk_grows in G1. xstep. rewrite decide_False by congruence.
    bcall (IH (a + Z.of_nat (k + length w)) (acc ++ [tok]) bl1 s1 fuel H1); [lia| |lia|done| |lia|simpl in Hf; lia|lia|].
    + rewrite (assoc_L (++)), <-Ec in Ht. apply text_app in Ht as [_ Ht]. rewrite length_app, length_replicate in Ht.
      eapply text_ext; [exact Ht| |exact K1]. rewrite length_app. simpl. lia.
    + unfold spaced in *. simpl in Hsp. destruct l as [|x l]; [done|]. by apply Forall_cons in Hsp as [_ Hsp].
    + intros r s2 (toks & bl2 & -> & Ht2 & H2 & L2 & K2 & G2). exists (tok :: toks), bl2. rewrite <-(assoc_L (++)).
      split_and!; [done|done|done|lia|by eapply same_below_trans|lia].
Qed.
End tokens.

(** ** Arguments *)

(** Where the words of a line at [a] start, and the bytes after them. *)
Fixpoint starts (a : Z) (l : list (nat * list Z)) : list Z :=
  match l with
  | [] => []
  | (k, w) :: l => (a + Z.of_nat k) :: starts (a + Z.of_nat (k + length w)) l
  end.
Fixpoint ends (a : Z) (l : list (nat * list Z)) : list Z :=
  match l with
  | [] => []
  | (k, w) :: l => let e := a + Z.of_nat (k + length w) in e :: ends e l
  end.

(** The memory below [lo] with the bytes at [es] cleared. *)
Definition cleared (lo : Z) (es : list Z) (m m' : memory) : Prop :=
  ∀ x, x < lo → mget m' x = if decide (x ∈ es) then 0 else mget m x.

Lemma ends_ge a l x : x ∈ ends a l → a ≤ x.
Proof.
  revert a. induction l as [|[k w] l IH]; intros a Hx; cbn [ends] in Hx; [by apply elem_of_nil in Hx|].
  apply elem_of_cons in Hx as [->|Hx]; [lia|]. apply IH in Hx. lia.
Qed.

Lemma ends_lt a l t x : x ∈ ends a l → x < a + Z.of_nat (length (render_line l t) + 1).
Proof.
  revert a. induction l as [|[k w] l IH]; intros a Hx; cbn [ends render_line] in *; [by apply elem_of_nil in Hx|].
  rewrite !length_app, length_replicate. apply elem_of_cons in Hx as [->|Hx]; [lia|]. apply IH in Hx. lia.
Qed.

(** What the program finds at the start of each word, when the bytes after the
    words are cleared: nothing where a word follows the one before it at once. *)
Fixpoint args_of (first : bool) (l : list (nat * list Z)) : list (list Z) :=
  match l with
  | [] => []
  | (k, w) :: l => (if first || (0 <? k)%nat then w else []) :: args_of false l
  end.

Lemma words_cut lo t l : ∀ first a m m',
  text m a (render_line l t ++ [0]) → a + Z.of_nat (length (render_line l t) + 1) ≤ lo →
  Forall (λ x, chunk x.2) l →
  (∀ x, a ≤ x < lo → mget m' x = if decide (x ∈ ends a l ∨ first = false ∧ x = a) then 0 else mget m x) →
  ∀ j w, args_of first l !! j = Some w → ∃ st, starts a l !! j = Some st ∧ cstr (rd m' st) w.
Proof.
  induction l as [|[k w] l IH]; intros first a m m' Ht Ha Hw Hm; [done|]. cbn [render_line starts ends args_of] in *.
  apply Forall_cons in Hw as [Hch Hw]. cbn [snd] in *. rewrite !length_app, length_replicate in Ha.
  rewrite <-!(assoc_L (++)) in Ht. apply text_app in Ht as [_ Ht]. rewrite length_replicate in Ht. apply text_app in Ht as [Tw Tr].
  assert (Forall (λ c, c ≠ 0) w ∧ (0 < length w)%nat) as [Hpl Hlen].
  { destruct Hch as (c & r & -> & Hc & Hr). split; [|simpl; lia]. constructor.
    - by destruct Hc as [(? & _)| ->].
    - eapply Forall_impl; [exact Hr|]. by intros d (? & _). }
  intros [|j] w' Hj.
  - simpl in Hj. injection Hj as <-. eexists. split; [done|]. destruct (first || (0 <? k)%nat) eqn:Ef.
    + assert (first = false → (0 < k)%nat) as Hk by (intros ->; by apply Nat.ltb_lt). split.
      * intros i c Hc. apply lookup_lt_Some in Hc as Hi. unfold rd. rewrite Hm by lia. rewrite decide_False.
        -- rewrite (Tw i c Hc). split; [done|]. apply (Forall_lookup_1 _ _ _ _ Hpl Hc).
        -- intros [[Hx|Hx]%elem_of_cons|[Hf Hx]]; [lia| |specialize (Hk Hf); lia]. apply ends_ge in Hx. lia.
      * unfold rd. rewrite Hm by lia. rewrite decide_True; [done|]. left. apply elem_of_cons. left. lia.
    + apply orb_false_iff in Ef as [-> Hk%Nat.ltb_ge]. split; [done|]. unfold rd. rewrite Hm by (simpl; lia).
      rewrite decide_True; [done|]. right. split; [done|simpl; lia].
  - simpl in Hj. apply (IH false (a + Z.of_nat (k + length w)) m m'); [|lia|done| |done].
    + by replace (a + Z.of_nat (k + length w)) with (a + Z.of_nat k + Z.of_nat (length w)) by lia.
    + intros x Hx. rewrite Hm by lia. apply decide_ext. rewrite elem_of_cons. split; [|naive_solver].
      intros [[?|?]|[_ ?]]; [by right|by left|lia].
Qed.

Lemma first_op_none a l toks j : tokens_at a l toks → first_op toks j = None.
Proof.
  revert a toks j. induction l as [|[k w] l IH]; intros a toks j Ht; destruct toks as [|t toks]; cbn [tokens_at first_op] in *; try done.
  - destruct toks; [|done]. by rewrite Ht.
  - destruct Ht as (-> & _ & _ & Ht). by eapply IH.
Qed.

Lemma tokens_length a l toks : tokens_at a l toks → length toks = S (length l).
Proof.
  revert a toks. induction l as [|[k w] l IH]; intros a toks Ht; destruct toks as [|t toks]; cbn [tokens_at] in Ht; try done.
  - by destruct toks.
  - destruct Ht as (_ & _ & _ & Ht%IH). simpl. by rewrite Ht.
Qed.

Section commands.
Context {W : Type} `{OS : Os W} `{HO : !HeapOs W} `{RN : Rounds} {lo : Z}.
Implicit Types s : ustate W.

Lemma parse_args_spec toks0 p l : ∀ a toks k argc fuel s,
  tokens_at a l toks → drop k toks0 = toks → (argc + length l ≤ MAX_ARGS)%nat → (length l < fuel)%nat → lo ≤ p →
  (∀ e, e ∈ ends a l → e < lo) → (∀ z, z ∈ starts a l → 0 ≤ z < 2 ^ 64) →
  runs (parse_args fuel toks0 k p argc) s (λ _ s', cleared lo (ends a l) (u_mem s) (u_mem s') ∧
    (∀ j z, starts a l !! j = Some z → ld64 (u_mem s') (p + 8 + 8 * Z.of_nat (argc + j)) = z) ∧
    (∀ j, (j < argc ∨ argc + length l ≤ j)%nat → ld64 (u_mem s') (p + 8 + 8 * Z.of_nat j) = ld64 (u_mem s) (p + 8 + 8 * Z.of_nat j))).
Proof.
  induction l as [|[n w] l IH]; intros a toks k argc fuel s Ht Hd Hargc Hf Hp He Hz;
    (destruct fuel as [|fuel]; [simpl in Hf; lia|]); destruct toks as [|t toks]; cbn [tokens_at] in Ht; try done; cbn [parse_args].
  all: assert (toks0 !! k = Some t) as Hk by (rewrite <-(Nat.add_0_r k), <-lookup_drop, Hd; done).
  all: unfold tok_at; rewrite Hk; kstep; kstep.
  { destruct toks; [|done]. rewrite decide_True by done. kstep. split_and!; [|done|done]. intros x Hx. by rewrite decide_False by set_solver. }
  destruct Ht as (T1 & T2 & T3 & Ht). rewrite decide_False by congruence. cbn [starts ends length] in *.
  unfold stb. kstep. kstep. rewrite (proj2 (Nat.ltb_lt _ _)) by lia. kstep. kstep. rewrite T2, T3.
  set (e := a + Z.of_nat n + Z.of_nat (length w)). set (s1 := set_u_mem (st64 _ _ _) _).
  assert (e = a + Z.of_nat (n + length w)) as Ee by lia. rewrite <-Ee in *.
  assert (e < lo) as Hel by (apply He; left).
  assert (∀ x, x ≠ e → x < p + 8 + 8 * Z.of_nat argc ∨ p + 16 + 8 * Z.of_nat argc ≤ x → mget (u_mem s1) x = mget (u_mem s) x) as Hm.
  { intros x Hx Hx'. unfold s1. cbn [u_mem set_u_mem]. rewrite mget_stn_out by lia. by rewrite mget_mset_ne. }
  assert (ld64 (u_mem s1) (p + 8 + 8 * Z.of_nat argc) = a + Z.of_nat n) as Hst.
  { unfold s1. cbn [u_mem set_u_mem]. apply ldn_stn. apply Hz. left. }
  assert (mget (u_mem s1) e = 0) as Hez.
  { unfold s1. cbn [u_mem set_u_mem]. rewrite mget_stn_out by lia. by rewrite mget_mset_eq. }
  kcall (IH e toks (S k) (S argc) fuel s1 Ht); [|lia|simpl in Hf; lia|done| | |].
  { rewrite <-Nat.add_1_r, <-drop_drop, Hd. done. }
  { intros e' He'. apply He. by right. }
  { intros z Hz'. apply Hz. by right. }
  intros [] s2 (C2 & S2 & R2). split_and!.
  - intros x Hx. rewrite C2 by done. destruct (decide (x ∈ ends e l)) as [Hi|Hi].
    + rewrite decide_True; [done|]. by right.
    + destruct (decide (x = e)) as [->|Hne]; [rewrite decide_True by left; done|].
      rewrite decide_False by (intros [?|?]%elem_of_cons; done). apply Hm; [done|]. lia.
  - intros [|j] z Hj; cbn in Hj.
    + simplify_eq. rewrite Nat.add_0_r, R2 by lia. exact Hst.
    + replace (argc + S j)%nat with (S argc + j)%nat by lia. by apply S2.
  - intros j Hj. rewrite R2 by lia. apply ldn_ext. intros x Hx. apply Hm; lia.
Qed.

(** The memory that a command with arguments takes. *)
Definition EXEC_ROOM : Z := BLOCK_HDR + EXEC_SIZE.

Lemma exec_command_new_spec z bl s :
  heap_ok lo bl s → (length bl < rounds)%nat → os_brk (u_os s) + EXEC_ROOM ≤ z →
  runs_below z exec_command_new s (λ p s', lo ≤ p ∧ same_below (lo := lo) s s' ∧
    ∀ j, (j < MAX_ARGS)%nat → ld64 (u_mem s') (p + 8 + 8 * Z.of_nat j) = 0).
Proof.
  intros Hok Hb Hz. unfold exec_command_new. xstep. bcall (malloc1_spec z EXEC_SIZE bl s Hok Hb); [done|unfold EXEC_ROOM in Hz; lia|].
  intros p s1 (l1 & b & l2 & H1 & -> & _ & _ & K1 & _).
  destruct (placed_bounds _ _ _ b (ho_placed _ _ _ H1)) as (B1 & _); [set_solver|]. unfold BLOCK_HDR, ULib.memset. xstep. xstep. xstep.
  cbn [u_mem set_u_mem]. split_and!; [lia| |].
  - intros x Hx. cbn [u_mem set_u_mem]. rewrite mget_memset, decide_False by lia. by apply K1.
  - intros j Hj. unfold MAX_ARGS in Hj. apply ldn_zero. intros x Hx. rewrite mget_memset, decide_True; [done|].
    unfold MAX_ARGS. lia.
Qed.

Lemma starts_bound a l t z : z ∈ starts a l → a ≤ z ≤ a + Z.of_nat (length (render_line l t)).
Proof.
  revert a. induction l as [|[k w] l IH]; intros a Hz; cbn [starts render_line] in *; [by apply elem_of_nil in Hz|].
  rewrite !length_app, length_replicate. apply elem_of_cons in Hz as [->|Hz]; [lia|]. apply IH in Hz. lia.
Qed.

(** The strings [ws] are what the array at [a] points to, and the null pointer
    is after them. *)
Definition argv_at (m : memory) (a : Z) (ws : list (list Z)) : Prop :=
  (∀ j w, ws !! j = Some w → cstr (rd m (ld64 m (a + 8 * Z.of_nat j))) w) ∧ ld64 m (a + 8 * Z.of_nat (length ws)) = 0.

(** The memory that the shell takes for a line of [n] words. *)
Definition line_room (n : nat) : Z := TOKEN_ROOM * Z.of_nat (S n) + EXEC_ROOM.

Lemma length_args_of first l : length (args_of first l) = length l.
Proof. revert first. induction l as [|[k w] l IH]; intros first; cbn; [done|]. by rewrite IH. Qed.

(** A line without operators becomes a command. *)
Lemma parse_words_spec bl s buf l t :
  heap_ok lo bl s → text (u_mem s) buf (render_line l t ++ [0]) →
  0 < buf → buf + Z.of_nat (length (render_line l t) + 1) ≤ lo → lo < 2 ^ 63 →
  Forall (λ x, chunk x.2) l → spaced l → (0 < length l < MAX_ARGS)%nat →
  (length bl + length l + 1 < rounds)%nat → (length (render_line l t) < rounds)%nat →
  os_brk (u_os s) + line_room (length l) ≤ os_top →
  runs (toks ← parse_line buf; parse_cmd (S (length toks)) toks 0) s (λ c s',
    ∃ p, c = Some (CExec p) ∧ argv_at (u_mem s') (p + 8) (args_of true l) ∧ ld64 (u_mem s') (p + 8) ≠ 0).
Proof.
  intros Hok Ht Hb0 Hb Hlo Hw Hsp Hl Hr1 Hr2 Hz. set (z := os_brk (u_os s) + line_room (length l)) in *. eapply bruns_top; [|exact Hz].
  assert (os_brk (u_os s) + TOKEN_ROOM * Z.of_nat (S (length l)) + EXEC_ROOM ≤ z) as Hz' by (unfold z, line_room; lia). clearbody z.
  assert (0 ≤ EXEC_ROOM) as Hx by by vm_compute. unfold parse_line. xstep.
  bcall (parse_line_spec z t l buf [] bl s rounds Hok); [lia|done|done|done|done|done|lia|lia|].
  intros toks s1 (? & bl1 & -> & Hto & H1 & L1 & K1 & G1). rewrite app_nil_l. set (toks := x) in *. clearbody toks. clear x.
  cbn [parse_cmd]. xstep. unfold tok_at. destruct l as [|[k0 w0] l]; [simpl in Hl; lia|].
  destruct toks as [|t0 toks]; [done|]. pose proof Hto as (T1 & _). change ((t0 :: toks) !! 0%nat) with (Some t0). cbn iota. xstep.
  rewrite decide_False by congruence. rewrite drop_0, (first_op_none _ _ _ 0 Hto). unfold parse_exec. xstep. xstep.
  bcall (exec_command_new_spec z bl1 s1 H1); [lia|unfold brk_grows in G1; lia|]. intros p s2 (Hp & K2 & Z2). xstep.
  set (L := (k0, w0) :: l) in *. set (T := t0 :: toks) in *.
  bcallr (parse_args_spec T p L buf T 0 0 (S (length T)) s2 Hto); [done|lia| |done| | |].
  { rewrite (tokens_length _ _ _ Hto). lia. }
  { intros e He. pose proof (ends_lt _ _ t _ He). lia. }
  { intros y Hy. pose proof (starts_bound _ _ t _ Hy). lia. }
  intros [] s3 (C3 & S3 & R3). xstep. xstep. exists p. split_and!; [done|split|].
  - intros j w Hj. destruct (words_cut lo t L true buf (u_mem s2) (u_mem s3)) with j w as (st & Hst & Hc); try done.
    + eapply (text_ext _ _ _ _ lo); [exact Ht| |]; [rewrite length_app; cbn [length]; lia|]. intros x Hxl. rewrite K2, K1 by done. done.
    + intros x Hxl. rewrite C3 by lia. apply decide_ext. naive_solver.
    + rewrite <-(S3 j st Hst) in Hc. done.
  - rewrite length_args_of, R3 by lia. apply Z2. lia.
  - pose proof (S3 0%nat (buf + Z.of_nat k0) eq_refl) as E. replace (p + 8 + 8 * Z.of_nat (0 + 0)) with (p + 8) in E by lia. lia.
Qed.
End commands.

(** The bytes of a line at address 4096, with an empty heap from 8192 on. *)
Definition typed (l : list Z) : ustate break := mk_ustate (mwrite ∅ 4096 (l ++ [0])) 0 0 8192.
