(* ===== verification/ShellLex.v ===== *)
(** The tokeniser of the shell (user/sh.c: [parse_line], [get_token]) on an
    arbitrary line: it ends, and the lexemes are in the line, in order. *)

From S2P Require Import Prelude Mem Strings State Machine Mm Proc Sync Console Virtio Buf Log Inode Pipe File Fork Exec Sysfile ULib UHeap Shell ShellTheorems.

(** ** Definitions *)

(** Tokens in order between the addresses [a] and [z], and then the end. *)
Fixpoint lexed (a z : Z) (toks : list token) : Prop :=
  match toks with
  | [] => False
  | t :: toks =>
      if decide (tk_type t = TOK_EOF) then toks = []
      else a ≤ tk_lexeme t ∧ 0 < tk_len t ∧ tk_lexeme t + tk_len t ≤ z ∧ lexed (tk_lexeme t + tk_len t) z toks
  end.

(** The line [l] with its terminator is at [a]. *)
Definition line (m : memory) (a : Z) (l : list Z) : Prop := text m a (l ++ [0]) ∧ Forall (λ c, c ≠ 0) l.

(** ** The loops *)

Section lex.
Context {W : Type} `{OS : Os W} `{RN : Rounds}.
Implicit Types s : ustate W.

Lemma line_tail m a c l : line m a (c :: l) → mget m a = c ∧ c ≠ 0 ∧ line m (a + 1) l.
Proof.
  intros [Ht Hl]. apply Forall_cons in Hl as [Hc Hl]. change ((c :: l) ++ [0]) with ([c] ++ (l ++ [0])) in Ht.
  apply text_app in Ht as [H1 H2]. split_and!; [|done|by split]. rewrite <-(Z.add_0_r a). by apply (H1 0%nat).
Qed.

Lemma line_end m a : line m a [] → mget m a = 0.
Proof. intros [Ht _]. rewrite <-(Z.add_0_r a). by apply (Ht 0%nat). Qed.

Lemma line_drop m a l k : (k ≤ length l)%nat → line m a l → line m (a + Z.of_nat k) (drop k l).
Proof.
  revert a l. induction k as [|k IH]; intros a l Hk Hl; [by rewrite Z.add_0_r|].
  destruct l as [|c l]; [simpl in Hk; lia|]. apply line_tail in Hl as (_ & _ & Hl). simpl in Hk.
  replace (a + Z.of_nat (S k)) with (a + 1 + Z.of_nat k) by lia. apply IH; [lia|done].
Qed.

Lemma line_ext m m' a l lo :
  line m a l → a + Z.of_nat (length l) < lo → (∀ x, x < lo → mget m' x = mget m x) → line m' a l.
Proof. intros [Ht Hl] Ha He. split; [|done]. eapply text_ext; [exact Ht| |exact He]. rewrite length_app. simpl. lia. Qed.

Lemma skip_white_ends l : ∀ fuel a s,
  line (u_mem s) a l → (length l < fuel)%nat →
  runs (loop fuel (λ i, c ← ldb i; mret (if negb (c =? 0) && in_set WHITESPACE c then inl (i + 1) else inr i)) a) s
    (λ i s', s' = s ∧ ∃ k, (k ≤ length l)%nat ∧ i = a + Z.of_nat k).
Proof.
  induction l as [|c l IH]; intros fuel a s Hl Hf; (destruct fuel as [|fuel]; [simpl in Hf; lia|]); cbn [loop]; unfold ldb; do 4 kstep.
  - rewrite (line_end _ _ Hl). cbn [Z.eqb negb andb]. kstep. split; [done|]. exists 0%nat. simpl. lia.
  - apply line_tail in Hl as (-> & _ & Hl). destruct (negb (c =? 0) && in_set WHITESPACE c).
    + kcall (IH fuel (a + 1) s Hl); [simpl in Hf; lia|]. intros i s' (-> & k & Hk & ->). split; [done|]. exists (S k). simpl. lia.
    + kstep. split; [done|]. exists 0%nat. simpl. lia.
Qed.

Lemma end_of_word_ends l : ∀ fuel i s,
  line (u_mem s) (i + 1) l → (length l < fuel)%nat →
  runs (loop fuel (λ i, let i := i + 1 in c ← ldb i;
      mret (if negb (c =? 0) && negb (in_set WHITESPACE c) && negb (in_set OPERATORS c) then inl i else inr i)) i) s
    (λ j s', s' = s ∧ ∃ k, (k ≤ length l)%nat ∧ j = i + 1 + Z.of_nat k).
Proof.
  induction l as [|c l IH]; intros fuel i s Hl Hf; (destruct fuel as [|fuel]; [simpl in Hf; lia|]); cbn [loop]; unfold ldb; do 4 kstep.
  - rewrite (line_end _ _ Hl). cbn [Z.eqb negb andb]. kstep. split; [done|]. exists 0%nat. simpl. lia.
  - apply line_tail in Hl as (-> & _ & Hl). destruct (_ && _).
    + kcall (IH fuel (i + 1) s Hl); [simpl in Hf; lia|]. intros j s' (-> & k & Hk & ->). split; [done|]. exists (S k). simpl. lia.
    + kstep. split; [done|]. exists 0%nat. simpl. lia.
Qed.
End lex.

(** ** Tokens *)

Section tokens.
Context {W : Type} `{OS : Os W} `{HO : !HeapOs W} `{RN : Rounds} {lo : Z}.
Implicit Types s : ustate W.

(** One more block may be on the heap, and below it nothing changes. *)
Definition heap_grown (bl : list hblock) (s s' : ustate W) : Prop :=
  ∃ bl', heap_ok lo bl' s' ∧ (length bl' ≤ S (length bl))%nat ∧ same_below (lo := lo) s s'.

(** The token after [a] and the rest of the input. *)
Definition next_token (a z : Z) (t : token) (i : Z) : Prop :=
  tk_type t = TOK_EOF ∨
  tk_type t ≠ TOK_EOF ∧ a ≤ tk_lexeme t ∧ 0 < tk_len t ∧ i = tk_lexeme t + tk_len t ∧ i ≤ z.

Lemma operator_spec bl s a z i n type :
  heap_ok lo bl s → (length bl < rounds)%nat → type ≠ TOK_EOF → a ≤ i → 0 < n → i + n ≤ z →
  runs_or_exit (tok ← token_new type i n; mret (tok, i + n)) s (λ '(t, j) s', next_token a z t j ∧ heap_grown bl s s').
Proof.
  intros Hok Hb Hty Ha Hn Hz. xstep. xcall (token_new_spec type i n bl s Hok Hb). intros t s1 (T1 & T2 & T3 & G1). xstep.
  split; [|exact G1]. right. rewrite T1, T2, T3. done.
Qed.

Lemma get_word_ends bl s a z i l :
  heap_ok lo bl s → (length bl < rounds)%nat → line (u_mem s) (i + 1) l → (length l < rounds)%nat →
  a ≤ i → i + 1 + Z.of_nat (length l) ≤ z → z < lo →
  runs_or_exit (get_word i) s (λ '(t, j) s', next_token a z t j ∧ heap_grown bl s s').
Proof.
  intros Hok Hb Hl Hr Ha Hz Hlo. unfold get_word, end_of_word. xstep. xcall (token_new_spec TOK_ARG i 1 bl s Hok Hb).
  intros t s1 (_ & _ & _ & G1). pose proof G1 as (bl1 & _ & _ & K1).
  xstep. xcallr (end_of_word_ends l rounds i s1); [eapply line_ext; [exact Hl| |exact K1]; lia|done|].
  intros j s2 (-> & k & Hk & ->). xstep. split; [|exact G1]. right. cbn [tk_type tk_lexeme tk_len]. split_and!; [done|lia..].
Qed.

Lemma get_token_ends bl s a l :
  heap_ok lo bl s → (length bl < rounds)%nat → line (u_mem s) a l → (length l < rounds)%nat → a + Z.of_nat (length l) < lo →
  runs_or_exit (get_token a) s (λ '(t, i) s', next_token a (a + Z.of_nat (length l)) t i ∧ heap_grown bl s s').
Proof.
  intros Hok Hb Hl Hr Hlo. unfold get_token. xstep. xcallr (skip_white_ends l rounds a s Hl Hr).
  intros i ? (-> & k & Hk & ->). apply (line_drop _ _ _ k Hk) in Hl. assert (length (drop k l) = length l - k)%nat as El by apply length_drop.
  set (i := a + Z.of_nat k) in *. destruct (drop k l) as [|c r]; unfold ldb; do 6 xstep.
  { rewrite (line_end _ _ Hl). cbn [Z.eqb]. xstep. xcall (token_new_spec TOK_EOF 0 0 bl s Hok Hb). intros t s1 (T1 & _ & _ & G1).
    xstep. split; [by left|exact G1]. }
  apply line_tail in Hl as (-> & Hc & Hl). rewrite (proj2 (Z.eqb_neq c 0)) by done. cbn [length] in El.
  assert (mget (u_mem s) (i + 1) = 62 → ∃ c' r', r = c' :: r' ∧ line (u_mem s) (i + 2) r') as H1.
  { intros E. destruct r as [|c' r']; [by rewrite (line_end _ _ Hl) in E|]. apply line_tail in Hl as (_ & _ & Hl).
    exists c', r'. by replace (i + 2) with (i + 1 + 1) by lia. }
  assert (mget (u_mem s) (i + 1) = 62 → (2 ≤ length l - k)%nat) as H2 by (intros E; destruct (H1 E) as (? & ? & -> & _); simpl in El; lia).
  assert (mget (u_mem s) (i + 1) = 62 → mget (u_mem s) (i + 2) = 62 → (3 ≤ length l - k)%nat) as H3.
  { intros E E'. destruct (H1 E) as (c' & r' & -> & Hl'). destruct r' as [|]; [by rewrite (line_end _ _ Hl') in E'|]. simpl in El. lia. }
  repeat case_match; try (apply operator_spec; [done|done|done|lia|lia|lia]).
  apply (get_word_ends _ _ _ _ _ r); [done|done|done|lia|lia|lia|lia].
Qed.

Lemma parse_line_ends n : ∀ l a acc bl s fuel,
  (length l ≤ n)%nat → heap_ok lo bl s → (length bl + length l < rounds)%nat → line (u_mem s) a l →
  a + Z.of_nat (length l) < lo → (length l < fuel)%nat →
  runs_or_exit (loop fuel (λ '(toks, input),
       '(tok, input) ← get_token input;
       let toks := toks ++ [tok] in
       mret (if decide (tk_type tok = TOK_EOF) then inr toks else inl (toks, input))) (acc, a)) s
    (λ r s', ∃ toks bl', r = acc ++ toks ∧ lexed a (a + Z.of_nat (length l)) toks ∧ heap_ok lo bl' s' ∧
      (length toks ≤ S (length l))%nat ∧ same_below (lo := lo) s s').
Proof.
  induction n as [|n IH]; intros l a acc bl s fuel Hn Hok Hb Hl Hlo Hf; (destruct fuel as [|fuel]; [lia|]); cbn [loop];
    xstep; xstep; (xcall (get_token_ends bl s a l Hok); [lia|done|lia|done|]); intros [t i] s1 [Hnt (bl1 & H1 & L1 & K1)]; xstep.
  - destruct l as [|? ?]; [|simpl in Hn; lia]. destruct Hnt as [Et|(Et & N1 & N2 & N3 & N4)]; [|simpl in N4; lia].
    rewrite decide_True by done. xstep. exists [t], bl1. split_and!; [done| |done|done|done]. simpl. by rewrite decide_True.
  - destruct Hnt as [Et|(Et & N1 & N2 & -> & N4)].
    { rewrite decide_True by done. xstep. exists [t], bl1. split_and!; [done| |done|simpl; lia|done]. simpl. by rewrite decide_True. }
    rewrite decide_False by done. set (i := tk_lexeme t + tk_len t) in *. set (k := Z.to_nat (i - a)).
    assert (a + Z.of_nat k = i ∧ (0 < k ≤ length l)%nat) as [Ei Hk] by lia.
    apply (line_drop _ _ _ k) in Hl; [|lia]. rewrite Ei in Hl. assert (length (drop k l) = length l - k)%nat as El by apply length_drop.
    xcall (IH (drop k l) i (acc ++ [t]) bl1 s1 fuel); [lia|done|lia| |lia|lia|].
    { eapply line_ext; [exact Hl| |exact K1]. lia. }
    intros r s2 (toks & bl2 & -> & X2 & H2 & L2 & K2). exists (t :: toks), bl2. rewrite <-(assoc_L (++)).
    split_and!; [done| |done|simpl; lia|by eapply same_below_trans]. cbn [lexed]. rewrite decide_False by done.
    replace (i + Z.of_nat (length (drop k l))) with (a + Z.of_nat (length l)) in X2 by lia. done.
Qed.
End tokens.

(** ** Properties *)

(** C31: [parse_line] terminates on every line that ends with a null byte, also
    when it has operators, quotes or digits anywhere: its loops make at most as
    many rounds as the line has bytes, plus one. The tokens before the last one
    have non-empty lexemes inside the line, each after the one before it, and the
    last token is the only one of type EOF; or the shell has run out of memory
    and ended with status 1. *)
Theorem parse_line_terminates {W} `{OS : Os W} `{HO : !HeapOs W} `{RN : Rounds} lo bl (s : ustate W) buf l :
  heap_ok lo bl s → line (u_mem s) buf l → buf + Z.of_nat (length l) < lo → (length bl + length l < rounds)%nat →
  runs_or_exit (parse_line buf) s (λ toks s',
    lexed buf (buf + Z.of_nat (length l)) toks ∧ (length toks ≤ S (length l))%nat ∧ ∀ x, x < lo → mget (u_mem s') x = mget (u_mem s) x).
Proof.
  intros Hok Hl Hlo Hr. unfold parse_line. xcall (parse_line_ends (length l) l buf [] bl s rounds); [done|done|done|done|done|lia|].
  intros r s' (toks & bl' & -> & X & _ & L & K). done.
Qed.

(** "a|b 2>>c<2". *)
Lemma parse_line_terminates_witness :
  let rn : Rounds := 32%nat in
  runs_or_exit (parse_line 4096) (typed (bytes "a|b 2>>c<2")) (λ toks s', lexed 4096 4106 toks).
Proof.
  intros rn. eapply xruns_conseq.
  - apply (parse_line_terminates (RN := rn) 8192 [] (typed (bytes "a|b 2>>c<2")) 4096 (bytes "a|b 2>>c<2")).
    + split; [lia|reflexivity|]. vm_compute. discriminate.
    + split; [|repeat constructor; discriminate]. intros i c Hi. assert (i < 11)%nat as Hlt by (apply lookup_lt_Some in Hi; exact Hi).
      do 11 (destruct i as [|i]; [injection Hi as <-; vm_compute; reflexivity|]). lia.
    + vm_compute. reflexivity.
    + vm_compute. lia.
  - intros toks s' [H _]. exact H.
Defined.
