(* ===== verification/ShellRun.v ===== *)
(** The shell (user/sh.c): a line of words runs the program named by the first
    word, with the words as its arguments; but a digit 2 cuts a word. *)

From S2P Require Import Prelude Mem Strings State Machine Mm Proc Sync Console Virtio Buf Log Inode Pipe File Fork Exec Sysfile ULib ULibTheorems UHeap Shell ShellTheorems.

(** ** Definitions *)

(** A word as it is typed: no white space and no operator but the digit 2. *)
Definition typed_word (w : list Z) : Prop := w ≠ [] ∧ Forall (λ c, plain c ∨ c = 50) w.

#[export] Instance plain_dec c : Decision (plain c).
Proof. unfold plain. apply _. Defined.
#[export] Instance word_dec w : Decision (word w).
Proof. unfold word. apply _. Defined.
#[export] Instance typed_word_dec w : Decision (typed_word w).
Proof. unfold typed_word. apply _. Defined.

(** There is a blank before every word but the first. *)
Definition blank_between (l : list (nat * list Z)) : Prop := Forall (λ x, 0 < x.1)%nat (tail l).

(** The part of a word up to a 2 after its first character, and an empty argument
    for each such 2. *)
Fixpoint before_2 (w : list Z) : list Z :=
  match w with
  | [] => []
  | c :: w => if c =? 50 then [] else c :: before_2 w
  end.
Definition twos (w : list Z) : nat := length (filter (λ c, c = 50) w).
Definition cut_args (w : list Z) : list (list Z) :=
  match w with
  | [] => []
  | c :: w => (c :: before_2 w) :: replicate (twos w) []
  end.

(** The file of a program. *)
Definition path_of (w : list Z) : list Z :=
  if bool_decide (w !! 0%nat = Some 47) || bool_decide (w !! 0%nat = Some 46 ∧ w !! 1%nat = Some 47) then w else 47 :: w.

(** What the kernel answers in the child: [fork] returns 0, the file at [path] can be
    opened, and [execve] replaces the program. *)
Record child_of (W : Type) `{Os W} (path : list Z) (environ : Z) : Prop := {
  ch_fork : ∀ w, (os_fork w).1 = 0;
  ch_open : ∀ w, 0 ≤ s32 (os_open path O_RDONLY w).1;
  ch_execve : ∀ argv w, (os_execve path argv environ w).1 = true;
}.

(** ** Words that are cut *)

(** The words that the parser sees in the rest of a word. *)
Fixpoint cuts (w : list Z) : list Z * list (list Z) :=
  match w with
  | [] => ([], [])
  | c :: w => let '(p, cs) := cuts w in if c =? 50 then ([], (50 :: p) :: cs) else (c :: p, cs)
  end.
Definition chunks (w : list Z) : list (list Z) :=
  match w with
  | [] => []
  | c :: w => (c :: (cuts w).1) :: (cuts w).2
  end.

(** A typed word after [k] blanks as the parser sees it. *)
Definition word_chunks (x : nat * list Z) : list (nat * list Z) :=
  match chunks x.2 with
  | [] => []
  | w :: ws => (x.1, w) :: (pair 0%nat <$> ws)
  end.

Lemma cuts_concat w : (cuts w).1 ++ concat (cuts w).2 = w.
Proof.
  induction w as [|c w IH]; cbn [cuts]; [done|]. destruct (cuts w) as [p cs]. cbn [fst snd] in IH.
  destruct (Z.eqb_spec c 50) as [->|]; cbn; by rewrite IH.
Qed.

Lemma cuts_before w : (cuts w).1 = before_2 w ∧ length (cuts w).2 = twos w.
Proof.
  induction w as [|c w [IH1 IH2]]; cbn [cuts before_2]; [done|]. destruct (cuts w) as [p cs]. cbn [fst snd] in *. unfold twos in *.
  destruct (Z.eqb_spec c 50) as [->|Hc]; cbn [fst snd].
  - rewrite filter_cons_True by done. cbn. by rewrite IH2.
  - rewrite filter_cons_False by done. by rewrite IH1.
Qed.

Lemma cuts_chunk w : Forall (λ c, plain c ∨ c = 50) w →
  Forall plain (cuts w).1 ∧ Forall (λ x, chunk x ∧ head x = Some 50) (cuts w).2.
Proof.
  induction w as [|c w IH]; cbn [cuts]; [done|]. intros [Hc [IH1 IH2]%IH]%Forall_cons. destruct (cuts w) as [p cs]. cbn [fst snd] in *.
  destruct (Z.eqb_spec c 50) as [->|Hne]; cbn [fst snd]; split; try done.
  - constructor; [|done]. split; [|done]. exists 50, p. split_and!; [done|by right|done].
  - constructor; [|done]. by destruct Hc.
Qed.

Lemma cut_args_length w : w ≠ [] → length (cut_args w) = length (chunks w).
Proof. destruct w as [|c w]; [done|]. intros _. cbn. rewrite length_replicate. f_equal. symmetry. apply cuts_before. Qed.

Lemma render_zero ws l t : render_line ((pair 0%nat <$> ws) ++ l) t = concat ws ++ render_line l t.
Proof. induction ws as [|w ws IH]; cbn; [done|]. by rewrite IH, app_assoc. Qed.

Lemma args_zero ws l : args_of false ((pair 0%nat <$> ws) ++ l) = replicate (length ws) [] ++ args_of false l.
Proof. induction ws as [|w ws IH]; cbn; [done|]. by rewrite IH. Qed.

(** A line of typed words as the parser sees it. *)
Lemma word_chunks_render l t : Forall (λ x, typed_word x.2) l → render_line (l ≫= word_chunks) t = render_line l t.
Proof.
  induction l as [|[k w] l IH]; [done|]. intros [[Hne _] Hl]%Forall_cons. cbn [snd] in Hne. destruct w as [|c w]; [done|].
  rewrite bind_cons. cbn [word_chunks chunks snd fst app render_line]. rewrite render_zero, IH by done. f_equal. cbn [app]. f_equal.
  by rewrite app_assoc, cuts_concat.
Qed.

Lemma word_chunks_ok l : Forall (λ x, typed_word x.2) l →
  Forall (λ x, chunk x.2) (l ≫= word_chunks) ∧ (blank_between l → spaced (l ≫= word_chunks)) ∧
  (Forall (λ x, 0 < x.1)%nat l → Forall parted (l ≫= word_chunks)).
Proof.
  induction l as [|[k w] l IH]; [by repeat constructor|]. intros [[Hne Hw] Hl]%Forall_cons. cbn [snd] in *. destruct w as [|c w]; [done|].
  rewrite bind_cons. cbn [word_chunks chunks snd fst app]. destruct (IH Hl) as (I1 & _ & I3). apply Forall_cons in Hw as [Hc Hw].
  destruct (cuts_chunk w Hw) as [C1 C2].
  assert (Forall parted (pair 0%nat <$> (cuts w).2)) as P2.
  { apply Forall_fmap. eapply Forall_impl; [exact C2|]. intros x [_ Hx]. by right. }
  split_and!.
  - constructor; [by exists c, (cuts w).1|]. apply Forall_app. split; [|done]. apply Forall_fmap. eapply Forall_impl; [exact C2|]. by intros x [Hx _].
  - intros Hb. unfold spaced. cbn [tail]. apply Forall_app. split; [done|]. by apply I3.
  - intros [Hk Hb]%Forall_cons. constructor; [by left|]. apply Forall_app. split; [done|]. by apply I3.
Qed.

Lemma word_chunks_args l : Forall (λ x, typed_word x.2) l → ∀ first,
  (if first : bool then blank_between l else Forall (λ x, 0 < x.1)%nat l) → args_of first (l ≫= word_chunks) = l.*2 ≫= cut_args.
Proof.
  induction l as [|[k w] l IH]; [done|]. intros [[Hne _] Hl]%Forall_cons first Hf. cbn [snd] in *. destruct w as [|c w]; [done|].
  rewrite fmap_cons, !bind_cons. cbn [word_chunks chunks cut_args snd fst app args_of]. destruct (cuts_before w) as [B1 B2].
  assert (Forall (λ x, 0 < x.1)%nat l) as Hl' by (destruct first; [exact Hf|by apply Forall_cons in Hf as [_ Hf]]).
  rewrite args_zero, IH, B1, B2 by done. f_equal. destruct first; [done|]. apply Forall_cons in Hf as [Hk _]. cbn in Hk.
  by rewrite (proj2 (Nat.ltb_lt 0 k)).
Qed.

Lemma word_chunks_length l : Forall (λ x, typed_word x.2) l → length (l ≫= word_chunks) = length (l.*2 ≫= cut_args).
Proof.
  induction l as [|[k w] l IH]; [done|]. intros [[Hne _] Hl]%Forall_cons. cbn [snd] in *. destruct w as [|c w]; [done|].
  rewrite fmap_cons, !bind_cons, !length_app, IH by done. cbn [word_chunks chunks cut_args snd fst length].
  rewrite length_fmap, length_replicate. by destruct (cuts_before w) as [_ ->].
Qed.

(** A word without a 2 is not cut. *)
Lemma plain_typed w : word w → typed_word w ∧ cut_args w = [w].
Proof.
  intros [Hne Hw]. split; [split; [done|]; eapply Forall_impl; [exact Hw|]; by left|]. destruct w as [|c w]; [done|].
  apply Forall_cons in Hw as [_ Hw]. cbn. assert (before_2 w = w ∧ twos w = 0%nat) as [-> ->]; [|done].
  clear Hne. induction w as [|d w IH]; [done|]. apply Forall_cons in Hw as [(_ & _ & Hd) [IH1 IH2]%IH]. unfold twos in *. cbn [before_2].
  assert (d ≠ 50) as Hne' by (unfold OPERATORS in Hd; set_solver). rewrite (proj2 (Z.eqb_neq d 50)), filter_cons_False by done.
  by rewrite IH1.
Qed.

(** ** Running a command *)

(** The program becomes another one, and [Q] holds. *)
Definition execs {W A} (m : K uend (ustate W) A) (s : ustate W) (Q : list Z → Z → Z → ustate W → Prop) : Prop :=
  ∃ l argv env s' k, m s = Sleep (Execed l argv env) s' k ∧ Q l argv env s'.

Section run.
Context {W : Type} `{OS : Os W} `{RN : Rounds}.
Implicit Types s : ustate W.

Lemma execs_bind {A B} (m : K uend (ustate W) A) (f : A → K uend (ustate W) B) s Q : execs m s Q → execs (m ≫= f) s Q.
Proof. intros (l & argv & env & s' & k & E & H). exists l, argv, env, s'. eexists. rewrite K_bind_eq, E. by split. Qed.

Lemma execs_after {A B} (m : K uend (ustate W) A) (f : A → K uend (ustate W) B) s Q :
  runs m s (λ a s', execs (f a) s' Q) → execs (m ≫= f) s Q.
Proof.
  intros (a & s1 & E & l & argv & env & s' & k & E' & H). exists l, argv, env, s', k. rewrite K_bind_eq, E. by split.
Qed.

Lemma call_spec {A} (f : W → A * W) s : runs (call f) s (λ a s', a = (f (u_os s)).1 ∧ u_mem s' = u_mem s).
Proof. unfold call. kstep. eapply runs_ok; [done|]. destruct (f (u_os s)) as [a w]. kstep. kstep. by kstep. Qed.

Lemma execve_execs path argv environ s :
  (∀ w, (os_execve path argv environ w).1 = true) →
  execs (execve path argv environ) s (λ l a e s', l = path ∧ a = argv ∧ e = environ ∧ u_mem s' = u_mem s).
Proof.
  intros H. unfold execve. apply execs_after. kcall (call_spec (os_execve path argv environ) s). intros d s1 [-> M].
  rewrite H. unfold execs, leave. repeat eexists; [done..|exact M].
Qed.

Lemma at_path n w : cstr n w →
  (strncmp n (rdl (bytes "./")) 2 =? 0) || (strncmp n (rdl (bytes "/")) 1 =? 0) =
  bool_decide (w !! 0%nat = Some 47) || bool_decide (w !! 0%nat = Some 46 ∧ w !! 1%nat = Some 47).
Proof.
  intros Hw. pose proof (cstr_lookup n w 0 Hw ltac:(lia)) as N0. change (Z.of_nat 0) with 0 in N0.
  unfold strncmp, Mem.strncmp. change (bytes "./") with [46; 47]. change (bytes "/") with [47]. cbn [strncmp_from].
  change (rdl [46; 47] 0) with 46. change (rdl [46; 47] (0 + 1)) with 47. change (rdl [47] 0) with 47. rewrite N0.
  destruct w as [|c w]; [done|]. pose proof (cstr_lookup n (c :: w) 1 Hw ltac:(simpl; lia)) as N1.
  change (0 + 1) with (Z.of_nat 1). rewrite N1. change ((c :: w) !! 0%nat) with (Some c). change ((c :: w) !! 1%nat) with (w !! 0%nat). cbn [from_option]; unfold id.
  destruct (Z.eqb_spec c 46) as [->|H46]; [|destruct (Z.eqb_spec c 47) as [->|H47]].
  - cbn [Z.eqb Pos.eqb negb andb]. destruct w as [|d w]; [done|]. change ((d :: w) !! 0%nat) with (Some d). cbn [from_option]; unfold id.
    destruct (Z.eqb_spec d 47) as [->|Hd]; [done|]. rewrite !bool_decide_eq_false_2 by naive_solver. rewrite andb_false_r, orb_false_r.
    apply Z.eqb_neq. lia.
  - by rewrite andb_false_r.
  - rewrite !andb_false_r, !bool_decide_eq_false_2 by naive_solver. apply orb_false_iff. rewrite !Z.eqb_neq. lia.
Qed.

(** [execvp] opens the file first, to see whether it is there. *)
Lemma opened_execs (mo m : UM Z) s (Q : list Z → Z → Z → ustate W → Prop) :
  runs mo s (λ fd s1, 0 ≤ s32 fd ∧ u_mem s1 = u_mem s) → (∀ s2, u_mem s2 = u_mem s → execs m s2 Q) →
  execs (fd ← mo; if s32 fd <? 0 then mret (-1) else close fd;; m) s Q.
Proof.
  intros Ho Hm. apply execs_after. eapply runs_conseq; [exact Ho|]. intros fd s1 [Hfd M1].
  rewrite (proj2 (Z.ltb_ge _ 0)) by done. apply execs_after. unfold close. kcall (call_spec (os_close fd) s1).
  intros r s2 [_ M2]. apply Hm. by rewrite M2.
Qed.

Lemma open_path path s : (∀ w, 0 ≤ s32 (os_open path O_RDONLY w).1) →
  runs (call (os_open path O_RDONLY)) s (λ fd s1, 0 ≤ s32 fd ∧ u_mem s1 = u_mem s).
Proof. intros H. kcall (call_spec (os_open path O_RDONLY) s). by intros fd s1 [-> M]. Qed.

Lemma bind_inv {A B} (m : K uend (ustate W) A) (f : A → K uend (ustate W) B) s b s' :
  (m ≫= f) s = Ok b s' → ∃ a s1, m s = Ok a s1 ∧ f a s1 = Ok b s'.
Proof. rewrite K_bind_eq. destruct (m s) as [a s1| | |]; cbn; [eauto|done..]. Qed.

Lemma execvp_execs environ name argv w s :
  cstr (rd (u_mem s) name) w → (length w < rounds)%nat → (length w < 63)%nat → child_of W (path_of w) environ →
  execs (execvp environ name argv) s (λ l a e s', l = path_of w ∧ a = argv ∧ e = environ ∧ u_mem s' = u_mem s).
Proof.
  intros Hw Hr Hl [_ Ho He]. specialize (He argv). unfold execvp. apply execs_after. unfold str_at. kstep. rewrite (at_path _ _ Hw). unfold path_of in *.
  destruct (bool_decide _ || bool_decide _).
  - apply opened_execs.
    { unfold open. kstep. kcall (string_at_spec name w s Hw Hr). intros ? ? [-> ->]. by apply open_path. }
    intros s2 M2. apply execs_after. kcall (string_at_spec name w s2); [by rewrite M2|done|]. intros ? ? [-> ->].
    apply execs_bind. destruct (execve_execs w argv environ s2 He) as (l & a & e & s' & k & E & ? & ? & ? & M).
    exists l, a, e, s', k. split_and!; [done..|]. by rewrite M.
  - apply execs_after. kcall (string_at_spec name w s Hw Hr). intros ? ? [-> ->]. cbn [length].
    rewrite (proj2 (Nat.leb_gt 64 (S (length w)))) by lia. apply opened_execs; [by apply open_path|]. intros s2 M2. apply execs_bind.
    destruct (execve_execs (47 :: w) argv environ s2 He) as (l & a & e & s' & k & E & ? & ? & ? & M).
    exists l, a, e, s', k. split_and!; [done..|]. by rewrite M.
Qed.

(** The child that runs a command. *)
Lemma fork1_child path environ s : child_of W path environ → runs fork1 s (λ pid s', pid = 0 ∧ u_mem s' = u_mem s).
Proof.
  intros [Hf _ _]. unfold fork1. kstep. kcall (call_spec os_fork s). intros pid s1 [-> M]. rewrite Hf. change (s32 0 <? 0) with false. cbn iota. by kstep.
Qed.

Lemma run_cmd_execs environ p ws w s :
  argv_at (u_mem s) (p + 8) ws → head ws = Some w → ld64 (u_mem s) (p + 8) ≠ 0 →
  (length w < rounds)%nat → (length w < 63)%nat → child_of W (path_of w) environ →
  execs (run_cmd environ (CExec p)) s (λ l a e s', l = path_of w ∧ a = p + 8 ∧ e = environ ∧ u_mem s' = u_mem s).
Proof.
  intros [Ha _] Hh Hz Hr Hl Hc. cbn [run_cmd]. apply execs_after. kstep. rewrite (proj2 (Z.eqb_neq _ _) Hz). apply execs_bind, execvp_execs; try done.
  destruct ws as [|w0 ws]; [done|]. injection Hh as ->. specialize (Ha 0%nat w eq_refl). by rewrite Z.add_0_r in Ha.
Qed.

Context `{HO : !HeapOs W} {lo : Z}.

(** A line of typed words, from the text to the program. *)
Lemma run_line_execs bl s buf environ l t w :
  heap_ok lo bl s → text (u_mem s) buf (render_line l t ++ [0]) →
  0 < buf → buf + Z.of_nat (length (render_line l t) + 1) ≤ lo → lo < 2 ^ 63 →
  Forall (λ x, typed_word x.2) l → blank_between l →
  let ws := l.*2 ≫= cut_args in
  head ws = Some w → (length ws < MAX_ARGS)%nat →
  (length bl + length ws + 1 < rounds)%nat → (length (render_line l t) < rounds)%nat →
  os_brk (u_os s) + line_room (length ws) ≤ os_top → (length w < rounds)%nat → (length w < 63)%nat → child_of W (path_of w) environ →
  ∃ argv s' k, run_line environ buf s = Sleep (Execed (path_of w) argv environ) s' k ∧ argv_at (u_mem s') argv ws.
Proof.
  intros Hok Ht Hb0 Hb Hlo Hw Hbl ws Hh Hn Hr1 Hr2 Hz Hw1 Hw2 Hc. destruct (word_chunks_ok l Hw) as (C1 & C2 & _).
  pose proof (word_chunks_length l Hw) as CL. fold ws in CL. pose proof (word_chunks_args l Hw true Hbl) as CA. fold ws in CA.
  assert (0 < length ws)%nat as Hpos by (destruct ws; [done|simpl; lia]).
  destruct (parse_words_spec (lo := lo) bl s buf (l ≫= word_chunks) t) as (c & s2 & E & p & -> & Hargs & Hnz);
    rewrite ?word_chunks_render, ?CL by done; try done; [by apply C2|]. rewrite CA in Hargs.
  apply bind_inv in E as (toks & s1 & E1 & E2).
  destruct (fork1_child (path_of w) environ s2 Hc) as (pid & s3 & E3 & -> & M3). rewrite <-M3 in Hargs, Hnz.
  assert (execs (run_line environ buf) s (λ x a e s', x = path_of w ∧ a = p + 8 ∧ e = environ ∧ u_mem s' = u_mem s3))
    as (x & a & e & s4 & k & E4 & -> & -> & -> & M4); [|exists (p + 8), s4, k; split; [done|by rewrite M4]].
  apply execs_after. exists toks, s1. split; [exact E1|]. apply execs_after. exists (Some (CExec p)), s2. split; [exact E2|].
  apply execs_after. exists 0, s3. split; [exact E3|]. apply execs_bind. by eapply run_cmd_execs.
Qed.
End run.

(** ** Properties *)

(** C30: a line of one to nine plain words (no white space, no operator and no
    digit 2 in them), separated by blanks, runs a program: in the child that
    [run_line] forks, [execve] is called with the file that the first word names
    ("/" before it unless it starts with "/" or "./") and with an array that
    points to the words in order, as terminated strings, and ends with the null
    pointer.  The kernel gives the shell memory for the tokens and the command, and
    the file is there; the first word has less than 63 characters. *)
Theorem shell_words {W} `{OS : Os W} `{HO : !HeapOs W} `{RN : Rounds} lo bl (s : ustate W) buf environ l t w :
  heap_ok lo bl s → text (u_mem s) buf (render_line l t ++ [0]) →
  0 < buf → buf + Z.of_nat (length (render_line l t) + 1) ≤ lo → lo < 2 ^ 63 →
  Forall (λ x, word x.2) l → blank_between l → head l.*2 = Some w → (length l < MAX_ARGS)%nat →
  (length bl + length l + 1 < rounds)%nat → (length (render_line l t) < rounds)%nat →
  os_brk (u_os s) + line_room (length l) ≤ os_top → (length w < 63)%nat → child_of W (path_of w) environ →
  ∃ argv s' k, run_line environ buf s = Sleep (Execed (path_of w) argv environ) s' k ∧ argv_at (u_mem s') argv l.*2.
Proof.
  intros Hok Ht Hb0 Hb Hlo Hw Hbl Hh Hn Hr1 Hr2 Hz Hw2 Hc.
  assert (Forall (λ x, typed_word x.2) l) as Hty by (eapply Forall_impl; [exact Hw|]; intros x Hx; by apply plain_typed).
  assert (l.*2 ≫= cut_args = l.*2) as Ew.
  { clear -Hw. induction Hw as [|x l Hx _ IH]; [done|]. rewrite fmap_cons, bind_cons, IH. by destruct (plain_typed _ Hx) as [_ ->]. }
  assert (length w < rounds)%nat as Hwr.
  { destruct l as [|[k0 w0] l]; [done|]. injection Hh as ->. cbn [render_line] in Hr2. rewrite !length_app in Hr2. lia. }
  rewrite <-Ew. apply (run_line_execs (lo := lo) bl s buf environ l t w); rewrite ?Ew, ?length_fmap; done.
Qed.

(** C40: a digit 2 cuts a word, although it is no redirection.  In a line of words
    that may have the digit 2 in them, each word is given to the program only up
    to the first 2 after its first character, and an empty string is given to it
    for each such 2: the 2 starts a token of its own and is then overwritten by the
    terminator of the token before it.  Thus "cat file2.txt" runs cat with the
    arguments "file" and the empty string. *)
Theorem shell_cuts_at_2 {W} `{OS : Os W} `{HO : !HeapOs W} `{RN : Rounds} lo bl (s : ustate W) buf environ l t w :
  heap_ok lo bl s → text (u_mem s) buf (render_line l t ++ [0]) →
  0 < buf → buf + Z.of_nat (length (render_line l t) + 1) ≤ lo → lo < 2 ^ 63 →
  Forall (λ x, typed_word x.2) l → blank_between l →
  let ws := l.*2 ≫= cut_args in
  head ws = Some w → (length ws < MAX_ARGS)%nat →
  (length bl + length ws + 1 < rounds)%nat → (length (render_line l t) < rounds)%nat →
  os_brk (u_os s) + line_room (length ws) ≤ os_top → (length w < rounds)%nat → (length w < 63)%nat → child_of W (path_of w) environ →
  ∃ argv s' k, run_line environ buf s = Sleep (Execed (path_of w) argv environ) s' k ∧ argv_at (u_mem s') argv ws.
Proof. intros. by eapply (run_line_execs (lo := lo)). Qed.

(** ** Lines *)

(** The kernel of [break] as the child of a shell sees it. *)
Record child := mk_child { ch_break : break }.
Definition child_call {A} (f : break → A * break) (w : child) : A * child :=
  let '(a, b) := f (ch_break w) in (a, mk_child b).
#[export] Instance child_os : Os child := {|
  os_read fd n := child_call (os_read fd n);
  os_write fd bs := child_call (os_write fd bs);
  os_open l m := child_call (os_open l m);
  os_close fd := child_call (os_close fd);
  os_fstat fd := child_call (os_fstat fd);
  os_mkdir l := child_call (os_mkdir l);
  os_mknod l a b := child_call (os_mknod l a b);
  os_link a b := child_call (os_link a b);
  os_unlink l := child_call (os_unlink l);
  os_chdir l := child_call (os_chdir l);
  os_kill p := child_call (os_kill p);
  os_dup fd := child_call (os_dup fd);
  os_dup2 a b := child_call (os_dup2 a b);
  os_pipe := child_call os_pipe;
  os_fork w := (0, w);
  os_wait := child_call os_wait;
  os_sbrk n := child_call (os_sbrk n);
  os_execve _ _ _ w := (true, w);
|}.
#[export] Instance child_heap : HeapOs child.
Proof.
  refine {| os_brk w := os_brk (ch_break w); os_top := os_top |}; [intros w; apply os_brk_pos|].
  intros n w Hn. pose proof (os_sbrk_spec n (ch_break w) Hn) as H. cbn [os_sbrk child_os]. unfold child_call.
  destruct (os_sbrk n (ch_break w)) as [r b]. exact H.
Defined.

Lemma child_ok path environ : child_of child path environ.
Proof. split; [done| |done]. intros w. cbn. by vm_compute. Qed.

(** A line at address 4096, with an empty heap from 8192 on. *)
Definition typed_in (l : list Z) : ustate child := mk_ustate (mwrite ∅ 4096 (l ++ [0])) 0 0 (mk_child 8192).

Lemma typed_in_heap l : heap_ok 8192 [] (typed_in l).
Proof. split; [lia|reflexivity|]. vm_compute. discriminate. Qed.

(** "echo  hello ". *)
Lemma shell_words_witness :
  let rn : Rounds := 32%nat in
  ∃ argv s' k, run_line 0 4096 (typed_in (bytes "echo  hello ")) = Sleep (Execed (bytes "/echo") argv 0) s' k ∧
    argv_at (u_mem s') argv [bytes "echo"; bytes "hello"].
Proof.
  intros rn. apply (shell_words (RN := rn) 8192 [] (typed_in (bytes "echo  hello ")) 4096 0
      [(0%nat, bytes "echo"); (2%nat, bytes "hello")] 1 (bytes "echo")).
  - apply typed_in_heap.
  - intros i c Hi. assert (i < 13)%nat as Hlt by (apply lookup_lt_Some in Hi; exact Hi).
    do 13 (destruct i as [|i]; [injection Hi as <-; vm_compute; reflexivity|]). lia.
  - lia.
  - vm_compute. discriminate.
  - lia.
  - apply (bool_decide_unpack _). vm_compute. exact I.
  - repeat constructor.
  - reflexivity.
  - vm_compute. lia.
  - vm_compute. lia.
  - vm_compute. lia.
  - vm_compute. discriminate.
  - vm_compute. lia.
  - apply child_ok.
Defined.

(** "cat file2.txt". *)
Lemma shell_cuts_at_2_witness :
  let rn : Rounds := 32%nat in
  ∃ argv s' k, run_line 0 4096 (typed_in (bytes "cat file2.txt")) = Sleep (Execed (bytes "/cat") argv 0) s' k ∧
    argv_at (u_mem s') argv [bytes "cat"; bytes "file"; []].
Proof.
  intros rn. apply (shell_cuts_at_2 (RN := rn) 8192 [] (typed_in (bytes "cat file2.txt")) 4096 0
      [(0%nat, bytes "cat"); (1%nat, bytes "file2.txt")] 0 (bytes "cat")).
  - apply typed_in_heap.
  - intros i c Hi. assert (i < 14)%nat as Hlt by (apply lookup_lt_Some in Hi; exact Hi).
    do 14 (destruct i as [|i]; [injection Hi as <-; vm_compute; reflexivity|]). lia.
  - lia.
  - vm_compute. discriminate.
  - lia.
  - apply (bool_decide_unpack _). vm_compute. exact I.
  - repeat constructor.
  - reflexivity.
  - vm_compute. lia.
  - vm_compute. lia.
  - vm_compute. lia.
  - vm_compute. discriminate.
  - vm_compute. lia.
  - vm_compute. lia.
  - apply child_ok.
Defined.
