(* ===== verification/FsData.v ===== *)
(** The on-disk data of kernel/fs/inode.c: integers and inodes in block
    buffers, bitmaps, and the elements of a path. *)

From S2P Require Import Prelude Mem State Machine Mm Proc Sync Virtio Buf Log Inode.

(** ** Definitions *)

(** What the fields of an on-disk inode can hold. *)
Record dinode_ok (di : d_inode) : Prop := {
  ok_di_type : 0 ≤ di_type di < 2 ^ 16;
  ok_di_major : 0 ≤ di_major di < 2 ^ 16;
  ok_di_minor : 0 ≤ di_minor di < 2 ^ 16;
  ok_di_nlink : 0 ≤ di_nlink di < 2 ^ 16;
  ok_di_size : 0 ≤ di_size di < 2 ^ 32;
  ok_di_naddrs : length (di_addrs di) = 13%nat;
  ok_di_addrs : Forall (λ a, 0 ≤ a < 2 ^ 32) (di_addrs di);
}.

(** A block that was never written. *)
Definition zero_block : list Z := replicate (Z.to_nat BLOCK_SIZE) 0.

(** Bit [k] of the bitmap is one. *)
Definition bit_set (bs : list Z) (k : nat) : Prop := bit_clear bs k = false.

(** The elements that repeated calls of [skip_elem] find in a path. *)
Fixpoint path_elems (fuel : nat) (path : list Z) : list (list Z) :=
  match fuel with
  | O => []
  | S fuel =>
      match skip_elem path with
      | None => []
      | Some (path, name) => name :: path_elems fuel path
      end
  end.

(** The path with the elements [e] of [l], each after [k] slashes, and [t]
    slashes at the end. *)
Fixpoint render (l : list (nat * list Z)) (t : nat) : list Z :=
  match l with
  | [] => replicate t 47
  | (k, e) :: l => replicate k 47 ++ e ++ render l t
  end.

Definition is_elem (e : list Z) : Prop := e ≠ [] ∧ 47 ∉ e.

#[export] Instance is_elem_dec e : Decision (is_elem e).
Proof. unfold is_elem. apply _. Defined.

(** ** Integers in blocks *)

Lemma le_bytes_value n : ∀ v,
  foldr (λ b acc, b + 256 * acc) 0 ((λ i, (v / 2 ^ (8 * i)) mod 256) <$> seqZ 0 (Z.of_nat n)) =
  v mod 2 ^ (8 * Z.of_nat n).
Proof.
  induction n as [|n IH]; intros v.
  { simpl. by rewrite Z.mod_1_r. }
  rewrite seqZ_cons by lia. replace (Z.pred (Z.of_nat (S n))) with (Z.of_nat n) by lia.
  change (Z.succ 0) with (1 + 0). rewrite <-fmap_add_seqZ. cbn [fmap list_fmap foldr].
  rewrite <-list_fmap_compose.
  rewrite (list_fmap_ext _ (λ i, ((v / 256) / 2 ^ (8 * i)) mod 256)).
  2:{ intros i x [Hx _]%lookup_seqZ. unfold compose. simpl in Hx. subst x. f_equal.
      rewrite Z.div_div by lia. f_equal. change 256 with (2 ^ 8). rewrite <-Z.pow_add_r by lia.
      f_equal. lia. }
  rewrite IH. change (2 ^ (8 * 0)) with 1. rewrite Z.div_1_r.
  replace (8 * Z.of_nat (S n)) with (8 + 8 * Z.of_nat n) by lia.
  rewrite Z.pow_add_r by lia. change (2 ^ 8) with 256. rewrite Z.rem_mul_r by lia. done.
Qed.

Lemma length_put_le n v off bs : length (put_le n v off bs) = length bs.
Proof. apply length_inserts. Qed.

Lemma get_put_le n v off bs :
  (off + n ≤ length bs)%nat → get_le n (put_le n v off bs) off = v mod 2 ^ (8 * Z.of_nat n).
Proof.
  intros H. unfold get_le, put_le. rewrite <-le_bytes_value. f_equal.
  set (l := _ <$> _). assert (length l = n) as Hl.
  { unfold l. rewrite length_fmap, length_seqZ. lia. }
  apply list_eq. intros i. destruct (decide (i < n)%nat) as [Hi|Hi].
  - rewrite lookup_take_lt, lookup_drop by done. rewrite list_lookup_inserts by lia.
    f_equal. lia.
  - rewrite lookup_take_ge, lookup_ge_None_2 by lia. done.
Qed.

Lemma get_put_le_small n v off bs :
  (off + n ≤ length bs)%nat → 0 ≤ v < 2 ^ (8 * Z.of_nat n) →
  get_le n (put_le n v off bs) off = v.
Proof. intros H Hv. rewrite get_put_le by done. by apply Z.mod_small. Qed.

Lemma get_put_le_ne n m v off off' bs :
  (off' + n ≤ off ∨ off + m ≤ off')%nat → get_le n (put_le m v off bs) off' = get_le n bs off'.
Proof.
  intros H. unfold get_le, put_le. f_equal. apply list_eq. intros i.
  destruct (decide (i < n)%nat) as [Hi|Hi]; [|by rewrite !lookup_take_ge by lia].
  rewrite !lookup_take_lt, !lookup_drop by done. destruct H as [H|H].
  - by rewrite list_lookup_inserts_lt by lia.
  - rewrite list_lookup_inserts_ge; [done|]. rewrite length_fmap, length_seqZ. lia.
Qed.

Lemma set_word32_spec d r v :
  (4 * r + 4 ≤ length d)%nat → 0 ≤ v < 2 ^ 32 →
  length (set_word32 v r d) = length d ∧ word32 (set_word32 v r d) r = v ∧
  ∀ r', r' ≠ r → word32 (set_word32 v r d) r' = word32 d r'.
Proof.
  intros Hr Hv. unfold set_word32, word32. split_and!; [apply length_put_le|by apply get_put_le_small|].
  intros r' Hne. apply get_put_le_ne. lia.
Qed.

Lemma word32_zero r : word32 zero_block r = 0.
Proof.
  unfold word32, get_le, zero_block. rewrite drop_replicate, take_replicate.
  induction (4 `min` _)%nat as [|k IH]; [done|]. cbn [replicate foldr]. by rewrite IH.
Qed.

(** ** On-disk inodes *)

(** The addresses that [iupdate] stores one after the other. *)
Lemma put_addrs_spec (g : nat → Z) base data m :
  (base + 4 * m ≤ length data)%nat →
  let data' := foldl (λ d k, put_le 4 (g k) (base + 4 * k) d) data (seq 0 m) in
  length data' = length data ∧
  (∀ k, (k < m)%nat → get_le 4 data' (base + 4 * k) = g k mod 2 ^ 32) ∧
  (∀ n off, (off + n ≤ base ∨ base + 4 * m ≤ off)%nat → get_le n data' off = get_le n data off).
Proof.
  intros Hm. induction m as [|m IH]; cbv zeta in *.
  { split_and!; [done|lia|done]. }
  rewrite seq_S, foldl_app. cbn [foldl]. rewrite Nat.add_0_l.
  destruct IH as (Hl & Hk & Hf); [lia|]. split_and!.
  - by rewrite length_put_le.
  - intros k Hlt. destruct (decide (k = m)) as [->|Hne].
    + apply get_put_le. lia.
    + rewrite get_put_le_ne by lia. apply Hk. lia.
  - intros n off H. rewrite get_put_le_ne by lia. apply Hf. lia.
Qed.

Lemma dinode_off_le ino (data : list Z) :
  length data = Z.to_nat BLOCK_SIZE → (dinode_off ino + 64 ≤ length data)%nat.
Proof.
  intros ->. unfold dinode_off, D_INODE_SIZE, IPB, BLOCK_SIZE.
  pose proof (Z.mod_pos_bound ino 16). lia.
Qed.

Lemma dinode_off_ne ino ino' :
  ino mod IPB ≠ ino' mod IPB →
  (dinode_off ino + 64 ≤ dinode_off ino' ∨ dinode_off ino' + 64 ≤ dinode_off ino)%nat.
Proof.
  unfold dinode_off, D_INODE_SIZE, IPB. intros H.
  pose proof (Z.mod_pos_bound ino 16). pose proof (Z.mod_pos_bound ino' 16). lia.
Qed.

Ltac le_frame := repeat (rewrite get_put_le_ne by lia).

Lemma put_dinode_spec di ino data :
  (dinode_off ino + 64 ≤ length data)%nat →
  let data' := put_dinode di ino data in
  length data' = length data ∧
  (dinode_ok di → get_dinode data' ino = di) ∧
  (∀ n off, (off + n ≤ dinode_off ino ∨ dinode_off ino + 64 ≤ off)%nat →
     get_le n data' off = get_le n data off).
Proof.
  intros Ho. unfold put_dinode. cbv zeta.
  set (o := dinode_off ino) in *.
  match goal with |- context [foldl _ ?d _] => set (data1 := d) end.
  assert (length data1 = length data) as Hl1 by (unfold data1; by rewrite !length_put_le).
  destruct (put_addrs_spec (λ k, default 0 (di_addrs di !! k)) (o + 12) data1 13)
    as (Hl2 & Hk & Hf); [lia|].
  set (data2 := foldl _ _ _) in *. clearbody data2. split_and!; [by rewrite Hl2| |].
  - intros [H1 H2 H3 H4 H5 H6 H7]. unfold get_dinode. fold o.
    rewrite !Hf by lia. unfold data1. le_frame.
    rewrite get_put_le_small by (rewrite ?length_put_le; lia). le_frame.
    rewrite get_put_le_small by (rewrite ?length_put_le; lia). le_frame.
    rewrite get_put_le_small by (rewrite ?length_put_le; lia). le_frame.
    rewrite get_put_le_small by (rewrite ?length_put_le; lia). le_frame.
    rewrite get_put_le_small by (rewrite ?length_put_le; lia).
    destruct di as [t ma mi nl sz addrs]. f_equal. cbn [di_addrs] in *.
    apply list_eq. intros k. rewrite list_lookup_fmap.
    destruct (decide (k < 13)%nat) as [Hlt|Hge].
    + rewrite lookup_seq_lt, Nat.add_0_l by lia.
      cbn [fmap option_fmap option_map]. rewrite Hk by done.
      destruct (lookup_lt_is_Some_2 addrs k) as [a Ha]; [lia|]. rewrite Ha.
      cbn [from_option id]. f_equal. apply Z.mod_small. by apply (Forall_lookup_1 _ _ _ _ H7 Ha).
    + rewrite lookup_seq_ge, lookup_ge_None_2 by lia. done.
  - intros n off H. rewrite Hf by lia. unfold data1. by le_frame.
Qed.

Lemma get_put_dinode_ne di ino ino' data :
  length data = Z.to_nat BLOCK_SIZE → ino' mod IPB ≠ ino mod IPB →
  get_dinode (put_dinode di ino data) ino' = get_dinode data ino'.
Proof.
  intros Hl Hne. destruct (put_dinode_spec di ino data (dinode_off_le ino data Hl)) as (_ & _ & Hg).
  pose proof (dinode_off_ne _ _ Hne) as Ho. unfold get_dinode. rewrite !Hg by lia. f_equal.
  apply list_fmap_ext. intros k j [-> Hk]%lookup_seq. apply Hg. lia.
Qed.

(** ** Bitmaps *)

Lemma land_pow2 x i : 0 ≤ i → (Z.land x (Z.shiftl 1 i) =? 0) = negb (Z.testbit x i).
Proof.
  intros Hi. rewrite Z.shiftl_1_l. destruct (Z.testbit x i) eqn:E; simpl.
  - apply Z.eqb_neq. intros H. apply (f_equal (λ v, Z.testbit v i)) in H.
    rewrite Z.land_spec, E, Z.pow2_bits_true, Z.bits_0 in H by done. done.
  - apply Z.eqb_eq. apply Z.bits_inj'. intros j Hj. rewrite Z.land_spec, Z.bits_0.
    destruct (decide (i = j)) as [->|Hne]; [by rewrite E|].
    rewrite Z.pow2_bits_false by done. apply andb_false_r.
Qed.

Lemma bit_clear_testbit bs k :
  bit_clear bs k = negb (Z.testbit (default 0 (bs !! (k / 8)%nat)) (Z.of_nat (k mod 8))).
Proof. apply land_pow2. lia. Qed.

Lemma testbit_u8 x i : 0 ≤ i < 8 → Z.testbit (u8 x) i = Z.testbit x i.
Proof. intros Hi. unfold wrap. rewrite Z.mod_pow2_bits_low; [done|lia]. Qed.

Lemma div_mod8_ne k j : j ≠ k → (k / 8 = j / 8)%nat → (k mod 8 ≠ j mod 8)%nat.
Proof. intros H E E'. apply H. rewrite (Nat.div_mod_eq j 8), (Nat.div_mod_eq k 8). lia. Qed.

Lemma mod8_bound k : 0 ≤ Z.of_nat (k mod 8) < 8.
Proof. pose proof (Nat.mod_upper_bound k 8). lia. Qed.

Lemma bit_clear_set bs k j :
  (k / 8 < length bs)%nat →
  bit_clear (set_bit k bs) j = if decide (j = k) then false else bit_clear bs j.
Proof.
  intros Hk. rewrite !bit_clear_testbit. unfold set_bit. pose proof (mod8_bound j).
  destruct (lookup_lt_is_Some_2 bs (k / 8) Hk) as [x Hx].
  destruct (decide (k / 8 = j / 8)%nat) as [E|E].
  - rewrite <-E, list_lookup_alter_eq, Hx. cbn [fmap option_fmap option_map from_option id].
    rewrite testbit_u8, Z.lor_spec, Z.shiftl_1_l by done.
    destruct (decide (j = k)) as [->|Hne].
    + by rewrite Z.pow2_bits_true, orb_true_r by lia.
    + pose proof (div_mod8_ne k j Hne E). by rewrite Z.pow2_bits_false, orb_false_r by lia.
  - rewrite list_lookup_alter_ne by done. by destruct (decide (j = k)) as [->|].
Qed.

Lemma bit_clear_clear bs k j :
  (k / 8 < length bs)%nat →
  bit_clear (clear_bit k bs) j = if decide (j = k) then true else bit_clear bs j.
Proof.
  intros Hk. rewrite !bit_clear_testbit. unfold clear_bit. pose proof (mod8_bound j).
  destruct (lookup_lt_is_Some_2 bs (k / 8) Hk) as [x Hx].
  destruct (decide (k / 8 = j / 8)%nat) as [E|E].
  - rewrite <-E, list_lookup_alter_eq, Hx. cbn [fmap option_fmap option_map from_option id].
    rewrite testbit_u8, Z.land_spec, Z.lnot_spec, Z.shiftl_1_l by lia.
    destruct (decide (j = k)) as [->|Hne].
    + by rewrite Z.pow2_bits_true, andb_false_r by lia.
    + pose proof (div_mod8_ne k j Hne E). by rewrite Z.pow2_bits_false, andb_true_r by lia.
  - rewrite list_lookup_alter_ne by done. by destruct (decide (j = k)) as [->|].
Qed.

Lemma find_bit_spec bs skip0 n : ∀ k,
  match find_bit bs skip0 k n with
  | Some j => (k ≤ j < k + n)%nat ∧ bit_clear bs j = true ∧ (skip0 = true → j ≠ 0%nat) ∧
      ∀ i, (k ≤ i < j)%nat → bit_set bs i ∨ (skip0 = true ∧ i = 0%nat)
  | None => ∀ i, (k ≤ i < k + n)%nat → bit_set bs i ∨ (skip0 = true ∧ i = 0%nat)
  end.
Proof.
  induction n as [|n IH]; intros k; cbn [find_bit]; [intros; lia|].
  destruct (bit_clear bs k && negb (skip0 && (k =? 0)%nat)) eqn:E.
  - apply andb_true_iff in E as [E1 E2]. split_and!; [lia|lia|done| |intros; lia].
    intros -> ->. done.
  - assert (bit_set bs k ∨ (skip0 = true ∧ k = 0%nat)) as Hk.
    { unfold bit_set. destruct (bit_clear bs k); [right|by left].
      destruct skip0, (Nat.eqb_spec k 0); simplify_eq/=; done. }
    specialize (IH (S k)). destruct (find_bit bs skip0 (S k) n) as [j|].
    + destruct IH as (? & ? & ? & Hi). split_and!; [lia|lia|done|done|].
      intros i ?. destruct (decide (i = k)) as [->|]; [done|]. apply Hi. lia.
    + intros i ?. destruct (decide (i = k)) as [->|]; [done|]. apply IH. lia.
Qed.

(** ** Paths *)

Lemma skip_slashes_replicate k path : skip_slashes (replicate k 47 ++ path) = skip_slashes path.
Proof. by induction k. Qed.

Lemma skip_slashes_idemp path : skip_slashes (skip_slashes path) = skip_slashes path.
Proof.
  induction path as [|c path IH]; [done|]. cbn [skip_slashes].
  destruct (c =? 47) eqn:E; [done|]. cbn [skip_slashes]. by rewrite E.
Qed.

Lemma skip_slashes_elem e path : is_elem e → skip_slashes (e ++ path) = e ++ path.
Proof.
  intros [Hne Hn]. destruct e as [|c e]; [done|]. cbn [skip_slashes app].
  rewrite (proj2 (Z.eqb_neq c 47)); [done|]. intros ->. apply Hn. left.
Qed.

Lemma span_elem_app e path :
  47 ∉ e → skip_slashes path ≠ path ∨ path = [] → span_elem (e ++ path) = (e, path).
Proof.
  intros He Hp. induction e as [|c e IH]; cbn [app].
  - destruct path as [|c path]; [done|]. cbn [span_elem]. destruct (c =? 47) eqn:E; [done|].
    destruct Hp as [Hp|?]; [|done]. cbn [skip_slashes] in Hp. by rewrite E in Hp.
  - apply not_elem_of_cons in He as [Hc He]. cbn [span_elem].
    rewrite (proj2 (Z.eqb_neq c 47)) by congruence. by rewrite IH.
Qed.

Lemma skip_elem_skip path : skip_elem (skip_slashes path) = skip_elem path.
Proof. unfold skip_elem. by rewrite skip_slashes_idemp. Qed.

Lemma skip_slashes_len path : (length (skip_slashes path) ≤ length path)%nat.
Proof. induction path as [|c path IH]; [done|]. cbn [skip_slashes]. case_match; simpl; lia. Qed.

(** After an element comes a slash or the end of the path. *)
Lemma render_slash l t :
  Forall (λ x, 0 < x.1)%nat l → skip_slashes (render l t) ≠ render l t ∨ render l t = [].
Proof.
  intros Hl. destruct l as [|[k e] l]; cbn [render].
  - destruct t as [|t]; [by right|left]. intros H. apply (f_equal length) in H.
    pose proof (skip_slashes_len (replicate t 47)). simpl in *. lia.
  - left. apply Forall_cons in Hl as [Hk _]. destruct k as [|k]; simpl in Hk; [lia|].
    intros H. apply (f_equal length) in H.
    pose proof (skip_slashes_len (replicate k 47 ++ e ++ render l t)). simpl in *. lia.
Qed.

Lemma skip_elem_render k e l t :
  is_elem e → Forall (λ x, 0 < x.1)%nat l →
  skip_elem (render ((k, e) :: l) t) = Some (skip_slashes (render l t), take DIR_SIZE e).
Proof.
  intros He Hl. unfold skip_elem. cbn [render].
  rewrite skip_slashes_replicate, skip_slashes_elem by done.
  destruct e as [|c e]; [by destruct He|]. cbn [app].
  change (c :: e ++ render l t) with ((c :: e) ++ render l t).
  by rewrite span_elem_app by (by apply He || by apply render_slash).
Qed.

Lemma path_elems_skip l t : ∀ fuel,
  (length l < fuel)%nat → Forall (λ x, is_elem x.2) l → Forall (λ x, 0 < x.1)%nat (tail l) →
  path_elems fuel (skip_slashes (render l t)) = (λ x, take DIR_SIZE x.2) <$> l.
Proof.
  induction l as [|[k e] l IH]; intros fuel Hf He Hk; (destruct fuel as [|fuel]; [simpl in Hf; lia|]).
  - cbn [path_elems render]. rewrite skip_elem_skip. unfold skip_elem.
    rewrite <-(app_nil_r (replicate t 47)), skip_slashes_replicate. done.
  - apply Forall_cons in He as [He1 He]. cbn [path_elems]. rewrite skip_elem_skip.
    rewrite skip_elem_render by done. cbn [fmap list_fmap]. f_equal. apply IH; [simpl in Hf; lia|done|].
    destruct l as [|x l]; [done|]. apply Forall_cons in Hk as [_ Hk]. done.
Qed.

Lemma length_render l t : Forall (λ x, is_elem x.2) l → (length l ≤ length (render l t))%nat.
Proof.
  induction 1 as [|[k e] l [Hne _] _ IH]; [simpl; lia|]. cbn [render length]. simpl in Hne.
  rewrite !length_app. destruct e; [done|]. simpl. lia.
Qed.

(** ** Theorems *)

(** An on-disk inode that [iupdate] stores in its block is what [ilock]
    reads back, and the other inodes of the block keep their contents. *)
Theorem dinode_roundtrip di ino data :
  length data = Z.to_nat BLOCK_SIZE → dinode_ok di →
  get_dinode (put_dinode di ino data) ino = di ∧
  length (put_dinode di ino data) = length data ∧
  ∀ ino', ino' mod IPB ≠ ino mod IPB →
    get_dinode (put_dinode di ino data) ino' = get_dinode data ino'.
Proof.
  intros Hl Hd. destruct (put_dinode_spec di ino data (dinode_off_le ino data Hl)) as (H1 & H2 & _).
  split_and!; [by apply H2|done|]. intros ino'. by apply get_put_dinode_ne.
Qed.

Lemma dinode_roundtrip_witness :
  let di := mk_d_inode FT_FILE 0 0 1 70000 (replicate 13 517) in
  get_dinode (put_dinode di 18 (replicate 1024 255)) 18 = di.
Proof.
  apply (dinode_roundtrip (mk_d_inode FT_FILE 0 0 1 70000 (replicate 13 517)) 18 (replicate 1024 255)).
  - by rewrite length_replicate.
  - split; try done. apply Forall_replicate. done.
Defined.

(** The scan of [balloc] and [ialloc] finds the lowest clear bit of the
    bitmap (bit 0 left out by [ialloc]) or there is none; marking it changes no
    other bit, and clearing it again restores the bitmap. *)
Theorem bitmap_alloc d skip0 :
  length d = Z.to_nat BLOCK_SIZE →
  match find_bit d skip0 0 BITS with
  | Some k =>
      (k < BITS)%nat ∧ bit_clear d k = true ∧ (skip0 = true → k ≠ 0%nat) ∧
      (∀ j, (j < k)%nat → bit_set d j ∨ (skip0 = true ∧ j = 0%nat)) ∧
      (∀ j, bit_clear (set_bit k d) j = if decide (j = k) then false else bit_clear d j) ∧
      (∀ j, bit_clear (clear_bit k (set_bit k d)) j = bit_clear d j)
  | None => ∀ j, (j < BITS)%nat → bit_set d j ∨ (skip0 = true ∧ j = 0%nat)
  end.
Proof.
  intros Hl. pose proof (find_bit_spec d skip0 BITS 0) as H.
  destruct (find_bit d skip0 0 BITS) as [k|].
  - destruct H as ([_ Hk] & Hc & H0 & Hj).
    assert (k / 8 < length d)%nat as Hk8.
    { rewrite Hl. apply Nat.Div0.div_lt_upper_bound. exact Hk. }
    split_and!; [exact Hk|done|done| | |].
    + intros j Hlt. apply Hj. lia.
    + intros j. by apply bit_clear_set.
    + intros j. rewrite bit_clear_clear by (unfold set_bit; by rewrite length_alter).
      rewrite bit_clear_set by done. by destruct (decide (j = k)) as [->|].
  - intros j Hlt. apply H. split; [lia|exact Hlt].
Qed.

Lemma bitmap_alloc_witness :
  find_bit (replicate 7 255 ++ [11] ++ replicate 1016 0) false 0 BITS = Some 58%nat ∧
  bit_clear (replicate 7 255 ++ [11] ++ replicate 1016 0) 58 = true.
Proof.
  pose proof (bitmap_alloc (replicate 7 255 ++ [11] ++ replicate 1016 0) false eq_refl) as H.
  assert (find_bit (replicate 7 255 ++ [11] ++ replicate 1016 0) false 0 BITS = Some 58%nat) as E
    by (vm_compute; reflexivity).
  rewrite E in H. split; [exact E|]. exact (proj1 (proj2 H)).
Defined.

(** the elements that the loop of [lookup] takes from a path are its
    names, cut to the 30 bytes of a directory entry, whatever the slashes
    between, before and after them. *)
Theorem path_elements l t :
  Forall (λ x, is_elem x.2) l → Forall (λ x, 0 < x.1)%nat (tail l) →
  path_elems (S (length (render l t))) (render l t) = (λ x, take DIR_SIZE x.2) <$> l.
Proof.
  intros He Hk. pose proof (length_render l t He).
  rewrite <-(path_elems_skip l t (S (length (render l t)))) by (done || lia).
  cbn [path_elems]. by rewrite skip_elem_skip.
Qed.

Lemma path_elements_witness :
  path_elems 12 [47; 47; 97; 98; 47; 47; 47; 99; 47; 100; 47] = [[97; 98]; [99]; [100]].
Proof.
  apply (path_elements [(2%nat, [97; 98]); (3%nat, [99]); (1%nat, [100])] 1).
  - apply (bool_decide_unpack _). vm_compute. exact I.
  - apply (bool_decide_unpack _). vm_compute. exact I.
Defined.
