(* ===== verification/MkfsTheorems.v ===== *)
(** The image that tools/mkfs.c writes, as the kernel reads it: the super
    block, an empty log, the root directory and every file with its bytes. *)

From S2P Require Import Prelude Mem Strings State Machine Mm Proc Sync Virtio Buf Log Inode Mkfs FsData.

(** ** Definitions *)

Definition layout : super_block :=
  mk_super_block BLOCK_SIZE n_log_blks n_inode_blks n_data_blks log_start inode_bitmap_start inode_start
    data_bitmap_start data_start.

Section image.
Context (img : gmap Z (list Z)).

Definition blk (a : Z) : list Z := default [] (img !! a).

(** The on-disk inode [ino]. *)
Definition disk_inode (ino : Z) : d_inode := get_dinode (blk (ino / IPB + inode_start)) ino.

(** The address of block [j] of a file, through the indirect blocks. *)
Definition file_addr (di : d_inode) (j : Z) : Z :=
  if j <? N_DIRECT then default 0 (di_addrs di !! Z.to_nat j)
  else word32 (blk (default 0 (di_addrs di !! Z.to_nat (N_DIRECT + (j - N_DIRECT) / APB))))
         (Z.to_nat ((j - N_DIRECT) mod APB)).

(** Entry [k] of the root directory: the inode and the bytes of the name. *)
Definition root_entry (k : nat) : Z * list Z :=
  let d := blk data_start in (get_le 2 d (32 * k), take DIR_SIZE (drop (32 * k + 2) d)).

(** The bytes of a file. *)
Definition read_file (di : d_inode) : list Z :=
  take (Z.to_nat (di_size di))
    (concat ((λ j, blk (file_addr di j)) <$> seqZ 0 ((di_size di + BLOCK_SIZE - 1) / BLOCK_SIZE))).
End image.

(** The file [bytes], split in blocks. *)
Definition chunk (bytes : list Z) (j : Z) : list Z :=
  let c := take (Z.to_nat BLOCK_SIZE) (drop (Z.to_nat (j * BLOCK_SIZE)) bytes) in
  c ++ replicate (Z.to_nat BLOCK_SIZE - length c) 0.

(** The tool stores a block for the bytes after the last full block, even
    when there are none. *)
Definition n_chunks (bytes : list Z) : Z := Z.of_nat (length bytes) / BLOCK_SIZE + 1.

(** The number of indirect blocks for [n] blocks of a file, and of data
    blocks altogether. *)
Definition n_ind (n : Z) : Z := if n <=? N_DIRECT then 0 else (n - N_DIRECT + APB - 1) / APB.
Definition n_used (n : Z) : Z := n + n_ind n.

(** Blocks are allocated one after the other: the addresses of the blocks of
    a file that starts with data block [D], and of its indirect blocks. *)
Definition blk_addr (D j : Z) : Z :=
  data_start + D + if j <? N_DIRECT then j else j + (j - N_DIRECT) / APB + 1.
Definition ind_addr (D q : Z) : Z := data_start + D + N_DIRECT + q * (APB + 1).

(** [n] blocks of a file have their addresses in the inode and in [m]
    indirect blocks. *)
Record laid (D n m : Z) (di : d_inode) (img : gmap Z (list Z)) : Prop := {
  la_len : length (di_addrs di) = 13%nat;
  la_direct : ∀ k, 0 ≤ k < N_DIRECT → di_addrs di !! Z.to_nat k = Some (if k <? n then blk_addr D k else 0);
  la_indirect : ∀ q, 0 ≤ q < N_INDIRECT →
    di_addrs di !! Z.to_nat (N_DIRECT + q) = Some (if q <? m then ind_addr D q else 0);
  la_words : ∀ q, 0 ≤ q < m →
    ∃ d, img !! ind_addr D q = Some d ∧ length d = Z.to_nat BLOCK_SIZE ∧
      ∀ r, 0 ≤ r < APB → word32 d (Z.to_nat r) =
        if N_DIRECT + q * APB + r <? n then blk_addr D (N_DIRECT + q * APB + r) else 0;
}.

Definition stored (D n : Z) (bytes : list Z) (img : gmap Z (list Z)) : Prop :=
  ∀ j, 0 ≤ j < n → img !! blk_addr D j = Some (chunk bytes j).

(** The tool with the first [D] data blocks and the inodes up to [I]
    allocated. *)
Record mk_ok (D I : Z) (s : mkfs) : Prop := {
  mo_sb : mk_sb s = layout;
  mo_dom : ∀ a, 0 ≤ a < n_blks → is_Some (fs_fd s !! a);
  mo_len : map_Forall (λ _ d, length d = Z.to_nat BLOCK_SIZE) (fs_fd s);
  mo_dbits : ∀ k, (k < BITS)%nat →
    bit_clear (blk (fs_fd s) data_bitmap_start) k = bool_decide (D ≤ Z.of_nat k);
  mo_ibits : ∀ k, (k < BITS)%nat →
    bit_clear (blk (fs_fd s) inode_bitmap_start) k = bool_decide (k = 0%nat ∨ I < Z.of_nat k);
  mo_zero : ∀ a, data_start + D ≤ a < n_blks → fs_fd s !! a = Some zero_block;
}.

(** The same inode but for the addresses. *)
Definition readdressed (di di' : d_inode) : Prop :=
  di' = mk_d_inode (di_type di) (di_major di) (di_minor di) (di_nlink di) (di_size di) (di_addrs di').

(** Only the blocks in [P] change. *)
Definition only (P : Z → Prop) (s s' : mkfs) : Prop :=
  s' = set_fs_fd (fs_fd s') s ∧ ∀ a, ¬ P a → fs_fd s' !! a = fs_fd s !! a.

(** The layout in numbers. *)
Ltac lay := change data_start with 546 in *; change n_blks with 8738 in *;
  change data_bitmap_start with 545 in *; change inode_start with 33 in *;
  change inode_bitmap_start with 32 in *; change log_start with 2 in *; change BLOCK_SIZE with 1024 in *;
  change APB with 256 in *; change N_DIRECT with 10 in *; change N_INDIRECT with 3 in *; change IPB with 16 in *;
  change DIRENT_SIZE with 32 in *.
Ltac lay_lia := lay; lia.

(** ** Blocks and bitmaps *)

Lemma only_refl P s : only P s s.
Proof. split; [by destruct s|done]. Qed.

Lemma only_trans P s1 s2 s3 : only P s1 s2 → only P s2 s3 → only P s1 s3.
Proof. intros [E1 H1] [E2 H2]. split; [by rewrite E2, E1|]. intros a Ha. by rewrite H2, H1. Qed.

Lemma only_weaken (P Q : Z → Prop) s s' : (∀ a, P a → Q a) → only P s s' → only Q s s'.
Proof. intros HPQ [E H]. split; [done|]. intros a Ha. apply H. auto. Qed.

Lemma read_block_spec D I s a :
  mk_ok D I s → 0 ≤ a < n_blks →
  runs (mkfs_read_block a) s (λ d s', s' = s ∧ fs_fd s !! a = Some d ∧ length d = Z.to_nat BLOCK_SIZE).
Proof.
  intros H Ha. destruct (mo_dom _ _ _ H a Ha) as [d Hd]. pose proof (mo_len _ _ _ H a d Hd) as Hl. unfold mkfs_read_block. kstep. kstep.
  rewrite Hd. by kstep.
Qed.

(** A block that is neither a bitmap nor free is written. *)
Lemma write_block_ok D I s a d :
  mk_ok D I s → 0 ≤ a < data_start + D → length d = Z.to_nat BLOCK_SIZE →
  a ≠ data_bitmap_start → a ≠ inode_bitmap_start →
  mk_ok D I (set_fs_fd (<[a := d]> (fs_fd s)) s) ∧ only (λ b, b = a) s (set_fs_fd (<[a := d]> (fs_fd s)) s).
Proof.
  intros [H1 H2 H2' H3 H4 H5] Ha Hd Hn1 Hn2. split.
  - split; cbn [fs_fd set_fs_fd mk_sb]; unfold blk; rewrite ?lookup_insert_ne by done; try done.
    + intros b Hb. apply lookup_insert_is_Some'. auto.
    + by apply map_Forall_insert_2.
    + intros b Hb. rewrite lookup_insert_ne by lia. auto.
  - split; [done|]. intros b Hb. by apply lookup_insert_ne.
Qed.

Lemma find_first bs skip0 j :
  (j < BITS)%nat → bit_clear bs j = true → (skip0 = true → j ≠ 0%nat) →
  (∀ i, (i < j)%nat → bit_set bs i ∨ (skip0 = true ∧ i = 0%nat)) → find_bit bs skip0 0 BITS = Some j.
Proof.
  intros Hj Hc H0 Hlt. pose proof (find_bit_spec bs skip0 BITS 0) as Hs. destruct (find_bit _ _ _ _) as [i|].
  - destruct Hs as (Hi & Hci & Hi0 & Hil). f_equal. destruct (Nat.lt_trichotomy i j) as [Hij|[|Hij]]; [|done|].
    + destruct (Hlt i Hij) as [Hs|[? ?]]; [unfold bit_set in Hs; congruence|naive_solver].
    + destruct (Hil j) as [Hs|[? ?]]; [lia|unfold bit_set in Hs; congruence|naive_solver].
  - destruct (Hs j) as [Hx|[? ?]]; [lia|unfold bit_set in Hx; congruence|naive_solver].
Qed.

Lemma BITS_blocks : Z.of_nat BITS = 8192.
Proof. done. Qed.

Lemma block_alloc_spec D I s :
  mk_ok D I s → 0 ≤ D < n_data_blks →
  runs mkfs_block_alloc s (λ a s', a = data_start + D ∧ mk_ok (D + 1) I s' ∧ only (λ b, b = data_bitmap_start) s s').
Proof.
  intros H HD. change n_data_blks with 8192 in HD. pose proof H as [H1 H2 H2' H3 H4 H5]. pose proof BITS_blocks as HB.
  unfold mkfs_block_alloc. kstep. kstep. rewrite H1. change (sb_data_bitmap_start layout) with data_bitmap_start.
  change (sb_data_start layout) with data_start.
  kstep. kcall (read_block_spec _ _ _ _ H); [lay_lia|]. intros d ? (-> & Hd & Hl).
  unfold blk in H3. rewrite Hd in H3. cbn [from_option id] in H3.
  rewrite (find_first d false (Z.to_nat D)).
  2: lia.
  2: { rewrite H3 by lia. apply bool_decide_eq_true_2. lia. }
  2: done.
  2: { intros i Hi. left. unfold bit_set. rewrite H3 by lia. apply bool_decide_eq_false_2. lia. }
  kstep. unfold mkfs_write_block. kstep. kstep. rewrite wrap_small by lay_lia.
  split_and!; [lia| |].
  - split; cbn [fs_fd set_fs_fd mk_sb].
    + done.
    + intros a Ha. apply lookup_insert_is_Some'. auto.
    + apply map_Forall_insert_2; [|done]. unfold set_bit. by rewrite length_alter.
    + intros k Hk. unfold blk. rewrite lookup_insert_eq. cbn [from_option id].
      rewrite bit_clear_set by (rewrite Hl; apply Nat.Div0.div_lt_upper_bound; lay_lia).
      case_decide; [symmetry; apply bool_decide_eq_false_2; lia|]. rewrite H3 by done.
      apply bool_decide_ext. lia.
    + intros k Hk. unfold blk. rewrite lookup_insert_ne by done. by apply H4.
    + intros a Ha. rewrite lookup_insert_ne by lay_lia. apply H5. lia.
  - split; [done|]. intros b Hb. by apply lookup_insert_ne.
Qed.

Lemma inode_alloc_spec D I s :
  mk_ok D I s → 0 ≤ D → 0 ≤ I < n_data_blks - 1 →
  runs mkfs_inode_alloc s (λ i s', i = I + 1 ∧ mk_ok D (I + 1) s' ∧ only (λ b, b = inode_bitmap_start) s s').
Proof.
  intros H HD HI. change n_data_blks with 8192 in HI. pose proof H as [H1 H2 H2' H3 H4 H5]. pose proof BITS_blocks as HB.
  unfold mkfs_inode_alloc. kstep. kstep. rewrite H1. change (sb_inode_bitmap_start layout) with inode_bitmap_start.
  kstep. kcall (read_block_spec _ _ _ _ H); [lay_lia|]. intros d ? (-> & Hd & Hl).
  unfold blk in H4. rewrite Hd in H4. cbn [from_option id] in H4.
  rewrite (find_first d true (Z.to_nat (I + 1))).
  2: lia.
  2: { rewrite H4 by lia. apply bool_decide_eq_true_2. lia. }
  2: lia.
  2: { intros i Hi. destruct (decide (i = 0%nat)); [by right|left]. unfold bit_set. rewrite H4 by lia.
       apply bool_decide_eq_false_2. lia. }
  kstep. unfold mkfs_write_block. kstep. kstep. rewrite wrap_small by lia.
  split_and!; [lia| |].
  - split; cbn [fs_fd set_fs_fd mk_sb].
    + done.
    + intros a Ha. apply lookup_insert_is_Some'. auto.
    + apply map_Forall_insert_2; [|done]. unfold set_bit. by rewrite length_alter.
    + intros k Hk. unfold blk. rewrite lookup_insert_ne by done. by apply H3.
    + intros k Hk. unfold blk. rewrite lookup_insert_eq. cbn [from_option id].
      rewrite bit_clear_set by (rewrite Hl; apply Nat.Div0.div_lt_upper_bound; lay_lia).
      case_decide; [symmetry; apply bool_decide_eq_false_2; lia|]. rewrite H4 by done.
      apply bool_decide_ext. lia.
    + intros a Ha. destruct (decide (a = inode_bitmap_start)) as [->|]; [lay_lia|].
      rewrite lookup_insert_ne by done. auto.
  - split; [done|]. intros b Hb. by apply lookup_insert_ne.
Qed.

(** ** Structures inside of blocks *)

Lemma slice_inserts n (l : list Z) o k buf :
  (k + n ≤ length l)%nat → (o + length l ≤ length buf)%nat →
  take n (drop (o + k) (list_inserts o l buf)) = take n (drop k l).
Proof.
  intros Hk Ho. apply list_eq. intros i.
  destruct (decide (i < n)%nat) as [Hi|Hi]; [|by rewrite !lookup_take_ge by lia].
  rewrite !lookup_take_lt, !lookup_drop by done. rewrite list_lookup_inserts by lia. f_equal. lia.
Qed.

Lemma slice_inserts_ne n (l : list Z) o k buf :
  (k + n ≤ o ∨ o + length l ≤ k)%nat → take n (drop k (list_inserts o l buf)) = take n (drop k buf).
Proof.
  intros H. apply list_eq. intros i.
  destruct (decide (i < n)%nat) as [Hi|Hi]; [|by rewrite !lookup_take_ge by lia].
  rewrite !lookup_take_lt, !lookup_drop by done. destruct H as [H|H].
  - by rewrite list_lookup_inserts_lt by lia.
  - by rewrite list_lookup_inserts_ge by lia.
Qed.

Lemma get_le_inserts n l o k buf :
  (k + n ≤ length l)%nat → (o + length l ≤ length buf)%nat →
  get_le n (list_inserts o l buf) (o + k) = get_le n l k.
Proof. intros. unfold get_le. by rewrite slice_inserts. Qed.

Lemma get_le_inserts_ne n l o k buf :
  (k + n ≤ o ∨ o + length l ≤ k)%nat → get_le n (list_inserts o l buf) k = get_le n buf k.
Proof. intros. unfold get_le. by rewrite slice_inserts_ne. Qed.

Lemma dinode_bytes_spec di :
  length (dinode_bytes di) = 64%nat ∧ (dinode_ok di → get_dinode (dinode_bytes di) 0 = di).
Proof.
  destruct (put_dinode_spec di 0 (replicate 64 0)) as (Hl & Hg & _); [by vm_compute|].
  split; [exact Hl|exact Hg].
Qed.

Lemma get_dinode_inserts l ino buf :
  length l = 64%nat → length buf = Z.to_nat BLOCK_SIZE →
  get_dinode (list_inserts (dinode_off ino) l buf) ino = get_dinode l 0 ∧
  ∀ ino', ino' mod IPB ≠ ino mod IPB →
    get_dinode (list_inserts (dinode_off ino) l buf) ino' = get_dinode buf ino'.
Proof.
  intros Hl Hb. pose proof (dinode_off_le ino buf Hb) as Ho. split.
  - assert (∀ n k, (k + n ≤ 64)%nat →
      get_le n (list_inserts (dinode_off ino) l buf) (dinode_off ino + k) = get_le n l k) as Hg.
    { intros n k Hk. apply get_le_inserts; lia. }
    unfold get_dinode. change (dinode_off 0) with 0%nat. rewrite !Nat.add_0_l, !Hg by lia. f_equal.
    + rewrite <-(Hg 2%nat 0%nat) by lia. by rewrite Nat.add_0_r.
    + apply list_fmap_ext. intros i x [-> Hi]%lookup_seq. rewrite <-!Nat.add_assoc. apply Hg. lia.
  - intros ino' Hne. apply dinode_off_ne in Hne. unfold get_dinode. rewrite !get_le_inserts_ne by lia. f_equal.
    apply list_fmap_ext. intros i x [-> Hi]%lookup_seq. apply get_le_inserts_ne. lia.
Qed.

(** The block that holds the inode. *)
Definition inode_blk (ino : Z) : Z := ino / IPB + inode_start.

Lemma inode_blk_bounds ino : 0 ≤ ino < 8192 → inode_start ≤ inode_blk ino < data_bitmap_start.
Proof. intros H. unfold inode_blk. lay. Z.to_euclidean_division_equations; lia. Qed.

Lemma write_inode_spec D I s ino di :
  mk_ok D I s → 0 ≤ ino < 8192 → 0 ≤ D → dinode_ok di →
  runs (mkfs_write_inode ino di) s (λ _ s', mk_ok D I s' ∧ only (λ b, b = inode_blk ino) s s' ∧
    disk_inode (fs_fd s') ino = di ∧
    ∀ ino', 0 ≤ ino' < 8192 → ino' ≠ ino → disk_inode (fs_fd s') ino' = disk_inode (fs_fd s) ino').
Proof.
  intros H Hi HD Hok. pose proof (inode_blk_bounds ino Hi) as Hb. unfold mkfs_write_inode. kstep. kstep.
  rewrite (mo_sb _ _ _ H). change (sb_inode_start layout) with inode_start. fold (inode_blk ino).
  rewrite wrap_small by lay_lia.
  kstep. kcall (read_block_spec _ _ _ _ H); [lay_lia|]. intros buf ? (-> & Hbuf & Hl).
  destruct (dinode_bytes_spec di) as [Hdl Hdg]. destruct (get_dinode_inserts (dinode_bytes di) ino buf Hdl Hl) as [G1 G2].
  set (buf' := list_inserts _ _ _) in *.
  assert (length buf' = Z.to_nat BLOCK_SIZE) as Hl' by (unfold buf'; by rewrite length_inserts).
  unfold mkfs_write_block. kstep.
  destruct (write_block_ok D I s (inode_blk ino) buf' H) as [W1 W2]; [lay_lia|done|lay_lia..|].
  split_and!; [done|done| |].
  - unfold disk_inode, blk. fold (inode_blk ino). cbn [fs_fd set_fs_fd]. rewrite lookup_insert_eq. cbn [from_option id].
    rewrite G1. by apply Hdg.
  - intros ino' Hi' Hne. unfold disk_inode, blk. fold (inode_blk ino'). cbn [fs_fd set_fs_fd].
    destruct (decide (inode_blk ino' = inode_blk ino)) as [E|E]; [|by rewrite lookup_insert_ne].
    rewrite E, lookup_insert_eq, Hbuf. cbn [from_option id]. apply G2. unfold inode_blk in E. lay.
    Z.to_euclidean_division_equations; lia.
Qed.

(** ** The blocks of a file *)

Lemma laid_ext D n m di img img' :
  laid D n m di img → (∀ q, 0 ≤ q < m → img' !! ind_addr D q = img !! ind_addr D q) → laid D n m di img'.
Proof. intros [H1 H2 H3 H4] He. split; [done..|]. intros q Hq. rewrite He by done. auto. Qed.

Lemma laid_direct D n m di img :
  laid D n m di img → 0 ≤ n < N_DIRECT → m = 0 → laid D (n + 1) m (set_di_addr (Z.to_nat n) (blk_addr D n) di) img.
Proof.
  intros [H1 H2 H3 H4] Hn ->. split; cbn [set_di_addr di_addrs].
  - by rewrite length_insert.
  - intros k Hk. destruct (decide (k = n)) as [->|Hne].
    + rewrite list_lookup_insert_eq by lay_lia. by rewrite (proj2 (Z.ltb_lt _ _)) by lia.
    + rewrite list_lookup_insert_ne, H2 by lia. f_equal. destruct (Z.ltb_spec k n), (Z.ltb_spec k (n + 1)); done || lia.
  - intros q Hq. rewrite list_lookup_insert_ne by lay_lia. by apply H3.
  - intros q Hq. lia.
Qed.

Lemma laid_indirect D n m di img :
  laid D n m di img → 0 ≤ m < N_INDIRECT → n ≤ N_DIRECT + m * APB → img !! ind_addr D m = Some zero_block →
  laid D n (m + 1) (set_di_addr (Z.to_nat (N_DIRECT + m)) (ind_addr D m) di) img.
Proof.
  intros [H1 H2 H3 H4] Hm Hn Hz. split; cbn [set_di_addr di_addrs].
  - by rewrite length_insert.
  - intros k Hk. rewrite list_lookup_insert_ne by lay_lia. by apply H2.
  - intros q Hq. destruct (decide (q = m)) as [->|Hne].
    + rewrite list_lookup_insert_eq by lay_lia. by rewrite (proj2 (Z.ltb_lt _ _)) by lia.
    + rewrite list_lookup_insert_ne, H3 by lay_lia. f_equal. destruct (Z.ltb_spec q m), (Z.ltb_spec q (m + 1)); done || lia.
  - intros q Hq. destruct (decide (q = m)) as [->|Hne]; [|apply H4; lia].
    exists zero_block. split_and!; [done|done|]. intros r Hr. rewrite word32_zero. by rewrite (proj2 (Z.ltb_ge _ _)) by lia.
Qed.

Lemma blk_addr_bound D j : 0 ≤ D < 8192 → 0 ≤ j < 778 → 0 < blk_addr D j < 2 ^ 32.
Proof. intros HD Hj. unfold blk_addr. lay. destruct (Z.ltb_spec j 10); Z.to_euclidean_division_equations; lia. Qed.

Lemma laid_word D n m q r di img d :
  laid D n m di img → 0 ≤ q < m → 0 ≤ r < APB → n = N_DIRECT + q * APB + r → 0 ≤ D < 8192 → n < 778 →
  img !! ind_addr D q = Some d →
  laid D (n + 1) m di (<[ind_addr D q := set_word32 (blk_addr D n) (Z.to_nat r) d]> img).
Proof.
  intros [H1 H2 H3 H4] Hq Hr Hn HD Hn' Hd. pose proof (blk_addr_bound D n HD) as Hb. split; [done| |done|].
  - intros k Hk. rewrite H2 by done. f_equal. rewrite !(proj2 (Z.ltb_lt _ _)) by lay_lia. done.
  - intros q' Hq'. destruct (decide (q' = q)) as [->|Hne].
    + destruct (H4 q Hq) as (d' & Hd' & Hl & Hw). simplify_eq. rewrite lookup_insert_eq.
      destruct (set_word32_spec d (Z.to_nat r) (blk_addr D (N_DIRECT + q * APB + r))) as (L1 & L2 & L3); [lay_lia|lay_lia|].
      eexists. split_and!; [done|by rewrite L1|]. intros r' Hr'. destruct (decide (r' = r)) as [->|Hne].
      * rewrite L2. by rewrite (proj2 (Z.ltb_lt _ _)) by lia.
      * rewrite L3, Hw by lia. destruct (Z.ltb_spec (N_DIRECT + q * APB + r') (N_DIRECT + q * APB + r)),
          (Z.ltb_spec (N_DIRECT + q * APB + r') (N_DIRECT + q * APB + r + 1)); done || lia.
    + rewrite lookup_insert_ne by (unfold ind_addr; lay_lia). destruct (H4 q' Hq') as (d' & Hd' & Hl & Hw).
      exists d'. split_and!; [done|done|]. intros r' Hr'. rewrite Hw by done.
      destruct (Z.ltb_spec (N_DIRECT + q' * APB + r') n), (Z.ltb_spec (N_DIRECT + q' * APB + r') (n + 1)); done || lay_lia.
Qed.

(** The slot is filled when it is empty. *)
Lemma mkfs_addr_new D I s di k :
  mk_ok D I s → 0 ≤ D < n_data_blks → di_addrs di !! k = Some 0 →
  runs (mkfs_addr di k) s (λ '(di', a) s', a = data_start + D ∧ di' = set_di_addr k a di ∧ mk_ok (D + 1) I s' ∧
    only (λ b, b = data_bitmap_start) s s').
Proof.
  intros H HD Hk. unfold mkfs_addr. rewrite Hk. cbn [Z.eqb]. kstep. kcall (block_alloc_spec D I s H HD).
  intros a s' (-> & H' & Ho). kstep. done.
Qed.

Lemma mkfs_addr_old s di k a :
  di_addrs di !! k = Some a → a ≠ 0 → mkfs_addr di k s = Ok (di, a) s.
Proof. intros Hk Ha. unfold mkfs_addr. by rewrite Hk, (proj2 (Z.eqb_neq _ _)) by done. Qed.

Section file.
Context (D I : Z) (HD : 0 ≤ D).

(** The file has [n] blocks. *)
Record growing (n : Z) (di : d_inode) (s : mkfs) : Prop := {
  gr_ok : mk_ok (D + n_used n) I s;
  gr_laid : laid D n (n_ind n) di (fs_fd s);
}.

(** The blocks where the addresses of block [n] are stored. *)
Definition map_blk (n b : Z) : Prop :=
  b = data_bitmap_start ∨ N_DIRECT ≤ n ∧ b = ind_addr D ((n - N_DIRECT) / APB).

Lemma n_ind_direct n : n ≤ N_DIRECT → n_ind n = 0.
Proof. intros H. unfold n_ind. by rewrite (proj2 (Z.leb_le _ _)). Qed.

(** [n] is entry [r] of indirect block [q]. *)
Lemma n_ind_split n q r :
  0 ≤ q → 0 ≤ r < APB → n = N_DIRECT + q * APB + r → n_ind (n + 1) = q + 1 ∧ n_ind n = if decide (r = 0) then q else q + 1.
Proof.
  intros Hq Hr ->. unfold n_ind. lay. split.
  - rewrite (proj2 (Z.leb_gt _ _)) by lia. Z.to_euclidean_division_equations; lia.
  - case_decide.
    + destruct (Z.leb_spec (10 + q * 256 + r) 10); Z.to_euclidean_division_equations; lia.
    + rewrite (proj2 (Z.leb_gt _ _)) by lia. Z.to_euclidean_division_equations; lia.
Qed.

Lemma blk_addr_split q r :
  0 ≤ q → 0 ≤ r < APB → blk_addr D (N_DIRECT + q * APB + r) = ind_addr D q + 1 + r.
Proof.
  intros Hq Hr. unfold blk_addr, ind_addr. lay. rewrite (proj2 (Z.ltb_ge _ _)) by lia.
  Z.to_euclidean_division_equations; lia.
Qed.

(** The indirect block [q] is in place, if need be after its allocation. *)
Lemma map_indirect n q r di s :
  growing n di s → 0 ≤ q < N_INDIRECT → 0 ≤ r < APB → n = N_DIRECT + q * APB + r → D + n_used (n + 1) ≤ n_data_blks →
  runs (mkfs_addr di (Z.to_nat (N_DIRECT + q))) s (λ '(di', a) s', a = ind_addr D q ∧
    readdressed di di' ∧
    mk_ok (D + n + q + 1) I s' ∧ laid D n (q + 1) di' (fs_fd s') ∧ only (λ b, b = data_bitmap_start) s s').
Proof.
  intros [H1 H2] Hq Hr Hn Hmax. destruct (n_ind_split n q r) as [E1 E2]; [lia|done|done|].
  unfold n_used in *. rewrite E1 in Hmax. rewrite E2 in *. pose proof (la_indirect _ _ _ _ _ H2 q Hq) as Hs.
  case_decide as Hz.
  - rewrite (proj2 (Z.ltb_ge _ _)) in Hs by lia. change n_data_blks with 8192 in *.
    assert (data_start + (D + (n + q)) = ind_addr D q) as Ea by (unfold ind_addr; lay_lia).
    kcall (mkfs_addr_new _ _ _ _ _ H1); [change n_data_blks with 8192; lay_lia|done|].
    intros [di' a] s' (-> & -> & H' & Ho). rewrite Ea. replace (D + n + q + 1) with (D + (n + q) + 1) by lia.
    split_and!; [done|done|done| |done].
    apply laid_indirect; [|lia|lay_lia|].
    + eapply laid_ext; [done|]. intros q' Hq'. apply Ho. unfold ind_addr. lay_lia.
    + rewrite (proj2 Ho) by (unfold ind_addr; lay_lia). apply (mo_zero _ _ _ H1). lay_lia.
  - rewrite (proj2 (Z.ltb_lt _ _)) in Hs by lia.
    eapply runs_ok; [apply (mkfs_addr_old _ _ _ _ Hs); unfold ind_addr; lay_lia|].
    replace (D + n + q + 1) with (D + (n + (q + 1))) by lia.
    split_and!; [done|by destruct di|done|done|apply only_refl].
Qed.

(** The entry of the indirect block is filled. *)
Lemma map_word n q r di s :
  mk_ok (D + n + q + 1) I s → laid D n (q + 1) di (fs_fd s) →
  0 ≤ q < N_INDIRECT → 0 ≤ r < APB → n = N_DIRECT + q * APB + r → n < 778 → D + n_used (n + 1) ≤ n_data_blks →
  runs (buf ← mkfs_read_block (ind_addr D q);
        if word32 buf (Z.to_nat r) =? 0 then
          a ← mkfs_block_alloc; mkfs_write_block (ind_addr D q) (set_word32 a (Z.to_nat r) buf);; mret (di, a)
        else mret (di, word32 buf (Z.to_nat r))) s
    (λ '(di', a) s', a = blk_addr D n ∧ di' = di ∧ growing (n + 1) di s' ∧
       only (λ b, b = data_bitmap_start ∨ b = ind_addr D q) s s').
Proof.
  intros H1 HL Hq Hr Esp Hn Hmax. unfold n_used in Hmax. destruct (n_ind_split n q r) as [E1 _]; [lia|done|done|].
  rewrite E1 in Hmax. change n_data_blks with 8192 in Hmax.
  destruct (la_words _ _ _ _ _ HL q) as (d & Hd & Hl & Hw); [lia|].
  kstep. kcall (read_block_spec _ _ _ _ H1); [unfold ind_addr; lay_lia|]. intros d' ? (-> & Hd' & _).
  assert (d' = d) as -> by congruence. rewrite Hw by done. rewrite <-Esp, Z.ltb_irrefl. cbn [Z.eqb].
  kstep. kcall (block_alloc_spec _ _ _ H1); [change n_data_blks with 8192; lay_lia|]. intros a s2 (-> & H2 & Ho2).
  assert (data_start + (D + n + q + 1) = blk_addr D n) as ->
    by (rewrite Esp, blk_addr_split by lia; unfold ind_addr; lay_lia).
  kstep. unfold mkfs_write_block. kstep. kstep. set (d2 := set_word32 (blk_addr D n) (Z.to_nat r) d).
  assert (length d2 = Z.to_nat BLOCK_SIZE) as Hl' by (by rewrite <-Hl; apply length_put_le).
  destruct (write_block_ok _ _ s2 (ind_addr D q) d2 H2) as [W1 W2];
    [unfold ind_addr; lay_lia|exact Hl'|unfold ind_addr; lay_lia..|].
  split_and!; [done|done| |].
  - split; unfold n_used; rewrite E1.
    + by replace (D + (n + 1 + (q + 1))) with (D + n + q + 1 + 1) by lia.
    + apply laid_word; try done; [|lia|lay_lia|].
      * eapply laid_ext; [done|]. intros q' Hq'. apply Ho2. unfold ind_addr. lay_lia.
      * rewrite (proj2 Ho2) by (unfold ind_addr; lay_lia). done.
  - eapply only_trans; [eapply only_weaken; [|exact Ho2]; by left|].
    eapply only_weaken; [|exact W2]. by right.
Qed.

Lemma block_map_spec n di s :
  growing n di s → 0 ≤ n < 778 → D + n_used (n + 1) ≤ n_data_blks →
  runs (mkfs_block_map di n) s (λ '(di', a) s', a = blk_addr D n ∧ readdressed di di' ∧
    growing (n + 1) di' s' ∧ only (map_blk n) s s').
Proof.
  intros Hg Hn Hmax. unfold mkfs_block_map. destruct (Z.ltb_spec n N_DIRECT) as [Hlt|Hge].
  - destruct Hg as [H1 H2]. unfold n_used in *. rewrite (n_ind_direct n), (n_ind_direct (n + 1)) in * by lia.
    rewrite !Z.add_0_r in *. pose proof (la_direct _ _ _ _ _ H2 n) as Hs. rewrite Z.ltb_irrefl in Hs.
    kcall (mkfs_addr_new _ _ _ _ _ H1); [lia|apply Hs; lia|]. intros [di' a] s' (-> & -> & H' & Ho).
    assert (data_start + (D + n) = blk_addr D n) as ->
      by (unfold blk_addr; rewrite (proj2 (Z.ltb_lt _ _)) by done; lia).
    split_and!; [done|done| |by eapply only_weaken; [|exact Ho]; left].
    split; unfold n_used; rewrite (n_ind_direct (n + 1)) by lia.
    + by replace (D + (n + 1 + 0)) with (D + n + 1) by lia.
    + apply laid_direct; [|lia|done]. eapply laid_ext; [done|]. intros; lia.
  - pose proof (Z.mod_pos_bound (n - N_DIRECT) APB ltac:(done)) as Hr.
    assert (0 ≤ (n - N_DIRECT) / APB < N_INDIRECT) as Hq by (lay; Z.to_euclidean_division_equations; lia).
    assert (n = N_DIRECT + (n - N_DIRECT) / APB * APB + (n - N_DIRECT) mod APB) as Esp
      by (lay; Z.to_euclidean_division_equations; lia).
    rewrite (proj2 (Z.ltb_lt _ _)) by (lay_lia). unfold map_blk.
    set (q := (n - N_DIRECT) / APB) in *. set (r := (n - N_DIRECT) mod APB) in *. clearbody q r.
    kstep. kcall (map_indirect n q r di s Hg Hq Hr Esp Hmax). intros [di1 a] s1 (-> & Hdi & H1 & HL & Ho1).
    kcall (map_word n q r di1 s1 H1 HL Hq Hr Esp); [lia|done|]. intros [di' a] s' (-> & -> & Hg' & Ho').
    split_and!; [done|done|done|]. eapply only_trans; [eapply only_weaken; [|exact Ho1]; by left|].
    eapply only_weaken; [|exact Ho']. intros b [->| ->]; [by left|by right].
Qed.

(** Where the blocks are. *)
Ltac addrs := unfold n_used, n_ind, blk_addr, ind_addr in *; lay;
  repeat match goal with
  | |- context [?a <? ?b] => destruct (Z.ltb_spec a b)
  | H : context [?a <? ?b] |- _ => destruct (Z.ltb_spec a b)
  | |- context [?a <=? ?b] => destruct (Z.leb_spec a b)
  end; Z.to_euclidean_division_equations; lia.

Lemma blk_addr_inj i j : 0 ≤ i → 0 ≤ j → blk_addr D i = blk_addr D j → i = j.
Proof. intros Hi Hj E. addrs. Qed.
Lemma blk_ind_ne j q : 0 ≤ j → 0 ≤ q → blk_addr D j ≠ ind_addr D q.
Proof. intros Hj Hq E. addrs. Qed.
Lemma blk_addr_lt j n : 0 ≤ j < n → data_start + D ≤ blk_addr D j < data_start + D + n_used n.
Proof. intros Hj. split; addrs. Qed.
Lemma n_used_mono n n' : 0 ≤ n ≤ n' → n_used n ≤ n_used n'.
Proof. intros Hn. addrs. Qed.
Lemma ind_addr_ge q : 0 ≤ q → data_start + D ≤ ind_addr D q.
Proof. intros Hq. addrs. Qed.

Lemma length_chunk bytes j : length (chunk bytes j) = Z.to_nat BLOCK_SIZE.
Proof. unfold chunk. rewrite length_app, length_replicate. rewrite length_take. lia. Qed.

(** The blocks of the file, and nothing before them but the bitmap. *)
Definition after_D (b : Z) : Prop := b = data_bitmap_start ∨ data_start + D ≤ b.

Lemma map_blk_after n b : map_blk n b → after_D b.
Proof.
  intros [->|[Hn ->]]; [by left|right]. apply ind_addr_ge. lay. Z.to_euclidean_division_equations; lia.
Qed.

(** One block of the file. *)
Lemma copy_file_block_spec n di s bytes :
  growing n di s → stored D n bytes (fs_fd s) → 0 ≤ n < 778 → D + n_used (n + 1) ≤ n_data_blks →
  runs (mkfs_block_map di n) s (λ '(di', a) s1, runs (mkfs_write_block a (chunk bytes n)) s1 (λ _ s',
    readdressed di di' ∧ growing (n + 1) di' s' ∧ stored D (n + 1) bytes (fs_fd s') ∧ only after_D s s')).
Proof.
  intros Hg Hs Hn Hmax. kcall (block_map_spec n di s Hg Hn Hmax). intros [di' a] s1 (-> & Hdi & [G1 G2] & Ho).
  unfold mkfs_write_block. kstep. pose proof (blk_addr_lt n (n + 1)) as Hb.
  destruct (write_block_ok _ _ s1 (blk_addr D n) (chunk bytes n) G1) as [W1 W2]; [lay_lia|apply length_chunk|lay_lia..|].
  split_and!; [done| | |].
  - split; [done|]. eapply laid_ext; [done|]. intros q Hq. apply lookup_insert_ne. apply blk_ind_ne; lia.
  - intros j Hj. cbn [fs_fd set_fs_fd]. destruct (decide (j = n)) as [->|Hne]; [apply lookup_insert_eq|].
    rewrite lookup_insert_ne by (intros E%blk_addr_inj; lia). rewrite (proj2 Ho); [apply Hs; lia|].
    pose proof (blk_addr_lt j n). intros [E|[Hge E]]; [lay_lia|]. revert E. apply blk_ind_ne; [lia|].
    lay. Z.to_euclidean_division_equations; lia.
  - eapply only_trans; [eapply only_weaken; [apply map_blk_after|exact Ho]|].
    eapply only_weaken; [|exact W2]. intros b ->. right. lia.
Qed.

Lemma copy_blocks_spec bytes : let nb := n_chunks bytes in
  nb ≤ 778 → D + n_used nb ≤ n_data_blks → ∀ fuel n di s,
  growing n di s → stored D n bytes (fs_fd s) → 0 ≤ n < nb → di_size di = n * BLOCK_SIZE → nb - n ≤ Z.of_nat fuel →
  runs (copy_blocks fuel di n (drop (Z.to_nat (n * BLOCK_SIZE)) bytes)) s (λ di' s',
    growing nb di' s' ∧ stored D nb bytes (fs_fd s') ∧ only after_D s s' ∧
    di' = mk_d_inode (di_type di) (di_major di) (di_minor di) (di_nlink di) (Z.of_nat (length bytes)) (di_addrs di')).
Proof.
  intros nb Hnb Hmax. induction fuel as [|fuel IH]; intros n di s Hg Hs Hn Hsz Hf; [lia|].
  cbn [copy_blocks]. set (rest := drop _ bytes). kstep. pose proof (n_used_mono (n + 1) nb).
  kcall (copy_file_block_spec n di s bytes Hg Hs); [lia..|]. intros [di1 a] s1 Hw.
  kstep. eapply runs_conseq; [exact Hw|]. intros [] s2 (Hdi & Hg2 & Hs2 & Ho2). clear Hw s1.
  assert (length rest = (length bytes - Z.to_nat (n * BLOCK_SIZE))%nat) as Hlr by apply length_drop.
  assert (length (take (Z.to_nat BLOCK_SIZE) rest) = Z.to_nat BLOCK_SIZE `min` length rest)%nat as Hlt by apply length_take.
  rewrite Hdi. cbn [add_di_size di_size di_type di_major di_minor di_nlink di_addrs]. rewrite Hsz, Hlt.
  unfold nb, n_chunks in *. lay.
  destruct (Z.ltb_spec (Z.of_nat (Z.to_nat 1024 `min` length rest)) 1024) as [Hlast|Hmore].
  - assert (n + 1 = Z.of_nat (length bytes) / 1024 + 1) as E by (Z.to_euclidean_division_equations; lia).
    kstep. rewrite <-E. split_and!; [|done|done|].
    + destruct Hg2 as [G1 [L1 L2 L3 L4]]. by split.
    + unfold add_di_size. cbn [di_type di_major di_minor di_nlink di_size di_addrs]. f_equal. rewrite wrap_small; Z.to_euclidean_division_equations; lia.
  - assert (n + 1 < Z.of_nat (length bytes) / 1024 + 1) as E by (Z.to_euclidean_division_equations; lia).
    unfold rest. rewrite drop_drop. replace (Z.to_nat (n * 1024) + Z.to_nat 1024)%nat with (Z.to_nat ((n + 1) * 1024)) by lia.
    kcall (IH (n + 1)).
    + destruct Hg2 as [G1 [L1 L2 L3 L4]]. by split.
    + done.
    + lia.
    + cbn [add_di_size di_size]. lay. fold rest. rewrite wrap_small; Z.to_euclidean_division_equations; lia.
    + lia.
    + intros di' s' (Hg' & Hs' & Ho' & Hdi'). split_and!; [done|done|by eapply only_trans|done].
Qed.
End file.

(** ** Directory entries *)

Lemma xuint16_small x : 0 ≤ x < 2 ^ 16 → mkfs_xuint16 x = x.
Proof. intros H. unfold mkfs_xuint16. apply get_put_le_small; [simpl; lia|done]. Qed.
Lemma xuint32_small x : 0 ≤ x < 2 ^ 32 → mkfs_xuint32 x = x.
Proof. intros H. unfold mkfs_xuint32. apply get_put_le_small; [simpl; lia|done]. Qed.

Lemma dir_entry_spec D I s k name ino :
  mk_ok D I s → 1 ≤ D → root_block s = data_start → (k < 32)%nat → 0 ≤ ino < 2 ^ 16 →
  runs (mkfs_create_dir_entry (32 * Z.of_nat k) name ino) s (λ off s', off = 32 * Z.of_nat (S k) ∧ mk_ok D I s' ∧
    only (λ b, b = data_start) s s' ∧ root_entry (fs_fd s') k = (ino, strncpy (rdl name) DIR_SIZE) ∧
    ∀ k', k' ≠ k → root_entry (fs_fd s') k' = root_entry (fs_fd s) k').
Proof.
  intros H HD Hrb Hk Hi. unfold mkfs_create_dir_entry. rewrite xuint16_small by done.
  set (de := put_le 2 ino 0 [0; 0] ++ strncpy (rdl name) DIR_SIZE). kstep. kstep. rewrite Hrb.
  kstep. kcall (read_block_spec _ _ _ _ H); [lay_lia|]. intros buf ? (-> & Hbuf & Hl).
  rewrite (proj2 (Z.leb_le _ _)) by lay_lia. kstep. unfold mkfs_write_block. kstep. kstep.
  destruct (strncpy_from_spec (rdl name) DIR_SIZE 0) as [Hs _]. fold (strncpy (rdl name) DIR_SIZE) in Hs.
  assert (length (put_le 2 ino 0 [0; 0]) = 2%nat) as Hpl by apply length_put_le.
  assert (length de = 32%nat) as Hde by (unfold de; by rewrite length_app, Hpl, Hs).
  replace (Z.to_nat (32 * Z.of_nat k)) with (32 * k)%nat by lia. set (o := (32 * k)%nat).
  assert (o + 32 ≤ length buf)%nat as Ho by (rewrite Hl; lay; unfold o; lia).
  set (buf' := list_inserts o de buf).
  assert (length buf' = Z.to_nat BLOCK_SIZE) as Hl' by (unfold buf'; by rewrite length_inserts).
  destruct (write_block_ok D I s data_start buf' H) as [W1 W2]; [lay_lia|exact Hl'|lay_lia..|].
  split_and!; [lay_lia|done|done| |].
  - unfold root_entry, blk. cbn [fs_fd set_fs_fd]. rewrite lookup_insert_eq. cbn [from_option id].
    fold o. unfold buf'. rewrite slice_inserts by (rewrite Hde; done || lia).
    rewrite <-(Nat.add_0_r o) at 2. rewrite get_le_inserts by lia. f_equal.
    + unfold de, get_le. rewrite drop_0, take_app_le by lia. rewrite <-(drop_0 (put_le _ _ _ _)).
      by apply get_put_le_small.
    + unfold de. rewrite drop_app_ge, Hpl by lia. rewrite drop_0, take_ge by (rewrite Hs; done). done.
  - intros k' Hne. unfold root_entry, blk. cbn [fs_fd set_fs_fd]. rewrite lookup_insert_eq, Hbuf. cbn [from_option id].
    unfold buf'. change DIR_SIZE with 30%nat. rewrite get_le_inserts_ne, slice_inserts_ne by (rewrite Hde; unfold o; lia). done.
Qed.

(** ** The files one after the other *)

(** The data blocks in use after the files: the root directory has one. *)
Definition blocks_of (files : list (list Z * list Z)) : Z :=
  foldr (λ f acc, n_used (n_chunks f.2) + acc) 1 files.

(** A new inode. *)
Definition fresh_inode (type : Z) : d_inode := mk_d_inode type 0 0 1 0 (replicate 13 0).

(** Inode [ino] is the file [bytes], stored from data block [D] on. *)
Definition file_at (img : gmap Z (list Z)) (ino D : Z) (bytes : list Z) : Prop :=
  let nb := n_chunks bytes in
  let di := disk_inode img ino in
  laid D nb (n_ind nb) di img ∧ stored D nb bytes img ∧
  di = mk_d_inode FT_FILE 0 0 1 (Z.of_nat (length bytes)) (di_addrs di).

Record made (files : list (list Z * list Z)) (s : mkfs) : Prop := {
  md_ok : mk_ok (blocks_of files) (1 + Z.of_nat (length files)) s;
  md_root : root_block s = data_start ∧ root_inode s = fresh_inode FT_DIR;
  md_sb : parse_sb (blk (fs_fd s) 1) = layout;
  md_log : fs_fd s !! log_start = Some zero_block;
  md_dots : root_entry (fs_fd s) 0 = (ROOT_INO, strncpy (rdl [46]) DIR_SIZE) ∧
            root_entry (fs_fd s) 1 = (ROOT_INO, strncpy (rdl [46; 46]) DIR_SIZE);
  md_entries : ∀ i f, files !! i = Some f →
    root_entry (fs_fd s) (i + 2) = (Z.of_nat (i + 2), strncpy (rdl (short_name f.1)) DIR_SIZE);
  md_files : ∀ i f, files !! i = Some f →
    file_at (fs_fd s) (Z.of_nat (i + 2)) (blocks_of (take i files)) f.2;
}.

Lemma n_used_pos bytes : 0 < n_used (n_chunks bytes).
Proof.
  unfold n_used, n_chunks. pose proof (Z.div_pos (Z.of_nat (length bytes)) BLOCK_SIZE ltac:(lia) ltac:(done)).
  unfold n_ind. case_match; [lia|]. pose proof (Z.div_pos (Z.of_nat (length bytes) / BLOCK_SIZE + 1 - N_DIRECT + APB - 1) APB).
  lay. apply Z.leb_gt in H0. lia.
Qed.

Lemma blocks_of_app files f : blocks_of (files ++ [f]) = blocks_of files + n_used (n_chunks f.2).
Proof. unfold blocks_of. induction files as [|g files IH]; cbn [app foldr]; lia. Qed.

Lemma blocks_of_pos files : 1 ≤ blocks_of files.
Proof. unfold blocks_of. induction files as [|g l IH]; cbn [foldr]; [lia|]. pose proof (n_used_pos g.2). lia. Qed.

Lemma blocks_of_take files i f :
  files !! i = Some f → 1 ≤ blocks_of (take i files) ∧ blocks_of (take i files) + n_used (n_chunks f.2) ≤ blocks_of files.
Proof.
  revert i. unfold blocks_of. induction files as [|g files IH]; intros [|i] Hi; [done..| |]; simplify_eq/=.
  - clear IH. split; [lia|]. induction files as [|g files IH]; cbn [foldr]; [lia|]. pose proof (n_used_pos g.2). lia.
  - pose proof (n_used_pos g.2). specialize (IH i Hi). lia.
Qed.

(** What the copy of a file changes, with the data blocks from [D] on free. *)
Definition touched (D b : Z) : Prop :=
  b = inode_bitmap_start ∨ inode_start ≤ b ≤ data_start ∨ data_start + D ≤ b.

Lemma disk_inode_only P s s' ino :
  only P s s' → 0 ≤ ino < 8192 → ¬ P (inode_blk ino) → disk_inode (fs_fd s') ino = disk_inode (fs_fd s) ino.
Proof. intros [_ H] Hi HP. unfold disk_inode, blk. by rewrite H. Qed.

Lemma root_entry_only P s s' k : only P s s' → ¬ P data_start → root_entry (fs_fd s') k = root_entry (fs_fd s) k.
Proof. intros [_ H] HP. unfold root_entry, blk. by rewrite H. Qed.

Lemma ind_addr_lt D n q : 0 ≤ q < n_ind n → ind_addr D q < data_start + D + n_used n.
Proof.
  intros Hq. unfold n_used, n_ind, ind_addr in *. lay. destruct (Z.leb_spec n 10); Z.to_euclidean_division_equations; lia.
Qed.

Lemma file_at_only B s s' ino D bytes :
  file_at (fs_fd s) ino D bytes → only (touched B) s s' →
  disk_inode (fs_fd s') ino = disk_inode (fs_fd s) ino → 1 ≤ D → D + n_used (n_chunks bytes) ≤ B →
  file_at (fs_fd s') ino D bytes.
Proof.
  intros (HL & HS & HM) [_ Ho] Hdi HD HB. unfold file_at. rewrite Hdi. split_and!; [|intros j Hj|done].
  - eapply laid_ext; [done|]. intros q Hq. apply Ho. pose proof (ind_addr_lt D _ _ Hq).
    pose proof (ind_addr_ge D q ltac:(lia)). unfold touched. lay_lia.
  - rewrite Ho; [by apply HS|]. pose proof (blk_addr_lt D j (n_chunks bytes) Hj). unfold touched. lay_lia.
Qed.

(** ** One file *)

Lemma fresh_inode_ok type : 0 ≤ type < 2 ^ 16 → dinode_ok (fresh_inode type).
Proof. intros H. split; try done. by apply Forall_replicate. Qed.

Lemma create_inode_eq ino type :
  0 ≤ type < 2 ^ 16 → mkfs_create_inode ino type = (mkfs_write_inode ino (fresh_inode type);; mret (fresh_inode type)).
Proof. intros H. unfold mkfs_create_inode. by rewrite (xuint16_small type). Qed.

Lemma update_inode_eq ino di :
  dinode_ok di → mkfs_update_inode ino di = (mkfs_write_inode ino di;; mret di).
Proof.
  intros H. unfold mkfs_update_inode. rewrite xuint32_small by apply H.
  replace (mkfs_xuint32 <$> di_addrs di) with (di_addrs di); [by destruct di|].
  rewrite <-(list_fmap_id (di_addrs di)) at 1. apply list_fmap_ext. intros i a Ha. symmetry. apply xuint32_small.
  by apply (Forall_lookup_1 _ _ _ _ (ok_di_addrs _ H) Ha).
Qed.

Lemma laid_fresh D type img : laid D 0 0 (fresh_inode type) img.
Proof.
  split; cbn [fresh_inode di_addrs].
  - done.
  - intros k Hk. rewrite lookup_replicate_2 by lay_lia. by rewrite (proj2 (Z.ltb_ge _ _)) by lia.
  - intros q Hq. rewrite lookup_replicate_2 by lay_lia. by rewrite (proj2 (Z.ltb_ge _ _)) by lia.
  - intros; lia.
Qed.

Lemma laid_addrs D n m di img :
  laid D n m di img → 0 ≤ D < 8192 → n ≤ 778 → Forall (λ a, 0 ≤ a < 2 ^ 32) (di_addrs di).
Proof.
  intros [H1 H2 H3 H4] HD Hn. apply Forall_lookup_2. intros i a Ha. pose proof (lookup_lt_Some _ _ _ Ha) as Hi.
  rewrite H1 in Hi. destruct (decide (i < 10)%nat) as [Hd|Hd].
  - specialize (H2 (Z.of_nat i) ltac:(lay_lia)). rewrite Nat2Z.id, Ha in H2. injection H2 as ->.
    pose proof (blk_addr_bound D (Z.of_nat i)). case_match; lia.
  - specialize (H3 (Z.of_nat i - 10) ltac:(lay_lia)). replace (Z.to_nat (N_DIRECT + (Z.of_nat i - 10))) with i in H3 by lay_lia.
    rewrite Ha in H3. injection H3 as ->. unfold ind_addr. case_match; lay_lia.
Qed.

(** The inode is stored last: the file is in the image. *)
Lemma file_stored B s s' ino di bytes :
  0 ≤ ino < 8192 → 1 ≤ B → let nb := n_chunks bytes in
  laid B nb (n_ind nb) di (fs_fd s) → stored B nb bytes (fs_fd s) →
  di = mk_d_inode FT_FILE 0 0 1 (Z.of_nat (length bytes)) (di_addrs di) →
  only (λ b, b = inode_blk ino) s s' → disk_inode (fs_fd s') ino = di → file_at (fs_fd s') ino B bytes.
Proof.
  intros Hino HB nb HL HS HM [_ Ho] Hdi. pose proof (inode_blk_bounds ino Hino) as Hib. unfold file_at. rewrite Hdi.
  split_and!; [|intros j Hj|done].
  - eapply laid_ext; [exact HL|]. intros q Hq. apply Ho. pose proof (ind_addr_ge B q ltac:(lia)). lay_lia.
  - rewrite Ho; [by apply HS|]. pose proof (blk_addr_lt B j _ Hj). lay_lia.
Qed.

(** The steps of a copy together. *)
Lemma copy_frames B ino s s1 s2 s3 s4 s5 :
  0 ≤ ino < 8192 → 1 ≤ B →
  only (λ b, b = inode_bitmap_start) s s1 → only (λ b, b = inode_blk ino) s1 s2 →
  only (λ b, b = data_start) s2 s3 → only (after_D B) s3 s4 → only (λ b, b = inode_blk ino) s4 s5 →
  only (touched B) s s5 ∧
  (∀ k, root_entry (fs_fd s2) k = root_entry (fs_fd s) k ∧ root_entry (fs_fd s5) k = root_entry (fs_fd s3) k) ∧
  (∀ i, 0 ≤ i < 8192 → disk_inode (fs_fd s1) i = disk_inode (fs_fd s) i ∧
                       disk_inode (fs_fd s4) i = disk_inode (fs_fd s2) i).
Proof.
  intros Hino HB O1 O2 O3 O4 O5. pose proof (inode_blk_bounds ino Hino) as Hib. split_and!.
  - eapply only_trans; [eapply only_weaken; [|exact O1]; intros b ->; unfold touched; lay_lia|].
    eapply only_trans; [eapply only_weaken; [|exact O2]; intros b ->; unfold touched; lay_lia|].
    eapply only_trans; [eapply only_weaken; [|exact O3]; intros b ->; unfold touched; lay_lia|].
    eapply only_trans; [eapply only_weaken; [|exact O4]; intros b Hb; unfold after_D, touched in *; lay_lia|].
    eapply only_weaken; [|exact O5]; intros b ->; unfold touched; lay_lia.
  - intros k. split.
    + rewrite (root_entry_only _ _ _ _ O2), (root_entry_only _ _ _ _ O1) by lay_lia. done.
    + rewrite (root_entry_only _ _ _ _ O5), (root_entry_only _ _ _ _ O4) by (unfold after_D; lay_lia). done.
  - intros i Hi. pose proof (inode_blk_bounds i Hi). split.
    + apply (disk_inode_only _ _ _ _ O1 Hi). lay_lia.
    + rewrite (disk_inode_only _ _ _ _ O4 Hi), (disk_inode_only _ _ _ _ O3 Hi) by (unfold after_D; lay_lia). done.
Qed.

(** The file in the image: its inode, its entry and its blocks. *)
Lemma copy_file_spec B n s arg bytes :
  mk_ok B (1 + Z.of_nat n) s → root_block s = data_start → 1 ≤ B → (n < 30)%nat →
  n_chunks bytes ≤ 778 → B + n_used (n_chunks bytes) ≤ n_data_blks →
  runs (copy_file (32 * Z.of_nat (n + 2)) arg (Some bytes)) s (λ off s', off = 32 * Z.of_nat (S n + 2) ∧
    mk_ok (B + n_used (n_chunks bytes)) (1 + Z.of_nat (S n)) s' ∧ only (touched B) s s' ∧
    file_at (fs_fd s') (Z.of_nat (n + 2)) B bytes ∧
    root_entry (fs_fd s') (n + 2) = (Z.of_nat (n + 2), strncpy (rdl (short_name arg)) DIR_SIZE) ∧
    (∀ ino, 0 ≤ ino < 8192 → ino ≠ Z.of_nat (n + 2) → disk_inode (fs_fd s') ino = disk_inode (fs_fd s) ino) ∧
    (∀ k, k ≠ (n + 2)%nat → root_entry (fs_fd s') k = root_entry (fs_fd s) k)).
Proof.
  intros H0 Hrb HB Hn Hnb Hmax. change n_data_blks with 8192 in *. pose proof (n_used_pos bytes) as Hup. unfold copy_file.
  kstep. kcall (inode_alloc_spec _ _ _ H0); [lia|change n_data_blks with 8192; lia|]. intros ? s1 (-> & H1 & O1).
  replace (1 + Z.of_nat n + 1) with (Z.of_nat (n + 2)) in * by lia. set (ino := Z.of_nat (n + 2)).
  assert (0 ≤ ino < 8192) as Hino by lia. pose proof (inode_blk_bounds ino Hino) as Hib.
  rewrite create_inode_eq by done. kstep. kstep.
  kcall (write_inode_spec _ _ _ ino (fresh_inode FT_FILE) H1 Hino); [lia|by apply fresh_inode_ok|].
  intros [] s2 (H2 & O2 & G2 & K2). kstep.
  kstep. kcall (dir_entry_spec _ _ s2 (n + 2) (short_name arg) ino H2); [lia| |lia|lia|].
  { rewrite (proj1 O2), (proj1 O1). done. }
  intros ? s3 (-> & H3 & O3 & E3 & K3).
  kstep. kcall (copy_blocks_spec B (Z.of_nat (n + 2)) ltac:(lia) bytes Hnb Hmax (S (length bytes)) 0 (fresh_inode FT_FILE) s3).
  { split; [|apply laid_fresh]. change (n_used 0) with 0. by rewrite Z.add_0_r. }
  { intros j Hj. lia. }
  { unfold n_chunks. lay. Z.to_euclidean_division_equations; lia. }
  { done. }
  { unfold n_chunks. lay. Z.to_euclidean_division_equations; lia. }
  intros di s4 ([G4 L4] & S4 & O4 & M4).
  assert (dinode_ok di) as Hok.
  { rewrite M4. split; try done; cbn [di_size di_addrs di_type di_major di_minor di_nlink fresh_inode].
    - unfold n_chunks in Hnb. lay. Z.to_euclidean_division_equations; lia.
    - apply L4.
    - eapply laid_addrs; [exact L4|lia|done]. }
  rewrite update_inode_eq by done. kstep. kstep.
  kcall (write_inode_spec _ _ _ ino di G4 Hino); [lia|done|]. intros [] s5 (H5 & O5 & G5 & K5). kstep. kstep.
  destruct (copy_frames B ino s s1 s2 s3 s4 s5 Hino HB O1 O2 O3 O4 O5) as (F1 & F2 & F3).
  split_and!.
  - lia.
  - by replace (1 + Z.of_nat (S n)) with (Z.of_nat (n + 2)) by lia.
  - done.
  - by eapply file_stored.
  - by rewrite (proj2 (F2 _)).
  - intros i Hi Hne. destruct (F3 i Hi) as [F3a F3b]. by rewrite K5, F3b, K2.
  - intros k Hk. by rewrite (proj2 (F2 k)), K3, (proj1 (F2 k)).
Qed.

(** ** All of the files *)

(** What happens outside of the files that are there leaves them. *)
Lemma made_only files s s' :
  made files s → only (touched (blocks_of files)) s s' → (length files ≤ 30)%nat →
  (∀ i, 2 ≤ i < 2 + Z.of_nat (length files) → disk_inode (fs_fd s') i = disk_inode (fs_fd s) i) →
  ∀ i f, files !! i = Some f → file_at (fs_fd s') (Z.of_nat (i + 2)) (blocks_of (take i files)) f.2.
Proof.
  intros Hm Ho Hlen Hi i f Hf. pose proof (lookup_lt_Some _ _ _ Hf). destruct (blocks_of_take _ _ _ Hf).
  eapply file_at_only; [by apply (md_files _ _ Hm)|exact Ho|apply Hi; lia|done|done].
Qed.

Lemma made_step files f s :
  made files s → (length files < 30)%nat → n_chunks f.2 ≤ 778 → blocks_of (files ++ [f]) ≤ n_data_blks →
  runs (copy_file (32 * Z.of_nat (length files + 2)) f.1 (Some f.2)) s (λ off s',
    off = 32 * Z.of_nat (S (length files) + 2) ∧ made (files ++ [f]) s').
Proof.
  intros Hm Hlen Hnb Hmax. pose proof Hm as [M1 [M2 M2'] M3 M4 [M5 M5'] M6 M7]. rewrite blocks_of_app in Hmax.
  pose proof (blocks_of_pos files) as HB.
  kcall (copy_file_spec _ _ _ f.1 f.2 M1 M2 HB Hlen Hnb Hmax).
  intros off s' (-> & H' & Ho & Hat & He & Ki & Ke). split; [done|]. pose proof Ho as [Es Hs].
  assert (∀ a, a < inode_bitmap_start → fs_fd s' !! a = fs_fd s !! a) as Hlow.
  { intros a Ha. apply Hs. unfold touched. lay_lia. }
  assert (length (files ++ [f]) = S (length files)) as El by (rewrite length_app; simpl; lia).
  split; rewrite ?blocks_of_app, ?El.
  - done.
  - by rewrite Es.
  - unfold blk. rewrite Hlow by lay_lia. exact M3.
  - rewrite Hlow by lay_lia. done.
  - rewrite !Ke by lia. done.
  - intros i g Hg. apply lookup_app_Some in Hg as [Hg|[Hi Hg]].
    + rewrite Ke by (apply lookup_lt_Some in Hg; lia). by apply M6.
    + apply list_lookup_singleton_Some in Hg as [? <-]. replace (i + 2)%nat with (length files + 2)%nat by lia. done.
  - intros i g Hg. apply lookup_app_Some in Hg as [Hg|[Hi Hg]].
    + pose proof (lookup_lt_Some _ _ _ Hg). rewrite take_app_le by lia.
      eapply (made_only files s s'); [done|done|lia| |done]. intros k Hk. apply Ki; lia.
    + apply list_lookup_singleton_Some in Hg as [? <-]. assert (i = length files) as -> by lia.
      rewrite take_app_length. done.
Qed.

Lemma copy_files_spec rest : ∀ files s count,
  made files s → (length files + length rest ≤ 30)%nat → Forall (λ f, n_chunks f.2 ≤ 778) rest →
  blocks_of (files ++ rest) ≤ n_data_blks →
  runs (copy_files (32 * Z.of_nat (length files + 2)) count ((λ f, (f.1, Some f.2)) <$> rest)) s (λ c s',
    c = count + Z.of_nat (length rest) ∧ made (files ++ rest) s').
Proof.
  induction rest as [|f rest IH]; intros files s count Hm Hlen Hall Hmax; cbn [fmap list_fmap copy_files length] in *.
  { kstep. rewrite app_nil_r. split; [lia|done]. }
  apply Forall_cons in Hall as [Hf Hall]. rewrite (proj2 (Z.leb_gt _ _)) by lay_lia.
  rewrite cons_middle, (assoc_L (++)) in Hmax |- *.
  kstep. kcall (made_step files f s Hm); [lia|done| |].
  { etrans; [|exact Hmax]. clear. induction rest as [|g rest IH] using rev_ind; [by rewrite app_nil_r|].
    rewrite (assoc_L (++)), (blocks_of_app _ g). pose proof (n_used_pos g.2). lia. }
  intros off s1 [-> H1]. replace (S (length files)) with (length (files ++ [f])) by (rewrite length_app; simpl; lia).
  kcall (IH (files ++ [f]) s1 (count + 1) H1); [rewrite length_app; simpl; lia|done|done|].
  intros c s2 [-> H2]. split; [lia|done].
Qed.

(** ** Reading a file back *)

Lemma concat_chunks bytes c : ∀ n, 0 ≤ n →
  ∃ k, concat (chunk bytes <$> seqZ n (Z.of_nat c)) =
       take (c * Z.to_nat BLOCK_SIZE) (drop (Z.to_nat (n * BLOCK_SIZE)) bytes) ++ replicate k 0.
Proof.
  induction c as [|c IH]; intros n Hn; [by exists 0%nat|]. rewrite seqZ_cons by lia.
  replace (Z.pred (Z.of_nat (S c))) with (Z.of_nat c) by lia. cbn [fmap list_fmap concat].
  destruct (IH (Z.succ n)) as [k ->]; [lia|]. unfold chunk. set (R := drop (Z.to_nat (n * BLOCK_SIZE)) bytes).
  replace (drop (Z.to_nat (Z.succ n * BLOCK_SIZE)) bytes) with (drop (Z.to_nat BLOCK_SIZE) R)
    by (unfold R; rewrite drop_drop; f_equal; lay_lia).
  rewrite length_take. set (w := Z.to_nat BLOCK_SIZE). change (S c * w)%nat with (w + c * w)%nat.
  destruct (decide (w ≤ length R)%nat) as [Hw|Hw].
  - exists k. rewrite Nat.min_l, Nat.sub_diag by done. cbn [replicate]. rewrite app_nil_r, (assoc_L (++)). f_equal.
    by rewrite take_take_drop.
  - exists (w - length R + k)%nat. rewrite Nat.min_r, (drop_ge R), take_nil, !(take_ge R) by lia.
    by rewrite <-(assoc_L (++)), replicate_add.
Qed.

Lemma file_at_addr img ino D bytes j :
  file_at img ino D bytes → n_chunks bytes ≤ 778 → 0 ≤ j < n_chunks bytes →
  file_addr img (disk_inode img ino) j = blk_addr D j.
Proof.
  intros ([L1 L2 L3 L4] & _ & _) Hnb Hj. unfold file_addr. destruct (Z.ltb_spec j N_DIRECT) as [Hd|Hd].
  - rewrite L2 by lia. cbn [from_option id]. by rewrite (proj2 (Z.ltb_lt _ _)) by lia.
  - pose proof (Z.mod_pos_bound (j - N_DIRECT) APB ltac:(done)) as Hr.
    assert (0 ≤ (j - N_DIRECT) / APB < N_INDIRECT) as Hq by (lay; Z.to_euclidean_division_equations; lia).
    assert (j = N_DIRECT + (j - N_DIRECT) / APB * APB + (j - N_DIRECT) mod APB) as Esp
      by (lay; Z.to_euclidean_division_equations; lia).
    set (q := (j - N_DIRECT) / APB) in *. set (r := (j - N_DIRECT) mod APB) in *. clearbody q r.
    assert (q < n_ind (n_chunks bytes)) as Hqi.
    { unfold n_ind. lay. destruct (Z.leb_spec (n_chunks bytes) 10); Z.to_euclidean_division_equations; lia. }
    rewrite L3 by lia. cbn [from_option id]. rewrite (proj2 (Z.ltb_lt _ _)) by done.
    destruct (L4 q) as (d & Hd' & _ & Hw); [lia|]. unfold blk. rewrite Hd'. cbn [from_option id].
    rewrite Hw by done. rewrite <-Esp. by rewrite (proj2 (Z.ltb_lt _ _)) by lia.
Qed.

Lemma file_at_read img ino D bytes :
  file_at img ino D bytes → n_chunks bytes ≤ 778 → read_file img (disk_inode img ino) = bytes.
Proof.
  intros Hf Hnb. pose proof Hf as (_ & HS & HM). unfold read_file.
  assert (di_size (disk_inode img ino) = Z.of_nat (length bytes)) as -> by by rewrite HM.
  rewrite Nat2Z.id. set (c := (Z.of_nat (length bytes) + BLOCK_SIZE - 1) / BLOCK_SIZE).
  assert (0 ≤ c ≤ n_chunks bytes ∧ Z.of_nat (length bytes) ≤ c * BLOCK_SIZE) as [Hc Hcl].
  { unfold c, n_chunks. lay. Z.to_euclidean_division_equations; lia. }
  rewrite (list_fmap_ext _ (chunk bytes)).
  2: { intros i j [-> Hij]%lookup_seqZ. rewrite (file_at_addr img ino D bytes) by (done || lia). unfold blk.
       by rewrite HS by lia. }
  destruct (concat_chunks bytes (Z.to_nat c) 0) as [k Hk]; [done|]. rewrite Z2Nat.id in Hk by lia. rewrite Hk.
  rewrite drop_0, (take_ge bytes) by lay_lia. by rewrite take_app_length.
Qed.

(** ** [main] *)

Lemma init_sb_eq : mkfs_init_sb = modify (set_mk_sb layout).
Proof. unfold mkfs_init_sb. rewrite !xuint32_small by done. done. Qed.

Lemma zero_image s :
  mk_sb s = layout → fs_fd s = ∅ →
  runs (kiter (seqZ 0 n_blks) (λ i, mkfs_write_block i zero_block)) s (λ _ s',
    mk_sb s' = layout ∧ (∀ a, 0 ≤ a < n_blks → is_Some (fs_fd s' !! a)) ∧ map_Forall (λ _ d, d = zero_block) (fs_fd s')).
Proof.
  intros Hs He. eapply runs_conseq.
  { apply (runs_kiter (λ l s', mk_sb s' = layout ∧ (∀ a, a ∈ l → is_Some (fs_fd s' !! a)) ∧
      map_Forall (λ _ d, d = zero_block) (fs_fd s')) _ _ [] s).
    - split_and!; [done|intros a Ha; by apply elem_of_nil in Ha|]. rewrite He. apply map_Forall_empty.
    - intros pre x post s' _ (H1 & H2 & H3). unfold mkfs_write_block. kstep. cbn [fs_fd set_fs_fd].
      split_and!; [done| |by apply map_Forall_insert_2]. intros a Ha. apply lookup_insert_is_Some'.
      destruct (decide (x = a)); [by left|right]. apply H2. cbn [app] in *. set_solver. }
  intros [] s' (H1 & H2 & H3). split_and!; [done| |done]. intros a Ha. apply H2. cbn [app]. by apply elem_of_seqZ.
Qed.

Lemma zero_bit_clear k : bit_clear zero_block k = true.
Proof.
  unfold bit_clear, zero_block. destruct (replicate _ 0 !! _) as [x|] eqn:E; [|done].
  apply lookup_replicate in E as [-> _]. by rewrite Z.land_0_l.
Qed.

(** The image before anything is allocated. *)
Lemma empty_ok s d :
  mk_sb s = layout → (∀ a, 0 ≤ a < n_blks → is_Some (fs_fd s !! a)) → map_Forall (λ _ d, d = zero_block) (fs_fd s) →
  length d = Z.to_nat BLOCK_SIZE → mk_ok 0 0 (set_fs_fd (<[1 := d]> (fs_fd s)) s).
Proof.
  intros Hs Hz Hall Hd.
  assert (∀ a, 0 ≤ a < n_blks → a ≠ 1 → <[1 := d]> (fs_fd s) !! a = Some zero_block) as Hl.
  { intros a Ha Hne. rewrite lookup_insert_ne by done. destruct (Hz a Ha) as [x Hx]. by rewrite Hx, (Hall a x Hx). }
  split; cbn [fs_fd set_fs_fd mk_sb]; [done| | | | |].
  - intros a Ha. apply lookup_insert_is_Some'. auto.
  - apply map_Forall_insert_2; [done|]. intros a x Hx. by rewrite (Hall a x Hx).
  - intros k Hk. unfold blk. rewrite Hl by lay_lia. cbn [from_option id]. rewrite zero_bit_clear.
    symmetry. apply bool_decide_eq_true_2. lia.
  - intros k Hk. unfold blk. rewrite Hl by lay_lia. cbn [from_option id]. rewrite zero_bit_clear.
    symmetry. apply bool_decide_eq_true_2. lia.
  - intros a Ha. apply Hl; lay_lia.
Qed.

Lemma sb_block_parses : parse_sb (list_inserts 0 (sb_bytes layout) zero_block) = layout.
Proof. by vm_compute. Qed.

Lemma mk_ok_ext D I s s' : mk_ok D I s → mk_sb s' = mk_sb s → fs_fd s' = fs_fd s → mk_ok D I s'.
Proof. intros [H1 H2 H2' H3 H4 H5] E1 E2. split; rewrite ?E1, ?E2; done. Qed.

(** The root directory is there, with its two entries, when the rest [k] of
    [main] starts. *)
Lemma root_spec (k : Z → Z → HM unit) Q s :
  mk_ok 0 0 s → parse_sb (blk (fs_fd s) 1) = layout → fs_fd s !! log_start = Some zero_block →
  (∀ s', made [] s' → runs (k ROOT_INO 64) s' Q) →
  runs (rino ← mkfs_inode_alloc;
        modify (set_root_ino rino);;
        if negb (rino =? ROOT_INO) then panic "assert" else
        rb ← mkfs_block_alloc;
        modify (set_root_block rb);;
        root ← mkfs_create_inode rino FT_DIR;
        modify (set_root_inode root);;
        off ← mkfs_create_dir_entry 0 [46] ROOT_INO;
        off ← mkfs_create_dir_entry off [46; 46] ROOT_INO;
        k rino off) s Q.
Proof.
  intros H0 Hsb Hlg Hk. kstep. kcall (inode_alloc_spec 0 0 s H0); [lia|change n_data_blks with 8192; lia|].
  intros ? s1 (-> & H1 & [_ O1]). change (0 + 1) with ROOT_INO in *. kstep. kstep.
  rewrite Z.eqb_refl. cbn [negb].
  pose proof (mk_ok_ext _ _ _ (set_root_ino ROOT_INO s1) H1 eq_refl eq_refl) as H1'.
  kstep. kcall (block_alloc_spec _ _ _ H1'); [change n_data_blks with 8192; lia|]. intros ? s2 (-> & H2 & [_ O2]).
  rewrite Z.add_0_r. change (0 + 1) with 1 in H2. kstep. kstep.
  pose proof (mk_ok_ext _ _ _ (set_root_block data_start s2) H2 eq_refl eq_refl) as H2'.
  rewrite create_inode_eq by done. kstep. kstep.
  kcall (write_inode_spec _ _ _ ROOT_INO (fresh_inode FT_DIR) H2'); [done|done|by apply fresh_inode_ok|].
  intros [] s3 (H3 & [E3 O3] & _). kstep. kstep. kstep. set (s3' := set_root_inode _ s3).
  pose proof (mk_ok_ext _ _ _ s3' H3 eq_refl eq_refl) as H3'.
  assert (root_block s3' = data_start) as R3 by (unfold s3'; by rewrite E3).
  kstep. kcall (dir_entry_spec _ _ s3' 0 [46] ROOT_INO H3'); [done|done|lia|done|].
  intros ? s4 (-> & H4 & [E4 O4] & G4 & K4).
  kstep. kcall (dir_entry_spec _ _ s4 1 [46; 46] ROOT_INO H4); [done|by rewrite E4|lia|done|].
  intros ? s5 (-> & H5 & [E5 O5] & G5 & K5). apply Hk.
  assert (∀ a, a < inode_bitmap_start → fs_fd s5 !! a = fs_fd s !! a) as Hlow.
  { intros a Ha. pose proof (inode_blk_bounds ROOT_INO ltac:(done)).
    rewrite O5, O4 by lay_lia. unfold s3'. cbn [fs_fd set_root_inode]. rewrite O3 by lay_lia.
    cbn [fs_fd set_root_block]. rewrite O2 by lay_lia. cbn [fs_fd set_root_ino]. rewrite O1 by lay_lia. done. }
  split; try done.
  - by rewrite E5, E4.
  - unfold blk. rewrite Hlow by lay_lia. exact Hsb.
  - rewrite Hlow by lay_lia. done.
  - split; [|done]. by rewrite K5.
Qed.

(** The last step of [main]: the inode of the root directory. *)
Definition root_dinode (n : Z) : d_inode :=
  mk_d_inode FT_DIR 0 0 1 (n * DIRENT_SIZE) (data_start :: replicate 12 0).

Lemma finish_spec files s n :
  made files s → (length files ≤ 30)%nat → 0 ≤ n ≤ 32 →
  runs (root ← gets root_inode; rb ← gets root_block;
        let root := set_di_addr 0 rb root in
        let root := mk_d_inode (di_type root) (di_major root) (di_minor root) (di_nlink root)
                      (u32 (n * DIRENT_SIZE)) (di_addrs root) in
        root ← mkfs_update_inode ROOT_INO root;
        modify (set_root_inode root)) s (λ _ s',
    map_Forall (λ _ d, length d = Z.to_nat BLOCK_SIZE) (fs_fd s') ∧ (∀ a, 0 ≤ a < n_blks → is_Some (fs_fd s' !! a)) ∧
    disk_inode (fs_fd s') ROOT_INO = root_dinode n ∧
    (∀ i f, files !! i = Some f → file_at (fs_fd s') (Z.of_nat (i + 2)) (blocks_of (take i files)) f.2) ∧
    ∀ a, a < inode_start ∨ data_bitmap_start < a → fs_fd s' !! a = fs_fd s !! a).
Proof.
  intros Hm Hlen Hn. pose proof Hm as [M1 [M2 M2'] M3 M4 [M5 M5'] M6 M7]. kstep. kstep. kstep. kstep. cbv zeta.
  rewrite M2, M2'. cbn [set_di_addr fresh_inode di_type di_major di_minor di_nlink di_addrs].
  rewrite wrap_small by lay_lia. change (<[0%nat := data_start]> (replicate 13 0)) with (data_start :: replicate 12 0).
  fold (root_dinode n).
  assert (dinode_ok (root_dinode n)) as Hok.
  { split; try done; cbn [root_dinode di_size di_addrs]; [lay_lia|]. constructor; [done|]. by apply Forall_replicate. }
  rewrite update_inode_eq by done. kstep. kstep.
  kcall (write_inode_spec _ _ _ ROOT_INO (root_dinode n) M1); [done|pose proof (blocks_of_pos files); lia|done|].
  intros [] s1 (H1 & O1 & G1 & K1). kstep. kstep. cbn [fs_fd set_root_inode].
  pose proof (inode_blk_bounds ROOT_INO ltac:(done)) as Hib.
  split_and!; [apply H1|apply H1|done| |].
  - eapply (made_only files s s1); [done| |done|].
    + eapply only_weaken; [|exact O1]. intros b ->. unfold touched. lay_lia.
    + intros i Hi. apply K1; unfold ROOT_INO; lia.
  - intros a Ha. apply O1. lay_lia.
Qed.

(** The first [n] blocks of a file, and the indirect blocks that address them,
    are data blocks. *)
Record placed (img : gmap Z (list Z)) (di : d_inode) (n : Z) : Prop := {
  pl_len : length (di_addrs di) = 13%nat;
  pl_max : n ≤ N_DIRECT + N_INDIRECT * APB;
  pl_block : ∀ j, 0 ≤ j < n → data_start ≤ file_addr img di j < n_blks;
  pl_ind : ∀ j, N_DIRECT ≤ j < n →
    data_start ≤ default 0 (di_addrs di !! Z.to_nat (N_DIRECT + (j - N_DIRECT) / APB)) < n_blks;
}.

(** What the kernel finds in the image: the super block, an empty log, and
    for each file its entry in the root directory, its inode, its blocks and
    its bytes. *)
Record image_of (files : list (list Z * list Z)) (img : gmap Z (list Z)) : Prop := {
  im_len : map_Forall (λ _ d, length d = Z.to_nat BLOCK_SIZE) img;
  im_count : (length files ≤ 30)%nat;
  im_dom : ∀ a, 0 ≤ a < n_blks → is_Some (img !! a);
  im_sb : parse_sb (blk img 1) = layout;
  im_log : img !! log_start = Some zero_block;
  im_root : disk_inode img ROOT_INO = root_dinode (2 + Z.of_nat (length files));
  im_dot : root_entry img 0 = (ROOT_INO, strncpy (rdl [46]) DIR_SIZE);
  im_dotdot : root_entry img 1 = (ROOT_INO, strncpy (rdl [46; 46]) DIR_SIZE);
  im_entry : ∀ i arg bytes, files !! i = Some (arg, bytes) →
    root_entry img (i + 2) = (Z.of_nat (i + 2), strncpy (rdl (short_name arg)) DIR_SIZE);
  im_file : ∀ i arg bytes, files !! i = Some (arg, bytes) →
    let di := disk_inode img (Z.of_nat (i + 2)) in
    di_type di = FT_FILE ∧ di_nlink di = 1 ∧ di_size di = Z.of_nat (length bytes) ∧ read_file img di = bytes;
  im_placed : ∀ i arg bytes, files !! i = Some (arg, bytes) →
    placed img (disk_inode img (Z.of_nat (i + 2))) (n_chunks bytes);
}.

Lemma file_at_placed img ino D bytes :
  file_at img ino D bytes → n_chunks bytes ≤ 778 → 0 ≤ D → D + n_used (n_chunks bytes) ≤ n_data_blks →
  placed img (disk_inode img ino) (n_chunks bytes).
Proof.
  intros Hf Hnb H0 HD. pose proof Hf as ([L1 L2 L3 L4] & _ & _). change n_data_blks with 8192 in *. split; [done|done| |].
  - intros j Hj. rewrite (file_at_addr img ino D bytes) by done. pose proof (blk_addr_lt D j _ Hj). lay_lia.
  - intros j Hj. set (q := (j - N_DIRECT) / APB).
    assert (0 ≤ q < n_ind (n_chunks bytes) ∧ q < N_INDIRECT) as [Hq Hq'].
    { unfold q, n_ind. lay. destruct (Z.leb_spec (n_chunks bytes) 10); Z.to_euclidean_division_equations; lia. }
    rewrite L3 by lia. cbn [from_option id]. rewrite (proj2 (Z.ltb_lt _ _)) by lia.
    pose proof (ind_addr_ge D q ltac:(lia)). pose proof (ind_addr_lt D _ q Hq). lay_lia.
Qed.

Lemma image_made files s img :
  made files s → (length files ≤ 30)%nat → Forall (λ f, n_chunks f.2 ≤ 778) files → blocks_of files ≤ n_data_blks →
  map_Forall (λ _ d, length d = Z.to_nat BLOCK_SIZE) img → (∀ a, 0 ≤ a < n_blks → is_Some (img !! a)) →
  disk_inode img ROOT_INO = root_dinode (2 + Z.of_nat (length files)) →
  (∀ i f, files !! i = Some f → file_at img (Z.of_nat (i + 2)) (blocks_of (take i files)) f.2) →
  (∀ a, a < inode_start ∨ data_bitmap_start < a → img !! a = fs_fd s !! a) → image_of files img.
Proof.
  intros [M1 M2 M3 M4 [M5 M5'] M6 M7] Hcount Hnb Hmax Hlens Hdom Hroot Hfiles Hsame.
  assert (∀ k, root_entry img k = root_entry (fs_fd s) k) as He.
  { intros k. unfold root_entry, blk. by rewrite Hsame by lay_lia. }
  split; rewrite ?He; try done.
  - unfold blk. rewrite Hsame by lay_lia. exact M3.
  - rewrite Hsame by lay_lia. exact M4.
  - intros i arg bytes Hi. rewrite He. exact (M6 i _ Hi).
  - intros i arg bytes Hi. pose proof (Hfiles i _ Hi) as Hf. pose proof Hf as (_ & _ & HM). cbn [snd] in *. cbv zeta.
    split_and!; [by rewrite HM|by rewrite HM|by rewrite HM|]. eapply file_at_read; [exact Hf|].
    by apply (Forall_lookup_1 _ _ _ _ Hnb Hi).
  - intros i arg bytes Hi. destruct (blocks_of_take _ _ _ Hi). eapply file_at_placed; [exact (Hfiles i _ Hi)| |lia|cbn [snd] in *; lia].
    by apply (Forall_lookup_1 _ _ _ _ Hnb Hi).
Qed.

Lemma mkfs_image_spec files :
  (length files ≤ 30)%nat → Forall (λ f, n_chunks f.2 ≤ 778) files → blocks_of files ≤ n_data_blks →
  ∃ s, mkfs_image ((λ f, (f.1, Some f.2)) <$> files) = Ok tt s ∧ image_of files (fs_fd s).
Proof.
  intros Hlen Hnb Hmax.
  enough (runs (mkfs_main ((λ f, (f.1, Some f.2)) <$> files))
    (mk_mkfs ∅ (mk_super_block 0 0 0 0 0 0 0 0 0) (mk_d_inode 0 0 0 0 0 []) 0 0)
    (λ _ s, image_of files (fs_fd s))) as ([] & s & Hr & HQ) by (exists s; split; [exact Hr|exact HQ]).
  unfold mkfs_main. rewrite init_sb_eq. kstep. kstep. set (s0 := set_mk_sb layout _). fold zero_block. cbv zeta.
  kstep. kcall (zero_image s0 eq_refl eq_refl). intros [] s1 (Hsb & Hz & Hall). kstep. kstep. rewrite Hsb.
  kstep. unfold mkfs_write_block at 1. kstep. set (b1 := list_inserts 0 (sb_bytes layout) zero_block).
  apply (root_spec (λ rino off, entry_count ← copy_files off 2 ((λ f, (f.1, Some f.2)) <$> files);
    root ← gets root_inode; rb ← gets root_block;
    let root := set_di_addr 0 rb root in
    let root := mk_d_inode (di_type root) (di_major root) (di_minor root) (di_nlink root)
                  (u32 (entry_count * DIRENT_SIZE)) (di_addrs root) in
    root ← mkfs_update_inode rino root; modify (set_root_inode root))).
  - apply empty_ok; [done..|]. unfold b1. by rewrite length_inserts.
  - unfold blk. cbn [fs_fd set_fs_fd]. rewrite lookup_insert_eq. apply sb_block_parses.
  - cbn [fs_fd set_fs_fd]. rewrite lookup_insert_ne by done.
    destruct (Hz log_start) as [x Hx]; [lay_lia|]. by rewrite Hx, (Hall _ x Hx).
  - intros s2 H2. kstep. kcall (copy_files_spec files [] s2 2 H2); [simpl; lia|done|done|].
    intros c s3 [-> H3]. cbn [app] in H3.
    kcall (finish_spec files s3 (2 + Z.of_nat (length files)) H3 Hlen); [lia|].
    intros [] s4 (Hl & Hd & Hr & Hf & Hs). by eapply image_made.
Qed.

(** ** Properties *)

(** C5: when the files fit (at most 30 of them, each shorter than the largest
    file, all of their blocks in the data area), mkfs succeeds and writes an
    image in which the kernel finds what it was given: the super block parses
    to the layout, the log holds no transaction, the root directory has the
    entries "." and ".." and one entry for each file under its short name, and
    the inode of that entry, read through its direct and indirect blocks (which
    all lie in the data area), has exactly the bytes of the file. *)
Theorem mkfs_roundtrip files :
  (length files ≤ 30)%nat → Forall (λ f, Z.of_nat (length f.2) < (N_DIRECT + N_INDIRECT * APB) * BLOCK_SIZE) files →
  blocks_of files ≤ n_data_blks →
  ∃ s, mkfs_image ((λ f, (f.1, Some f.2)) <$> files) = Ok tt s ∧ image_of files (fs_fd s).
Proof.
  intros Hlen Hsz Hmax. apply mkfs_image_spec; [done| |done].
  eapply Forall_impl; [exact Hsz|]. intros f. unfold n_chunks. lay. cbn beta. intros. Z.to_euclidean_division_equations; lia.
Qed.

(** The arguments "user/_init" and "README". *)
Definition user_init : list Z := [117; 115; 101; 114; 47; 95; 105; 110; 105; 116].
Definition readme : list Z := [82; 69; 65; 68; 77; 69].

(** Two files, of 3 bytes and of 2000. *)
Lemma mkfs_roundtrip_witness :
  let files := [(user_init, [1; 2; 3]); (readme, replicate 2000 65)] in
  ∃ s, mkfs_image ((λ f, (f.1, Some f.2)) <$> files) = Ok tt s ∧ image_of files (fs_fd s).
Proof.
  apply (mkfs_roundtrip [(user_init, [1; 2; 3]); (readme, replicate 2000 65)]).
  - by apply Nat.leb_le.
  - by repeat constructor.
  - by apply Z.leb_le.
Defined.
