(* ===== verification/ProcTheorems.v ===== *)
(** Spin locks as one hart uses them, and the process table: wake_up, kill,
    the process identifiers and the switch to the scheduler. *)

From S2P Require Import Prelude Mem State Machine Mm MmInit Proc Sync Virtio Buf Log Inode FsData.

(** ** Definitions *)

(** A hart outside of the scheduler, with all process locks free. *)
Record procs_free (s : kstate) : Prop := {
  pf_hart : hart_ok (k_hart s);
  pf_noff : noff (k_hart s) + 1 < 2 ^ 30;
  pf_locks : ∀ p, (p < N_PROC)%nat → lock_free (LProc p) s;
  pf_len : length (k_procs s) = N_PROC;
}.

(** What [kill] does to the process it finds. *)
Definition kill_one (x : process) : process :=
  let x := set_p_killed true x in
  if decide (p_state x = PROC_SLEEPING) then set_p_state PROC_RUNNABLE x else x.

(** The processes after [wake_up] by a hart that runs [rp]. *)
Definition woken (rp : option nat) (c : chan) (ps : list process) (l : list nat) : list process :=
  foldl (λ ps p, if bool_decide (rp = Some p) then ps else alter (wake_one c) p ps) ps l.

(** Eight processes created from the initial state, none of them gone. *)
Definition eight_pids : kstate :=
  final ((proc_init;; kiter (seq 0 8) (λ _, @pid_alloc 1%nat;; mret tt)) bss) bss.

(** A process about to enter the scheduler on hart 0. *)
Definition in_sched : kstate :=
  set_k_procs (<[5%nat := set_p_state PROC_RUNNABLE process0]> (k_procs bss))
   (set_k_locks {[LProc 5 := mk_spin_lock true 0 "process"]}
    (set_k_hart (mk_hart 0 0 0 0 0 0 [mk_cpu (Some 5%nat) 1 true; mk_cpu None 0 false; mk_cpu None 0 false]) bss)).

(** Two sleeping processes after the initialisation of the process table. *)
Definition two_sleepers : kstate :=
  let s := final (proc_init bss) bss in
  let sleeper pid c := set_p_pid pid (set_p_chan (Some c) (set_p_state PROC_SLEEPING process0)) in
  set_k_procs (<[2%nat := sleeper 10 ChTicks]> (<[3%nat := sleeper 11 ChLog]> (k_procs s))) s.

(** ** Lemmas *)

Lemma set_k_procs_id s : set_k_procs (k_procs s) s = s.
Proof. by destruct s. Qed.
Lemma alter_known {A} (f : A → A) (i : nat) x (l : list A) : l !! i = Some x → alter f i l = <[i := f x]> l.
Proof.
  intros H. rewrite list_insert_alter. apply list_alter_ext; [|done].
  intros y Hy. by simplify_eq.
Qed.

Lemma procs_free_settled s : procs_free s → procs_free (settled s).
Proof.
  intros [H1 H2 H3 H4]. split; [by apply hart_settle_ok|simpl; by rewrite noff_settle|done|done].
Qed.

Lemma procs_free_procs s ps :
  procs_free s → length ps = N_PROC → procs_free (set_k_procs ps s).
Proof. intros [H1 H2 H3 H4] Hl. by split. Qed.

(** A critical section that updates one process. *)
Lemma locked_upd_proc p f s :
  procs_free s → (p < N_PROC)%nat →
  (spin_lock_acquire (LProc p);; upd_proc p f;; spin_lock_release (LProc p)) s =
  Ok tt (set_k_procs (alter f p (k_procs s)) (settled s)).
Proof.
  intros [H1 H2 H3 H4] Hp.
  rewrite (critical_section_unit (LProc p) (upd_proc p f) s (set_k_procs (alter f p (k_procs s)) s));
    [by destruct s|done|done|by apply H3|done].
Qed.

Lemma get_proc_eq p x s : k_procs s !! p = Some x → get_proc p s = Ok x s.
Proof. intros H. unfold get_proc. erewrite bind_ok by done. by rewrite H. Qed.

Lemma the_proc_eq p s :
  hart_ok (k_hart s) → noff (k_hart s) + 1 < 2 ^ 30 → c_proc (this_cpu (k_hart s)) = Some p →
  the_proc s = Ok p (settled s).
Proof.
  intros H Hn Hp. unfold the_proc. erewrite bind_ok by by apply running_proc_eq. by rewrite Hp.
Qed.

Lemma length_woken rp c l : ∀ ps, length (woken rp c ps l) = length ps.
Proof.
  unfold woken. induction l as [|p l IH]; intros ps; simpl; [done|]. rewrite IH.
  case_bool_decide; [done|]. apply length_alter.
Qed.

Lemma woken_lookup rp c l : ∀ ps i,
  NoDup l →
  woken rp c ps l !! i =
    if decide (i ∈ l ∧ rp ≠ Some i) then wake_one c <$> ps !! i else ps !! i.
Proof.
  unfold woken. induction l as [|p l IH]; intros ps i Hnd; cbn [foldl].
  - by rewrite decide_False by (intros [?%elem_of_nil _]; done).
  - apply NoDup_cons in Hnd as [Hp Hnd]. rewrite IH by done.
    destruct (decide (i = p)) as [->|Hne].
    + rewrite decide_False by tauto. case_bool_decide as E.
      * by rewrite decide_False by tauto.
      * rewrite decide_True by (split; [left|done]). by rewrite list_lookup_alter_eq.
    + assert ((if bool_decide (rp = Some p) then ps else alter (wake_one c) p ps) !! i = ps !! i) as E.
      { case_bool_decide; [done|]. by rewrite list_lookup_alter_ne. }
      rewrite E. apply decide_ext. rewrite elem_of_cons. tauto.
Qed.

Lemma wake_up_eq c s :
  procs_free s →
  wake_up c s =
  Ok tt (set_k_procs (woken (c_proc (this_cpu (k_hart s))) c (k_procs s) all_procs) (settled s)).
Proof.
  intros H. pose proof H as [H1 H2 H3 H4]. unfold wake_up.
  erewrite bind_ok by by apply running_proc_eq. fold (settled s).
  set (rp := c_proc (this_cpu (k_hart s))).
  assert (runs (kiter all_procs (λ p, when (negb (bool_decide (rp = Some p)))
    (spin_lock_acquire (LProc p);; upd_proc p (wake_one c);; spin_lock_release (LProc p))))
    (settled s) (λ _ s', s' = set_k_procs (woken rp c (k_procs s) ([] ++ all_procs)) (settled s)))
    as ([] & s' & -> & ->); [|done].
  apply (runs_kiter (λ dn s', s' = set_k_procs (woken rp c (k_procs s) dn) (settled s))).
  { by rewrite <-(set_k_procs_id (settled s)). }
  intros pre p post s' Hsplit ->. simpl.
  assert (p < N_PROC)%nat as Hp.
  { assert (p ∈ all_procs) as Hin by (rewrite Hsplit; set_solver).
    apply elem_of_seq in Hin. lia. }
  assert (woken rp c (k_procs s) (pre ++ [p]) =
    if bool_decide (rp = Some p) then woken rp c (k_procs s) pre
    else alter (wake_one c) p (woken rp c (k_procs s) pre)) as E by (unfold woken; by rewrite foldl_app).
  rewrite E. case_bool_decide; simpl; [by apply runs_ret|].
  eapply runs_ok; [apply locked_upd_proc; [|done]|].
  - apply procs_free_procs; [by apply procs_free_settled|by rewrite length_woken].
  - unfold settled. simpl. by rewrite hart_settle_idemp.
Qed.

(** One slot of [kill]. *)
Lemma kill_slot_eq pid p x s :
  procs_free s → (p < N_PROC)%nat → k_procs s !! p = Some x →
  kill_slot pid p s =
    if p_pid x =? pid then Ok (Some 0) (set_k_procs (<[p := kill_one x]> (k_procs s)) (settled s))
    else Ok None (settled s).
Proof.
  intros H Hp Hx. pose proof H as [H1 H2 H3 H4]. destruct (H3 p Hp) as [name Hl].
  unfold kill_slot. erewrite bind_ok by by apply acquire_inside.
  erewrite bind_ok by by apply get_proc_eq. destruct (p_pid x =? pid).
  2:{ by erewrite bind_ok by by apply release_inside. }
  erewrite bind_ok by done. unfold kill_one. cbn [p_state set_p_killed].
  assert (Hk : ∀ f, alter f p (alter (set_p_killed true) p (k_procs s)) =
    <[p := f (set_p_killed true x)]> (k_procs s)).
  { intros f. rewrite list_alter_alter_eq. by rewrite (alter_known _ p x). }
  destruct (decide (p_state x = PROC_SLEEPING)) as [E|E].
  - rewrite bool_decide_eq_true_2 by done. erewrite bind_ok by done.
    erewrite bind_ok by by apply (release_inside _ name (set_k_procs _ s)).
    unfold mret, K_ret. by rewrite <-Hk.
  - rewrite bool_decide_eq_false_2 by done. erewrite bind_ok by done.
    erewrite bind_ok by by apply (release_inside _ name (set_k_procs _ s)).
    unfold mret, K_ret. by rewrite <-(alter_known (set_p_killed true) p x _ Hx).
Qed.

Lemma kill_from pid n : ∀ k s,
  procs_free s → (k + n = N_PROC)%nat → (0 < n)%nat ∨ settled s = s →
  kfirst (seq k n) (kill_slot pid) s =
    match list_find (λ x, p_pid x = pid) (drop k (k_procs s)) with
    | Some (j, x) =>
        Ok (Some 0) (set_k_procs (<[(k + j)%nat := kill_one x]> (k_procs s)) (settled s))
    | None => Ok None (settled s)
    end.
Proof.
  induction n as [|n IH]; intros k s H Hk Hn.
  - rewrite drop_ge by (rewrite (pf_len _ H); lia). destruct Hn as [?|Hn]; [lia|].
    simpl. by rewrite Hn.
  - destruct (lookup_lt_is_Some_2 (k_procs s) k) as [x Hx]; [rewrite (pf_len _ H); lia|].
    cbn [seq kfirst]. rewrite (drop_S _ _ _ Hx). cbn [list_find]. rewrite K_bind_eq.
    rewrite (kill_slot_eq pid k x) by (done || lia). destruct (Z.eqb_spec (p_pid x) pid) as [E|E].
    + rewrite decide_True by done. simpl. by rewrite Nat.add_0_r.
    + rewrite decide_False by done. cbn [obind]. rewrite IH.
      * change (k_procs (settled s)) with (k_procs s). rewrite settled_idemp by apply H.
        destruct (list_find _ (drop (S k) (k_procs s))) as [[j y]|]; [|done]. simpl.
        by rewrite Nat.add_succ_r.
      * by apply procs_free_settled.
      * lia.
      * right. apply settled_idemp, H.
Qed.

(** ** The switch to the scheduler *)

(** What [sched] does on each of its branches. *)
Definition sched_outcome (p : nat) (x : process) (l : spin_lock) (s : kstate) (k : kstate → outcome nat kstate unit)
  : outcome nat kstate unit :=
  if negb (sl_locked l && (sl_cpuid l =? tp (k_hart s)))
  then Panic "the process lock is not held during scheduling" (settled s)
  else if negb (noff (k_hart s) =? 1) then Panic "locked during scheduling" (settled s)
  else if decide (p_state x = PROC_RUNNING) then Panic "schedule a running process" s
  else Sleep p s k.

Lemma sched_cases p x l s :
  hart_ok (k_hart s) → noff (k_hart s) + 1 < 2 ^ 30 → c_proc (this_cpu (k_hart s)) = Some p →
  k_procs s !! p = Some x → k_locks s !! LProc p = Some l →
  sched s = sched_outcome p x l s (upd_cpu (Z.to_nat (tp (k_hart s))) (set_intr_ena (intr_ena (this_cpu (k_hart s))))).
Proof.
  intros H Hn Hc Hx Hl. destruct (settled_ok s H) as [H' Hn']. unfold sched, sched_outcome.
  erewrite bind_ok by by apply the_proc_eq. erewrite bind_ok by by apply current_cpu_eq.
  erewrite bind_ok by by apply spin_lock_holding_eq. change (sl_locked l && (sl_cpuid l =? tp (k_hart (settled s)))) with (sl_locked l && (sl_cpuid l =? tp (k_hart s))).
  destruct (sl_locked l && _); cbn [negb]; [|done].
  erewrite bind_ok by by apply get_cpu_eq. fold (noff (k_hart (settled s))). rewrite Hn'.
  destruct (Z.eqb_spec (noff (k_hart s)) 1) as [E|_]; cbn [negb]; [|done]. rewrite settled_nested by (done || lia).
  erewrite bind_ok by by apply get_proc_eq. case_decide; [done|].
  erewrite bind_ok by apply intr_get_eq. by rewrite (ok_sie _ H) by lia.
Qed.

Lemma sched_eq p s :
  hart_ok (k_hart s) → noff (k_hart s) = 1 → c_proc (this_cpu (k_hart s)) = Some p →
  lock_mine (LProc p) s → (p < length (k_procs s))%nat →
  (∀ x, k_procs s !! p = Some x → p_state x ≠ PROC_RUNNING) →
  sched s = Sleep p s (upd_cpu (Z.to_nat (tp (k_hart s))) (set_intr_ena (intr_ena (this_cpu (k_hart s))))).
Proof.
  intros H Hn Hc [name Hl] Hp Hst. destruct (lookup_lt_is_Some_2 _ _ Hp) as [x Hx].
  rewrite (sched_cases p x _ s H ltac:(lia) Hc Hx Hl). unfold sched_outcome. cbn [sl_locked sl_cpuid andb].
  rewrite Z.eqb_refl, Hn. cbn [Z.eqb Pos.eqb negb]. by rewrite decide_False by by apply Hst.
Qed.

(** ** Process identifiers *)

Lemma pid_scan_spec fuel : ∀ bits s j,
  0 ≤ s → pid_scan fuel bits s = Some j →
  s ≤ j < 8 ∧ Z.testbit bits j = false ∧ ∀ i, s ≤ i < j → Z.testbit bits i = true.
Proof.
  induction fuel as [|fuel IH]; intros bits s j Hs; cbn [pid_scan]; [done|].
  destruct (Z.ltb_spec s 8) as [Hlt|]; [|done]. rewrite land_pow2 by done.
  destruct (Z.testbit bits s) eqn:E; cbn [negb].
  - intros H. apply IH in H as (H1 & H2 & H3); [|lia]. split_and!; [lia|lia|done|].
    intros i Hi. destruct (decide (i = s)) as [->|]; [done|]. apply H3. lia.
  - intros [= <-]. split_and!; [lia|lia|done|intros; lia].
Qed.

Lemma pid_scan_full s : 0 ≤ s ≤ 8 → pid_scan 8 255 s = None.
Proof.
  intros Hs. assert (Forall (λ s, pid_scan 8 255 s = None) (seqZ 0 9)) as H.
  { apply (bool_decide_unpack _). vm_compute. exact I. }
  apply (proj1 (Forall_forall _ _) H). apply elem_of_seqZ. lia.
Qed.

Lemma div_mod_byte b j : 0 ≤ j < 8 → (b * 8 + j) / 8 = b ∧ (b * 8 + j) mod 8 = j.
Proof.
  intros Hj. rewrite Z.div_add_l, Z.div_small by lia. split; [lia|].
  by rewrite Z.add_comm, Z.mod_add, Z.mod_small by lia.
Qed.

(** The bit of a process identifier, as a bit of the bitmap. *)
Lemma pid_bit_index byte j :
  0 ≤ byte → 0 ≤ j < 8 →
  (Z.to_nat (byte * 8 + j) / 8 = Z.to_nat byte)%nat ∧ Z.of_nat (Z.to_nat (byte * 8 + j) mod 8) = j.
Proof.
  intros Hb Hj. split.
  - apply Nat2Z.inj. rewrite Nat2Z.inj_div, !Z2Nat.id by lia. by apply div_mod_byte.
  - rewrite Nat2Z.inj_mod, Z2Nat.id by lia. by apply div_mod_byte.
Qed.

Lemma pid_bit_set bm byte bits j :
  0 ≤ byte → 0 ≤ j < 8 → bm !! Z.to_nat byte = Some bits →
  <[Z.to_nat byte := u8 (Z.lor bits (Z.shiftl 1 j))]> bm = set_bit (Z.to_nat (byte * 8 + j)) bm ∧
  bit_clear bm (Z.to_nat (byte * 8 + j)) = negb (Z.testbit bits j).
Proof.
  intros Hb Hj Hbm. destruct (pid_bit_index byte j Hb Hj) as [E1 E2]. split.
  - unfold set_bit. rewrite E1, E2. by rewrite (alter_known _ _ bits).
  - rewrite bit_clear_testbit, E1, E2, Hbm. done.
Qed.

Lemma pid_free_eq name byte j s :
  hart_ok (k_hart s) → noff (k_hart s) + 1 < 2 ^ 30 →
  k_locks s !! LPid = Some (mk_spin_lock false (-1) name) → 0 ≤ byte < 4096 → 0 ≤ j < 8 →
  pid_free (byte * 8 + j) s =
  Ok tt (settled (set_k_pid (set_pid_bitmap
           (clear_bit (Z.to_nat (byte * 8 + j)) (pid_bitmap (k_pid s))) (k_pid s)) s)).
Proof.
  intros H Hn Hl Hb Hj. unfold pid_free. destruct (div_mod_byte byte j Hj) as [Eq Er].
  rewrite Z.quot_div_nonneg, Z.rem_mod_nonneg, Eq, Er by lia.
  erewrite bind_ok by by apply acquire_inside.
  rewrite (proj2 (Z.ltb_ge _ _)), (proj2 (Z.ltb_ge _ _)), (proj2 (Z.leb_gt _ _)) by lia.
  cbn [orb]. erewrite bind_ok by done. unfold clear_bit.
  destruct (pid_bit_index byte j) as [-> ->]; [lia|done|].
  by apply (release_inside LPid name (set_k_pid _ s)).
Qed.

Lemma two_sleepers_free : procs_free two_sleepers.
Proof.
  split.
  - exact bss_hart.
  - vm_compute. reflexivity.
  - intros p Hp. exists "process".
    assert (Forall (λ p, k_locks two_sleepers !! LProc p = Some (mk_spin_lock false (-1) "process"))
      all_procs) as H.
    { apply (bool_decide_unpack _). vm_compute. exact I. }
    apply (proj1 (Forall_forall _ _) H). apply elem_of_seq. lia.
  - vm_compute. reflexivity.
Qed.

(** ** Theorems *)

(** Taking a free spin lock and releasing it: in between the lock is held
    by the hart and interrupts are off; taking it a second time and releasing a
    free lock are refused; at the end the locks and the interrupt state are
    those of the start. *)
Theorem spin_lock_discipline l s :
  hart_ok (k_hart s) → noff (k_hart s) + 1 < 2 ^ 30 → lock_free l s →
  ∃ s1 s2,
    spin_lock_acquire l s = Ok tt s1 ∧ lock_mine l s1 ∧ sie (k_hart s1) = false ∧
    noff (k_hart s1) = noff (k_hart s) + 1 ∧
    (noff (k_hart s) + 2 < 2 ^ 30 →
       ∃ s', spin_lock_acquire l s1 = Panic "repeatedly acquire lock" s') ∧
    spin_lock_release l s1 = Ok tt s2 ∧ k_locks s2 = k_locks s ∧
    sstatus (k_hart s2) = sstatus (k_hart s) ∧ noff (k_hart s2) = noff (k_hart s) ∧
    (∃ s', spin_lock_release l s2 = Panic "release unheld lock" s').
Proof.
  intros H Hn [name Hl]. exists (inside l name s), (settled s).
  pose proof (hart_push_ok _ H Hn) as Hp. pose proof (noff_push _ H) as Hno.
  assert (k_locks (inside l name s) !! l = Some (mk_spin_lock true (tp (k_hart s)) name)) as Hin
    by apply lookup_insert_eq.
  split_and!; try done.
  - by apply acquire_inside.
  - by exists name.
  - apply (ok_sie _ Hp). simpl. pose proof (ok_noff _ H). lia.
  - intros Hn2. eexists. unfold spin_lock_acquire. erewrite bind_ok by by apply push_off_eq.
    erewrite bind_ok.
    2:{ apply (spin_lock_holding_eq l (mk_spin_lock true (tp (k_hart s)) name)); [|done].
        apply hart_push_ok; [done|]. simpl. lia. }
    cbn [sl_locked sl_cpuid andb]. change (tp (k_hart (set_k_hart _ _))) with (tp (k_hart s)).
    by rewrite Z.eqb_refl.
  - by apply release_inside.
  - by apply noff_settle.
  - eexists. unfold spin_lock_release.
    erewrite bind_ok by (apply spin_lock_holding_eq; [by apply hart_settle_ok|done]). done.
Qed.

Lemma spin_lock_discipline_witness :
  ∃ s1 s2, spin_lock_acquire LPid (final (proc_init bss) bss) = Ok tt s1 ∧
    lock_mine LPid s1 ∧ spin_lock_release LPid s1 = Ok tt s2.
Proof.
  destruct (spin_lock_discipline LPid (final (proc_init bss) bss))
    as (s1 & s2 & H1 & H2 & _ & _ & _ & H3 & _); [|vm_compute; reflexivity| |].
  - apply bss_hart.
  - eexists. vm_compute. reflexivity.
  - exists s1, s2. split_and!; [exact H1|exact H2|exact H3].
Defined.

(** [wake_up c] makes exactly the processes runnable that sleep on [c],
    the running one apart; nothing else changes. *)
Theorem wake_up_exact c s :
  procs_free s →
  ∃ ps, wake_up c s = Ok tt (set_k_procs ps (settled s)) ∧ length ps = N_PROC ∧
    ∀ i x, k_procs s !! i = Some x →
      ps !! i = Some (if decide (p_state x = PROC_SLEEPING ∧ p_chan x = Some c ∧
                                 c_proc (this_cpu (k_hart s)) ≠ Some i)
                      then set_p_state PROC_RUNNABLE x else x).
Proof.
  intros H. eexists. split; [by apply wake_up_eq|]. split; [rewrite length_woken; apply H|].
  intros i x Hx. rewrite woken_lookup by apply NoDup_seq. rewrite Hx. unfold wake_one.
  assert (i ∈ all_procs) as Hi.
  { apply elem_of_seq. apply lookup_lt_Some in Hx. rewrite (pf_len _ H) in Hx. lia. }
  destruct (decide (c_proc (this_cpu (k_hart s)) = Some i)) as [E|E].
  - rewrite decide_False by tauto. by rewrite decide_False by tauto.
  - rewrite decide_True by done. cbn [fmap option_fmap option_map]. f_equal.
    apply decide_ext. tauto.
Qed.

Lemma wake_up_exact_witness :
  ∃ ps, wake_up ChTicks two_sleepers = Ok tt (set_k_procs ps (settled two_sleepers)) ∧
    p_state <$> ps !! 2%nat = Some PROC_RUNNABLE ∧ p_state <$> ps !! 3%nat = Some PROC_SLEEPING.
Proof.
  destruct (wake_up_exact ChTicks two_sleepers two_sleepers_free) as (ps & H & _ & Hps).
  exists ps. split; [exact H|]. split; (erewrite Hps by (vm_compute; reflexivity)); reflexivity.
Defined.

(** [kill] marks the first process with the identifier, wakes it when it
    sleeps, and returns 0; without such a process it changes nothing and
    returns -1. *)
Theorem kill_first pid s :
  procs_free s →
  kill pid s =
    match list_find (λ x, p_pid x = pid) (k_procs s) with
    | Some (p, x) => Ok 0 (set_k_procs (<[p := kill_one x]> (k_procs s)) (settled s))
    | None => Ok (-1) (settled s)
    end.
Proof.
  intros H. unfold kill. rewrite K_bind_eq. unfold all_procs.
  rewrite kill_from; [|done|done|left; unfold N_PROC; lia].
  rewrite drop_0. by destruct (list_find _ _) as [[j x]|].
Qed.

Lemma kill_first_witness :
  kill 77 two_sleepers = Ok (-1) (settled two_sleepers) ∧
  ∃ ps, kill 11 two_sleepers = Ok 0 (set_k_procs ps (settled two_sleepers)) ∧
    p_state <$> ps !! 3%nat = Some PROC_RUNNABLE.
Proof.
  split.
  - exact (kill_first 77 two_sleepers two_sleepers_free).
  - eexists. split; [exact (kill_first 11 two_sleepers two_sleepers_free)|]. reflexivity.
Defined.

(** An identifier allocated in the current byte of the bitmap was free; it
    is marked and no other, and [pid_free] of it restores the bitmap. *)
Theorem pid_alloc_free `{R : Rounds} bits j s :
  hart_ok (k_hart s) → noff (k_hart s) + 1 < 2 ^ 30 → lock_free LPid s → (0 < rounds)%nat →
  0 ≤ pid_byte (k_pid s) < 4096 → 0 ≤ pid_shift (k_pid s) →
  length (pid_bitmap (k_pid s)) = 4096%nat →
  pid_bitmap (k_pid s) !! Z.to_nat (pid_byte (k_pid s)) = Some bits →
  pid_scan 8 bits (pid_shift (k_pid s)) = Some j →
  let pid := pid_byte (k_pid s) * 8 + j in
  ∃ s1 s2, pid_alloc s = Ok pid s1 ∧ pid_free pid s1 = Ok tt s2 ∧
    bit_clear (pid_bitmap (k_pid s)) (Z.to_nat pid) = true ∧
    (∀ k, bit_clear (pid_bitmap (k_pid s1)) k =
       if decide (k = Z.to_nat pid) then false else bit_clear (pid_bitmap (k_pid s)) k) ∧
    (∀ k, bit_clear (pid_bitmap (k_pid s2)) k = bit_clear (pid_bitmap (k_pid s)) k).
Proof.
  intros H Hn [name Hl] HR Hbyte Hsh Hlen Hbits Hscan pid.
  destruct (pid_scan_spec _ _ _ _ Hsh Hscan) as (Hj & Htest & _).
  destruct (pid_bit_set (pid_bitmap (k_pid s)) (pid_byte (k_pid s)) bits j) as [Hset Hclr];
    [lia|lia|done|]. fold pid in Hset, Hclr.
  set (st1 := mk_pid_state (set_bit (Z.to_nat pid) (pid_bitmap (k_pid s))) (pid_byte (k_pid s)) (j + 1)).
  assert (pid_alloc s = Ok pid (settled (set_k_pid st1 s))) as E1.
  { unfold pid_alloc. erewrite bind_ok by done. erewrite bind_ok by by apply acquire_inside.
    destruct rounds as [|n]; [lia|]. cbn [loop]. rewrite K_bind_eq.
    erewrite bind_ok by done. cbn [k_pid inside set_k_locks set_k_hart].
    rewrite Hbits. cbn [from_option id]. rewrite Hscan, Hset. fold st1.
    erewrite bind_ok by done.
    by erewrite bind_ok by by apply (release_inside LPid name (set_k_pid st1 s)). }
  destruct (settled_ok (set_k_pid st1 s) H) as [H' Hn'].
  eexists _, _. split_and!; [exact E1|..].
  - apply (pid_free_eq name); [done|by rewrite Hn'|done|done|lia].
  - by rewrite Hclr, Htest.
  - intros k. apply bit_clear_set. rewrite Hlen. apply Nat.Div0.div_lt_upper_bound. lia.
  - intros k. cbn [k_pid settled set_k_hart set_k_pid pid_bitmap set_pid_bitmap st1]. fold pid.
    assert (Z.to_nat pid / 8 < 4096)%nat by (apply Nat.Div0.div_lt_upper_bound; lia).
    rewrite bit_clear_clear by (unfold set_bit; by rewrite length_alter, Hlen).
    rewrite bit_clear_set by by rewrite Hlen.
    destruct (decide (k = Z.to_nat pid)) as [->|]; [|done]. by rewrite Hclr, Htest.
Qed.

Lemma pid_alloc_free_witness :
  ∃ s1 s2, @pid_alloc 1%nat (final (proc_init bss) bss) = Ok 0 s1 ∧ pid_free 0 s1 = Ok tt s2.
Proof.
  destruct (@pid_alloc_free 1%nat 0 0 (final (proc_init bss) bss)) as (s1 & s2 & H1 & H2 & _).
  - apply bss_hart.
  - vm_compute. reflexivity.
  - eexists. vm_compute. reflexivity.
  - unfold rounds. lia.
  - vm_compute. split; [discriminate|reflexivity].
  - vm_compute. discriminate.
  - vm_compute. reflexivity.
  - vm_compute. reflexivity.
  - vm_compute. reflexivity.
  - exists s1, s2. split; [exact H1|exact H2].
Defined.

(** C37: when the eight identifiers of the current byte are in use, the search
    for the next one does not end, whatever identifiers are free elsewhere: it
    tests the same byte in every round, and the test that ends the loop cannot
    hold.  The ninth process of a system in which none has exited meets this. *)
Theorem pid_alloc_never_returns `{R : Rounds} s :
  hart_ok (k_hart s) → noff (k_hart s) + 1 < 2 ^ 30 → lock_free LPid s →
  pid_bitmap (k_pid s) !! Z.to_nat (pid_byte (k_pid s)) = Some 255 →
  0 < pid_shift (k_pid s) ≤ 8 → pid_alloc s = Stuck OutOfFuel.
Proof.
  intros H Hn [name Hl] Hbits Hsh. unfold pid_alloc. erewrite bind_ok by done.
  erewrite bind_ok by by apply acquire_inside.
  match goal with |- loop _ ?f _ ?t = _ =>
    assert (∀ n b sh, 0 ≤ sh ≤ 8 → loop n f (b, sh) t = Stuck OutOfFuel) as Hloop end;
    [|apply Hloop; simpl; lia].
  induction n as [|n IH]; intros b sh Hs; [done|]. cbn [loop]. rewrite K_bind_eq.
  erewrite bind_ok by done. cbn [k_pid inside set_k_locks set_k_hart].
  rewrite Hbits. cbn [from_option id]. rewrite pid_scan_full by done.
  rewrite (proj2 (Z.eqb_neq 0 (pid_shift (k_pid s)))), andb_false_r by lia.
  cbn [negb obind mret K_ret]. apply IH. lia.
Qed.

Lemma pid_alloc_never_returns_witness :
  @pid_alloc 5000%nat eight_pids = Stuck OutOfFuel.
Proof.
  apply (@pid_alloc_never_returns 5000%nat).
  - apply bss_hart.
  - vm_compute. reflexivity.
  - eexists. vm_compute. reflexivity.
  - vm_compute. reflexivity.
  - vm_compute. split; [reflexivity|discriminate].
Defined.

(** C36: [sched] gives up the hart exactly when its process lock is held by this
    hart, nothing else is locked and the process is not running; otherwise it
    panics, with the message of the first condition that fails.  (Its fourth
    check, that interrupts are off, cannot fail once [n_off] is 1.)  When it is
    resumed it stores the saved [intr_ena] in the cpu of the hart that the
    process left.  A process resumed on another hart therefore leaves the
    [intr_ena] of its new cpu as it is and overwrites that of the old one. *)
Theorem sched_resume p x l s :
  hart_ok (k_hart s) → noff (k_hart s) + 1 < 2 ^ 30 → c_proc (this_cpu (k_hart s)) = Some p →
  k_procs s !! p = Some x → k_locks s !! LProc p = Some l →
  ∃ k,
    sched s =
      (if negb (sl_locked l && (sl_cpuid l =? tp (k_hart s)))
       then Panic "the process lock is not held during scheduling" (settled s)
       else if negb (noff (k_hart s) =? 1) then Panic "locked during scheduling" (settled s)
       else if decide (p_state x = PROC_RUNNING) then Panic "schedule a running process" s
       else Sleep p s k) ∧
    ∀ s2, hart_ok (k_hart s2) → ∃ s3, k s2 = Ok tt s3 ∧
      (∀ c, cpus (k_hart s3) !! c =
         (if decide (c = Z.to_nat (tp (k_hart s))) then set_intr_ena (intr_ena (this_cpu (k_hart s)))
          else id) <$> cpus (k_hart s2) !! c) ∧
      (tp (k_hart s2) ≠ tp (k_hart s) → this_cpu (k_hart s3) = this_cpu (k_hart s2)).
Proof.
  intros H Hn Hc Hx Hl. eexists. split; [exact (sched_cases p x l s H Hn Hc Hx Hl)|].
  intros s2 H2. eexists. split; [reflexivity|]. split.
  - intros c. simpl. case_decide as E.
    + subst c. by rewrite list_lookup_alter_eq.
    + rewrite list_lookup_alter_ne by done. by destruct (_ !! c).
  - intros Hne. unfold this_cpu. simpl. rewrite list_lookup_alter_ne; [done|].
    pose proof (ok_tp _ H). pose proof (ok_tp _ H2). lia.
Qed.

Lemma sched_resume_witness :
  (∃ k, sched in_sched = Sleep 5%nat in_sched k) ∧
  (∃ s, sched (set_k_locks {[LProc 5 := mk_spin_lock false 0 "process"]} in_sched) =
    Panic "the process lock is not held during scheduling" s).
Proof.
  split.
  - destruct (sched_resume 5 (set_p_state PROC_RUNNABLE process0) (mk_spin_lock true 0 "process") in_sched)
      as (k & H & _); [|vm_compute; reflexivity..|exists k; exact H].
    split; vm_compute; try reflexivity; split; reflexivity || discriminate.
  - destruct (sched_resume 5 (set_p_state PROC_RUNNABLE process0) (mk_spin_lock false 0 "process")
      (set_k_locks {[LProc 5 := mk_spin_lock false 0 "process"]} in_sched))
      as (k & H & _); [|vm_compute; reflexivity..|eexists; exact H].
    split; vm_compute; try reflexivity; split; reflexivity || discriminate.
Defined.
