(* ===== verification/Env.v ===== *)
(** Code that sleeps: what a process observes when it gives up its hart, and
    the calls of kernel/lock.c and kernel/sched/proc.c as a running process
    makes them.

    [eruns R m s Q] is the total correctness of [runs] for code that may switch
    to the scheduler: whenever it does, the environment [R] resumes it, in some
    state and in any state that [R] allows.  [sim] forgets what locking and scheduling change
    (the hart, the process table, the spin locks), so that specifications speak
    of the data. *)

From S2P Require Import Prelude Mem State Machine Mm MmInit Proc Sync Virtio Buf Log Inode FsData ProcTheorems.

(** ** Executions that sleep *)

Definition env : Type := nat → kstate → kstate → Prop.

Inductive erun {A} (R : env) (Q : A → kstate → Prop) : outcome nat kstate A → Prop :=
| erun_ok a s : Q a s → erun R Q (Ok a s)
| erun_sleep p s k :
    (∃ s', R p s s') → (∀ s', R p s s' → erun R Q (k s')) → erun R Q (Sleep p s k).

Definition eruns {A} (R : env) (m : KM A) (s : kstate) (Q : A → kstate → Prop) : Prop :=
  erun R Q (m s).

(** The data: everything but the hart, the process table and the spin locks. *)
Definition core (s : kstate) : kstate :=
  set_k_hart (mk_hart 0 0 0 0 0 0 []) (set_k_procs [] (set_k_locks ∅ s)).
Definition sim (s s' : kstate) : Prop := core s = core s'.

(** A process, with its page table and the initialised spin locks. *)
Record task := mk_task {
  t_proc : nat;
  t_pid : Z;
  t_pt : Z;
  t_locks : gset lockid;
}.

Definition lock_state (h : hart) (held : bool) (x : spin_lock) : Prop :=
  if held then sl_locked x = true ∧ sl_cpuid x = tp h else sl_locked x = false ∧ sl_cpuid x = -1.

(** The executing hart runs process [rp], or the scheduler, at depth [n] of
    [push_off], and holds exactly the spin locks [held]; the task is there. *)
Record at_cpu (rp : option nat) (t : task) (n : Z) (held : gset lockid) (s : kstate) : Prop := {
  oc_hart : hart_ok (k_hart s);
  oc_noff : noff (k_hart s) = n;
  oc_proc : c_proc (this_cpu (k_hart s)) = rp;
  oc_x : ∃ x, k_procs s !! t_proc t = Some x ∧ p_pid x = t_pid t ∧ p_page_table x = t_pt t;
  oc_len : length (k_procs s) = N_PROC;
  oc_dom : dom (k_locks s) = t_locks t;
  oc_procs : ∀ i, (i < N_PROC)%nat → LProc i ∈ t_locks t;
  oc_locks : ∀ l x, k_locks s !! l = Some x → lock_state (k_hart s) (bool_decide (l ∈ held)) x;
}.

Arguments oc_hart {rp}.
Arguments oc_noff {rp}.
Arguments oc_proc {rp}.
Arguments oc_x {rp}.
Arguments oc_len {rp}.
Arguments oc_dom {rp}.
Arguments oc_procs {rp}.
Arguments oc_locks {rp}.

(** The task runs on the hart. *)
Abbreviation on_cpu t := (at_cpu (Some (t_proc t)) t).

(** The task has given up its hart, waiting on [c]. *)
Definition asleep (t : task) (c : chan) (s : kstate) : Prop :=
  on_cpu t 1 {[LProc (t_proc t)]} s ∧
  ∃ x, k_procs s !! t_proc t = Some x ∧ p_state x = PROC_SLEEPING ∧ p_chan x = Some c.

(** ** [eruns] *)

Section eruns.
Context (R : env).

Lemma eruns_runs {A} (m : KM A) s Q : runs m s Q → eruns R m s Q.
Proof. intros (a & s' & Hm & HQ). unfold eruns. rewrite Hm. by constructor. Qed.

Lemma eruns_conseq {A} (m : KM A) s (P Q : A → kstate → Prop) :
  eruns R m s P → (∀ a s', P a s' → Q a s') → eruns R m s Q.
Proof. unfold eruns. intros H HPQ. induction H; constructor; auto. Qed.

Lemma eruns_bind {A B} (m : KM A) (f : A → KM B) s Q :
  eruns R m s (λ a s', eruns R (f a) s' Q) → eruns R (m ≫= f) s Q.
Proof.
  unfold eruns. rewrite K_bind_eq. intros H. induction H as [a s' H|p s' k Hex Hk IH]; simpl; [done|].
  by constructor.
Qed.

Lemma eruns_ret {A} (a : A) s (Q : A → kstate → Prop) : Q a s → eruns R (mret a) s Q.
Proof. intros. by constructor. Qed.
Lemma eruns_gets {A} (f : kstate → A) s (Q : A → kstate → Prop) : Q (f s) s → eruns R (gets f) s Q.
Proof. intros. by constructor. Qed.
Lemma eruns_modify f s (Q : unit → kstate → Prop) : Q tt (f s) → eruns R (modify f) s Q.
Proof. intros. by constructor. Qed.
Lemma eruns_when (b : bool) (m : KM unit) s Q :
  (b = true → eruns R m s Q) → (b = false → Q tt s) → eruns R (when b m) s Q.
Proof. destruct b; intros H1 H2; simpl; [by apply H1|]. apply eruns_ret; auto. Qed.

Lemma eruns_kiter {A} (I : list A → kstate → Prop) (f : A → KM unit) (l : list A) :
  ∀ done s,
  I done s →
  (∀ pre x post s, l = pre ++ x :: post → I (done ++ pre) s →
     eruns R (f x) s (λ _ s', I (done ++ pre ++ [x]) s')) →
  eruns R (kiter l f) s (λ _ s', I (done ++ l) s').
Proof.
  induction l as [|x l IH]; intros dn s HI Hf; simpl.
  - apply eruns_ret. by rewrite app_nil_r.
  - apply eruns_bind. eapply eruns_conseq.
    { apply (Hf [] x l); [done|]. by rewrite app_nil_r. }
    intros [] s'. simpl. intros HI'.
    replace (dn ++ x :: l) with ((dn ++ [x]) ++ l) by by rewrite <-app_assoc.
    apply IH; [done|]. intros pre y post t -> HI''.
    eapply eruns_conseq; [apply (Hf (x :: pre) y post); [done|]|].
    + by rewrite <-app_assoc in HI''.
    + intros [] t'. simpl. by rewrite <-!app_assoc.
Qed.

Lemma eruns_seq (I : nat → kstate → Prop) (f : nat → KM unit) n s :
  I O s → (∀ i s, (i < n)%nat → I i s → eruns R (f i) s (λ _ s', I (S i) s')) →
  eruns R (kiter (seq 0 n) f) s (λ _ s', I n s').
Proof.
  intros H0 Hf. eapply eruns_conseq; [apply (eruns_kiter (λ dn, I (length dn)) f (seq 0 n) [] s H0)|].
  - intros pre i post s1 Hsp HI. cbn [app] in *. rewrite length_app, Nat.add_1_r.
    assert (seq 0 n !! length pre = Some i) as Hi by (rewrite Hsp; by apply list_lookup_middle).
    apply lookup_seq in Hi as [-> Hlt]. by apply Hf.
  - intros [] s'. by rewrite app_nil_l, length_seq.
Qed.

(** The loops that wait: the first round leaves, or sleeps once and leaves. *)
Lemma eruns_loop_exit {L A} fuel (body : L → KM (L + A)) l s Q :
  (0 < fuel)%nat →
  eruns R (body l) s (λ x s', match x with inl _ => False | inr r => Q r s' end) →
  eruns R (loop fuel body l) s Q.
Proof.
  intros Hf H. destruct fuel as [|fuel]; [lia|]. simpl. apply eruns_bind.
  eapply eruns_conseq; [done|]. intros [l'|r] s'; [done|]. apply eruns_ret.
Qed.

Lemma eruns_loop_next {L A} fuel (body : L → KM (L + A)) l s Q :
  (1 < fuel)%nat →
  eruns R (body l) s (λ x s', match x with
    | inl l' => eruns R (loop (pred fuel) body l') s' Q
    | inr r => Q r s' end) →
  eruns R (loop fuel body l) s Q.
Proof.
  intros Hf H. destruct fuel as [|fuel]; [lia|]. simpl. apply eruns_bind.
  eapply eruns_conseq; [done|]. intros [l'|r] s'; [done|]. apply eruns_ret.
Qed.

(** A loop whose body keeps [I] and decreases the measure [μ]. *)
Lemma eruns_loop {L A} (I : L → kstate → Prop) (μ : L → nat) (body : L → KM (L + A)) Q :
  (∀ l s, I l s → eruns R (body l) s (λ x s', match x with
    | inl l' => I l' s' ∧ (μ l' < μ l)%nat
    | inr r => Q r s' end)) →
  ∀ fuel l s, I l s → (μ l < fuel)%nat → eruns R (loop fuel body l) s Q.
Proof.
  intros Hbody fuel. induction fuel as [|fuel IH]; intros l s HI Hf; [lia|].
  simpl. apply eruns_bind. eapply eruns_conseq; [by apply Hbody|]. intros [l'|r] s'; simpl.
  - intros [HI' Hm]. apply IH; [done|lia].
  - apply eruns_ret.
Qed.
End eruns.

(** One step of an [eruns] proof at a primitive of the monad. *)
Ltac estep :=
  match goal with
  | |- eruns _ (mbind _ _) _ _ => apply eruns_bind
  | |- eruns _ (mret _) _ _ => apply eruns_ret
  | |- eruns _ (gets _) _ _ => apply eruns_gets
  | |- eruns _ (modify _) _ _ => apply eruns_modify
  | |- eruns _ (when _ _) _ _ => apply eruns_when
  end.

(** Use a specification already proved for the call at the head. *)
Tactic Notation "ecall" uconstr(H) := eapply eruns_conseq; [eapply H|].
Tactic Notation "ecallr" uconstr(H) := eapply eruns_conseq; [eapply eruns_runs, H|].

(** ** [sim] *)

#[export] Instance sim_equiv : Equivalence sim.
Proof.
  split; unfold sim; [by intros s|by intros s s'|]. intros s s' s'' H1 H2. by rewrite H1.
Qed.

Lemma sim_hart h s : sim (set_k_hart h s) s.
Proof. done. Qed.
Lemma sim_procs ps s : sim (set_k_procs ps s) s.
Proof. done. Qed.
Lemma sim_locks lk s : sim (set_k_locks lk s) s.
Proof. done. Qed.

Section proper.
Context (s s' : kstate) (H : sim s s').

Lemma sim_k_slocks : k_slocks s = k_slocks s'.
Proof. exact (f_equal k_slocks H). Qed.
Lemma sim_k_mem : k_mem s = k_mem s'.
Proof. exact (f_equal k_mem H). Qed.
Lemma sim_k_bufs : k_bufs s = k_bufs s'.
Proof. exact (f_equal k_bufs H). Qed.
Lemma sim_k_log : k_log s = k_log s'.
Proof. exact (f_equal k_log H). Qed.
Lemma sim_k_pipes : k_pipes s = k_pipes s'.
Proof. exact (f_equal k_pipes H). Qed.
Lemma sim_k_vdisk : k_vdisk s = k_vdisk s'.
Proof. exact (f_equal k_vdisk H). Qed.
Lemma sim_k_disk : k_disk s = k_disk s'.
Proof. exact (f_equal k_disk H). Qed.
Lemma sim_k_dwrites : k_dwrites s = k_dwrites s'.
Proof. exact (f_equal k_dwrites H). Qed.
End proper.

#[export] Instance set_k_slocks_proper v : Proper (sim ==> sim) (set_k_slocks v).
Proof. intros s s' H. exact (f_equal (set_k_slocks v) H). Qed.
#[export] Instance set_k_bufs_proper v : Proper (sim ==> sim) (set_k_bufs v).
Proof. intros s s' H. exact (f_equal (set_k_bufs v) H). Qed.
#[export] Instance set_k_log_proper v : Proper (sim ==> sim) (set_k_log v).
Proof. intros s s' H. exact (f_equal (set_k_log v) H). Qed.
#[export] Instance set_k_vdisk_proper v : Proper (sim ==> sim) (set_k_vdisk v).
Proof. intros s s' H. exact (f_equal (set_k_vdisk v) H). Qed.
#[export] Instance set_k_disk_proper v : Proper (sim ==> sim) (set_k_disk v).
Proof. intros s s' H. exact (f_equal (set_k_disk v) H). Qed.
#[export] Instance set_k_dwrites_proper v : Proper (sim ==> sim) (set_k_dwrites v).
Proof. intros s s' H. exact (f_equal (set_k_dwrites v) H). Qed.
#[export] Instance set_k_pipes_proper v : Proper (sim ==> sim) (set_k_pipes v).
Proof. intros s s' H. exact (f_equal (set_k_pipes v) H). Qed.
#[export] Instance set_k_mem_proper v : Proper (sim ==> sim) (set_k_mem v).
Proof. intros s s' H. exact (f_equal (set_k_mem v) H). Qed.

(** ** The hart at the end of a critical section *)

Lemma hart_pop_facts h :
  hart_ok h → 0 < noff h →
  hart_ok (hart_pop h) ∧ noff (hart_pop h) = noff h - 1 ∧
  c_proc (this_cpu (hart_pop h)) = c_proc (this_cpu h) ∧ tp (hart_pop h) = tp h.
Proof.
  intros H Hn. unfold hart_pop. set (h' := upd_this _ h). pose proof (ok_noff _ H) as Hb.
  assert (noff h' = noff h - 1) as Hno by (unfold h'; by rewrite noff_upd_this).
  assert (c_proc (this_cpu h') = c_proc (this_cpu h)) as Hc by (unfold h'; by rewrite this_upd_this).
  assert (hart_ok h') as Hok.
  { apply upd_this_ok; [done|simpl; unfold noff in *; lia|]. intros _. by apply ok_sie. }
  destruct ((noff h' =? 0) && intr_ena (this_cpu h')) eqn:E; [|done].
  apply andb_true_iff in E as [E%Z.eqb_eq _]. split_and!; try done.
  apply set_sstatus_ok; [done|lia].
Qed.

(** ** Calls of a running task *)

Lemma on_cpu_sim {rp} t n held s s' :
  at_cpu rp t n held s → k_hart s' = k_hart s → k_procs s' = k_procs s → k_locks s' = k_locks s →
  at_cpu rp t n held s'.
Proof. intros [H1 H2 H3 H4 H5 H6 H7 H8] Eh Ep El. split; rewrite ?Eh, ?Ep, ?El; done. Qed.

Lemma on_cpu_settled {rp} t n held s : at_cpu rp t n held s → at_cpu rp t n held (settled s).
Proof.
  intros [H1 H2 H3 H4 H5 H6 H7 H8]. split; try done; simpl.
  - by apply hart_settle_ok.
  - by rewrite noff_settle.
  - by rewrite c_proc_settle.
Qed.

Lemma sim_settled s : sim (settled s) s.
Proof. done. Qed.

Lemma oc_lock {rp} t n held s l :
  at_cpu rp t n held s → l ∈ t_locks t →
  ∃ name, k_locks s !! l = Some (if decide (l ∈ held) then mk_spin_lock true (tp (k_hart s)) name
                                 else mk_spin_lock false (-1) name).
Proof.
  intros H Hl. rewrite <-(oc_dom _ _ _ _ H), elem_of_dom in Hl. destruct Hl as [[b c name] Hx].
  pose proof (oc_locks _ _ _ _ H l _ Hx) as Hst. exists name. rewrite Hx. f_equal.
  unfold lock_state in Hst. case_decide.
  - rewrite bool_decide_eq_true_2 in Hst by done. simpl in Hst. by destruct Hst as [-> ->].
  - rewrite bool_decide_eq_false_2 in Hst by done. simpl in Hst. by destruct Hst as [-> ->].
Qed.

Lemma acquire_procs_spec {rp} t n held l s :
  at_cpu rp t n held s → l ∈ t_locks t → l ∉ held → n + 1 < 2 ^ 30 →
  runs (spin_lock_acquire l) s (λ _ s', at_cpu rp t (n + 1) ({[l]} ∪ held) s' ∧ sim s s' ∧
    k_procs s' = k_procs s ∧ tp (k_hart s') = tp (k_hart s)).
Proof.
  intros H Hl Hn Hb. destruct (oc_lock _ _ _ _ _ H Hl) as [name Hx].
  rewrite decide_False in Hx by done. pose proof H as [H1 H2 H3 H4 H5 H6 H7 H8].
  eapply runs_ok; [apply spin_lock_acquire_eq; [done|by rewrite H2|done]|].
  split_and!; [|done|done|done]. split; try done; simpl.
  - apply hart_push_ok; [done|by rewrite H2].
  - by rewrite noff_push, H2.
  - by rewrite c_proc_push.
  - rewrite dom_insert_L, H6. apply subseteq_union_1_L. by apply singleton_subseteq_l.
  - intros l' x. destruct (decide (l' = l)) as [->|Hne].
    + rewrite lookup_insert_eq. intros [= <-]. by rewrite bool_decide_eq_true_2 by set_solver.
    + rewrite lookup_insert_ne by done. intros Hx'. apply H8 in Hx'.
      by rewrite (bool_decide_ext _ (l' ∈ held)) by set_solver.
Qed.

Lemma acquire_spec {rp} t n held l s :
  at_cpu rp t n held s → l ∈ t_locks t → l ∉ held → n + 1 < 2 ^ 30 →
  runs (spin_lock_acquire l) s (λ _ s', at_cpu rp t (n + 1) ({[l]} ∪ held) s' ∧ sim s s').
Proof.
  intros. eapply runs_conseq; [by eapply acquire_procs_spec|]. by intros [] s' (H' & S & _).
Qed.

Lemma release_procs_spec {rp} t n held l s :
  at_cpu rp t n held s → l ∈ t_locks t → l ∈ held → 0 < n →
  runs (spin_lock_release l) s (λ _ s', at_cpu rp t (n - 1) (held ∖ {[l]}) s' ∧ sim s s' ∧
    k_procs s' = k_procs s ∧ tp (k_hart s') = tp (k_hart s)).
Proof.
  intros H Hl Hn Hb. destruct (oc_lock _ _ _ _ _ H Hl) as [name Hx].
  rewrite decide_True in Hx by done. pose proof H as [H1 H2 H3 H4 H5 H6 H7 H8].
  destruct (hart_pop_facts (k_hart s)) as (Hp1 & Hp2 & Hp3 & Hp4); [done|by rewrite H2|].
  eapply runs_ok; [apply (spin_lock_release_eq l name); [done|by rewrite H2|done]|].
  split_and!; [|done|done|done]. split; try done; simpl.
  - by rewrite Hp2, H2.
  - by rewrite Hp3.
  - rewrite dom_insert_L, H6. apply subseteq_union_1_L. by apply singleton_subseteq_l.
  - intros l' x. destruct (decide (l' = l)) as [->|Hne].
    + rewrite lookup_insert_eq. intros [= <-]. by rewrite bool_decide_eq_false_2 by set_solver.
    + rewrite lookup_insert_ne by done. intros Hx'. apply H8 in Hx'. unfold lock_state in *.
      rewrite Hp4. by rewrite (bool_decide_ext _ (l' ∈ held)) by set_solver.
Qed.

Lemma release_spec {rp} t n held l s :
  at_cpu rp t n held s → l ∈ t_locks t → l ∈ held → 0 < n →
  runs (spin_lock_release l) s (λ _ s', at_cpu rp t (n - 1) (held ∖ {[l]}) s' ∧ sim s s').
Proof.
  intros. eapply runs_conseq; [by eapply release_procs_spec|]. by intros [] s' (H' & S & _).
Qed.

Lemma procs_free_on_cpu {rp} t n held s :
  at_cpu rp t n held s → n + 1 < 2 ^ 30 → (∀ i, LProc i ∉ held) → procs_free s.
Proof.
  intros H Hn Hf. split; [apply H|by rewrite (oc_noff _ _ _ _ H)| |apply H].
  intros p Hp. destruct (oc_lock _ _ _ _ (LProc p) H) as [name Hx]; [by apply H|].
  rewrite decide_False in Hx by apply Hf. by exists name.
Qed.

Lemma wake_up_spec t n held c s :
  on_cpu t n held s → n + 1 < 2 ^ 30 → (∀ i, LProc i ∉ held) →
  runs (wake_up c) s (λ _ s', on_cpu t n held s' ∧ sim s s').
Proof.
  intros H Hn Hf. eapply runs_ok; [by eapply wake_up_eq, procs_free_on_cpu|]. split; [|done].
  destruct (on_cpu_settled _ _ _ _ H) as [H1 H2 H3 (x & Hx & Hpid) H5 H6 H7 H8].
  set (ps := woken _ c (k_procs s) all_procs).
  assert (ps !! t_proc t = Some x) as Hps.
  { unfold ps. rewrite woken_lookup by apply NoDup_seq. rewrite decide_False; [done|].
    intros [_ []]. apply H. }
  assert (length ps = N_PROC) as Hlen by (unfold ps; by rewrite length_woken).
  clearbody ps. split; try done; simpl. by exists x.
Qed.

Lemma the_proc_spec t n held s :
  on_cpu t n held s → n + 1 < 2 ^ 30 →
  runs the_proc s (λ p s', p = t_proc t ∧ on_cpu t n held s' ∧ sim s s').
Proof.
  intros H Hn. eapply runs_ok; [apply (the_proc_eq (t_proc t)); [apply H|by rewrite (oc_noff _ _ _ _ H)|apply H]|].
  split_and!; [done|by apply on_cpu_settled|done].
Qed.

Lemma running_pid_spec t n held s :
  on_cpu t n held s → n + 1 < 2 ^ 30 →
  runs running_pid s (λ pid s', pid = t_pid t ∧ on_cpu t n held s' ∧ sim s s').
Proof.
  intros H Hn. unfold running_pid. kstep. kcall (the_proc_spec t n held s H Hn).
  intros p s1 (-> & H1 & S1). destruct (oc_x _ _ _ _ H1) as (x & Hx & Hpid & _).
  kstep. eapply runs_ok; [by apply get_proc_eq|]. by kstep.
Qed.

Lemma upd_proc_spec {rp} t n held p f s :
  at_cpu rp t n held s → (∀ x, p_pid (f x) = p_pid x ∧ p_page_table (f x) = p_page_table x) →
  runs (upd_proc p f) s (λ _ s',
    at_cpu rp t n held s' ∧ sim s s' ∧ k_procs s' = alter f p (k_procs s)).
Proof.
  intros [H1 H2 H3 (x & Hx & Hpid & Hpt) H5 H6 H7 H8] Hf. eapply runs_ok; [done|].
  split_and!; [|done|done]. split; try done; simpl.
  - destruct (decide (p = t_proc t)) as [->|Hne].
    + exists (f x). rewrite list_lookup_alter_eq, Hx. destruct (Hf x) as [-> ->]. done.
    + exists x. by rewrite list_lookup_alter_ne.
  - by rewrite length_alter.
Qed.

(** The store to [intr_ena] of some cpu, after the switch back. *)
Lemma hart_intr_ena c b h :
  hart_ok h →
  let h' := set_cpus (alter (set_intr_ena b) c (cpus h)) h in
  hart_ok h' ∧ noff h' = noff h ∧ c_proc (this_cpu h') = c_proc (this_cpu h).
Proof.
  intros H h'. assert (n_off (this_cpu h') = n_off (this_cpu h) ∧
    c_proc (this_cpu h') = c_proc (this_cpu h)) as [Hn Hc].
  { unfold this_cpu, h'. simpl. destruct (decide (c = Z.to_nat (tp h))) as [->|Hne].
    - rewrite list_lookup_alter_eq. by destruct (cpus h !! Z.to_nat (tp h)).
    - by rewrite list_lookup_alter_ne. }
  split_and!; [|done|done]. pose proof H as [H1 H2 H3 H4].
  split; [done|simpl; by rewrite length_alter|by unfold noff; rewrite Hn|].
  unfold noff. rewrite Hn. apply H4.
Qed.

Lemma upd_cpu_spec t n held c b s :
  on_cpu t n held s →
  runs (upd_cpu c (set_intr_ena b)) s (λ _ s', on_cpu t n held s' ∧ sim s s').
Proof.
  intros [H1 H2 H3 H4 H5 H6 H7 H8]. eapply runs_ok; [done|]. split; [|done].
  destruct (hart_intr_ena c b _ H1) as (Hh & Hn & Hc).
  split; try done; simpl; [by rewrite Hn|by rewrite Hc].
Qed.

Lemma sched_spec R t c s Q :
  asleep t c s → (∃ s2, R (t_proc t) s s2) →
  (∀ s2, R (t_proc t) s s2 →
     on_cpu t 1 {[LProc (t_proc t)]} s2 ∧
     ∀ s3, sim s2 s3 → on_cpu t 1 {[LProc (t_proc t)]} s3 → Q tt s3) →
  eruns R sched s Q.
Proof.
  intros [H (x & Hx & Hst & _)] Hex Hres. unfold eruns. rewrite (sched_eq (t_proc t)); try apply H.
  - constructor; [done|]. intros s2 HR. destruct (Hres s2 HR) as [H2 HQ].
    destruct (upd_cpu_spec t 1 _ (Z.to_nat (tp (k_hart s))) (intr_ena (this_cpu (k_hart s))) s2 H2)
      as ([] & s3 & -> & H3 & S3). constructor. by apply HQ.
  - destruct (oc_lock _ _ _ _ (LProc (t_proc t)) H) as [name Hl].
    { apply H. rewrite <-(oc_len _ _ _ _ H). by eapply lookup_lt_Some. }
    rewrite decide_True in Hl by set_solver. by exists name.
  - by eapply lookup_lt_Some.
  - intros y Hy. simplify_eq. congruence.
Qed.

(** [sleep_on]: the task waits on [c] with only its own process lock held, is
    resumed by the environment, and holds [l] again. *)
Lemma sleep_on_spec R t c l s Q :
  on_cpu t 1 {[l]} s → l ∈ t_locks t → (∀ i, l ≠ LProc i) →
  (∀ s1, sim s s1 → asleep t c s1 → ∃ s2, R (t_proc t) s1 s2) →
  (∀ s1, sim s s1 → asleep t c s1 → ∀ s2, R (t_proc t) s1 s2 →
     on_cpu t 1 {[LProc (t_proc t)]} s2 ∧
     ∀ s3, sim s2 s3 → on_cpu t 1 {[l]} s3 → Q tt s3) →
  eruns R (sleep_on c l) s Q.
Proof.
  intros H Hl Hne Hex Hres. unfold sleep_on.
  assert (LProc (t_proc t) ∈ t_locks t) as Hp.
  { apply H. destruct (oc_x _ _ _ _ H) as (x & Hx & _). rewrite <-(oc_len _ _ _ _ H).
    by eapply lookup_lt_Some. }
  pose proof (Hne (t_proc t)) as Hnp.
  estep. ecallr (the_proc_spec t 1 _ s H); [lia|]. intros ? s1 (-> & H1 & S1).
  estep. ecallr (acquire_spec t 1 _ (LProc (t_proc t)) s1 H1 Hp); [set_solver|lia|]. intros [] s2 [H2 S2].
  estep. ecallr (release_spec t (1 + 1) _ l s2 H2 Hl); [set_solver|lia|]. intros [] s3 [H3 S3].
  replace (({[LProc (t_proc t)]} ∪ {[l]}) ∖ {[l]}) with ({[LProc (t_proc t)]} : gset lockid) in H3
    by set_solver.
  estep. ecallr (upd_proc_spec t _ _ (t_proc t) (set_p_chan (Some c)) s3 H3); [done|].
  intros [] s4 (H4 & S4 & E4).
  estep. ecallr (upd_proc_spec t _ _ (t_proc t) (set_p_state PROC_SLEEPING) s4 H4); [done|].
  intros [] s5 (H5 & S5 & E5).
  assert (sim s s5) as S by (etrans; [exact S1|]; etrans; [exact S2|]; etrans; [exact S3|]; by etrans).
  assert (asleep t c s5) as Has.
  { split; [done|]. destruct (oc_x _ _ _ _ H3) as (x & Hx & _).
    exists (set_p_state PROC_SLEEPING (set_p_chan (Some c) x)).
    by rewrite E5, E4, !list_lookup_alter_eq, Hx. }
  estep. eapply (sched_spec R t c s5 _ Has); [by apply Hex|]. intros s6 HR.
  destruct (Hres s5 S Has s6 HR) as [H6 HQ]. split; [done|]. intros s7 S7 H7.
  estep. ecallr (upd_proc_spec t _ _ (t_proc t) (set_p_chan None) s7 H7); [done|].
  intros [] s8 (H8 & S8 & _).
  estep. ecallr (release_spec t 1 _ (LProc (t_proc t)) s8 H8 Hp); [set_solver|lia|].
  intros [] s9 [H9 S9].
  ecallr (acquire_spec t (1 - 1) _ l s9 H9 Hl); [set_solver|lia|]. intros [] s10 [H10 S10].
  apply HQ; [etrans; [exact S7|]; etrans; [exact S8|]; by etrans|].
  by replace ({[l]} ∪ {[LProc (t_proc t)]} ∖ {[LProc (t_proc t)]}) with ({[l]} : gset lockid) in H10
    by set_solver.
Qed.

(** ** Critical sections of a task that holds no other spin lock *)

Abbreviation idle t := (on_cpu t 0 ∅).

Lemma acquire0 t l s :
  idle t s → l ∈ t_locks t → runs (spin_lock_acquire l) s (λ _ s', on_cpu t 1 {[l]} s' ∧ sim s s').
Proof.
  intros H Hl. kcall (acquire_spec t 0 ∅ l s H Hl); [set_solver|lia|]. intros [] s' [H' S].
  by rewrite (right_id_L ∅ (∪)) in H'.
Qed.

Lemma release1 t l s :
  on_cpu t 1 {[l]} s → l ∈ t_locks t → runs (spin_lock_release l) s (λ _ s', idle t s' ∧ sim s s').
Proof.
  intros H Hl. kcall (release_spec t 1 {[l]} l s H Hl); [set_solver|lia|]. intros [] s' [H' S].
  by rewrite difference_diag_L in H'.
Qed.

Lemma on_cpu_core t n held s v : on_cpu t n held s → on_cpu t n held (set_k_slocks v s).
Proof. intros H. by eapply on_cpu_sim. Qed.

(** Two runs one after the other that change only locks and scheduling. *)
Ltac sims :=
  repeat match goal with
  | H : sim ?s ?s' |- sim ?s _ => etrans; [exact H|]; clear H
  | |- sim ?s ?s => reflexivity
  end.

(** ** Sleep locks *)

Lemma get_slock_eq l x s : k_slocks s !! l = Some x → get_slock l s = Ok x s.
Proof. intros H. unfold get_slock, gets. by rewrite H. Qed.

Lemma upd_slock_eq l f x s :
  k_slocks s !! l = Some x → upd_slock l f s = Ok tt (set_k_slocks (<[l := f x]> (k_slocks s)) s).
Proof. intros H. unfold upd_slock. by erewrite bind_ok by by apply get_slock_eq. Qed.

Lemma sleep_lock_holding_spec t l x s :
  idle t s → LSleep l ∈ t_locks t → k_slocks s !! l = Some x →
  runs (sleep_lock_holding l) s (λ b s',
    b = slk_locked x && (t_pid t =? slk_pid x) ∧ idle t s' ∧ sim s s').
Proof.
  intros H Hl Hx. unfold sleep_lock_holding. kstep. kcall (acquire0 t _ s H Hl).
  intros [] s1 [H1 S1]. rewrite (sim_k_slocks _ _ S1) in Hx. kstep. kstep.
  eapply runs_ok; [by apply get_slock_eq|].
  assert (runs (if slk_locked x then pid ← running_pid; mret (pid =? slk_pid x) else mret false) s1
    (λ b s', b = slk_locked x && (t_pid t =? slk_pid x) ∧ on_cpu t 1 {[LSleep l]} s' ∧ sim s1 s')) as Hr.
  { destruct (slk_locked x); [|by kstep]. kstep. kcall (running_pid_spec t 1 _ s1 H1); [lia|].
    intros ? s2 (-> & H2 & S2). by kstep. }
  eapply runs_conseq; [exact Hr|]. intros b s2 (Hb & H2 & S2). kstep. kcall (release1 t _ s2 H2 Hl).
  intros [] s3 [H3 S3]. kstep. split_and!; [done|done|sims].
Qed.

(** Taking a sleep lock that nobody holds. *)
Lemma sleep_lock_acquire_spec `{Rounds} R t l name s :
  (0 < rounds)%nat → idle t s → LSleep l ∈ t_locks t →
  k_slocks s !! l = Some (mk_sleep_lock false (-1) name) →
  eruns R (sleep_lock_acquire l) s (λ _ s', idle t s' ∧
    sim (set_k_slocks (<[l := mk_sleep_lock true (t_pid t) name]> (k_slocks s)) s) s').
Proof.
  intros Hr H0 Hl Hx. unfold sleep_lock_acquire. estep.
  ecallr (sleep_lock_holding_spec t l _ s H0 Hl Hx). intros b s1 (-> & H1 & S1). cbn [slk_locked andb].
  rewrite (sim_k_slocks _ _ S1) in Hx |- *. estep. ecallr (acquire0 t _ s1 H1 Hl). intros [] s2 [H2 S2].
  rewrite (sim_k_slocks _ _ S2) in Hx |- *.
  estep. estep. apply (eruns_conseq _ _ _ (λ _ s', s' = s2)).
  { apply eruns_loop_exit; [done|]. estep. eapply eruns_runs, runs_ok; [by apply get_slock_eq|].
    cbn [slk_locked]. by estep. }
  intros [] ? ->. estep. eapply eruns_runs, runs_ok; [by apply upd_slock_eq|].
  estep. ecallr (running_pid_spec t 1 _ _ (on_cpu_core _ _ _ _ _ H2)); [lia|].
  intros ? s3 (-> & H3 & S3).
  eapply eruns_runs, runs_ok.
  { apply (upd_slock_eq l _ (mk_sleep_lock true (-1) name)). rewrite <-(sim_k_slocks _ _ S3).
    apply lookup_insert_eq. }
  ecallr (release1 t _ _ (on_cpu_core _ _ _ _ _ H3) Hl).
  intros [] s4 [H4 S4]. split; [done|]. etrans; [|exact S4].
  rewrite <-(sim_k_slocks _ _ S3). etrans; [|exact (set_k_slocks_proper _ _ _ S3)].
  simpl. rewrite insert_insert_eq. exact (set_k_slocks_proper _ _ _ (transitivity S1 S2)).
Qed.

Lemma sleep_lock_release_spec t l name s :
  idle t s → LSleep l ∈ t_locks t →
  k_slocks s !! l = Some (mk_sleep_lock true (t_pid t) name) →
  runs (sleep_lock_release l) s (λ _ s', idle t s' ∧
    sim (set_k_slocks (<[l := mk_sleep_lock false (-1) name]> (k_slocks s)) s) s').
Proof.
  intros H0 Hl Hx. unfold sleep_lock_release. kstep.
  kcall (sleep_lock_holding_spec t l _ s H0 Hl Hx). intros b s1 (-> & H1 & S1).
  cbn [slk_locked slk_pid andb]. rewrite Z.eqb_refl. cbn [negb].
  rewrite (sim_k_slocks _ _ S1) in Hx |- *. kstep. kcall (acquire0 t _ s1 H1 Hl). intros [] s2 [H2 S2].
  rewrite (sim_k_slocks _ _ S2) in Hx |- *.
  kstep. kstep. eapply runs_ok; [by apply upd_slock_eq|].
  kstep. eapply runs_ok; [apply upd_slock_eq; apply lookup_insert_eq|].
  kcall (wake_up_spec t 1 {[LSleep l]} _ _ (on_cpu_core _ _ _ _ _ (on_cpu_core _ _ _ _ _ H2)));
    [lia|set_solver|]. intros [] s3 [H3 S3].
  kcall (release1 t _ _ H3 Hl). intros [] s4 [H4 S4]. split; [done|].
  etrans; [|exact S4]. etrans; [|exact S3]. simpl. rewrite insert_insert_eq.
  exact (set_k_slocks_proper _ _ _ (transitivity S1 S2)).
Qed.
