(* ===== verification/PipeTheorems.v ===== *)
(** Pipes (kernel/fs/pipe.c) as queues: [pipe_write] appends the bytes of the
    user's buffer and [pipe_read] takes them off the front. *)

From S2P Require Import Prelude Ring Mem State Machine Mm PageTable MmAlloc MmMap MmUser MmInit Proc Sync Virtio Buf Log Inode Pipe FsData ProcTheorems Env.

(** ** Definitions *)

(** The indices are inside of the array, which holds bytes. *)
Record pipe_ok (x : pipe) : Prop := {
  po_len : length (pi_data x) = Z.to_nat PIPE_SIZE;
  po_r : 0 ≤ pi_r x < PIPE_SIZE;
  po_w : 0 ≤ pi_w x < PIPE_SIZE;
  po_bytes : Forall (λ c, 0 ≤ c < 256) (pi_data x);
}.

(** The bytes written and not yet read. *)
Definition queue (x : pipe) : list Z := ring_between PIPE_SIZE (pi_data x) (pi_r x) (pi_w x).

(** The user memory of the task, apart from the hart and the locks. *)
Record umem (t : task) (fl : list Z) (N : gmap Z nat) (s : kstate) : Prop := {
  um_bytes : bytes_ok (k_mem s);
  um_fl : fl_rep (k_mem s) (k_free s) fl;
  um_nodup : NoDup fl;
  um_pt : pt_wf (k_mem s) N (t_pt t);
  um_disj : ∀ p, p ∈ fl → N !! p = None;
  um_user : user_space (k_mem s) fl N (t_pt t);
}.

(** ** The ring *)

Lemma queue_pop x :
  pipe_ok x → pi_r x ≠ pi_w x →
  ∃ c, pi_data x !! Z.to_nat (pi_r x) = Some c ∧ queue x = c :: queue (set_pi_r ((pi_r x + 1) mod PIPE_SIZE) x) ∧
    pipe_ok (set_pi_r ((pi_r x + 1) mod PIPE_SIZE) x) ∧ 0 ≤ c < 256.
Proof.
  intros [H1 H2 H3 H4] Hne. destruct (lookup_lt_is_Some_2 (pi_data x) (Z.to_nat (pi_r x))) as [c Hc].
  { rewrite H1. unfold PIPE_SIZE in *. lia. }
  pose proof (Z.mod_pos_bound (pi_r x + 1) PIPE_SIZE ltac:(done)) as Hm.
  exists c. split_and!; [done| | |by apply (Forall_lookup_1 _ _ _ _ H4 Hc)..].
  - unfold queue. simpl. by rewrite ring_pop, Hc.
  - by split.
Qed.

Lemma queue_push x c :
  pipe_ok x → (pi_w x + 1) mod PIPE_SIZE ≠ pi_r x → 0 ≤ c < 256 →
  let x' := set_pi_w ((pi_w x + 1) mod PIPE_SIZE) (set_pi_data (<[Z.to_nat (pi_w x) := c]> (pi_data x)) x) in
  queue x' = queue x ++ [c] ∧ pipe_ok x'.
Proof.
  intros [H1 H2 H3 H4] Hne Hc x'. split.
  - by apply ring_push.
  - split; simpl; [by rewrite length_insert|done| |].
    + by apply Z.mod_pos_bound.
    + by apply Forall_insert.
Qed.

Lemma queue_empty x : pipe_ok x → queue x = [] ↔ pi_r x = pi_w x.
Proof.
  intros [H1 H2 H3 H4]. unfold queue. split; [by apply ring_nil_inv|]. intros ->. by apply ring_nil.
Qed.

(** ** The user's memory *)

Section umem.
Context (t : task) (fl : list Z) (N : gmap Z nat).

Lemma umem_inv n held s :
  on_cpu t n held s → LFreeList ∈ t_locks t → LFreeList ∉ held → n + 1 < 2 ^ 30 → umem t fl N s →
  mm_inv s fl N (t_pt t).
Proof.
  intros H Hl Hh Hn [U1 U2 U3 U4 U5 U6]. split; try done; [apply H|by rewrite (oc_noff _ _ _ _ H)|].
  destruct (oc_lock _ _ _ _ _ H Hl) as [name Hx]. rewrite decide_False in Hx by done. by exists name.
Qed.

Lemma umem_of_inv s : mm_inv s fl N (t_pt t) → user_space (k_mem s) fl N (t_pt t) → umem t fl N s.
Proof. intros [H1 H2 H3 H4 H5 H6 H7 H8] Hu. by split. Qed.

Lemma umem_sim s s' : sim s s' → umem t fl N s → umem t fl N s'.
Proof.
  intros S [U1 U2 U3 U4 U5 U6]. pose proof (sim_k_mem _ _ S) as M. assert (k_free s = k_free s') as F by exact (f_equal k_free S).
  split; rewrite <-?M, <-?F; done.
Qed.

Lemma umem_pipes s v : umem t fl N s → umem t fl N (set_k_pipes v s).
Proof. intros [U1 U2 U3 U4 U5 U6]. by split. Qed.

(** One byte is copied to a writable address. *)
Lemma copy_byte_out n held s va c :
  on_cpu t n held s → LFreeList ∈ t_locks t → LFreeList ∉ held → n + 1 < 2 ^ 30 → umem t fl N s →
  0 ≤ c < 256 → 0 ≤ va < MAX_VADDR → is_Some (uaddr uwritable (k_mem s) (t_pt t) va) →
  runs (copy_out (t_pt t) va [c]) s (λ r s', r = 0 ∧ on_cpu t n held s' ∧ umem t fl N s' ∧
    s' = set_k_mem (k_mem s') s ∧ (∀ a, pt_lookup (k_mem s') (t_pt t) a = pt_lookup (k_mem s) (t_pt t) a) ∧
    ubyte (k_mem s') (t_pt t) va = c ∧
    ∀ a, 0 ≤ a → a ≠ va → is_Some (uaddr uwritable (k_mem s) (t_pt t) a) →
      ubyte (k_mem s') (t_pt t) a = ubyte (k_mem s) (t_pt t) a).
Proof.
  intros H Hl Hh Hn Hu Hc Hva Hw. pose proof (umem_inv _ _ _ H Hl Hh Hn Hu) as Hinv.
  assert (∀ a, is_Some (uaddr uwritable (k_mem s) (t_pt t) a) →
    ∃ w, pt_lookup (k_mem s) (t_pt t) a = Some w ∧ pte_user w = true) as Huse.
  { intros a [y Hy]. unfold uaddr in Hy. destruct (pt_lookup _ _ a) as [w|]; [|done]. exists w. split; [done|].
    simpl in Hy. destruct (uwritable w) eqn:E; [|done]. by apply andb_true_iff in E as [? _]. }
  kcall (copy_out_spec s fl N (t_pt t) va [c] Hinv (um_user _ _ _ _ Hu)).
  { by constructor. }
  { lia. }
  intros r s' (k & Hk & Hcp & [[-> ->]|(-> & Hlt & Hbad)]); cbn [length] in *.
  2: { replace (va + k) with va in Hbad by lia. rewrite Hbad in Hw. by destruct Hw. }
  pose proof Hcp as [C1 C2 C3 C4 C5 C6].
  assert (k_hart s' = k_hart s ∧ k_procs s' = k_procs s ∧ k_locks s' = k_locks s) as (E1 & E2 & E3) by by rewrite C2.
  split_and!; [done|by eapply on_cpu_sim| |done|done| |].
  - apply umem_of_inv; [done|]. eapply user_space_ext; [exact C3|apply Hu].
  - destruct (Huse va Hw) as (w & Hw1 & Hw2). rewrite (C6 va w) by (done || lia). rewrite decide_True by lia.
    by rewrite Z.sub_diag.
  - intros a Ha Hne Haw. destruct (Huse a Haw) as (w & Hw1 & Hw2). rewrite (C6 a w) by done.
    by rewrite decide_False by lia.
Qed.
End umem.

(** ** Reading *)

Section pipes.
Context (t : task) (fl : list Z) (N : gmap Z nat) (pi : Z).
Context (HL : LPipe pi ∈ t_locks t) (HF : LFreeList ∈ t_locks t).

Lemma get_pipe_eq x s : k_pipes s !! pi = Some x → get_pipe pi s = Ok x s.
Proof. intros Hx. unfold get_pipe. erewrite bind_ok by done. by rewrite Hx. Qed.

Lemma upd_pipe_eq f x s :
  k_pipes s !! pi = Some x → upd_pipe pi f s = Ok tt (set_k_pipes (<[pi := f x]> (k_pipes s)) s).
Proof.
  intros Hx. unfold upd_pipe, modify. rewrite <-(insert_id (k_pipes s) pi x) at 1 by done.
  by rewrite alter_insert_eq.
Qed.

(** The task and the pipe [x], with the spin locks the task holds. *)
Record pipe_at (n : Z) (held : gset lockid) (x : pipe) (s : kstate) : Prop := {
  ip_cpu : on_cpu t n held s;
  ip_mem : umem t fl N s;
  ip_pipe : k_pipes s !! pi = Some x;
  ip_ok : pipe_ok x;
}.
Abbreviation in_pipe := (pipe_at 1 {[LPipe pi]}).

Lemma pipe_at_upd n held x y s :
  pipe_at n held x s → pipe_ok y → pipe_at n held y (set_k_pipes (<[pi := y]> (k_pipes s)) s).
Proof.
  intros [H1 H2 H3 H4] Hy. split; [by eapply on_cpu_sim|by apply umem_pipes|apply lookup_insert_eq|done].
Qed.

Lemma pipe_at_sim n held n' held' x s s' :
  pipe_at n held x s → on_cpu t n' held' s' → sim s s' → pipe_at n' held' x s'.
Proof.
  intros [H1 H2 H3 H4] H S. split; [done|by eapply umem_sim| |done]. by rewrite <-(sim_k_pipes _ _ S).
Qed.

(** Only the user's memory and the pipe, which is now [x], have changed. *)
Definition piped (x : pipe) (s0 s : kstate) : Prop :=
  sim s (set_k_mem (k_mem s) (set_k_pipes (<[pi := x]> (k_pipes s0)) s0)).

Lemma piped_step x y s0 s1 s2 : piped x s0 s1 → piped y s1 s2 → piped y s0 s2.
Proof.
  unfold piped. intros S1 S2. rewrite S2 at 1. pose proof (sim_k_pipes _ _ S1) as E. simpl in E.
  rewrite E, insert_insert_eq. by rewrite S1 at 1.
Qed.

Lemma piped_sim_l x s0 s0' s : sim s0 s0' → piped x s0' s → piped x s0 s.
Proof. unfold piped. intros S1 S2. rewrite S2 at 1. rewrite (sim_k_pipes _ _ S1). by rewrite S1. Qed.
Lemma piped_sim_r x s0 s s' : sim s s' → piped x s0 s → piped x s0 s'.
Proof. unfold piped. intros S1 S2. rewrite <-(sim_k_mem _ _ S1). by rewrite <-S1. Qed.

(** After [i] bytes: they are in the user's memory and off the queue. *)
Record reading (s0 : kstate) (x0 : pipe) (dst i : Z) (s : kstate) : Prop := {
  rd_pipe : ∃ x, in_pipe x s ∧ piped x s0 s ∧ queue x = drop (Z.to_nat i) (queue x0) ∧
    pi_read_open x = pi_read_open x0 ∧ pi_write_open x = pi_write_open x0;
  rd_procs : k_procs s = k_procs s0;
  rd_lookup : ∀ a, pt_lookup (k_mem s) (t_pt t) a = pt_lookup (k_mem s0) (t_pt t) a;
  rd_bytes : ∀ j, 0 ≤ j < i → Some (ubyte (k_mem s) (t_pt t) (dst + j)) = queue x0 !! Z.to_nat j;
}.

Lemma pipe_read_loop_spec x0 s0 dst n :
  in_pipe x0 s0 → 0 ≤ dst → 0 ≤ n → dst + n ≤ MAX_VADDR →
  let k := Z.min n (Z.of_nat (length (queue x0))) in
  (∀ va, dst ≤ va < dst + k → is_Some (uaddr uwritable (k_mem s0) (t_pt t) va)) →
  runs (pipe_read_loop (t_proc t) pi dst n) s0 (λ i s, i = k ∧ reading s0 x0 dst k s).
Proof.
  intros Hin Hd Hn Hmax k Hw. unfold pipe_read_loop.
  apply (runs_loop (λ i s, 0 ≤ i ≤ k ∧ reading s0 x0 dst i s) (λ i, Z.to_nat (n - i))); [|split; [lia|]|lia].
  2: { split; [|done|done|lia]. exists x0. rewrite drop_0. split_and!; [done| |done..]. unfold piped.
    rewrite insert_id by apply Hin. by destruct s0. }
  intros i s [Hi [(x & Hx & Hs & Hq & Hro & Hwo) Hp Hl Hb]]. destruct (Z.ltb_spec i n) as [Hlt|Hge].
  2: { kstep. assert (i = k) as <- by lia. split; [done|]. split; try done. by exists x. }
  pose proof Hx as [X1 X2 X3 X4]. kstep. eapply runs_ok; [by apply get_pipe_eq|].
  destruct (Z.eqb_spec (pi_r x) (pi_w x)) as [E|E].
  { apply (queue_empty x X4) in E. rewrite Hq in E. apply (f_equal length) in E. rewrite length_drop in E. simpl in E.
    kstep. assert (i = k) as <- by lia. split; [done|]. split; try done. by exists x. }
  destruct (queue_pop x X4 E) as (c & Hc & Hqc & Hok & Hcb).
  assert (queue x0 !! Z.to_nat i = Some c) as Hci.
  { rewrite <-(Nat.add_0_r (Z.to_nat i)), <-lookup_drop, <-Hq, Hqc. done. }
  assert (i < k) as Hik by (apply lookup_lt_Some in Hci; lia).
  kstep. unfold pipe_byte. kstep. eapply runs_ok; [by apply get_pipe_eq|]. rewrite Hc. kstep.
  kstep. eapply runs_ok; [by apply (upd_pipe_eq _ x)|]. set (y := set_pi_r _ x) in *.
  pose proof (pipe_at_upd _ _ x y s Hx Hok) as [Y1 Y2 Y3 Y4]. set (s1 := set_k_pipes _ s) in *.
  destruct (oc_x _ _ _ _ Y1) as (p & Hp1 & _ & Hpt).
  kstep. eapply runs_ok; [by apply get_proc_eq|]. rewrite Hpt. rewrite wrap_small by
    (change (2 ^ 64) with 18446744073709551616; addr_lia).
  kstep. kcall (copy_byte_out t fl N 1 {[LPipe pi]} s1 (dst + i) c Y1 HF); [set_solver|lia|done|done|addr_lia| |].
  { destruct (Hw (dst + i) ltac:(lia)) as [v Hv]. exists v. unfold uaddr in *. simpl. by rewrite Hl. }
  intros r s2 (-> & H2 & U2 & E2 & L2 & B2 & O2). simpl. kstep.
  rewrite Hq, (drop_S _ c) in Hqc by done. injection Hqc as Hqy.
  split; [split; [lia|]|lia]. split.
  - exists y. split_and!; [|eapply piped_step; [exact Hs|]; rewrite E2; done|by rewrite Z2Nat.inj_add, Nat.add_1_r by lia|done|done].
    split; [done|done|by rewrite E2|done].
  - rewrite E2. exact Hp.
  - intros a. rewrite L2. apply Hl.
  - intros j Hj. destruct (decide (j = i)) as [->|Hne]; [by rewrite B2, Hci|].
    rewrite O2; [apply Hb; lia|lia|lia|]. destruct (Hw (dst + j) ltac:(lia)) as [v Hv]. exists v. unfold uaddr in *.
    simpl. by rewrite Hl.
Qed.

Lemma killed_spec n held s x :
  on_cpu t n held s → n + 1 < 2 ^ 30 → (∀ i, LProc i ∉ held) → 0 ≤ n → k_procs s !! t_proc t = Some x →
  runs (killed (t_proc t)) s (λ b s', b = p_killed x ∧ on_cpu t n held s' ∧ sim s s' ∧ k_procs s' = k_procs s).
Proof.
  intros H Hn Hh Hn0 Hx. unfold killed.
  assert (LProc (t_proc t) ∈ t_locks t) as Hp.
  { apply H. rewrite <-(oc_len _ _ _ _ H). by eapply lookup_lt_Some. }
  kstep. kcall (acquire_procs_spec t n held _ s H Hp (Hh _) Hn). intros [] s1 (H1 & S1 & P1 & _).
  kstep. kstep. eapply runs_ok; [apply get_proc_eq; by rewrite P1|]. kstep.
  kstep. kcall (release_procs_spec t (n + 1) _ _ s1 H1 Hp); [set_solver|lia|]. intros [] s2 (H2 & S2 & P2 & _).
  kstep. replace (n + 1 - 1) with n in H2 by lia.
  replace (({[LProc (t_proc t)]} ∪ held) ∖ {[LProc (t_proc t)]}) with held in H2 by (pose proof (Hh (t_proc t)); set_solver).
  split_and!; [done|done|by rewrite S1|by rewrite P2].
Qed.

(** [pipe_read] around its loop, when it need not wait. *)
Lemma pipe_read_around `{Rounds} x0 s0 dst n k (P : pipe → memory → Prop) :
  (0 < rounds)%nat → pipe_at 0 ∅ x0 s0 → queue x0 ≠ [] ∨ pi_write_open x0 = false →
  (∀ s, in_pipe x0 s → k_mem s = k_mem s0 →
     runs (pipe_read_loop (t_proc t) pi dst n) s (λ i s', i = k ∧ ∃ x, in_pipe x s' ∧ piped x s s' ∧ P x (k_mem s'))) →
  runs (pipe_read pi dst n) s0 (λ i s', i = k ∧ ∃ x, pipe_at 0 ∅ x s' ∧ piped x s0 s' ∧ P x (k_mem s')).
Proof.
  intros Hr Hat Hgo Hloop. unfold pipe_read.
  kstep. kcall (the_proc_spec t 0 ∅ s0 (ip_cpu _ _ _ _ Hat)); [lia|]. intros ? s1 (-> & H1 & S1).
  kstep. kcall (acquire0 t _ s1 H1 HL). intros [] s2 [H2 S2].
  assert (sim s0 s2) as S by by rewrite S1.
  pose proof (pipe_at_sim _ _ _ _ _ _ _ Hat H2 S) as H2'.
  kstep. apply (runs_conseq _ _ (λ b s, b = true ∧ s = s2)).
  { destruct rounds as [|f]; [lia|]. simpl. kstep. kstep. eapply runs_ok; [by apply get_pipe_eq, H2'|].
    replace ((pi_r x0 =? pi_w x0) && pi_write_open x0) with false; [by kstep; kstep|].
    destruct Hgo as [Hq| ->]; [|by rewrite andb_false_r].
    destruct (Z.eqb_spec (pi_r x0) (pi_w x0)) as [E|]; [|done]. by apply (queue_empty _ (ip_ok _ _ _ _ Hat)) in E. }
  intros ? ? [-> ->]. cbn [negb].
  kstep. kcall (Hloop s2 H2'); [by rewrite (sim_k_mem _ _ S)|]. intros i s3 (-> & x & Hx & Hs & HP).
  kstep. kcall (wake_up_spec t 1 _ (ChPipeW pi) s3 (ip_cpu _ _ _ _ Hx)); [lia|set_solver|]. intros [] s4 [H4 S4].
  kstep. kcall (release1 t _ s4 H4 HL). intros [] s5 [H5 S5]. assert (sim s3 s5) as S35 by by rewrite S4.
  kstep. split; [done|]. exists x. rewrite <-(sim_k_mem _ _ S35).
  split_and!; [by eapply pipe_at_sim| |done].
  eapply piped_sim_r, piped_sim_l; [exact S35|exact S|exact Hs].
Qed.

(** What it does to the pipe and the user's memory. *)
Lemma pipe_read_spec `{Rounds} x0 s0 dst n :
  (0 < rounds)%nat → pipe_at 0 ∅ x0 s0 → queue x0 ≠ [] ∨ pi_write_open x0 = false →
  0 ≤ dst → 0 ≤ n → dst + n ≤ MAX_VADDR →
  let k := Z.min n (Z.of_nat (length (queue x0))) in
  (∀ va, dst ≤ va < dst + k → is_Some (uaddr uwritable (k_mem s0) (t_pt t) va)) →
  runs (pipe_read pi dst n) s0 (λ i s, i = k ∧ ∃ x, pipe_at 0 ∅ x s ∧ piped x s0 s ∧
    queue x = drop (Z.to_nat k) (queue x0) ∧
    ∀ j, 0 ≤ j < k → Some (ubyte (k_mem s) (t_pt t) (dst + j)) = queue x0 !! Z.to_nat j).
Proof.
  intros Hr Hat Hgo Hd Hn Hmax k Hw. apply (pipe_read_around x0 s0 dst n k (λ x m, queue x = drop (Z.to_nat k) (queue x0) ∧
    ∀ j, 0 ≤ j < k → Some (ubyte m (t_pt t) (dst + j)) = queue x0 !! Z.to_nat j)); [done..|].
  intros s Hs M. kcall (pipe_read_loop_spec x0 s dst n Hs Hd Hn Hmax); [by rewrite M|].
  intros i s3 [-> [(x & Hx & Hpd & Hq & Hro & Hwo) _ Hl Hb]]. split; [done|]. by exists x.
Qed.

(** ** Writing *)

(** [i] bytes of the user's buffer are in the queue. *)
Definition writing (s0 : kstate) (x0 : pipe) (src i : Z) (s : kstate) : Prop :=
  (∃ x, in_pipe x s ∧ piped x s0 s ∧ queue x = queue x0 ++ ubytes (k_mem s0) (t_pt t) src i ∧
    pi_read_open x = pi_read_open x0 ∧ pi_write_open x = pi_write_open x0) ∧
  k_mem s = k_mem s0 ∧ k_procs s = k_procs s0.

Lemma not_full x : pipe_ok x → Z.of_nat (length (queue x)) + 1 < PIPE_SIZE → (pi_w x + 1) mod PIPE_SIZE ≠ pi_r x.
Proof.
  intros [H1 H2 H3 H4]. unfold queue. rewrite length_ring_between by done. unfold PIPE_SIZE in *. intros Hl E.
  Z.to_euclidean_division_equations; lia.
Qed.

Lemma store_byte x c s :
  k_pipes s !! pi = Some x → pipe_ok x →
  set_pipe_byte pi (pi_w x) c s =
  Ok tt (set_k_pipes (<[pi := set_pi_data (<[Z.to_nat (pi_w x) := c]> (pi_data x)) x]> (k_pipes s)) s).
Proof.
  intros Hx [H1 _ H3 _]. unfold set_pipe_byte. erewrite bind_ok by by apply get_pipe_eq.
  rewrite decide_True by (rewrite H1; unfold PIPE_SIZE in *; lia). by erewrite upd_pipe_eq.
Qed.

Lemma ubyte_byte s a : umem t fl N s → 0 ≤ ubyte (k_mem s) (t_pt t) a < 256.
Proof. intros H. unfold ubyte. destruct (pt_lookup _ _ a); [apply H|lia]. Qed.

Lemma pipe_write_round_spec s0 x0 src n i s p0 :
  0 ≤ src → 0 ≤ i < n → src + n ≤ MAX_VADDR →
  Z.of_nat (length (queue x0)) + n < PIPE_SIZE → pi_read_open x0 = true →
  k_procs s0 !! t_proc t = Some p0 → p_killed p0 = false →
  (∀ va, src ≤ va < src + n → is_Some (uaddr ureadable (k_mem s0) (t_pt t) va)) →
  writing s0 x0 src i s →
  runs (pipe_write_round (t_proc t) pi src n i) s (λ r s', r = inl (i + 1) ∧ writing s0 x0 src (i + 1) s').
Proof.
  intros Hs Hi Hmax Hroom Hro Hp0 Hk Hrd ((x & Hx & Hpd & Hq & Hxr & Hxw) & Hm & Hp).
  unfold pipe_write_round. rewrite (proj2 (Z.ltb_lt i n)) by lia.
  kstep. eapply runs_ok; [by apply get_pipe_eq, Hx|]. rewrite Hxr, Hro. cbn [negb].
  kstep. kcall (killed_spec 1 _ s p0 (ip_cpu _ _ _ _ Hx)); [lia|set_solver|lia|by rewrite Hp|].
  intros ? s1 (-> & H1 & S1 & P1). rewrite Hk. pose proof (pipe_at_sim _ _ _ _ _ _ _ Hx H1 S1) as Hx1.
  rewrite (proj2 (Z.eqb_neq _ _)).
  2: { apply not_full; [apply Hx|]. rewrite Hq, length_app, length_ubytes. lia. }
  destruct (oc_x _ _ _ _ H1) as (pr & Hpr & _ & Hpt).
  kstep. eapply runs_ok; [by apply get_proc_eq|]. rewrite Hpt, wrap_small by
    (change (2 ^ 64) with 18446744073709551616; addr_lia).
  assert (k_mem s1 = k_mem s0) as Hm1 by (by rewrite <-(sim_k_mem _ _ S1)).
  kstep. kcall (copy_in_spec s1 N (t_pt t) (src + i) 1 (um_pt _ _ _ _ (ip_mem _ _ _ _ Hx1))); [lia..|].
  rewrite Hm1. intros [r bs] s2 (-> & [(-> & -> & _)|(-> & va & Hva & Hbad)]).
  2: { destruct (Hrd va) as [? E]; [lia|]. by rewrite Hbad in E. }
  set (c := ubyte (k_mem s0) (t_pt t) (src + i)).
  assert (ubytes (k_mem s0) (t_pt t) (src + i) 1 = [c]) as -> by (unfold ubytes, c; simpl; by rewrite Z.add_0_r).
  cbn [negb Z.eqb head default]. pose proof (ubyte_byte s1 (src + i) (ip_mem _ _ _ _ Hx1)) as Hc.
  rewrite Hm1 in Hc.
  kstep. eapply runs_ok; [by apply store_byte; apply Hx1|].
  kstep. eapply runs_ok; [apply upd_pipe_eq, lookup_insert_eq|]. kstep. split; [done|].
  destruct (queue_push x c (ip_ok _ _ _ _ Hx)) as [Hq' Hok']; [|done|].
  { apply not_full; [apply Hx|]. rewrite Hq, length_app, length_ubytes. lia. }
  set (y := set_pi_w _ _) in *. cbn [k_pipes set_k_pipes]. rewrite insert_insert_eq.
  change (set_k_pipes ?a (set_k_pipes _ s1)) with (set_k_pipes a s1).
  split; [exists y; split_and!|split; [done|by simpl; rewrite P1]].
  - by apply (pipe_at_upd _ _ x).
  - eapply piped_step; [exact (piped_sim_r _ _ _ _ S1 Hpd)|done].
  - rewrite Hq', Hq, ubytes_app, app_assoc by lia. f_equal. unfold ubytes, c. simpl. by rewrite Z.add_0_r.
  - done.
  - done.
Qed.

Lemma pipe_write_spec `{Rounds} x0 s0 src n p0 :
  (0 < rounds)%nat → pipe_at 0 ∅ x0 s0 → 0 ≤ src → 0 ≤ n → src + n ≤ MAX_VADDR →
  Z.of_nat (length (queue x0)) + n < PIPE_SIZE → pi_read_open x0 = true →
  k_procs s0 !! t_proc t = Some p0 → p_killed p0 = false →
  (∀ va, src ≤ va < src + n → is_Some (uaddr ureadable (k_mem s0) (t_pt t) va)) →
  runs (pipe_write pi src n) s0 (λ i s, i = n ∧ ∃ x, pipe_at 0 ∅ x s ∧ piped x s0 s ∧
    queue x = queue x0 ++ ubytes (k_mem s0) (t_pt t) src n ∧
    pi_read_open x = pi_read_open x0 ∧ pi_write_open x = pi_write_open x0 ∧ k_mem s = k_mem s0).
Proof.
  intros Hr Hat Hs Hn Hmax Hroom Hro Hp Hk Hrd. unfold pipe_write.
  kstep. eapply runs_ok; [apply (the_proc_eq (t_proc t)); [|rewrite (oc_noff _ _ _ _ (ip_cpu _ _ _ _ Hat)); lia|]; apply Hat|].
  kstep. kcall (acquire_procs_spec t 0 ∅ (LPipe pi) _ (on_cpu_settled _ _ _ _ (ip_cpu _ _ _ _ Hat)) HL); [set_solver|lia|].
  rewrite (right_id_L ∅ (∪)). intros [] s1 (H1 & S1 & P1 & _). assert (sim s0 s1) as S by exact S1.
  pose proof (pipe_at_sim _ _ _ _ _ _ _ Hat H1 S) as Hx1. pose proof (sim_k_mem _ _ S) as M.
  kstep. apply (runs_conseq _ _ (λ r s, r = Some n ∧ writing s1 x0 src n s)).
  { apply (runs_loop (λ i s, 0 ≤ i ≤ n ∧ writing s1 x0 src i s) (λ i, Z.to_nat (n - i))).
    - intros i s [Hi Hw]. destruct (Z.ltb_spec i n) as [Hlt|Hge].
      + kcall (pipe_write_round_spec s1 x0 src n i s p0); [lia..|done| |done| |done|].
        * by rewrite P1.
        * intros va Hva. rewrite <-M. by apply Hrd.
        * intros r s' (-> & Hw'). split; [split; [lia|done]|lia].
      + unfold pipe_write_round. rewrite (proj2 (Z.ltb_ge i n)) by done. kstep.
        assert (i = n) as -> by lia. done.
    - split; [lia|]. split; [|done]. exists x0. split_and!; [done| | |done|done].
      + unfold piped. rewrite insert_id by apply Hx1. by destruct s1.
      + unfold ubytes. simpl. by rewrite app_nil_r.
    - lia. }
  intros r s2 (-> & (x & Hx & Hpd & Hq & Hxr & Hxw) & Hm & _).
  kstep. kcall (wake_up_spec t 1 _ (ChPipeR pi) s2 (ip_cpu _ _ _ _ Hx)); [lia|set_solver|]. intros [] s3 [H3 S3].
  kstep. kcall (release1 t _ s3 H3 HL). intros [] s4 [H4 S4]. assert (sim s2 s4) as S24 by by rewrite S3.
  kstep. split; [done|]. exists x. rewrite <-(sim_k_mem _ _ S24), Hm, M.
  split_and!; [by eapply pipe_at_sim| |done..].
  eapply piped_sim_r, piped_sim_l; [exact S24|exact S|exact Hpd].
Qed.

(** ** A read that fails *)

(** [copy_out] to a page that the user cannot write fails at once. *)
Lemma copy_byte_fails n held s va c :
  on_cpu t n held s → LFreeList ∉ held → n + 1 < 2 ^ 30 → umem t fl N s →
  0 ≤ c < 256 → 0 ≤ va < MAX_VADDR → uaddr uwritable (k_mem s) (t_pt t) va = None →
  runs (copy_out (t_pt t) va [c]) s (λ r s', r = -1 ∧ on_cpu t n held s' ∧ umem t fl N s' ∧
    s' = set_k_mem (k_mem s') s).
Proof.
  intros H Hh Hn Hu Hc Hva Hw. pose proof (umem_inv _ _ _ _ _ _ H HF Hh Hn Hu) as Hinv.
  kcall (copy_out_spec s fl N (t_pt t) va [c] Hinv (um_user _ _ _ _ Hu)).
  { by constructor. }
  { lia. }
  intros r s' (k & Hk & Hcp & [[-> ->]|(-> & _)]); cbn [length] in *.
  { destruct (cp_done _ _ _ _ _ _ _ _ Hcp va) as [y Hy]; [lia|]. by rewrite Hw in Hy. }
  pose proof Hcp as [C1 C2 C3 C4 C5 C6].
  assert (k_hart s' = k_hart s ∧ k_procs s' = k_procs s ∧ k_locks s' = k_locks s) as (E1 & E2 & E3) by by rewrite C2.
  split_and!; [done|by eapply on_cpu_sim| |done]. apply umem_of_inv; [done|]. eapply user_space_ext; [exact C3|apply Hu].
Qed.

(** C39: a [pipe_read] whose buffer is not writable by the user returns 0, as
    at the end of the stream, and the byte it took off the pipe is lost: the
    next read starts with the byte after it. *)
Theorem pipe_read_loses `{Rounds} x0 s0 dst n :
  (0 < rounds)%nat → pipe_at 0 ∅ x0 s0 → queue x0 ≠ [] → 0 < n → 0 ≤ dst < MAX_VADDR →
  uaddr uwritable (k_mem s0) (t_pt t) dst = None →
  runs (pipe_read pi dst n) s0 (λ i s, i = 0 ∧ ∃ x, pipe_at 0 ∅ x s ∧ piped x s0 s ∧ queue x = tail (queue x0)).
Proof.
  intros Hr Hat Hq Hn Hd Hw. apply (pipe_read_around x0 s0 dst n 0 (λ x _, queue x = tail (queue x0))); [done..|by left|].
  intros s Hs M. pose proof Hs as [X1 X2 X3 X4]. unfold pipe_read_loop. cbn [loop].
  rewrite (proj2 (Z.ltb_lt 0 n)) by done. kstep. kstep. eapply runs_ok; [by apply get_pipe_eq|].
  destruct (Z.eqb_spec (pi_r x0) (pi_w x0)) as [E|E]; [by apply (queue_empty x0 X4) in E|].
  destruct (queue_pop x0 X4 E) as (c & Hc & Hqc & Hok & Hcb).
  kstep. unfold pipe_byte. kstep. eapply runs_ok; [by apply get_pipe_eq|]. rewrite Hc. kstep.
  kstep. eapply runs_ok; [by apply (upd_pipe_eq _ x0)|]. set (y := set_pi_r _ x0) in *.
  pose proof (pipe_at_upd _ _ x0 y s Hs Hok) as [Y1 Y2 Y3 Y4]. set (s1 := set_k_pipes _ s) in *.
  destruct (oc_x _ _ _ _ Y1) as (p & Hp1 & _ & Hpt).
  kstep. eapply runs_ok; [by apply get_proc_eq|]. rewrite Hpt, Z.add_0_r, wrap_small by
    (change (2 ^ 64) with 18446744073709551616; addr_lia).
  kstep. kcall (copy_byte_fails 1 {[LPipe pi]} s1 dst c Y1); [set_solver|lia|done|done|done| |].
  { simpl. by rewrite M. }
  intros r s2 (-> & H2 & U2 & E2). simpl. kstep. kstep. split; [done|]. exists y.
  split_and!; [split; [done|done|by rewrite E2|done]|by rewrite E2|by rewrite Hqc].
Qed.
End pipes.

(** ** Properties *)

(** C13: a pipe is a first-in first-out queue of bytes: when there is room and
    the buffers are mapped, [pipe_write] of [n] bytes followed by [pipe_read]
    of [m] returns [n] and the number of bytes that were there to read; the
    reader's buffer holds the oldest bytes (those already in the pipe, then
    the writer's), in order and across the end of the array; the pipe keeps
    the rest, and nothing but the pipe and the user's memory changes. *)
Theorem pipe_fifo `{Rounds} t fl N pi x s p0 src n dst m :
  (0 < rounds)%nat → LPipe pi ∈ t_locks t → LFreeList ∈ t_locks t →
  pipe_at t fl N pi 0 ∅ x s → pi_read_open x = true →
  k_procs s !! t_proc t = Some p0 → p_killed p0 = false →
  0 < n → Z.of_nat (length (queue x)) + n < PIPE_SIZE → 0 ≤ src → src + n ≤ MAX_VADDR →
  (∀ va, src ≤ va < src + n → is_Some (uaddr ureadable (k_mem s) (t_pt t) va)) →
  0 ≤ dst → 0 ≤ m → dst + m ≤ MAX_VADDR →
  (∀ va, dst ≤ va < dst + m → is_Some (uaddr uwritable (k_mem s) (t_pt t) va)) →
  let q := queue x ++ ubytes (k_mem s) (t_pt t) src n in
  let k := Z.min m (Z.of_nat (length q)) in
  runs (w ← pipe_write pi src n; r ← pipe_read pi dst m; mret (w, r)) s (λ wr s', wr = (n, k) ∧
    ubytes (k_mem s') (t_pt t) dst k = take (Z.to_nat k) q ∧
    ∃ x', pipe_at t fl N pi 0 ∅ x' s' ∧ piped pi x' s s' ∧ queue x' = drop (Z.to_nat k) q).
Proof.
  intros Hr HL HF Hat Hro Hp Hk Hn Hroom Hs Hsm Hrd Hd Hm Hdm Hw q k.
  kstep. kcall (pipe_write_spec t fl N pi HL HF x s src n p0); try done; [lia|].
  intros ? s1 (-> & x1 & Hat1 & Hpd1 & Hq1 & Hr1 & Hw1 & M1). fold q in Hq1.
  kstep. kcall (pipe_read_spec t fl N pi HL HF x1 s1 dst m); try done.
  { left. rewrite Hq1. unfold q. intros E%(f_equal length). rewrite length_app, length_ubytes in E. simpl in E. lia. }
  { intros va Hva. rewrite M1. apply Hw. lia. }
  rewrite Hq1. fold k. intros ? s2 (-> & x2 & Hat2 & Hpd2 & Hq2 & Hb2). kstep. split; [done|]. split.
  - apply list_eq. intros i. destruct (decide (i < Z.to_nat k)%nat) as [Hi|Hi].
    + rewrite lookup_take_lt by done. rewrite <-(Nat2Z.id i), lookup_ubytes by lia. apply Hb2. lia.
    + rewrite !lookup_ge_None_2; [done|rewrite length_take; lia|rewrite length_ubytes; lia].
  - exists x2. split_and!; [done| |done]. by eapply piped_step.
Qed.
