(* ===== verification/ConsoleTheorems.v ===== *)
(** The console (kernel/dev/console.c) as a line editor: the interrupt handler
    edits a line until it is complete, and [console_read] takes complete lines
    to the user's memory. *)

From S2P Require Import Prelude Ring Mem State Machine Mm PageTable MmAlloc MmMap MmUser MmInit Proc Sync Console Virtio Buf Log Inode Pipe FsData ProcTheorems Env PipeTheorems.

(** ** Definitions *)

(** What the kernel relies on of the transmitter of the UART.  Its status is a
    function of what has been done to it: it is busy after a byte, and polling it
    shows it idle again before the [uart_bound]-th time. *)
Class UartDevice `{Device} := {
  uart_status : list uart_event → Z;
  uart_bound : nat;
  uart_poll : ∀ s, READ_REG LSR s = Ok (uart_status (k_uart s)) (set_k_uart (Polled :: k_uart s) s);
  uart_send : ∀ c s, WRITE_REG THR c s = Ok tt (set_k_uart (Sent c :: k_uart s) s);
  uart_drains : ∀ h, ∃ k, (k < uart_bound)%nat ∧ Z.land (uart_status (replicate k Polled ++ h)) LSR_TX_IDLE ≠ 0;
}.

(** The bytes that the UART has been given, in order. *)
Fixpoint uart_sent (h : list uart_event) : list Z :=
  match h with
  | [] => []
  | Polled :: h => uart_sent h
  | Sent c :: h => uart_sent h ++ [c]
  end.

(** What [console_putc] sends for a character. *)
Definition console_bytes (c : Z) : list Z := if c =? BACKSPACE then [8; 32; 8] else [u8 c].

(** The data but for what has been done to the UART. *)
Definition usim (s s' : kstate) : Prop := sim (set_k_uart [] s) (set_k_uart [] s').

(** The characters that readers can have, those of the line that is being
    edited, and the index of the next one. *)
Record tty := mk_tty { tty_done : list Z; tty_line : list Z; tty_pos : Z }.

Definition tty_full (done line : list Z) : bool := INPUT_SIZE - 1 <=? Z.of_nat (length (done ++ line)).

(** One key.  [None]: the delete key when the character before it is the last
    of the array, which the code gets wrong ([console_delete_wraps]). *)
Definition tty_key (c : Z) (x : tty) : option tty :=
  if c =? 16 then Some x
  else if c =? 127 then
    if bool_decide (tty_line x = []) then Some x
    else if tty_pos x =? 0 then None
    else Some (mk_tty (tty_done x) (removelast (tty_line x)) (tty_pos x - 1))
  else if (c =? 0) || tty_full (tty_done x) (tty_line x) then Some x
  else
    let c := if c =? 13 then 10 else c in
    let l := tty_line x ++ [c] in
    let p := (tty_pos x + 1) mod INPUT_SIZE in
    Some (if (c =? 10) || (c =? 4) || tty_full (tty_done x) l then mk_tty (tty_done x ++ l) [] p
          else mk_tty (tty_done x) l p).

Fixpoint tty_keys (cs : list Z) (x : tty) : option tty :=
  match cs with
  | [] => Some x
  | c :: cs => tty_key c x ≫= tty_keys cs
  end.

(** The indices are inside of the array, and the reader is behind the complete
    lines, which are behind the line that is being edited. *)
Record cons_ok (k : console) : Prop := {
  ck_len : length (cons_buf k) = Z.to_nat INPUT_SIZE;
  ck_r : 0 ≤ cons_r k < INPUT_SIZE;
  ck_w : 0 ≤ cons_w k < INPUT_SIZE;
  ck_e : 0 ≤ cons_e k < INPUT_SIZE;
  ck_order : (cons_w k - cons_r k) mod INPUT_SIZE ≤ (cons_e k - cons_r k) mod INPUT_SIZE;
  ck_bytes : Forall (λ c, 0 ≤ c < 256) (cons_buf k);
}.

Definition tty_of (k : console) : tty :=
  mk_tty (ring_between INPUT_SIZE (cons_buf k) (cons_r k) (cons_w k))
    (ring_between INPUT_SIZE (cons_buf k) (cons_w k) (cons_e k)) (cons_e k).

(** ** The ring of the console *)

Lemma input_size : 1 < INPUT_SIZE.
Proof. done. Qed.

Ltac cons_lia :=
  unfold INPUT_SIZE in *; Z.to_euclidean_division_equations; lia.

Lemma tty_whole k :
  cons_ok k → tty_done (tty_of k) ++ tty_line (tty_of k) = ring_between INPUT_SIZE (cons_buf k) (cons_r k) (cons_e k).
Proof. intros [H1 H2 H3 H4 H5 H6]. symmetry. by apply ring_split. Qed.

Lemma tty_full_spec k :
  cons_ok k → tty_full (tty_done (tty_of k)) (tty_line (tty_of k)) = (u32 (cons_e k + 1) mod INPUT_SIZE =? cons_r k).
Proof.
  intros H. unfold tty_full. rewrite tty_whole, length_ring_between by done. destruct H as [H1 H2 H3 H4 H5 H6].
  rewrite wrap_small by (unfold INPUT_SIZE in *; lia). apply Bool.eq_iff_eq_true. rewrite Z.leb_le, Z.eqb_eq.
  split; intros; cons_lia.
Qed.

Lemma tty_push k c :
  cons_ok k → (cons_e k + 1) mod INPUT_SIZE ≠ cons_r k → 0 ≤ c < 256 →
  let k' := set_cons_e ((cons_e k + 1) mod INPUT_SIZE) (set_cons_buf (<[Z.to_nat (cons_e k) := c]> (cons_buf k)) k) in
  cons_ok k' ∧ tty_of k' = mk_tty (tty_done (tty_of k)) (tty_line (tty_of k) ++ [c]) ((cons_e k + 1) mod INPUT_SIZE).
Proof.
  intros [H1 H2 H3 H4 H5 H6] Hne Hc k'. split.
  - split; simpl; [by rewrite length_insert|done|done|by apply Z.mod_pos_bound|cons_lia|by apply Forall_insert].
  - unfold tty_of, k'. simpl. f_equal.
    + apply ring_insert; [done|done|]. intros i Hi. rewrite Z2Nat.id in Hi by by apply Z.mod_pos_bound. cons_lia.
    + apply ring_push; [done..|cons_lia].
Qed.

Lemma tty_commit k :
  cons_ok k → cons_ok (set_cons_w (cons_e k) k) ∧
  tty_of (set_cons_w (cons_e k) k) = mk_tty (tty_done (tty_of k) ++ tty_line (tty_of k)) [] (cons_e k).
Proof.
  intros H. rewrite tty_whole by done. destruct H as [H1 H2 H3 H4 H5 H6]. split; [by split|].
  unfold tty_of. simpl. by rewrite ring_nil.
Qed.

Lemma tty_line_nil k : cons_ok k → tty_line (tty_of k) = [] ↔ cons_e k = cons_w k.
Proof.
  intros [H1 H2 H3 H4 H5 H6]. simpl. split; [by intros ?%ring_nil_inv|]. intros ->. by apply ring_nil.
Qed.

Lemma tty_delete k :
  cons_ok k → cons_e k ≠ cons_w k → cons_e k ≠ 0 →
  cons_ok (set_cons_e (cons_e k - 1) k) ∧
  tty_of (set_cons_e (cons_e k - 1) k) = mk_tty (tty_done (tty_of k)) (removelast (tty_line (tty_of k))) (cons_e k - 1).
Proof.
  intros [H1 H2 H3 H4 H5 H6] Hw H0. split.
  - split; simpl; try done; cons_lia.
  - unfold tty_of. simpl. f_equal. rewrite (ring_split _ input_size _ (cons_w k) (cons_e k - 1) (cons_e k)); [|done|cons_lia..].
    assert (ring_between INPUT_SIZE (cons_buf k) (cons_e k - 1) (cons_e k) = ring INPUT_SIZE (cons_buf k) (cons_e k - 1) 1) as ->.
    { unfold ring_between. f_equal. replace (cons_e k - (cons_e k - 1)) with 1 by lia. done. }
    by rewrite ring_one, removelast_last by cons_lia.
Qed.

Lemma tty_pop k :
  cons_ok k → cons_r k ≠ cons_w k →
  ∃ c, cons_buf k !! Z.to_nat (cons_r k) = Some c ∧ 0 ≤ c < 256 ∧
    let k' := set_cons_r ((cons_r k + 1) mod INPUT_SIZE) k in
    cons_ok k' ∧ tty_done (tty_of k) = c :: tty_done (tty_of k') ∧
    tty_of k' = mk_tty (tty_done (tty_of k')) (tty_line (tty_of k)) (tty_pos (tty_of k)).
Proof.
  intros [H1 H2 H3 H4 H5 H6] Hne. destruct (lookup_lt_is_Some_2 (cons_buf k) (Z.to_nat (cons_r k))) as [c Hc].
  { rewrite H1. unfold INPUT_SIZE in *. lia. }
  exists c. split; [done|]. split; [exact (Forall_lookup_1 _ _ _ _ H6 Hc)|]. split.
  - split; simpl; try done; [by apply Z.mod_pos_bound|cons_lia].
  - split; [|done]. simpl. by rewrite ring_pop, Hc.
Qed.

(** ** Output *)

Lemma union_minus (l : lockid) (held : gset lockid) : l ∉ held → ({[l]} ∪ held) ∖ {[l]} = held.
Proof. set_solver. Qed.

#[export] Instance usim_equiv : Equivalence usim.
Proof. split; unfold usim; [by intros s|by intros s s'|]. intros s s' s'' H1 H2. by rewrite H1. Qed.
Lemma sim_usim s s' : sim s s' → usim s s'.
Proof. intros S. exact (f_equal (set_k_uart []) S). Qed.
#[export] Instance sim_usim_sub : subrelation sim usim := sim_usim.
Coercion sim_usim : sim >-> usim.
Lemma usim_uart s h : usim s (set_k_uart h s).
Proof. done. Qed.
Lemma usim_k_panicked s s' : usim s s' → k_panicked s = k_panicked s'.
Proof. intros S. exact (f_equal k_panicked S). Qed.
Lemma usim_k_cons s s' : usim s s' → k_cons s = k_cons s'.
Proof. intros S. exact (f_equal k_cons S). Qed.
Lemma usim_k_mem s s' : usim s s' → k_mem s = k_mem s'.
Proof. intros S. exact (f_equal k_mem S). Qed.
Lemma usim_cons k s s' : usim s s' → usim (set_k_cons k s) (set_k_cons k s').
Proof. intros S. exact (f_equal (set_k_cons k) S). Qed.
Lemma usim_mem m s s' : usim s s' → usim (set_k_mem m s) (set_k_mem m s').
Proof. intros S. exact (f_equal (set_k_mem m) S). Qed.
Lemma sim_uart h s s' : sim s s' → sim (set_k_uart h s) (set_k_uart h s').
Proof. intros S. exact (f_equal (set_k_uart h) S). Qed.
Lemma sim_k_uart s s' : sim s s' → k_uart s = k_uart s'.
Proof. intros S. exact (f_equal k_uart S). Qed.

Lemma uart_sent_app h h' : uart_sent (h ++ h') = uart_sent h' ++ uart_sent h.
Proof. induction h as [|[|c] h IH]; cbn; [by rewrite app_nil_r|done|]. by rewrite IH, app_assoc. Qed.
Lemma uart_sent_polls k h : uart_sent (replicate k Polled ++ h) = uart_sent h.
Proof. rewrite uart_sent_app. induction k; cbn; [by rewrite app_nil_r|done]. Qed.

Lemma polls_cons k h : replicate k Polled ++ Polled :: h = replicate (S k) Polled ++ h.
Proof. induction k as [|k IH]; cbn in *; [done|]. by rewrite IH. Qed.

Section console.
Context `{DV : Device} `{UD : !UartDevice} `{RN : Rounds} (Hrounds : (uart_bound ≤ rounds)%nat).

(** Waiting for the transmitter. *)
Lemma uart_wait_eq fuel s :
  (∃ k, (k < fuel)%nat ∧ Z.land (uart_status (replicate k Polled ++ k_uart s)) LSR_TX_IDLE ≠ 0) →
  ∃ k, loop fuel (λ '(), st ← READ_REG LSR; mret (if Z.land st LSR_TX_IDLE =? 0 then inl tt else inr tt)) tt s =
    Ok tt (set_k_uart (replicate k Polled ++ k_uart s) s).
Proof.
  revert s. induction fuel as [|fuel IH]; intros s (k & Hk & Hidle); [lia|]. cbn [loop].
  setoid_rewrite K_bind_eq. setoid_rewrite K_bind_eq. rewrite uart_poll. cbn [obind mret K_ret].
  destruct (Z.eqb_spec (Z.land (uart_status (k_uart s)) LSR_TX_IDLE) 0) as [E|E]; [|by exists 1%nat].
  destruct k as [|k]; [done|]. destruct (IH (set_k_uart (Polled :: k_uart s) s)) as [k' Hk'].
  - exists k. split; [lia|]. cbn [k_uart set_k_uart]. by rewrite polls_cons.
  - exists (S k'). rewrite Hk'. cbn [k_uart set_k_uart]. by rewrite polls_cons.
Qed.

Lemma uart_putc_sync_eq c s :
  hart_ok (k_hart s) → noff (k_hart s) + 1 < 2 ^ 30 → k_panicked s = false →
  ∃ k, uart_putc_sync c s = Ok tt (set_k_uart (Sent (u8 c) :: replicate k Polled ++ k_uart s) (settled s)).
Proof.
  intros H Hn Hp. unfold uart_putc_sync. set (s1 := set_k_hart (hart_push (k_hart s)) s).
  destruct (uart_wait_eq rounds s1) as [k Hk]; [destruct (uart_drains (k_uart s)) as (k & ? & ?); exists k; split; [lia|done]|].
  exists k. erewrite bind_ok by by apply push_off_eq. fold s1. erewrite bind_ok by done. cbn [k_panicked set_k_hart s1]. rewrite Hp.
  erewrite bind_ok by exact Hk. erewrite bind_ok by apply uart_send. rewrite pop_off_eq.
  - cbn [k_hart set_k_hart set_k_uart s1]. by rewrite hart_pop_push.
  - by apply hart_push_ok.
  - cbn [k_hart set_k_hart set_k_uart s1]. rewrite noff_push by done. pose proof (ok_noff _ H). lia.
Qed.

Context (t : task) (Hcons : LCons ∈ t_locks t) (Hprintk : LPrintk ∈ t_locks t).

(** A call that changes nothing but the state of the hart and of the locks, and
    the UART; and one that sends [out]. *)
Abbreviation harmless n held m s :=
  (runs m s (λ _ s', on_cpu t n held s' ∧ usim s s' ∧ k_procs s' = k_procs s)).
Abbreviation sends n held m s out :=
  (runs m s (λ _ s', (on_cpu t n held s' ∧ usim s s' ∧ k_procs s' = k_procs s) ∧
    uart_sent (k_uart s') = uart_sent (k_uart s) ++ out)).

Lemma uart_putc_sync_spec n held c s :
  on_cpu t n held s → n + 1 < 2 ^ 30 → k_panicked s = false → sends n held (uart_putc_sync c) s [u8 c].
Proof.
  intros H Hn Hp. destruct (uart_putc_sync_eq c s) as [k Hk]; [apply H|by rewrite (oc_noff _ _ _ _ H)|done|].
  eapply runs_ok; [exact Hk|]. split_and!; [|done|done|].
  - eapply on_cpu_sim; [by apply on_cpu_settled|done..].
  - cbn. by rewrite uart_sent_polls.
Qed.

Lemma console_putc_sends n held c s :
  on_cpu t n held s → n + 1 < 2 ^ 30 → k_panicked s = false → sends n held (console_putc c) s (console_bytes c).
Proof.
  intros H Hn Hp. unfold console_putc, console_bytes. destruct (c =? BACKSPACE); [|by apply uart_putc_sync_spec].
  kstep. kcall (uart_putc_sync_spec n held 8 s H Hn Hp). intros [] s1 ((H1 & S1 & P1) & U1).
  kstep. kcall (uart_putc_sync_spec n held 32 s1 H1 Hn); [by rewrite <-(usim_k_panicked _ _ S1)|].
  intros [] s2 ((H2 & S2 & P2) & U2). rewrite S2 in S1.
  kcall (uart_putc_sync_spec n held 8 s2 H2 Hn); [by rewrite <-(usim_k_panicked _ _ S1)|].
  intros [] s3 ((H3 & S3 & P3) & U3). split_and!; [done|by rewrite <-S3|congruence|]. by rewrite U3, U2, U1, <-!app_assoc.
Qed.

Lemma console_putc_spec n held c s :
  on_cpu t n held s → n + 1 < 2 ^ 30 → k_panicked s = false → harmless n held (console_putc c) s.
Proof. intros H Hn Hp. kcall (console_putc_sends n held c s H Hn Hp). by intros [] s' []. Qed.

Lemma console_puts_sends n held l s :
  on_cpu t n held s → n + 1 < 2 ^ 30 → k_panicked s = false → sends n held (console_puts l) s (l ≫= console_bytes).
Proof.
  intros H Hn Hp. apply (runs_kiter (λ pre s', (on_cpu t n held s' ∧ usim s s' ∧ k_procs s' = k_procs s) ∧
    uart_sent (k_uart s') = uart_sent (k_uart s) ++ (pre ≫= console_bytes)) _ l []); [by rewrite app_nil_r|].
  intros pre c post s1 _ ((H1 & S1 & P1) & U1).
  kcall (console_putc_sends n held c s1 H1 Hn); [by rewrite <-(usim_k_panicked _ _ S1)|].
  intros [] s2 ((H2 & S2 & P2) & U2). split_and!; [done|by rewrite S1|congruence|].
  rewrite U2, U1, (app_nil_l pre), (app_nil_l (pre ++ [c])), bind_app, bind_singleton. by rewrite app_assoc.
Qed.

Lemma printk_sends n held fmt args txt s :
  on_cpu t n held s → LPrintk ∉ held → 0 ≤ n → n + 2 < 2 ^ 30 → k_panicked s = false →
  printk_text (S (length (bytes_of_string fmt))) (bytes_of_string fmt) args = Some txt →
  sends n held (printk fmt args) s (txt ≫= console_bytes).
Proof.
  clear Hcons. intros H Hh Hn0 Hn Hp Ht. unfold printk. rewrite Ht.
  kstep. kcall (acquire_procs_spec t n held _ s H Hprintk Hh); [lia|]. intros [] s1 (H1 & S1 & P1 & _).
  kstep. kcall (console_puts_sends (n + 1) _ txt s1 H1); [lia|by rewrite <-(usim_k_panicked _ _ S1)|].
  intros [] s2 ((H2 & S2 & P2) & U2).
  kcall (release_procs_spec t (n + 1) _ _ s2 H2 Hprintk); [set_solver|lia|]. intros [] s3 (H3 & S3 & P3 & _).
  rewrite union_minus in H3 by done. replace (n + 1 - 1) with n in H3 by lia.
  split_and!; [done|rewrite S1, S2; exact (sim_usim _ _ S3)|congruence|]. by rewrite <-(sim_k_uart _ _ S3), U2, (sim_k_uart _ _ S1).
Qed.

Lemma printk_spec n held fmt args txt s :
  on_cpu t n held s → LPrintk ∉ held → 0 ≤ n → n + 2 < 2 ^ 30 → k_panicked s = false →
  printk_text (S (length (bytes_of_string fmt))) (bytes_of_string fmt) args = Some txt →
  harmless n held (printk fmt args) s.
Proof. intros. kcall (printk_sends n held fmt args txt s); [done..|]. by intros [] s' []. Qed.

Lemma proc_dump_spec n held s :
  on_cpu t n held s → LPrintk ∉ held → 0 ≤ n → n + 2 < 2 ^ 30 → k_panicked s = false →
  harmless n held proc_dump s.
Proof.
  intros H Hh Hn0 Hn Hp. unfold proc_dump. kstep. kcall (printk_spec n held newline [] _ s H Hh Hn0 Hn Hp); [done|].
  intros [] s1 (H1 & S1 & P1).
  kcall (runs_kiter (λ _ s', on_cpu t n held s' ∧ usim s s' ∧ k_procs s' = k_procs s) _ all_procs []); [done| |by intros []].
  intros pre p post s2 Hsplit (H2 & S2 & P2).
  assert (p < N_PROC)%nat as Hlt.
  { assert (p ∈ all_procs) as Hin by (rewrite Hsplit; set_solver). apply elem_of_seq in Hin. lia. }
  rewrite <-(oc_len _ _ _ _ H2) in Hlt. destruct (lookup_lt_is_Some_2 _ _ Hlt) as [x Hx].
  kstep. eapply runs_ok; [by apply get_proc_eq|]. kstep; intros _; [|done].
  kcall (printk_spec n held _ _ _ s2 H2 Hh Hn0 Hn); [by rewrite <-(usim_k_panicked _ _ S2)|reflexivity|].
  intros [] s3 (H3 & S3 & P3). split_and!; [done|by rewrite S2|congruence].
Qed.

(** ** Keys *)

(** A step of the console that takes its contents from [x] to [y]. *)
Definition cons_step (n : Z) (held : gset lockid) (s0 : kstate) (o : option tty) (s : kstate) : Prop :=
  on_cpu t n held s ∧ cons_ok (k_cons s) ∧ o = Some (tty_of (k_cons s)) ∧ usim s (set_k_cons (k_cons s) s0).

Lemma cons_step_same n held s s' :
  on_cpu t n held s' → usim s s' → cons_ok (k_cons s) → cons_step n held s (Some (tty_of (k_cons s))) s'.
Proof.
  intros H S Hok. pose proof (usim_k_cons _ _ S) as E. rewrite E in *. split_and!; [done|done|done|].
  rewrite <-E. rewrite <-S. by destruct s.
Qed.

Lemma upd_cons_on_cpu n held s k : on_cpu t n held s → on_cpu t n held (set_k_cons k s).
Proof. intros H. by eapply on_cpu_sim. Qed.

Lemma console_default_spec n held c s :
  on_cpu t n held s → n + 1 < 2 ^ 30 → (∀ i, LProc i ∉ held) → k_panicked s = false → cons_ok (k_cons s) →
  0 ≤ c < 256 → c ≠ 16 → c ≠ 127 →
  runs (console_default c) s (λ _ s', cons_step n held s (tty_key c (tty_of (k_cons s))) s').
Proof.
  intros H Hn Hh Hp Hok Hc H16 H127. unfold console_default, set_cons_buf_at, upd_cons, tty_key.
  rewrite (proj2 (Z.eqb_neq c 16)), (proj2 (Z.eqb_neq c 127)), tty_full_spec by done.
  kstep. kstep. set (k := k_cons s) in *. pose proof (ck_e _ Hok) as He.
  rewrite !(wrap_small 32 (cons_e k + 1)) by (unfold INPUT_SIZE in *; lia).
  destruct (Z.eqb_spec c 0) as [->|H0]; cbn [negb andb orb when].
  { kstep. by apply cons_step_same. }
  destruct (Z.eqb_spec ((cons_e k + 1) mod INPUT_SIZE) (cons_r k)) as [Hf|Hf]; cbn [negb when].
  { kstep. by apply cons_step_same. }
  set (c' := if c =? 13 then 10 else c). assert (0 ≤ c' < 256) as Hc' by (unfold c'; case_match; lia).
  kstep. kcall (console_putc_spec n held c' s H Hn Hp). intros [] s1 (H1 & S1 & P1).
  kstep. rewrite (proj2 (Z.ltb_lt _ _)), (wrap_small 8 c') by (done || lia).
  kstep. kstep. kstep. rewrite <-(usim_k_cons _ _ S1). cbn [k_cons set_k_cons]. fold k.
  destruct (tty_push k c' Hok Hf Hc') as [Hok2 Ht2]. set (k2 := set_cons_e _ _) in *.
  set (e := (cons_e k + 1) mod INPUT_SIZE) in *. assert (cons_e k2 = e) as Ee by done.
  assert (0 ≤ e < INPUT_SIZE) as Heb by by apply Z.mod_pos_bound.
  set (s2 := set_k_cons k2 _). assert (on_cpu t n held s2) as H2 by by do 2 apply upd_cons_on_cpu.
  assert (usim s2 (set_k_cons k2 s)) as S2 by (unfold s2; exact (f_equal (set_k_cons k2) (eq_sym S1))).
  assert (tty_full (tty_done (tty_of k)) (tty_line (tty_of k) ++ [c']) = (u32 (e + 1) mod INPUT_SIZE =? cons_r k)) as Hfull.
  { rewrite <-Ee. change (cons_r k) with (cons_r k2). rewrite <-(tty_full_spec k2 Hok2), Ht2. done. }
  rewrite <-Hfull. destruct (_ || _ || _) eqn:Ecom; cbn [when].
  - kstep. kstep. cbn [k_cons s2 set_k_cons]. fold s2. rewrite <-Ee. destruct (tty_commit k2 Hok2) as [Hok3 Ht3].
    kcall (wake_up_spec t n held ChConsR _ (upd_cons_on_cpu n held s2 _ H2) Hn Hh).
    intros [] s3 [H3 S3]. pose proof (usim_k_cons _ _ S3) as E3. cbn [k_cons set_k_cons] in E3.
    unfold cons_step. rewrite <-E3. split_and!; [done|done| |].
    + by rewrite Ht3, Ht2.
    + rewrite <-S3. exact (f_equal (set_k_cons (set_cons_w (cons_e k2) k2)) S2).
  - kstep. split_and!; [done|done|apply f_equal; symmetry; exact Ht2|exact S2].
Qed.

Lemma console_intr_spec n held c s x :
  on_cpu t n held s → LCons ∉ held → LPrintk ∉ held → (∀ i, LProc i ∉ held) → 0 ≤ n → n + 3 < 2 ^ 30 →
  k_panicked s = false → cons_ok (k_cons s) → 0 ≤ c < 256 → tty_key c (tty_of (k_cons s)) = Some x →
  runs (console_intr c) s (λ _ s', cons_step n held s (Some x) s').
Proof.
  intros H Hh Hh2 Hh3 Hn0 Hn Hp Hok Hc Hx. unfold console_intr, upd_cons.
  kstep. kcall (acquire_spec t n held _ s H Hcons Hh); [lia|]. intros [] s1 [H1 S1].
  assert (∀ i, LProc i ∉ {[LCons]} ∪ held) as Hh3' by set_solver.
  pose proof (usim_k_cons _ _ S1) as E1. pose proof (usim_k_panicked _ _ S1) as E1p. rewrite E1p, E1 in *.
  assert (∀ s2, cons_step (n + 1) ({[LCons]} ∪ held) s1 (Some x) s2 →
    runs (spin_lock_release LCons) s2 (λ _ s', cons_step n held s (Some x) s')) as Hend.
  { intros s2 (H2 & Hok2 & Hx2 & S2). kcall (release_spec t (n + 1) _ _ s2 H2 Hcons); [set_solver|lia|].
    intros [] s3 [H3 S3]. rewrite union_minus in H3 by done. replace (n + 1 - 1) with n in H3 by lia.
    pose proof (usim_k_cons _ _ S3) as E3. rewrite E3 in *. split_and!; [done|done|done|].
    etrans; [symmetry; exact (sim_usim _ _ S3)|]. etrans; [exact S2|]. apply usim_cons. symmetry. exact (sim_usim _ _ S1). }
  kstep. apply (runs_conseq _ _ (λ _ s2, cons_step (n + 1) ({[LCons]} ∪ held) s1 (Some x) s2)); [|intros []; exact Hend]. unfold tty_key in Hx.
  destruct (Z.eqb_spec c 16) as [->|H16].
  { injection Hx as <-. kcall (proc_dump_spec (n + 1) _ s1 H1); [set_solver|lia|lia|done|].
    intros [] s2 (H2 & S2 & _). by apply cons_step_same. }
  destruct (Z.eqb_spec c 127) as [->|H127].
  2: { kcall (console_default_spec (n + 1) _ c s1 H1); [lia|done|done|done|done|done|done|].
    intros [] s2. unfold tty_key. by rewrite (proj2 (Z.eqb_neq c 16)), (proj2 (Z.eqb_neq c 127)), Hx by done. }
  kstep. kstep. destruct (Z.eqb_spec (cons_e (k_cons s1)) (cons_w (k_cons s1))) as [E|E]; cbn [negb when].
  { kstep. rewrite bool_decide_eq_true_2 in Hx by by apply tty_line_nil. injection Hx as <-. by apply cons_step_same. }
  rewrite bool_decide_eq_false_2 in Hx by by rewrite tty_line_nil.
  destruct (Z.eqb_spec (tty_pos (tty_of (k_cons s1))) 0) as [E0|E0]; [done|]. injection Hx as <-. cbn [tty_pos tty_of] in E0.
  pose proof (ck_e _ Hok) as He. kstep. kstep. rewrite wrap_small by (unfold INPUT_SIZE in *; lia).
  destruct (tty_delete _ Hok E E0) as [Hok2 Ht2]. set (k2 := set_cons_e _ _) in *.
  kcall (console_putc_spec (n + 1) _ BACKSPACE _ (upd_cons_on_cpu _ _ s1 k2 H1)); [lia|done|].
  intros [] s2 (H2 & S2 & _). pose proof (usim_k_cons _ _ S2) as E2. cbn [k_cons set_k_cons] in E2.
  unfold cons_step. rewrite <-E2. split_and!; [done|done|by rewrite Ht2|]. by rewrite <-S2.
Qed.

Lemma console_keys_spec n held cs : ∀ s x,
  on_cpu t n held s → LCons ∉ held → LPrintk ∉ held → (∀ i, LProc i ∉ held) → 0 ≤ n → n + 3 < 2 ^ 30 →
  k_panicked s = false → cons_ok (k_cons s) → Forall (λ c, 0 ≤ c < 256) cs →
  tty_keys cs (tty_of (k_cons s)) = Some x →
  runs (kiter cs console_intr) s (λ _ s', cons_step n held s (Some x) s').
Proof.
  induction cs as [|c cs IH]; intros s x H Hh Hh2 Hh3 Hn0 Hn Hp Hok Hcs Hx; cbn [kiter tty_keys] in *.
  { kstep. injection Hx as <-. by apply cons_step_same. }
  apply bind_Some in Hx as (y & Hy & Hx). apply Forall_cons in Hcs as [Hc Hcs].
  kstep. kcall (console_intr_spec n held c s y); [done..|]. intros [] s1 (H1 & Hok1 & [= ->] & S1).
  kcall (IH s1 x H1); [done..| |done|done|done|].
  { rewrite (usim_k_panicked _ _ S1). done. }
  intros [] s2 (H2 & Hok2 & Hx2 & S2). split_and!; [done|done|done|].
  etrans; [exact S2|]. exact (f_equal (set_k_cons (k_cons s2)) S1).
Qed.

(** ** Reading *)

Context (fl : list Z) (N : gmap Z nat) (Hfl : LFreeList ∈ t_locks t).

Lemma umem_usim s s' : usim s s' → umem t fl N s → umem t fl N s'.
Proof.
  intros S U. assert (umem t fl N (set_k_uart [] s')) as [U1 U2 U3 U4 U5 U6]; [|by split].
  eapply umem_sim; [exact S|]. destruct U as [U1 U2 U3 U4 U5 U6]. by split.
Qed.

Lemma umem_cons k s : umem t fl N s → umem t fl N (set_k_cons k s).
Proof. intros [U1 U2 U3 U4 U5 U6]. by split. Qed.

Lemma running_page_table_spec n held s :
  on_cpu t n held s → n + 1 < 2 ^ 30 →
  runs running_page_table s (λ pt s', pt = t_pt t ∧ on_cpu t n held s' ∧ sim s s').
Proof.
  intros H Hn. unfold running_page_table. kstep. kcall (the_proc_spec t n held s H Hn). intros ? s1 (-> & H1 & S1).
  destruct (oc_x _ _ _ _ H1) as (p & Hp & _ & Hpt). kstep. eapply runs_ok; [by apply get_proc_eq|]. by kstep.
Qed.

(** [i] characters are in the user's memory. *)
Record taking (s0 : kstate) (dst i : Z) (s : kstate) : Prop := {
  tk_cpu : on_cpu t 1 {[LCons]} s;
  tk_mem : umem t fl N s;
  tk_ok : cons_ok (k_cons s);
  tk_tty : tty_of (k_cons s) = mk_tty (drop (Z.to_nat i) (tty_done (tty_of (k_cons s0))))
             (tty_line (tty_of (k_cons s0))) (tty_pos (tty_of (k_cons s0)));
  tk_sim : sim s (set_k_cons (k_cons s) (set_k_mem (k_mem s) s0));
  tk_lookup : ∀ a, pt_lookup (k_mem s) (t_pt t) a = pt_lookup (k_mem s0) (t_pt t) a;
  tk_bytes : ∀ j, 0 ≤ j < i → Some (ubyte (k_mem s) (t_pt t) (dst + j)) = tty_done (tty_of (k_cons s0)) !! Z.to_nat j;
}.

(** The character taken off the console is stored. *)
Lemma take_char s0 dst i s c k' m :
  taking s0 dst i s → 0 ≤ i → 0 ≤ dst → dst + i < MAX_VADDR → i < m → 0 ≤ c < 256 →
  (∀ va, dst ≤ va < dst + m → is_Some (uaddr uwritable (k_mem s0) (t_pt t) va)) →
  cons_ok k' → tty_done (tty_of (k_cons s)) = c :: tty_done (tty_of k') →
  tty_of k' = mk_tty (tty_done (tty_of k')) (tty_line (tty_of (k_cons s))) (tty_pos (tty_of (k_cons s))) →
  runs (either_copy_out true (dst + i) [c]) (set_k_cons k' s) (λ r s', r = (0, []) ∧ taking s0 dst (i + 1) s').
Proof.
  intros [T1 T2 T3 T4 T5 T6 T7] Hi Hd Hmax Him Hc Hw Hok Hpop Ht. unfold either_copy_out.
  kstep. kcall (running_page_table_spec _ _ _ (upd_cons_on_cpu 1 _ s k' T1)); [lia|]. intros ? s1 (-> & H1 & S1).
  assert (k_mem s1 = k_mem s) as M1 by (rewrite <-(usim_k_mem _ _ S1); done).
  assert (k_cons s1 = k') as C1 by by rewrite <-(usim_k_cons _ _ S1).
  kstep. kcall (copy_byte_out t fl N 1 {[LCons]} s1 (dst + i) c H1 Hfl); [set_solver|lia| |done|lia| |].
  { eapply umem_sim; [exact S1|]. by apply umem_cons. }
  { destruct (Hw (dst + i) ltac:(lia)) as [v Hv]. exists v. unfold uaddr in *. by rewrite M1, T6. }
  intros r s2 (-> & H2 & U2 & E2 & L2 & B2 & O2). kstep. split; [done|].
  assert (k_cons s2 = k') as C2 by (rewrite E2; exact C1).
  rewrite T4 in Hpop, Ht. cbn [tty_done tty_line tty_pos] in Hpop, Ht.
  assert (tty_done (tty_of (k_cons s0)) !! Z.to_nat i = Some c) as Hci.
  { rewrite <-(Nat.add_0_r (Z.to_nat i)), <-lookup_drop, Hpop. done. }
  rewrite (drop_S _ c) in Hpop by done. pose proof (f_equal tail Hpop) as Hdrop. cbn [tail] in Hdrop.
  split; rewrite ?C2; [done|done|done| | | |].
  - rewrite Ht, <-Hdrop. by rewrite Z2Nat.inj_add, Nat.add_1_r by lia.
  - assert (sim s2 (set_k_mem (k_mem s2) s1)) as S2 by exact (f_equal core E2). clear E2.
    generalize dependent (k_mem s2). intros m2 _ _ _ S2. rewrite S2, <-S1. exact (f_equal (set_k_cons k' ∘ set_k_mem m2) T5).
  - intros a. by rewrite L2, M1.
  - intros j Hj. destruct (decide (j = i)) as [->|Hne]; [by rewrite B2, Hci|].
    rewrite O2, M1; [apply T7; lia|lia|lia|]. destruct (Hw (dst + j) ltac:(lia)) as [v Hv]. exists v.
    unfold uaddr in *. by rewrite M1, T6.
Qed.

Lemma console_read_spec s dst m :
  on_cpu t 0 ∅ s → umem t fl N s → cons_ok (k_cons s) →
  0 ≤ dst → 0 ≤ m ≤ Z.of_nat (length (tty_done (tty_of (k_cons s)))) → dst + m ≤ MAX_VADDR →
  4 ∉ take (Z.to_nat m) (tty_done (tty_of (k_cons s))) →
  (∀ va, dst ≤ va < dst + m → is_Some (uaddr uwritable (k_mem s) (t_pt t) va)) →
  runs (console_read true dst m) s (λ r s', r = (m, []) ∧ on_cpu t 0 ∅ s' ∧ umem t fl N s' ∧ cons_ok (k_cons s') ∧
    tty_of (k_cons s') = mk_tty (drop (Z.to_nat m) (tty_done (tty_of (k_cons s))))
      (tty_line (tty_of (k_cons s))) (tty_pos (tty_of (k_cons s))) ∧
    ubytes (k_mem s') (t_pt t) dst m = take (Z.to_nat m) (tty_done (tty_of (k_cons s))) ∧
    sim s' (set_k_cons (k_cons s') (set_k_mem (k_mem s') s))).
Proof.
  intros H Hu Hok Hd Hm Hmax H4 Hw. assert (0 < rounds)%nat as Hr0 by (destruct (uart_drains []) as (k & ? & _); lia).
  unfold console_read, upd_cons.
  kstep. kcall (acquire0 t _ s H Hcons). intros [] s1 [H1 S1].
  pose proof (usim_k_cons _ _ S1) as C1. pose proof (usim_k_mem _ _ S1) as M1. rewrite C1, M1 in *.
  kstep. apply (runs_conseq _ _ (λ r s', r = Some (0, []) ∧ taking s1 dst m s')).
  { apply (runs_loop (λ l s', ∃ i, l = (dst + i, m - i, []) ∧ 0 ≤ i ≤ m ∧ taking s1 dst i s')
             (λ '(_, n, _), Z.to_nat n)); [|exists 0|lia].
    2: { rewrite Z.add_0_r, Z.sub_0_r. split_and!; [done|lia|lia|]. split; [done|by eapply umem_sim|done|done|by destruct s1|done|lia]. }
    intros l s2 (i & -> & Hi & T). destruct (Z.ltb_spec 0 (m - i)) as [Hlt|Hge].
    2: { assert (i = m) as -> by lia. kstep. by rewrite Z.sub_diag. }
    kstep. kstep. pose proof T as [T1 T2 T3 T4 T5 T6 T7].
    assert (is_Some (tty_done (tty_of (k_cons s1)) !! Z.to_nat i)) as [c Hc] by (apply lookup_lt_is_Some; lia).
    pose proof (f_equal tty_done T4) as Td. cbn [tty_done] in Td. rewrite (drop_S _ c) in Td by done.
    destruct (Z.eqb_spec (cons_r (k_cons s2)) (cons_w (k_cons s2))) as [E|E].
    { cbn [tty_done tty_of] in Td. rewrite E, ring_nil in Td by done. done. }
    destruct (tty_pop _ T3 E) as (c' & Hb & Hcb & Hok' & Hpop & Ht'). rewrite Hb.
    assert (c' = c) as -> by (rewrite Hpop in Td; by injection Td).
    pose proof (ck_r _ T3) as Hr. kstep. kstep. rewrite (wrap_small 32 (cons_r (k_cons s2) + 1)) by (unfold INPUT_SIZE in *; lia).
    destruct (Z.eqb_spec c 4) as [->|Hc4].
    { destruct H4. apply (list_elem_of_lookup_2 _ (Z.to_nat i)). rewrite lookup_take_lt by lia. done. }
    kstep. kcall (take_char s1 dst i s2 c _ m T); [lia|lia|lia|lia|done|done|exact Hok'|exact Hpop|exact Ht'|].
    intros r s3 [-> T']. cbn [negb]. rewrite (proj2 (Z.eqb_eq 0 0)) by done. cbn [negb]. kstep.
    rewrite wrap_small by (change (2 ^ 64) with 18446744073709551616; addr_lia).
    split; [|lia]. exists (i + 1). split_and!; [do 2 f_equal; lia|lia|lia|done]. }
  intros r s2 (-> & [T1 T2 T3 T4 T5 T6 T7]). kstep. kcall (release1 t _ s2 T1 Hcons). intros [] s3 [H3 S3].
  kstep. rewrite Z.sub_0_r. rewrite <-(usim_k_cons _ _ S3), <-(usim_k_mem _ _ S3).
  split_and!; [done|done|by eapply umem_sim|done|done| |].
  - apply list_eq. intros j. destruct (decide (j < Z.to_nat m)%nat) as [Hj|Hj].
    + rewrite lookup_take_lt by done. rewrite <-(Nat2Z.id j), lookup_ubytes by lia. apply T7. lia.
    + rewrite !lookup_ge_None_2; [done|rewrite length_take; lia|rewrite length_ubytes; lia].
  - etrans; [symmetry; exact S3|]. etrans; [exact T5|].
    exact (f_equal (set_k_cons (k_cons s2) ∘ set_k_mem (k_mem s2)) (eq_sym S1)).
Qed.
End console.

(** ** Properties *)


(** The delete key does not go back from the start of the array to its end:
    the next character is stored outside of it. *)
Lemma console_delete_wraps `{DV : Device} `{UD : !UartDevice} `{RN : Rounds} t n held c s :
  (uart_bound ≤ rounds)%nat → LCons ∈ t_locks t → on_cpu t n held s → LCons ∉ held → 0 ≤ n → n + 3 < 2 ^ 30 →
  k_panicked s = false → cons_e (k_cons s) = 0 → cons_w (k_cons s) ≠ 0 → cons_r (k_cons s) ≠ 0 →
  c ≠ 0 → c ≠ 16 → c ≠ 127 →
  (console_intr 127;; console_intr c) s = Stuck Undefined.
Proof.
  intros Hr HL H Hh Hn0 Hn Hp He Hw Hrr H0 H16 H127.
  assert (runs (console_intr 127) s (λ _ s', on_cpu t n held s' ∧ k_panicked s' = false ∧
    cons_e (k_cons s') = 2 ^ 32 - 1 ∧ cons_r (k_cons s') = cons_r (k_cons s))) as ([] & s1 & E1 & H1 & Hp1 & He1 & Hr1).
  { unfold console_intr, upd_cons. kstep. kcall (acquire_spec t n held _ s H HL Hh); [lia|]. intros [] s1 [H1 S1].
    pose proof (usim_k_cons _ _ S1) as C1. kstep. cbn [Z.eqb Pos.eqb]. kstep. kstep. rewrite <-C1, He.
    rewrite (proj2 (Z.eqb_neq _ _)) by done. cbn [negb when]. kstep. kstep.
    rewrite <-C1. kcall (console_putc_spec Hr t (n + 1) _ BACKSPACE _ (upd_cons_on_cpu t _ _ s1 _ H1)); [lia| |].
    { simpl. by rewrite <-(usim_k_panicked _ _ S1). }
    intros [] s2 (H2 & S2 & _). kcall (release_spec t (n + 1) _ _ s2 H2 HL); [set_solver|lia|].
    intros [] s3 [H3 S3]. rewrite union_minus in H3 by done. replace (n + 1 - 1) with n in H3 by lia.
    rewrite <-(usim_k_cons _ _ S3), <-(usim_k_cons _ _ S2), <-(usim_k_panicked _ _ S3), <-(usim_k_panicked _ _ S2).
    split_and!; [done| |done|done]. simpl. by rewrite <-(usim_k_panicked _ _ S1). }
  erewrite bind_ok by exact E1. unfold console_intr.
  destruct (acquire_spec t n held LCons s1 H1 HL Hh) as ([] & s2 & E2 & H2 & S2); [lia|].
  erewrite bind_ok by exact E2. rewrite (proj2 (Z.eqb_neq c 16)), (proj2 (Z.eqb_neq c 127)) by done.
  unfold console_default. rewrite K_bind_eq, K_bind_eq. cbn [gets obind].
  rewrite <-(usim_k_cons _ _ S2), He1, Hr1, (proj2 (Z.eqb_neq c 0)) by done.
  change (u32 (2 ^ 32 - 1 + 1) mod INPUT_SIZE) with 0. rewrite (proj2 (Z.eqb_neq 0 _)) by done. cbn [negb andb when].
  destruct (console_putc_spec Hr t (n + 1) _ (if c =? 13 then 10 else c) s2 H2) as ([] & s3 & E3 & _); [lia| |].
  { by rewrite <-(usim_k_panicked _ _ S2). }
  rewrite K_bind_eq, E3. done.
Qed.
