(* ===== verification/VirtioTheorems.v ===== *)
(** The disk driver (kernel/dev/virtio_disk.c): descriptors are taken and given
    back, and a transfer between a buffer and the disk is carried out.

    What the driver relies on is the class [Disk]: the device serves the
    request that the descriptors describe and the interrupt handler reports it,
    before the sleeping driver runs again; nothing else uses the disk meanwhile. *)

From S2P Require Import Prelude Mem State Machine Mm MmInit Proc Sync Virtio Buf Log Inode FsData ProcTheorems Env.

(** ** Definitions *)

(** A block of the disk. *)
Definition dblock (s : kstate) (bno : Z) : list Z := default zero_block (k_disk s !! bno).

(** The sizes of the driver's tables; every request that the device has served
    has been seen. *)
Record vd_ok (d : virtio_disk) : Prop := {
  vo_desc : length (vd_desc d) = 8%nat;
  vo_ring : length (vd_avail_ring d) = 8%nat;
  vo_free : length (vd_free d) = 8%nat;
  vo_info : length (vd_info d) = 8%nat;
  vo_ops : length (vd_ops d) = 8%nat;
  vo_used : length (vd_used_ring d) = 8%nat;
  vo_seen : vd_used_idx d = vd_dev_idx d;
  vo_idx : 0 ≤ vd_used_idx d < 2 ^ 16;
}.

(** No transfer is going on. *)
Record disk_idle (d : virtio_disk) : Prop := {
  di_ok : vd_ok d;
  di_free : vd_free d = replicate 8 true;
}.

(** The chain of descriptors [i0], [i1], [i2] asks the device for a transfer of
    buffer [b], a write or a read, at [sector]. *)
Record request (d : virtio_disk) (i0 i1 i2 b : nat) (w : bool) (sector : Z) : Prop := {
  rq_head : vd_desc d !! i0 = Some (mk_virtq_desc (DReq i0) 16 VRING_DESC_F_NEXT (Z.of_nat i1));
  rq_data : vd_desc d !! i1 = Some (mk_virtq_desc (DData b) BLOCK_SIZE
    (Z.lor (if w then 0 else VRING_DESC_F_WRITE) VRING_DESC_F_NEXT) (Z.of_nat i2));
  rq_status : vd_desc d !! i2 = Some (mk_virtq_desc (DStatus i0) 1 VRING_DESC_F_WRITE 0);
  rq_op : vd_ops d !! i0 =
    Some (mk_virtio_blk_req (if w then VIRTIO_BLK_T_OUT else VIRTIO_BLK_T_IN) 0 sector);
  rq_info : vd_info d !! i0 = Some (mk_track_info (Some b) 0xff);
  rq_avail : vd_avail_ring d !! Z.to_nat ((vd_avail_idx d - 1) mod NUM) = Some (Z.of_nat i0);
}.

(** The driver's data after the device has served the request of [i0]: the
    device has written the status byte and the used ring. *)
Record served (d : virtio_disk) (i0 : nat) (d' : virtio_disk) : Prop := {
  sv_desc : vd_desc d' = vd_desc d;
  sv_ring : vd_avail_ring d' = vd_avail_ring d;
  sv_avail : vd_avail_idx d' = vd_avail_idx d;
  sv_free : vd_free d' = vd_free d;
  sv_ops : vd_ops d' = vd_ops d;
  sv_info : vd_info d' = alter (set_ti_status 0) i0 (vd_info d);
  sv_used : length (vd_used_ring d') = length (vd_used_ring d);
  sv_seen : vd_used_idx d' = vd_dev_idx d';
  sv_idx : 0 ≤ vd_used_idx d' < 2 ^ 16;
}.

(** The transfer of buffer [b] with block [bno], reported by the interrupt. *)
Definition transfer (w : bool) (b : nat) (bno : Z) (x : buffer) (s : kstate) : kstate :=
  if w then
    set_k_dwrites ((bno, b_data x) :: k_dwrites s)
      (set_k_disk (<[bno := b_data x]> (k_disk s))
        (set_k_bufs (<[b := set_b_disk false x]> (k_bufs s)) s))
  else set_k_bufs (<[b := set_b_disk false (set_b_data (dblock s bno) x)]> (k_bufs s)) s.

(** What the driver is promised by the device and the rest of the system. *)
Class Disk `{Device} (R : env) := {
  disk_notify : ∀ s, WRITE_REG VIRTIO_MMIO_QUEUE_NOTIFY 0 s = Ok tt s;
  disk_resumes : ∀ t s b x i0 i1 i2 w sector,
    asleep t (ChBuf b) s → LDisk ∈ t_locks t → vd_ok (k_vdisk s) → request (k_vdisk s) i0 i1 i2 b w sector →
    k_bufs s !! b = Some x → b_disk x = true → ∃ s', R (t_proc t) s s';
  disk_serves : ∀ t s s' b x i0 i1 i2 w sector,
    asleep t (ChBuf b) s → LDisk ∈ t_locks t → vd_ok (k_vdisk s) → request (k_vdisk s) i0 i1 i2 b w sector →
    k_bufs s !! b = Some x → b_disk x = true → R (t_proc t) s s' →
    on_cpu t 1 {[LProc (t_proc t)]} s' ∧
    ∃ d, served (k_vdisk s) i0 d ∧ sim (set_k_vdisk d (transfer w b (sector / 2) x s)) s';
}.

(** What [sim] forgets, and the driver's data. *)
Definition fcore (s : kstate) : kstate := set_k_vdisk (k_vdisk bss) (core s).
Definition fsim (s s' : kstate) : Prop := fcore s = fcore s'.

(** ** [fsim] *)

#[export] Instance fsim_equiv : Equivalence fsim.
Proof.
  split; unfold fsim; [by intros s|by intros s s'|]. intros s s' s'' H1 H2. by rewrite H1.
Qed.

Lemma sim_fsim s s' : sim s s' → fsim s s'.
Proof. intros H. exact (f_equal (set_k_vdisk (k_vdisk bss)) H). Qed.

Lemma fsim_vdisk d s : fsim (set_k_vdisk d s) s.
Proof. done. Qed.

Section fsim.
Context (s s' : kstate) (H : fsim s s').

Lemma fsim_k_slocks : k_slocks s = k_slocks s'.
Proof. exact (f_equal k_slocks H). Qed.
Lemma fsim_k_bufs : k_bufs s = k_bufs s'.
Proof. exact (f_equal k_bufs H). Qed.
Lemma fsim_k_log : k_log s = k_log s'.
Proof. exact (f_equal k_log H). Qed.
Lemma fsim_k_sb : k_sb s = k_sb s'.
Proof. exact (f_equal k_sb H). Qed.
Lemma fsim_k_disk : k_disk s = k_disk s'.
Proof. exact (f_equal k_disk H). Qed.
Lemma fsim_k_dwrites : k_dwrites s = k_dwrites s'.
Proof. exact (f_equal k_dwrites H). Qed.
Lemma fsim_set_slocks v : fsim (set_k_slocks v s) (set_k_slocks v s').
Proof. exact (f_equal (set_k_slocks v) H). Qed.
Lemma fsim_set_bufs v : fsim (set_k_bufs v s) (set_k_bufs v s').
Proof. exact (f_equal (set_k_bufs v) H). Qed.
Lemma fsim_set_log v : fsim (set_k_log v s) (set_k_log v s').
Proof. exact (f_equal (set_k_log v) H). Qed.
Lemma fsim_set_disk v : fsim (set_k_disk v s) (set_k_disk v s').
Proof. exact (f_equal (set_k_disk v) H). Qed.
Lemma fsim_set_dwrites v : fsim (set_k_dwrites v s) (set_k_dwrites v s').
Proof. exact (f_equal (set_k_dwrites v) H). Qed.
End fsim.

Lemma dblock_fsim s s' bno : fsim s s' → dblock s bno = dblock s' bno.
Proof. intros H. unfold dblock. by rewrite (fsim_k_disk _ _ H). Qed.

(** ** Descriptors *)

Lemma find_free_spec l : ∀ i,
  (find_free l i = -1 ∧ Forall (λ b, b = false) l ∨
   ∃ k, find_free l i = i + Z.of_nat k ∧ l !! k = Some true).
Proof.
  induction l as [|[] l IH]; intros i; cbn [find_free].
  - by left.
  - right. exists 0%nat. split; [lia|done].
  - destruct (IH (i + 1)) as [[-> Hl]|(k & -> & Hk)]; [left; split; [done|by constructor]|].
    right. exists (S k). split; [lia|done].
Qed.

Definition upd_free (f : list bool → list bool) (s : kstate) : kstate :=
  set_k_vdisk (set_vd_free (f (vd_free (k_vdisk s))) (k_vdisk s)) s.

Lemma alloc_desc_spec s :
  (alloc_desc s = Ok (-1) s ∧ Forall (λ b, b = false) (vd_free (k_vdisk s))) ∨
  ∃ k, alloc_desc s = Ok (Z.of_nat k) (upd_free (insert k false) s) ∧
    vd_free (k_vdisk s) !! k = Some true.
Proof.
  unfold alloc_desc. destruct (find_free_spec (vd_free (k_vdisk s)) 0) as [[E Hl]|(k & E & Hk)].
  - left. split; [|done]. erewrite bind_ok by done. by rewrite E.
  - right. exists k. split; [|done]. erewrite bind_ok by done. rewrite E.
    rewrite (proj2 (Z.eqb_neq _ _)) by lia. cbn [negb when]. erewrite bind_ok by done.
    unfold mret, K_ret, upd_free. by rewrite Z.add_0_l, Nat2Z.id.
Qed.

Definition null_desc : virtq_desc := mk_virtq_desc DNull 0 0 0.

(** The driver's data after [free_desc]. *)
Definition freed (k : nat) (d : virtio_disk) : virtio_disk :=
  set_vd_free (<[k := true]> (vd_free d)) (set_vd_desc (<[k := null_desc]> (vd_desc d)) d).

Lemma freed_ok k d : vd_ok d → vd_ok (freed k d).
Proof. intros [H1 H2 H3 H4 H5]. split; simpl; rewrite ?length_insert; done. Qed.

Lemma on_cpu_vdisk t n held s d : on_cpu t n held s → on_cpu t n held (set_k_vdisk d s).
Proof. intros H. by eapply on_cpu_sim. Qed.

Lemma free_desc_spec t k s :
  on_cpu t 1 {[LDisk]} s → vd_ok (k_vdisk s) → (k < 8)%nat →
  vd_free (k_vdisk s) !! k = Some false →
  runs (free_desc (Z.of_nat k)) s (λ _ s',
    on_cpu t 1 {[LDisk]} s' ∧ sim (set_k_vdisk (freed k (k_vdisk s)) s) s').
Proof.
  intros H Hd Hk Hf. unfold free_desc, upd_vdisk.
  rewrite (proj2 (Z.ltb_ge _ _)), (proj2 (Z.leb_gt _ _)) by (unfold NUM; lia). cbn [orb].
  kstep. kstep. rewrite Nat2Z.id, Hf. cbn [from_option id]. kstep. kstep. kstep. kstep.
  kcall (wake_up_spec t 1 {[LDisk]} ChDiskFree _); [|lia|set_solver|done].
  by apply (on_cpu_vdisk _ _ _ s).
Qed.

(** The chain [i0], [i1], [i2] of a request is given back. *)
Lemma free_chain_spec t i0 i1 i2 b w sector d0 s :
  on_cpu t 1 {[LDisk]} s → vd_ok (k_vdisk s) → NoDup [i0; i1; i2] →
  Forall (λ i, (i < 8)%nat ∧ vd_free (k_vdisk s) !! i = Some false) [i0; i1; i2] →
  request d0 i0 i1 i2 b w sector → vd_desc (k_vdisk s) = vd_desc d0 →
  runs (free_chain (Z.of_nat i0)) s (λ _ s',
    on_cpu t 1 {[LDisk]} s' ∧
    sim (set_k_vdisk (freed i2 (freed i1 (freed i0 (k_vdisk s)))) s) s').
Proof.
  intros H Hd Hnd Hf Hrq Hdesc. unfold free_chain.
  rewrite !NoDup_cons, !not_elem_of_cons in Hnd. destruct Hnd as ((H01 & H02 & _) & (H12 & _) & _).
  rewrite !Forall_cons in Hf. destruct Hf as ((Hi0 & F0) & (Hi1 & F1) & (Hi2 & F2) & _).
  change (Z.to_nat NUM) with 8%nat. cbn [free_chain_from].
  kstep. kstep. rewrite Nat2Z.id, Hdesc, (rq_head _ _ _ _ _ _ _ Hrq).
  kstep. kcall (free_desc_spec t i0 s H Hd Hi0 F0). intros [] s1 [H1 S1].
  pose proof (sim_k_vdisk _ _ S1) as V1. simpl in V1.
  cbn [d_flags d_next]. change (Z.land VRING_DESC_F_NEXT VRING_DESC_F_NEXT =? 0) with false. cbn [negb].
  kstep. kstep. rewrite Nat2Z.id, <-V1. cbn [vd_desc freed set_vd_free set_vd_desc].
  rewrite list_lookup_insert_ne, Hdesc, (rq_data _ _ _ _ _ _ _ Hrq) by done.
  kstep. kcall (free_desc_spec t i1 s1 H1); [by rewrite <-V1; apply freed_ok|done| |].
  { rewrite <-V1. simpl. by rewrite list_lookup_insert_ne. }
  intros [] s2 [H2 S2]. pose proof (sim_k_vdisk _ _ S2) as V2. simpl in V2.
  cbn [d_flags d_next].
  replace (Z.land (Z.lor (if w then 0 else VRING_DESC_F_WRITE) VRING_DESC_F_NEXT) VRING_DESC_F_NEXT =? 0)
    with false by by destruct w. cbn [negb].
  kstep. kstep. rewrite Nat2Z.id, <-V2, <-V1. cbn [vd_desc freed set_vd_free set_vd_desc].
  rewrite !list_lookup_insert_ne, Hdesc, (rq_status _ _ _ _ _ _ _ Hrq) by done.
  kstep. kcall (free_desc_spec t i2 s2 H2); [by rewrite <-V2, <-V1; apply freed_ok, freed_ok|done| |].
  { rewrite <-V2, <-V1. simpl. by rewrite !list_lookup_insert_ne. }
  intros [] s3 [H3 S3]. cbn [d_flags]. change (Z.land VRING_DESC_F_WRITE VRING_DESC_F_NEXT =? 0) with true. cbn [negb].
  kstep. split; [done|]. rewrite <-V2, <-V1 in S3. rewrite <-V1 in S2.
  etrans; [|exact S3]. etrans; [|exact (set_k_vdisk_proper _ _ _ S2)].
  exact (set_k_vdisk_proper _ _ _ S1).
Qed.

(** ** Taking three descriptors *)

(** The descriptors [ks] are marked as used, the others are as in [l]. *)
Definition marked (ks : list nat) (l l' : list bool) : Prop :=
  ∀ j, l' !! j = if decide (j ∈ ks) then Some false else l !! j.

Record holding (t : task) (l : list bool) (ks : list nat) (s : kstate) : Prop := {
  hd_cpu : on_cpu t 1 {[LDisk]} s;
  hd_ok : vd_ok (k_vdisk s);
  hd_nodup : NoDup ks;
  hd_free : Forall (λ k, l !! k = Some true) ks;
  hd_marked : marked ks l (vd_free (k_vdisk s));
}.

(** Three distinct free descriptors are marked; or at most two were free, and
    all are as before. *)
Definition taken (s : kstate) (r : option (Z * Z * Z)) (s' : kstate) : Prop :=
  let l := vd_free (k_vdisk s) in
  match r with
  | Some (i0, i1, i2) =>
      ∃ k0 k1 k2 l', i0 = Z.of_nat k0 ∧ i1 = Z.of_nat k1 ∧ i2 = Z.of_nat k2 ∧ NoDup [k2; k1; k0] ∧
        Forall (λ k, l !! k = Some true) [k2; k1; k0] ∧ marked [k2; k1; k0] l l' ∧
        length l' = length l ∧ s' = set_k_vdisk (set_vd_free l' (k_vdisk s)) s
  | None =>
      (∃ ks, (length ks < 3)%nat ∧ ∀ j, l !! j = Some true → j ∈ ks) ∧ vd_free (k_vdisk s') = l
  end.

Lemma marked_nil l l' : marked [] l l' → l' = l.
Proof.
  intros H. apply list_eq. intros j. rewrite (H j). rewrite decide_False; [done|].
  apply not_elem_of_nil.
Qed.

(** Taking the next one. *)
Lemma alloc_next t l ks s :
  holding t l ks s →
  (alloc_desc s = Ok (-1) s ∧ ∀ j, l !! j = Some true → j ∈ ks) ∨
  ∃ k, alloc_desc s = Ok (Z.of_nat k) (upd_free (insert k false) s) ∧
    holding t l (k :: ks) (upd_free (insert k false) s).
Proof.
  intros [H1 H2 H3 H4 H5]. destruct (alloc_desc_spec s) as [[E Hn]|(k & E & F)]; [left|right].
  - split; [done|]. intros j Hj. specialize (H5 j). case_decide as Hin; [done|].
    rewrite Hj in H5. pose proof (Forall_lookup_1 _ _ _ _ Hn H5). done.
  - exists k. split; [done|]. pose proof (lookup_lt_Some _ _ _ F) as Hlt.
    rewrite (H5 k) in F. case_decide as Hin; [done|]. split.
    + by apply (on_cpu_vdisk _ _ _ s).
    + destruct H2. split; simpl; rewrite ?length_insert; done.
    + by apply NoDup_cons.
    + by constructor.
    + intros j. simpl. destruct (decide (j = k)) as [->|Hne].
      * rewrite list_lookup_insert_eq by done. rewrite decide_True by left. done.
      * rewrite list_lookup_insert_ne, (H5 j) by done. apply decide_ext. rewrite elem_of_cons. tauto.
Qed.

(** Giving one back. *)
Lemma free_held t l ks k s :
  holding t l (ks ++ [k]) s →
  runs (free_desc (Z.of_nat k)) s (λ _ s', holding t l ks s').
Proof.
  intros [H1 H2 H3 H4 H5]. apply NoDup_app in H3 as (N1 & N2 & _).
  apply Forall_app in H4 as [H4 [Hk _]%Forall_cons].
  assert (k ∉ ks) as Hnk by (intros Hin; apply (N2 k Hin); left).
  assert (vd_free (k_vdisk s) !! k = Some false) as F by (rewrite (H5 k), decide_True; set_solver).
  pose proof (lookup_lt_Some _ _ _ F) as Hlt. rewrite (vo_free _ H2) in Hlt.
  kcall (free_desc_spec t k s H1 H2 Hlt F). intros [] s' [H' S].
  pose proof (sim_k_vdisk _ _ S) as V. simpl in V.
  split; [done|rewrite <-V; by apply freed_ok|done|done|].
  intros j. rewrite <-V. simpl. destruct (decide (j = k)) as [->|Hne].
  - rewrite list_lookup_insert_eq by (rewrite (vo_free _ H2); done). by rewrite decide_False.
  - rewrite list_lookup_insert_ne, (H5 j) by done. apply decide_ext. set_solver.
Qed.

Lemma alloc3_desc_spec t s :
  on_cpu t 1 {[LDisk]} s → vd_ok (k_vdisk s) →
  runs alloc3_desc s (λ r s', on_cpu t 1 {[LDisk]} s' ∧ taken s r s').
Proof.
  intros H Hd. unfold alloc3_desc. set (l := vd_free (k_vdisk s)).
  assert (holding t l [] s) as H0.
  { split; [done|done|apply NoDup_nil_2|done|]. intros j. rewrite decide_False; [done|set_solver]. }
  kstep. destruct (alloc_next t l [] s H0) as [[E Hn]|(k0 & E & H1)]; (eapply runs_ok; [exact E|]).
  { rewrite Z.eqb_refl. kstep. split; [done|]. split; [exists []; split; [simpl; lia|done]|done]. }
  rewrite (proj2 (Z.eqb_neq _ _)) by lia. set (s1 := upd_free _ s) in *.
  kstep. destruct (alloc_next t l _ s1 H1) as [[E1 Hn]|(k1 & E1 & H2)]; (eapply runs_ok; [exact E1|]).
  { rewrite Z.eqb_refl. kstep. kcall (free_held t l [] k0 s1 H1). intros [] s2 H2. kstep.
    split; [apply H2|]. split; [exists [k0]; split; [simpl; lia|done]|apply marked_nil, H2]. }
  rewrite (proj2 (Z.eqb_neq _ _)) by lia. set (s2 := upd_free _ s1) in *.
  kstep. destruct (alloc_next t l _ s2 H2) as [[E2 Hn]|(k2 & E2 & H3)]; (eapply runs_ok; [exact E2|]).
  { rewrite Z.eqb_refl. kstep. kcall (free_held t l [k1] k0 s2 H2). intros [] s3 H3.
    kstep. kcall (free_held t l [] k1 s3 H3). intros [] s4 H4. kstep. split; [apply H4|].
    split; [exists [k1; k0]; split; [simpl; lia|done]|apply marked_nil, H4]. }
  rewrite (proj2 (Z.eqb_neq _ _)) by lia. kstep. pose proof H3 as [H3a Hok H3b H3c H3d].
  split; [done|]. eexists k0, k1, k2, _. split_and!; try done.
  rewrite (vo_free _ Hd). exact (vo_free _ Hok).
Qed.

(** ** A transfer *)

(** The driver's data after [fill_request]. *)
Definition fill_vd (b : nat) (bno : Z) (w : bool) (k0 k1 k2 : nat) (d : virtio_disk) : virtio_disk :=
  mk_virtio_disk
    (<[k2 := mk_virtq_desc (DStatus k0) 1 VRING_DESC_F_WRITE 0]>
      (<[k1 := mk_virtq_desc (DData b) BLOCK_SIZE
                 (Z.lor (if w then 0 else VRING_DESC_F_WRITE) VRING_DESC_F_NEXT) (Z.of_nat k2)]>
        (<[k0 := mk_virtq_desc (DReq k0) 16 VRING_DESC_F_NEXT (Z.of_nat k1)]> (vd_desc d))))
    (wrap 16 (vd_avail_idx d + 1))
    (<[Z.to_nat (vd_avail_idx d mod NUM) := Z.of_nat k0]> (vd_avail_ring d))
    (vd_dev_idx d) (vd_used_ring d) (vd_free d) (vd_used_idx d)
    (alter (set_ti_b (Some b)) k0 (alter (set_ti_status 0xff) k0 (vd_info d)))
    (<[k0 := mk_virtio_blk_req (if w then VIRTIO_BLK_T_OUT else VIRTIO_BLK_T_IN) 0
               (u32 (bno * (BLOCK_SIZE / 512)))]> (vd_ops d)).

Lemma fill_request_eq b bno w k0 k1 k2 s :
  fill_request b bno w (Z.of_nat k0, Z.of_nat k1, Z.of_nat k2) s =
  Ok tt (set_k_bufs (alter (set_b_disk true) b (k_bufs s))
          (set_k_vdisk (fill_vd b bno w k0 k1 k2 (k_vdisk s)) s)).
Proof. unfold fill_request. rewrite !Nat2Z.id. done. Qed.

Lemma fill_vd_ok b bno w k0 k1 k2 d : vd_ok d → vd_ok (fill_vd b bno w k0 k1 k2 d).
Proof. intros []. split; simpl; rewrite ?length_insert, ?length_alter; done. Qed.

Lemma avail_slot a : (wrap 16 (a + 1) - 1) mod NUM = a mod NUM.
Proof.
  unfold wrap, NUM. rewrite <-Zminus_mod_idemp_l, Z.mod_mod_divide by by exists 8192.
  rewrite Zminus_mod_idemp_l. f_equal. lia.
Qed.

Lemma fill_vd_request b bno w k0 k1 k2 d :
  vd_ok d → NoDup [k2; k1; k0] → Forall (λ k, k < 8)%nat [k2; k1; k0] →
  request (fill_vd b bno w k0 k1 k2 d) k0 k1 k2 b w (u32 (bno * (BLOCK_SIZE / 512))).
Proof.
  intros [H1 H2 H3 H4 H5 _ _ _] Hnd Hlt.
  rewrite !NoDup_cons, !not_elem_of_cons in Hnd. destruct Hnd as ((N21 & N20 & _) & (N10 & _) & _).
  rewrite !Forall_cons in Hlt. destruct Hlt as (L2 & L1 & L0 & _).
  split; cbn [fill_vd vd_desc vd_ops vd_info vd_avail_ring vd_avail_idx].
  - rewrite !list_lookup_insert_ne by done. apply list_lookup_insert_eq. lia.
  - rewrite list_lookup_insert_ne by done. apply list_lookup_insert_eq. rewrite length_insert. lia.
  - apply list_lookup_insert_eq. rewrite !length_insert. lia.
  - apply list_lookup_insert_eq. lia.
  - rewrite !list_lookup_alter_eq. destruct (lookup_lt_is_Some_2 (vd_info d) k0) as [x ->]; [lia|done].
  - rewrite avail_slot. apply list_lookup_insert_eq. unfold NUM.
    pose proof (Z.mod_pos_bound (vd_avail_idx d) 8). lia.
Qed.

Lemma get_buf_eq b x s : k_bufs s !! b = Some x → get_buf b s = Ok x s.
Proof. intros H. unfold get_buf. erewrite bind_ok by done. by rewrite H. Qed.

Lemma sector_block bno : 0 ≤ bno < 2 ^ 31 → u32 (bno * (BLOCK_SIZE / 512)) / 2 = bno.
Proof.
  intros H. change (BLOCK_SIZE / 512) with 2. rewrite wrap_small by lia. by apply Z.div_mul.
Qed.

(** What a transfer that starts and ends with an idle driver does. *)
Definition transferred (w : bool) (b : nat) (x : buffer) (s : kstate) : kstate :=
  if w then
    set_k_dwrites ((b_bno x, b_data x) :: k_dwrites s)
      (set_k_disk (<[b_bno x := b_data x]> (k_disk s)) s)
  else set_k_bufs (<[b := set_b_data (dblock s (b_bno x)) x]> (k_bufs s)) s.

Lemma on_cpu_bufs t n held s v : on_cpu t n held s → on_cpu t n held (set_k_bufs v s).
Proof. intros H. by eapply on_cpu_sim. Qed.

(** The bits that the driver sets in between do not remain. *)
Lemma transfer_fsim w b x d d' s s1 :
  sim s s1 → k_bufs s1 !! b = Some x → b_disk x = false →
  fsim (transferred w b x s)
    (set_k_vdisk d (transfer w b (b_bno x) (set_b_disk true x)
      (set_k_bufs (alter (set_b_disk true) b (k_bufs s1)) (set_k_vdisk d' s1)))).
Proof.
  intros S1 Hx Hd. assert (∀ y, <[b := y]> (alter (set_b_disk true) b (k_bufs s1)) = <[b := y]> (k_bufs s1)) as Ei.
  { intros y. rewrite !list_insert_alter, list_alter_alter_eq. done. }
  assert (set_b_disk false (set_b_disk true x) = x) as Ex by (destruct x; simpl in *; by subst).
  assert (∀ l, set_b_disk false (set_b_data l (set_b_disk true x)) = set_b_data l x) as Ed
    by (intros l; destruct x; simpl in *; by subst).
  unfold transferred, transfer, dblock. cbn [k_bufs k_disk k_dwrites set_k_bufs set_k_vdisk].
  rewrite (sim_k_disk _ _ S1), (sim_k_dwrites _ _ S1), (sim_k_bufs _ _ S1). destruct w.
  - etrans; [apply fsim_set_dwrites, fsim_set_disk, sim_fsim, S1|].
    by rewrite Ei, Ex, list_insert_id.
  - etrans; [apply fsim_set_bufs, sim_fsim, S1|]. by rewrite Ed, Ei.
Qed.

Section transfer.
Context `{DV : Device} `{RN : Rounds} (R : env) `{DK : !Disk R} (t : task).

(** The wait for the device. *)
Lemma disk_wait b x w bno i0 i1 i2 s :
  (1 < rounds)%nat → on_cpu t 1 {[LDisk]} s → LDisk ∈ t_locks t → vd_ok (k_vdisk s) →
  request (k_vdisk s) i0 i1 i2 b w (u32 (bno * (BLOCK_SIZE / 512))) → 0 ≤ bno < 2 ^ 31 →
  k_bufs s !! b = Some x → b_disk x = true →
  eruns R (loop rounds
    (λ '(), x ← get_buf b;
       if b_disk x then sleep_on (ChBuf b) LDisk;; mret (inl tt) else mret (inr tt)) tt) s
    (λ _ s', on_cpu t 1 {[LDisk]} s' ∧
       ∃ d, served (k_vdisk s) i0 d ∧ sim (set_k_vdisk d (transfer w b bno x s)) s').
Proof.
  intros Hr H1 Hl Hok Hrq Hbno Hx Hd. apply eruns_loop_next; [done|].
  estep. eapply eruns_runs, runs_ok; [by apply get_buf_eq|]. rewrite Hd.
  estep. apply (sleep_on_spec R t); [done|done|done| |].
  { intros s1 S1 Has. rewrite (sim_k_vdisk _ _ S1) in Hok, Hrq. rewrite (sim_k_bufs _ _ S1) in Hx.
    by eapply disk_resumes. }
  intros s1 S1 Has s2 HR. pose proof (sim_k_vdisk _ _ S1) as V1. pose proof (sim_k_bufs _ _ S1) as B1.
  rewrite V1 in Hok, Hrq. rewrite B1 in Hx.
  destruct (disk_serves t s1 s2 b x i0 i1 i2 w _ Has Hl Hok Hrq Hx Hd HR) as (H2 & d & Hsv & S2).
  split; [done|]. intros s3 S3 H3. estep. rewrite sector_block in S2 by done.
  assert (sim (set_k_vdisk d (transfer w b bno x s)) s3) as S.
  { etrans; [|exact S3]. etrans; [|exact S2]. apply set_k_vdisk_proper. unfold transfer, dblock.
    rewrite <-(sim_k_dwrites _ _ S1), <-(sim_k_disk _ _ S1), <-B1. destruct w.
    - by apply set_k_dwrites_proper, set_k_disk_proper, set_k_bufs_proper.
    - by apply set_k_bufs_proper. }
  apply eruns_loop_exit; [lia|]. pose proof (lookup_lt_Some _ _ _ Hx) as Hlt. rewrite <-B1 in Hlt.
  assert (∃ y, k_bufs s3 !! b = Some y ∧ b_disk y = false) as (y & Hy & Hdy).
  { rewrite <-(sim_k_bufs _ _ S). unfold transfer.
    destruct w; simpl; (eexists; split; [by apply list_lookup_insert_eq|done]). }
  estep. eapply eruns_runs, runs_ok; [by apply get_buf_eq|]. rewrite Hdy. estep.
  split; [done|]. exists d. by rewrite V1.
Qed.

(** The end of the transfer: the chain is given back. *)
Lemma disk_finish i0 i1 i2 b w sector d0 s :
  on_cpu t 1 {[LDisk]} s → LDisk ∈ t_locks t → vd_ok (k_vdisk s) →
  NoDup [i2; i1; i0] → marked [i2; i1; i0] (replicate 8 true) (vd_free (k_vdisk s)) →
  Forall (λ i, i < 8)%nat [i2; i1; i0] →
  request d0 i0 i1 i2 b w sector → vd_desc (k_vdisk s) = vd_desc d0 →
  runs (upd_vdisk (λ d, set_vd_info (alter (set_ti_b None) i0 (vd_info d)) d);;
        free_chain (Z.of_nat i0);; spin_lock_release LDisk) s
    (λ _ s', idle t s' ∧ disk_idle (k_vdisk s') ∧ fsim s s').
Proof.
  intros H1 Hl Hok Hnd Hm Hlt Hrq Hdesc. kstep. unfold upd_vdisk. kstep.
  set (d := set_vd_info _ _). set (s1 := set_k_vdisk d s).
  assert (vd_ok d) as Hok1.
  { destruct Hok. split; try done. simpl. by rewrite length_alter. }
  assert (NoDup [i0; i1; i2]) as Hnd' by (rewrite !NoDup_cons in *; set_solver).
  assert (Forall (λ i, (i < 8)%nat ∧ vd_free (k_vdisk s1) !! i = Some false) [i0; i1; i2]) as Hf.
  { rewrite !Forall_cons in Hlt |- *. destruct Hlt as (L2 & L1 & L0 & _).
    simpl. split_and!; [done| |done| |done| |done]; rewrite (Hm _), decide_True; set_solver. }
  kstep. kcall (free_chain_spec t i0 i1 i2 b w sector d0 s1 (on_cpu_vdisk _ _ _ _ _ H1) Hok1 Hnd' Hf Hrq Hdesc).
  intros [] s2 [H2 S2]. kcall (release1 t _ s2 H2 Hl). intros [] s3 [H3 S3]. split; [done|].
  split; [|exact (transitivity (sim_fsim _ _ S2) (sim_fsim _ _ S3))].
  rewrite <-(sim_k_vdisk _ _ S3), <-(sim_k_vdisk _ _ S2). split; [by repeat apply freed_ok|].
  apply list_eq. intros j. rewrite !NoDup_cons, !not_elem_of_cons in Hnd'.
  destruct Hnd' as ((N01 & N02 & _) & (N12 & _) & _). rewrite !Forall_cons in Hlt.
  destruct Hlt as (L2 & L1 & L0 & _). pose proof (vo_free _ Hok) as Hlen. simpl.
  assert (∀ i, (i < 8)%nat → replicate 8 true !! i = Some true) as Ht by (intros; by apply lookup_replicate_2).
  destruct (decide (j = i2)) as [->|]; [rewrite list_lookup_insert_eq by (rewrite !length_insert; simpl; lia); by rewrite Ht|].
  rewrite list_lookup_insert_ne by done.
  destruct (decide (j = i1)) as [->|]; [rewrite list_lookup_insert_eq by (rewrite !length_insert; simpl; lia); by rewrite Ht|].
  rewrite list_lookup_insert_ne by done.
  destruct (decide (j = i0)) as [->|]; [rewrite list_lookup_insert_eq by (simpl; lia); by rewrite Ht|].
  rewrite list_lookup_insert_ne by done. rewrite (Hm j). by rewrite decide_False by set_solver.
Qed.

Lemma virtio_disk_rw_spec b x w s :
  (1 < rounds)%nat → idle t s → LDisk ∈ t_locks t → disk_idle (k_vdisk s) →
  k_bufs s !! b = Some x → 0 ≤ b_bno x < 2 ^ 31 → b_disk x = false →
  eruns R (virtio_disk_rw b w) s (λ _ s',
    idle t s' ∧ disk_idle (k_vdisk s') ∧ fsim (transferred w b x s) s').
Proof.
  intros Hr H0 Hl Hd Hx Hbno Hdk. unfold virtio_disk_rw.
  estep. ecallr (acquire0 t _ s H0 Hl). intros [] s1 [H1 S1].
  rewrite (sim_k_vdisk _ _ S1) in Hd. rewrite (sim_k_bufs _ _ S1) in Hx.
  estep. eapply eruns_runs, runs_ok; [by apply get_buf_eq|].
  estep. apply (eruns_conseq _ _ _ (λ idx s', on_cpu t 1 {[LDisk]} s' ∧ taken s1 (Some idx) s')).
  { apply eruns_loop_exit; [lia|]. estep. ecallr (alloc3_desc_spec t s1 H1 (di_ok _ Hd)).
    intros [idx|] s2 [H2 Hr2]; [by estep|]. destruct Hr2 as [(ks & Hks & Hin) _].
    rewrite (di_free _ Hd) in Hin. exfalso.
    assert (seq 0 8 ⊆+ ks) as Hsub%submseteq_length.
    { apply NoDup_submseteq; [apply NoDup_seq|]. intros j [_ Hj]%elem_of_seq. apply Hin.
      by apply lookup_replicate_2. }
    rewrite length_seq in Hsub. lia. }
  intros [[? ?] ?] s2 [H2 (k0 & k1 & k2 & l' & -> & -> & -> & Hnd & Hfr & Hm & Hl' & ->)].
  rewrite (di_free _ Hd) in Hfr, Hm.
  assert (Forall (λ k, k < 8)%nat [k2; k1; k0]) as Hlt.
  { eapply Forall_impl; [exact Hfr|]. intros k [_ Hk]%lookup_replicate. done. }
  assert (vd_ok (set_vd_free l' (k_vdisk s1))) as Hok2.
  { destruct (di_ok _ Hd) as [? ? Hlen ? ? ? ? ?]. split; try done. simpl. by rewrite Hl'. }
  set (d2 := set_vd_free l' (k_vdisk s1)) in *.
  estep. eapply eruns_runs, runs_ok; [apply fill_request_eq|]. cbn [k_vdisk set_k_vdisk k_bufs].
  set (d3 := fill_vd b (b_bno x) w k0 k1 k2 d2). set (s3 := set_k_bufs _ _).
  estep. eapply eruns_runs, runs_ok; [apply disk_notify|].
  pose proof (fill_vd_request b (b_bno x) w k0 k1 k2 d2 Hok2 Hnd Hlt) as Hrq. fold d3 in Hrq.
  estep. ecall (disk_wait b (set_b_disk true x) w (b_bno x) k0 k1 k2 s3 Hr
    (on_cpu_bufs _ _ _ _ _ (on_cpu_vdisk _ _ _ _ _ H2)) Hl (fill_vd_ok _ _ _ _ _ _ _ Hok2) Hrq Hbno).
  { simpl. by rewrite list_lookup_alter_eq, Hx. }
  { done. }
  intros [] s4 (H4 & d4 & Hsv & S4).
  assert (k_vdisk s4 = d4) as V4 by by rewrite <-(sim_k_vdisk _ _ S4).
  change (Z.to_nat (fst (fst (Z.of_nat k0, Z.of_nat k1, Z.of_nat k2)))) with (Z.to_nat (Z.of_nat k0)).
  rewrite Nat2Z.id. cbn [fst].
  ecallr (disk_finish k0 k1 k2 b w _ d3 s4 H4 Hl); rewrite ?V4; try done.
  - destruct (fill_vd_ok b (b_bno x) w k0 k1 k2 d2 Hok2), Hsv.
    split; rewrite ?sv_desc0, ?sv_ring0, ?sv_free0, ?sv_info0, ?sv_ops0, ?sv_used0, ?length_alter; done.
  - by rewrite (sv_free _ _ _ Hsv).
  - by rewrite (sv_desc _ _ _ Hsv).
  - intros [] s5 (H5 & Hd5 & S5). split_and!; [done|done|].
    etrans; [|exact S5]. etrans; [|exact (sim_fsim _ _ S4)].
    exact (transfer_fsim w b x d4 d3 s s1 S1 Hx Hdk).
Qed.
End transfer.
