(* ===== verification/DiskIntr.v ===== *)
(** The interrupt handler of the disk (kernel/dev/virtio_disk.c), and what
    happens between [sched] and the return of a process that waits for a
    transfer: the scheduler takes the hart back, the device serves the request,
    the handler reports it and wakes the process, and the scheduler switches to
    it.  This implements the interface [Disk] of the driver. *)

From S2P Require Import Prelude Mem State Machine Mm MmInit Proc Sync Virtio Buf Log Inode FsData ProcTheorems Env VirtioTheorems.

(** ** Definitions *)

(** The device has served the request of [i0]: it has written the status byte,
    the next entry of the used ring and the index of that ring. *)
Definition completed (i0 : nat) (d : virtio_disk) : virtio_disk :=
  set_vd_dev_idx (wrap 16 (vd_dev_idx d + 1))
    (set_vd_used_ring (<[Z.to_nat (vd_dev_idx d mod NUM) := Z.of_nat i0]> (vd_used_ring d))
      (set_vd_info (alter (set_ti_status 0) i0 (vd_info d)) d)).

(** The transfer itself. *)
Definition dma (w : bool) (b : nat) (bno : Z) (x : buffer) (s : kstate) : kstate :=
  if w then set_k_dwrites ((bno, b_data x) :: k_dwrites s) (set_k_disk (<[bno := b_data x]> (k_disk s)) s)
  else set_k_bufs (<[b := set_b_data (dblock s bno) x]> (k_bufs s)) s.

(** What the kernel relies on of a virtio block device: [dev s s'] is the
    service of the request in the available ring. *)
Class BlkDevice `{Device} (dev : kstate → kstate → Prop) := {
  blk_notify : ∀ s, WRITE_REG VIRTIO_MMIO_QUEUE_NOTIFY 0 s = Ok tt s;
  blk_status : ∀ s, ∃ v, READ_REG VIRTIO_MMIO_INTERRUPT_STATUS s = Ok v s;
  blk_ack : ∀ v s, WRITE_REG VIRTIO_MMIO_INTERRUPT_ACK v s = Ok tt s;
  blk_total : ∀ s b i0 i1 i2 w sector,
    request (k_vdisk s) i0 i1 i2 b w sector → ∃ s', dev s s';
  blk_serves : ∀ s s' b x i0 i1 i2 w sector,
    request (k_vdisk s) i0 i1 i2 b w sector → k_bufs s !! b = Some x → dev s s' →
    s' = set_k_vdisk (completed i0 (k_vdisk s)) (dma w b (sector / 2) x s);
}.

(** The rest of the scheduler's visit to [p], after [p] has given up the hart. *)
Definition switched_back (p : nat) : KM unit :=
  c ← current_cpu;
  upd_cpu c (set_c_proc None);;
  spin_lock_release (LProc p).

(** From [sched] by [p] in [s] to the switch back to it in [s']. *)
Definition world `{Device} (dev : kstate → kstate → Prop) : env := λ p s s', ∃ s1 s2 s3 k,
  switched_back p s = Ok tt s1 ∧ dev s1 s2 ∧ virtio_disk_intr s2 = Ok tt s3 ∧
  (c ← current_cpu; scheduler_visit sleep c p) s3 = Sleep p s' k.

(** ** The scheduler *)

Lemma upd_this_proc_spec {rp} t n held o s :
  at_cpu rp t n held s →
  runs (upd_cpu (Z.to_nat (tp (k_hart s))) (set_c_proc o)) s (λ _ s',
    at_cpu o t n held s' ∧ sim s s' ∧ k_procs s' = k_procs s).
Proof.
  intros [H1 H2 H3 H4 H5 H6 H7 H8]. eapply runs_ok; [done|]. split_and!; [|done|done].
  fold (upd_this (set_c_proc o) (k_hart s)). split; try done; simpl.
  - apply upd_this_ok; [done|apply H1|apply H1].
  - by rewrite noff_upd_this.
  - by rewrite this_upd_this.
Qed.

Lemma switched_back_spec t c x s :
  asleep t c s → k_procs s !! t_proc t = Some x →
  runs (switched_back (t_proc t)) s (λ _ s', at_cpu None t 0 ∅ s' ∧ sim s s' ∧ k_procs s' = k_procs s).
Proof.
  intros [H _] Hx. unfold switched_back. kstep. eapply runs_ok; [apply current_cpu_eq, H|].
  kstep. kcall (upd_this_proc_spec t 1 _ None s H). intros [] s1 (H1 & S1 & P1).
  assert (LProc (t_proc t) ∈ t_locks t) as Hl.
  { apply H. rewrite <-(oc_len _ _ _ _ H). by eapply lookup_lt_Some. }
  kcall (release_procs_spec t 1 _ _ s1 H1 Hl); [set_solver|lia|]. intros [] s2 (H2 & S2 & P2 & _).
  rewrite difference_diag_L in H2. split_and!; [done|by etrans|by rewrite P2].
Qed.

(** [scheduler_visit] of a process that can run switches to it. *)
Lemma scheduler_visit_spec t x s :
  at_cpu None t 0 ∅ s → k_procs s !! t_proc t = Some x → p_state x = PROC_RUNNABLE →
  ∃ s' k, (c ← current_cpu; scheduler_visit sleep c (t_proc t)) s = Sleep (t_proc t) s' k ∧
    on_cpu t 1 {[LProc (t_proc t)]} s' ∧ sim s s'.
Proof.
  intros H Hx Hst. assert (LProc (t_proc t) ∈ t_locks t) as Hl.
  { apply H. rewrite <-(oc_len _ _ _ _ H). by eapply lookup_lt_Some. }
  erewrite bind_ok by apply current_cpu_eq, H. unfold scheduler_visit.
  destruct (acquire_procs_spec t 0 _ _ s H Hl) as ([] & s1 & E1 & H1 & S1 & P1 & T1); [set_solver|lia|].
  erewrite bind_ok by exact E1. rewrite <-P1 in Hx. erewrite bind_ok by by apply get_proc_eq.
  rewrite decide_True by done. rewrite (right_id_L ∅ (∪)) in H1.
  destruct (upd_proc_spec t _ _ (t_proc t) (set_p_state PROC_RUNNING) s1 H1) as ([] & s2 & E2 & H2 & S2 & P2); [done|].
  assert (tp (k_hart s2) = tp (k_hart s)) as Htp.
  { rewrite <-T1. by injection E2 as <-. }
  rewrite <-Htp. destruct (upd_this_proc_spec t _ _ (Some (t_proc t)) s2 H2) as ([] & s3 & E3 & H3 & S3 & P3).
  eexists s3, _. split; [|split; [exact H3|by etrans; [|etrans]]].
  rewrite K_bind_eq. erewrite bind_ok by exact E2. by erewrite bind_ok by exact E3.
Qed.

(** [wake_up] on a hart that runs the scheduler reaches every process. *)
Lemma wake_sleeper_spec t n held c x s :
  at_cpu None t n held s → n + 1 < 2 ^ 30 → (∀ i, LProc i ∉ held) →
  k_procs s !! t_proc t = Some x → p_state x = PROC_SLEEPING → p_chan x = Some c →
  runs (wake_up c) s (λ _ s', at_cpu None t n held s' ∧ sim s s' ∧
    k_procs s' !! t_proc t = Some (set_p_state PROC_RUNNABLE x)).
Proof.
  intros H Hn Hf Hx Hst Hc. eapply runs_ok; [by eapply wake_up_eq, procs_free_on_cpu|].
  destruct (on_cpu_settled _ _ _ _ H) as [H1 H2 H3 (x' & Hx' & Hpid & Hpt) H5 H6 H7 H8].
  set (ps := woken _ c (k_procs s) all_procs).
  assert (ps !! t_proc t = Some (set_p_state PROC_RUNNABLE x)) as Hps.
  { unfold ps. rewrite woken_lookup by apply NoDup_seq. rewrite decide_True.
    - rewrite Hx. unfold wake_one. cbn [fmap option_fmap option_map]. by rewrite decide_True.
    - rewrite (oc_proc _ _ _ _ H). split; [|done]. apply elem_of_seq. rewrite <-H5.
      split; [lia|]. by eapply lookup_lt_Some. }
  assert (length ps = N_PROC) as Hlen by (unfold ps; by rewrite length_woken).
  clearbody ps. split_and!; [|done|done]. split; try done; simpl.
  eexists. split; [exact Hps|]. simpl in Hx'. rewrite Hx in Hx'. injection Hx' as <-. done.
Qed.

(** ** The interrupt handler *)

Section intr.
Context `{DV : Device} (dev : kstate → kstate → Prop) `{BD : !BlkDevice dev} (t : task).

Lemma used_step i : 0 ≤ i < 2 ^ 16 → i ≠ wrap 16 (i + 1).
Proof.
  intros H. unfold wrap. destruct (decide (i + 1 < 2 ^ 16)).
  - rewrite Z.mod_small; lia.
  - replace (i + 1) with (2 ^ 16) by lia. rewrite Z_mod_same_full. lia.
Qed.

Lemma completed_used i0 d :
  vd_ok d → default 0 (vd_used_ring (completed i0 d) !! Z.to_nat (vd_used_idx (completed i0 d) mod NUM)) = Z.of_nat i0.
Proof.
  intros Hok. simpl. rewrite <-(vo_seen _ Hok), list_lookup_insert_eq; [done|].
  rewrite (vo_used _ Hok). unfold NUM. pose proof (Z.mod_pos_bound (vd_used_idx d) 8). lia.
Qed.

Lemma completed_info i0 d : vd_info (completed i0 d) = alter (set_ti_status 0) i0 (vd_info d).
Proof. done. Qed.

Lemma upd_buf_known b f x s :
  k_bufs s !! b = Some x → upd_buf b f s = Ok tt (set_k_bufs (<[b := f x]> (k_bufs s)) s).
Proof. intros Hx. unfold upd_buf, modify. by rewrite (alter_known _ _ _ _ Hx). Qed.

Lemma virtio_disk_intr_spec i0 b d x y s :
  at_cpu None t 0 ∅ s → LDisk ∈ t_locks t → vd_ok d → k_vdisk s = completed i0 d →
  vd_info d !! i0 = Some (mk_track_info (Some b) 0xff) → k_bufs s !! b = Some x →
  k_procs s !! t_proc t = Some y → p_state y = PROC_SLEEPING → p_chan y = Some (ChBuf b) →
  runs virtio_disk_intr s (λ _ s', at_cpu None t 0 ∅ s' ∧
    sim (set_k_vdisk (set_vd_used_idx (wrap 16 (vd_used_idx d + 1)) (completed i0 d))
      (set_k_bufs (<[b := set_b_disk false x]> (k_bufs s)) s)) s' ∧
    k_procs s' !! t_proc t = Some (set_p_state PROC_RUNNABLE y)).
Proof.
  intros H Hl Hok Hd Hi Hx Hy Hst Hc. unfold virtio_disk_intr.
  kstep. kcall (acquire_procs_spec t 0 _ _ s H Hl); [set_solver|lia|]. intros [] s1 (H1 & S1 & P1 & _).
  rewrite (right_id_L ∅ (∪)) in H1. destruct (blk_status s1) as [v Ev].
  kstep. eapply runs_ok; [exact Ev|]. kstep. eapply runs_ok; [apply blk_ack|].
  pose proof (sim_k_vdisk _ _ S1) as V1. pose proof (sim_k_bufs _ _ S1) as B1.
  rewrite Hd in V1. rewrite B1 in Hx. rewrite <-P1 in Hy.
  assert (∃ fuel, Z.to_nat (2 ^ 16) = S fuel) as [fuel Ef] by (exists (Z.to_nat (2 ^ 16 - 1)); lia).
  rewrite Ef. kstep. cbn [loop]. do 3 kstep. rewrite <-V1, completed_used, completed_info by done.
  rewrite (proj2 (Z.eqb_neq _ _)) by (change (vd_used_idx d ≠ wrap 16 (vd_dev_idx d + 1));
    rewrite <-(vo_seen _ Hok); apply used_step, Hok).
  cbn [negb]. rewrite Nat2Z.id, list_lookup_alter_eq, Hi. cbn [fmap option_fmap option_map ti_status ti_b set_ti_status].
  cbn [Z.eqb negb]. kstep. eapply runs_ok; [by apply upd_buf_known|].
  kstep. kcall (wake_sleeper_spec t 1 _ (ChBuf b) y (set_k_bufs (<[b := set_b_disk false x]> (k_bufs s1)) s1));
    [by eapply on_cpu_sim|lia|set_solver|done|done|done|].
  intros [] s2 (H2 & S2 & P2). pose proof (sim_k_vdisk _ _ S2) as V2. simpl in V2.
  kstep. unfold upd_vdisk. do 2 kstep. rewrite <-V2, <-V1.
  set (d' := set_vd_used_idx _ _). do 3 kstep. cbn [k_vdisk set_k_vdisk].
  assert (vd_used_idx d' = vd_dev_idx d') as -> by (unfold d'; simpl; by rewrite (vo_seen _ Hok)).
  rewrite Z.eqb_refl. cbn [negb]. do 2 kstep.
  kcall (release_procs_spec t 1 _ LDisk (set_k_vdisk d' s2)); [by eapply on_cpu_sim|done|set_solver|lia|].
  intros [] s3 (H3 & S3 & P3 & _). rewrite difference_diag_L in H3. split_and!; [done| |by rewrite P3].
  etrans; [|exact S3]. apply set_k_vdisk_proper. etrans; [|exact S2]. rewrite B1. by apply set_k_bufs_proper.
Qed.

(** The driver's data when it goes on. *)
Lemma completed_served i0 d :
  vd_ok d → served d i0 (set_vd_used_idx (wrap 16 (vd_used_idx d + 1)) (completed i0 d)).
Proof.
  intros Hok. split; try done; simpl.
  - by rewrite length_insert.
  - by rewrite (vo_seen _ Hok).
  - unfold wrap. apply Z.mod_pos_bound. lia.
Qed.

(** The device's transfer and the report of the handler. *)
Lemma dma_transfer w b bno x d d' s :
  k_bufs s !! b = Some x →
  ∃ y, k_bufs (set_k_vdisk d (dma w b bno x s)) !! b = Some y ∧
    sim (set_k_vdisk d' (transfer w b bno x s))
      (set_k_vdisk d' (set_k_bufs (<[b := set_b_disk false y]> (k_bufs (dma w b bno x s)))
        (set_k_vdisk d (dma w b bno x s)))).
Proof.
  intros Hx. pose proof (lookup_lt_Some _ _ _ Hx) as Hlt. destruct w; simpl.
  - by exists x.
  - eexists. split; [by apply list_lookup_insert_eq|]. by rewrite list_insert_insert_eq.
Qed.

Lemma dma_hart w b bno x d n held s :
  at_cpu None t n held s → at_cpu None t n held (set_k_vdisk d (dma w b bno x s)) ∧
  k_procs (set_k_vdisk d (dma w b bno x s)) = k_procs s.
Proof. intros H. split; [eapply on_cpu_sim; [exact H|..]|]; by destruct w. Qed.

Lemma transfer_sim w b bno x d s s1 :
  sim s s1 → sim (set_k_vdisk d (transfer w b bno x s)) (set_k_vdisk d (transfer w b bno x s1)).
Proof.
  intros S. unfold transfer, dblock.
  rewrite (sim_k_disk _ _ S), (sim_k_dwrites _ _ S), (sim_k_bufs _ _ S). apply set_k_vdisk_proper. destruct w.
  - by apply set_k_dwrites_proper, set_k_disk_proper, set_k_bufs_proper.
  - by apply set_k_bufs_proper.
Qed.

Lemma world_spec s b x i0 i1 i2 w sector :
  asleep t (ChBuf b) s → LDisk ∈ t_locks t → vd_ok (k_vdisk s) → request (k_vdisk s) i0 i1 i2 b w sector →
  k_bufs s !! b = Some x →
  ∃ s1, switched_back (t_proc t) s = Ok tt s1 ∧ (∃ s2, dev s1 s2) ∧
    ∀ s2, dev s1 s2 → ∃ s3 s' k, virtio_disk_intr s2 = Ok tt s3 ∧
      (c ← current_cpu; scheduler_visit sleep c (t_proc t)) s3 = Sleep (t_proc t) s' k ∧
      on_cpu t 1 {[LProc (t_proc t)]} s' ∧
      ∃ d, served (k_vdisk s) i0 d ∧ sim (set_k_vdisk d (transfer w b (sector / 2) x s)) s'.
Proof.
  intros Has Hl Hok Hrq Hx. pose proof Has as [_ (y & Hy & Hst & Hc)].
  destruct (switched_back_spec t (ChBuf b) y s Has Hy) as ([] & s1 & E1 & H1 & S1 & P1).
  pose proof (sim_k_vdisk _ _ S1) as V1. pose proof (sim_k_bufs _ _ S1) as B1.
  exists s1. split; [done|]. rewrite V1 in Hok, Hrq |- *. rewrite B1 in Hx. rewrite <-P1 in Hy.
  split; [by eapply blk_total|]. intros s2 Hdev. pose proof (blk_serves _ _ _ _ _ _ _ _ _ Hrq Hx Hdev) as ->.
  set (d := k_vdisk s1) in *. set (bno := sector / 2). set (d' := set_vd_used_idx (wrap 16 (vd_used_idx d + 1)) (completed i0 d)).
  destruct (dma_transfer w b bno x (completed i0 d) d' s1 Hx) as (z & Hz & Sz).
  destruct (dma_hart w b bno x (completed i0 d) _ _ s1 H1) as [H2 P2]. rewrite <-P2 in Hy.
  destruct (virtio_disk_intr_spec i0 b d z y _ H2 Hl Hok eq_refl (rq_info _ _ _ _ _ _ _ Hrq) Hz Hy Hst Hc)
    as ([] & s3 & E3 & H3 & S3 & P3).
  destruct (scheduler_visit_spec t _ s3 H3 P3 eq_refl) as (s' & k & E4 & H4 & S4).
  exists s3, s', k. split_and!; [done|done|done|]. exists d'. split; [by apply completed_served|].
  etrans; [exact (transfer_sim w b bno x d' _ _ S1)|]. etrans; [exact Sz|]. by etrans.
Qed.
End intr.

(** The device, the handler and the scheduler are what the driver expects. *)
#[export] Instance world_disk `{DV : Device} dev `{BD : !BlkDevice dev} : Disk (world dev).
Proof.
  split; [apply blk_notify| |].
  - intros t s b x i0 i1 i2 w sector Has Hl Hok Hrq Hx _.
    destruct (world_spec dev t s b x i0 i1 i2 w sector Has Hl Hok Hrq Hx) as (s1 & E1 & [s2 Hdev] & Hw).
    destruct (Hw s2 Hdev) as (s3 & s' & k & E3 & E4 & _). by exists s', s1, s2, s3, k.
  - intros t s s' b x i0 i1 i2 w sector Has Hl Hok Hrq Hx _ (s1 & s2 & s3 & k & E1 & Hdev & E3 & E4).
    destruct (world_spec dev t s b x i0 i1 i2 w sector Has Hl Hok Hrq Hx) as (s1' & E1' & _ & Hw).
    rewrite E1 in E1'. injection E1' as <-. destruct (Hw s2 Hdev) as (s3' & s'' & k' & E3' & E4' & H).
    rewrite E3 in E3'. injection E3' as <-. rewrite E4 in E4'. injection E4' as <- _. exact H.
Qed.

(** C27: The driver, the interrupt handler and the scheduler together complete
    transfers: a block written from one buffer and read into another arrives
    there, the process that waits is woken each time, and all descriptors are
    free again. *)
Theorem disk_write_read `{DV : Device} `{RN : Rounds} dev `{BD : !BlkDevice dev} t b1 b2 x1 x2 s :
  (1 < rounds)%nat → idle t s → LDisk ∈ t_locks t → disk_idle (k_vdisk s) → b1 ≠ b2 →
  k_bufs s !! b1 = Some x1 → k_bufs s !! b2 = Some x2 → b_bno x2 = b_bno x1 → 0 ≤ b_bno x1 < 2 ^ 31 →
  b_disk x1 = false → b_disk x2 = false →
  eruns (world dev) (virtio_disk_write b1;; virtio_disk_read b2) s (λ _ s',
    idle t s' ∧ disk_idle (k_vdisk s') ∧ k_disk s' !! b_bno x1 = Some (b_data x1) ∧
    k_bufs s' = <[b2 := set_b_data (b_data x1) x2]> (k_bufs s)).
Proof.
  intros Hr Hi Hl Hd Hne Hx1 Hx2 Hn Hb D1 D2. unfold virtio_disk_write, virtio_disk_read.
  estep. ecall (virtio_disk_rw_spec (world dev) t b1 x1 true s Hr Hi Hl Hd Hx1 Hb D1). intros [] s1 (I1 & V1 & S1).
  pose proof (fsim_k_bufs _ _ S1) as B1. pose proof (fsim_k_disk _ _ S1) as K1. simpl in B1, K1.
  ecall (virtio_disk_rw_spec (world dev) t b2 x2 false s1 Hr I1 Hl V1); [by rewrite <-B1|by rewrite Hn|done|].
  intros [] s2 (I2 & V2 & S2). pose proof (fsim_k_bufs _ _ S2) as B2. pose proof (fsim_k_disk _ _ S2) as K2.
  simpl in B2, K2. split_and!; [done|done|by rewrite <-K2, <-K1; apply lookup_insert_eq|].
  rewrite <-B2, <-B1. unfold dblock. rewrite <-K1, Hn, lookup_insert_eq. done.
Qed.
