(* ===== verification/BufList.v ===== *)
(** The doubly linked list of the buffer cache (kernel/fs/buf.c): the links
    represent a list of buffers, and unlinking a buffer and linking it at the
    front, as [brelse] does, moves it to the head of that list. *)

From S2P Require Import Prelude Mem State Machine Mm MmInit Proc Sync Virtio Buf Log Inode FsData ProcTheorems Env VirtioTheorems.

(** ** Links as functions *)

Section links.
Implicit Types nx pv : nat → nat.

(** [a] is followed by [c]. *)
Definition edge nx pv (a c : nat) : Prop := nx a = c ∧ pv c = a.

(** From [a] over the elements of [l] to [z]. *)
Fixpoint links nx pv (a : nat) (l : list nat) (z : nat) : Prop :=
  match l with
  | [] => edge nx pv a z
  | c :: l => edge nx pv a c ∧ links nx pv c l z
  end.

Lemma links_app nx pv l1 : ∀ a b l2 z,
  links nx pv a (l1 ++ b :: l2) z ↔ links nx pv a l1 b ∧ links nx pv b l2 z.
Proof. induction l1 as [|c l1 IH]; intros a b l2 z; simpl; [done|]. rewrite IH. tauto. Qed.

(** Only the outgoing links of [a :: l] and the incoming ones of [l ++ [z]]
    matter. *)
Lemma links_ext nx pv nx' pv' l : ∀ a z,
  (∀ i, i ∈ a :: l → nx' i = nx i) → (∀ i, i ∈ l ++ [z] → pv' i = pv i) →
  links nx pv a l z → links nx' pv' a l z.
Proof.
  induction l as [|c l IH]; intros a z Hn Hp; simpl.
  - intros [E1 E2]. split; [rewrite Hn|rewrite Hp]; set_solver.
  - intros [[E1 E2] H]. split; [split; [rewrite Hn|rewrite Hp]; set_solver|].
    apply IH; [|by intros i Hi; apply Hp; set_solver|done]. intros i Hi. apply Hn. set_solver.
Qed.

Lemma links_first nx pv a l z : links nx pv a l z → nx a = default z (head l).
Proof. destruct l as [|c l]; simpl; [by intros [-> _]|by intros [[-> _] _]]. Qed.

Lemma links_last nx pv l : ∀ a z, links nx pv a l z → pv z = default a (last l).
Proof.
  induction l as [|c l IH]; intros a z; simpl; [by intros [_ ->]|]. intros [_ H].
  rewrite (IH _ _ H). change (default c (last l) = default a (last (c :: l))).
  rewrite last_cons. by destruct (last l).
Qed.

(** Taking [b] out. *)
Lemma links_unlink nx pv nx' pv' b l2 z l1 : ∀ a,
  NoDup (l1 ++ b :: l2) → a ∉ l1 ++ b :: l2 → z ∉ l1 ++ b :: l2 →
  (∀ i, nx' i = if decide (i = pv b) then nx b else nx i) →
  (∀ i, pv' i = if decide (i = nx b) then pv b else pv i) →
  links nx pv a (l1 ++ b :: l2) z → links nx' pv' a (l1 ++ l2) z.
Proof.
  induction l1 as [|c l1 IH]; intros a Hnd Ha Hz Hn Hp H.
  - destruct H as [[E1 E2] H]. pose proof (links_first _ _ _ _ _ H) as Hf. simpl.
    rewrite E2 in Hn, Hp. apply NoDup_cons in Hnd as [Hb Hnd].
    destruct l2 as [|c l2]; simpl in *.
    + split; [rewrite Hn, decide_True by done; done|by rewrite Hp, decide_True].
    + split; [split; [by rewrite Hn, decide_True|by rewrite Hp, decide_True]|].
      destruct H as [_ H]. apply NoDup_cons in Hnd as [Hc Hnd].
      eapply links_ext; [| |exact H]; intros i Hi; [rewrite Hn|rewrite Hp]; apply decide_False; set_solver.
  - destruct H as [[E1 E2] H]. simpl in Hnd. apply NoDup_cons in Hnd as [Hc Hnd].
    split; [|apply IH; [done|done|set_solver|done|done|done]].
    pose proof (proj1 (links_app _ _ _ _ _ _ _) H) as [Hb1 Hb2].
    apply links_last in Hb1. apply links_first in Hb2. split.
    + rewrite Hn, decide_False; [done|]. rewrite Hb1. intros ->.
      assert (default c (last l1) ∈ c :: l1) as Hin; [|set_solver].
      destruct (last l1) as [y|] eqn:E; simpl; [|set_solver]. apply last_Some_elem_of in E. set_solver.
    + rewrite Hp, decide_False; [done|]. rewrite Hb2. intros ->.
      destruct l2 as [|y l2]; simpl in *; set_solver.
Qed.

(** Putting [b] at the front. *)
Lemma links_push nx pv nx' pv' a b l :
  NoDup (a :: b :: l) →
  (∀ i, nx' i = if decide (i = a) then b else if decide (i = b) then nx a else nx i) →
  (∀ i, pv' i = if decide (i = nx a) then b else if decide (i = b) then a else pv i) →
  links nx pv a l a → links nx' pv' a (b :: l) a.
Proof.
  intros Hnd Hn Hp H. rewrite !NoDup_cons, !not_elem_of_cons in Hnd. destruct Hnd as ((Hab & Hal) & Hbl & Hnd).
  pose proof (links_first _ _ _ _ _ H) as Hf. simpl. split.
  - split; [by rewrite Hn, decide_True|].
    rewrite Hp, decide_False, decide_True; [done|done|]. rewrite Hf. destruct l; simpl in *; set_solver.
  - destruct l as [|c l]; simpl in *.
    + split; [rewrite Hn, decide_False, decide_True by done; congruence|by rewrite Hp, decide_True].
    + destruct H as [[E1 E2] H]. split; [split|].
      * rewrite Hn, decide_False, decide_True by done. done.
      * by rewrite Hp, decide_True.
      * apply NoDup_cons in Hnd as [Hc Hnd]. eapply links_ext; [| |exact H].
        -- intros i Hi. rewrite Hn, !decide_False; set_solver.
        -- intros i Hi. rewrite Hp, !decide_False; set_solver.
Qed.
End links.

(** ** The list in the buffer table *)

Definition nxt (bs : list buffer) (i : nat) : nat := default 0%nat (b_next <$> bs !! i).
Definition prv (bs : list buffer) (i : nat) : nat := default 0%nat (b_prev <$> bs !! i).

(** The buffers in the order of their last use, the latest first. *)
Definition lru (bs : list buffer) (l : list nat) : Prop :=
  length bs = S N_BUF ∧ l ≡ₚ seq 0 N_BUF ∧ links (nxt bs) (prv bs) bhead l bhead.

Lemma lru_elem bs l b : lru bs l → b ∈ l ↔ (b < N_BUF)%nat.
Proof. intros (_ & Hp & _). rewrite Hp, elem_of_seq. lia. Qed.

Lemma lru_nodup bs l : lru bs l → NoDup l.
Proof. intros (_ & Hp & _). rewrite Hp. apply NoDup_seq. Qed.

(** Updates of other fields keep the list. *)
Lemma lru_alter bs l b f :
  (∀ x, b_next (f x) = b_next x ∧ b_prev (f x) = b_prev x) → lru bs l → lru (alter f b bs) l.
Proof.
  intros Hf (Hl & Hp & Hk). split_and!; [by rewrite length_alter|done|].
  assert (∀ i, nxt (alter f b bs) i = nxt bs i ∧ prv (alter f b bs) i = prv bs i) as E.
  { intros i. unfold nxt, prv. destruct (decide (b = i)) as [->|Hne].
    - rewrite list_lookup_alter_eq. destruct (bs !! i) as [x|]; simpl; [|done]. apply Hf.
    - by rewrite list_lookup_alter_ne. }
  eapply links_ext; [| |exact Hk]; intros i _; apply E.
Qed.

Lemma lru_insert bs l b x y :
  bs !! b = Some x → b_next y = b_next x → b_prev y = b_prev x → lru bs l → lru (<[b := y]> bs) l.
Proof.
  intros Hx Hn Hp (Hl & Hpm & Hk). split_and!; [by rewrite length_insert|done|].
  eapply links_ext; [| |exact Hk]; intros i _; unfold nxt, prv; (destruct (decide (b = i)) as [->|Hne];
    [rewrite list_lookup_insert_eq, Hx by (by eapply lookup_lt_Some); simpl; done|by rewrite list_lookup_insert_ne]).
Qed.

(** What a buffer holds beside its links. *)
Definition contents (x : buffer) : buffer := set_b_prev 0 (set_b_next 0 x).

Lemma nxt_set_next bs k v i :
  (k < length bs)%nat → nxt (alter (set_b_next v) k bs) i = if decide (i = k) then v else nxt bs i.
Proof.
  intros Hk. unfold nxt. destruct (lookup_lt_is_Some_2 bs k Hk) as [x Hx]. case_decide as E.
  - subst i. by rewrite list_lookup_alter_eq, Hx.
  - by rewrite list_lookup_alter_ne.
Qed.
Lemma prv_set_prev bs k v i :
  (k < length bs)%nat → prv (alter (set_b_prev v) k bs) i = if decide (i = k) then v else prv bs i.
Proof.
  intros Hk. unfold prv. destruct (lookup_lt_is_Some_2 bs k Hk) as [x Hx]. case_decide as E.
  - subst i. by rewrite list_lookup_alter_eq, Hx.
  - by rewrite list_lookup_alter_ne.
Qed.
Lemma nxt_set_prev bs k v i : nxt (alter (set_b_prev v) k bs) i = nxt bs i.
Proof.
  unfold nxt. destruct (decide (k = i)) as [->|].
  - rewrite list_lookup_alter_eq. by destruct (bs !! i).
  - by rewrite list_lookup_alter_ne.
Qed.
Lemma prv_set_next bs k v i : prv (alter (set_b_next v) k bs) i = prv bs i.
Proof.
  unfold prv. destruct (decide (k = i)) as [->|].
  - rewrite list_lookup_alter_eq. by destruct (bs !! i).
  - by rewrite list_lookup_alter_ne.
Qed.
Lemma contents_alter (bs : list buffer) (k : nat) f :
  (∀ x, contents (f x) = contents x) → contents <$> alter f k bs = contents <$> bs.
Proof.
  intros Hf. apply list_eq. intros i. rewrite !list_lookup_fmap.
  destruct (decide (k = i)) as [->|]; [|by rewrite list_lookup_alter_ne].
  rewrite list_lookup_alter_eq. destruct (bs !! i) as [x|]; simpl; [|done]. by rewrite Hf.
Qed.

(** The stores of [link_front], and of the end of [brelse]. *)
Definition linked_front (b : nat) (bs : list buffer) : list buffer :=
  let hn := nxt bs bhead in
  alter (set_b_next b) bhead (alter (set_b_prev b) hn
    (alter (set_b_prev bhead) b (alter (set_b_next hn) b bs))).
Definition unlinked (b : nat) (bs : list buffer) : list buffer :=
  alter (set_b_next (nxt bs b)) (prv bs b) (alter (set_b_prev (prv bs b)) (nxt bs b) bs).
Definition to_front (b : nat) (bs : list buffer) : list buffer := linked_front b (unlinked b bs).

Lemma length_to_front b bs : length (to_front b bs) = length bs.
Proof. unfold to_front, linked_front, unlinked. by rewrite !length_alter. Qed.

Lemma contents_to_front b bs : contents <$> to_front b bs = contents <$> bs.
Proof. unfold to_front, linked_front, unlinked. by rewrite !contents_alter. Qed.

Lemma links_bound bs l i :
  lru bs l → i ∈ bhead :: l → (nxt bs i < S N_BUF)%nat ∧ (prv bs i < S N_BUF)%nat.
Proof.
  intros (Hl & Hp & Hk) Hi.
  assert (∀ j, j ∈ bhead :: l → (j < S N_BUF)%nat) as Hlt.
  { intros j [->|Hj]%elem_of_cons; [unfold bhead; lia|]. rewrite Hp, elem_of_seq in Hj. lia. }
  assert (∀ a m z, links (nxt bs) (prv bs) a m z → ∀ j, j ∈ a :: m → nxt bs j ∈ z :: m) as Hn.
  { intros a m z. revert a. induction m as [|c m IH]; intros a Hm j Hj; simpl in Hm.
    - apply elem_of_cons in Hj as [->|?%elem_of_nil]; [|done]. destruct Hm as [-> _]. left.
    - destruct Hm as [[E _] Hm]. apply elem_of_cons in Hj as [->|Hj]; [rewrite E; set_solver|].
      specialize (IH c Hm j Hj). set_solver. }
  assert (∀ a m z, links (nxt bs) (prv bs) a m z → ∀ j, j ∈ z :: m → prv bs j ∈ a :: m) as Hv.
  { intros a m z. revert a. induction m as [|c m IH]; intros a Hm j Hj; simpl in Hm.
    - apply elem_of_cons in Hj as [->|?%elem_of_nil]; [|done]. destruct Hm as [_ ->]. left.
    - destruct Hm as [[_ E] Hm]. destruct (decide (j = c)) as [->|Hne]; [rewrite E; left|].
      specialize (IH c Hm j). set_solver. }
  split; apply Hlt; [by eapply Hn|by eapply Hv].
Qed.

(** Moving [b] to the front moves it to the head of the list. *)
Lemma lru_to_front bs l1 b l2 :
  lru bs (l1 ++ b :: l2) → lru (to_front b bs) (b :: l1 ++ l2).
Proof.
  intros H. pose proof (lru_nodup _ _ H) as Hnd. pose proof H as (Hl & Hp & Hk).
  assert (b ∈ l1 ++ b :: l2) as Hb by set_solver.
  assert (bhead ∉ l1 ++ b :: l2) as Hh by (rewrite (lru_elem _ _ _ H); unfold bhead; lia).
  pose proof (proj1 (lru_elem _ _ _ H) Hb) as Hlt.
  destruct (links_bound _ _ b H) as [Hnb Hpb]; [by right|].
  assert (links (nxt (unlinked b bs)) (prv (unlinked b bs)) bhead (l1 ++ l2) bhead) as Hu.
  { eapply links_unlink; [exact Hnd|exact Hh|exact Hh| | |exact Hk]; intros i; unfold unlinked.
    - rewrite nxt_set_next by (rewrite length_alter; lia). by rewrite nxt_set_prev.
    - rewrite prv_set_next. apply prv_set_prev. lia. }
  assert (length (unlinked b bs) = S N_BUF) as Hlu by (unfold unlinked; by rewrite !length_alter).
  assert (Hperm : b :: l1 ++ l2 ≡ₚ seq 0 N_BUF) by by rewrite <-Hp, Permutation_middle.
  assert (nxt (unlinked b bs) bhead < S N_BUF)%nat as Hhn.
  { rewrite (links_first _ _ _ _ _ Hu). destruct (l1 ++ l2) as [|c m] eqn:E; simpl; [unfold bhead; lia|].
    assert (c ∈ seq 0 N_BUF) as Hc by (rewrite <-Hperm; set_solver). apply elem_of_seq in Hc. lia. }
  split_and!; [by rewrite length_to_front|done|]. unfold to_front, linked_front.
  set (T := unlinked b bs) in *. set (hn := nxt T bhead) in *.
  apply (links_push (nxt T) (prv T) _ _ bhead b (l1 ++ l2)); [| | |exact Hu].
  - apply NoDup_cons. split; [|rewrite Hperm; apply NoDup_seq].
    rewrite Hperm, elem_of_seq. unfold bhead. lia.
  - intros i. rewrite nxt_set_next by (rewrite !length_alter; unfold bhead; lia).
    destruct (decide (i = bhead)); [done|]. rewrite !nxt_set_prev, nxt_set_next by lia. done.
  - intros i. rewrite prv_set_next, prv_set_prev by (rewrite !length_alter; lia).
    fold hn. destruct (decide (i = hn)); [done|]. rewrite prv_set_prev by (rewrite length_alter; lia).
    destruct (decide (i = b)); [done|]. by rewrite prv_set_next.
Qed.

(** ** The searches of [bread] *)

Lemma links_rev nx pv l : ∀ a z, links nx pv a l z → links pv nx z (reverse l) a.
Proof.
  induction l as [|c l IH]; intros a z; simpl; [by intros [? ?]|].
  intros [[E1 E2] H]. rewrite reverse_cons. apply links_app. split; [by apply IH|by split].
Qed.

(** What [bfind] answers over the buffers [l]. *)
Definition found (bs : list buffer) (f : buffer → bool) (l : list nat) (r : option nat) : Prop :=
  match r with
  | Some b => b ∈ l ∧ ∃ x, bs !! b = Some x ∧ f x = true
  | None => ∀ b x, b ∈ l → bs !! b = Some x → f x = false
  end.

(** One round of [bfind]. *)
Definition bfind_round (step : nat → KM nat) (f : buffer → bool) (b : nat) : KM (nat + option nat) :=
  if decide (b = bhead) then mret (inr None) else
  x ← get_buf b;
  if f x then mret (inr (Some b)) else
  b ← step b; mret (inl b).

Lemma bfind_loop step nf pf f s : ∀ l fuel b,
  (∀ i, i ∈ l → step i s = Ok (nf i) s ∧ is_Some (k_bufs s !! i)) →
  bhead ∉ l → (length l < fuel)%nat →
  match l with [] => b = bhead | c :: l' => b = c ∧ links nf pf c l' bhead end →
  ∃ r, loop fuel (bfind_round step f) b s = Ok r s ∧ found (k_bufs s) f l r.
Proof.
  unfold bfind_round.
  induction l as [|c l IH]; intros fuel b Hst Hh Hf Hb; (destruct fuel as [|fuel]; [simpl in Hf; lia|]);
    cbn [loop]; rewrite K_bind_eq.
  - subst b. rewrite decide_True by done. eexists. split; [done|]. by intros b x ?%elem_of_nil.
  - destruct Hb as [-> Hk]. apply not_elem_of_cons in Hh as [Hne Hh].
    rewrite decide_False by congruence. destruct (Hst c) as [Hs [x Hx]]; [left|].
    rewrite K_bind_eq, (get_buf_eq c x s Hx). cbn [obind]. destruct (f x) eqn:Hfx.
    + eexists. split; [done|]. split; [left|]. by exists x.
    + rewrite K_bind_eq, Hs. cbn [obind mret K_ret].
      destruct (IH fuel (nf c)) as (r & Hr & Hfd); [|done|simpl in Hf; lia| |].
      * intros i Hi. apply Hst. by right.
      * rewrite (links_first _ _ _ _ _ Hk). destruct l as [|d l]; simpl in *; [done|]. by destruct Hk.
      * exists r. split; [done|]. destruct r as [d|]; simpl in *.
        -- destruct Hfd as [Hin Hfd]. split; [by right|done].
        -- intros b y [->|Hin]%elem_of_cons Hy; [congruence|by eapply Hfd].
Qed.

Lemma bfind_spec step nf pf f s l :
  (∀ i, i ∈ bhead :: l → step i s = Ok (nf i) s ∧ is_Some (k_bufs s !! i)) →
  bhead ∉ l → (length l ≤ N_BUF)%nat → links nf pf bhead l bhead →
  ∃ r, bfind step f s = Ok r s ∧ found (k_bufs s) f l r.
Proof.
  intros Hst Hh Hl Hk. unfold bfind. destruct (Hst bhead) as [Hs _]; [left|].
  rewrite K_bind_eq, Hs. cbn [obind]. apply (bfind_loop _ nf pf); [|done|lia|].
  - intros i Hi. apply Hst. by right.
  - rewrite (links_first _ _ _ _ _ Hk). destruct l as [|c l]; [done|]. simpl in *. by destruct Hk.
Qed.

Lemma bnext_eq b s : (b < length (k_bufs s))%nat → bnext b s = Ok (nxt (k_bufs s) b) s.
Proof.
  intros H. destruct (lookup_lt_is_Some_2 _ _ H) as [x Hx]. unfold bnext, nxt.
  erewrite bind_ok by by apply get_buf_eq. by rewrite Hx.
Qed.
Lemma bprev_eq b s : (b < length (k_bufs s))%nat → bprev b s = Ok (prv (k_bufs s) b) s.
Proof.
  intros H. destruct (lookup_lt_is_Some_2 _ _ H) as [x Hx]. unfold bprev, prv.
  erewrite bind_ok by by apply get_buf_eq. by rewrite Hx.
Qed.

(** Both searches visit every buffer. *)
Lemma bfind_next f s l :
  lru (k_bufs s) l → ∃ r, bfind bnext f s = Ok r s ∧ found (k_bufs s) f l r.
Proof.
  intros H. pose proof H as (Hl & Hp & Hk). apply (bfind_spec _ (nxt (k_bufs s)) (prv (k_bufs s))); [| | |done].
  - intros i Hi. assert (i < length (k_bufs s))%nat as Hlt.
    { rewrite Hl. apply elem_of_cons in Hi as [->|Hi]; [unfold bhead; lia|].
      apply (lru_elem _ _ _ H) in Hi. lia. }
    split; [by apply bnext_eq|by apply lookup_lt_is_Some_2].
  - rewrite (lru_elem _ _ _ H). unfold bhead. lia.
  - rewrite Hp, length_seq. done.
Qed.

Lemma bfind_prev f s l :
  lru (k_bufs s) l → ∃ r, bfind bprev f s = Ok r s ∧ found (k_bufs s) f l r.
Proof.
  intros H. pose proof H as (Hl & Hp & Hk).
  destruct (bfind_spec bprev (prv (k_bufs s)) (nxt (k_bufs s)) f s (reverse l)) as (r & Hr & Hf).
  - intros i Hi. assert (i < length (k_bufs s))%nat as Hlt.
    { rewrite Hl. apply elem_of_cons in Hi as [->|Hi]; [unfold bhead; lia|].
      rewrite elem_of_reverse in Hi. apply (lru_elem _ _ _ H) in Hi. lia. }
    split; [by apply bprev_eq|by apply lookup_lt_is_Some_2].
  - rewrite elem_of_reverse, (lru_elem _ _ _ H). unfold bhead. lia.
  - rewrite length_reverse, Hp, length_seq. done.
  - by apply links_rev.
  - exists r. split; [done|]. destruct r as [b|]; simpl in *.
    + by rewrite elem_of_reverse in Hf.
    + intros b x Hb. apply Hf. by rewrite elem_of_reverse.
Qed.

(** ** The stores of [brelse] *)

Lemma link_front_eq b s :
  length (k_bufs s) = S N_BUF →
  link_front b s = Ok tt (set_k_bufs (linked_front b (k_bufs s)) s).
Proof.
  intros Hl. unfold link_front. erewrite bind_ok by (apply bnext_eq; rewrite Hl; unfold bhead; lia). done.
Qed.

Lemma relink_eq b x s :
  length (k_bufs s) = S N_BUF → k_bufs s !! b = Some x →
  (upd_buf (b_next x) (set_b_prev (b_prev x));; upd_buf (b_prev x) (set_b_next (b_next x));;
   link_front b) s = Ok tt (set_k_bufs (to_front b (k_bufs s)) s).
Proof.
  intros Hl Hx. erewrite bind_ok by done. erewrite bind_ok by done.
  assert (nxt (k_bufs s) b = b_next x ∧ prv (k_bufs s) b = b_prev x) as [En Ep].
  { unfold nxt, prv. by rewrite Hx. }
  rewrite link_front_eq by (simpl; by rewrite !length_alter). simpl.
  unfold to_front, unlinked. by rewrite En, Ep.
Qed.
