(* ===== verification/BufCache.v ===== *)
(** The buffer cache (kernel/fs/buf.c) as a cache of the disk: the invariant of
    the buffer table, and the contents that its clients see. *)

From S2P Require Import Prelude Mem State Machine Mm MmInit Proc Sync Virtio Buf Log Inode FsData ProcTheorems Env VirtioTheorems BufList.

(** ** Definitions *)

Abbreviation disk := (gmap Z (list Z)).
Definition block (dk : disk) (bno : Z) : list Z := default zero_block (dk !! bno).

(** Buffer [b] caches block [bno]. *)
Definition cached (bs : list buffer) (bno : Z) (b : nat) (x : buffer) : Prop :=
  (b < N_BUF)%nat ∧ bs !! b = Some x ∧ b_dev x = ROOT_DEV ∧ b_bno x = bno.

Definition one (P : Prop) `{Decision P} : Z := if decide P then 1 else 0.

(** The blocks [P] are pinned by the log; the blocks [H] are held by the task
    between [bread] and [brelse]. *)
Record buf_ok (t : task) (P H : gset Z) (sl : gmap slockid sleep_lock) (dk : disk)
    (b : nat) (x : buffer) : Prop := {
  bo_disk : b_disk x = false;
  bo_len : length (b_data x) = Z.to_nat BLOCK_SIZE;
  bo_bno : 0 ≤ b_bno x < 2 ^ 31;
  bo_dev : b_dev x = 0 ∨ b_dev x = ROOT_DEV;
  bo_ref : b_refcnt x =
    if decide (b_dev x = ROOT_DEV) then one (b_bno x ∈ P) + one (b_bno x ∈ H) else 0;
  bo_lock : ∃ name, sl !! SlBuf b =
    Some (if decide (b_dev x = ROOT_DEV ∧ b_bno x ∈ H) then mk_sleep_lock true (t_pid t) name
          else mk_sleep_lock false (-1) name);
  bo_clean : b_dev x = ROOT_DEV → b_bno x ∉ P → b_bno x ∉ H → b_data x = block dk (b_bno x);
}.

Record cache_ok (t : task) (P H : gset Z) (bs : list buffer) (sl : gmap slockid sleep_lock)
    (dk : disk) : Prop := {
  co_lru : ∃ l, lru bs l;
  co_buf : ∀ b x, (b < N_BUF)%nat → bs !! b = Some x → buf_ok t P H sl dk b x;
  co_uniq : ∀ bno b b' x x', cached bs bno b x → cached bs bno b' x' → b = b';
  co_cached : ∀ bno, bno ∈ P ∨ bno ∈ H → ∃ b x, cached bs bno b x;
  co_disk : ∀ bno d, dk !! bno = Some d → length d = Z.to_nat BLOCK_SIZE;
}.

(** The contents of a block as the file system sees it. *)
Definition view (bs : list buffer) (dk : disk) (bno : Z) : list Z :=
  match list_find (λ x, b_dev x = ROOT_DEV ∧ b_bno x = bno) (take N_BUF bs) with
  | Some (_, x) => b_data x
  | None => block dk bno
  end.

(** ** What the view shows *)

Lemma view_cases bs dk bno :
  (∃ b x, cached bs bno b x ∧ view bs dk bno = b_data x) ∨
  ((∀ b x, ¬ cached bs bno b x) ∧ view bs dk bno = block dk bno).
Proof.
  unfold view. destruct (list_find _ _) as [[b x]|] eqn:E.
  - left. apply list_find_Some in E as (Hx & [Hd Hb] & _). exists b, x. split; [|done].
    pose proof (lookup_lt_Some _ _ _ Hx) as Hlt. rewrite length_take in Hlt.
    rewrite lookup_take_lt in Hx by lia. split_and!; [lia|done..].
  - right. split; [|done]. intros b x (Hb & Hx & Hd & Hn). apply list_find_None in E.
    assert (take N_BUF bs !! b = Some x) as Hx' by by rewrite lookup_take_lt.
    by apply (Forall_lookup_1 _ _ _ _ E Hx').
Qed.

Section cache.
Context (t : task) (P H : gset Z) (bs : list buffer) (sl : gmap slockid sleep_lock) (dk : disk).
Context (Hc : cache_ok t P H bs sl dk).

Lemma view_cached bno b x : cached bs bno b x → view bs dk bno = b_data x.
Proof.
  intros Hb. destruct (view_cases bs dk bno) as [(b' & x' & Hb' & ->)|[Hno _]]; [|by destruct (Hno b x)].
  assert (b = b') as <- by by eapply (co_uniq _ _ _ _ _ _ Hc).
  destruct Hb as (_ & Hx & _), Hb' as (_ & Hx' & _). congruence.
Qed.

Lemma view_uncached bno : (∀ b x, ¬ cached bs bno b x) → view bs dk bno = block dk bno.
Proof. intros Hno. destruct (view_cases bs dk bno) as [(b & x & Hb & _)|[_ ?]]; [by destruct (Hno b x)|done]. Qed.

Lemma bs_len : length bs = S N_BUF.
Proof. destruct (co_lru _ _ _ _ _ _ Hc) as [l Hl]. apply Hl. Qed.

Lemma length_block bno : length (block dk bno) = Z.to_nat BLOCK_SIZE.
Proof.
  unfold block. destruct (dk !! bno) as [d|] eqn:E; cbn [from_option id]; [by eapply (co_disk _ _ _ _ _ _ Hc)|].
  apply length_replicate.
Qed.

Lemma length_view bno : length (view bs dk bno) = Z.to_nat BLOCK_SIZE.
Proof.
  destruct (view_cases bs dk bno) as [(b & x & (Hb & Hx & _) & ->)|[_ ->]]; [|apply length_block].
  by apply (co_buf _ _ _ _ _ _ Hc b x).
Qed.

(** A block that is neither pinned nor held is as on the disk. *)
Lemma view_clean bno : bno ∉ P → bno ∉ H → view bs dk bno = block dk bno.
Proof.
  intros HP HH. destruct (view_cases bs dk bno) as [(b & x & Hb & ->)|[_ ->]]; [|done].
  destruct Hb as (Hb & Hx & Hd & <-). by apply (co_buf _ _ _ _ _ _ Hc b x).
Qed.

(** With fewer than [N_BUF] blocks in use some buffer is free. *)
Lemma free_buffer :
  (size (P ∪ H) < N_BUF)%nat → ∃ b x, (b < N_BUF)%nat ∧ bs !! b = Some x ∧ b_refcnt x = 0.
Proof.
  intros Hsz. destruct (decide (Exists (λ b, from_option b_refcnt 1 (bs !! b) = 0) (seq 0 N_BUF))) as [He|Hno].
  { apply Exists_exists in He as (b & Hb & E). apply elem_of_seq in Hb. destruct (lookup_lt_is_Some_2 bs b) as [x Hx]; [rewrite bs_len; lia|].
    exists b, x. rewrite Hx in E. split_and!; [lia|done..]. }
  exfalso. assert (∀ b x, (b < N_BUF)%nat → bs !! b = Some x → b_dev x = ROOT_DEV ∧ b_bno x ∈ P ∪ H) as Hall.
  { intros b x Hb Hx. assert (b_refcnt x ≠ 0) as Hr.
    { intros E. apply Hno, Exists_exists. exists b. rewrite elem_of_seq, Hx. split; [lia|done]. }
    rewrite (bo_ref _ _ _ _ _ _ _ (co_buf _ _ _ _ _ _ Hc b x Hb Hx)) in Hr. unfold one in Hr.
    destruct (decide (b_dev x = ROOT_DEV)); [|done]. split; [done|]. rewrite elem_of_union.
    repeat case_decide; tauto || lia. }
  assert (length (b_bno <$> take N_BUF bs) ≤ length (elements (P ∪ H)))%nat as Hle.
  { apply submseteq_length, NoDup_submseteq.
    - apply NoDup_alt. intros i j n Hi Hj. rewrite list_lookup_fmap in Hi, Hj.
      apply fmap_Some in Hi as (x & Hx & ->), Hj as (y & Hy & E).
      apply lookup_take_Some in Hx as [Hx Hi], Hy as [Hy Hj].
      destruct (Hall i x Hi Hx), (Hall j y Hj Hy).
      by apply (co_uniq _ _ _ _ _ _ Hc (b_bno x) i j x y).
    - intros n (x & -> & (i & Hi)%list_elem_of_lookup)%list_elem_of_fmap.
      apply lookup_take_Some in Hi as [Hx Hi]. apply elem_of_elements. by apply (Hall i x). }
  rewrite length_fmap, length_take, bs_len, Nat.min_l in Hle by lia. unfold size, set_size in Hsz. simpl in Hsz. lia.
Qed.

End cache.

(** ** Changing one buffer *)

(** Buffer [b] becomes [y]; the sets, the lock of the buffer and the disk
    change only for the block that [y] caches. *)
Record change (t : task) (P H P' H' : gset Z) (bs : list buffer)
    (sl sl' : gmap slockid sleep_lock) (dk dk' : disk) (b : nat) (x y : buffer) : Prop := {
  ch_b : (b < N_BUF)%nat;
  ch_x : bs !! b = Some x;
  ch_next : b_next y = b_next x;
  ch_prev : b_prev y = b_prev x;
  ch_dev : b_dev y = ROOT_DEV;
  ch_sets : ∀ n, n ≠ b_bno y → ((n ∈ P') ↔ (n ∈ P)) ∧ ((n ∈ H') ↔ (n ∈ H)) ∧ dk' !! n = dk !! n;
  ch_sl : ∀ l, l ≠ SlBuf b → sl' !! l = sl !! l;
  ch_new : ∀ b' x', cached bs (b_bno y) b' x' → b' = b;
  ch_old : b_dev x = ROOT_DEV → b_bno x ≠ b_bno y →
    (b_bno x ∉ P) ∧ (b_bno x ∉ H) ∧ b_data x = block dk (b_bno x);
  ch_ok : buf_ok t P' H' sl' dk' b y;
  ch_len : ∀ d, dk' !! b_bno y = Some d → length d = Z.to_nat BLOCK_SIZE;
}.

Section change.
Context {t : task} {P H P' H' : gset Z} {bs : list buffer} {sl sl' : gmap slockid sleep_lock}.
Context {dk dk' : disk} {b : nat} {x y : buffer}.
Context (Hc : cache_ok t P H bs sl dk) (Hch : change t P H P' H' bs sl sl' dk dk' b x y).

Lemma change_lookup b' : <[b := y]> bs !! b' = if decide (b' = b) then Some y else bs !! b'.
Proof.
  pose proof (ch_x _ _ _ _ _ _ _ _ _ _ _ _ _ Hch) as Hx. case_decide as E.
  - subst b'. apply list_lookup_insert_eq. by eapply lookup_lt_Some.
  - by apply list_lookup_insert_ne.
Qed.

(** The other buffers cache other blocks. *)
Lemma change_other b' x' n :
  cached (<[b := y]> bs) n b' x' → (b' = b ∧ x' = y ∧ n = b_bno y) ∨ (b' ≠ b ∧ n ≠ b_bno y ∧ cached bs n b' x').
Proof.
  intros (Hb & Hx & Hd & Hn). rewrite change_lookup in Hx. case_decide as E.
  - left. by simplify_eq.
  - right. split_and!; [done| |done]. intros ->. apply E.
    by apply (ch_new _ _ _ _ _ _ _ _ _ _ _ _ _ Hch b' x').
Qed.

Lemma change_keeps b' x' n : b' ≠ b → cached bs n b' x' → cached (<[b := y]> bs) n b' x'.
Proof. intros Hne (Hb & Hx & Hd & Hn). split_and!; try done. by rewrite change_lookup, decide_False. Qed.

(** Held blocks stay in their buffers. *)
Lemma change_held b' x' n :
  n ∈ H → n ≠ b_bno y → cached bs n b' x' → cached (<[b := y]> bs) n b' x'.
Proof.
  intros Hn Hne C. apply change_keeps; [|done]. intros ->. destruct C as (_ & Hx' & Hd & <-).
  rewrite (ch_x _ _ _ _ _ _ _ _ _ _ _ _ _ Hch) in Hx'. injection Hx' as <-.
  by destruct (ch_old _ _ _ _ _ _ _ _ _ _ _ _ _ Hch Hd Hne) as (_ & ? & _).
Qed.

Lemma change_new : cached (<[b := y]> bs) (b_bno y) b y.
Proof. split_and!; try done; try apply Hch. by rewrite change_lookup, decide_True. Qed.

(** A buffer that does not cache the block is as well-formed as before. *)
Lemma buf_ok_other b' x' :
  b' ≠ b → (b_dev x' = ROOT_DEV → b_bno x' ≠ b_bno y) →
  buf_ok t P H sl dk b' x' → buf_ok t P' H' sl' dk' b' x'.
Proof.
  intros Hne Hn [H1 H2 H3 H4 H5 H6 H7].
  split; try done; rewrite ?(ch_sl _ _ _ _ _ _ _ _ _ _ _ _ _ Hch) by (intros [= ->]; done).
  - rewrite H5. destruct (decide (b_dev x' = ROOT_DEV)) as [E|]; [|done].
    destruct (ch_sets _ _ _ _ _ _ _ _ _ _ _ _ _ Hch _ (Hn E)) as (EP & EH & _). unfold one.
    f_equal; apply decide_ext; tauto.
  - destruct H6 as [name H6]. exists name. rewrite H6. f_equal. apply decide_ext.
    split; intros [E Hin]; (split; [done|]);
      destruct (ch_sets _ _ _ _ _ _ _ _ _ _ _ _ _ Hch _ (Hn E)) as (_ & EH & _); by apply EH.
  - intros E HP HH. destruct (ch_sets _ _ _ _ _ _ _ _ _ _ _ _ _ Hch _ (Hn E)) as (EP & EH & Ed).
    unfold block. rewrite Ed. apply H7; [done|by rewrite <-EP|by rewrite <-EH].
Qed.

Lemma cache_change : cache_ok t P' H' (<[b := y]> bs) sl' dk'.
Proof.
  pose proof Hc as [[l Hl] H2 H3 H4 H5]. split.
  - exists l. eapply lru_insert; [apply Hch..|done].
  - intros b' x' Hb Hx. pose proof Hx as Hx'. rewrite change_lookup in Hx'. case_decide as E.
    { simplify_eq. apply Hch. }
    apply buf_ok_other; [done| |by apply H2]. intros Hd Hn. apply E.
    by apply (ch_new _ _ _ _ _ _ _ _ _ _ _ _ _ Hch b' x').
  - intros n b1 b2 x1 x2 C1 C2.
    destruct (change_other _ _ _ C1) as [(-> & _ & ->)|(N1 & N1' & C1')],
      (change_other _ _ _ C2) as [(-> & _ & E2)|(N2 & N2' & C2')]; try done.
    by eapply H3.
  - intros n Hn. destruct (decide (n = b_bno y)) as [->|Hne]; [exists b, y; apply change_new|].
    destruct (ch_sets _ _ _ _ _ _ _ _ _ _ _ _ _ Hch n Hne) as (EP & EH & _).
    destruct (H4 n) as (b' & x' & Hx'); [tauto|]. exists b', x'. apply change_keeps; [|done].
    intros ->. destruct Hx' as (_ & Hx' & Hd & <-).
    rewrite (ch_x _ _ _ _ _ _ _ _ _ _ _ _ _ Hch) in Hx'. injection Hx' as <-.
    destruct (ch_old _ _ _ _ _ _ _ _ _ _ _ _ _ Hch Hd Hne) as (? & ? & _). tauto.
  - intros n d Hd. destruct (decide (n = b_bno y)) as [->|Hne]; [by eapply (ch_len _ _ _ _ _ _ _ _ _ _ _ _ _ Hch)|].
    destruct (ch_sets _ _ _ _ _ _ _ _ _ _ _ _ _ Hch n Hne) as (_ & _ & E). rewrite E in Hd. by eapply H5.
Qed.

Lemma view_change n :
  view (<[b := y]> bs) dk' n = if decide (n = b_bno y) then b_data y else view bs dk n.
Proof.
  case_decide as E.
  - subst n. eapply view_cached; [apply cache_change|apply change_new].
  - destruct (ch_sets _ _ _ _ _ _ _ _ _ _ _ _ _ Hch n E) as (_ & _ & Ed).
    destruct (view_cases bs dk n) as [(b' & x' & Hb' & ->)|[Hno ->]].
    + destruct (decide (b' = b)) as [->|Hne].
      * destruct Hb' as (_ & Hx' & Hd & <-). rewrite (ch_x _ _ _ _ _ _ _ _ _ _ _ _ _ Hch) in Hx'.
        injection Hx' as <-. destruct (ch_old _ _ _ _ _ _ _ _ _ _ _ _ _ Hch Hd E) as (_ & _ & ->).
        rewrite view_uncached; [unfold block; by rewrite Ed|]. intros b2 x2 Hb2.
        destruct (change_other _ _ _ Hb2) as [(_ & _ & ?)|(N2 & _ & C2)]; [done|]. apply N2.
        eapply (co_uniq _ _ _ _ _ _ Hc _ b2 b x2 x C2).
        split_and!; try done; apply Hch.
      * eapply view_cached; [apply cache_change|]. by apply change_keeps.
    + rewrite view_uncached; [unfold block; by rewrite Ed|]. intros b2 x2 Hb2.
      destruct (change_other _ _ _ Hb2) as [(_ & _ & ?)|(_ & _ & C2)]; [done|]. by apply (Hno b2 x2).
Qed.
End change.

(** ** Moving a buffer in the list *)

Lemma contents_lookup (bs bs' : list buffer) (b : nat) y :
  contents <$> bs' = contents <$> bs → bs' !! b = Some y →
  ∃ x, bs !! b = Some x ∧ contents y = contents x.
Proof.
  intros E Hy. apply (f_equal (.!! b)) in E. rewrite !list_lookup_fmap, Hy in E.
  destruct (bs !! b) as [x|]; [|done]. exists x. split; [done|]. exact (inj Some _ _ E).
Qed.

Lemma buf_ok_contents t P H sl dk b x y :
  contents y = contents x → buf_ok t P H sl dk b x → buf_ok t P H sl dk b y.
Proof.
  intros E [H1 H2 H3 H4 H5 H6 H7].
  pose proof (f_equal b_disk E : b_disk y = b_disk x) as E1.
  pose proof (f_equal b_dev E : b_dev y = b_dev x) as E2.
  pose proof (f_equal b_bno E : b_bno y = b_bno x) as E3.
  pose proof (f_equal b_refcnt E : b_refcnt y = b_refcnt x) as E4.
  pose proof (f_equal b_data E : b_data y = b_data x) as E5.
  split; rewrite ?E1, ?E2, ?E3, ?E4, ?E5; done.
Qed.

Lemma cached_contents bs bs' bno b y :
  contents <$> bs' = contents <$> bs → cached bs' bno b y →
  ∃ x, cached bs bno b x ∧ contents y = contents x.
Proof.
  intros E (Hb & Hy & Hd & Hn). destruct (contents_lookup _ _ _ _ E Hy) as (x & Hx & Ex).
  exists x. split; [|done].
  pose proof (f_equal b_dev Ex : b_dev y = b_dev x) as E2.
  pose proof (f_equal b_bno Ex : b_bno y = b_bno x) as E3.
  split_and!; [done|done|congruence..].
Qed.

Lemma cache_moved t P H bs bs' sl dk l' :
  contents <$> bs' = contents <$> bs → lru bs' l' →
  cache_ok t P H bs sl dk → cache_ok t P H bs' sl dk.
Proof.
  intros E Hl [_ H2 H3 H4 H5]. split; [by exists l'| | | |done].
  - intros b y Hb Hy. destruct (contents_lookup _ _ _ _ E Hy) as (x & Hx & Ex).
    eapply buf_ok_contents; [exact Ex|by apply H2].
  - intros n b b' y y' C1 C2. destruct (cached_contents _ _ _ _ _ E C1) as (x & C1' & _).
    destruct (cached_contents _ _ _ _ _ E C2) as (x' & C2' & _). by eapply H3.
  - intros n Hn. destruct (H4 n Hn) as (b & x & C).
    destruct (cached_contents bs' bs n b x) as (y & Cy & _); [done|done|]. by exists b, y.
Qed.

Lemma view_moved t P H bs bs' sl dk l' n :
  contents <$> bs' = contents <$> bs → lru bs' l' → cache_ok t P H bs sl dk →
  view bs' dk n = view bs dk n.
Proof.
  intros E Hl Hc. destruct (view_cases bs' dk n) as [(b & y & C & ->)|[Hno ->]].
  - destruct (cached_contents _ _ _ _ _ E C) as (x & Cx & Ex).
    rewrite (view_cached _ _ _ _ _ _ Hc _ _ _ Cx). exact (f_equal b_data Ex).
  - rewrite view_uncached; [done|]. intros b x C.
    destruct (cached_contents bs' bs n b x) as (y & Cy & _); [done|done|]. by apply (Hno b y).
Qed.

(** ** The changes that the operations make *)

Lemma one_bounds (Q : Prop) `{Decision Q} : 0 ≤ one Q ≤ 1.
Proof. unfold one. case_decide; lia. Qed.
Lemma one_true (Q : Prop) `{Decision Q} : Q → one Q = 1.
Proof. intros. unfold one. by rewrite decide_True. Qed.
Lemma one_false (Q : Prop) `{Decision Q} : ¬ Q → one Q = 0.
Proof. intros. unfold one. by rewrite decide_False. Qed.
Lemma one_ext (Q Q' : Prop) `{Decision Q, Decision Q'} : (Q ↔ Q') → one Q = one Q'.
Proof. intros. unfold one. by apply decide_ext. Qed.

Section changes.
Context {t : task} {P H : gset Z} {bs : list buffer} {sl : gmap slockid sleep_lock} {dk : disk}.
Context (Hc : cache_ok t P H bs sl dk) {bno : Z} {b : nat} {x : buffer} (Hb : cached bs bno b x).

Lemma cached_ok : buf_ok t P H sl dk b x.
Proof. destruct Hb as (? & ? & _). by apply Hc. Qed.

Lemma cached_refs : b_refcnt x = one (bno ∈ P) + one (bno ∈ H).
Proof.
  rewrite (bo_ref _ _ _ _ _ _ _ cached_ok). destruct Hb as (_ & _ & Hd & <-).
  by rewrite decide_True.
Qed.

(** A buffer that keeps its block. *)
Lemma change_same P' H' sl' dk' y :
  b_next y = b_next x → b_prev y = b_prev x → b_dev y = ROOT_DEV → b_bno y = bno →
  (∀ n, n ≠ bno → ((n ∈ P') ↔ (n ∈ P)) ∧ ((n ∈ H') ↔ (n ∈ H)) ∧ dk' !! n = dk !! n) →
  (∀ l, l ≠ SlBuf b → sl' !! l = sl !! l) →
  (∀ d, dk' !! bno = Some d → length d = Z.to_nat BLOCK_SIZE) →
  buf_ok t P' H' sl' dk' b y → change t P H P' H' bs sl sl' dk dk' b x y.
Proof.
  intros H1 H2 H3 H4 H5 H6 H7 H8. pose proof Hb as (Hlt & Hx & Hd & Hn).
  split; rewrite ?H4; try done.
  intros b' x' C. by eapply (co_uniq _ _ _ _ _ _ Hc).
Qed.

(** [bread] of a cached block. *)
Lemma change_hold name :
  bno ∉ H → sl !! SlBuf b = Some (mk_sleep_lock false (-1) name) →
  change t P H P ({[bno]} ∪ H) bs sl (<[SlBuf b := mk_sleep_lock true (t_pid t) name]> sl) dk dk b x
    (set_b_refcnt (u32 (b_refcnt x + 1)) x).
Proof.
  intros HH Hl. pose proof Hb as (Hlt & Hx & Hd & Hn). pose proof cached_ok as [H1 H2 H3 H4 H5 H6 H7].
  apply change_same; try done.
  - intros n Hne. set_solver.
  - intros l Hne. by rewrite lookup_insert_ne.
  - intros d. apply Hc.
  - split; try done; cbn [b_dev b_bno b_refcnt set_b_refcnt b_data].
    + rewrite cached_refs, decide_True, Hn, (one_false (bno ∈ H)), (one_true (bno ∈ {[bno]} ∪ H)) by set_solver.
      pose proof (one_bounds (bno ∈ P)). rewrite wrap_small by lia. lia.
    + exists name. rewrite lookup_insert_eq, decide_True by set_solver. done.
    + rewrite Hn. set_solver.
Qed.

(** Stores into the data of a held buffer. *)
Lemma change_data d :
  bno ∈ H → length d = Z.to_nat BLOCK_SIZE →
  change t P H P H bs sl sl dk dk b x (set_b_data d x).
Proof.
  intros HH Hl. pose proof Hb as (Hlt & Hx & Hd & Hn). pose proof cached_ok as [H1 H2 H3 H4 H5 H6 H7].
  apply change_same; try done; [intros d'; apply Hc|]. split; try done. simpl. rewrite Hn. tauto.
Qed.

(** [bwrite]. *)
Lemma change_write :
  bno ∈ H → change t P H P H bs sl sl dk (<[bno := b_data x]> dk) b x x.
Proof.
  intros HH. pose proof Hb as (Hlt & Hx & Hd & Hn). pose proof cached_ok as [H1 H2 H3 H4 H5 H6 H7].
  apply change_same; try done.
  - intros n Hne. by rewrite lookup_insert_ne.
  - intros d. rewrite lookup_insert_eq. by intros [= <-].
  - split; try done. rewrite Hn. tauto.
Qed.

(** [bpin] and [bunpin] of a held buffer. *)
Lemma change_pin :
  bno ∈ H → bno ∉ P →
  change t P H ({[bno]} ∪ P) H bs sl sl dk dk b x (set_b_refcnt (u32 (b_refcnt x + 1)) x).
Proof.
  intros HH HP. pose proof Hb as (Hlt & Hx & Hd & Hn). pose proof cached_ok as [H1 H2 H3 H4 H5 H6 H7].
  apply change_same; try done; [intros n Hne; set_solver|intros d'; apply Hc|].
  split; try done; cbn [b_dev b_bno b_refcnt set_b_refcnt b_data]; rewrite ?Hn; [|tauto].
  rewrite cached_refs, decide_True, (one_false (bno ∈ P)), (one_true (bno ∈ {[bno]} ∪ P)) by set_solver.
  pose proof (one_bounds (bno ∈ H)). rewrite wrap_small by lia. lia.
Qed.

Lemma change_unpin :
  bno ∈ H → bno ∈ P →
  change t P H (P ∖ {[bno]}) H bs sl sl dk dk b x (set_b_refcnt (u32 (b_refcnt x - 1)) x).
Proof.
  intros HH HP. pose proof Hb as (Hlt & Hx & Hd & Hn). pose proof cached_ok as [H1 H2 H3 H4 H5 H6 H7].
  apply change_same; try done; [intros n Hne; set_solver|intros d'; apply Hc|].
  split; try done; cbn [b_dev b_bno b_refcnt set_b_refcnt b_data]; rewrite ?Hn; [|tauto].
  rewrite cached_refs, decide_True, (one_true (bno ∈ P)), (one_false (bno ∈ P ∖ {[bno]})) by set_solver.
  pose proof (one_bounds (bno ∈ H)). rewrite wrap_small by lia. lia.
Qed.

(** [brelse]: the buffer is pinned or its data are on the disk. *)
Lemma change_drop name :
  bno ∈ H → (bno ∈ P ∨ b_data x = block dk bno) →
  change t P H P (H ∖ {[bno]}) bs sl (<[SlBuf b := mk_sleep_lock false (-1) name]> sl) dk dk b x
    (set_b_refcnt (u32 (b_refcnt x - 1)) x).
Proof.
  intros HH HP. pose proof Hb as (Hlt & Hx & Hd & Hn). pose proof cached_ok as [H1 H2 H3 H4 H5 H6 H7].
  apply change_same; try done.
  - intros n Hne. set_solver.
  - intros l Hne. by rewrite lookup_insert_ne.
  - intros d. apply Hc.
  - split; try done; cbn [b_dev b_bno b_refcnt set_b_refcnt b_data]; rewrite ?Hn.
    + rewrite cached_refs, decide_True, (one_true (bno ∈ H)), (one_false (bno ∈ H ∖ {[bno]})) by set_solver.
      pose proof (one_bounds (bno ∈ P)). rewrite wrap_small by lia. lia.
    + exists name. rewrite lookup_insert_eq, decide_False by set_solver. done.
    + intros _ HnP _. by destruct HP.
Qed.
End changes.

(** [bread] of a block that is not cached, into a free buffer. *)
Lemma change_load t P H bs sl dk bno b x name :
  cache_ok t P H bs sl dk → (b < N_BUF)%nat → bs !! b = Some x → b_refcnt x = 0 →
  (∀ b' x', ¬ cached bs bno b' x') → 0 ≤ bno < 2 ^ 31 →
  sl !! SlBuf b = Some (mk_sleep_lock false (-1) name) →
  let y := set_b_valid true (set_b_data (block dk bno)
             (set_b_refcnt 1 (set_b_valid false (set_b_bno bno (set_b_dev ROOT_DEV x))))) in
  change t P H P ({[bno]} ∪ H) bs sl (<[SlBuf b := mk_sleep_lock true (t_pid t) name]> sl) dk dk b x y.
Proof.
  intros Hc Hlt Hx Hr Hno Hbno Hl y. pose proof (co_buf _ _ _ _ _ _ Hc b x Hlt Hx) as [H1 H2 H3 H4 H5 H6 H7].
  assert ((bno ∉ P) ∧ (bno ∉ H)) as [HP HH].
  { split; intros Hin; destruct (co_cached _ _ _ _ _ _ Hc bno) as (b' & x' & C); auto; by apply (Hno b' x'). }
  split; try done; cbn [y b_dev b_bno b_refcnt b_data set_b_valid set_b_refcnt set_b_bno set_b_dev set_b_data].
  - intros n Hne. set_solver.
  - intros l Hne. by rewrite lookup_insert_ne.
  - intros b' x' C. by destruct (Hno b' x').
  - intros Hd Hne. rewrite decide_True in H5 by done. rewrite Hr in H5. unfold one in H5.
    destruct (decide (b_bno x ∈ P)), (decide (b_bno x ∈ H)); try lia.
    split_and!; [done|done|by apply H7].
  - split; try done; cbn [y b_dev b_bno b_refcnt b_data b_disk set_b_valid set_b_refcnt set_b_bno set_b_dev set_b_data].
    + by eapply length_block.
    + by right.
    + rewrite decide_True, (one_false (bno ∈ P)), (one_true (bno ∈ {[bno]} ∪ H)) by set_solver. lia.
    + exists name. rewrite lookup_insert_eq, decide_True by set_solver. done.
  - intros d. apply Hc.
Qed.
