(* ===== verification/BufOps.v ===== *)
(** The operations of the buffer cache (kernel/fs/buf.c) under their locks, as a
    task that alone uses the file system calls them: [bread] shows the contents
    of the block, and nothing that is visible changes but by stores into held
    buffers. *)

From S2P Require Import Prelude Mem State Machine Mm MmInit Proc Sync Virtio Buf Log Inode FsData ProcTheorems Env VirtioTheorems BufList BufCache.

(** ** Definitions *)

Record fs_locks (t : task) : Prop := {
  fl_cache : LBcache ∈ t_locks t;
  fl_disk : LDisk ∈ t_locks t;
  fl_log : LLog ∈ t_locks t;
  fl_buf : ∀ b, (b < N_BUF)%nat → LSleep (SlBuf b) ∈ t_locks t;
}.

(** The task runs, the driver is idle and the cache is well-formed. *)
Record fs_ok (t : task) (P H : gset Z) (s : kstate) : Prop := {
  fo_cpu : idle t s;
  fo_vd : disk_idle (k_vdisk s);
  fo_cache : cache_ok t P H (k_bufs s) (k_slocks s) (k_disk s);
}.

Abbreviation seen s := (view (k_bufs s) (k_disk s)).

(** The sleep locks that are not those of buffers. *)
Definition inode_lock (l : slockid) : bool := match l with SlInode _ => true | SlBuf _ => false end.
Definition inode_locks (sl : gmap slockid sleep_lock) : gmap slockid sleep_lock :=
  filter (λ p, inode_lock p.1 = true) sl.

(** What [fsim] forgets, the buffers and their locks. *)
Definition rcore (s : kstate) : kstate := set_k_bufs [] (set_k_slocks (inode_locks (k_slocks s)) (fcore s)).
Definition rsim (s s' : kstate) : Prop := rcore s = rcore s'.

#[export] Instance rsim_equiv : Equivalence rsim.
Proof.
  split; unfold rsim; [by intros s|by intros s s'|]. intros s s' s'' H1 H2. by rewrite H1.
Qed.

Lemma fsim_rsim s s' : fsim s s' → rsim s s'.
Proof. intros H. exact (f_equal (λ s, set_k_bufs [] (set_k_slocks (inode_locks (k_slocks s)) s)) H). Qed.

Lemma inode_locks_buf sl sl' b : (∀ l, l ≠ SlBuf b → sl' !! l = sl !! l) → inode_locks sl' = inode_locks sl.
Proof.
  intros E. apply map_eq. intros l. unfold inode_locks. destruct (inode_lock l) eqn:El.
  - rewrite !map_lookup_filter, E; [done|]. by intros ->.
  - rewrite !map_lookup_filter_None_2; [done|right; intros x _; simpl; by rewrite El..].
Qed.

(** A state that differs in the buffers and a lock of theirs. *)
Lemma rsim_bufs s s' bs sl b :
  (∀ l, l ≠ SlBuf b → sl !! l = k_slocks s !! l) → fsim (set_k_slocks sl (set_k_bufs bs s)) s' → rsim s s'.
Proof.
  intros E S. etrans; [|exact (fsim_rsim _ _ S)]. unfold rsim, rcore. cbn [k_slocks set_k_slocks].
  by rewrite (inode_locks_buf _ _ _ E).
Qed.

Lemma inode_locks_lookup sl sl' i : inode_locks sl = inode_locks sl' → sl !! SlInode i = sl' !! SlInode i.
Proof.
  intros E. apply (f_equal (λ sl, sl !! SlInode i)) in E. unfold inode_locks in E.
  rewrite !map_lookup_filter in E. by destruct (sl !! SlInode i), (sl' !! SlInode i).
Qed.

Section rsim.
Context (s s' : kstate) (H : rsim s s').
Lemma rsim_k_log : k_log s = k_log s'.
Proof. exact (f_equal k_log H). Qed.
Lemma rsim_k_sb : k_sb s = k_sb s'.
Proof. exact (f_equal k_sb H). Qed.
Lemma rsim_k_disk : k_disk s = k_disk s'.
Proof. exact (f_equal k_disk H). Qed.
Lemma rsim_k_dwrites : k_dwrites s = k_dwrites s'.
Proof. exact (f_equal k_dwrites H). Qed.
Lemma rsim_k_inodes : k_inodes s = k_inodes s'.
Proof. exact (f_equal k_inodes H). Qed.
Lemma rsim_k_mem : k_mem s = k_mem s'.
Proof. exact (f_equal k_mem H). Qed.
Lemma rsim_k_free : k_free s = k_free s'.
Proof. exact (f_equal k_free H). Qed.
Lemma rsim_inode_lock i : k_slocks s !! SlInode i = k_slocks s' !! SlInode i.
Proof. apply inode_locks_lookup. exact (f_equal k_slocks H). Qed.
Lemma rsim_set_log v : rsim (set_k_log v s) (set_k_log v s').
Proof. exact (f_equal (set_k_log v) H). Qed.
End rsim.

(** Block [bno] is in the held buffer [b]. *)
Definition holds (s : kstate) (bno : Z) (b : nat) (d : list Z) : Prop :=
  ∃ x, cached (k_bufs s) bno b x ∧ b_data x = d.

(** The buffers held for other blocks than [bno] are still held. *)
Definition kept (H : gset Z) (bno : Z) (s s' : kstate) : Prop :=
  ∀ n b d, n ∈ H → n ≠ bno → holds s n b d → holds s' n b d.

(** ** Lemmas *)

Lemma fs_ok_fsim t P H s s' :
  fsim s s' → idle t s' → disk_idle (k_vdisk s') →
  cache_ok t P H (k_bufs s) (k_slocks s) (k_disk s) → fs_ok t P H s'.
Proof.
  intros S H1 H2 Hc. split; [done|done|].
  by rewrite <-(fsim_k_bufs _ _ S), <-(fsim_k_slocks _ _ S), <-(fsim_k_disk _ _ S).
Qed.

Lemma holds_seen t P H s bno b d :
  fs_ok t P H s → holds s bno b d → seen s bno = d.
Proof. intros [_ _ Hc] (x & C & <-). by eapply view_cached. Qed.

(** A change of one buffer, carried over to the state. *)
Lemma fs_ok_change t P H P' H' s s' sl' b x y :
  change t P H P' H' (k_bufs s) (k_slocks s) sl' (k_disk s) (k_disk s) b x y →
  fs_ok t P H s → fsim (set_k_slocks sl' (set_k_bufs (<[b := y]> (k_bufs s)) s)) s' →
  idle t s' → disk_idle (k_vdisk s') →
  fs_ok t P' H' s' ∧ holds s' (b_bno y) b (b_data y) ∧
  (∀ n, seen s' n = if decide (n = b_bno y) then b_data y else seen s n) ∧ rsim s s' ∧
  kept H (b_bno y) s s'.
Proof.
  intros Hch [_ _ Hc] S Hi Hv. split_and!.
  - eapply fs_ok_fsim; [exact S|done|done|]. exact (cache_change Hc Hch).
  - exists y. split; [|done]. rewrite <-(fsim_k_bufs _ _ S). exact (change_new Hch).
  - intros n. rewrite <-(fsim_k_bufs _ _ S), <-(fsim_k_disk _ _ S). exact (view_change Hc Hch n).
  - exact (rsim_bufs _ _ _ _ _ (ch_sl _ _ _ _ _ _ _ _ _ _ _ _ _ Hch) S).
  - intros n b' d Hn Hne (z & C & Hd). exists z. split; [|done]. rewrite <-(fsim_k_bufs _ _ S).
    exact (change_held Hch _ _ _ Hn Hne C).
Qed.

Lemma upd_buf_eq b f x s :
  k_bufs s !! b = Some x → upd_buf b f s = Ok tt (set_k_bufs (<[b := f x]> (k_bufs s)) s).
Proof. intros Hx. unfold upd_buf, modify. by rewrite (alter_known _ _ _ _ Hx). Qed.

Lemma on_cpu_slocks t n held s v : on_cpu t n held s → on_cpu t n held (set_k_slocks v s).
Proof. intros H. by eapply on_cpu_sim. Qed.

Section ops.
Context `{DV : Device} `{RN : Rounds} (R : env) `{DK : !Disk R} (t : task) (FL : fs_locks t).
Context (Hrounds : (1 < rounds)%nat).

(** The end of [bread] of a cached block: its lock is free. *)
Lemma bread_hit P H s s1 bno b x :
  fs_ok t P H s → on_cpu t 1 {[LBcache]} s1 → sim s s1 → cached (k_bufs s1) bno b x → bno ∉ H →
  eruns R (upd_buf b (λ x, set_b_refcnt (u32 (b_refcnt x + 1)) x);;
           spin_lock_release LBcache;; sleep_lock_acquire (SlBuf b);; mret b) s1
    (λ b s', fs_ok t P ({[bno]} ∪ H) s' ∧ holds s' bno b (seen s bno) ∧
       (∀ n, seen s' n = seen s n) ∧ rsim s s' ∧ kept H bno s s').
Proof.
  intros Hs H1 S1 C HH. pose proof Hs as [Hi Hv Hc]. rewrite <-(sim_k_bufs _ _ S1) in C.
  pose proof C as (Hlt & Hx & Hd & Hn).
  destruct (bo_lock _ _ _ _ _ _ _ (cached_ok Hc C)) as [name Hl].
  rewrite decide_False in Hl by (rewrite Hn; tauto).
  pose proof (view_cached _ _ _ _ _ _ Hc _ _ _ C) as Hview.
  pose proof (change_hold Hc C name HH Hl) as Hch.
  estep. eapply eruns_runs, runs_ok; [apply (upd_buf_eq _ _ x); by rewrite <-(sim_k_bufs _ _ S1)|].
  rewrite <-(sim_k_bufs _ _ S1). set (y := set_b_refcnt _ x) in *.
  estep. ecallr (release1 t LBcache _ (on_cpu_bufs _ _ _ _ _ H1) (fl_cache _ FL)). intros [] s2 [H2 S2].
  estep. ecall (sleep_lock_acquire_spec R t (SlBuf b) name s2); [lia|done|by apply FL| |].
  { rewrite <-(sim_k_slocks _ _ S2). simpl. by rewrite <-(sim_k_slocks _ _ S1). }
  intros [] s3 [H3 S3]. estep.
  assert (sim (set_k_slocks (<[SlBuf b := mk_sleep_lock true (t_pid t) name]> (k_slocks s))
    (set_k_bufs (<[b := y]> (k_bufs s)) s)) s3) as S.
  { etrans; [|exact S3]. rewrite <-(sim_k_slocks _ _ S2). cbn [k_slocks set_k_bufs].
    rewrite <-(sim_k_slocks _ _ S1). apply set_k_slocks_proper. etrans; [|exact S2].
    by apply set_k_bufs_proper. }
  destruct (fs_ok_change t P H P ({[bno]} ∪ H) s s3 _ b x y Hch Hs (sim_fsim _ _ S) H3) as (Ha & Hb & Hcv & Hr & Hkp).
  { by rewrite <-(sim_k_vdisk _ _ S). }
  change (b_bno y) with (b_bno x) in *. change (b_data y) with (b_data x) in *. rewrite Hn in *.
  split_and!; [done|by rewrite Hview| |done|done].
  intros n. rewrite Hcv. case_decide as E; [|done]. by subst n.
Qed.

(** The end of [bread] of another block: a free buffer is filled. *)
Lemma bread_miss P H s s1 bno b x :
  fs_ok t P H s → on_cpu t 1 {[LBcache]} s1 → sim s s1 →
  (b < N_BUF)%nat → k_bufs s1 !! b = Some x → b_refcnt x = 0 →
  (∀ b' x', ¬ cached (k_bufs s1) bno b' x') → 0 ≤ bno < 2 ^ 31 →
  eruns R (upd_buf b (set_b_dev ROOT_DEV);; upd_buf b (set_b_bno bno);;
           upd_buf b (set_b_valid false);; upd_buf b (set_b_refcnt 1);;
           spin_lock_release LBcache;; sleep_lock_acquire (SlBuf b);;
           virtio_disk_read b;; upd_buf b (set_b_valid true);; mret b) s1
    (λ b s', fs_ok t P ({[bno]} ∪ H) s' ∧ holds s' bno b (seen s bno) ∧
       (∀ n, seen s' n = seen s n) ∧ rsim s s' ∧ kept H bno s s').
Proof.
  intros Hs H1 S1 Hlt Hx Hr0 Hno Hbno. pose proof Hs as [Hi Hv Hc].
  pose proof (sim_k_bufs _ _ S1) as B1. rewrite <-B1 in Hx, Hno.
  pose proof (co_buf _ _ _ _ _ _ Hc b x Hlt Hx) as Hbo.
  destruct (bo_lock _ _ _ _ _ _ _ Hbo) as [name Hl].
  rewrite decide_False in Hl.
  2:{ intros [Hd HinH]. pose proof (bo_ref _ _ _ _ _ _ _ Hbo) as Hr.
      rewrite decide_True, (one_true (b_bno x ∈ H)) in Hr by done. pose proof (one_bounds (b_bno x ∈ P)). lia. }
  pose proof (change_load t P H _ _ _ bno b x name Hc Hlt Hx Hr0 Hno Hbno Hl) as Hch. cbv zeta in Hch.
  set (y0 := set_b_refcnt 1 (set_b_valid false (set_b_bno bno (set_b_dev ROOT_DEV x)))) in *.
  set (y := set_b_valid true (set_b_data (block (k_disk s) bno) y0)) in *.
  assert (∀ (u : list buffer) v w, <[b := w]> (<[b := v]> u) = <[b := w]> u) as Hii by (intros; apply list_insert_insert_eq).
  assert (b < length (k_bufs s))%nat as Hlb by by eapply lookup_lt_Some.
  estep. eapply eruns_runs, runs_ok; [apply (upd_buf_eq _ _ x); by rewrite <-B1|].
  do 3 (estep; eapply eruns_runs, runs_ok; [apply upd_buf_eq; simpl; apply list_lookup_insert_eq;
    rewrite ?length_insert, <-B1; done|]; simpl; rewrite ?Hii). fold y0. rewrite <-B1.
  match goal with |- eruns _ _ ?s' _ => change s' with (set_k_bufs (<[b := y0]> (k_bufs s)) s1) end.
  estep. ecallr (release1 t LBcache _ (on_cpu_bufs _ _ _ _ _ H1) (fl_cache _ FL)). intros [] s2 [H2 S2].
  estep. ecall (sleep_lock_acquire_spec R t (SlBuf b) name s2); [lia|done|by apply FL| |].
  { rewrite <-(sim_k_slocks _ _ S2). simpl. by rewrite <-(sim_k_slocks _ _ S1). }
  intros [] s3 [H3 S3].
  assert (sim (set_k_slocks (<[SlBuf b := mk_sleep_lock true (t_pid t) name]> (k_slocks s))
    (set_k_bufs (<[b := y0]> (k_bufs s)) s)) s3) as S.
  { etrans; [|exact S3]. rewrite <-(sim_k_slocks _ _ S2). cbn [k_slocks set_k_bufs].
    rewrite <-(sim_k_slocks _ _ S1). apply set_k_slocks_proper. etrans; [|exact S2].
    by apply set_k_bufs_proper. }
  pose proof (sim_k_bufs _ _ S) as B3. simpl in B3.
  estep. unfold virtio_disk_read. ecall (virtio_disk_rw_spec R t b y0 false s3);
    [done|done|apply FL|by rewrite <-(sim_k_vdisk _ _ S)|by rewrite <-B3; apply list_lookup_insert_eq|done|apply Hbo|].
  intros [] s4 (H4 & V4 & S4).
  assert (fsim (set_k_slocks (<[SlBuf b := mk_sleep_lock true (t_pid t) name]> (k_slocks s))
    (set_k_bufs (<[b := set_b_data (block (k_disk s) bno) y0]> (k_bufs s)) s)) s4) as S'.
  { etrans; [|exact S4]. unfold transferred, dblock. rewrite <-B3, <-(sim_k_disk _ _ S), Hii.
    exact (fsim_set_bufs _ _ (sim_fsim _ _ S) _). }
  estep. eapply eruns_runs, runs_ok.
  { apply upd_buf_eq. rewrite <-(fsim_k_bufs _ _ S'). by apply list_lookup_insert_eq. }
  estep. rewrite <-(fsim_k_bufs _ _ S'). cbn [k_bufs set_k_slocks set_k_bufs]. rewrite Hii.
  destruct (fs_ok_change t P H P ({[bno]} ∪ H) s (set_k_bufs (<[b := y]> (k_bufs s)) s4) _ b x y Hch Hs)
    as (Ha & Hb & Hcv & Hr & Hkp); [exact (fsim_set_bufs _ _ S' _)|by apply on_cpu_bufs|done|].
  assert (seen s bno = b_data y) as Hsee by by apply view_uncached.
  split_and!; [done|by rewrite Hsee| |done|done].
  intros n. rewrite Hcv. case_decide as E; [|done]. by subst n.
Qed.

(** [bread] holds the block afterwards and shows its contents. *)
Lemma bread_spec P H bno s :
  fs_ok t P H s → bno ∉ H → 0 ≤ bno < 2 ^ 31 → bno ∈ P ∨ (size (P ∪ H) < N_BUF)%nat →
  eruns R (bread ROOT_DEV bno) s (λ b s', fs_ok t P ({[bno]} ∪ H) s' ∧
    holds s' bno b (seen s bno) ∧ (∀ n, seen s' n = seen s n) ∧ rsim s s' ∧ kept H bno s s').
Proof.
  intros Hs HH Hbno Hsz. pose proof Hs as [Hi Hv Hc]. unfold bread.
  estep. ecallr (acquire0 t _ s Hi (fl_cache _ FL)). intros [] s1 [H1 S1].
  pose proof (sim_k_bufs _ _ S1) as B1. destruct (co_lru _ _ _ _ _ _ Hc) as [l Hl]. rewrite B1 in Hl.
  destruct (bfind_next (λ x, (b_dev x =? ROOT_DEV) && (b_bno x =? bno)) s1 l Hl) as (r & Er & Hfd).
  estep. eapply eruns_runs, runs_ok; [exact Er|]. destruct r as [b|].
  { destruct Hfd as [Hin (x & Hx & [E1%Z.eqb_eq E2%Z.eqb_eq]%andb_true_iff)].
    apply (bread_hit P H s s1 bno b x); try done. split_and!; try done. by apply (lru_elem _ _ _ Hl). }
  assert (∀ b x, ¬ cached (k_bufs s1) bno b x) as Hno.
  { intros b x (Hlt & Hx & E1 & E2).
    assert ((b_dev x =? ROOT_DEV) && (b_bno x =? bno) = false) as E
      by (apply (Hfd b x); [by apply (lru_elem _ _ _ Hl)|done]).
    by rewrite E1, E2, !Z.eqb_refl in E. }
  assert (size (P ∪ H) < N_BUF)%nat as Hlt.
  { destruct Hsz as [HP|]; [|done]. destruct (co_cached _ _ _ _ _ _ Hc bno) as (b & x & C); [auto|].
    rewrite B1 in C. by destruct (Hno b x). }
  destruct (bfind_prev (λ x, b_refcnt x =? 0) s1 l Hl) as (r & Er2 & Hfd2).
  estep. eapply eruns_runs, runs_ok; [exact Er2|]. destruct r as [b|].
  - destruct Hfd2 as [Hin (x & Hx & E%Z.eqb_eq)].
    apply (bread_miss P H s s1 bno b x); try done. by apply (lru_elem _ _ _ Hl).
  - exfalso. destruct (free_buffer _ _ _ _ _ _ Hc Hlt) as (b & x & Hb & Hx & E). rewrite B1 in Hx.
    assert ((b_refcnt x =? 0) = false) as Ef by apply (Hfd2 b x (proj2 (lru_elem _ _ _ Hl) Hb) Hx).
    by rewrite E in Ef.
Qed.

(** Reading and storing into a held buffer. *)
Lemma buf_data_spec s bno b d :
  holds s bno b d → runs (buf_data b) s (λ d' s', d' = d ∧ s' = s).
Proof.
  intros (x & (_ & Hx & _) & <-). unfold buf_data. kstep.
  eapply runs_ok; [by apply get_buf_eq|]. by kstep.
Qed.

Lemma set_buf_data_spec P H s bno b d f :
  fs_ok t P H s → bno ∈ H → holds s bno b d → length (f d) = Z.to_nat BLOCK_SIZE →
  runs (set_buf_data b f) s (λ _ s', fs_ok t P H s' ∧ holds s' bno b (f d) ∧
    (∀ n, seen s' n = if decide (n = bno) then f d else seen s n) ∧ rsim s s' ∧ kept H bno s s').
Proof.
  intros Hs HH (x & C & <-) Hl. pose proof Hs as [Hi Hv Hc]. pose proof C as (_ & Hx & _ & Hn).
  pose proof (change_data Hc C (f (b_data x)) HH Hl) as Hch. unfold set_buf_data.
  eapply runs_ok; [by apply upd_buf_eq|].
  destruct (fs_ok_change t P H P H s (set_k_bufs (<[b := set_b_data (f (b_data x)) x]> (k_bufs s)) s) _ b x _
    Hch Hs) as (Ha & Hb & Hcv & Hr & Hkp); [done|by apply on_cpu_bufs|done|].
  cbn [b_bno b_data set_b_data] in *. rewrite Hn in *. done.
Qed.

(** [bwrite] of a held buffer. *)
Lemma bwrite_spec P H s bno b d :
  fs_ok t P H s → bno ∈ H → holds s bno b d →
  eruns R (bwrite b) s (λ _ s', fs_ok t P H s' ∧ holds s' bno b d ∧ (∀ n, seen s' n = seen s n) ∧
    rsim (set_k_dwrites ((bno, d) :: k_dwrites s) (set_k_disk (<[bno := d]> (k_disk s)) s)) s' ∧ kept H bno s s').
Proof.
  intros Hs HH (x & C & <-). pose proof Hs as [Hi Hv Hc]. pose proof C as (Hlt & Hx & Hd & Hn).
  pose proof (cached_ok Hc C) as Hbo. destruct (bo_lock _ _ _ _ _ _ _ Hbo) as [name Hl].
  rewrite decide_True in Hl by (by rewrite Hn). unfold bwrite. estep.
  ecallr (sleep_lock_holding_spec t (SlBuf b) _ s Hi (fl_buf _ FL b Hlt) Hl). intros r s1 (-> & H1 & S1).
  cbn [slk_locked slk_pid andb]. rewrite Z.eqb_refl. cbn [negb]. unfold virtio_disk_write.
  ecall (virtio_disk_rw_spec R t b x true s1); [done|done|apply FL|by rewrite <-(sim_k_vdisk _ _ S1)|
    by rewrite <-(sim_k_bufs _ _ S1)|apply Hbo|apply Hbo|]. intros [] s2 (H2 & V2 & S2).
  assert (fsim (set_k_dwrites ((bno, b_data x) :: k_dwrites s)
    (set_k_disk (<[bno := b_data x]> (k_disk s)) s)) s2) as S.
  { etrans; [|exact S2]. unfold transferred. rewrite <-(sim_k_dwrites _ _ S1), <-(sim_k_disk _ _ S1), Hn.
    by apply fsim_set_dwrites, fsim_set_disk, sim_fsim. }
  pose proof (change_write Hc C HH) as Hch. pose proof (fsim_k_bufs _ _ S) as B2. simpl in B2.
  pose proof (cache_change Hc Hch) as Hc'. rewrite list_insert_id in Hc' by done. split_and!.
  - by eapply fs_ok_fsim.
  - exists x. by rewrite <-B2.
  - intros n. rewrite <-B2, <-(fsim_k_disk _ _ S). cbn [k_disk set_k_dwrites set_k_disk].
    pose proof (view_change Hc Hch n) as Hvc. rewrite list_insert_id in Hvc by done. rewrite Hvc.
    case_decide as E; [|done]. subst n. symmetry. eapply view_cached; [done|by rewrite Hn].
  - by apply fsim_rsim.
  - intros n b' d Hn' Hne (z & Cz & Hz). exists z. by rewrite <-B2.
Qed.

(** The count of a held buffer, under the lock of the cache. *)
Lemma refcnt_section P H P' s bno b d f (m : KM unit) :
  fs_ok t P H s → holds s bno b d →
  (∀ x, cached (k_bufs s) bno b x → b_data x = d →
     (∀ s1, k_bufs s1 = k_bufs s → m s1 = Ok tt (set_k_bufs (<[b := set_b_refcnt (f x) x]> (k_bufs s1)) s1)) ∧
     change t P H P' H (k_bufs s) (k_slocks s) (k_slocks s) (k_disk s) (k_disk s) b x
       (set_b_refcnt (f x) x)) →
  runs (spin_lock_acquire LBcache;; m;; spin_lock_release LBcache) s (λ _ s',
    fs_ok t P' H s' ∧ holds s' bno b d ∧ (∀ n, seen s' n = seen s n) ∧ rsim s s' ∧ kept H bno s s').
Proof.
  intros Hs (x & C & <-) Hm. pose proof Hs as [Hi Hv Hc]. pose proof C as (_ & Hx & _ & Hn).
  destruct (Hm x C eq_refl) as [Em Hch].
  kstep. kcall (acquire0 t _ s Hi (fl_cache _ FL)). intros [] s1 [H1 S1].
  pose proof (sim_k_bufs _ _ S1) as B1. kstep. eapply runs_ok; [by apply Em|].
  kcall (release1 t LBcache _ (on_cpu_bufs _ _ _ _ _ H1) (fl_cache _ FL)). intros [] s2 [H2 S2].
  assert (fsim (set_k_bufs (<[b := set_b_refcnt (f x) x]> (k_bufs s)) s) s2) as S.
  { etrans; [|exact (sim_fsim _ _ S2)]. rewrite B1. by apply fsim_set_bufs, sim_fsim. }
  destruct (fs_ok_change t P H P' H s s2 (k_slocks s) b x _ Hch Hs) as (Ha & Hb & Hcv & Hr & Hkp);
    [done|done|by rewrite <-(sim_k_vdisk _ _ S2); simpl; rewrite <-(sim_k_vdisk _ _ S1)|].
  cbn [b_bno b_data set_b_refcnt] in *. rewrite Hn in *. split_and!; [done|done| |done|done].
  intros n. rewrite Hcv. case_decide as E; [|done]. subst n. symmetry. by eapply view_cached.
Qed.

Lemma bpin_spec P H s bno b d :
  fs_ok t P H s → bno ∈ H → bno ∉ P → holds s bno b d →
  runs (bpin b) s (λ _ s', fs_ok t ({[bno]} ∪ P) H s' ∧ holds s' bno b d ∧
    (∀ n, seen s' n = seen s n) ∧ rsim s s' ∧ kept H bno s s').
Proof.
  intros Hs HH HP Hb. unfold bpin. pose proof Hs as [Hi Hv Hc].
  apply (refcnt_section P H _ s bno b d (λ x, u32 (b_refcnt x + 1))); [done|done|].
  intros x C Hd. split; [|by apply change_pin]. intros s1 B1. pose proof C as (_ & Hx & _).
  erewrite bind_ok by (apply get_buf_eq; by rewrite B1). rewrite (proj2 (Z.ltb_ge _ _)).
  - apply (upd_buf_eq _ _ x). by rewrite B1.
  - rewrite (cached_refs Hc C), (one_true (bno ∈ H)) by done. pose proof (one_bounds (bno ∈ P)). lia.
Qed.

Lemma bunpin_spec P H s bno b d :
  fs_ok t P H s → bno ∈ H → bno ∈ P → holds s bno b d →
  runs (bunpin b) s (λ _ s', fs_ok t (P ∖ {[bno]}) H s' ∧ holds s' bno b d ∧
    (∀ n, seen s' n = seen s n) ∧ rsim s s' ∧ kept H bno s s').
Proof.
  intros Hs HH HP Hb. unfold bunpin. pose proof Hs as [Hi Hv Hc].
  apply (refcnt_section P H _ s bno b d (λ x, u32 (b_refcnt x - 1))); [done|done|].
  intros x C Hd. split; [|by apply change_unpin]. intros s1 B1. pose proof C as (_ & Hx & _).
  erewrite bind_ok by (apply get_buf_eq; by rewrite B1). rewrite (proj2 (Z.ltb_ge _ _)).
  - apply (upd_buf_eq _ _ x). by rewrite B1.
  - rewrite (cached_refs Hc C), (one_true (bno ∈ H)) by done. pose proof (one_bounds (bno ∈ P)). lia.
Qed.

(** [brelse] of a held buffer, which is pinned or as on the disk. *)
Lemma brelse_spec P H s bno b d :
  fs_ok t P H s → bno ∈ H → holds s bno b d → bno ∈ P ∨ d = block (k_disk s) bno →
  runs (brelse b) s (λ _ s', fs_ok t P (H ∖ {[bno]}) s' ∧ (∀ n, seen s' n = seen s n) ∧ rsim s s' ∧ kept H bno s s').
Proof.
  intros Hs HH (x & C & <-) Hcl. pose proof Hs as [Hi Hv Hc]. pose proof C as (Hlt & Hx & Hd & Hn).
  destruct (bo_lock _ _ _ _ _ _ _ (cached_ok Hc C)) as [name Hl].
  rewrite decide_True in Hl by (by rewrite Hn). unfold brelse. kstep.
  kcall (sleep_lock_release_spec t (SlBuf b) name s Hi (fl_buf _ FL b Hlt) Hl). intros [] s1 [H1 S1].
  kstep. kcall (acquire0 t _ s1 H1 (fl_cache _ FL)). intros [] s2 [H2 S2].
  assert (sim (set_k_slocks (<[SlBuf b := mk_sleep_lock false (-1) name]> (k_slocks s)) s) s2) as S by by etrans.
  pose proof (sim_k_bufs _ _ S) as B2. simpl in B2.
  pose proof (change_drop Hc C name HH Hcl) as Hch. set (y := set_b_refcnt _ x) in *.
  pose proof (cache_change Hc Hch) as Hc'. pose proof (bs_len _ _ _ _ _ _ Hc') as Hlen.
  assert (<[b := y]> (k_bufs s) !! b = Some y) as Hy by (apply list_lookup_insert_eq; by eapply lookup_lt_Some).
  kstep. kstep. eapply runs_ok; [apply (upd_buf_eq _ _ x); by rewrite <-B2|]. rewrite <-B2. fold y.
  kstep. eapply runs_ok; [by apply get_buf_eq|].
  set (s3 := set_k_bufs (<[b := y]> (k_bufs s)) s2).
  assert (runs (when (b_refcnt y =? 0) (upd_buf (b_next y) (set_b_prev (b_prev y));;
    upd_buf (b_prev y) (set_b_next (b_next y));; link_front b)) s3 (λ _ s', ∃ bs' l',
      s' = set_k_bufs bs' s2 ∧ contents <$> bs' = contents <$> <[b := y]> (k_bufs s) ∧ lru bs' l')) as Hrun.
  { destruct (co_lru _ _ _ _ _ _ Hc') as [l Hl']. kstep; intros _; [|by exists (<[b := y]> (k_bufs s)), l].
    eapply runs_ok; [by apply relink_eq|]. apply (lru_elem _ _ _ Hl') in Hlt as Hin.
    apply list_elem_of_split in Hin as (l1 & l2 & ->).
    exists (to_front b (<[b := y]> (k_bufs s))), (b :: l1 ++ l2).
    split_and!; [done|apply contents_to_front|by apply lru_to_front]. }
  eapply runs_conseq; [exact Hrun|]. intros [] s4 (bs' & l' & -> & Ec & Hl').
  kcall (release1 t LBcache _ (on_cpu_bufs _ _ _ _ _ H2) (fl_cache _ FL)). intros [] s5 [H5 S5].
  pose proof (cache_moved _ _ _ _ _ _ _ _ Ec Hl' Hc') as Hc''.
  assert (fsim (set_k_bufs bs' (set_k_slocks (<[SlBuf b := mk_sleep_lock false (-1) name]> (k_slocks s)) s)) s5) as S'.
  { etrans; [|exact (sim_fsim _ _ S5)]. by apply fsim_set_bufs, sim_fsim. }
  split_and!.
  - eapply fs_ok_fsim; [exact S'|done| |done]. by rewrite <-(sim_k_vdisk _ _ S5); simpl; rewrite <-(sim_k_vdisk _ _ S).
  - intros n. rewrite <-(fsim_k_bufs _ _ S'), <-(fsim_k_disk _ _ S'). cbn [k_bufs k_disk set_k_bufs set_k_slocks].
    rewrite (view_moved _ _ _ _ _ _ _ _ _ Ec Hl' Hc'), (view_change Hc Hch). case_decide as E; [|done].
    subst n. rewrite <-Hn in C. exact (eq_sym (view_cached _ _ _ _ _ _ Hc _ _ _ C)).
  - refine (rsim_bufs s s5 bs' _ b _ S'). apply Hch.
  - intros n b' d Hn' Hne (z & Cz & Hz). rewrite <-Hn in Hne.
    pose proof (change_held Hch _ _ _ Hn' Hne Cz) as Cz'.
    destruct (cached_contents bs' _ _ _ _ (eq_sym Ec) Cz') as (z' & Cz'' & Ez). exists z'. split.
    + by rewrite <-(fsim_k_bufs _ _ S').
    + rewrite <-Hz. exact (eq_sym (f_equal b_data Ez)).
Qed.

(** C26: The buffer cache is a coherent cache of the disk. Reading a block
    through it shows the last contents stored, a store is seen by later readers
    of that block alone, [bwrite] puts it on the disk, and the invariant of the
    cache holds again: every buffer is in the list once, no block has two
    buffers, and the reference counts count the pins and the holders. *)
Theorem cached_update P n f s :
  fs_ok t P ∅ s → 0 ≤ n < 2 ^ 31 → n ∈ P ∨ (size P < N_BUF)%nat →
  (∀ d, length d = Z.to_nat BLOCK_SIZE → length (f d) = Z.to_nat BLOCK_SIZE) →
  eruns R (b ← bread ROOT_DEV n; d ← buf_data b; set_buf_data b f;; bwrite b;; brelse b;; mret d) s
    (λ d s', d = seen s n ∧ fs_ok t P ∅ s' ∧ k_disk s' = <[n := f d]> (k_disk s) ∧
      ∀ m, seen s' m = if decide (m = n) then f d else seen s m).
Proof.
  intros Hs Hn Hsz Hf. estep. ecall (bread_spec P ∅ n s Hs); [set_solver|done|by rewrite (right_id_L ∅ (∪))|].
  intros b s1 (H1 & B1 & V1 & R1 & _). rewrite (right_id_L ∅ (∪)) in H1.
  estep. ecallr (buf_data_spec s1 n b _ B1). intros ? ? [-> ->].
  estep. ecallr (set_buf_data_spec P _ s1 n b _ f H1); [set_solver|done|apply Hf; eapply length_view, Hs|].
  intros [] s2 (H2 & B2 & V2 & R2 & _).
  estep. ecall (bwrite_spec P _ s2 n b _ H2); [set_solver|done|]. intros [] s3 (H3 & B3 & V3 & R3 & _).
  pose proof (rsim_k_disk _ _ R3) as D3. cbn [k_disk set_k_dwrites set_k_disk] in D3.
  rewrite <-(rsim_k_disk _ _ R2), <-(rsim_k_disk _ _ R1) in D3.
  estep. ecallr (brelse_spec P _ s3 n b _ H3); [set_solver|done| |].
  { right. rewrite <-D3. unfold block. by rewrite lookup_insert_eq. }
  intros [] s4 (H4 & V4 & R4 & _). rewrite difference_diag_L in H4. estep.
  split_and!; [done|done|by rewrite <-(rsim_k_disk _ _ R4)|]. intros m. by rewrite V4, V3, V2, V1.
Qed.
End ops.
