(* ===== verification/LogOps.v ===== *)
(** The write-ahead log (kernel/fs/log.c): the blocks that its steps write to
    the disk, in order. *)

From S2P Require Import Prelude Mem State Machine Mm MmInit Proc Sync Virtio Buf Log Inode FsData ProcTheorems Env VirtioTheorems BufList BufCache BufOps.

(** ** Definitions *)

(** The blocks of [W] written one after the other. *)
Definition apply_writes (W : list (Z * list Z)) (dk : disk) : disk :=
  foldl (λ dk w, <[w.1 := w.2]> dk) dk W.

(** Everything but the cache is as in [s], and the blocks of [W] have been
    written to the disk. *)
Definition wrote (W : list (Z * list Z)) (s s' : kstate) : Prop :=
  rsim (set_k_dwrites (reverse W ++ k_dwrites s) (set_k_disk (apply_writes W (k_disk s)) s)) s'.

(** What [rsim] forgets, and the disk and the log. *)
Definition wcore (s : kstate) : kstate :=
  set_k_dwrites [] (set_k_disk ∅ (set_k_log (k_log bss) (rcore s))).
Definition wsim (s s' : kstate) : Prop := wcore s = wcore s'.

#[export] Instance wsim_equiv : Equivalence wsim.
Proof.
  split; unfold wsim; [by intros s|by intros s s'|]. intros s s' s'' H1 H2. by rewrite H1.
Qed.

(** The blocks of the log: the header, and one block per entry. *)
Definition in_log (st n : Z) : Prop := st ≤ n < st + LOG_SIZE.
Definition log_area (st : Z) : Prop := 0 ≤ st ∧ st + LOG_SIZE < 2 ^ 31.
Definition slot (st : Z) (i : nat) : Z := st + 1 + Z.of_nat i.

(** The log structure, with the home blocks [bl] of its entries. *)
Record log_ok (st : Z) (bl : list Z) (g : log) : Prop := {
  lo_dev : lg_dev g = ROOT_DEV;
  lo_start : lg_start g = st;
  lo_len : length (lh_blocks g) = Z.to_nat LOG_SIZE;
  lo_n : lh_n g = Z.of_nat (length bl);
  lo_bl : take (length bl) (lh_blocks g) = bl;
}.

(** Home blocks are distinct blocks outside of the log, at most 29. *)
Record homes (st : Z) (bl : list Z) : Prop := {
  hm_nodup : NoDup bl;
  hm_len : (length bl < Z.to_nat LOG_SIZE)%nat;
  hm_range : Forall (λ n, 0 ≤ n < 2 ^ 31 ∧ ¬ in_log st n) bl;
}.

(** The header block with the entries [bl], the rest of it as in [d]. *)
Definition header_upto (k : nat) (bl : list Z) (d : list Z) : list Z :=
  foldl (λ d i, set_word32 (default 0 (bl !! i)) (S i) d)
    (set_word32 (Z.of_nat (length bl)) 0 d) (seq 0 k).
Definition header (bl : list Z) (d : list Z) : list Z := header_upto (length bl) bl d.

(** The blocks that [write_to_log] writes, and those that [install_trans]
    writes, where the entries have the contents [f]. *)
Definition log_writes (st : Z) (bl : list Z) (f : Z → list Z) : list (Z * list Z) :=
  imap (λ i n, (slot st i, f n)) bl.
Definition home_writes (st : Z) (bl : list Z) (f : Z → list Z) : list (Z * list Z) :=
  imap (λ i n, (n, f (slot st i))) bl.

(** ** Lemmas *)

Lemma apply_writes_app W1 W2 dk : apply_writes (W1 ++ W2) dk = apply_writes W2 (apply_writes W1 dk).
Proof. apply foldl_app. Qed.

(** Only the blocks of [W] change. *)
Lemma apply_writes_other W dk n : n ∉ W.*1 → apply_writes W dk !! n = dk !! n.
Proof.
  revert dk. induction W as [|[k d] W IH]; intros dk Hn; [done|]. simpl in *.
  apply not_elem_of_cons in Hn as [Hne Hn]. rewrite IH by done. by rewrite lookup_insert_ne.
Qed.

(** A block written once has the contents written. *)
Lemma apply_writes_in W dk n d :
  NoDup (W.*1) → (n, d) ∈ W → apply_writes W dk !! n = Some d.
Proof.
  revert dk. induction W as [|[k e] W IH]; intros dk Hnd Hin; [by apply elem_of_nil in Hin|].
  simpl in *. apply NoDup_cons in Hnd as [Hk Hnd]. apply elem_of_cons in Hin as [[= -> ->]|Hin].
  - rewrite apply_writes_other by done. apply lookup_insert_eq.
  - by apply IH.
Qed.

Lemma wrote_nil s : wrote [] s s.
Proof. unfold wrote, rsim. by destruct s. Qed.

Lemma wrote_trans W1 W2 s s1 s2 : wrote W1 s s1 → wrote W2 s1 s2 → wrote (W1 ++ W2) s s2.
Proof.
  unfold wrote. intros H1 H2. etrans; [|exact H2].
  rewrite <-(rsim_k_dwrites _ _ H1), <-(rsim_k_disk _ _ H1). simpl.
  rewrite apply_writes_app, reverse_app, <-app_assoc.
  exact (f_equal (λ s, set_k_dwrites (reverse W2 ++ reverse W1 ++ k_dwrites _)
    (set_k_disk (apply_writes W2 (apply_writes W1 (k_disk _))) s)) H1).
Qed.

Lemma wrote_rsim W s s1 s2 : wrote W s s1 → rsim s1 s2 → wrote W s s2.
Proof. unfold wrote. intros H1 H2. by etrans. Qed.
Lemma rsim_wrote W s s1 s2 : rsim s s1 → wrote W s1 s2 → wrote W s s2.
Proof.
  intros H1 H2. assert (wrote [] s s1) as H.
  { unfold wrote, rsim in *. rewrite <-H1. by destruct s. }
  exact (wrote_trans [] W s s1 s2 H H2).
Qed.

Lemma wrote_one n d s s' :
  rsim (set_k_dwrites ((n, d) :: k_dwrites s) (set_k_disk (<[n := d]> (k_disk s)) s)) s' → wrote [(n, d)] s s'.
Proof. unfold wrote. cbn [apply_writes foldl fst snd]. by rewrite reverse_singleton. Qed.

Lemma wrote_k_log W s s' : wrote W s s' → k_log s' = k_log s.
Proof. intros H. exact (eq_sym (rsim_k_log _ _ H)). Qed.
Lemma wrote_k_disk W s s' : wrote W s s' → k_disk s' = apply_writes W (k_disk s).
Proof. intros H. exact (eq_sym (rsim_k_disk _ _ H)). Qed.
Lemma wrote_k_dwrites W s s' : wrote W s s' → k_dwrites s' = reverse W ++ k_dwrites s.
Proof. intros H. exact (eq_sym (rsim_k_dwrites _ _ H)). Qed.

Lemma rsim_wsim s s' : rsim s s' → wsim s s'.
Proof. intros H. exact (f_equal (λ s, set_k_dwrites [] (set_k_disk ∅ (set_k_log (k_log bss) s))) H). Qed.
Lemma wrote_wsim W s s' : wrote W s s' → wsim s s'.
Proof. intros H. exact (rsim_wsim _ _ H). Qed.
Lemma wsim_log g s s' : wsim (set_k_log g s) s' → wsim s s'.
Proof. done. Qed.
Lemma wsim_set_sb sb s s' : wsim s s' → wsim (set_k_sb sb s) (set_k_sb sb s').
Proof. intros H. exact (f_equal (set_k_sb sb) H). Qed.

Section wsim.
Context (s s' : kstate) (H : wsim s s').
Lemma wsim_k_sb : k_sb s = k_sb s'.
Proof. exact (f_equal k_sb H). Qed.
Lemma wsim_k_inodes : k_inodes s = k_inodes s'.
Proof. exact (f_equal k_inodes H). Qed.
Lemma wsim_k_mem : k_mem s = k_mem s'.
Proof. exact (f_equal k_mem H). Qed.
Lemma wsim_k_free : k_free s = k_free s'.
Proof. exact (f_equal k_free H). Qed.
Lemma wsim_inode_lock i : k_slocks s !! SlInode i = k_slocks s' !! SlInode i.
Proof. apply inode_locks_lookup. exact (f_equal k_slocks H). Qed.
End wsim.

(** ** The header *)

Lemma header_upto_S k bl d n :
  bl !! k = Some n → header_upto (S k) bl d = set_word32 n (S k) (header_upto k bl d).
Proof. intros Hn. unfold header_upto. rewrite seq_S, foldl_app. cbn [foldl Nat.add]. by rewrite Hn. Qed.

Lemma length_header_upto k bl d : length (header_upto k bl d) = length d.
Proof.
  unfold header_upto. induction k as [|k IH]; [apply length_put_le|].
  rewrite seq_S, foldl_app. cbn [foldl]. unfold set_word32 at 1. by rewrite length_put_le.
Qed.

(** ** Entries of the log *)

Lemma slot_u32 st i : log_area st → (i < Z.to_nat LOG_SIZE)%nat → u32 (st + 1 + Z.of_nat i) = slot st i.
Proof. intros [H1 H2] Hi. unfold LOG_SIZE in *. unfold slot. apply wrap_small. lia. Qed.

Lemma slot_range st i : log_area st → (i < Z.to_nat LOG_SIZE)%nat → 0 ≤ slot st i < 2 ^ 31.
Proof. intros [H1 H2] Hi. unfold slot, LOG_SIZE in *. lia. Qed.

Lemma slot_in_log st i : (S i < Z.to_nat LOG_SIZE)%nat → in_log st (slot st i).
Proof. intros Hi. unfold in_log, slot, LOG_SIZE in *. lia. Qed.

Lemma slot_inj st i j : slot st i = slot st j → i = j.
Proof. unfold slot. lia. Qed.

Section entries.
Context {st : Z} {bl : list Z} (Ha : log_area st) (Hh : homes st bl).

Lemma home_range i n : bl !! i = Some n → 0 ≤ n < 2 ^ 31 ∧ ¬ in_log st n.
Proof. intros Hi. exact (Forall_lookup_1 _ _ _ _ (hm_range _ _ Hh) Hi). Qed.

Lemma home_lt i n : bl !! i = Some n → (S i < Z.to_nat LOG_SIZE)%nat.
Proof. intros Hi%lookup_lt_Some. pose proof (hm_len _ _ Hh). lia. Qed.

Lemma home_slot i n j : (S j < Z.to_nat LOG_SIZE)%nat → bl !! i = Some n → n ≠ slot st j.
Proof. intros Hj Hi ->. destruct (home_range _ _ Hi) as [_ []]. by apply slot_in_log. Qed.

Lemma size_homes : (size (list_to_set bl : gset Z) < N_BUF)%nat.
Proof.
  rewrite size_list_to_set by apply Hh. pose proof (hm_len _ _ Hh). exact H.
Qed.

Lemma log_block_eq i n s :
  log_ok st bl (k_log s) → bl !! i = Some n → log_block i s = Ok n s.
Proof.
  intros [H1 H2 H3 H4 H5] Hi. unfold log_block, get_log. erewrite bind_ok by done.
  assert (lh_blocks (k_log s) !! i = Some n) as ->; [|done].
  rewrite <-H5, lookup_take_Some in Hi. by destruct Hi.
Qed.
End entries.

Section steps.
Context `{DV : Device} `{RN : Rounds} (R : env) `{DK : !Disk R} (t : task) (FL : fs_locks t).
Context (Hrounds : (1 < rounds)%nat) (st : Z) (Ha : log_area st).

(** ** Copying one block to another *)

(** A block [a] is read into the buffer of block [c], found by [mc], which is
    written. *)
Definition copy_block (a : Z) (mc : KM Z) (m : nat → nat → KM unit) : KM unit :=
  from ← bread ROOT_DEV a;
  c ← mc;
  to ← bread ROOT_DEV c;
  d ← buf_data from;
  set_buf_data to (λ _, d);;
  bwrite to;;
  m from to.

Lemma copy_block_spec P s a c mc m Q :
  fs_ok t P ∅ s → (∀ s', k_log s' = k_log s → mc s' = Ok c s') → a ≠ c → 0 ≤ a < 2 ^ 31 → 0 ≤ c < 2 ^ 31 →
  a ∈ P ∨ (size P < N_BUF)%nat → c ∈ P ∨ (size (P ∪ {[a]}) < N_BUF)%nat →
  (∀ from to s', fs_ok t P {[c; a]} s' → holds s' a from (seen s a) → holds s' c to (seen s a) →
     (∀ n, seen s' n = if decide (n = c) then seen s a else seen s n) →
     wrote [(c, seen s a)] s s' → eruns R (m from to) s' Q) →
  eruns R (copy_block a mc m) s Q.
Proof.
  intros Hs Hmc Hac Hra Hrc Hsa Hsc Hm. unfold copy_block.
  estep. ecall (bread_spec R t FL Hrounds P ∅ a s Hs); [set_solver|done|by rewrite (right_id_L ∅ (∪))|].
  intros from s1 (Hs1 & Hb1 & Hv1 & Hr1 & _). rewrite (right_id_L ∅ (∪)) in Hs1.
  estep. eapply eruns_runs, runs_ok; [apply Hmc; symmetry; exact (rsim_k_log _ _ Hr1)|].
  estep. ecall (bread_spec R t FL Hrounds P {[a]} c s1 Hs1); [set_solver|done|done|].
  intros to s2 (Hs2 & Hb2 & Hv2 & Hr2 & Hk2).
  assert (holds s2 a from (seen s a)) as Hb1' by (apply Hk2; [set_solver|done|done]).
  estep. ecallr (buf_data_spec s2 a from _ Hb1'). intros ? ? [-> ->].
  estep. ecallr (set_buf_data_spec t P _ s2 c to _ (λ _, seen s a) Hs2); [set_solver|done| |].
  { eapply length_view, Hs. }
  intros [] s3 (Hs3 & Hb3 & Hv3 & Hr3 & Hk3).
  estep. ecall (bwrite_spec R t FL Hrounds P _ s3 c to _ Hs3); [set_solver|done|].
  intros [] s4 (Hs4 & Hb4 & Hv4 & Hr4 & Hk4). apply Hm.
  - by replace {[c; a]} with ({[c]} ∪ {[a]} : gset Z).
  - apply Hk4; [set_solver|done|]. apply Hk3; [set_solver|done|done].
  - done.
  - intros n. rewrite Hv4, Hv3. by rewrite Hv2, Hv1.
  - assert (rsim s s3) as Hr by (etrans; [exact Hr1|]; by etrans). exact (rsim_wrote _ _ _ _ Hr (wrote_one _ _ _ _ Hr4)).
Qed.

(** Both blocks are released; the first one is as on the disk or pinned. *)
Lemma release_two P s a c from to :
  fs_ok t P {[c; a]} s → a ≠ c → holds s a from (seen s a) → holds s c to (seen s c) →
  a ∈ P ∨ seen s a = block (k_disk s) a → c ∈ P ∨ seen s c = block (k_disk s) c →
  runs (brelse from;; brelse to) s (λ _ s', fs_ok t P ∅ s' ∧ (∀ n, seen s' n = seen s n) ∧ rsim s s').
Proof.
  intros Hs Hne Ha' Hc Hca Hcc. kstep.
  kcall (brelse_spec t FL P _ s a from _ Hs); [set_solver|done|done|].
  intros [] s1 (H1 & V1 & R1 & K1). kcall (brelse_spec t FL P _ s1 c to (seen s c) H1); [set_solver| | |].
  - apply K1; [set_solver|done|done].
  - by rewrite <-(rsim_k_disk _ _ R1).
  - intros [] s2 (H2 & V2 & R2 & _). split_and!.
    + by replace (({[c; a]} ∖ {[a]}) ∖ {[c]}) with (∅ : gset Z) in H2 by set_solver.
    + intros n. by rewrite V2.
    + by etrans.
Qed.

Lemma block_wrote W s s' n d :
  wrote W s s' → NoDup W.*1 → (n, d) ∈ W → block (k_disk s') n = d.
Proof.
  intros HW Hnd Hin. unfold block. by rewrite (wrote_k_disk _ _ _ HW), (apply_writes_in _ _ _ _ Hnd Hin).
Qed.

(** One entry is copied into the log. *)
Lemma write_one_to_log_spec bl s i n :
  fs_ok t (list_to_set bl) ∅ s → log_ok st bl (k_log s) → homes st bl → bl !! i = Some n →
  eruns R (write_one_to_log i) s (λ _ s', fs_ok t (list_to_set bl) ∅ s' ∧
    wrote [(slot st i, seen s n)] s s' ∧
    ∀ m, seen s' m = if decide (m = slot st i) then seen s n else seen s m).
Proof.
  intros Hs Hl Hh Hi. unfold write_one_to_log, get_log. do 3 estep.
  eapply eruns_runs, runs_ok; [by apply (log_block_eq _ _ _ Hl)|].
  rewrite (lo_dev _ _ _ Hl), (lo_start _ _ _ Hl).
  pose proof (home_lt Hh _ _ Hi) as Hlt. rewrite slot_u32 by (done || lia).
  pose proof (home_slot Hh _ _ i Hlt Hi) as Hne.
  assert (n ∈ (list_to_set bl : gset Z)) as Hin by (apply elem_of_list_to_set; by eapply list_elem_of_lookup_2).
  change (eruns R (copy_block n (mret (slot st i)) (λ from to, brelse from;; brelse to)) s
    (λ _ s', fs_ok t (list_to_set bl) ∅ s' ∧ wrote [(slot st i, seen s n)] s s' ∧
      ∀ m, seen s' m = if decide (m = slot st i) then seen s n else seen s m)).
  apply (copy_block_spec (list_to_set bl) s n (slot st i));
    [done|done|done|by eapply home_range|apply slot_range; [done|lia]|by left| |].
  { right. replace (list_to_set bl ∪ {[n]}) with (list_to_set bl : gset Z) by set_solver. by apply (size_homes Hh). }
  intros from to s1 H1 B1 B2 V1 W1.
  assert (seen s1 n = seen s n) as E1 by (by rewrite V1, decide_False).
  assert (seen s1 (slot st i) = seen s n) as E2 by (by rewrite V1, decide_True).
  ecallr (release_two _ s1 n (slot st i) from to H1); [done|by rewrite E1|by rewrite E2|by left| |].
  { right. rewrite E2. symmetry. eapply block_wrote; [done|apply NoDup_singleton|set_solver]. }
  intros [] s2 (H2 & V2 & R2). split_and!; [done|by eapply wrote_rsim|]. intros m. by rewrite V2.
Qed.

(** All of them are, in order; the cache shows the same outside of the log. *)
Lemma write_to_log_spec bl s :
  fs_ok t (list_to_set bl) ∅ s → log_ok st bl (k_log s) → homes st bl →
  eruns R write_to_log s (λ _ s', fs_ok t (list_to_set bl) ∅ s' ∧
    wrote (log_writes st bl (seen s)) s s' ∧ ∀ m, ¬ in_log st m ∨ m = st → seen s' m = seen s m).
Proof.
  intros Hs Hl Hh. unfold write_to_log, get_log. do 2 estep. rewrite (lo_n _ _ _ Hl), Nat2Z.id.
  eapply eruns_conseq.
  { apply (eruns_seq R (λ i s', fs_ok t (list_to_set bl) ∅ s' ∧
      wrote (log_writes st (take i bl) (seen s)) s s' ∧ ∀ m, ¬ in_log st m ∨ m = st → seen s' m = seen s m)).
    { split_and!; [done|apply wrote_nil|done]. }
    intros i s1 Hlt (H1 & W1 & V1). destruct (lookup_lt_is_Some_2 bl i) as [n Hn]; [lia|].
    ecall (write_one_to_log_spec bl s1 i n H1); [by rewrite (wrote_k_log _ _ _ W1)|done|done|].
    intros [] s2 (H2 & W2 & V2). rewrite V1 in W2 by (left; by eapply home_range).
    split_and!; [done| |].
    - rewrite (take_S_r _ _ _ Hn). unfold log_writes. rewrite imap_app, length_take_le by lia.
      cbn [imap]. rewrite Nat.add_0_r. by eapply wrote_trans.
    - intros m Hm. rewrite V2, decide_False; [by apply V1|]. intros ->.
      destruct Hm as [Hm|Hm]; [|unfold slot in Hm; lia]. apply Hm, slot_in_log. by eapply home_lt. }
  intros [] s' H. by rewrite take_ge in H.
Qed.

(** The header is written as one block. *)
Lemma write_log_header_spec P bl s :
  fs_ok t P ∅ s → log_ok st bl (k_log s) → st ∉ P → (size P < N_BUF)%nat →
  eruns R write_log_header s (λ _ s', fs_ok t P ∅ s' ∧
    wrote [(st, header bl (seen s st))] s s' ∧ ∀ m, m ≠ st → seen s' m = seen s m).
Proof.
  intros Hs Hl Hst Hsz. unfold write_log_header, get_log. do 3 estep.
  rewrite (lo_dev _ _ _ Hl), (lo_start _ _ _ Hl), (lo_n _ _ _ Hl), Nat2Z.id.
  ecall (bread_spec R t FL Hrounds P ∅ st s Hs);
    [set_solver|unfold log_area, LOG_SIZE in *; lia|right; by rewrite (right_id_L ∅ (∪))|].
  intros b s1 (H1 & B1 & V1 & R1 & _). rewrite (right_id_L ∅ (∪)) in H1.
  assert (length (seen s st) = Z.to_nat BLOCK_SIZE) as Hlen by eapply length_view, Hs.
  set (d := seen s st) in *.
  estep. ecallr (set_buf_data_spec t P _ s1 st b d (set_word32 (Z.of_nat (length bl)) 0) H1);
    [set_solver|done|by unfold set_word32; rewrite length_put_le|].
  intros [] s2 (H2 & B2 & V2 & R2 & _). estep. eapply eruns_conseq.
  { apply (eruns_seq R (λ i s', fs_ok t P {[st]} s' ∧ holds s' st b (header_upto i bl d) ∧
      (∀ m, m ≠ st → seen s' m = seen s m) ∧ rsim s s')).
    { split_and!; [done|done| |by etrans]. intros m Hm. by rewrite V2, decide_False, V1. }
    intros i s3 Hi (H3 & B3 & V3 & R3). destruct (lookup_lt_is_Some_2 bl i) as [n Hn]; [lia|].
    estep. eapply eruns_runs, runs_ok.
    { apply (log_block_eq (st := st) (bl := bl) i n); [by rewrite <-(rsim_k_log _ _ R3)|done]. }
    ecallr (set_buf_data_spec t P _ s3 st b _ (set_word32 n (S i)) H3);
      [set_solver|done|by unfold set_word32; rewrite length_put_le, length_header_upto|].
    intros [] s4 (H4 & B4 & V4 & R4 & _). rewrite (header_upto_S _ _ _ _ Hn).
    split_and!; [done|done| |by etrans]. intros m Hm. rewrite V4, decide_False by done. by apply V3. }
  intros [] s3 (H3 & B3 & V3 & R3). fold (header bl d) in B3.
  estep. ecall (bwrite_spec R t FL Hrounds P _ s3 st b _ H3); [set_solver|done|].
  intros [] s4 (H4 & B4 & V4 & R4 & _). pose proof (wrote_one _ _ _ _ R4) as W4.
  ecallr (brelse_spec t FL P _ s4 st b _ H4); [set_solver|done| |].
  { right. symmetry. eapply block_wrote; [done|apply NoDup_singleton|set_solver]. }
  intros [] s5 (H5 & V5 & R5 & _). rewrite difference_diag_L in H5. split_and!; [done| |].
  - eapply wrote_rsim; [|done]. by eapply rsim_wrote.
  - intros m Hm. rewrite V5, V4. by apply V3.
Qed.

(** One entry is copied home. Its buffer is unpinned, except in recovery,
    where nothing is pinned. *)
Lemma install_one_spec (recovering : bool) P bl s i n :
  fs_ok t P ∅ s → log_ok st bl (k_log s) → homes st bl → bl !! i = Some n →
  (if recovering then P = ∅ else n ∈ P) → slot st i ∉ P → (size P < N_BUF)%nat →
  eruns R (install_one recovering i) s (λ _ s', fs_ok t (P ∖ {[n]}) ∅ s' ∧
    wrote [(n, seen s (slot st i))] s s' ∧
    ∀ m, seen s' m = if decide (m = n) then seen s (slot st i) else seen s m).
Proof.
  intros Hs Hl Hh Hi HP Hsl Hsz. unfold install_one, get_log. do 2 estep.
  rewrite (lo_dev _ _ _ Hl), (lo_start _ _ _ Hl).
  pose proof (home_lt Hh _ _ Hi) as Hlt. rewrite slot_u32 by (done || lia).
  pose proof (home_slot Hh _ _ i Hlt Hi) as Hne. set (a := slot st i) in *.
  change (eruns R (copy_block a (log_block i)
    (λ from to, when (negb recovering) (bunpin to);; brelse from;; brelse to)) s
    (λ _ s', fs_ok t (P ∖ {[n]}) ∅ s' ∧ wrote [(n, seen s a)] s s' ∧
      ∀ m, seen s' m = if decide (m = n) then seen s a else seen s m)).
  apply (copy_block_spec P s a n); [done| |done|apply slot_range; [done|lia]|by eapply home_range|by right| |].
  { intros s' Es. apply (log_block_eq (st := st) (bl := bl)); [by rewrite Es|done]. }
  { destruct recovering; [|by left]. right. subst P. rewrite (left_id_L ∅ (∪)), size_singleton. unfold N_BUF. lia. }
  intros from to s1 H1 B1 B2 V1 W1. estep.
  assert (runs (when (negb recovering) (bunpin to)) s1 (λ _ s2, fs_ok t (P ∖ {[n]}) {[n; a]} s2 ∧
    (∀ m, seen s2 m = seen s1 m) ∧ rsim s1 s2 ∧ holds s2 a from (seen s a) ∧ holds s2 n to (seen s a))) as Hun.
  { destruct recovering; simpl.
    - kstep. subst P. by replace (∅ ∖ {[n]}) with (∅ : gset Z) by set_solver.
    - kcall (bunpin_spec t FL Hrounds P _ s1 n to _ H1); [set_solver|done|done|].
      intros [] s2 (H2 & B2' & V2 & R2 & K2). split_and!; try done. apply K2; [set_solver|done|done]. }
  ecallr Hun. intros [] s2 (H2 & V2 & R2 & B3 & B4).
  assert (seen s2 a = seen s a) as E1 by (by rewrite V2, V1, decide_False).
  assert (seen s2 n = seen s a) as E2 by (by rewrite V2, V1, decide_True).
  assert (wrote [(n, seen s a)] s s2) as W2 by by eapply wrote_rsim.
  ecallr (release_two _ s2 a n from to H2); [done|by rewrite E1|by rewrite E2| | |].
  { right. rewrite E1. unfold block. rewrite (wrote_k_disk _ _ _ W2), apply_writes_other by (simpl; set_solver).
    apply (view_clean _ _ _ _ _ _ (fo_cache _ _ _ _ Hs)); set_solver. }
  { right. rewrite E2. symmetry. eapply block_wrote; [done|apply NoDup_singleton|set_solver]. }
  intros [] s3 (H3 & V3 & R3). split_and!; [done|by eapply wrote_rsim|]. intros m. by rewrite V3, V2.
Qed.

Lemma pinned_drop i n bl :
  NoDup bl → bl !! i = Some n →
  (list_to_set (drop i bl) : gset Z) ∖ {[n]} = list_to_set (drop (S i) bl) ∧ n ∈ (list_to_set (drop i bl) : gset Z).
Proof.
  intros Hnd Hn. rewrite (drop_S _ _ _ Hn). split; [|set_solver].
  assert (n ∉ drop (S i) bl) as Hni.
  { rewrite <-(take_drop i bl), (drop_S _ _ _ Hn) in Hnd.
    apply NoDup_app in Hnd as (_ & _ & Hnd%NoDup_cons). apply Hnd. }
  set_solver.
Qed.

(** All the entries are copied home, in order, and nothing is pinned. *)
Lemma install_trans_spec (recovering : bool) P bl s :
  fs_ok t P ∅ s → log_ok st bl (k_log s) → homes st bl →
  P = (if recovering then ∅ else list_to_set bl) →
  eruns R (install_trans recovering) s (λ _ s', fs_ok t ∅ ∅ s' ∧
    wrote (home_writes st bl (seen s)) s s').
Proof.
  intros Hs Hl Hh HP. unfold install_trans, get_log. do 2 estep. rewrite (lo_n _ _ _ Hl), Nat2Z.id.
  eapply eruns_conseq.
  { apply (eruns_seq R (λ i s', fs_ok t (if recovering then ∅ else list_to_set (drop i bl)) ∅ s' ∧
      wrote (home_writes st (take i bl) (seen s)) s s' ∧ ∀ m, m ∉ bl → seen s' m = seen s m)).
    { subst P. split_and!; [done|apply wrote_nil|done]. }
    intros i s1 Hlt (H1 & W1 & V1). destruct (lookup_lt_is_Some_2 bl i) as [n Hn]; [lia|].
    pose proof (home_lt Hh _ _ Hn) as Hi.
    assert (slot st i ∉ bl) as Hsl by (intros [j Hj]%list_elem_of_lookup; by eapply home_slot).
    destruct (pinned_drop i n bl (hm_nodup _ _ Hh) Hn) as [Hd Hin].
    ecall (install_one_spec recovering _ bl s1 i n H1); [by rewrite (wrote_k_log _ _ _ W1)|done|done| | | |].
    { by destruct recovering. }
    { destruct recovering; [set_solver|]. rewrite elem_of_list_to_set. intros Hx.
      apply Hsl. rewrite <-(take_drop i bl). set_solver. }
    { destruct recovering; [rewrite size_empty; unfold N_BUF; lia|].
      eapply Nat.le_lt_trans; [apply subseteq_size|exact (size_homes Hh)].
      rewrite <-(take_drop i bl) at 2. set_solver. }
    intros [] s2 (H2 & W2 & V2). rewrite V1 in W2, V2 by done. split_and!.
    - destruct recovering; [by replace (∅ ∖ {[n]}) with (∅ : gset Z) in H2 by set_solver|by rewrite Hd in H2].
    - rewrite (take_S_r _ _ _ Hn). unfold home_writes. rewrite imap_app, length_take_le by lia.
      cbn [imap]. rewrite Nat.add_0_r. by eapply wrote_trans.
    - intros m Hm. rewrite V2, decide_False; [by apply V1|]. intros ->. by apply Hm, (list_elem_of_lookup_2 _ i). }
  intros [] s' (H & HW & _). rewrite take_ge in HW by done. split; [|done].
  destruct recovering; [done|]. by rewrite drop_ge in H.
Qed.
End steps.
