(* ===== verification/LogTheorems.v ===== *)
(** Crash safety of the write-ahead log (kernel/fs/log.c): [commit] may be cut
    short after any of its writes to the disk, and so may [recover_from_log];
    the next recovery finds all the blocks of the transaction or none. *)

From S2P Require Import Prelude Mem State Machine Mm MmInit Proc Sync Virtio Buf Log Inode FsData ProcTheorems Env VirtioTheorems BufList BufCache BufOps LogOps.

(** ** Definitions *)

(** The header block [d] lists the entries [bl]. *)
Definition lists (bl : list Z) (d : list Z) : Prop :=
  word32 d 0 = Z.of_nat (length bl) ∧ ∀ i n, bl !! i = Some n → word32 d (S i) = n.

(** On the disk [dk] the log at [st] holds the entries [bl]. Installing them
    gives the contents [f]. *)
Record pending (st : Z) (f : Z → list Z) (bl : list Z) (dk : disk) : Prop := {
  pe_homes : homes st bl;
  pe_len : length (block dk st) = Z.to_nat BLOCK_SIZE;
  pe_header : lists bl (block dk st);
  pe_entry : ∀ i n, bl !! i = Some n → block dk (slot st i) = f n;
  pe_other : ∀ n, ¬ in_log st n → n ∉ bl → block dk n = f n;
}.

(** Recovery gives the contents [f]. *)
Definition recoverable (st : Z) (f : Z → list Z) (dk : disk) : Prop := ∃ bl, pending st f bl dk.

(** The writes of the installation of [bl], and of the header afterwards. *)
Definition install_writes (st : Z) (bl : list Z) (dk : disk) : list (Z * list Z) :=
  home_writes st bl (block dk) ++ [(st, header [] (block dk st))].

(** The writes of a transaction before they are installed. *)
Definition logging_writes (st : Z) (bl : list Z) (f : Z → list Z) (h : list Z) : list (Z * list Z) :=
  log_writes st bl f ++ [(st, header bl h)].

(** The log after [log_init] has set it up, before the header is read. *)
Definition log_set (st : Z) (g : log) : Prop :=
  lg_dev g = ROOT_DEV ∧ lg_start g = st ∧ length (lh_blocks g) = Z.to_nat LOG_SIZE.

(** The same log but for the header in memory. *)
Definition same_log (g g' : log) : Prop := set_lh_n 0 (set_lh_blocks [] g) = set_lh_n 0 (set_lh_blocks [] g').

(** Outside of the log the disk has the contents [f]. *)
Definition outside (st : Z) (f : Z → list Z) (dk : disk) : Prop := ∀ n, ¬ in_log st n → block dk n = f n.

(** ** Headers *)

Lemma recoverable_ext st f g dk : (∀ n, f n = g n) → recoverable st f dk → recoverable st g dk.
Proof.
  intros E [bl [P1 P2 P3 P4 P5]]. exists bl. split; [done|done|done| |].
  - intros i n Hi. rewrite <-E. by apply P4.
  - intros n Hn Hb. rewrite <-E. by apply P5.
Qed.

Lemma header_lists st bl d :
  homes st bl → length d = Z.to_nat BLOCK_SIZE → lists bl (header bl d).
Proof.
  intros Hh Hd. pose proof (hm_len _ _ Hh) as Hlen.
  assert (header bl d = foldl (λ d k, put_le 4 (default 0 (bl !! k)) (4 + 4 * k) d)
    (set_word32 (Z.of_nat (length bl)) 0 d) (seq 0 (length bl))) as ->.
  { unfold header, header_upto. generalize (set_word32 (Z.of_nat (length bl)) 0 d).
    induction (seq 0 (length bl)) as [|k l IH]; intros d'; [done|]. cbn [foldl]. rewrite IH.
    unfold set_word32. by replace (4 * S k)%nat with (4 + 4 * k)%nat by lia. }
  destruct (put_addrs_spec (λ k, default 0 (bl !! k)) 4 (set_word32 (Z.of_nat (length bl)) 0 d) (length bl))
    as (_ & Hk & Hf).
  { unfold set_word32. rewrite length_put_le, Hd. unfold LOG_SIZE, BLOCK_SIZE in *. lia. }
  split.
  - unfold word32. rewrite Hf by lia. unfold set_word32. apply get_put_le_small.
    + rewrite Hd. unfold BLOCK_SIZE. lia.
    + unfold LOG_SIZE in *. lia.
  - intros i n Hi. unfold word32. replace (4 * S i)%nat with (4 + 4 * i)%nat by lia.
    rewrite Hk by by eapply lookup_lt_Some. rewrite Hi. cbn [default from_option id].
    destruct (home_range Hh _ _ Hi). apply Z.mod_small. lia.
Qed.

Lemma homes_nil st : homes st [].
Proof. split; [apply NoDup_nil_2|unfold LOG_SIZE; simpl; lia|apply Forall_nil_2]. Qed.

(** ** Disks *)

Section disks.
Context (st : Z) (Ha : log_area st).

Lemma block_apply W dk n d : NoDup W.*1 → (n, d) ∈ W → block (apply_writes W dk) n = d.
Proof. intros. unfold block. by erewrite apply_writes_in. Qed.
Lemma block_apply_ne W dk n : n ∉ W.*1 → block (apply_writes W dk) n = block dk n.
Proof. intros. unfold block. by rewrite apply_writes_other. Qed.

Lemma log_writes_fst bl f : (log_writes st bl f).*1 = imap (λ i _, slot st i) bl.
Proof. unfold log_writes. by rewrite fmap_imap. Qed.
Lemma home_writes_fst bl f : (home_writes st bl f).*1 = bl.
Proof. unfold home_writes. rewrite fmap_imap. apply list_eq. intros i. rewrite list_lookup_imap. by destruct (bl !! i). Qed.

Lemma log_writes_nodup bl f : NoDup (log_writes st bl f).*1.
Proof.
  rewrite log_writes_fst. apply NoDup_alt. intros i j x. rewrite !list_lookup_imap.
  destruct (bl !! i), (bl !! j); simpl; intros [= <-] [= E%slot_inj]. done.
Qed.

Lemma log_writes_in bl f n : n ∈ (log_writes st bl f).*1 → (length bl < Z.to_nat LOG_SIZE)%nat → in_log st n ∧ n ≠ st.
Proof.
  rewrite log_writes_fst. intros (i & E)%list_elem_of_lookup Hl. rewrite list_lookup_imap in E.
  destruct (bl !! i) eqn:Ei; simpl in E; [|done]. injection E as <-. apply lookup_lt_Some in Ei.
  split; [apply slot_in_log; lia|unfold slot; lia].
Qed.

Lemma st_in_log : in_log st st.
Proof. unfold in_log, LOG_SIZE. lia. Qed.

Lemma homes_not_log bl n : homes st bl → n ∈ bl → ¬ in_log st n.
Proof. intros Hh [i Hi]%list_elem_of_lookup. exact (proj2 (home_range Hh _ _ Hi)). Qed.

Context (f : Z → list Z).

(** A disk with an empty log. *)
Lemma pending_nil dk :
  length (block dk st) = Z.to_nat BLOCK_SIZE → word32 (block dk st) 0 = 0 →
  (∀ n, ¬ in_log st n → block dk n = f n) → pending st f [] dk.
Proof. intros Hl H0 Hf. split; [apply homes_nil|done|by split|done|auto]. Qed.

Lemma pending_outside dk : pending st f [] dk → outside st f dk.
Proof. intros Hp n Hn. apply Hp; [done|set_solver]. Qed.

(** Entries may be installed in part. *)
Lemma pending_installing bl dk W rest :
  pending st f bl dk → home_writes st bl (block dk) = W ++ rest → pending st f bl (apply_writes W dk).
Proof.
  intros [Hh Hl Hd He Ho] E.
  assert (∀ n, n ∈ W.*1 → n ∈ bl) as Hin.
  { intros n Hn. rewrite <-(home_writes_fst bl (block dk)), E, fmap_app. set_solver. }
  assert (∀ n, in_log st n → n ∉ W.*1) as Hlog.
  { intros n Hn Hw. by apply (homes_not_log bl n Hh (Hin n Hw)). }
  split; [done| | | |].
  - by rewrite block_apply_ne by apply Hlog, st_in_log.
  - by rewrite block_apply_ne by apply Hlog, st_in_log.
  - intros i n Hi. rewrite block_apply_ne by (apply Hlog, slot_in_log; by eapply home_lt). by apply He.
  - intros n Hn Hb. rewrite block_apply_ne by auto. by apply Ho.
Qed.

(** With all of them installed the log may be cleared. *)
Lemma pending_installed bl dk n :
  pending st f bl dk → ¬ in_log st n → block (apply_writes (home_writes st bl (block dk)) dk) n = f n.
Proof.
  intros [Hh Hl Hd He Ho] Hn. destruct (decide (n ∈ bl)) as [[i Hi]%list_elem_of_lookup|Hb].
  - apply block_apply; [rewrite home_writes_fst; apply Hh|]. apply list_elem_of_lookup. exists i.
    unfold home_writes. rewrite list_lookup_imap, Hi. simpl. by rewrite (He i n Hi).
  - rewrite block_apply_ne by (by rewrite home_writes_fst). by apply Ho.
Qed.

Lemma pending_cleared bl dk :
  pending st f bl dk → pending st f [] (apply_writes (install_writes st bl dk) dk).
Proof.
  intros Hp. pose proof Hp as [Hh Hl Hd He Ho]. unfold install_writes. rewrite apply_writes_app.
  set (dk' := apply_writes _ dk).
  assert (block (apply_writes [(st, header [] (block dk st))] dk') st = header [] (block dk st)) as Est
    by (apply block_apply; [apply NoDup_singleton|set_solver]).
  destruct (header_lists st [] (block dk st) (homes_nil st) Hl) as [E0 _].
  apply pending_nil; [|by rewrite Est|].
  - rewrite Est. unfold header. by rewrite length_header_upto.
  - intros n Hn. rewrite block_apply_ne.
    + by apply pending_installed.
    + simpl. intros ->%list_elem_of_singleton. by apply Hn, st_in_log.
Qed.

(** So the installation may be cut short anywhere. *)
Lemma recoverable_install bl dk W rest :
  pending st f bl dk → install_writes st bl dk = W ++ rest → recoverable st f (apply_writes W dk).
Proof.
  intros Hp E. unfold install_writes in E. apply app_eq_inv in E as [(k & E1 & E2)|(k & E1 & E2)].
  - exists bl. by eapply pending_installing.
  - destruct k as [|w k]; [exists bl; eapply pending_installing; [done|by rewrite app_nil_r, E1, app_nil_r]|].
    injection E2 as E2 [-> ->]%symmetry%app_nil. exists []. subst W w. by apply pending_cleared.
Qed.

(** The entries may be logged in part: the header still lists none. *)
Lemma pending_logging bl g h dk W rest :
  pending st f [] dk → homes st bl → logging_writes st bl g h = W ++ rest → rest ≠ [] →
  pending st f [] (apply_writes W dk).
Proof.
  intros [_ Hl [Hd _] _ Ho] Hh E Hr. pose proof (hm_len _ _ Hh) as Hlen.
  assert (∀ n, n ∈ W.*1 → in_log st n ∧ n ≠ st) as Hin.
  { intros n Hn. apply (log_writes_in bl g n); [|done].
    destruct (exists_last Hr) as (rest' & w & ->). unfold logging_writes in E. rewrite (assoc_L (++)) in E.
    apply app_inj_tail in E as [-> _]. rewrite fmap_app. set_solver. }
  assert (st ∉ W.*1) as Hst by (intros [_ []]%Hin; done).
  apply pending_nil; [by rewrite block_apply_ne|by rewrite block_apply_ne|].
  intros n Hn. rewrite block_apply_ne by (intros []%Hin; done). apply Ho; [done|set_solver].
Qed.

(** Once the header is written all the entries are there. *)
Lemma pending_logged bl h dk :
  homes st bl → length h = Z.to_nat BLOCK_SIZE →
  (∀ n, ¬ in_log st n → n ∉ bl → block dk n = f n) →
  pending st f bl (apply_writes (logging_writes st bl f h) dk).
Proof.
  intros Hh Hl Ho. unfold logging_writes. rewrite apply_writes_app. set (dk' := apply_writes _ dk).
  assert (∀ n, n ≠ st → block (apply_writes [(st, header bl h)] dk') n = block dk' n) as Hne.
  { intros n Hn. apply block_apply_ne. simpl. set_solver. }
  assert (block (apply_writes [(st, header bl h)] dk') st = header bl h) as Est
    by (apply block_apply; [apply NoDup_singleton|set_solver]).
  split; [done| | | |].
  - rewrite Est. unfold header. by rewrite length_header_upto.
  - rewrite Est. by eapply header_lists.
  - intros i n Hi. rewrite Hne by (unfold slot; lia). apply block_apply; [apply log_writes_nodup|].
    apply list_elem_of_lookup. exists i. unfold log_writes. by rewrite list_lookup_imap, Hi.
  - intros n Hn Hb. rewrite Hne by (intros ->; by apply Hn, st_in_log). rewrite <-(Ho n Hn Hb).
    apply block_apply_ne. intros [Hx _]%log_writes_in; [done|apply Hh].
Qed.
End disks.

(** ** Recovery *)

Lemma set_k_log_id s : set_k_log (k_log s) s = s.
Proof. by destruct s. Qed.
Lemma set_lh_blocks_id g : set_lh_blocks (lh_blocks g) g = g.
Proof. by destruct g. Qed.

Lemma fs_ok_log t P H s g : fs_ok t P H s → fs_ok t P H (set_k_log g s).
Proof. intros [H1 H2 H3]. split; [|done|done]. by eapply on_cpu_sim. Qed.

Lemma wrote_set_log g W s s' : wrote W s s' → wrote W (set_k_log g s) (set_k_log g s').
Proof. unfold wrote. intros H. exact (rsim_set_log _ _ H g). Qed.

Lemma seen_clean t s n : fs_ok t ∅ ∅ s → seen s n = block (k_disk s) n.
Proof. intros Hs. apply (view_clean _ _ _ _ _ _ (fo_cache _ _ _ _ Hs)); set_solver. Qed.

Section recovery.
Context `{DV : Device} `{RN : Rounds} (R : env) `{DK : !Disk R} (t : task) (FL : fs_locks t).
Context (Hrounds : (1 < rounds)%nat) (st : Z) (Ha : log_area st).

Lemma read_entries_spec bl d s :
  lists bl d → (length bl < Z.to_nat LOG_SIZE)%nat → log_set st (k_log s) → lh_n (k_log s) = Z.of_nat (length bl) →
  eruns R (kiter (seq 0 (length bl)) (λ i, set_log_block i (word32 d (S i)))) s
    (λ _ s', ∃ g, s' = set_k_log g s ∧ log_ok st bl g ∧ same_log (k_log s) g).
Proof.
  intros [_ Hd] Hlen (Hg1 & Hg2 & Hg3) Hn. eapply eruns_conseq.
  { apply (eruns_seq R (λ i s', ∃ l, s' = set_k_log (set_lh_blocks l (k_log s)) s ∧
      length l = Z.to_nat LOG_SIZE ∧ take i l = take i bl)).
    { exists (lh_blocks (k_log s)). split_and!; [|done|done]. by rewrite set_lh_blocks_id, set_k_log_id. }
    intros i s1 Hi (l & -> & Hl & Ht). destruct (lookup_lt_is_Some_2 bl i Hi) as [n Hbn].
    rewrite (Hd i n Hbn). unfold set_log_block, get_log. do 2 estep. rewrite decide_True by (simpl; lia).
    unfold upd_log. estep. exists (<[i := n]> l). split_and!; [done|by rewrite length_insert|].
    rewrite (take_S_r bl i n Hbn), <-Ht, (take_S_r _ i n) by (apply list_lookup_insert_eq; lia).
    by rewrite take_insert_ge by lia. }
  intros [] s' (l & -> & Hl & Ht). eexists. split; [done|]. rewrite (take_ge bl) in Ht by done. split; [by split|done].
Qed.

Lemma read_log_header_spec bl s :
  fs_ok t ∅ ∅ s → log_set st (k_log s) → lists bl (block (k_disk s) st) → (length bl < Z.to_nat LOG_SIZE)%nat →
  eruns R read_log_header s (λ _ s', ∃ g, fs_ok t ∅ ∅ s' ∧ log_ok st bl g ∧ same_log (k_log s) g ∧ rsim (set_k_log g s) s').
Proof.
  intros Hs Hg Hd Hlen. unfold read_log_header, get_log. do 3 estep.
  destruct Hg as (Hg1 & Hg2 & Hg3). rewrite Hg1, Hg2.
  ecall (bread_spec R t FL Hrounds ∅ ∅ st s Hs);
    [set_solver|unfold log_area, LOG_SIZE in *; lia|right; rewrite (right_id_L ∅ (∪)), size_empty; unfold N_BUF; lia|].
  intros b s1 (H1 & B1 & V1 & R1 & _). rewrite (right_id_L ∅ (∪)) in H1.
  rewrite (seen_clean t s st Hs) in B1. pose proof (rsim_k_log _ _ R1) as E1.
  estep. ecallr (buf_data_spec s1 st b _ B1). intros ? ? [-> ->]. set (d := block (k_disk s) st) in *.
  estep. unfold upd_log. estep. estep. rewrite (proj1 Hd), Nat2Z.id. rewrite <-E1.
  ecall (read_entries_spec bl d (set_k_log (set_lh_n (Z.of_nat (length bl)) (k_log s)) s1) Hd Hlen); [done|done|].
  intros [] s2 (g & -> & Hg & Hsl).
  match goal with |- eruns _ _ ?x _ => change x with (set_k_log g s1) end.
  ecallr (brelse_spec t FL ∅ _ (set_k_log g s1) st b d (fs_ok_log _ _ _ _ g H1)); [set_solver|done| |].
  { right. cbn [k_disk set_k_log]. by rewrite <-(rsim_k_disk _ _ R1). }
  intros [] s3 (H3 & _ & R3 & _). rewrite difference_diag_L in H3. exists g. split_and!; [done|done|exact Hsl|].
  etrans; [|exact R3]. exact (rsim_set_log _ _ R1 g).
Qed.

Lemma log_empty g : log_ok st [] g → g = set_lh_n 0 g.
Proof. intros Hg. rewrite <-(lo_n _ _ _ Hg : _ = 0). by destruct g. Qed.

(** Clearing the header of an installed log. *)
Lemma clear_log_spec bl s :
  fs_ok t ∅ ∅ s → log_ok st bl (k_log s) →
  eruns R (upd_log (set_lh_n 0);; write_log_header) s (λ _ s', fs_ok t ∅ ∅ s' ∧
    wrote [(st, header [] (block (k_disk s) st))] (set_k_log (set_lh_n 0 (k_log s)) s) s').
Proof.
  intros Hs [Hg1 Hg2 Hg3 Hg4 Hg5]. unfold upd_log. do 2 estep.
  match goal with |- eruns _ _ ?x _ => set (s1 := x) end. assert (fs_ok t ∅ ∅ s1) as H1 by by apply fs_ok_log.
  ecall (write_log_header_spec R t FL Hrounds st Ha ∅ [] s1 H1); [by split|set_solver| |].
  { rewrite size_empty. unfold N_BUF. lia. }
  intros [] s2 (H2 & W2 & _). rewrite (seen_clean t s1 st H1) in W2. done.
Qed.

(** Installing the entries and clearing the header, as at the end of [commit]
    and of [recover_from_log]. *)
Lemma install_clear_spec (recovering : bool) bl s f :
  fs_ok t (if recovering then ∅ else list_to_set bl) ∅ s → log_ok st bl (k_log s) → pending st f bl (k_disk s) →
  eruns R (install_trans recovering;; upd_log (set_lh_n 0);; write_log_header) s (λ _ s',
    fs_ok t ∅ ∅ s' ∧ wrote (install_writes st bl (k_disk s)) (set_k_log (set_lh_n 0 (k_log s)) s) s').
Proof.
  intros Hs Hg Hp. pose proof (pe_homes _ _ _ _ Hp) as Hh. estep.
  ecall (install_trans_spec R t FL Hrounds st Ha recovering _ bl s Hs Hg Hh); [done|].
  intros [] s1 [H1 W1]. assert (home_writes st bl (seen s) = home_writes st bl (block (k_disk s))) as E.
  { unfold home_writes. apply imap_ext. intros i n Hi. f_equal.
    assert (slot st i ∉ bl) as Hsl by 
      (intros [j Hj]%list_elem_of_lookup; exact (home_slot Hh _ _ i (home_lt Hh _ _ Hi) Hj eq_refl)).
    apply (view_clean _ _ _ _ _ _ (fo_cache _ _ _ _ Hs)); [|set_solver]. destruct recovering; set_solver. }
  rewrite E in W1. ecall (clear_log_spec bl s1 H1); [by rewrite (wrote_k_log _ _ _ W1)|].
  intros [] s2 [H2 W2]. split; [done|]. rewrite (wrote_k_log _ _ _ W1), (wrote_k_disk _ _ _ W1) in W2.
  unfold install_writes. rewrite block_apply_ne in W2.
  - eapply wrote_trans; [exact (wrote_set_log _ _ _ _ W1)|done].
  - rewrite home_writes_fst. intros Hst. eapply homes_not_log; [done|done|]. apply st_in_log.
Qed.

Lemma recover_spec bl s f :
  fs_ok t ∅ ∅ s → log_set st (k_log s) → pending st f bl (k_disk s) →
  eruns R recover_from_log s (λ _ s', ∃ g, fs_ok t ∅ ∅ s' ∧ log_ok st [] g ∧ same_log (k_log s) g ∧
    wrote (install_writes st bl (k_disk s)) (set_k_log g s) s').
Proof.
  intros Hs Hg Hp. unfold recover_from_log. estep.
  ecall (read_log_header_spec bl s Hs Hg); [apply Hp|apply (pe_homes _ _ _ _ Hp)|].
  intros [] s1 (g & H1 & Hl & Hsl & R1). pose proof (rsim_k_disk _ _ R1) as E1. cbn [k_disk set_k_log] in E1.
  pose proof (rsim_k_log _ _ R1) as E2. cbn [k_log set_k_log] in E2.
  ecall (install_clear_spec true bl s1 f H1); [by rewrite <-E2|by rewrite <-E1|].
  intros [] s2 [H2 W2]. exists (set_lh_n 0 g). rewrite <-E1, <-E2 in W2.
  split_and!; [done|destruct Hl; by split|exact Hsl|].
  eapply rsim_wrote; [|exact W2]. exact (rsim_set_log _ _ R1 (set_lh_n 0 g)).
Qed.

Lemma commit_spec bl s :
  fs_ok t (list_to_set bl) ∅ s → log_ok st bl (k_log s) → homes st bl → bl ≠ [] →
  let L := logging_writes st bl (seen s) (seen s st) in
  pending st (seen s) bl (apply_writes L (k_disk s)) ∧
  eruns R commit s (λ _ s', fs_ok t ∅ ∅ s' ∧
    wrote (L ++ install_writes st bl (apply_writes L (k_disk s))) (set_k_log (set_lh_n 0 (k_log s)) s) s').
Proof.
  intros Hs Hg Hh Hne L. assert (pending st (seen s) bl (apply_writes L (k_disk s))) as Hp.
  { apply pending_logged; [done|done|eapply length_view, Hs|]. intros n Hn Hb. symmetry.
    apply (view_clean _ _ _ _ _ _ (fo_cache _ _ _ _ Hs)); set_solver. }
  split; [done|]. unfold commit, get_log. do 2 estep. rewrite (lo_n _ _ _ Hg).
  rewrite (proj2 (Z.ltb_lt 0 (Z.of_nat (length bl)))) by (destruct bl; [done|simpl; lia]).
  cbn [when]. estep. ecall (write_to_log_spec R t FL Hrounds st Ha bl s Hs Hg Hh). intros [] s1 (H1 & W1 & V1).
  estep. ecall (write_log_header_spec R t FL Hrounds st Ha _ bl s1 H1);
    [by rewrite (wrote_k_log _ _ _ W1)| |exact (size_homes Hh)|].
  { rewrite elem_of_list_to_set. intros Hst. exact (homes_not_log st bl st Hh Hst (st_in_log st)). }
  intros [] s2 (H2 & W2 & V2).
  rewrite V1 in W2 by by right. pose proof (wrote_trans _ _ _ _ _ W1 W2) as W. fold (logging_writes st bl (seen s) (seen s st)) in W. fold L in W.
  ecall (install_clear_spec false bl s2 (seen s) H2); [by rewrite (wrote_k_log _ _ _ W)|rewrite (wrote_k_disk _ _ _ W); exact Hp|].
  intros [] s3 [H3 W3]. rewrite (wrote_k_disk _ _ _ W), (wrote_k_log _ _ _ W) in W3.
  split; [done|]. eapply wrote_trans; [exact (wrote_set_log _ _ _ _ W)|exact W3].
Qed.

(** Recovery gives the contents promised, clears the log, and may itself be
    cut short. *)
Lemma recover_result s f :
  fs_ok t ∅ ∅ s → log_set st (k_log s) → recoverable st f (k_disk s) →
  eruns R recover_from_log s (λ _ s', fs_ok t ∅ ∅ s' ∧ pending st f [] (k_disk s') ∧ outside st f (k_disk s') ∧
    ∃ W, k_dwrites s' = reverse W ++ k_dwrites s ∧
      ∀ W' rest, W = W' ++ rest → recoverable st f (apply_writes W' (k_disk s))).
Proof.
  intros Hs Hg [bl Hp]. eapply eruns_conseq; [by eapply recover_spec|].
  intros [] s' (g & H1 & _ & _ & W1). pose proof (wrote_k_disk _ _ _ W1) as E. cbn [k_disk set_k_log] in E.
  pose proof (pending_cleared st Ha f bl _ Hp) as Hp'. rewrite <-E in Hp'. split_and!; [done|done| |].
  - by apply pending_outside.
  - eexists. split; [exact (wrote_k_dwrites _ _ _ W1)|]. intros W' rest E'. by eapply recoverable_install.
Qed.

(** What the writes of a transaction leave on the disk, cut short anywhere. *)
Lemma transaction_recoverable bl s f L W rest :
  homes st bl → L = logging_writes st bl (seen s) (seen s st) →
  pending st f [] (k_disk s) → pending st (seen s) bl (apply_writes L (k_disk s)) →
  L ++ install_writes st bl (apply_writes L (k_disk s)) = W ++ rest →
  recoverable st f (apply_writes W (k_disk s)) ∨ recoverable st (seen s) (apply_writes W (k_disk s)).
Proof.
  intros Hh HL H0 Hp E. apply app_eq_inv in E as [(k & EL & _)|(k & -> & E)].
  - destruct k as [|w k].
    + right. rewrite app_nil_r in EL. rewrite <-EL. by exists bl.
    + left. exists []. rewrite HL in EL. by eapply pending_logging.
  - right. rewrite apply_writes_app. by eapply recoverable_install.
Qed.

Lemma commit_result bl s :
  fs_ok t (list_to_set bl) ∅ s → log_ok st bl (k_log s) → homes st bl → word32 (block (k_disk s) st) 0 = 0 →
  eruns R commit s (λ _ s', ∃ W, fs_ok t ∅ ∅ s' ∧ pending st (seen s) [] (k_disk s') ∧
    k_log s' = set_lh_n 0 (k_log s) ∧ wsim s s' ∧ k_dwrites s' = reverse W ++ k_dwrites s ∧
    ∀ W' rest, W = W' ++ rest → recoverable st (block (k_disk s)) (apply_writes W' (k_disk s)) ∨
      recoverable st (seen s) (apply_writes W' (k_disk s))).
Proof.
  intros Hs Hg Hh H0. assert (pending st (block (k_disk s)) [] (k_disk s)) as Hp0.
  { apply pending_nil; [eapply length_block, Hs|done|done]. }
  destruct (decide (bl = [])) as [->|Hne].
  - unfold commit, get_log. do 2 estep. rewrite (lo_n _ _ _ Hg). cbn [length Z.of_nat].
    rewrite Z.ltb_irrefl. cbn [when]. estep.
    exists []. split_and!; [done| |by apply log_empty|done|done|].
    { apply pending_nil; [apply Hp0|done|]. intros n _. symmetry. by apply (seen_clean t). }
    intros W' rest [-> ->]%symmetry%app_nil. left. by exists [].
  - destruct (commit_spec bl s Hs Hg Hh Hne) as [Hp Hc]. eapply eruns_conseq; [exact Hc|].
    intros [] s' (H1 & W1). eexists. split_and!; [done| |exact (wrote_k_log _ _ _ W1)|exact (wrote_wsim _ _ _ W1)|exact (wrote_k_dwrites _ _ _ W1)|].
    + rewrite (wrote_k_disk _ _ _ W1), apply_writes_app. exact (pending_cleared st Ha _ _ _ Hp).
    + intros W' rest E. by eapply transaction_recoverable.
Qed.

(** C2: If the disk can be recovered to contents [f], then recovery
    ([recover_from_log]) gives them, also when earlier recoveries were cut
    short after any number of their writes to the disk. *)
Theorem recover_crash_safe s f :
  fs_ok t ∅ ∅ s → log_set st (k_log s) → recoverable st f (k_disk s) →
  eruns R recover_from_log s (λ _ s', outside st f (k_disk s') ∧
    ∃ W, k_dwrites s' = reverse W ++ k_dwrites s ∧
      ∀ W' rest r, W = W' ++ rest →
        fs_ok t ∅ ∅ r → log_set st (k_log r) → k_disk r = apply_writes W' (k_disk s) →
        eruns R recover_from_log r (λ _ r', outside st f (k_disk r') ∧ word32 (block (k_disk r') st) 0 = 0)).
Proof.
  intros Hs Hg Hr. eapply eruns_conseq; [by apply recover_result|].
  intros [] s' (_ & _ & Ho & W & EW & HW). split; [done|]. exists W. split; [done|].
  intros W' rest r E H1 H2 Ed. eapply eruns_conseq; [apply recover_result|]; [done|done|rewrite Ed; by eapply HW|].
  intros [] r' (_ & Hp & Ho' & _). split; [done|apply Hp].
Qed.

(** C1: A transaction is atomic with respect to crashes. [commit] puts what
    the cache shows on the disk. Whatever number of its writes reach the disk
    before a crash, recovery at the next boot gives the disk outside of the log
    either as it was before [commit], or as [commit] would have left it. *)
Theorem commit_crash_safe s bl :
  fs_ok t (list_to_set bl) ∅ s → log_ok st bl (k_log s) → homes st bl →
  word32 (block (k_disk s) st) 0 = 0 →
  eruns R commit s (λ _ s', fs_ok t ∅ ∅ s' ∧ outside st (seen s) (k_disk s') ∧
    ∃ W, k_dwrites s' = reverse W ++ k_dwrites s ∧
      ∀ W' rest r, W = W' ++ rest →
        fs_ok t ∅ ∅ r → log_set st (k_log r) → k_disk r = apply_writes W' (k_disk s) →
        eruns R recover_from_log r (λ _ r', outside st (block (k_disk s)) (k_disk r') ∨
          outside st (seen s) (k_disk r'))).
Proof.
  intros Hs Hg Hh H0. eapply eruns_conseq; [by eapply commit_result|].
  intros [] s' (W & H1 & Hp & _ & _ & EW & HW). split_and!; [done|by apply pending_outside|]. exists W. split; [done|].
  intros W' rest r E Hr1 Hr2 Ed. destruct (HW W' rest E) as [Hr|Hr]; rewrite <-Ed in Hr;
    (eapply eruns_conseq; [by apply recover_result|]); intros [] r' (_ & _ & Ho' & _); [by left|by right].
Qed.
End recovery.
