(* ===== verification/LogWrite.v ===== *)
(** [log_write] (kernel/fs/log.c): a transaction lists each block once and pins
    its buffer once. *)

From S2P Require Import Prelude Mem State Machine Mm MmInit Proc Sync Virtio Buf Log Inode FsData ProcTheorems Env VirtioTheorems BufList BufCache BufOps LogOps LogTheorems.

(** ** Definitions *)

(** The entries after [log_write] of block [n]. *)
Definition logged (n : Z) (bl : list Z) : list Z := if decide (n ∈ bl) then bl else bl ++ [n].

(** A transaction with the entries [bl] is open; the task holds the blocks [H]. *)
Record txn (t : task) (st : Z) (bl : list Z) (H : gset Z) (s : kstate) : Prop := {
  tx_fs : fs_ok t (list_to_set bl) H s;
  tx_log : log_ok st bl (k_log s);
  tx_homes : homes st bl;
  tx_size : lg_size (k_log s) = LOG_SIZE;
  tx_open : 1 ≤ lg_outstanding (k_log s);
}.

(** No transaction is open and the log on the disk is empty. *)
Record quiet (t : task) (st : Z) (s : kstate) : Prop := {
  qt_fs : fs_ok t ∅ ∅ s;
  qt_log : log_ok st [] (k_log s);
  qt_size : lg_size (k_log s) = LOG_SIZE;
  qt_closed : lg_outstanding (k_log s) = 0;
  qt_committing : lg_committing (k_log s) = false;
  qt_header : word32 (block (k_disk s) st) 0 = 0;
}.

(** The writes [W], cut short anywhere, can be recovered to the contents [f] or
    to the contents [g]. *)
Definition cut_short (st : Z) (f g : Z → list Z) (W : list (Z * list Z)) (dk : disk) : Prop :=
  ∀ W' rest, W = W' ++ rest → recoverable st f (apply_writes W' dk) ∨ recoverable st g (apply_writes W' dk).

(** One operation of the file system that changes block [n]. *)
Definition update_op `{Device} `{Rounds} (n : Z) (f : list Z → list Z) : KM unit :=
  begin_op;;
  b ← bread ROOT_DEV n;
  set_buf_data b f;;
  log_write b;;
  brelse b;;
  end_op.

(** ** Lemmas *)

Lemma runs_assoc {A B C : Type} (m : KM A) (f : A → KM B) (g : B → KM C) s Q :
  runs (a ← m; b ← f a; g b) s Q → runs ((m ≫= f) ≫= g) s Q.
Proof.
  intros (c & s' & E & HQ). exists c, s'. split; [|done]. rewrite <-E, !K_bind_eq.
  rewrite K_bind_eq in E. by destruct (m s).
Qed.

Lemma block_index_spec n l :
  block_index n l = match list_find (λ x, x = n) l with Some (i, _) => i | None => length l end.
Proof.
  induction l as [|x l IH]; [done|]. simpl. destruct (Z.eqb_spec x n) as [E|E].
  - by rewrite decide_True.
  - rewrite decide_False, IH by done. by destruct (list_find _ l) as [[i y]|].
Qed.

Lemma block_index_in n l : n ∈ l → l !! block_index n l = Some n ∧ (block_index n l < length l)%nat.
Proof.
  intros Hn. rewrite block_index_spec. destruct (list_find _ l) as [[i y]|] eqn:E.
  - apply list_find_Some in E as (Hi & -> & _). split; [done|]. by eapply lookup_lt_Some.
  - apply list_find_None in E. rewrite Forall_forall in E. by destruct (E n Hn).
Qed.

Lemma block_index_out n l : n ∉ l → block_index n l = length l.
Proof.
  intros Hn. rewrite block_index_spec. destruct (list_find _ l) as [[i y]|] eqn:E; [|done].
  apply list_find_Some in E as (Hi & -> & _). destruct Hn. by eapply list_elem_of_lookup_2.
Qed.

Lemma logged_homes st n bl :
  homes st bl → (S (length bl) < Z.to_nat LOG_SIZE)%nat → 0 ≤ n < 2 ^ 31 → ¬ in_log st n → homes st (logged n bl).
Proof.
  intros [H1 H2 H3] Hl Hn Hi. unfold logged. case_decide as E; [done|]. split.
  - apply NoDup_app. split; [done|]. split; [set_solver|apply NoDup_singleton].
  - rewrite length_app. simpl. lia.
  - apply Forall_app. split; [done|]. by apply Forall_singleton.
Qed.

(** Storing the number of a listed block at its place changes nothing; storing
    another one after the last entry appends it. *)
Lemma log_ok_store st bl g n :
  log_ok st bl g → (length bl < Z.to_nat LOG_SIZE)%nat →
  log_ok st (logged n bl) (set_lh_n (Z.of_nat (length (logged n bl)))
    (set_lh_blocks (<[block_index n bl := n]> (lh_blocks g)) g)).
Proof.
  intros [H1 H2 H3 H4 H5] Hl. split; try done; simpl; [by rewrite length_insert|].
  unfold logged. case_decide as E.
  - destruct (block_index_in n bl E) as [Hi Hlt]. rewrite list_insert_id; [done|].
    rewrite <-H5, lookup_take_Some, H5 in Hi. apply Hi.
  - rewrite (block_index_out n bl E), length_app, Nat.add_1_r, (take_S_r _ _ n) by
      (apply list_lookup_insert_eq; lia).
    by rewrite take_insert_ge, H5 by lia.
Qed.

Section log_write.
Context (t : task) (FL : fs_locks t).

(** [bpin] under the lock of the log. *)
Lemma bpin_at n held P H s bno b d :
  on_cpu t n held s → n + 1 < 2 ^ 30 → LBcache ∉ held → 0 ≤ n →
  cache_ok t P H (k_bufs s) (k_slocks s) (k_disk s) → bno ∈ H → bno ∉ P → holds s bno b d →
  ∃ x, cached (k_bufs s) bno b x ∧ b_data x = d ∧
  change t P H ({[bno]} ∪ P) H (k_bufs s) (k_slocks s) (k_slocks s) (k_disk s) (k_disk s) b x
    (set_b_refcnt (u32 (b_refcnt x + 1)) x) ∧
  runs (bpin b) s (λ _ s', on_cpu t n held s' ∧
    sim (set_k_bufs (<[b := set_b_refcnt (u32 (b_refcnt x + 1)) x]> (k_bufs s)) s) s').
Proof.
  intros Hi Hn Hh H0 Hc HH HP (x & C & <-). exists x. pose proof C as (_ & Hx & _).
  split_and!; [done|done|by apply change_pin|]. unfold bpin. kstep.
  kcall (acquire_spec t n held LBcache s Hi (fl_cache _ FL)); [done|done|]. intros [] s1 [H1 S1].
  pose proof (sim_k_bufs _ _ S1) as B1. rewrite B1 in Hx. kstep.
  assert (1 ≤ b_refcnt x) as Hr.
  { rewrite (cached_refs Hc C), (one_true (bno ∈ H)) by done. pose proof (one_bounds (bno ∈ P)). lia. }
  kstep. eapply runs_ok; [by apply get_buf_eq|]. rewrite (proj2 (Z.ltb_ge _ _)) by lia.
  eapply runs_ok; [by apply (upd_buf_eq _ _ x)|].
  kcall (release_spec t (n + 1) _ LBcache _ (on_cpu_bufs _ _ _ _ _ H1) (fl_cache _ FL)); [set_solver|lia|].
  intros [] s2 [H2 S2]. replace (n + 1 - 1) with n in H2 by lia.
  replace (({[LBcache]} ∪ held) ∖ {[LBcache]}) with held in H2 by set_solver.
  split; [done|]. etrans; [|exact S2]. rewrite B1. by apply set_k_bufs_proper.
Qed.

(** A step that changes nothing but the log. *)
Lemma fs_ok_same P H s s' g bno b d :
  fs_ok t P H s → holds s bno b d → sim (set_k_log g s) s' → idle t s' →
  fs_ok t P H s' ∧ holds s' bno b d ∧ (∀ n, seen s' n = seen s n) ∧ rsim (set_k_log g s) s' ∧ kept H bno s s'.
Proof.
  intros [H1 H2 H3] Hb S Hi. pose proof (sim_k_bufs _ _ S) as B. pose proof (sim_k_disk _ _ S) as D.
  cbn [k_bufs k_disk set_k_log] in B, D. split_and!.
  - eapply fs_ok_fsim; [exact (sim_fsim _ _ S)|done|by rewrite <-(sim_k_vdisk _ _ S)|done].
  - destruct Hb as (x & C & Hd). exists x. by rewrite <-B.
  - intros n. by rewrite <-B, <-D.
  - by apply fsim_rsim, sim_fsim.
  - intros n b' d' Hn Hne (x & C & Hd). exists x. by rewrite <-B.
Qed.

(** What [log_write] stores in the log. *)
Lemma log_store_eq st bl bno s :
  log_ok st bl (k_log s) → (length bl < Z.to_nat LOG_SIZE)%nat →
  set_log_block (block_index bno bl) bno s =
  Ok tt (set_k_log (set_lh_blocks (<[block_index bno bl := bno]> (lh_blocks (k_log s))) (k_log s)) s).
Proof.
  intros Hg Hl. unfold set_log_block, get_log. erewrite bind_ok by done.
  rewrite decide_True; [done|]. rewrite (lo_len _ _ _ Hg). destruct (decide (bno ∈ bl)) as [E|E].
  - destruct (block_index_in bno bl E). lia.
  - rewrite block_index_out by done. lia.
Qed.

(** The case of a block that is not listed: it is pinned and appended. *)
Lemma log_append_spec (bl : list Z) P H s s1 g bno b d :
  fs_ok t P H s → bno ∈ H → bno ∉ P → (S (length bl) < Z.to_nat LOG_SIZE)%nat → holds s bno b d →
  on_cpu t 1 {[LLog]} (set_k_log g s1) → sim s s1 →
  runs (bpin b;; upd_log (set_lh_n (u32 (Z.of_nat (length bl) + 1)));; spin_lock_release LLog) (set_k_log g s1)
    (λ _ s', fs_ok t ({[bno]} ∪ P) H s' ∧ holds s' bno b d ∧ (∀ n, seen s' n = seen s n) ∧
      rsim (set_k_log (set_lh_n (Z.of_nat (length bl) + 1) g) s) s' ∧ kept H bno s s').
Proof.
  intros Hs HH HP Hl Hb H2 S1. rewrite wrap_small by (unfold LOG_SIZE in *; lia).
  destruct (bpin_at 1 {[LLog]} P H (set_k_log g s1) bno b d H2) as (x & C & Hd & Hch & Hrun);
    [lia|set_solver|lia| |done|done| |].
  { cbn [k_bufs k_slocks k_disk set_k_log]. rewrite <-(sim_k_bufs _ _ S1), <-(sim_k_slocks _ _ S1), <-(sim_k_disk _ _ S1).
    apply Hs. }
  { destruct Hb as (x & C & Hd). exists x. cbn [k_bufs set_k_log]. by rewrite <-(sim_k_bufs _ _ S1). }
  kstep. eapply runs_conseq; [exact Hrun|]. intros [] s3 [H3 S3]. unfold upd_log. do 2 kstep.
  rewrite <-(sim_k_log _ _ S3). cbn [k_log set_k_log set_k_bufs].
  set (g' := set_lh_n _ g). assert (on_cpu t 1 {[LLog]} (set_k_log g' s3)) as H3' by by eapply on_cpu_sim.
  kcall (release1 t LLog _ H3' (fl_log _ FL)). intros [] s4 [H4 S4].
  cbn [k_bufs k_slocks k_disk set_k_log] in C, Hch, S3.
  rewrite <-(sim_k_bufs _ _ S1), <-?(sim_k_slocks _ _ S1), <-?(sim_k_disk _ _ S1) in C, Hch, S3.
  rewrite <-(sim_k_slocks _ _ S1), <-(sim_k_disk _ _ S1) in Hch. set (y := set_b_refcnt _ x) in *.
  assert (sim (set_k_log g' (set_k_bufs (<[b := y]> (k_bufs s)) s)) s4) as S.
  { etrans; [|exact S4]. apply set_k_log_proper with (x := set_k_bufs (<[b := y]> (k_bufs s)) (set_k_log g s)).
    etrans; [|exact S3]. by apply set_k_bufs_proper, set_k_log_proper. }
  pose proof C as (_ & _ & _ & Hn).
  destruct (fs_ok_change t P H ({[bno]} ∪ P) H (set_k_log g' s) s4 _ b x y Hch)
    as (A1 & A2 & A3 & A4 & A5); [by apply fs_ok_log|exact (sim_fsim _ _ S)|done| |].
  { rewrite <-(sim_k_vdisk _ _ S). apply Hs. }
  change (b_bno y) with (b_bno x) in *. change (b_data y) with (b_data x) in *. rewrite Hn, Hd in *.
  split_and!; try done.
  intros n. rewrite A3. case_decide as En; [|done]. subst n. symmetry. exact (holds_seen _ _ _ _ _ _ _ Hs Hb).
Qed.

(** The log and the cache after the critical section of [log_write]. *)
Lemma log_pin_spec st bl H s s1 bno b d :
  txn t st bl H s → bno ∈ H → (S (length bl) < Z.to_nat LOG_SIZE)%nat → holds s bno b d →
  on_cpu t 1 {[LLog]} s1 → sim s s1 →
  runs (set_log_block (block_index bno bl) bno;;
        when (Z.of_nat (block_index bno bl) =? Z.of_nat (length bl))
          (bpin b;; upd_log (set_lh_n (u32 (Z.of_nat (length bl) + 1))));;
        spin_lock_release LLog) s1 (λ _ s',
    fs_ok t (list_to_set (logged bno bl)) H s' ∧ holds s' bno b d ∧ (∀ n, seen s' n = seen s n) ∧
    rsim (set_k_log (set_lh_n (Z.of_nat (length (logged bno bl)))
      (set_lh_blocks (<[block_index bno bl := bno]> (lh_blocks (k_log s))) (k_log s))) s) s' ∧ kept H bno s s').
Proof.
  intros [Hs Hg Hh Hsz Ho] HH Hl Hb H1 S1. pose proof (sim_k_log _ _ S1) as L1.
  set (i := block_index bno bl) in *. set (g := set_lh_blocks (<[i := bno]> (lh_blocks (k_log s))) (k_log s)).
  kstep. eapply runs_ok; [apply (log_store_eq st bl); [by rewrite <-L1|lia]|]. fold i. rewrite <-L1. fold g.
  assert (on_cpu t 1 {[LLog]} (set_k_log g s1)) as H2 by by eapply on_cpu_sim.
  unfold logged. case_decide as E.
  - destruct (block_index_in bno bl E) as [_ Hlt]. fold i in Hlt.
    rewrite (proj2 (Z.eqb_neq _ _)) by lia. kstep. cbn [when]. kstep.
    kcall (release1 t LLog _ H2 (fl_log _ FL)). intros [] s3 [H3 S3].
    destruct (fs_ok_same (list_to_set bl) H s s3 g bno b d Hs Hb) as (A1 & A2 & A3 & A4 & A5); [|done|].
    { etrans; [|exact S3]. by apply set_k_log_proper. }
    split_and!; try done. by replace (set_lh_n (Z.of_nat (length bl)) g) with g
      by (unfold g; rewrite <-(lo_n _ _ _ Hg); by destruct (k_log s)).
  - unfold i. rewrite (block_index_out bno bl E), Z.eqb_refl. cbn [when].
    apply runs_assoc. kcall (log_append_spec bl (list_to_set bl) H s s1 g bno b d Hs HH); try done; [set_solver|].
    intros [] s4 (A1 & A2 & A3 & A4 & A5). split_and!; try done.
    + by replace (list_to_set (bl ++ [bno])) with ({[bno]} ∪ list_to_set bl : gset Z) by set_solver.
    + rewrite length_app, Nat2Z.inj_add. exact A4.
Qed.

Lemma log_write_spec st bl H s bno b d :
  txn t st bl H s → bno ∈ H → ¬ in_log st bno → (S (length bl) < Z.to_nat LOG_SIZE)%nat → holds s bno b d →
  runs (log_write b) s (λ _ s', txn t st (logged bno bl) H s' ∧ holds s' bno b d ∧
    (∀ n, seen s' n = seen s n) ∧ rsim (set_k_log (k_log s') s) s' ∧
    lg_outstanding (k_log s') = lg_outstanding (k_log s) ∧ lg_committing (k_log s') = lg_committing (k_log s) ∧ kept H bno s s').
Proof.
  intros Ht HH Hi Hl Hb. pose proof Ht as [Hs Hg Hh Hsz Ho]. pose proof Hb as (x & C & Hd).
  pose proof C as (_ & Hx & _ & Hn). unfold log_write, get_log.
  kstep. kcall (acquire0 t _ s (fo_cpu _ _ _ _ Hs) (fl_log _ FL)). intros [] s1 [H1 S1].
  do 2 kstep. rewrite <-(sim_k_log _ _ S1), Hsz, (lo_n _ _ _ Hg).
  rewrite (proj2 (Z.leb_gt _ _)) by (rewrite wrap_small; unfold LOG_SIZE in *; lia).
  rewrite (proj2 (Z.ltb_ge _ _)) by done. kstep.
  eapply runs_ok; [apply get_buf_eq; by rewrite <-(sim_k_bufs _ _ S1)|]. cbv zeta.
  rewrite Hn, Nat2Z.id, (lo_bl _ _ _ Hg). kcall (log_pin_spec st bl H s s1 bno b d Ht HH Hl Hb H1 S1).
  intros [] s' (A1 & A2 & A3 & A4 & A5). pose proof (rsim_k_log _ _ A4) as L. cbn [k_log set_k_log] in L.
  split_and!; [|done|done|by rewrite <-L|by rewrite <-L|by rewrite <-L|done]. split; rewrite <-?L; try done.
  - apply log_ok_store; [done|lia].
  - apply logged_homes; try done. rewrite <-Hn. apply (cached_ok (fo_cache _ _ _ _ Hs) C).
Qed.

(** [log_write] in an open transaction lists the block once and pins its
    buffer once, however often it is called; the contents of all blocks stay
    the same and nothing is written to the disk. *)
Theorem log_write_absorbs st bl H s bno b d :
  txn t st bl H s → bno ∈ H → ¬ in_log st bno → (S (length bl) < Z.to_nat LOG_SIZE)%nat → holds s bno b d →
  runs (log_write b) s (λ _ s', txn t st (logged bno bl) H s' ∧ holds s' bno b d ∧
    (∀ n, seen s' n = seen s n) ∧ k_disk s' = k_disk s ∧ kept H bno s s').
Proof.
  intros. eapply runs_conseq; [by eapply log_write_spec|]. intros [] s' (A1 & A2 & A3 & A4 & _ & _ & A5).
  split_and!; try done. exact (eq_sym (rsim_k_disk _ _ A4)).
Qed.
End log_write.

Section operations.
Context `{DV : Device} `{RN : Rounds} (R : env) `{DK : !Disk R} (t : task) (FL : fs_locks t).
Context (Hrounds : (1 < rounds)%nat) (st : Z) (Ha : log_area st).

Lemma log_section P H s s1 s2 g :
  fs_ok t P H s → sim s s1 → idle t s2 → sim (set_k_log g s1) s2 →
  fs_ok t P H s2 ∧ (∀ n, seen s2 n = seen s n) ∧ rsim (set_k_log g s) s2 ∧ k_disk s2 = k_disk s ∧ k_log s2 = g.
Proof.
  intros Hs S1 Hi S2. assert (sim (set_k_log g s) s2) as S by (etrans; [|exact S2]; by apply set_k_log_proper).
  pose proof (sim_k_bufs _ _ S) as B. pose proof (sim_k_disk _ _ S) as D. cbn [k_bufs k_disk set_k_log] in B, D.
  split_and!; [|by rewrite <-B, <-D|by apply fsim_rsim, sim_fsim|done|exact (eq_sym (sim_k_log _ _ S))].
  eapply fs_ok_fsim; [exact (sim_fsim _ _ S)|done|rewrite <-(sim_k_vdisk _ _ S); apply Hs|apply Hs].
Qed.

Lemma begin_op_spec s :
  quiet t st s →
  eruns R begin_op s (λ _ s', txn t st [] ∅ s' ∧ lg_outstanding (k_log s') = 1 ∧
    lg_committing (k_log s') = false ∧ (∀ n, seen s' n = seen s n) ∧ k_disk s' = k_disk s ∧ k_dwrites s' = k_dwrites s ∧ wsim s s').
Proof.
  intros [Hs Hg Hsz Ho Hc Hd]. unfold begin_op, get_log.
  estep. ecallr (acquire0 t _ s (fo_cpu _ _ _ _ Hs) (fl_log _ FL)). intros [] s1 [H1 S1].
  apply eruns_loop_exit; [lia|]. do 2 estep. rewrite <-(sim_k_log _ _ S1), Hc, Ho, (lo_n _ _ _ Hg).
  change (LOG_SIZE <? u32 (Z.of_nat (length (A := Z) []) + (0 + 1) * MAX_OP_BLKS)) with false. cbv iota.
  unfold upd_log. do 3 estep. rewrite <-(sim_k_log _ _ S1).
  assert (on_cpu t 1 {[LLog]} (set_k_log (set_lg_outstanding 1 (k_log s)) s1)) as H1' by by eapply on_cpu_sim.
  ecallr (release1 t LLog _ H1' (fl_log _ FL)). intros [] s2 [H2 S2].
  destruct (log_section ∅ ∅ s s1 s2 _ Hs S1 H2 S2) as (A1 & A2 & A3 & A4 & A5). estep.
  split_and!; [|by rewrite A5|by rewrite A5|done|done|exact (eq_sym (rsim_k_dwrites _ _ A3))|exact (wsim_log _ _ _ (rsim_wsim _ _ A3))].
  split; rewrite ?A5; try done; [|apply homes_nil]. destruct Hg. by split.
Qed.

Lemma end_op_spec bl s :
  txn t st bl ∅ s → lg_outstanding (k_log s) = 1 → lg_committing (k_log s) = false →
  word32 (block (k_disk s) st) 0 = 0 →
  eruns R end_op s (λ _ s', quiet t st s' ∧ outside st (seen s) (k_disk s') ∧ wsim s s' ∧
    ∃ W, k_dwrites s' = reverse W ++ k_dwrites s ∧ cut_short st (block (k_disk s)) (seen s) W (k_disk s)).
Proof.
  intros [Hs Hg Hh Hsz _] Ho Hc Hd. unfold end_op, get_log.
  estep. ecallr (acquire0 t _ s (fo_cpu _ _ _ _ Hs) (fl_log _ FL)). intros [] s1 [H1 S1].
  unfold upd_log. do 4 estep. cbn [k_log set_k_log lg_committing set_lg_outstanding lg_outstanding].
  rewrite <-(sim_k_log _ _ S1), Hc, Ho. change (s32 (1 - 1)) with 0. cbn [Z.eqb].
  do 4 estep. cbn [k_log set_k_log]. set (g := set_lg_committing true _).
  match goal with |- eruns _ _ ?x _ => change x with (set_k_log g s1) end.
  assert (on_cpu t 1 {[LLog]} (set_k_log g s1)) as H1' by by eapply on_cpu_sim.
  estep. ecallr (release1 t LLog _ H1' (fl_log _ FL)). intros [] s2 [H2 S2].
  destruct (log_section _ _ s s1 s2 g Hs S1 H2 S2) as (A1 & A2 & A3 & A4 & A5). cbn [when].
  estep. ecall (commit_result R t FL Hrounds st Ha bl s2 A1); [| done | by rewrite A4 |].
  { rewrite A5. destruct Hg. by split. }
  intros [] s3 (W & B1 & B2 & B3 & B4 & B5 & B6).
  estep. ecallr (acquire0 t _ s3 (fo_cpu _ _ _ _ B1) (fl_log _ FL)). intros [] s4 [H4 S4].
  do 2 estep. rewrite <-(sim_k_log _ _ S4), B3, A5. set (g' := set_lg_committing false _).
  assert (on_cpu t 1 {[LLog]} (set_k_log g' s4)) as H4' by by eapply on_cpu_sim.
  estep. ecallr (wake_up_spec t 1 {[LLog]} ChLog _ H4'); [lia|set_solver|]. intros [] s5 [H5 S5].
  ecallr (release1 t LLog _ H5 (fl_log _ FL)). intros [] s6 [H6 S6].
  destruct (log_section _ _ s3 s4 s6 g' B1 S4 H6) as (C1 & C2 & C3 & C4 & C5); [by etrans|].
  split_and!.
  - split; rewrite ?C4, ?C5; try done; [|apply B2]. destruct Hg. by split.
  - rewrite C4. intros n Hn. rewrite <-A2. by apply (pending_outside st).
  - etrans; [exact (wsim_log _ _ _ (rsim_wsim _ _ A3))|]. etrans; [exact B4|]. exact (wsim_log _ _ _ (rsim_wsim _ _ C3)).
  - exists W. split.
    + rewrite <-(rsim_k_dwrites _ _ C3), <-(rsim_k_dwrites _ _ A3 : k_dwrites s = _) in *. exact B5.
    + intros W' rest E. rewrite A4 in A2, B6. destruct (B6 W' rest E) as [Hp|Hp]; [by left|right]. by eapply recoverable_ext.
Qed.

(** An operation that changes one block of the file system and returns has
    put the change on the disk, and changed no other block outside of the log;
    the log is empty again. *)
Theorem update_op_durable n f s :
  quiet t st s → 0 ≤ n < 2 ^ 31 → ¬ in_log st n →
  (∀ d, length d = Z.to_nat BLOCK_SIZE → length (f d) = Z.to_nat BLOCK_SIZE) →
  eruns R (update_op n f) s (λ _ s', quiet t st s' ∧ ∀ m, ¬ in_log st m →
    block (k_disk s') m = if decide (m = n) then f (block (k_disk s) n) else block (k_disk s) m).
Proof.
  intros Hq Hn Hi Hf. unfold update_op. pose proof (seen_clean t s) as Hcl. specialize (λ m, Hcl m (qt_fs _ _ _ Hq)).
  estep. ecall (begin_op_spec s Hq). intros [] s1 (T1 & O1 & C1 & V1 & D1 & _ & _).
  estep. ecall (bread_spec R t FL Hrounds ∅ ∅ n s1 (tx_fs _ _ _ _ _ T1));
    [set_solver|done|right; rewrite (right_id_L ∅ (∪)), size_empty; unfold N_BUF; lia|].
  intros b s2 (H2 & B2 & V2 & R2 & _). rewrite (right_id_L ∅ (∪)), V1, Hcl in *.
  estep. ecallr (set_buf_data_spec t ∅ {[n]} s2 n b _ f H2); [set_solver|done|apply Hf; eapply length_block, Hq|].
  intros [] s3 (H3 & B3 & V3 & R3 & _). pose proof (transitivity R2 R3) as R13. pose proof (rsim_k_log _ _ R13) as L3.
  assert (txn t st [] {[n]} s3) as T3 by (destruct T1; split; rewrite <-?L3; done).
  estep. ecallr (log_write_spec t FL st [] {[n]} s3 n b _ T3); [set_solver|done|unfold LOG_SIZE; simpl; lia|done|].
  intros [] s4 (T4 & B4 & V4 & R4 & O4 & C4 & _). change (logged n []) with [n] in T4.
  estep. ecallr (brelse_spec t FL _ {[n]} s4 n b _ (tx_fs _ _ _ _ _ T4)); [set_solver|done|left; set_solver|].
  intros [] s5 (H5 & V5 & R5 & _). rewrite difference_diag_L in H5. pose proof (rsim_k_log _ _ R5) as L5.
  assert (txn t st [n] ∅ s5) as T5 by (destruct T4; split; rewrite <-?L5; done).
  assert (k_disk s5 = k_disk s) as D5.
  { rewrite <-D1, (rsim_k_disk _ _ R13), <-(rsim_k_disk _ _ R5). exact (eq_sym (rsim_k_disk _ _ R4)). }
  ecall (end_op_spec [n] s5 T5); [by rewrite <-L5, O4, <-L3|by rewrite <-L5, C4, <-L3|rewrite D5; apply Hq|].
  intros [] s6 (Hq6 & Ho & _). split; [done|]. intros m Hm. rewrite (Ho m Hm), V5, V4, V3. case_decide; [done|].
  by rewrite V2, V1, Hcl.
Qed.

(** C32: [begin_op] admits a third operation on an empty log, so that thirty
    entries may be needed, but [log_write] of a transaction with twenty-nine
    entries panics: the log has room for one entry less than [begin_op]
    reserves. *)
Theorem log_capacity s full b :
  idle t s → lh_n (k_log s) = 0 → lg_outstanding (k_log s) = 2 → lg_committing (k_log s) = false →
  idle t full → lg_size (k_log full) = LOG_SIZE → lh_n (k_log full) = LOG_SIZE - 1 →
  eruns R begin_op s (λ _ s', lg_outstanding (k_log s') = 3) ∧ 3 * MAX_OP_BLKS = LOG_SIZE ∧
  ∃ s', log_write b full = Panic "too big a transaction" s'.
Proof.
  intros Hi Hn Ho Hc Hf Hsz Hfn. split_and!.
  - unfold begin_op, get_log. estep. ecallr (acquire0 t _ s Hi (fl_log _ FL)). intros [] s1 [H1 S1].
    apply eruns_loop_exit; [lia|]. do 2 estep. rewrite <-(sim_k_log _ _ S1), Hc, Ho, Hn.
    change (LOG_SIZE <? u32 (0 + (2 + 1) * MAX_OP_BLKS)) with false. cbv iota.
    unfold upd_log. do 3 estep. rewrite <-(sim_k_log _ _ S1).
    ecallr (release1 t LLog (set_k_log (set_lg_outstanding 3 (k_log s)) s1)); [by eapply on_cpu_sim|apply FL|].
    intros [] s2 [H2 S2]. estep. by rewrite <-(sim_k_log _ _ S2).
  - done.
  - destruct (acquire0 t _ full Hf (fl_log _ FL)) as ([] & s1 & E & H1 & S1). exists s1.
    unfold log_write, get_log. erewrite bind_ok by exact E. erewrite bind_ok by done.
    by rewrite <-(sim_k_log _ _ S1), Hsz, Hfn.
Qed.
End operations.
