(* ===== verification/InodeRead.v ===== *)
(** The blocks of a file and reading it (kernel/fs/inode.c: [bmap] of a block
    that is there, [readi]): a file is the bytes of its blocks, which the inode
    addresses directly or through its indirect blocks. *)

From S2P Require Import Prelude Mem State Machine Mm MmInit Proc Sync Virtio Buf Log Inode FsData ProcTheorems Env VirtioTheorems BufList BufCache BufOps LogOps LogTheorems.

(** ** Definitions *)

(** The largest number of blocks of a file. *)
Definition MAX_BLOCKS : Z := N_DIRECT + N_INDIRECT * APB.

Section blocks.
Context (f : Z → list Z) (addrs : list Z).

(** The address of the indirect block for block [j] of the file. *)
Definition ind_of (j : Z) : Z := default 0 (addrs !! Z.to_nat (N_DIRECT + (j - N_DIRECT) / APB)).

(** The address of block [j]. *)
Definition faddr (j : Z) : Z :=
  if j <? N_DIRECT then default 0 (addrs !! Z.to_nat j)
  else word32 (f (ind_of j)) (Z.to_nat ((j - N_DIRECT) mod APB)).

(** The bytes of a file of [size] bytes. *)
Definition fdata (size : Z) : list Z :=
  take (Z.to_nat size) (concat ((λ j, f (faddr j)) <$> seqZ 0 ((size + BLOCK_SIZE - 1) / BLOCK_SIZE))).

(** Block [j] has been allocated. *)
Record mapped (j : Z) : Prop := {
  ma_j : 0 ≤ j < MAX_BLOCKS;
  ma_ind : N_DIRECT ≤ j → 0 < ind_of j < 2 ^ 31;
  ma_addr : 0 < faddr j < 2 ^ 31;
}.

(** All blocks of a file of [size] bytes are there. *)
Record file_ok (size : Z) : Prop := {
  fk_len : length addrs = 13%nat;
  fk_size : 0 ≤ size ≤ MAX_BLOCKS * BLOCK_SIZE;
  fk_mapped : ∀ j, 0 ≤ j → j * BLOCK_SIZE < size → mapped j;
}.
End blocks.

(** ** The bytes of a file *)

Lemma lookup_concat {A} (g : Z → list A) (B : nat) (n : nat) : ∀ m k,
  (0 < B)%nat → (∀ j, length (g j) = B) → (k < n * B)%nat →
  concat (g <$> seqZ m (Z.of_nat n)) !! k = g (m + Z.of_nat (k / B)) !! (k mod B)%nat.
Proof.
  induction n as [|n IH]; intros m k HB Hg Hk; [lia|]. rewrite seqZ_cons by lia.
  replace (Z.pred (Z.of_nat (S n))) with (Z.of_nat n) by lia. cbn [fmap list_fmap concat].
  destruct (decide (k < B)%nat) as [Hlt|Hge].
  - rewrite lookup_app_l by (by rewrite Hg). rewrite Nat.div_small, Nat.mod_small by done.
    by rewrite Z.add_0_r.
  - rewrite lookup_app_r, Hg by (rewrite Hg; lia). rewrite IH by (done || lia).
    assert (k = (k - B) + 1 * B)%nat as E by lia. rewrite E at 3 4.
    rewrite Nat.div_add, Nat.Div0.mod_add by lia. f_equal. f_equal. lia.
Qed.

Lemma length_concat_same {A} (g : Z → list A) (B n : nat) m :
  (∀ j, length (g j) = B) → length (concat (g <$> seqZ m (Z.of_nat n))) = (n * B)%nat.
Proof.
  intros Hg. revert m. induction n as [|n IH]; intros m; [done|]. rewrite seqZ_cons by lia.
  replace (Z.pred (Z.of_nat (S n))) with (Z.of_nat n) by lia. cbn [fmap list_fmap concat].
  rewrite length_app, Hg, IH. lia.
Qed.

Section bytes.
Context (f : Z → list Z) (Hf : ∀ n, length (f n) = Z.to_nat BLOCK_SIZE) (addrs : list Z) (size : Z).

Lemma blocks_enough : 0 ≤ size → size ≤ (size + BLOCK_SIZE - 1) / BLOCK_SIZE * BLOCK_SIZE.
Proof. unfold BLOCK_SIZE. intros. Z.to_euclidean_division_equations; lia. Qed.

Lemma length_fdata : 0 ≤ size → length (fdata f addrs size) = Z.to_nat size.
Proof.
  intros Hs. unfold fdata. rewrite length_take.
  rewrite <-(Z2Nat.id ((size + BLOCK_SIZE - 1) / BLOCK_SIZE)) by (apply Z.div_pos; unfold BLOCK_SIZE; lia).
  rewrite (length_concat_same _ (Z.to_nat BLOCK_SIZE)) by done. pose proof (blocks_enough Hs). unfold BLOCK_SIZE in *. lia.
Qed.

Lemma lookup_fdata p :
  0 ≤ p < size → fdata f addrs size !! Z.to_nat p = f (faddr f addrs (p / BLOCK_SIZE)) !! Z.to_nat (p mod BLOCK_SIZE).
Proof.
  intros Hp. unfold fdata. rewrite lookup_take_lt by lia. pose proof (blocks_enough ltac:(lia)) as Hb.
  rewrite <-(Z2Nat.id ((size + BLOCK_SIZE - 1) / BLOCK_SIZE)) by (apply Z.div_pos; unfold BLOCK_SIZE; lia).
  rewrite (lookup_concat _ (Z.to_nat BLOCK_SIZE)); [|unfold BLOCK_SIZE; lia|done|unfold BLOCK_SIZE in *; lia].
  rewrite Z.add_0_l, Nat2Z.inj_div, !Z2Nat.id by (unfold BLOCK_SIZE in *; lia). f_equal.
  apply Nat2Z.inj. rewrite Nat2Z.inj_mod, !Z2Nat.id by (try apply Z.mod_pos_bound; unfold BLOCK_SIZE in *; lia). done.
Qed.

(** What [readi] takes from one block. *)
Lemma slice_fdata off len :
  0 ≤ off → 0 ≤ len → off + len ≤ size → off mod BLOCK_SIZE + len ≤ BLOCK_SIZE →
  slice (off mod BLOCK_SIZE) len (f (faddr f addrs (off / BLOCK_SIZE))) = slice off len (fdata f addrs size).
Proof.
  intros Ho Hl Hs Hb. unfold slice. apply list_eq. intros k.
  destruct (decide (k < Z.to_nat len)%nat) as [Hk|Hk]; [|by rewrite !lookup_take_ge by lia].
  rewrite !lookup_take_lt, !lookup_drop by done.
  replace (Z.to_nat off + k)%nat with (Z.to_nat (off + Z.of_nat k)) by lia. rewrite lookup_fdata by lia.
  assert ((off + Z.of_nat k) / BLOCK_SIZE = off / BLOCK_SIZE ∧
    (off + Z.of_nat k) mod BLOCK_SIZE = off mod BLOCK_SIZE + Z.of_nat k) as [-> ->].
  { unfold BLOCK_SIZE in *. Z.to_euclidean_division_equations; lia. }
  f_equal. pose proof (Z.mod_pos_bound off BLOCK_SIZE). unfold BLOCK_SIZE in *. lia.
Qed.

Lemma slice_app off n1 n2 (l : list Z) :
  0 ≤ off → 0 ≤ n1 → 0 ≤ n2 → slice off n1 l ++ slice (off + n1) n2 l = slice off (n1 + n2) l.
Proof.
  intros. unfold slice. rewrite !Z2Nat.inj_add, <-drop_drop by lia. rewrite <-take_take_drop. done.
Qed.
End bytes.

(** ** Reading blocks *)

(** Neither the contents of the blocks nor anything outside of the cache has
    changed. *)
Definition stays (t : task) (P : gset Z) (s s' : kstate) : Prop :=
  fs_ok t P ∅ s' ∧ (∀ n, seen s' n = seen s n) ∧ rsim s s'.

Lemma stays_refl t P s : fs_ok t P ∅ s → stays t P s s.
Proof. done. Qed.
Lemma stays_trans t P s1 s2 s3 : stays t P s1 s2 → stays t P s2 s3 → stays t P s1 s3.
Proof. intros (_ & V1 & R1) (H2 & V2 & R2). split_and!; [done|intros n; by rewrite V2|by etrans]. Qed.

Lemma get_inode_eq i x s : k_inodes s !! i = Some x → get_inode i s = Ok x s.
Proof. intros Hx. unfold get_inode. erewrite bind_ok by done. by rewrite Hx. Qed.

Lemma faddr_ext f g addrs j : (∀ n, f n = g n) → faddr f addrs j = faddr g addrs j.
Proof. intros E. unfold faddr. by rewrite E. Qed.

Lemma length_seen t P H s n : fs_ok t P H s → length (seen s n) = Z.to_nat BLOCK_SIZE.
Proof. intros Hs. eapply length_view, Hs. Qed.

(** A block is pinned or as on the disk. *)
Lemma clean_or_pinned t P s bno : fs_ok t P ∅ s → bno ∈ P ∨ seen s bno = block (k_disk s) bno.
Proof.
  intros Hs. destruct (decide (bno ∈ P)) as [|HnP]; [by left|right].
  apply (view_clean _ _ _ _ _ _ (fo_cache _ _ _ _ Hs)); [done|set_solver].
Qed.

Lemma length_slice (o n : Z) (l : list Z) :
  0 ≤ o → 0 ≤ n → o + n ≤ Z.of_nat (length l) → Z.of_nat (length (slice o n l)) = n.
Proof. intros. unfold slice. rewrite length_take, length_drop. lia. Qed.

Section read.
Context `{DV : Device} `{RN : Rounds} (R : env) `{DK : !Disk R} (t : task) (FL : fs_locks t).
Context (Hrounds : (1 < rounds)%nat) (P : gset Z) (HP : (size P < N_BUF)%nat).

Lemma bread0_spec s bno :
  fs_ok t P ∅ s → 0 ≤ bno < 2 ^ 31 →
  eruns R (bread ROOT_DEV bno) s (λ b s', fs_ok t P {[bno]} s' ∧ holds s' bno b (seen s bno) ∧
    (∀ n, seen s' n = seen s n) ∧ rsim s s').
Proof.
  intros Hs Hb. ecall (bread_spec R t FL Hrounds P ∅ bno s Hs); [set_solver|done|right; by rewrite (right_id_L ∅ (∪))|].
  intros b s1 (H1 & B1 & V1 & R1 & _). by rewrite (right_id_L ∅ (∪)) in H1.
Qed.

Lemma brelse0_spec s0 s bno b :
  fs_ok t P ∅ s0 → fs_ok t P {[bno]} s → holds s bno b (seen s0 bno) → rsim s0 s →
  runs (brelse b) s (λ _ s', fs_ok t P ∅ s' ∧ (∀ n, seen s' n = seen s n) ∧ rsim s s').
Proof.
  intros H0 Hs Hb Hr. kcall (brelse_spec t FL P {[bno]} s bno b _ Hs); [set_solver|exact Hb| |].
  { rewrite <-(rsim_k_disk _ _ Hr). by apply (clean_or_pinned t P). }
  intros [] s1 (H1 & V1 & R1 & _). by rewrite difference_diag_L in H1.
Qed.

(** [bmap] of a block that has been allocated. *)
Lemma bmap_mapped s i x j :
  fs_ok t P ∅ s → k_inodes s !! i = Some x → i_dev x = ROOT_DEV → length (i_addrs x) = 13%nat →
  mapped (seen s) (i_addrs x) j →
  eruns R (bmap i j) s (λ a s', a = faddr (seen s) (i_addrs x) j ∧ stays t P s s').
Proof.
  intros Hs Hx Hd Hlen [M1 M2 M3]. unfold bmap, iaddr. unfold MAX_BLOCKS in M1.
  assert (∀ k, (k < 13)%nat → i_addrs x !! k = Some (default 0 (i_addrs x !! k))) as Hk.
  { intros k Hk. by destruct (lookup_lt_is_Some_2 (i_addrs x) k) as [a ->]; [lia|]. }
  estep. eapply eruns_runs, runs_ok; [by apply get_inode_eq|]. unfold faddr in *.
  destruct (Z.ltb_spec j N_DIRECT) as [Hj|Hj].
  { estep. estep. eapply eruns_runs, runs_ok; [by apply get_inode_eq|].
    rewrite Hk by (unfold N_DIRECT in *; lia). estep. rewrite (proj2 (Z.eqb_neq _ 0)) by lia. estep. cbn [when]. estep.
    estep. eapply eruns_runs, runs_ok; [by apply get_inode_eq|]. rewrite Hk by (unfold N_DIRECT in *; lia).
    estep. split; [done|by apply stays_refl]. }
  rewrite (proj2 (Z.ltb_lt (j - N_DIRECT) (N_INDIRECT * APB))) by lia. specialize (M2 Hj). unfold ind_of in *.
  assert (Z.to_nat (N_DIRECT + (j - N_DIRECT) / APB) < 13)%nat as Hkk.
  { unfold N_DIRECT, N_INDIRECT, APB in *. Z.to_euclidean_division_equations; lia. }
  set (k := Z.to_nat (N_DIRECT + (j - N_DIRECT) / APB)) in *. set (a := default 0 (i_addrs x !! k)) in *.
  do 2 estep. eapply eruns_runs, runs_ok; [by apply get_inode_eq|].
  rewrite (Hk k Hkk). fold a. estep. rewrite (proj2 (Z.eqb_neq a 0)) by lia. estep. cbn [when]. estep.
  do 2 estep. eapply eruns_runs, runs_ok; [by apply get_inode_eq|]. rewrite (Hk k Hkk). fold a.
  estep. rewrite (proj2 (Z.eqb_neq a 0)) by lia. rewrite Hd.
  estep. ecall (bread0_spec s a Hs); [lia|]. intros b s1 (H1 & B1 & V1 & R1).
  estep. ecallr (buf_data_spec s1 a b _ B1). intros ? ? [-> ->].
  rewrite (proj2 (Z.eqb_neq _ 0)) by lia.
  estep. ecallr (brelse0_spec s s1 a b Hs H1 B1 R1). intros [] s2 (H2 & V2 & R2). estep.
  split; [done|]. split_and!; [done|intros n; by rewrite V2|by etrans].
Qed.

(** ** [readi] *)

(** Only user memory and what a copy to it needs may have changed. *)
Definition stays_mem (s s' : kstate) : Prop :=
  fs_ok t P ∅ s' ∧ (∀ n, seen s' n = seen s n) ∧ rsim (set_k_mem (k_mem s') s) s'.

(** The destination of a read takes the bytes piece by piece; [I k] holds when
    [k] of them have arrived. *)
Record delivers (to_user : bool) (dst : Z) (bytes : list Z) (I : Z → kstate → Prop) : Prop := {
  dl_copy : ∀ k len s, I k s → idle t s → 0 ≤ k → 0 < len → k + len ≤ Z.of_nat (length bytes) →
    runs (either_copy_out to_user (dst + k) (slice k len bytes)) s (λ r s',
      r = (0, if to_user then [] else slice k len bytes) ∧ I (k + len) s' ∧ idle t s' ∧ sim (set_k_mem (k_mem s') s) s');
  dl_stays : ∀ k s s', I k s → rsim s s' → idle t s' → I k s';
}.

Lemma rsim_mem m s s' : rsim s s' → rsim (set_k_mem m s) (set_k_mem m s').
Proof. intros H. exact (f_equal (set_k_mem m) H). Qed.

Lemma stays_mem_trans s0 s s' : stays_mem s0 s → stays t P s s' → stays_mem s0 s'.
Proof.
  intros (_ & V1 & R1) (H2 & V2 & R2). split_and!; [done|intros n; by rewrite V2|].
  rewrite <-(rsim_k_mem _ _ R2). by etrans.
Qed.

(** A copy to user memory while a block is held. *)
Lemma copied_holds H s s' bno b d :
  fs_ok t P H s → holds s bno b d → idle t s' → sim (set_k_mem (k_mem s') s) s' →
  fs_ok t P H s' ∧ holds s' bno b d ∧ (∀ n, seen s' n = seen s n) ∧ rsim (set_k_mem (k_mem s') s) s'.
Proof.
  intros [A1 A2 A3] (x & C & Hd) Hi S.
  pose proof (sim_k_bufs _ _ S) as B. pose proof (sim_k_disk _ _ S) as D. pose proof (sim_k_slocks _ _ S) as L.
  pose proof (sim_k_vdisk _ _ S) as V. cbn [k_bufs k_disk k_slocks k_vdisk set_k_mem] in B, D, L, V.
  split_and!; [split; rewrite <-?B, <-?D, <-?L, <-?V; done| | |by apply fsim_rsim, sim_fsim].
  - exists x. by rewrite <-B.
  - intros n. by rewrite <-B, <-D.
Qed.

Section readi.
Context (s0 : kstate) (i : nat) (x : m_inode) (to_user : bool) (dst off m : Z) (I : Z → kstate → Prop).
Context (H0 : fs_ok t P ∅ s0) (Hx : k_inodes s0 !! i = Some x) (Hdev : i_dev x = ROOT_DEV).
Abbreviation addrs := (i_addrs x).
Abbreviation data := (fdata (seen s0) (i_addrs x) (i_size x)).
Context (Hok : file_ok (seen s0) (i_addrs x) (i_size x)).
Context (Hoff : 0 ≤ off) (Hm : 0 ≤ m) (Hsz : off + m ≤ i_size x) (Hdst : 0 ≤ dst) (Hdm : dst + m < 2 ^ 64).
Context (HI : delivers to_user dst (slice off m data) I).

Definition out_bytes (k : Z) : list Z := if to_user then [] else slice off k data.

Lemma slice_slice k len : 0 ≤ k → 0 ≤ len → k + len ≤ m → slice k len (slice off m data) = slice (off + k) len data.
Proof.
  intros. unfold slice. rewrite skipn_firstn_comm, firstn_firstn, skipn_skipn. f_equal; [lia|f_equal; lia].
Qed.

Lemma length_data : Z.of_nat (length data) = i_size x.
Proof.
  rewrite length_fdata; [|intros n; by eapply length_seen|apply Hok]. pose proof (fk_size _ _ _ Hok). lia.
Qed.

(** One round: the rest of a block. *)
Lemma readi_round s k :
  stays_mem s0 s → I k s → 0 ≤ k < m →
  let o := Z.rem (off + k) BLOCK_SIZE in
  let len := if m - k <? BLOCK_SIZE - o then m - k else BLOCK_SIZE - o in
  0 < len ≤ m - k ∧
  eruns R (addr ← bmap i (u32 (Z.quot (off + k) BLOCK_SIZE));
           if addr =? 0 then mret (inr (m - k, out_bytes k)) else
           b ← bread (i_dev x) addr;
           d ← buf_data b;
           '(r, bs) ← either_copy_out to_user (dst + k) (slice o len d);
           if negb (r =? 0) then brelse b;; mret (inr (m - k, out_bytes k)) else
           brelse b;;
           mret (inl (u64 (dst + k + len), off + k + len, m - k - len, out_bytes k ++ bs))) s
    (λ r s', r = inl (A := Z * Z * Z * list Z) (B := Z * list Z)
                  (dst + (k + len), off + (k + len), m - (k + len), out_bytes (k + len)) ∧
             stays_mem s0 s' ∧ I (k + len) s').
Proof.
  intros (Hs & V & Rs) HIk Hk. rewrite Z.rem_mod_nonneg, Z.quot_div_nonneg by (unfold BLOCK_SIZE; lia). cbv zeta.
  set (o := (off + k) mod BLOCK_SIZE). pose proof (Z.mod_pos_bound (off + k) BLOCK_SIZE ltac:(done)) as Ho. fold o in Ho.
  set (len := if m - k <? BLOCK_SIZE - o then m - k else BLOCK_SIZE - o).
  assert (0 < len ≤ m - k ∧ o + len ≤ BLOCK_SIZE) as [Hlen Hol] by (unfold len; case_match; lia). split; [done|].
  pose proof (fk_size _ _ _ Hok) as Hsize. set (j := (off + k) / BLOCK_SIZE).
  assert (0 ≤ j ∧ j * BLOCK_SIZE < i_size x) as [Hj0 Hj].
  { unfold j, BLOCK_SIZE. Z.to_euclidean_division_equations; lia. }
  pose proof (fk_mapped _ _ _ Hok j Hj0 Hj) as Hmap.
  assert (mapped (seen s) addrs j) as Hmap'.
  { destruct Hmap as [M1 M2 M3]. split; [done|done|]. by rewrite (faddr_ext _ (seen s0)). }
  assert (k_inodes s !! i = Some x) as Hx' by (rewrite <-(rsim_k_inodes _ _ Rs); done).
  rewrite (wrap_small 32 j) by (unfold BLOCK_SIZE, MAX_BLOCKS, N_DIRECT, N_INDIRECT, APB in *; lia).
  estep. ecall (bmap_mapped s i x j Hs Hx' Hdev (fk_len _ _ _ Hok) Hmap'). intros ? s1 (-> & H1 & V1 & R1).
  rewrite (faddr_ext _ (seen s0)) by done. set (a := faddr (seen s0) addrs j).
  assert (0 < a < 2 ^ 31) as Ha by apply Hmap. rewrite (proj2 (Z.eqb_neq a 0)), Hdev by lia.
  estep. ecall (bread0_spec s1 a H1); [lia|]. intros b s2 (H2 & B2 & V2 & R2).
  estep. ecallr (buf_data_spec s2 a b _ B2). intros ? ? [-> ->]. rewrite V1, V. unfold a, j, o.
  rewrite (slice_fdata (seen s0) (λ n, length_seen _ _ _ _ _ H0) addrs (i_size x)), <-slice_slice by (done || lia).
  estep. assert (I k s2) as HI2 by (eapply dl_stays; [exact HI|exact HIk|by etrans|apply H2]).
  ecallr (dl_copy _ _ _ _ HI k len s2 HI2 (fo_cpu _ _ _ _ H2)); [lia|lia|rewrite length_slice; rewrite ?length_data; lia|].
  intros r s3 (-> & HI3 & C3 & S3). cbn [negb]. rewrite (Z.eqb_refl 0). cbn [negb].
  rewrite V1, V in B2. fold o j a in B2. destruct (copied_holds _ s2 s3 a b _ H2 B2 C3 S3) as (H3 & B3 & V3 & R3).
  estep. ecallr (brelse_spec t FL P {[a]} s3 a b _ H3); [set_solver|exact B3| |].
  { rewrite <-(rsim_k_disk _ _ R3). cbn [k_disk set_k_mem]. rewrite <-(rsim_k_disk _ _ R2), <-V, <-V1.
    by apply (clean_or_pinned t P). }
  intros [] s4 (H4 & V4 & R4 & _). rewrite difference_diag_L in H4. estep. split_and!.
  - rewrite slice_slice by lia. rewrite wrap_small by lia. f_equal. f_equal; [f_equal; [f_equal; lia|lia]|].
    unfold out_bytes. destruct to_user; [done|]. rewrite slice_app by lia. done.
  - split_and!; [done|intros n; by rewrite V4, V3, V2, V1|]. rewrite <-(rsim_k_mem _ _ R4).
    etrans; [|exact R4]. etrans; [|exact R3]. etrans; [|exact (rsim_mem _ _ _ R2)]. etrans; [|exact (rsim_mem _ _ _ R1)].
    exact (rsim_mem _ _ _ Rs).
  - eapply dl_stays; [exact HI|exact HI3|exact R4|apply H4].
Qed.

Lemma readi_loop :
  I 0 s0 →
  eruns R (loop (S (Z.to_nat m))
    (λ '(dst, off, n, out),
       if 0 <? n then
         addr ← bmap i (u32 (Z.quot off BLOCK_SIZE));
         if addr =? 0 then mret (inr (n, out)) else
         b ← bread (i_dev x) addr;
         let o := Z.rem off BLOCK_SIZE in
         let len := BLOCK_SIZE - o in
         let len := if n <? len then n else len in
         d ← buf_data b;
         '(r, bs) ← either_copy_out to_user dst (slice o len d);
         if negb (r =? 0) then brelse b;; mret (inr (n, out)) else
         brelse b;;
         mret (inl (u64 (dst + len), off + len, n - len, out ++ bs))
       else mret (inr (n, out))) (dst, off, m, [])) s0
    (λ r s', r = (0, out_bytes m) ∧ stays_mem s0 s' ∧ I m s').
Proof.
  intros HI0.
  apply (eruns_loop _ (λ l s, ∃ k, l = (dst + k, off + k, m - k, out_bytes k) ∧ 0 ≤ k ≤ m ∧ stays_mem s0 s ∧ I k s)
    (λ '(_, _, n, _), Z.to_nat n)).
  - intros l s (k & -> & Hk & Hs & HIk). destruct (Z.ltb_spec 0 (m - k)) as [Hlt|Hge].
    + destruct (readi_round s k Hs HIk ltac:(lia)) as [Hlen Hrun]. cbv zeta in Hlen.
      eapply eruns_conseq; [exact Hrun|]. intros r s' (-> & Hs' & HI'). cbv zeta in HI'. split; [|lia].
      eexists. split; [reflexivity|]. split; [lia|]. by split.
    + assert (k = m) as -> by lia. estep. by rewrite Z.sub_diag.
  - exists 0. rewrite !Z.add_0_r, Z.sub_0_r. split_and!; [|lia|lia| |done].
    + unfold out_bytes, slice. by destruct to_user.
    + split_and!; [done|done|by destruct s0].
  - lia.
Qed.
End readi.

(** [readi] at or before the end of the file reads up to its end. *)
Lemma readi_spec s i x to_user dst off n I :
  fs_ok t P ∅ s → k_inodes s !! i = Some x → i_dev x = ROOT_DEV → file_ok (seen s) (i_addrs x) (i_size x) →
  0 ≤ off ≤ i_size x → 0 ≤ n → off + n < 2 ^ 64 → 0 ≤ dst → dst + n < 2 ^ 64 →
  let data := fdata (seen s) (i_addrs x) (i_size x) in
  let m := Z.min n (i_size x - off) in
  delivers to_user dst (slice off m data) I → I 0 s →
  eruns R (readi i to_user dst off n) s (λ r s',
    r = (m, if to_user then [] else slice off m data) ∧ stays_mem s s' ∧ I m s').
Proof.
  intros Hs Hx Hd Hok Hoff Hn Hon Hdst Hdn data m HI HI0. unfold readi. pose proof (fk_size _ _ _ Hok) as Hsz.
  estep. eapply eruns_runs, runs_ok; [by apply get_inode_eq|]. rewrite (proj2 (Z.ltb_ge _ _)) by lia.
  rewrite (wrap_small 64 (off + n)) by lia. rewrite (wrap_small 64 (i_size x - off)) by
    (unfold MAX_BLOCKS, N_DIRECT, N_INDIRECT, APB, BLOCK_SIZE in *; lia).
  assert ((if i_size x <? off + n then i_size x - off else n) = m) as -> by (unfold m; case_match; lia).
  estep. ecall (readi_loop s i x to_user dst off m I Hs Hx Hd Hok); [lia|lia|lia|lia|lia|exact HI|exact HI0|].
  intros r s' (-> & H1 & H2). estep. by rewrite Z.sub_0_r.
Qed.

(** Past the end there is an error. *)
Lemma readi_past s i x to_user dst off n :
  k_inodes s !! i = Some x → i_size x < off → runs (readi i to_user dst off n) s (λ r s', r = (-1, []) ∧ s' = s).
Proof.
  intros Hx Hoff. unfold readi. kstep. eapply runs_ok; [by apply get_inode_eq|].
  rewrite (proj2 (Z.ltb_lt _ _)) by done. by kstep.
Qed.

(** A buffer of the kernel takes everything. *)
Lemma delivers_kernel m0 dst bytes : delivers false dst bytes (λ _ s, k_mem s = m0).
Proof.
  split.
  - intros k len s HI Hi Hk Hl Hb. unfold either_copy_out. kstep. split_and!; [done|done|done|]. by destruct s.
  - intros k s s' HI Hr _. by rewrite <-(rsim_k_mem _ _ Hr).
Qed.

Lemma readi_kernel s i x off n :
  fs_ok t P ∅ s → k_inodes s !! i = Some x → i_dev x = ROOT_DEV → file_ok (seen s) (i_addrs x) (i_size x) →
  0 ≤ off ≤ i_size x → 0 ≤ n → off + n < 2 ^ 64 →
  let m := Z.min n (i_size x - off) in
  eruns R (readi i false 0 off n) s (λ r s',
    r = (m, slice off m (fdata (seen s) (i_addrs x) (i_size x))) ∧ stays t P s s').
Proof.
  intros Hs Hx Hd Hok Hoff Hn Hon m.
  ecall (readi_spec s i x false 0 off n _ Hs Hx Hd Hok Hoff Hn Hon); [lia|lia|apply (delivers_kernel (k_mem s))|done|].
  intros r s' (-> & (H1 & V1 & R1) & E). split; [done|]. split_and!; [done|done|]. rewrite E in R1. by destruct s.
Qed.
End read.
