(* ===== verification/InodeTable.v ===== *)
(** The table of in-memory inodes (kernel/fs/inode.c: [iget], [idup], [ilock],
    [iunlock], [iput]): every inode number in use has one entry, its count is
    the number of references, and a valid entry has the contents of the inode
    on the disk. *)

From S2P Require Import Prelude Mem State Machine Mm MmInit Proc Sync Virtio Buf Log Inode FsData ProcTheorems Env VirtioTheorems BufList BufCache BufOps LogOps LogTheorems InodeRead.

(** ** Definitions *)

Abbreviation live x := (0 < i_refcnt x).

(** The number of references to inode [ino]. *)
Definition iref (l : list m_inode) (ino : Z) : Z :=
  match list_find (λ x, live x ∧ i_ino x = ino) l with Some (_, x) => i_refcnt x | None => 0 end.

Definition uniq (l : list m_inode) : Prop := ∀ i j x y,
  l !! i = Some x → l !! j = Some y → live x → live y → i_ino x = i_ino y → i = j.

(** The numbers in use. *)
Definition in_use (l : list m_inode) : gset Z := list_to_set (i_ino <$> filter (λ x, live x) l).

(** The inode [ino] as the blocks [f] have it, and as an entry has it. *)
Definition on_disk (f : Z → list Z) (sb : super_block) (ino : Z) : d_inode :=
  get_dinode (f (ino / IPB + sb_inode_start sb)) ino.
Definition dinode_of (x : m_inode) : d_inode :=
  mk_d_inode (i_type x) (i_major x) (i_minor x) (i_nlink x) (i_size x) (i_addrs x).

Record inode_ok (f : Z → list Z) (sb : super_block) (x : m_inode) : Prop := {
  io_ref : 0 ≤ i_refcnt x < 2 ^ 31;
  io_dev : live x → i_dev x = ROOT_DEV;
  io_ino : live x → 0 ≤ i_ino x < 2 ^ 16;
  io_valid : live x → i_valid x = true → dinode_of x = on_disk f sb (i_ino x);
}.

(** The task holds the locks of the entries [L]. *)
Record itable_ok (t : task) (L : gset nat) (s : kstate) : Prop := {
  it_len : length (k_inodes s) = N_INODE;
  it_inode : Forall (inode_ok (seen s) (k_sb s)) (k_inodes s);
  it_uniq : uniq (k_inodes s);
  it_lock : ∀ i, (i < N_INODE)%nat → ∃ name, k_slocks s !! SlInode i =
    Some (if decide (i ∈ L) then mk_sleep_lock true (t_pid t) name else mk_sleep_lock false (-1) name);
  it_start : 0 ≤ sb_inode_start (k_sb s) ∧ sb_inode_start (k_sb s) + 2 ^ 12 < 2 ^ 31;
}.

(** Entry [i] is for inode [ino] and has a reference. *)
Definition names (s : kstate) (i : nat) (ino : Z) : Prop :=
  ∃ x, k_inodes s !! i = Some x ∧ live x ∧ i_ino x = ino.

(** The inode locks. *)
Record inode_locks_of (t : task) : Prop := {
  il_table : LItable ∈ t_locks t;
  il_inode : ∀ i, (i < N_INODE)%nat → LSleep (SlInode i) ∈ t_locks t;
}.

(** Nothing has changed but the cache and the inode table. *)
Definition icore (s : kstate) : kstate := set_k_inodes [] (set_k_slocks ∅ (rcore s)).
Definition isim (s s' : kstate) : Prop := icore s = icore s'.

#[export] Instance isim_equiv : Equivalence isim.
Proof.
  split; unfold isim; [by intros s|by intros s s'|]. intros s s' s'' H1 H2. by rewrite H1.
Qed.

Definition istays (t : task) (P : gset Z) (s s' : kstate) : Prop :=
  fs_ok t P ∅ s' ∧ (∀ n, seen s' n = seen s n) ∧ isim s s'.

(** ** Lemmas on the list of entries *)

Lemma iref_live l i x : uniq l → l !! i = Some x → live x → iref l (i_ino x) = i_refcnt x.
Proof.
  intros Hu Hx Hl. unfold iref. destruct (list_find _ l) as [[j y]|] eqn:E.
  - apply list_find_Some in E as (Hy & [Hly Hn] & _). assert (i = j) as <- by by eapply Hu. congruence.
  - apply list_find_None in E. rewrite Forall_forall in E. destruct (E x); [|done]. by eapply list_elem_of_lookup_2.
Qed.

Lemma iref_none l ino : (∀ i x, l !! i = Some x → live x → i_ino x ≠ ino) → iref l ino = 0.
Proof.
  intros Hn. unfold iref. destruct (list_find _ l) as [[j y]|] eqn:E; [|done].
  apply list_find_Some in E as (Hy & [Hly Hi] & _). by destruct (Hn j y).
Qed.

Lemma iref_pos l ino : 0 < iref l ino ↔ ∃ i x, l !! i = Some x ∧ live x ∧ i_ino x = ino.
Proof.
  unfold iref. destruct (list_find _ l) as [[j y]|] eqn:E.
  - apply list_find_Some in E as (Hy & [Hly Hi] & _). split; [|done]. intros _. by exists j, y.
  - apply list_find_None in E. rewrite Forall_forall in E. split; [lia|]. intros (i & x & Hx & Hl).
    destruct (E x); [|done]. by eapply list_elem_of_lookup_2.
Qed.

Lemma elem_of_in_use l ino : ino ∈ in_use l ↔ 0 < iref l ino.
Proof.
  rewrite iref_pos. unfold in_use. rewrite elem_of_list_to_set, list_elem_of_fmap. split.
  - intros (x & -> & Hx). apply list_elem_of_filter in Hx as [Hl Hx].
    apply list_elem_of_lookup in Hx as [i Hx]. by exists i, x.
  - intros (i & x & Hx & Hl & <-). exists x. split; [done|]. apply list_elem_of_filter. split; [done|].
    by eapply list_elem_of_lookup_2.
Qed.

(** An entry for each number: when not all numbers of the table are in use
    there is a free entry. *)
Lemma free_entry l : uniq l → (size (in_use l) < length l)%nat → ∃ i x, l !! i = Some x ∧ ¬ live x.
Proof.
  intros Hu Hsz. destruct (decide (Forall (λ x, live x) l)) as [Ha|Hn].
  - exfalso. assert (NoDup (i_ino <$> l)) as Hnd.
    { apply NoDup_alt. intros i j n. rewrite !list_lookup_fmap. intros (x & Hx & ->)%fmap_Some (y & Hy & E)%fmap_Some.
      rewrite Forall_forall in Ha. eapply Hu; [done..| | |done]; apply Ha; by eapply list_elem_of_lookup_2. }
    unfold in_use in Hsz.
    assert (filter (λ x, live x) l = l) as E.
    { clear -Ha. induction Ha as [|x l Hx _ IH]; [done|]. rewrite filter_cons, decide_True by done. by rewrite IH. }
    rewrite E, size_list_to_set, length_fmap in Hsz by done. lia.
  - apply not_Forall_Exists in Hn; [|apply _]. apply Exists_exists in Hn as (x & Hx & Hl).
    apply list_elem_of_lookup in Hx as [i Hx]. by exists i, x.
Qed.

(** Entry [i] is replaced. *)
Section replace.
Context (l : list m_inode) (i : nat) (x y : m_inode) (Hu : uniq l) (Hx : l !! i = Some x).

Lemma lookup_replaced j z :
  <[i := y]> l !! j = Some z → (j = i ∧ z = y) ∨ (j ≠ i ∧ l !! j = Some z).
Proof.
  destruct (decide (j = i)) as [->|Hne].
  - rewrite list_lookup_insert_eq by by eapply lookup_lt_Some. intros [= <-]. by left.
  - rewrite list_lookup_insert_ne by done. by right.
Qed.

Lemma uniq_replace :
  (live y → (live x ∧ i_ino x = i_ino y) ∨ iref l (i_ino y) = 0) → uniq (<[i := y]> l).
Proof.
  intros Hy j k a b Ha Hb La Lb E.
  assert (∀ k b, k ≠ i → l !! k = Some b → live b → live y → i_ino b = i_ino y → False) as Hno.
  { intros k' b' Hne Hb' Lb' Ly Eb. destruct (Hy Ly) as [[Lx Ex]|H0].
    - destruct Hne. eapply Hu; [exact Hb'|exact Hx|done|done|congruence].
    - assert (0 < iref l (i_ino y)) by (apply iref_pos; by exists k', b'). lia. }
  apply lookup_replaced in Ha as [[-> ->]|[Hj Ha]], Hb as [[-> ->]|[Hk Hb]]; [done| | |].
  - by destruct (Hno k b).
  - by destruct (Hno j a).
  - by eapply Hu.
Qed.

Lemma iref_replace n :
  uniq (<[i := y]> l) →
  iref (<[i := y]> l) n =
    if decide (live y ∧ i_ino y = n) then i_refcnt y
    else if decide (live x ∧ i_ino x = n) then 0 else iref l n.
Proof.
  intros Hu'. assert (<[i := y]> l !! i = Some y) as Hy by (apply list_lookup_insert_eq; by eapply lookup_lt_Some).
  case_decide as E1.
  { destruct E1 as [Ly <-]. by apply (iref_live _ i). }
  case_decide as E2.
  { destruct E2 as [Lx <-]. apply iref_none. intros j z Hz Lz Ez. apply lookup_replaced in Hz as [[-> ->]|[Hne Hz]]; [tauto|].
    destruct Hne. by eapply Hu. }
  destruct (decide (0 < iref l n)) as [Hp|Hp].
  - pose proof Hp as Hp'. apply iref_pos in Hp' as (j & z & Hz & Lz & <-). rewrite (iref_live l j z) by done.
    assert (j ≠ i) as Hne by (intros ->; simplify_eq; tauto). apply (iref_live _ j); [done| |done].
    by rewrite list_lookup_insert_ne.
  - rewrite (iref_none (<[i := y]> l)).
    + unfold iref in *. destruct (list_find _ l) as [[j z]|] eqn:E; [|done].
      apply list_find_Some in E as (_ & [Lz _] & _). lia.
    + intros j z Hz Lz Ez. apply lookup_replaced in Hz as [[-> ->]|[Hne Hz]]; [tauto|].
      destruct Hp. apply iref_pos. by exists j, z.
Qed.
End replace.

Lemma iget_scan_spec dev ino l : ∀ k e,
  match iget_scan l k dev ino e with
  | (Some i, _) => (k ≤ i)%nat ∧ ∃ x, l !! (i - k)%nat = Some x ∧ live x ∧ i_dev x = dev ∧ i_ino x = ino
  | (None, e') => Forall (λ x, ¬ (live x ∧ i_dev x = dev ∧ i_ino x = ino)) l ∧
      match e' with
      | Some i => e = Some i ∨ ((k ≤ i)%nat ∧ ∃ x, l !! (i - k)%nat = Some x ∧ i_refcnt x = 0)
      | None => e = None ∧ Forall (λ x, i_refcnt x ≠ 0) l
      end
  end.
Proof.
  induction l as [|x l IH]; intros k e; simpl.
  { split; [done|]. destruct e; [by left|done]. }
  destruct (_ && _ && _) eqn:E.
  - apply andb_true_iff in E as [[E1%Z.ltb_lt E2%Z.eqb_eq]%andb_true_iff E3%Z.eqb_eq].
    split; [done|]. exists x. by rewrite Nat.sub_diag.
  - assert (¬ (live x ∧ i_dev x = dev ∧ i_ino x = ino)) as Hx.
    { intros (H1 & H2 & H3). apply Z.ltb_lt in H1. apply Z.eqb_eq in H2, H3. by rewrite H1, H2, H3 in E. }
    specialize (IH (S k) (match e with None => if i_refcnt x =? 0 then Some k else None | Some e => Some e end)).
    destruct (iget_scan _ _ _ _ _) as [[i|] e'].
    + destruct IH as [Hk (z & Hz & Hzz)]. split; [lia|]. exists z. by replace (i - k)%nat with (S (i - S k)) by lia.
    + destruct IH as [Hf IH]. split; [by constructor|]. destruct e' as [i|].
      * destruct IH as [IH|[Hk (z & Hz & Hzz)]].
        -- destruct e as [e|]; [by left|]. destruct (Z.eqb_spec (i_refcnt x) 0) as [E0|E0]; [|done].
           injection IH as <-. right. split; [done|]. exists x. by rewrite Nat.sub_diag.
        -- right. split; [lia|]. exists z. by replace (i - k)%nat with (S (i - S k)) by lia.
      * destruct IH as [IH Ha]. destruct e as [e|]; [done|]. destruct (Z.eqb_spec (i_refcnt x) 0) as [E0|E0]; [done|].
        split; [done|]. by constructor.
Qed.

(** ** The table in the state *)

Lemma upd_inode_eq i f x s :
  k_inodes s !! i = Some x → upd_inode i f s = Ok tt (set_k_inodes (<[i := f x]> (k_inodes s)) s).
Proof. intros Hx. unfold upd_inode, modify. by rewrite (alter_known _ _ _ _ Hx). Qed.

Lemma itable_rsim t L s s' :
  rsim s s' → (∀ n, seen s' n = seen s n) → itable_ok t L s → itable_ok t L s'.
Proof.
  intros Hr V [T1 T2 T3 T4 T5]. pose proof (rsim_k_inodes _ _ Hr) as E1. pose proof (rsim_k_sb _ _ Hr) as E2.
  split; rewrite <-?E1, <-?E2; try done.
  - eapply Forall_impl; [exact T2|]. intros x [I1 I2 I3 I4]. split; try done. intros Hl Hv. rewrite (I4 Hl Hv).
    unfold on_disk. by rewrite V.
  - intros i Hi. destruct (T4 i Hi) as [name Hn]. exists name. by rewrite <-(rsim_inode_lock _ _ Hr).
Qed.

Lemma sim_rsim s s' : sim s s' → rsim s s'.
Proof. intros S. by apply fsim_rsim, sim_fsim. Qed.

Lemma sim_seen s s' n : sim s s' → seen s' n = seen s n.
Proof. intros S. by rewrite (sim_k_bufs _ _ S), (sim_k_disk _ _ S). Qed.

Lemma itable_sim t L s s' : sim s s' → itable_ok t L s → itable_ok t L s'.
Proof. intros S. apply itable_rsim; [by apply sim_rsim|]. intros n. by apply sim_seen. Qed.

Lemma itable_upd t L s i x y :
  itable_ok t L s → k_inodes s !! i = Some x → inode_ok (seen s) (k_sb s) y →
  (live y → (live x ∧ i_ino x = i_ino y) ∨ iref (k_inodes s) (i_ino y) = 0) →
  itable_ok t L (set_k_inodes (<[i := y]> (k_inodes s)) s).
Proof.
  intros [T1 T2 T3 T4 T5] Hx Hy Hl. split; cbn [k_inodes set_k_inodes k_sb k_slocks k_bufs k_disk]; try done.
  - by rewrite length_insert.
  - by apply Forall_insert.
  - by apply (uniq_replace _ _ x).
Qed.

Lemma fs_ok_inodes t P H s v : fs_ok t P H s → fs_ok t P H (set_k_inodes v s).
Proof. intros [A1 A2 A3]. split; [by eapply on_cpu_sim|done|done]. Qed.

Lemma fs_ok_sim t P H s s' : fs_ok t P H s → sim s s' → idle t s' → fs_ok t P H s'.
Proof.
  intros [A1 A2 A3] S Hi. eapply fs_ok_fsim; [by apply sim_fsim|done|by rewrite <-(sim_k_vdisk _ _ S)|done].
Qed.

Lemma rsim_set_inodes v s s' : rsim s s' → rsim (set_k_inodes v s) (set_k_inodes v s').
Proof. intros H. exact (f_equal (set_k_inodes v) H). Qed.

Lemma rsim_isim s s' : rsim s s' → isim s s'.
Proof. intros H. exact (f_equal (λ s, set_k_inodes [] (set_k_slocks ∅ s)) H). Qed.

Section isim.
Context (s s' : kstate) (H : isim s s').
Lemma isim_k_sb : k_sb s = k_sb s'.
Proof. exact (f_equal k_sb H). Qed.
Lemma isim_k_log : k_log s = k_log s'.
Proof. exact (f_equal k_log H). Qed.
Lemma isim_k_disk : k_disk s = k_disk s'.
Proof. exact (f_equal k_disk H). Qed.
Lemma isim_k_dwrites : k_dwrites s = k_dwrites s'.
Proof. exact (f_equal k_dwrites H). Qed.
Lemma isim_k_mem : k_mem s = k_mem s'.
Proof. exact (f_equal k_mem H). Qed.
Lemma isim_k_free : k_free s = k_free s'.
Proof. exact (f_equal k_free H). Qed.
End isim.

Lemma istays_refl t P s : fs_ok t P ∅ s → istays t P s s.
Proof. done. Qed.
Lemma istays_trans t P s1 s2 s3 : istays t P s1 s2 → istays t P s2 s3 → istays t P s1 s3.
Proof. intros (_ & V1 & R1) (H2 & V2 & R2). split_and!; [done|intros n; by rewrite V2|by etrans]. Qed.
Lemma stays_istays t P s s' : stays t P s s' → istays t P s s'.
Proof. intros (H & V & R). split_and!; [done|done|by apply rsim_isim]. Qed.

(** The entries in use after a step, when the references are as before. *)
Lemma in_use_ext l l' : (∀ n, iref l' n = iref l n) → in_use l' = in_use l.
Proof. intros E. apply set_eq. intros n. by rewrite !elem_of_in_use, E. Qed.

(** The references to [ino] change by [d], and no others. *)
Definition refs_add (ino d : Z) (s s' : kstate) : Prop :=
  ∀ n, iref (k_inodes s') n = iref (k_inodes s) n + if decide (n = ino) then d else 0.

Definition names_kept (s s' : kstate) : Prop := ∀ j m, names s j m → names s' j m.

Lemma names_replace s s' i x y :
  k_inodes s !! i = Some x → k_inodes s' = <[i := y]> (k_inodes s) → (live x → live y ∧ i_ino y = i_ino x) → names_kept s s'.
Proof.
  intros Hx E Hxy j m (z & Hz & Lz & <-). unfold names. rewrite E. destruct (decide (j = i)) as [->|Hne].
  - exists y. rewrite list_lookup_insert_eq by by eapply lookup_lt_Some. simplify_eq. destruct (Hxy Lz). done.
  - exists z. by rewrite list_lookup_insert_ne.
Qed.

(** ** Operations *)

Section table.
Context (t : task) (IL : inode_locks_of t) (P : gset Z).

(** A critical section of the table that replaces entry [i]. *)
Lemma table_end L s s1 i x y :
  fs_ok t P ∅ s → itable_ok t L s → on_cpu t 1 {[LItable]} s1 → sim s s1 → k_inodes s !! i = Some x →
  inode_ok (seen s) (k_sb s) y → (live y → (live x ∧ i_ino x = i_ino y) ∨ iref (k_inodes s) (i_ino y) = 0) →
  runs (spin_lock_release LItable) (set_k_inodes (<[i := y]> (k_inodes s1)) s1) (λ _ s',
    istays t P s s' ∧ itable_ok t L s' ∧ k_inodes s' = <[i := y]> (k_inodes s)).
Proof.
  intros Hs Ht H1 S1 Hx Hy Hl. assert (k_inodes s = k_inodes s1) as E1 by exact (f_equal k_inodes S1).
  set (s2 := set_k_inodes _ s1). assert (on_cpu t 1 {[LItable]} s2) as H2 by by eapply on_cpu_sim.
  kcall (release1 t LItable s2 H2 (il_table _ IL)). intros [] s3 [H3 S3].
  assert (sim (set_k_inodes (<[i := y]> (k_inodes s)) s) s3) as S.
  { etrans; [|exact S3]. unfold s2. rewrite <-E1. exact (f_equal (set_k_inodes (<[i := y]> (k_inodes s))) S1). }
  split_and!.
  - split_and!.
    + eapply fs_ok_sim; [|exact S|done]. by apply fs_ok_inodes.
    + intros n. exact (sim_seen _ _ n S).
    + exact (rsim_isim _ _ (sim_rsim _ _ S)).
  - eapply itable_sim; [exact S|]. by eapply itable_upd.
  - rewrite <-(f_equal k_inodes S : _ = k_inodes s3). done.
Qed.

Lemma entry_ok L s i x : itable_ok t L s → k_inodes s !! i = Some x → inode_ok (seen s) (k_sb s) x.
Proof. intros Ht Hx. exact (Forall_lookup_1 _ _ _ _ (it_inode _ _ _ Ht) Hx). Qed.

(** Entry [i] gets a reference to [ino]. *)
Lemma taken s s' i x y ino :
  uniq (k_inodes s) → k_inodes s !! i = Some x → k_inodes s' = <[i := y]> (k_inodes s) →
  i_ino y = ino → i_refcnt y = iref (k_inodes s) ino + 1 → 0 ≤ iref (k_inodes s) ino →
  (if decide (live x) then i_ino x = ino else iref (k_inodes s) ino = 0) →
  names s' i ino ∧ refs_add ino 1 s s' ∧ names_kept s s'.
Proof.
  intros Hu Hx E Ny Ry H0 Hc. assert (live y) as Ly by lia.
  assert (uniq (<[i := y]> (k_inodes s))) as Hu'.
  { apply (uniq_replace _ _ x); [done|done|]. intros _. rewrite Ny. destruct (decide (live x)); [left|right]; done. }
  split_and!.
  - exists y. by rewrite E, list_lookup_insert_eq by by eapply lookup_lt_Some.
  - intros n. rewrite E, (iref_replace _ i x y), Ny by done. destruct (decide (n = ino)) as [->|Hne].
    + by rewrite decide_True.
    + rewrite decide_False by (intros [_ ?]; congruence). rewrite decide_False; [lia|].
      intros [Lx ?]. rewrite decide_True in Hc by done. congruence.
  - eapply names_replace; [done|done|]. intros Lx. rewrite decide_True in Hc by done. split; congruence.
Qed.

Lemma iref_nonneg l ino : 0 ≤ iref l ino.
Proof.
  unfold iref. destruct (list_find _ l) as [[j y]|] eqn:E; [|done]. apply list_find_Some in E as (_ & [Ly _] & _). lia.
Qed.

(** The number of references that an entry of [ino] has. *)
Lemma iget_hit L s s1 i x ino :
  fs_ok t P ∅ s → itable_ok t L s → on_cpu t 1 {[LItable]} s1 → sim s s1 → k_inodes s !! i = Some x → live x →
  i_ino x = ino → iref (k_inodes s) ino + 1 < 2 ^ 31 →
  runs (upd_inode i (λ x, set_i_refcnt (u32 (i_refcnt x + 1)) x);; spin_lock_release LItable;; mret i) s1
    (λ i s', istays t P s s' ∧ itable_ok t L s' ∧ names s' i ino ∧ refs_add ino 1 s s' ∧ names_kept s s').
Proof.
  intros Hs Ht H1 S1 Hx Lx Nx Href. pose proof (it_uniq _ _ _ Ht) as Hu.
  assert (k_inodes s = k_inodes s1) as E1 by exact (f_equal k_inodes S1).
  pose proof (entry_ok L s i x Ht Hx) as [I1 I2 I3 I4]. pose proof (iref_live _ i x Hu Hx Lx) as Hr. rewrite Nx in Hr.
  kstep. eapply runs_ok; [apply upd_inode_eq; by rewrite <-E1|]. cbn beta. rewrite wrap_small by lia.
  set (y := set_i_refcnt (i_refcnt x + 1) x). kstep.
  kcall (table_end L s s1 i x y Hs Ht H1 S1 Hx); [|by left|].
  { split; [simpl; lia|intros _; by apply I2|intros _; by apply I3|]. intros _ Hv. by apply I4. }
  intros [] s2 (A1 & A2 & A3). kstep. split; [done|]. split; [done|].
  apply (taken s s2 i x y); try done; [simpl; lia|apply iref_nonneg|by rewrite decide_True].
Qed.

Lemma iget_fresh L s s1 i x ino :
  fs_ok t P ∅ s → itable_ok t L s → on_cpu t 1 {[LItable]} s1 → sim s s1 → k_inodes s !! i = Some x →
  i_refcnt x = 0 → iref (k_inodes s) ino = 0 → 0 ≤ ino < 2 ^ 16 →
  runs (upd_inode i (set_i_refcnt 1);; upd_inode i (set_i_dev ROOT_DEV);; upd_inode i (set_i_ino ino);;
        upd_inode i (set_i_valid false);; spin_lock_release LItable;; mret i) s1
    (λ i s', istays t P s s' ∧ itable_ok t L s' ∧ names s' i ino ∧ refs_add ino 1 s s' ∧ names_kept s s').
Proof.
  intros Hs Ht H1 S1 Hx Rx Hr0 Hino. pose proof (it_uniq _ _ _ Ht) as Hu.
  assert (k_inodes s = k_inodes s1) as E1 by exact (f_equal k_inodes S1).
  assert (i < length (k_inodes s))%nat as Hlt by by eapply lookup_lt_Some.
  assert (∀ (u : list m_inode) v w, <[i := w]> (<[i := v]> u) = <[i := w]> u) as Hii by (intros; apply list_insert_insert_eq).
  kstep. eapply runs_ok; [apply (upd_inode_eq _ _ x); by rewrite <-E1|].
  do 3 (kstep; eapply runs_ok; [apply upd_inode_eq; simpl; apply list_lookup_insert_eq; rewrite ?length_insert, <-E1; done|];
    cbn [k_inodes set_k_inodes]; rewrite ?Hii).
  set (y := set_i_valid false (set_i_ino ino (set_i_dev ROOT_DEV (set_i_refcnt 1 x)))).
  match goal with |- runs _ ?s' _ => change s' with (set_k_inodes (<[i := y]> (k_inodes s1)) s1) end.
  kstep. kcall (table_end L s s1 i x y Hs Ht H1 S1 Hx); [split; done|by right|].
  intros [] s2 (A1 & A2 & A3). kstep. split; [done|]. split; [done|].
  apply (taken s s2 i x y); try done; [simpl; lia|lia|]. by rewrite decide_False by lia.
Qed.

Lemma iget_spec L s ino :
  fs_ok t P ∅ s → itable_ok t L s → 0 ≤ ino < 2 ^ 16 → iref (k_inodes s) ino + 1 < 2 ^ 31 →
  ino ∈ in_use (k_inodes s) ∨ (size (in_use (k_inodes s)) < N_INODE)%nat →
  runs (iget ROOT_DEV ino) s (λ i s', istays t P s s' ∧ itable_ok t L s' ∧ names s' i ino ∧
    refs_add ino 1 s s' ∧ names_kept s s').
Proof.
  intros Hs Ht Hino Href Hroom. pose proof Ht as [T1 T2 T3 T4 T5]. unfold iget.
  rewrite (wrap_small 16 ino) by lia. change (wrap 16 ROOT_DEV) with ROOT_DEV. cbv zeta.
  kstep. kcall (acquire0 t LItable s (fo_cpu _ _ _ _ Hs) (il_table _ IL)). intros [] s1 [H1 S1].
  assert (k_inodes s = k_inodes s1) as E1 by exact (f_equal k_inodes S1).
  kstep. kstep. rewrite <-E1. pose proof (iget_scan_spec ROOT_DEV ino (k_inodes s) 0 None) as Hscan.
  destruct (iget_scan _ _ _ _ _) as [[i|] e].
  { destruct Hscan as [_ (x & Hx & Lx & Dx & Nx)]. rewrite Nat.sub_0_r in Hx. by apply (iget_hit L s s1 i x). }
  destruct Hscan as [Hnone Hempty].
  assert (iref (k_inodes s) ino = 0) as Hr0.
  { apply iref_none. intros i x Hx Lx Ex. rewrite Forall_forall in Hnone.
    apply (Hnone x); [by eapply list_elem_of_lookup_2|]. split_and!; [done| |done]. by apply (entry_ok L s i x). }
  destruct e as [i|].
  - destruct Hempty as [?|[_ (x & Hx & Rx)]]; [done|]. rewrite Nat.sub_0_r in Hx. by apply (iget_fresh L s s1 i x).
  - exfalso. destruct Hempty as [_ Ha]. rewrite <-T1 in Hroom. destruct Hroom as [Hin%elem_of_in_use|Hsz]; [lia|].
    destruct (free_entry _ T3 Hsz) as (i & x & Hx & Hl). rewrite Forall_forall in Ha.
    apply (Ha x); [by eapply list_elem_of_lookup_2|]. pose proof (io_ref _ _ _ (entry_ok L s i x Ht Hx)). lia.
Qed.

Lemma idup_spec L s i ino :
  fs_ok t P ∅ s → itable_ok t L s → names s i ino → iref (k_inodes s) ino + 1 < 2 ^ 31 →
  runs (idup i) s (λ i' s', i' = i ∧ istays t P s s' ∧ itable_ok t L s' ∧ names s' i ino ∧
    refs_add ino 1 s s' ∧ names_kept s s').
Proof.
  intros Hs Ht (x & Hx & Lx & Nx) Href. unfold idup.
  kstep. kcall (acquire0 t LItable s (fo_cpu _ _ _ _ Hs) (il_table _ IL)). intros [] s1 [H1 S1].
  assert (k_inodes s = k_inodes s1) as E1 by exact (f_equal k_inodes S1).
  kstep. eapply runs_ok; [apply get_inode_eq; by rewrite <-E1|]. rewrite (proj2 (Z.ltb_ge _ _)) by lia.
  destruct (iget_hit L s s1 i x ino Hs Ht H1 S1 Hx Lx Nx Href) as (i' & s2 & Hrun & HQ).
  assert (i' = i) as ->.
  { revert Hrun. erewrite bind_ok by (apply upd_inode_eq; by rewrite <-E1). unfold mbind, K_bind.
    destruct (spin_lock_release _ _); by intros [= ->]. }
  eapply runs_ok; [|by split]. rewrite <-Hrun, !K_bind_eq. by rewrite !(upd_inode_eq i _ x) by by rewrite <-E1.
Qed.

(** [iput] of an inode that keeps a link or a reference. *)
Lemma iput_spec `{Device} `{Rounds} L s i ino :
  fs_ok t P ∅ s → itable_ok t L s → names s i ino →
  di_nlink (on_disk (seen s) (k_sb s) ino) ≠ 0 ∨ 1 < iref (k_inodes s) ino →
  runs (iput i) s (λ _ s', istays t P s s' ∧ itable_ok t L s' ∧ refs_add ino (-1) s s' ∧
    ∀ j m, j ≠ i ∨ 1 < iref (k_inodes s) ino → names s j m → names s' j m).
Proof.
  intros Hs Ht (x & Hx & Lx & Nx) Hk. pose proof (it_uniq _ _ _ Ht) as Hu. unfold iput.
  pose proof (entry_ok L s i x Ht Hx) as [I1 I2 I3 I4]. pose proof (iref_live _ i x Hu Hx Lx) as Hr. rewrite Nx in Hr.
  kstep. kcall (acquire0 t LItable s (fo_cpu _ _ _ _ Hs) (il_table _ IL)). intros [] s1 [H1 S1].
  assert (k_inodes s = k_inodes s1) as E1 by exact (f_equal k_inodes S1).
  kstep. eapply runs_ok; [apply get_inode_eq; by rewrite <-E1|].
  assert ((i_refcnt x =? 1) && i_valid x && (i_nlink x =? 0) = false) as ->.
  { destruct (Z.eqb_spec (i_refcnt x) 1) as [E|]; [|done]. destruct (i_valid x) eqn:Ev; [|done]. cbn [andb].
    apply Z.eqb_neq. destruct Hk as [Hk|Hk]; [|lia]. rewrite <-Nx, <-I4 in Hk by done. exact Hk. }
  kstep. cbn [when]. kstep. kstep. eapply runs_ok; [apply (upd_inode_eq _ _ x); by rewrite <-E1|].
  cbn beta. rewrite wrap_small by lia. set (y := set_i_refcnt (i_refcnt x - 1) x).
  assert (live y → (live x ∧ i_ino x = i_ino y) ∨ iref (k_inodes s) (i_ino y) = 0) as Hl by by left.
  kcall (table_end L s s1 i x y Hs Ht H1 S1 Hx); [|done|].
  { split; [simpl; lia|intros _; by apply I2|intros _; by apply I3|]. intros _ Hv. by apply I4. }
  intros [] s2 (A1 & A2 & A3). split_and!; [done|done| |].
  - intros n. rewrite A3, (iref_replace _ i x y) by (done || exact (uniq_replace _ i x y Hu Hx Hl)).
    change (i_ino y) with (i_ino x). rewrite Nx. change (i_refcnt y) with (i_refcnt x - 1).
    destruct (decide (n = ino)) as [->|Hne].
    + case_decide as E; [lia|]. rewrite decide_True by done. lia.
    + rewrite !decide_False by (intros [_ ?]; congruence). lia.
  - intros j m Hne Hj. destruct (decide (j = i)) as [->|Hji].
    + eapply (names_replace s s2 i x y); [done|done| |exact Hj]. intros _. split; [simpl; lia|done].
    + destruct Hj as (z & Hz & Hzz). exists z. by rewrite A3, list_lookup_insert_ne.
Qed.

(** *** The locks of the entries *)

Lemma fs_ok_inode_lock Q H s i v : fs_ok t Q H s → fs_ok t Q H (set_k_slocks (<[SlInode i := v]> (k_slocks s)) s).
Proof.
  intros [A1 A2 [B1 B2 B3 B4 B5]]. split; [by eapply on_cpu_sim|done|]. split; try done.
  intros b x Hb Hx. destruct (B2 b x Hb Hx). split; try done. cbn [k_slocks set_k_slocks].
  by rewrite lookup_insert_ne.
Qed.

Lemma itable_relock L L' s i x :
  itable_ok t L s → (i < N_INODE)%nat → (∀ j, j ≠ i → j ∈ L' ↔ j ∈ L) →
  (∃ name, x = if decide (i ∈ L') then mk_sleep_lock true (t_pid t) name else mk_sleep_lock false (-1) name) →
  itable_ok t L' (set_k_slocks (<[SlInode i := x]> (k_slocks s)) s).
Proof.
  intros [T1 T2 T3 T4 T5] Hi HL [name Hn]. split; try done. intros j Hj. cbn [k_slocks set_k_slocks].
  destruct (decide (j = i)) as [->|Hne].
  - exists name. by rewrite lookup_insert_eq, Hn.
  - destruct (T4 j Hj) as [name' Hn']. exists name'. rewrite lookup_insert_ne by congruence. rewrite Hn'.
    f_equal. apply decide_ext. by rewrite HL.
Qed.

(** A change of one lock, up to scheduling. *)
Lemma relocked L L' s s' i x :
  fs_ok t P ∅ s → itable_ok t L s → (i < N_INODE)%nat → (∀ j, j ≠ i → j ∈ L' ↔ j ∈ L) →
  (∃ name, x = if decide (i ∈ L') then mk_sleep_lock true (t_pid t) name else mk_sleep_lock false (-1) name) →
  idle t s' → sim (set_k_slocks (<[SlInode i := x]> (k_slocks s)) s) s' →
  istays t P s s' ∧ itable_ok t L' s' ∧ k_inodes s' = k_inodes s.
Proof.
  intros Hs Ht Hi HL Hx Hc S. split_and!; [|by eapply itable_sim, itable_relock|by rewrite <-(f_equal k_inodes S : _ = k_inodes s')].
  split_and!; [eapply fs_ok_sim; [|exact S|done]; by apply fs_ok_inode_lock| |exact (rsim_isim _ _ (sim_rsim _ _ S))].
  intros n. exact (sim_seen _ _ n S).
Qed.

Lemma names_lt L s i ino : itable_ok t L s → names s i ino → (i < N_INODE)%nat.
Proof. intros Ht (x & Hx & _). rewrite <-(it_len _ _ _ Ht). by eapply lookup_lt_Some. Qed.

(** The entry is locked and has been read from the disk. *)
Definition locked (s : kstate) (i : nat) (ino : Z) : Prop :=
  ∃ x, k_inodes s !! i = Some x ∧ live x ∧ i_ino x = ino ∧ i_valid x = true ∧ i_dev x = ROOT_DEV ∧
    dinode_of x = on_disk (seen s) (k_sb s) ino.

Lemma iunlock_spec L s i ino :
  fs_ok t P ∅ s → itable_ok t L s → names s i ino → i ∈ L →
  runs (iunlock i) s (λ _ s', istays t P s s' ∧ itable_ok t (L ∖ {[i]}) s' ∧ k_inodes s' = k_inodes s).
Proof.
  intros Hs Ht Hn HiL. pose proof (names_lt _ _ _ _ Ht Hn) as Hi. destruct Hn as (x & Hx & Lx & Nx). unfold iunlock.
  destruct (it_lock _ _ _ Ht i Hi) as [name Hl]. rewrite decide_True in Hl by done.
  kstep. eapply runs_ok; [by apply get_inode_eq|]. rewrite (proj2 (Z.ltb_ge _ _)) by lia.
  kcall (sleep_lock_release_spec t (SlInode i) name s (fo_cpu _ _ _ _ Hs) (il_inode _ IL i Hi) Hl).
  intros [] s1 [H1 S1]. eapply relocked; [exact Hs|exact Ht|exact Hi|set_solver| |exact H1|exact S1].
  exists name. by rewrite decide_False by set_solver.
Qed.
End table.

Section ilock.
Context `{DV : Device} `{RN : Rounds} (R : env) `{DK : !Disk R} (t : task) (FL : fs_locks t) (IL : inode_locks_of t).
Context (Hrounds : (1 < rounds)%nat) (P : gset Z) (HP : (size P < N_BUF)%nat).

(** The inode block of an inode number. *)
Lemma IBLOCK_spec s ino L :
  itable_ok t L s → 0 ≤ ino < 2 ^ 16 →
  IBLOCK ino s = Ok (ino / IPB + sb_inode_start (k_sb s)) s ∧ 0 ≤ ino / IPB + sb_inode_start (k_sb s) < 2 ^ 31.
Proof.
  intros Ht Hino. destruct (it_start _ _ _ Ht). assert (0 ≤ ino / IPB < 2 ^ 12) as Hb.
  { unfold IPB. Z.to_euclidean_division_equations; lia. }
  split; [|lia]. unfold IBLOCK. erewrite bind_ok by done. unfold mret, K_ret. by rewrite wrap_small by lia.
Qed.

Lemma dinode_loaded x di :
  dinode_of (set_i_valid true (set_i_addrs (di_addrs di) (set_i_size (di_size di)
      (set_i_nlink (di_nlink di) (set_i_minor (di_minor di) (set_i_major (di_major di)
      (set_i_type (di_type di) x))))))) = di.
Proof. by destruct di. Qed.

(** Filling the entry from the inode block. *)
Lemma iload_spec L s i x :
  fs_ok t P ∅ s → itable_ok t L s → k_inodes s !! i = Some x → live x → i_valid x = false →
  di_type (on_disk (seen s) (k_sb s) (i_ino x)) ≠ 0 →
  eruns R (ib ← IBLOCK (i_ino x);
    b ← bread (i_dev x) ib;
    d ← buf_data b;
    let di := get_dinode d (i_ino x) in
    upd_inode i (λ x, set_i_addrs (di_addrs di) (set_i_size (di_size di)
      (set_i_nlink (di_nlink di) (set_i_minor (di_minor di) (set_i_major (di_major di)
      (set_i_type (di_type di) x))))));;
    brelse b;;
    upd_inode i (set_i_valid true);;
    when (di_type di =? 0) (panic "inode has no type")) s (λ _ s', istays t P s s' ∧ itable_ok t L s' ∧
      ∃ y, k_inodes s' = <[i := y]> (k_inodes s) ∧ i_refcnt y = i_refcnt x ∧ i_ino y = i_ino x ∧ i_dev y = i_dev x ∧
        i_valid y = true ∧ dinode_of y = on_disk (seen s) (k_sb s) (i_ino x)).
Proof.
  intros Hs Ht Hx Lx Ev Hty. pose proof (entry_ok t _ s i x Ht Hx) as [I1 I2 I3 I4].
  destruct (IBLOCK_spec s (i_ino x) _ Ht (I3 Lx)) as [Eb Hb]. set (bno := i_ino x / IPB + sb_inode_start (k_sb s)) in *.
  estep. eapply eruns_runs, runs_ok; [exact Eb|]. rewrite (I2 Lx).
  estep. ecall (bread0_spec R t FL Hrounds P HP s bno Hs Hb). intros b s2 (H2 & B2 & V2 & R2).
  estep. ecallr (buf_data_spec s2 bno b _ B2). intros ? ? [-> ->]. cbv zeta.
  change (get_dinode (seen s bno) (i_ino x)) with (on_disk (seen s) (k_sb s) (i_ino x)).
  set (di := on_disk (seen s) (k_sb s) (i_ino x)) in *.
  estep. eapply eruns_runs, runs_ok; [apply (upd_inode_eq _ _ x); by rewrite <-(rsim_k_inodes _ _ R2)|].
  rewrite <-(rsim_k_inodes _ _ R2). set (y := set_i_addrs _ _). set (s3 := set_k_inodes _ s2).
  assert (holds s3 bno b (seen s bno)) as B3 by exact B2.
  estep. ecallr (brelse_spec t FL P {[bno]} s3 bno b _ (fs_ok_inodes _ _ _ _ _ H2)); [set_solver|exact B3| |].
  { cbn [k_disk set_k_inodes s3]. rewrite <-(rsim_k_disk _ _ R2). by apply (clean_or_pinned t P). }
  intros [] s4 (H4 & V4 & R4 & _). rewrite difference_diag_L in H4. pose proof (rsim_k_inodes _ _ R4) as E4.
  cbn [k_inodes set_k_inodes s3] in E4. assert (i < length (k_inodes s))%nat as Hlt by by eapply lookup_lt_Some.
  estep. eapply eruns_runs, runs_ok; [apply (upd_inode_eq _ _ y); rewrite <-E4; by apply list_lookup_insert_eq|].
  rewrite <-E4, list_insert_insert_eq. set (z := set_i_valid true y). rewrite (proj2 (Z.eqb_neq _ 0)) by done.
  cbn [when]. estep. set (s5 := set_k_inodes _ s4).
  assert (∀ n, seen s5 n = seen s n) as V5 by (intros n; by rewrite <-V2, <-V4).
  assert (rsim (set_k_inodes (<[i := z]> (k_inodes s)) s) s5) as R5.
  { etrans; [exact (rsim_set_inodes _ _ _ R2)|exact (rsim_set_inodes (<[i := z]> (k_inodes s)) _ _ R4)]. }
  assert (dinode_of z = di) as Edi by apply dinode_loaded.
  split; [split_and!; [by apply fs_ok_inodes|done|exact (rsim_isim _ _ R5)]|]. split.
  - eapply itable_rsim; [exact R5|exact V5|]. eapply itable_upd; [done|exact Hx| |by left].
    split; [done|done|done|]. intros _ _. exact Edi.
  - exists z. split_and!; try done. by apply I2.
Qed.

Lemma ilock_spec L s i ino :
  fs_ok t P ∅ s → itable_ok t L s → names s i ino → i ∉ L → di_type (on_disk (seen s) (k_sb s) ino) ≠ 0 →
  eruns R (ilock i) s (λ _ s', istays t P s s' ∧ itable_ok t ({[i]} ∪ L) s' ∧ locked s' i ino ∧
    (∀ n, iref (k_inodes s') n = iref (k_inodes s) n) ∧ names_kept s s').
Proof.
  intros Hs Ht Hn HiL Hty. pose proof (names_lt _ _ _ _ _ Ht Hn) as Hi. destruct Hn as (x & Hx & Lx & <-). unfold ilock.
  destruct (it_lock _ _ _ Ht i Hi) as [name Hl]. rewrite decide_False in Hl by done.
  estep. eapply eruns_runs, runs_ok; [by apply get_inode_eq|]. rewrite (proj2 (Z.ltb_ge _ _)) by lia.
  estep. ecall (sleep_lock_acquire_spec R t (SlInode i) name s); [lia|apply Hs|by apply IL|exact Hl|].
  intros [] s1 [H1 S1].
  destruct (relocked t P L ({[i]} ∪ L) s s1 i (mk_sleep_lock true (t_pid t) name) Hs Ht Hi) as (A1 & T1 & E1);
    [set_solver|by exists name; rewrite decide_True by set_solver|exact H1|exact S1|].
  pose proof A1 as (F1 & V1 & Q1). estep. eapply eruns_runs, runs_ok; [apply get_inode_eq; by rewrite E1|].
  rewrite <-E1 in Hx. pose proof (entry_ok t _ s1 i x T1 Hx) as [I1 I2 I3 I4]. destruct (i_valid x) eqn:Ev; cbn [negb].
  { estep. split_and!; [done|done| |by rewrite E1|].
    - exists x. split_and!; try done; [by apply I2|by apply I4].
    - intros j m Hj. unfold names in *. by rewrite E1. }
  ecall (iload_spec _ s1 i x F1 T1 Hx Lx Ev).
  { unfold on_disk. by rewrite V1, <-(isim_k_sb _ _ Q1). }
  intros [] s2 (A2 & T2 & y & E2 & Y1 & Y2 & Y3 & Y4 & Y5). rewrite <-E1.
  assert (uniq (<[i := y]> (k_inodes s1))) as Hu by (rewrite <-E2; apply T2).
  pose proof A2 as (F2 & V2 & Q2). split_and!; [by eapply istays_trans|done| | |].
  - exists y. rewrite E2, list_lookup_insert_eq by by eapply lookup_lt_Some.
    split_and!; [done|lia|done|done|rewrite Y3; by apply I2|]. rewrite Y5. unfold on_disk. by rewrite V2, (isim_k_sb _ _ Q2).
  - intros n. rewrite E2, (iref_replace _ i x y), Y1, Y2 by (done || apply T1). case_decide as E; [|done].
    destruct E as [_ <-]. symmetry. apply (iref_live _ i); [apply T1|done|done].
  - intros j m Hj. apply (names_replace s1 s2 i x y); [done|done|intros _; by rewrite Y1, Y2|].
    unfold names in *. by rewrite E1.
Qed.
End ilock.
