(* ===== verification/InodeDir.v ===== *)
(** Directories and paths (kernel/fs/inode.c: [dir_lookup], [lookup], [namei],
    [parenti]): they implement the search of a name in the entries of a
    directory, and the walk along a path that [resolve] defines on the contents
    of the disk. *)

From S2P Require Import Prelude Mem State Machine Mm MmInit Proc Sync Virtio Buf Log Inode FsData ProcTheorems Env VirtioTheorems BufList BufCache BufOps LogOps LogTheorems InodeRead InodeTable.

(** ** Definitions *)

Abbreviation refs s := (iref (k_inodes s)).

(** Entry [k] of a directory, and the first entry with the name. *)
Definition dirent (data : list Z) (k : nat) : list Z := slice (DIRENT_SIZE * Z.of_nat k) DIRENT_SIZE data.
Definition dir_match (name de : list Z) : bool :=
  negb (de_ino de =? 0) && (strncmp (rdl (de_name de)) (rdl name) DIR_SIZE =? 0).
Definition n_entries (data : list Z) : nat := length data / Z.to_nat DIRENT_SIZE.
Definition dir_find (data name : list Z) : option nat :=
  fst <$> list_find (λ k, dir_match name (dirent data k) = true) (seq 0 (n_entries data)).

(** The elements of a path: the parts between slashes that are not empty, up to
    [DIR_SIZE] bytes of each. *)
Definition element (e : list Z) : list (list Z) := if bool_decide (e = []) then [] else [take DIR_SIZE e].
Fixpoint split_path (e path : list Z) : list (list Z) :=
  match path with
  | [] => element e
  | c :: path => if c =? 47 then element e ++ split_path [] path else split_path (e ++ [c]) path
  end.
Definition elements (path : list Z) : list (list Z) := split_path [] path.

Section resolve.
Context (f : Z → list Z) (sb : super_block).

Definition idata (ino : Z) : list Z := let di := on_disk f sb ino in fdata f (di_addrs di) (di_size di).

(** The walk from inode [ino] along the elements [es]: the inode found and the last
    element. *)
Fixpoint resolve (parent : bool) (ino : Z) (es : list (list Z)) (name : list Z) : option Z * list Z :=
  match es with
  | [] => (if parent then None else Some ino, name)
  | name :: es =>
      if negb (di_type (on_disk f sb ino) =? FT_DIR) then (None, name)
      else if parent && bool_decide (es = []) then (Some ino, name)
      else match dir_find (idata ino) name with
           | None => (None, name)
           | Some k => resolve parent (de_ino (dirent (idata ino) k)) es name
           end
  end.

(** The entries of a directory name inodes. *)
Record dir_ok (ino : Z) : Prop := {
  dk_file : file_ok f (di_addrs (on_disk f sb ino)) (di_size (on_disk f sb ino));
  dk_size : di_size (on_disk f sb ino) mod DIRENT_SIZE = 0;
  dk_ino : ∀ k, (k < n_entries (idata ino))%nat → 0 ≤ de_ino (dirent (idata ino) k) < 2 ^ 16;
}.

(** The inodes on the way have links, and the directories are well-formed. *)
Fixpoint walk_ok (parent : bool) (ino : Z) (es : list (list Z)) : Prop :=
  di_nlink (on_disk f sb ino) ≠ 0 ∧
  match es with
  | [] => True
  | name :: es =>
      di_type (on_disk f sb ino) ≠ 0 ∧
      (di_type (on_disk f sb ino) = FT_DIR → parent && bool_decide (es = []) = false →
       dir_ok ino ∧
       match dir_find (idata ino) name with
       | None => True
       | Some k => walk_ok parent (de_ino (dirent (idata ino) k)) es
       end)
  end.
End resolve.

(** ** Paths *)

(** [skip_elem] takes the elements of a path one after the other. *)
Lemma split_app x : ∀ e rest, 47 ∉ x → split_path e (x ++ rest) = split_path (e ++ x) rest.
Proof.
  induction x as [|c x IH]; intros e rest Hx; cbn [app split_path]; [by rewrite app_nil_r|].
  apply not_elem_of_cons in Hx as [Hc Hx]. rewrite (proj2 (Z.eqb_neq c 47)), IH, <-app_assoc by congruence. done.
Qed.

Lemma span_elem_inv path e rest : span_elem path = (e, rest) → path = e ++ rest ∧ (47 ∉ e) ∧ (rest = [] ∨ ∃ r, rest = 47 :: r).
Proof.
  revert e rest. induction path as [|c path IH]; intros e rest; cbn [span_elem]; [intros [= <- <-]; split_and!; [done|apply not_elem_of_nil|by left]|].
  destruct (Z.eqb_spec c 47) as [->|Hc]; [intros [= <- <-]; split_and!; [done|apply not_elem_of_nil|by right; eexists]|].
  destruct (span_elem path) as [e' r]. intros [= <- <-]. destruct (IH _ _ eq_refl) as (-> & H1 & H2). split_and!; [done| |done].
  by apply not_elem_of_cons.
Qed.

Lemma elements_skip path : elements (skip_slashes path) = elements path.
Proof. induction path as [|c path IH]; [done|]. cbn [skip_slashes]. destruct (Z.eqb_spec c 47) as [->|]; [exact IH|done]. Qed.

Lemma split_nonempty e path : e ≠ [] → split_path e path ≠ [].
Proof.
  revert e. induction path as [|c path IH]; intros e He; cbn [split_path].
  - unfold element. by rewrite bool_decide_eq_false_2.
  - case_match; [unfold element; by rewrite bool_decide_eq_false_2|]. apply IH. by destruct e.
Qed.

Lemma skip_elem_elements path :
  match skip_elem path with
  | None => elements path = []
  | Some (rest, name) => elements path = name :: elements rest ∧ bool_decide (elements rest = []) = bool_decide (rest = [])
  end.
Proof.
  unfold skip_elem. rewrite <-(elements_skip path). pose proof (skip_slashes_idemp path) as Hi. destruct (skip_slashes path) as [|c q]; [done|].
  destruct (span_elem (c :: q)) as [e r] eqn:E. pose proof (span_elem_inv _ _ _ E) as (Ep & He & Hr). rewrite Ep. unfold elements at 1. rewrite split_app by done.
  assert (e ≠ []) as Hne.
  { intros ->. cbn [span_elem skip_slashes] in *. destruct (c =? 47); [|by destruct (span_elem q)]. pose proof (skip_slashes_len q) as Hl. rewrite Hi in Hl. simpl in Hl. lia. }
  split.
  - rewrite elements_skip. cbn [app]. destruct Hr as [->|[r' ->]]; cbn; unfold element; by rewrite bool_decide_eq_false_2.
  - rewrite elements_skip. rewrite <-elements_skip. pose proof (skip_slashes_idemp r) as Hi'. destruct (skip_slashes r) as [|d r']; [done|].
    rewrite !bool_decide_eq_false_2; [done|done|]. unfold elements. cbn [split_path skip_slashes] in *. destruct (d =? 47).
    + pose proof (skip_slashes_len r') as Hl. rewrite Hi' in Hl. simpl in Hl. lia.
    + by apply split_nonempty.
Qed.

(** ** Searching a directory *)

Lemma dir_find_Some data name k :
  dir_find data name = Some k ↔
  (k < n_entries data)%nat ∧ dir_match name (dirent data k) = true ∧
  ∀ j, (j < k)%nat → dir_match name (dirent data j) = false.
Proof.
  unfold dir_find. rewrite fmap_Some. split.
  - intros ([i x] & H & ->). apply list_find_Some in H as (Hi & Hm & Hj). apply lookup_seq in Hi as [-> Hi]. cbn [fst].
    split_and!; [done|done|]. intros j Hlt. apply not_true_is_false. apply (Hj j j); [|done]. apply lookup_seq. lia.
  - intros (Hk & Hm & Hj). exists (k, k). split; [|done]. apply list_find_Some. split_and!; [apply lookup_seq; lia|done|].
    intros j y [-> _]%lookup_seq Hlt. rewrite Hj by done. done.
Qed.

Lemma dir_find_None data name :
  dir_find data name = None ↔ ∀ j, (j < n_entries data)%nat → dir_match name (dirent data j) = false.
Proof.
  unfold dir_find. rewrite fmap_None, list_find_None, Forall_forall. split.
  - intros H j Hj. apply not_true_is_false, H, elem_of_seq. lia.
  - intros H j Hj%elem_of_seq. rewrite H by lia. done.
Qed.

Section dir.
Context `{DV : Device} `{RN : Rounds} (R : env) `{DK : !Disk R} (t : task) (FL : fs_locks t) (IL : inode_locks_of t).
Context (Hrounds : (1 < rounds)%nat) (P : gset Z) (HP : (size P < N_BUF)%nat).

(** There is room for one more reference to any inode. *)
Record room (s : kstate) (n : nat) : Prop := {
  rm_entries : (size (in_use (k_inodes s)) + n ≤ N_INODE)%nat;
  rm_refs : ∀ m, iref (k_inodes s) m + Z.of_nat n < 2 ^ 31;
}.

Lemma room_add s s' ino n : refs_add ino 1 s s' → room s (S n) → room s' n.
Proof.
  intros Hr [R1 R2]. split.
  - assert (in_use (k_inodes s') ⊆ {[ino]} ∪ in_use (k_inodes s)) as Hsub.
    { intros m. rewrite elem_of_union, elem_of_singleton, !elem_of_in_use, Hr. case_decide; [by left|right; lia]. }
    apply subseteq_size in Hsub. pose proof (size_union_alt {[ino]} (in_use (k_inodes s))) as Hu.
    rewrite size_singleton in Hu. pose proof (subseteq_size (in_use (k_inodes s) ∖ {[ino]}) (in_use (k_inodes s)) ltac:(set_solver)).
    lia.
  - intros m. rewrite Hr. specialize (R2 m). case_decide; lia.
Qed.

Lemma room_same s s' n : (∀ m, iref (k_inodes s') m = iref (k_inodes s) m) → room s n → room s' n.
Proof. intros E [R1 R2]. split; [by rewrite (in_use_ext _ _ E)|]. intros m. by rewrite E. Qed.

(** A locked entry has the size and the addresses of its inode. *)
Lemma locked_fields s i ino :
  locked s i ino → ∃ x, k_inodes s !! i = Some x ∧ live x ∧ i_dev x = ROOT_DEV ∧ i_ino x = ino ∧
    let di := on_disk (seen s) (k_sb s) ino in
    i_type x = di_type di ∧ i_nlink x = di_nlink di ∧ i_size x = di_size di ∧ i_addrs x = di_addrs di.
Proof. intros (x & Hx & Lx & Nx & Vx & Dx & Ex). exists x. rewrite <-Ex. done. Qed.

Lemma n_entries_size s ino :
  fs_ok t P ∅ s → dir_ok (seen s) (k_sb s) ino →
  DIRENT_SIZE * Z.of_nat (n_entries (idata (seen s) (k_sb s) ino)) = di_size (on_disk (seen s) (k_sb s) ino).
Proof.
  intros Hs [K1 K2 K3]. unfold n_entries, idata. pose proof (fk_size _ _ _ K1).
  rewrite (length_fdata _ (λ n, length_seen _ _ _ _ n Hs)) by lia. rewrite Nat2Z.inj_div, !Z2Nat.id by (done || lia).
  unfold DIRENT_SIZE in *. Z.to_euclidean_division_equations; lia.
Qed.

(** The search of [dir_lookup] from entry [k] on. *)
Lemma dir_scan_spec s dir ino x name :
  fs_ok t P ∅ s → k_inodes s !! dir = Some x → i_dev x = ROOT_DEV → dir_ok (seen s) (k_sb s) ino →
  i_size x = di_size (on_disk (seen s) (k_sb s) ino) → i_addrs x = di_addrs (on_disk (seen s) (k_sb s) ino) →
  let data := idata (seen s) (k_sb s) ino in
  ∀ (Q : option (nat * Z) → kstate → Prop),
  (∀ s', stays t P s s' → dir_find data name = None → Q None s') →
  (∀ s' k, stays t P s s' → dir_find data name = Some k →
     eruns R (i ← iget ROOT_DEV (de_ino (dirent data k));
              mret (inr (A := Z) (Some (i, DIRENT_SIZE * Z.of_nat k)))) s' (λ r s2, match r with inl _ => False | inr r => Q r s2 end)) →
  eruns R (loop (S (Z.to_nat (i_size x)))
    (λ off,
       if off <? i_size x then
         '(r, de) ← readi dir false 0 off DIRENT_SIZE;
         if negb (r =? DIRENT_SIZE) then panic "inode read error" else
         if de_ino de =? 0 then mret (inl (off + DIRENT_SIZE)) else
         if strncmp (rdl (de_name de)) (rdl name) DIR_SIZE =? 0 then
           i ← iget (i_dev x) (de_ino de);
           mret (inr (Some (i, off)))
         else mret (inl (off + DIRENT_SIZE))
       else mret (inr None)) 0) s Q.
Proof.
  intros Hs Hx Dx Hdk Sx Ax data Q Hnone Hsome. pose proof (n_entries_size s ino Hs Hdk) as Hn. fold data in Hn.
  pose proof Hdk as [K1 K2 K3]. rewrite <-Sx, <-Ax in K1. rewrite <-Sx in K2, Hn. pose proof (fk_size _ _ _ K1) as Hsz.
  apply (eruns_loop _ (λ off s', ∃ k, off = DIRENT_SIZE * Z.of_nat k ∧ (k ≤ n_entries data)%nat ∧ stays t P s s' ∧
    ∀ j, (j < k)%nat → dir_match name (dirent data j) = false) (λ off, Z.to_nat (i_size x - off))).
  2: { exists O. split_and!; [done|lia|by apply stays_refl|lia]. }
  2: { unfold DIRENT_SIZE in *. lia. }
  intros off s1 (k & -> & Hk & (F1 & V1 & R1) & Hj). destruct (Z.ltb_spec (DIRENT_SIZE * Z.of_nat k) (i_size x)) as [Hlt|Hge].
  2: { estep. apply Hnone; [done|]. apply dir_find_None. intros j Hjn. apply Hj. unfold DIRENT_SIZE in *. lia. }
  assert (DIRENT_SIZE * Z.of_nat k + DIRENT_SIZE ≤ i_size x) as Hfit by (unfold DIRENT_SIZE in *; lia).
  assert (file_ok (seen s1) (i_addrs x) (i_size x)) as K1'.
  { destruct K1 as [L1 L2 L3]. split; [done|done|]. intros j H0 H1. destruct (L3 j H0 H1) as [M1 M2 M3]. split; [done|done|].
    by rewrite (faddr_ext _ (seen s)). }
  estep. ecall (readi_kernel R t FL Hrounds P HP s1 dir x (DIRENT_SIZE * Z.of_nat k) DIRENT_SIZE F1);
    [by rewrite <-(rsim_k_inodes _ _ R1)|done|done|unfold DIRENT_SIZE in *; lia|done|
     unfold DIRENT_SIZE, MAX_BLOCKS, N_DIRECT, N_INDIRECT, APB, BLOCK_SIZE in *; lia|].
  intros r s2 (-> & F2 & V2 & R2). rewrite (Z.min_l DIRENT_SIZE) by lia. rewrite Z.eqb_refl. cbn [negb].
  assert (slice (DIRENT_SIZE * Z.of_nat k) DIRENT_SIZE (fdata (seen s1) (i_addrs x) (i_size x)) = dirent data k) as ->.
  { unfold dirent, data, idata. rewrite <-Sx, <-Ax. f_equal. unfold fdata. do 2 f_equal. apply list_fmap_ext. intros _ j _.
    by rewrite V1, (faddr_ext _ (seen s)). }
  assert (stays t P s s2) as St by (split_and!; [done|intros n; by rewrite V2|by etrans]).
  assert (k < n_entries data)%nat as Hkn by (unfold DIRENT_SIZE in *; lia).
  assert (dir_match name (dirent data k) = false → ∃ k', DIRENT_SIZE * Z.of_nat k + DIRENT_SIZE = DIRENT_SIZE * Z.of_nat k' ∧
    (k' ≤ n_entries data)%nat ∧ stays t P s s2 ∧ ∀ j, (j < k')%nat → dir_match name (dirent data j) = false) as Hnext.
  { intros Hm. exists (S k). split_and!; [unfold DIRENT_SIZE; lia|lia|done|]. intros j Hjk.
    destruct (decide (j = k)) as [->|]; [done|]. apply Hj. lia. }
  unfold dir_match in Hnext at 1. destruct (de_ino (dirent data k) =? 0) eqn:E0.
  { estep. split; [by apply Hnext|unfold DIRENT_SIZE in *; lia]. }
  destruct (strncmp _ _ _ =? 0) eqn:E1.
  2: { estep. split; [by apply Hnext|unfold DIRENT_SIZE in *; lia]. }
  rewrite Dx. eapply eruns_conseq; [apply (Hsome s2 k St)|by intros [] s3].
  apply dir_find_Some. split_and!; [done| |done]. unfold dir_match. by rewrite E0, E1.
Qed.

Lemma dir_lookup_spec L s dir ino name :
  fs_ok t P ∅ s → itable_ok t L s → locked s dir ino → dir_ok (seen s) (k_sb s) ino →
  di_type (on_disk (seen s) (k_sb s) ino) = FT_DIR → room s 1 →
  let data := idata (seen s) (k_sb s) ino in
  eruns R (dir_lookup dir name) s (λ r s', istays t P s s' ∧ itable_ok t L s' ∧ names_kept s s' ∧
    match dir_find data name with
    | None => r = None ∧ ∀ n, iref (k_inodes s') n = iref (k_inodes s) n
    | Some k => let ino' := de_ino (dirent data k) in
        ∃ i, r = Some (i, DIRENT_SIZE * Z.of_nat k) ∧ names s' i ino' ∧ refs_add ino' 1 s s'
    end).
Proof.
  intros Hs Ht Hlk Hdk Hty Hroom data. destruct (locked_fields _ _ _ Hlk) as (x & Hx & Lx & Dx & Nx & Tx & _ & Sx & Ax).
  unfold dir_lookup. estep. eapply eruns_runs, runs_ok; [by apply get_inode_eq|].
  rewrite Tx, Hty. cbn [Z.eqb FT_DIR Pos.eqb negb].
  apply (dir_scan_spec s dir ino x name Hs Hx Dx Hdk Sx Ax).
  - intros s' (F & V & Q) Hf. fold data in Hf. rewrite Hf. split; [|split_and!]; [by apply stays_istays|by eapply itable_rsim| |done|].
    + intros j m. unfold names. by rewrite (rsim_k_inodes _ _ Q).
    + by rewrite (rsim_k_inodes _ _ Q).
  - intros s' k (F & V & Q) Hf. pose proof (rsim_k_inodes _ _ Q) as E. fold data in Hf. rewrite Hf. pose proof Hf as (Hk & _)%dir_find_Some.
    destruct Hroom as [RM1 RM2]. estep.
    ecallr (iget_spec t IL P L s' _ F); [by eapply itable_rsim|by apply (dk_ino _ _ _ Hdk)|rewrite <-E; apply RM2| |].
    { right. rewrite <-E. lia. }
    intros i s2 (A1 & A2 & A3 & A4 & A5). estep. split_and!; [|done| |].
    + eapply istays_trans; [|exact A1]. apply stays_istays. done.
    + intros j m Hj. apply A5. unfold names in *. by rewrite <-E.
    + exists i. split_and!; [done|done|]. intros n. rewrite E. apply A4.
Qed.

(** ** Walking a path *)

(** The definitions above depend on the blocks by their contents only. *)
Lemma on_disk_ext f g sb ino : (∀ n, f n = g n) → on_disk f sb ino = on_disk g sb ino.
Proof. intros E. unfold on_disk. by rewrite E. Qed.

Lemma idata_ext f g sb ino : (∀ n, f n = g n) → idata f sb ino = idata g sb ino.
Proof.
  intros E. unfold idata. rewrite (on_disk_ext f g) by done. unfold fdata. do 2 f_equal. apply list_fmap_ext.
  intros _ j _. by rewrite E, (faddr_ext f g).
Qed.

Lemma dir_ok_ext f g sb ino : (∀ n, f n = g n) → dir_ok f sb ino → dir_ok g sb ino.
Proof.
  intros E [[K1 K2 K3] K4 K5]. rewrite (on_disk_ext f g) in K1, K2, K3, K4 by done. rewrite (idata_ext f g) in K5 by done.
  split; [split|..]; [done|done| |done|done]. intros j H0 H1. destruct (K3 j H0 H1). split; [done|done|].
  by rewrite (faddr_ext g f).
Qed.

Lemma span_elem_len path e rest : span_elem path = (e, rest) → (length rest ≤ length path)%nat.
Proof.
  revert e rest. induction path as [|c path IH]; intros e rest; cbn [span_elem]; [by intros [= <- <-]|].
  destruct (c =? 47); [by intros [= <- <-]|]. destruct (span_elem path) as [e' r] eqn:E. intros [= <- <-].
  specialize (IH _ _ eq_refl). simpl. lia.
Qed.

Lemma skip_elem_len path rest name : skip_elem path = Some (rest, name) → (length rest < length path)%nat.
Proof.
  unfold skip_elem. pose proof (skip_slashes_len path). pose proof (skip_slashes_idemp path) as Hi.
  destruct (skip_slashes path) as [|c q]; [done|]. cbn [span_elem skip_slashes] in *. destruct (c =? 47) eqn:Ec.
  { intros _. pose proof (skip_slashes_len q) as Hl. rewrite Hi in Hl. simpl in Hl. lia. }
  destruct (span_elem q) as [e r] eqn:E. intros [= <- _]. apply span_elem_len in E. pose proof (skip_slashes_len r). simpl in *. lia.
Qed.

Lemma names_iref s j m : names s j m → 0 < iref (k_inodes s) m.
Proof. intros (x & Hx & Lx & Nx). apply iref_pos. by exists j, x. Qed.

Lemma names_inj s i ino ino' : names s i ino → names s i ino' → ino' = ino.
Proof. intros (x & Hx & _ & <-) (y & Hy & _ & <-). by simplify_eq. Qed.

(** The state of a walk that began in [s0]: entry [i] is for [ino], and has one
    reference more than the counts [e]. *)
Record walking (L : gset nat) (e : Z → Z) (s0 s : kstate) (i : nat) (ino : Z) : Prop := {
  wk_stays : istays t P s0 s;
  wk_table : itable_ok t L s;
  wk_names : names s i ino;
  wk_refs : ∀ n, iref (k_inodes s) n = e n + if decide (n = ino) then 1 else 0;
  wk_kept : names_kept s0 s;
  wk_more : ∀ n, iref (k_inodes s0) n ≤ e n;
}.

Definition walked (s0 s : kstate) (r : option nat) (o : option Z) : Prop :=
  match r, o with
  | Some i, Some ino => walking ∅ (refs s0) s0 s i ino
  | None, None => istays t P s0 s ∧ itable_ok t ∅ s ∧ names_kept s0 s ∧ ∀ n, refs s n = refs s0 n
  | _, _ => False
  end.

(** Giving a reference back: the entries that still have one stay. *)
Lemma walk_iput e s0 s i ino :
  walking ∅ e s0 s i ino → di_nlink (on_disk (seen s0) (k_sb s0) ino) ≠ 0 →
  runs (iput i) s (λ _ s', istays t P s0 s' ∧ itable_ok t ∅ s' ∧ names_kept s0 s' ∧ (∀ n, refs s' n = e n) ∧
    ∀ j m, names s j m → 0 < e m → names s' j m).
Proof using IL.
  clear Hrounds HP FL DK R.
  intros [W1 W2 W3 W4 W5 W6] Hl. pose proof W1 as (F & V & Q).
  eapply runs_conseq; [apply (iput_spec t IL P ∅ s i ino F W2 W3); left|].
  { by rewrite <-(isim_k_sb _ _ Q), (on_disk_ext _ _ _ _ V). }
  intros [] s' (A1 & A2 & A3 & A4).
  assert (∀ j m, names s j m → 0 < e m → names s' j m) as Hk.
  { intros j m Hj Hm. apply A4; [|done]. destruct (decide (j = i)) as [->|]; [right|by left].
    rewrite (names_inj _ _ _ _ W3 Hj) in Hm. rewrite W4, decide_True by done. lia. }
  split_and!; [by eapply istays_trans|done| | |done].
  - intros j m Hj. apply Hk; [by apply W5|]. apply names_iref in Hj. specialize (W6 m). lia.
  - intros n. rewrite A3, W4. case_decide; lia.
Qed.

Lemma walk_unlock e s0 s i ino :
  walking {[i]} e s0 s i ino → runs (iunlock i) s (λ _ s', walking ∅ e s0 s' i ino ∧ k_inodes s' = k_inodes s).
Proof using IL.
  clear Hrounds HP FL DK R.
  intros [W1 W2 W3 W4 W5 W6]. pose proof W1 as (F & V & Q).
  eapply runs_conseq; [apply (iunlock_spec t IL P {[i]} s i ino F W2 W3); set_solver|].
  intros [] s' (A1 & A2 & E). rewrite difference_diag_L in A2. split; [|done].
  split; [by eapply istays_trans|done| | | |done].
  - unfold names. by rewrite E.
  - intros n. rewrite E. apply W4.
  - intros j m Hj. unfold names. rewrite E. by apply W5.
Qed.

Lemma walk_lock s0 s i ino :
  walking ∅ (refs s0) s0 s i ino → di_type (on_disk (seen s0) (k_sb s0) ino) ≠ 0 →
  eruns R (ilock i) s (λ _ s', walking {[i]} (refs s0) s0 s' i ino ∧ locked s' i ino).
Proof.
  intros [W1 W2 W3 W4 W5 W6] Hty. pose proof W1 as (F & V & Q).
  eapply eruns_conseq; [apply (ilock_spec R t FL IL Hrounds P HP ∅ s i ino F W2 W3); [set_solver|]|].
  { by rewrite <-(isim_k_sb _ _ Q), (on_disk_ext _ _ _ _ V). }
  intros [] s' (A1 & A2 & A3 & A4 & A5). rewrite union_empty_r_L in A2. split; [|done].
  split; [by eapply istays_trans|done|by apply A5| | |done].
  - intros n. rewrite A4. apply W4.
  - intros j m Hj. by apply A5, W5.
Qed.

(** The search in the locked directory. *)
Lemma walk_dir s0 s i ino name :
  walking {[i]} (refs s0) s0 s i ino → locked s i ino → dir_ok (seen s0) (k_sb s0) ino →
  di_type (on_disk (seen s0) (k_sb s0) ino) = FT_DIR → room s0 2 →
  let data := idata (seen s0) (k_sb s0) ino in
  eruns R (dir_lookup i name) s (λ r s', match dir_find data name with
    | None => r = None ∧ walking {[i]} (refs s0) s0 s' i ino
    | Some k => let ino' := de_ino (dirent data k) in
        ∃ i', r = Some (i', DIRENT_SIZE * Z.of_nat k) ∧ names s' i' ino' ∧
          walking {[i]} (λ n, refs s0 n + if decide (n = ino') then 1 else 0) s0 s' i ino
    end).
Proof.
  intros [W1 W2 W3 W4 W5 W6] Hlk Hdk Hty Hroom data. pose proof W1 as (F & V & Q). pose proof (isim_k_sb _ _ Q) as Esb.
  assert (idata (seen s) (k_sb s) ino = data) as Ed by by rewrite <-Esb, (idata_ext _ _ _ _ V).
  eapply eruns_conseq; [apply (dir_lookup_spec {[i]} s i ino name F W2 Hlk)|].
  - rewrite <-Esb. by apply (dir_ok_ext (seen s0)).
  - by rewrite <-Esb, (on_disk_ext _ _ _ _ V).
  - eapply room_add; [exact W4|done].
  - cbv zeta. rewrite Ed. intros r s' (A1 & A2 & A3 & A4). destruct (dir_find data name) as [k|].
    + destruct A4 as (i' & -> & N1 & N2). exists i'. split_and!; [done|done|]. split.
      * by eapply istays_trans.
      * done.
      * by apply A3.
      * intros n. rewrite N2, W4. lia.
      * intros j m Hj. by apply A3, W5.
      * intros n. case_decide; lia.
    + destruct A4 as (-> & N). split; [done|]. split; [by eapply istays_trans|done|by apply A3| | |done].
      * intros n. rewrite N. apply W4.
      * intros j m Hj. by apply A3, W5.
Qed.

(** The entry that [lookup] starts from. *)
Definition starts (s : kstate) (path : list Z) (ino : Z) : Prop :=
  if bool_decide (head path = Some 47) then ino = ROOT_INO
  else ∃ x c, k_procs s !! t_proc t = Some x ∧ p_cwd x = Some c ∧ names s c ino.

Lemma iget_start s ino :
  fs_ok t P ∅ s → itable_ok t ∅ s → room s 2 → 0 ≤ ino < 2 ^ 16 →
  runs (iget ROOT_DEV ino) s (λ i s', walking ∅ (refs s) s s' i ino).
Proof using IL.
  clear Hrounds HP FL DK R.
  intros Hs Ht [R1 R2] Hino. eapply runs_conseq; [apply (iget_spec t IL P ∅ s ino Hs Ht Hino)|].
  - specialize (R2 ino). lia.
  - right. lia.
  - intros i s' (A1 & A2 & A3 & A4 & A5). by split.
Qed.

Lemma lookup_start s path ino {A} (k : nat → KM A) Q :
  fs_ok t P ∅ s → itable_ok t ∅ s → room s 2 → starts s path ino →
  (∀ i s', walking ∅ (refs s) s s' i ino → eruns R (k i) s' Q) →
  eruns R (start ← (match path with
           | 47 :: _ => iget ROOT_DEV ROOT_INO
           | _ => p ← the_proc; x ← get_proc p;
                  match p_cwd x with Some i => idup i | None => stuck Undefined end
           end); k start) s Q.
Proof.
  intros Hs Ht Hroom Hst Hk. unfold starts in Hst. case_bool_decide as Hp.
  - destruct path as [|c path]; [done|]. injection Hp as ->. subst ino. estep.
    ecallr (iget_start s ROOT_INO Hs Ht Hroom); [done|]. apply Hk.
  - assert (∀ (A : Type) (a b : A), match path with 47 :: _ => a | _ => b end = b) as ->.
    { intros A' a b. destruct path as [|c path]; [done|]. destruct c as [|c|]; try done.
      do 6 (destruct c as [c|c|]; try done). }
    destruct Hst as (x & c & Hx & Hc & Hn). pose proof (fo_cpu _ _ _ _ Hs) as H0.
    estep. estep. eapply eruns_runs, runs_ok.
    { apply (the_proc_eq (t_proc t)); [apply H0|by rewrite (oc_noff _ _ _ _ H0)|apply H0]. }
    assert (fs_ok t P ∅ (settled s)) as F1 by (eapply fs_ok_sim; [exact Hs|done|by apply on_cpu_settled]).
    assert (itable_ok t ∅ (settled s)) as T1 by by apply (itable_rsim _ _ s).
    estep. eapply eruns_runs, runs_ok; [apply get_proc_eq; exact Hx|]. rewrite Hc.
    ecallr (idup_spec t IL P ∅ (settled s) c ino F1 T1 Hn); [destruct Hroom as [_ R2]; specialize (R2 ino); simpl; lia|].
    intros i s2 (-> & (A1 & A2 & A3) & A4 & A5 & A6 & A7). apply Hk. split; [split_and!|..]; try done.
Qed.

(** [lookup] walks the path as [resolve] does: it gives the entry of the inode
    that the path leads to with one reference more, or no entry and the
    references as before. *)
Lemma lookup_spec s path parent ino :
  fs_ok t P ∅ s → itable_ok t ∅ s → room s 2 → starts s path ino →
  walk_ok (seen s) (k_sb s) parent ino (elements path) →
  eruns R (lookup path parent) s (λ r s',
    let o := resolve (seen s) (k_sb s) parent ino (elements path) [] in
    r.2 = o.2 ∧ walked s s' r.1 o.1).
Proof.
  intros Hs Ht Hroom Hst Hok. apply (lookup_start s path ino); try done. intros i0 s0 W0.
  set (o := resolve _ _ _ _ _ _).
  apply (eruns_loop _ (λ '(path, i, name) s', ∃ ino, walking ∅ (refs s) s s' i ino ∧
    walk_ok (seen s) (k_sb s) parent ino (elements path) ∧ resolve (seen s) (k_sb s) parent ino (elements path) name = o) (λ l, length l.1.1)).
  2: { exists ino. by split_and!. }
  2: { simpl. lia. }
  clearbody o. clear path ino Hst Hok i0 s0 W0. intros [[path i] name] s0 (ino & W & Hok & Ho). pose proof (skip_elem_elements path) as Hel.
  destruct (skip_elem path) as [[rest elem]|] eqn:Esk; [destruct Hel as [Hel Hnil]|]; rewrite Hel in Hok, Ho;
    cbn [walk_ok resolve] in Hok, Ho; destruct Hok as [Hnl Hok]; [rewrite Hnil in Hok, Ho|].
  2: { destruct parent; subst o; [|by estep]. estep. ecallr (walk_iput _ s s0 i ino W Hnl). intros [] s1 (A1 & A2 & A3 & A4 & _).
    by estep. }
  apply skip_elem_len in Esk. destruct Hok as [Hty Hok].
  estep. ecall (walk_lock s s0 i ino W Hty). intros [] s1 [W1 L1]. pose proof (wk_stays _ _ _ _ _ _ W1) as (F1 & V1 & Q1).
  destruct (locked_fields _ _ _ L1) as (x & Hx & _ & _ & _ & Tx & _). rewrite <-(isim_k_sb _ _ Q1), (on_disk_ext _ _ _ _ V1) in Tx.
  estep. eapply eruns_runs, runs_ok; [by apply get_inode_eq|]. rewrite Tx.
  destruct (Z.eqb_spec (di_type (on_disk (seen s) (k_sb s) ino)) FT_DIR) as [Hdir|Hndir]; cbn [negb] in Ho |- *.
  2: { subst o. estep. ecallr (walk_unlock _ s s1 i ino W1). intros [] s2 [W2 _].
    estep. ecallr (walk_iput _ s s2 i ino W2 Hnl). intros [] s3 (A1 & A2 & A3 & A4 & _). by estep. }
  destruct (parent && _) eqn:Ep.
  { subst o. estep. ecallr (walk_unlock _ s s1 i ino W1). intros [] s2 [W2 _]. by estep. }
  destruct (Hok Hdir eq_refl) as [Hdk Hnext]. estep. ecall (walk_dir s s1 i ino elem W1 L1 Hdk Hdir Hroom).
  intros r s2. destruct (dir_find _ elem) as [k|].
  - intros (i' & -> & N2 & W2). set (ino' := de_ino _) in *. estep. ecallr (walk_unlock _ s s2 i ino W2). intros [] s3 [W3 E3].
    estep. ecallr (walk_iput _ s s3 i ino W3 Hnl). intros [] s4 (A1 & A2 & A3 & A4 & A5). estep. split; [|cbn [fst]; lia].
    exists ino'. split_and!; [|done|done]. split; try done.
    apply A5; [unfold names; by rewrite E3|]. rewrite decide_True by done. pose proof (iref_nonneg (k_inodes s) ino'). lia.
  - intros (-> & W2). subst o. estep. ecallr (walk_unlock _ s s2 i ino W2). intros [] s3 [W3 _].
    estep. ecallr (walk_iput _ s s3 i ino W3 Hnl). intros [] s4 (A1 & A2 & A3 & A4 & _). by estep.
Qed.
End dir.

(** C8: the walk along a path implements the reference walk [resolve] over the
    directories on the disk along the [elements] of the path (its parts between
    slashes), for relative and for absolute paths, and for the parent of the last
    element: [lookup] returns the entry of the inode that
    [resolve] finds and the last element it reached, or none when an element is
    missing or is not in a directory. The contents of the disk are as before; the
    inode found has one reference more and every other inode the references it
    had, so that the locks and references taken on the way are all given back. *)
Theorem lookup_resolves `{Device} `{Rounds} R `{!Disk R} t P s path parent ino :
  (1 < rounds)%nat → fs_locks t → inode_locks_of t → (size P < N_BUF)%nat →
  fs_ok t P ∅ s → itable_ok t ∅ s → room s 2 → starts t s path ino →
  walk_ok (seen s) (k_sb s) parent ino (elements path) →
  eruns R (lookup path parent) s (λ r s',
    let o := resolve (seen s) (k_sb s) parent ino (elements path) [] in
    r.2 = o.2 ∧ match r.1, o.1 with Some i, Some n => names s' i n | None, None => True | _, _ => False end ∧
    fs_ok t P ∅ s' ∧ itable_ok t ∅ s' ∧ (∀ n, seen s' n = seen s n) ∧ names_kept s s' ∧
    ∀ n, refs s' n = refs s n + if decide (o.1 = Some n) then 1 else 0).
Proof.
  intros Hr FL IL HP Hs Ht Hroom Hst Hok. eapply eruns_conseq; [by apply (lookup_spec R t FL IL Hr P HP)|].
  intros [r name] s'. cbn [fst snd]. destruct (resolve _ _ _ _ _ _) as [o name']. cbn [fst snd]. intros [-> W].
  destruct r as [i|], o as [n|]; try done.
  - destruct W as [(F & V & _) T Nm Rf Kp _]. split_and!; try done. intros k. rewrite Rf. f_equal.
    destruct (decide (k = n)) as [->|]; [by rewrite decide_True|]. rewrite decide_False by congruence. done.
  - destruct W as ((F & V & _) & T & Kp & Rf). split_and!; try done. intros k. rewrite Rf, decide_False by done. lia.
Qed.
