(* ===== verification/BlockMap.v ===== *)
(** The blocks that inodes own: the data area, its bitmap, and the addresses in
    the inodes and in their indirect blocks.  No block has two owners, and a
    block that has one is marked in the bitmap; the steps of kernel/fs/inode.c
    that allocate a block or write one keep this. *)

From S2P Require Import Prelude Mem State Machine Mm MmInit Proc Sync Virtio Buf Log Inode FsData ProcTheorems Env VirtioTheorems BufList BufCache BufOps LogOps LogTheorems InodeRead InodeTable InodeDir.

(** ** Definitions *)

Definition upd {B} (g : Z → B) (k : Z) (v : B) : Z → B := λ n, if decide (n = k) then v else g n.

(** The places of an inode that hold the address of a block: block [j] of the
    file, and indirect block [q]. *)
Inductive pos := PBlk (j : Z) | PInd (q : Z).

#[export] Instance pos_eq_dec : EqDecision pos.
Proof. solve_decision. Defined.

Definition pos_ok (p : pos) : Prop :=
  match p with PBlk j => 0 ≤ j < MAX_BLOCKS | PInd q => 0 ≤ q < N_INDIRECT end.

(** The address at a place, 0 when there is none. *)
Definition paddr (f : Z → list Z) (addrs : list Z) (p : pos) : Z :=
  match p with
  | PInd q => default 0 (addrs !! Z.to_nat (N_DIRECT + q))
  | PBlk j =>
      if j <? N_DIRECT then default 0 (addrs !! Z.to_nat j)
      else if ind_of addrs j =? 0 then 0
      else word32 (f (ind_of addrs j)) (Z.to_nat ((j - N_DIRECT) mod APB))
  end.

(** The areas of the disk follow each other: the log, the inodes, the bitmap of
    the data blocks, the data blocks. *)
Record geometry (st : Z) (sb : super_block) : Prop := {
  ge_log : 0 ≤ st ∧ st + LOG_SIZE ≤ sb_inode_start sb;
  ge_inodes : 0 < sb_n_inode_blks sb ≤ 512 ∧ sb_inode_start sb + sb_n_inode_blks sb ≤ sb_data_bitmap_start sb;
  ge_data : sb_data_bitmap_start sb < sb_data_start sb ∧ sb_data_start sb + Z.of_nat BITS < 2 ^ 31;
}.

(** The places in the inode itself, as indices of its addresses. *)
Definition in_inode (p : pos) (k : nat) : Prop :=
  match p with
  | PBlk j => 0 ≤ j < N_DIRECT ∧ k = Z.to_nat j
  | PInd q => 0 ≤ q < N_INDIRECT ∧ k = Z.to_nat (N_DIRECT + q)
  end.

Section owners.
Context (sb : super_block).

Definition inum (ino : Z) : Prop := 0 < ino < sb_n_inode_blks sb * IPB.
Definition in_area (a : Z) : Prop := sb_data_start sb ≤ a < sb_data_start sb + Z.of_nat BITS.
Definition marked (f : Z → list Z) (a : Z) : Prop :=
  bit_set (f (sb_data_bitmap_start sb)) (Z.to_nat (a - sb_data_start sb)).

(** [A] gives the addresses in each inode. *)
Record wf (f : Z → list Z) (A : Z → list Z) : Prop := {
  wf_len : ∀ ino, inum ino → length (A ino) = 13%nat;
  wf_used : ∀ ino p, inum ino → pos_ok p → paddr f (A ino) p ≠ 0 →
    in_area (paddr f (A ino) p) ∧ marked f (paddr f (A ino) p);
  wf_inj : ∀ ino ino' p p', inum ino → inum ino' → pos_ok p → pos_ok p' →
    paddr f (A ino) p ≠ 0 → paddr f (A ino) p = paddr f (A ino') p' → ino = ino' ∧ p = p';
}.

(** Nobody owns [a]. *)
Definition unowned (f : Z → list Z) (A : Z → list Z) (a : Z) : Prop :=
  ∀ ino p, inum ino → pos_ok p → paddr f (A ino) p ≠ a.

(** The blocks of the files have the same contents in [f'], and no addresses but
    those of inode [ino] have changed. *)
Record keeps (ino : Z) (f : Z → list Z) (A : Z → list Z) (f' : Z → list Z) (A' : Z → list Z) : Prop := {
  kp_wf : wf f' A';
  kp_addr : ∀ n p, inum n → pos_ok p → paddr f (A n) p ≠ 0 → paddr f' (A' n) p = paddr f (A n) p;
  kp_data : ∀ n j, inum n → pos_ok (PBlk j) → paddr f (A n) (PBlk j) ≠ 0 →
    f' (paddr f (A n) (PBlk j)) = f (paddr f (A n) (PBlk j));
  kp_meta : ∀ n, n ≠ sb_data_bitmap_start sb → ¬ in_area n → f' n = f n;
  kp_other : ∀ n, n ≠ ino → A' n = A n;
}.

(** The addresses in the inodes on the disk. *)
Definition disk_addrs (f : Z → list Z) (ino : Z) : list Z := di_addrs (on_disk f sb ino).
End owners.

(** ** Addresses *)

Ltac fs_lia := unfold MAX_BLOCKS, N_DIRECT, N_INDIRECT, APB, BLOCK_SIZE in *; Z.to_euclidean_division_equations; lia.

Lemma upd_eq {B} (g : Z → B) k v : upd g k v k = v.
Proof. unfold upd. by rewrite decide_True. Qed.
Lemma upd_ne {B} (g : Z → B) k v n : n ≠ k → upd g k v n = g n.
Proof. intros H. unfold upd. by rewrite decide_False. Qed.

(** The place of the indirect block for block [j], and the word in it. *)
Lemma ind_of_paddr f addrs j : ind_of addrs j = paddr f addrs (PInd ((j - N_DIRECT) / APB)).
Proof. done. Qed.

Lemma ind_ok j : N_DIRECT ≤ j < MAX_BLOCKS → pos_ok (PInd ((j - N_DIRECT) / APB)).
Proof. intros H. simpl. fs_lia. Qed.

Lemma paddr_mapped f addrs j : mapped f addrs j → paddr f addrs (PBlk j) = faddr f addrs j.
Proof.
  intros [M1 M2 M3]. unfold paddr, faddr. destruct (Z.ltb_spec j N_DIRECT) as [|H]; [done|].
  specialize (M2 H). by rewrite (proj2 (Z.eqb_neq _ _)) by lia.
Qed.

Lemma paddr_ext f f' addrs p :
  pos_ok p → (∀ q, pos_ok (PInd q) → paddr f addrs (PInd q) ≠ 0 → f' (paddr f addrs (PInd q)) = f (paddr f addrs (PInd q))) →
  paddr f' addrs p = paddr f addrs p.
Proof.
  intros Hp E. destruct p as [j|q]; [|done]. unfold paddr. destruct (Z.ltb_spec j N_DIRECT); [done|].
  destruct (Z.eqb_spec (ind_of addrs j) 0) as [|Hne]; [done|]. rewrite (ind_of_paddr f) in Hne |- *.
  rewrite E; [done|apply ind_ok; simpl in Hp; lia|done].
Qed.

Lemma in_inode_paddr f addrs p k : in_inode p k → paddr f addrs p = default 0 (addrs !! k).
Proof. destruct p as [j|q]; intros [Hj ->]; cbn [paddr]; [|done]. by rewrite (proj2 (Z.ltb_lt _ _)) by lia. Qed.

Lemma in_inode_lt p k : in_inode p k → (k < 13)%nat ∧ pos_ok p.
Proof. destruct p as [j|q]; intros [Hj ->]; cbn; fs_lia. Qed.

Section facts.
Context (st : Z) (sb : super_block) (G : geometry st sb).
Abbreviation db := (sb_data_bitmap_start sb).
Abbreviation ds := (sb_data_start sb).

Lemma bitmap_not_area : ¬ in_area sb db.
Proof. destruct G. unfold in_area. lia. Qed.

Lemma area_range a : in_area sb a → 0 < a < 2 ^ 31.
Proof. destruct G. unfold in_area, LOG_SIZE in *. lia. Qed.

Lemma area_not_log a : in_area sb a → ¬ in_log st a.
Proof. destruct G. unfold in_area, in_log, LOG_SIZE in *. lia. Qed.

Lemma bitmap_range : 0 ≤ db < 2 ^ 31 ∧ ¬ in_log st db.
Proof. destruct G. unfold in_log, LOG_SIZE in *. lia. Qed.

Lemma inode_block_range ino :
  inum sb ino → let a := ino / IPB + sb_inode_start sb in
  0 ≤ a < 2 ^ 31 ∧ ¬ in_log st a ∧ ¬ in_area sb a ∧ a ≠ db.
Proof.
  intros H. destruct G as [G1 G2 G3]. unfold inum, in_log, in_area, LOG_SIZE, IPB in *. cbv zeta.
  assert (0 ≤ ino / 16 < sb_n_inode_blks sb) by (Z.to_euclidean_division_equations; lia). lia.
Qed.

Context (f : Z → list Z) (A : Z → list Z) (W : wf sb f A).

(** A step that changes no indirect block and unmarks nothing. *)
Lemma wf_frame f' :
  (∀ k, bit_set (f db) k → bit_set (f' db) k) →
  (∀ ino q, inum sb ino → pos_ok (PInd q) → paddr f (A ino) (PInd q) ≠ 0 →
     f' (paddr f (A ino) (PInd q)) = f (paddr f (A ino) (PInd q))) →
  wf sb f' A ∧ ∀ ino p, inum sb ino → pos_ok p → paddr f' (A ino) p = paddr f (A ino) p.
Proof.
  intros Hb Hi. destruct W as [W1 W2 W3].
  assert (∀ ino p, inum sb ino → pos_ok p → paddr f' (A ino) p = paddr f (A ino) p) as E.
  { intros ino p Hn Hp. apply paddr_ext; [done|]. intros q. by apply Hi. }
  split; [|done]. split; [done| |].
  - intros ino p Hn Hp. rewrite E by done. intros Hne. destruct (W2 ino p Hn Hp Hne). split; [done|by apply Hb].
  - intros ino ino' p p' Hn Hn' Hp Hp'. rewrite !E by done. by apply W3.
Qed.

(** A step that enters the address [a] at place [p0] of inode [ino0]. *)
Lemma wf_enter f' A' ino0 p0 a :
  inum sb ino0 → pos_ok p0 → in_area sb a → unowned sb f A a → marked sb f' a →
  (∀ k, bit_set (f db) k → bit_set (f' db) k) → (∀ ino, inum sb ino → length (A' ino) = 13%nat) →
  (∀ ino p, inum sb ino → pos_ok p →
     paddr f' (A' ino) p = if decide (ino = ino0 ∧ p = p0) then a else paddr f (A ino) p) →
  wf sb f' A'.
Proof.
  intros Hn0 Hp0 Ha Hu Hm Hb Hl E. destruct W as [W1 W2 W3]. split; [done| |].
  - intros ino p Hn Hp. rewrite E by done. case_decide as D; [done|]. intros Hne.
    destruct (W2 ino p Hn Hp Hne). split; [done|by apply Hb].
  - intros ino ino' p p' Hn Hn' Hp Hp'. rewrite !E by done.
    case_decide as D; case_decide as D'; [naive_solver| | |by apply W3].
    + intros _ Ea. destruct (Hu ino' p' Hn' Hp' (eq_sym Ea)).
    + intros _ Ea. destruct (Hu ino p Hn Hp Ea).
Qed.

(** ** Allocation *)

Context (Hf : ∀ n, length (f n) = Z.to_nat BLOCK_SIZE).

Lemma bit_in_block k : (k < BITS)%nat → (k / 8 < length (f db))%nat.
Proof. intros Hk. rewrite Hf. unfold BITS in Hk. apply Nat.Div0.div_lt_upper_bound. lia. Qed.

Lemma bit_area k : (k < BITS)%nat → in_area sb (ds + Z.of_nat k).
Proof. unfold in_area. lia. Qed.

(** A block whose bit is clear has no owner. *)
Lemma clear_unowned k : (k < BITS)%nat → bit_clear (f db) k = true → unowned sb f A (ds + Z.of_nat k).
Proof.
  intros Hk Hc ino p Hn Hp E. pose proof (area_range _ (bit_area k Hk)). destruct (wf_used _ _ _ W ino p Hn Hp) as [_ M]; [lia|].
  unfold marked, bit_set in M. rewrite E in M. replace (Z.to_nat (ds + Z.of_nat k - ds)) with k in M by lia. congruence.
Qed.

(** Marking such a block and giving it contents: the addresses stay, and the
    block is marked without an owner. *)
Lemma alloc_step k d f' :
  (k < BITS)%nat → bit_clear (f db) k = true → let a := ds + Z.of_nat k in
  (∀ n, f' n = upd (upd f db (set_bit k (f db))) a d n) →
  wf sb f' A ∧ (∀ ino p, inum sb ino → pos_ok p → paddr f' (A ino) p = paddr f (A ino) p) ∧
  unowned sb f' A a ∧ marked sb f' a.
Proof.
  intros Hk Hc a E. pose proof (bit_area k Hk) as Ha. pose proof (clear_unowned k Hk Hc) as Hu.
  assert (db ≠ a) as Hne by (intros Ea; apply bitmap_not_area; by rewrite Ea).
  assert (f' db = set_bit k (f db)) as Edb by by rewrite E, upd_ne, upd_eq.
  destruct (wf_frame f') as [W' Ep].
  - intros j Hj. rewrite Edb. unfold bit_set. rewrite bit_clear_set by by apply bit_in_block. by case_decide.
  - intros ino q Hn Hq Hp. pose proof (wf_used _ _ _ W ino _ Hn Hq Hp) as [Hin _].
    rewrite E, !upd_ne; [done| |].
    + intros Eq. apply bitmap_not_area. by rewrite <-Eq.
    + apply (Hu ino (PInd q) Hn Hq).
  - split_and!; [done|done| |].
    + intros ino p Hn Hp. rewrite Ep by done. by apply Hu.
    + unfold marked, bit_set. rewrite Edb, bit_clear_set by by apply bit_in_block.
      unfold a. rewrite decide_True; [done|lia].
Qed.

(** ** Entering an address *)

Lemma paddr_set_direct addrs j a p :
  0 ≤ j < N_DIRECT → length addrs = 13%nat → pos_ok p →
  paddr f (<[Z.to_nat j := a]> addrs) p = if decide (p = PBlk j) then a else paddr f addrs p.
Proof.
  intros Hj Hl Hp. destruct p as [j'|q]; cbn [paddr pos_ok] in *.
  - destruct (Z.ltb_spec j' N_DIRECT) as [Hlt|Hge].
    + destruct (decide (j' = j)) as [->|Hne].
      * rewrite decide_True by done. rewrite list_lookup_insert_eq; [done|fs_lia].
      * rewrite decide_False by congruence. rewrite list_lookup_insert_ne by lia. done.
    + rewrite decide_False by (intros [= ->]; lia). unfold ind_of. by rewrite list_lookup_insert_ne by fs_lia.
  - rewrite decide_False by done. by rewrite list_lookup_insert_ne by fs_lia.
Qed.

Lemma paddr_set_ind addrs q a p :
  pos_ok (PInd q) → length addrs = 13%nat → pos_ok p → paddr f addrs (PInd q) = 0 → (∀ r, word32 (f a) r = 0) →
  paddr f (<[Z.to_nat (N_DIRECT + q) := a]> addrs) p = if decide (p = PInd q) then a else paddr f addrs p.
Proof.
  intros Hq Hl Hp H0 Hz. destruct p as [j|q']; cbn [paddr pos_ok] in *.
  - rewrite decide_False by done. destruct (Z.ltb_spec j N_DIRECT) as [Hj|Hj]; [by rewrite list_lookup_insert_ne by fs_lia|].
    unfold ind_of. destruct (decide (q = (j - N_DIRECT) / APB)) as [->|Hne].
    + rewrite list_lookup_insert_eq by fs_lia. cbn [from_option id]. rewrite Hz, H0. by destruct (a =? 0).
    + rewrite list_lookup_insert_ne; [done|]. fs_lia.
  - destruct (decide (q' = q)) as [->|Hne].
    + rewrite decide_True by done. rewrite list_lookup_insert_eq; [done|fs_lia].
    + rewrite decide_False by congruence. rewrite list_lookup_insert_ne by fs_lia. done.
Qed.

(** The word for block [j] in its indirect block. *)
Lemma paddr_set_word addrs j a f' p :
  N_DIRECT ≤ j → pos_ok (PBlk j) → pos_ok p → 0 ≤ a < 2 ^ 32 → let ind := ind_of addrs j in ind ≠ 0 →
  (∀ q, pos_ok (PInd q) → paddr f addrs (PInd q) = ind → q = (j - N_DIRECT) / APB) →
  (∀ n, f' n = upd f ind (set_word32 a (Z.to_nat ((j - N_DIRECT) mod APB)) (f ind)) n) →
  paddr f' addrs p = if decide (p = PBlk j) then a else paddr f addrs p.
Proof.
  intros Hj Hjo Hp Ha ind Hne Hq E. set (r := Z.to_nat _) in E.
  destruct (set_word32_spec (f ind) r a) as (_ & S1 & S2); [rewrite Hf; unfold r; fs_lia|done|].
  destruct p as [j'|q]; cbn [paddr pos_ok] in *; [|by rewrite decide_False].
  destruct (Z.ltb_spec j' N_DIRECT) as [Hlt|Hge]; [by rewrite decide_False by (intros [= ->]; lia)|].
  destruct (decide (ind_of addrs j' = ind)) as [Ei|Ei].
  - rewrite Ei, (proj2 (Z.eqb_neq _ _)), E, upd_eq by done.
    assert ((j' - N_DIRECT) / APB = (j - N_DIRECT) / APB) as Eq by (apply Hq; [fs_lia|exact Ei]).
    destruct (decide (j' = j)) as [->|Hjj]; [by rewrite decide_True by done|].
    rewrite decide_False by congruence. apply S2. unfold r. fs_lia.
  - rewrite decide_False by (intros [= ->]; by apply Ei). destruct (ind_of addrs j' =? 0); [done|]. by rewrite E, upd_ne.
Qed.

(** ** The steps of [bmap] *)

Lemma upd_addrs_paddr ino v g n p :
  paddr g (upd A ino v n) p = if decide (n = ino) then paddr g v p else paddr g (A n) p.
Proof. unfold upd. by case_decide. Qed.

Lemma upd_len ino v n : length v = 13%nat → inum sb n → length (upd A ino v n) = 13%nat.
Proof. intros Hv Hn. unfold upd. case_decide; [done|]. by apply W. Qed.

Context (ino : Z) (Hino : inum sb ino) (a : Z) (Ha : in_area sb a) (Hu : unowned sb f A a) (Hm : marked sb f a).

Lemma a_u32 : 0 ≤ a < 2 ^ 32.
Proof. pose proof (area_range a Ha). lia. Qed.

Lemma keeps_enter f' A' p0 :
  wf sb f' A' → pos_ok p0 → paddr f (A ino) p0 = 0 →
  (∀ n p, inum sb n → pos_ok p → paddr f' (A' n) p = if decide (n = ino ∧ p = p0) then a else paddr f (A n) p) →
  (∀ n j, inum sb n → pos_ok (PBlk j) → paddr f (A n) (PBlk j) ≠ 0 → f' (paddr f (A n) (PBlk j)) = f (paddr f (A n) (PBlk j))) →
  (∀ n, ¬ in_area sb n → f' n = f n) → (∀ n, n ≠ ino → A' n = A n) → keeps sb ino f A f' A'.
Proof.
  intros W' Hp0 H0 E D M O. split; [done| |done|by intros; apply M|done].
  intros n p Hn Hp Hne. rewrite E by done. rewrite decide_False; [done|]. intros [-> ->]. done.
Qed.

Lemma enter_direct j :
  0 ≤ j < N_DIRECT → paddr f (A ino) (PBlk j) = 0 →
  keeps sb ino f A f (upd A ino (<[Z.to_nat j := a]> (A ino))).
Proof.
  intros Hj H0. set (A' := upd _ _ _). pose proof (wf_len _ _ _ W ino Hino) as Hl.
  assert (pos_ok (PBlk j)) as Hp0 by (cbn; fs_lia).
  assert (∀ n p, inum sb n → pos_ok p → paddr f (A' n) p = if decide (n = ino ∧ p = PBlk j) then a else paddr f (A n) p) as E.
  { intros n p Hn Hp. unfold A'. rewrite upd_addrs_paddr. case_decide as D; [subst n|by rewrite decide_False by tauto].
    rewrite paddr_set_direct by done. case_decide; [by rewrite decide_True|by rewrite decide_False by tauto]. }
  apply (keeps_enter f A' (PBlk j)); [|done|done|done|done|done|intros n Hn; by apply upd_ne].
  apply (wf_enter f A' ino (PBlk j) a); try done. intros n Hn. apply upd_len; [by rewrite length_insert|done].
Qed.

Lemma enter_ind q :
  pos_ok (PInd q) → paddr f (A ino) (PInd q) = 0 → (∀ r, word32 (f a) r = 0) →
  keeps sb ino f A f (upd A ino (<[Z.to_nat (N_DIRECT + q) := a]> (A ino))).
Proof.
  intros Hq H0 Hz. set (A' := upd _ _ _). pose proof (wf_len _ _ _ W ino Hino) as Hl.
  assert (∀ n p, inum sb n → pos_ok p → paddr f (A' n) p = if decide (n = ino ∧ p = PInd q) then a else paddr f (A n) p) as E.
  { intros n p Hn Hp. unfold A'. rewrite upd_addrs_paddr. case_decide as D; [subst n|by rewrite decide_False by tauto].
    rewrite paddr_set_ind by done. case_decide; [by rewrite decide_True|by rewrite decide_False by tauto]. }
  apply (keeps_enter f A' (PInd q)); [|done|done|done|done|done|intros n Hn; by apply upd_ne].
  apply (wf_enter f A' ino (PInd q) a); try done. intros n Hn. apply upd_len; [by rewrite length_insert|done].
Qed.

Lemma enter_inode p k :
  in_inode p k → paddr f (A ino) p = 0 → (∀ r, word32 (f a) r = 0) →
  keeps sb ino f A f (upd A ino (<[k := a]> (A ino))).
Proof. destruct p as [j|q]; intros [Hj ->] H0 Hz; [by apply enter_direct|by apply enter_ind]. Qed.

Lemma enter_word j f' :
  N_DIRECT ≤ j → pos_ok (PBlk j) → paddr f (A ino) (PBlk j) = 0 → let ind := ind_of (A ino) j in ind ≠ 0 →
  (∀ n, f' n = upd f ind (set_word32 a (Z.to_nat ((j - N_DIRECT) mod APB)) (f ind)) n) →
  keeps sb ino f A f' A.
Proof.
  intros Hj Hp0 H0 ind Hne E. pose proof (ind_ok j) as Hpi. set (q := (j - N_DIRECT) / APB) in *.
  assert (pos_ok (PInd q)) as Hq by (apply Hpi; cbn in Hp0; lia). clear Hpi.
  assert (paddr f (A ino) (PInd q) = ind) as Eind by done. pose proof (wf_inj _ _ _ W) as Hinj.
  pose proof (wf_used _ _ _ W ino _ Hino Hq Hne) as [Hin _]. rewrite Eind in Hin.
  assert (f' db = f db) as Edb by (rewrite E, upd_ne; [done|]; intros Eq; apply bitmap_not_area; by rewrite Eq).
  assert (∀ n p, inum sb n → pos_ok p → paddr f' (A n) p = if decide (n = ino ∧ p = PBlk j) then a else paddr f (A n) p) as Ep.
  { intros n p Hn Hp. destruct (decide (n = ino)) as [->|Hni].
    - rewrite (paddr_set_word (A ino) j a f' p Hj Hp0 Hp a_u32 Hne); [|..|exact E].
      + case_decide; [by rewrite decide_True|by rewrite decide_False by tauto].
      + intros q' Hq' Eq. destruct (Hinj ino ino (PInd q') (PInd q) Hino Hino Hq' Hq) as [_ [= ->]]; [by rewrite Eq|by rewrite Eq|done].
    - rewrite decide_False by tauto. apply paddr_ext; [done|]. intros q' Hq' Hz. rewrite E, upd_ne; [done|]. intros Eq.
      destruct (Hinj n ino (PInd q') (PInd q) Hn Hino Hq' Hq Hz) as [? _]; [by rewrite Eq|done]. }
  apply (keeps_enter f' A (PBlk j)); [|done|done|done| | |done].
  - apply (wf_enter f' A ino (PBlk j) a); try done; [|by rewrite Edb|apply W]. unfold marked. by rewrite Edb.
  - intros n j' Hn Hj' Hz. rewrite E, upd_ne; [done|]. intros Eq.
    destruct (Hinj n ino (PBlk j') (PInd q) Hn Hino Hj' Hq Hz) as [_ ?]; [by rewrite Eq|done].
  - intros n Hn. rewrite E, upd_ne; [done|]. by intros ->.
Qed.
End facts.

Section chain.
Context (st : Z) (sb : super_block) (G : geometry st sb) (ino : Z).
Abbreviation db := (sb_data_bitmap_start sb).
Abbreviation ds := (sb_data_start sb).

(** A place with an address is a block of the file. *)
Lemma wf_mapped f A n j : wf sb f A → inum sb n → pos_ok (PBlk j) → paddr f (A n) (PBlk j) ≠ 0 → mapped f (A n) j.
Proof.
  intros W Hn Hj Hz. assert (N_DIRECT ≤ j → ind_of (A n) j ≠ 0) as Hi.
  { intros Hd Hi. apply Hz. cbn [paddr]. by rewrite (proj2 (Z.ltb_ge _ _)), (proj2 (Z.eqb_eq _ _)) by done. }
  assert (faddr f (A n) j = paddr f (A n) (PBlk j)) as E.
  { cbn [paddr]. unfold faddr. destruct (Z.ltb_spec j N_DIRECT); [done|]. by rewrite (proj2 (Z.eqb_neq _ _)) by auto. }
  split; [done| |].
  - intros Hd. apply (area_range st sb G), (wf_used _ _ _ W n (PInd ((j - N_DIRECT) / APB)) Hn); [apply ind_ok; cbn in Hj; lia|by apply Hi].
  - rewrite E. by apply (area_range st sb G), (wf_used _ _ _ W n).
Qed.

Lemma keeps_refl f A : wf sb f A → keeps sb ino f A f A.
Proof. by split. Qed.

Lemma keeps_same f f' A : (∀ n, f' n = f n) → wf sb f A → keeps sb ino f A f' A.
Proof.
  intros E W. destruct (wf_frame sb f A W f') as [W' Ep]; [intros k; by rewrite E|done|].
  split; [done|by intros; apply Ep|done|done|done].
Qed.

Lemma keeps_trans f1 A1 f2 A2 f3 A3 : keeps sb ino f1 A1 f2 A2 → keeps sb ino f2 A2 f3 A3 → keeps sb ino f1 A1 f3 A3.
Proof.
  intros [K1 K2 K3 K4 K5] [J1 J2 J3 J4 J5].
  assert (∀ n p, inum sb n → pos_ok p → paddr f1 (A1 n) p ≠ 0 → paddr f3 (A3 n) p = paddr f1 (A1 n) p) as E.
  { intros n p Hn Hp Hz. rewrite J2, K2; [done..|]. by rewrite K2. }
  split; [done|done| | |].
  - intros n j Hn Hj Hz. rewrite <-K3 by done. rewrite <-(K2 n (PBlk j)) by done. apply J3; [done|done|]. by rewrite K2.
  - intros n Hd Ha. by rewrite J4, K4.
  - intros n Hn. by rewrite J5, K5.
Qed.

Lemma wf_ext f A A' : (∀ n, inum sb n → A' n = A n) → wf sb f A → wf sb f A'.
Proof.
  intros E [W1 W2 W3]. split.
  - intros n Hn. rewrite E by done. by apply W1.
  - intros n p Hn. rewrite E by done. by apply W2.
  - intros n n' p p' Hn Hn'. rewrite !E by done. by apply W3.
Qed.

Lemma wf_addrs f A n : wf sb f A → inum sb n → Forall (λ a, 0 ≤ a < 2 ^ 32) (A n).
Proof.
  intros W Hn. apply Forall_lookup_2. intros k a Ha. destruct (decide (a = 0)) as [->|Hz]; [done|].
  pose proof (lookup_lt_Some _ _ _ Ha) as Hk. rewrite (wf_len _ _ _ W n Hn) in Hk.
  assert (∃ p, in_inode p k) as [p Hp].
  { destruct (decide (k < 10)%nat); [exists (PBlk (Z.of_nat k))|exists (PInd (Z.of_nat k - 10))]; cbn; unfold N_DIRECT, N_INDIRECT; lia. }
  pose proof (in_inode_paddr f (A n) p k Hp) as E. rewrite Ha in E. cbn [default from_option id] in E.
  destruct (in_inode_lt _ _ Hp) as [_ Hpo]. rewrite <-E in Hz |- *.
  destruct (wf_used _ _ _ W n p Hn Hpo Hz) as [Hin _]. pose proof (area_range st sb G _ Hin). lia.
Qed.

(** A step outside of the data area and its bitmap. *)
Lemma wf_outside f A f' :
  wf sb f A → (∀ n, in_area sb n → f' n = f n) → f' db = f db →
  wf sb f' A ∧ ∀ n sz, inum sb n → file_ok f (A n) sz → file_ok f' (A n) sz ∧ fdata f' (A n) sz = fdata f (A n) sz.
Proof.
  intros W E Eb. destruct (wf_frame sb f A W f') as [W' Ep]; [intros k; by rewrite Eb| |].
  { intros n q Hn Hq Hz. apply E. by apply (wf_used _ _ _ W). }
  split; [done|]. intros n sz Hn K. pose proof K as [K1 K2 K3].
  assert (∀ j, 0 ≤ j → j * BLOCK_SIZE < sz → mapped f' (A n) j ∧ faddr f' (A n) j = faddr f (A n) j ∧
    f' (faddr f (A n) j) = f (faddr f (A n) j)) as Hj.
  { intros j H0 H1. specialize (K3 j H0 H1). pose proof (paddr_mapped _ _ _ K3) as E0. pose proof K3 as [M1 M2 M3].
    assert (paddr f' (A n) (PBlk j) = faddr f (A n) j) as E1 by by rewrite Ep.
    assert (mapped f' (A n) j) as Hm by (apply wf_mapped; [done|done|done|rewrite E1; lia]).
    split; [done|]. rewrite <-(paddr_mapped _ _ _ Hm), E1. split; [done|]. apply E. rewrite <-E0.
    apply (wf_used _ _ _ W); [done|done|lia]. }
  split.
  - split; [done|done|]. intros j H0 H1. by apply Hj.
  - unfold fdata. do 2 f_equal. apply list_fmap_ext. intros k j [-> Hk]%lookup_seqZ.
    destruct (Hj (0 + Z.of_nat k)) as (_ & -> & ->); [lia|fs_lia|done].
Qed.

Lemma keeps_ext f A f' A' A'' : (∀ n, A'' n = A' n) → keeps sb ino f A f' A' → keeps sb ino f A f' A''.
Proof.
  intros E [K1 K2 K3 K4 K5]. split; [by eapply wf_ext; [intros; apply E|]| |done|done|].
  - intros n p. rewrite E. apply K2.
  - intros n. rewrite E. apply K5.
Qed.

(** Writing a block of a file changes no address and no other block. *)
Lemma write_step f A j d f' :
  wf sb f A → inum sb ino → pos_ok (PBlk j) → let a := paddr f (A ino) (PBlk j) in a ≠ 0 →
  (∀ n, f' n = upd f a d n) →
  wf sb f' A ∧ (∀ n p, inum sb n → pos_ok p → paddr f' (A n) p = paddr f (A n) p) ∧
  (∀ n j', inum sb n → pos_ok (PBlk j') → paddr f (A n) (PBlk j') ≠ 0 → (n, j') ≠ (ino, j) →
     f' (paddr f (A n) (PBlk j')) = f (paddr f (A n) (PBlk j'))) ∧
  (∀ n, ¬ in_area sb n → f' n = f n).
Proof.
  intros W Hino Hj a Ha E. destruct (wf_used _ _ _ W ino _ Hino Hj Ha) as [Hin _]. pose proof (wf_inj _ _ _ W) as Hinj.
  destruct (wf_frame sb f A W f') as [W' Ep].
  - intros k. rewrite E, upd_ne; [done|]. intros Eq. apply (bitmap_not_area st sb G). by rewrite Eq.
  - intros n q Hn Hq Hz. rewrite E, upd_ne; [done|]. intros Eq. by destruct (Hinj n ino _ _ Hn Hino Hq Hj Hz Eq).
  - split_and!; [done|done| |].
    + intros n j' Hn Hj' Hz Hne. rewrite E, upd_ne; [done|]. intros Eq.
      destruct (Hinj n ino _ _ Hn Hino Hj' Hj Hz Eq) as [-> [= ->]]. done.
    + intros n Hn. rewrite E, upd_ne; [done|]. by intros ->.
Qed.

Lemma keeps_alloc f A k d f' :
  wf sb f A → (∀ n, length (f n) = Z.to_nat BLOCK_SIZE) → (k < BITS)%nat → bit_clear (f db) k = true →
  let a := ds + Z.of_nat k in (∀ n, f' n = upd (upd f db (set_bit k (f db))) a d n) →
  keeps sb ino f A f' A ∧ unowned sb f' A a ∧ marked sb f' a.
Proof.
  intros W Hf Hk Hc a E. destruct (alloc_step st sb G f A W Hf k d f' Hk Hc E) as (W' & Ep & Hu & Hm).
  split; [|done]. split; [done|by intros; apply Ep| | |done].
  - intros n j Hn Hj Hz. destruct (wf_used _ _ _ W n _ Hn Hj Hz) as [Hin _].
    rewrite E, !upd_ne; [done| |].
    + intros Eq. apply (bitmap_not_area st sb G). by rewrite <-Eq.
    + apply (clear_unowned st sb G f A W k Hk Hc n _ Hn Hj).
  - intros n Hd Hn. rewrite E, !upd_ne; [done|done|]. intros ->. apply Hn. by apply bit_area.
Qed.
End chain.
