(* ===== verification/InodeAlloc.v ===== *)
(** Allocating the blocks of a file inside a transaction (kernel/fs/inode.c:
    [bzero], [balloc], [bmap]). *)

From S2P Require Import Prelude Mem State Machine Mm MmInit Proc Sync Virtio Buf Log Inode FsData ProcTheorems Env VirtioTheorems BufList BufCache BufOps LogOps LogTheorems LogWrite InodeRead InodeTable InodeDir BlockMap.

(** ** Definitions *)

(** The transaction that began in [s0]: the disk and everything but the cache,
    the log and the inode table are as they were. *)
Record op (t : task) (st : Z) (bl : list Z) (H : gset Z) (s0 s : kstate) : Prop := {
  op_txn : txn t st bl H s;
  op_out : lg_outstanding (k_log s) = lg_outstanding (k_log s0);
  op_com : lg_committing (k_log s) = lg_committing (k_log s0);
  op_disk : k_disk s = k_disk s0;
  op_dwrites : k_dwrites s = k_dwrites s0;
  op_sim : wsim (set_k_inodes (k_inodes s) s0) s;
}.

(** The buffers held for the blocks [H] are held. *)
Definition hold_on (H : gset Z) (s s' : kstate) : Prop := ∀ n b d, n ∈ H → holds s n b d → holds s' n b d.

(** The clear bits of the bitmap. *)
Definition free_blocks (sb : super_block) (f : Z → list Z) : nat :=
  length (filter (λ k, bit_clear (f (sb_data_bitmap_start sb)) k = true) (seq 0 BITS)).

(** The transaction lists the blocks of [l] in addition to those of [bl], at
    most. *)
Definition logs (bl l bl' : list Z) : Prop := ∀ m, m ∈ bl' → m ∈ bl ∨ m ∈ l.

(** ** Lemmas *)

Lemma logs_length bl l bl' : NoDup bl' → logs bl l bl' → (length bl' ≤ length bl + length l)%nat.
Proof.
  intros Hnd Hl. rewrite <-length_app. apply submseteq_length, NoDup_submseteq; [done|]. intros m Hm.
  apply elem_of_app. by apply Hl.
Qed.

Lemma logs_trans bl l1 bl1 l2 bl2 l : logs bl l1 bl1 → logs bl1 l2 bl2 → (∀ m, m ∈ l1 ∨ m ∈ l2 → m ∈ l) → logs bl l bl2.
Proof. intros H1 H2 Hl m Hm. destruct (H2 m Hm) as [Hm1|Hm2]; [destruct (H1 m Hm1)|]; naive_solver. Qed.

Lemma runs_bind_inv {A B : Type} (m : KM A) (k : A → KM B) s Q :
  runs (m ≫= k) s Q → runs m s (λ a s', runs (k a) s' Q).
Proof.
  intros (b & s' & E & HQ). rewrite K_bind_eq in E. destruct (m s) as [a s1| | |] eqn:Em; try done.
  exists a, s1. split; [done|]. by exists b, s'.
Qed.

Lemma length_logged n bl : (length bl ≤ length (logged n bl) ≤ S (length bl))%nat.
Proof. unfold logged. case_decide; [lia|]. rewrite length_app. simpl. lia. Qed.

Lemma elem_of_logged m n bl : m ∈ logged n bl ↔ m = n ∨ m ∈ bl.
Proof. unfold logged. case_decide; set_solver. Qed.

Lemma size_list_le bl : (size (list_to_set bl : gset Z) ≤ length bl)%nat.
Proof.
  induction bl as [|n bl IH]; [done|]. rewrite list_to_set_cons, size_union_alt, size_singleton. cbn [length].
  pose proof (subseteq_size (list_to_set bl ∖ {[n]} : gset Z) (list_to_set bl) ltac:(set_solver)). lia.
Qed.

Lemma size_pins bl (H : gset Z) : (size (list_to_set bl ∪ H) ≤ length bl + size H)%nat.
Proof.
  rewrite size_union_alt. pose proof (subseteq_size (H ∖ list_to_set bl) H ltac:(set_solver)).
  pose proof (size_list_le bl). lia.
Qed.

(** Marking one more block. *)
Lemma filter_one (P P' : nat → Prop) `{∀ x, Decision (P x)} `{∀ x, Decision (P' x)} k l :
  NoDup l → k ∈ l → P k → (∀ x, P' x ↔ P x ∧ x ≠ k) → length (filter P l) = S (length (filter P' l)).
Proof.
  intros Hnd Hin Hk HP. apply elem_of_Permutation in Hin as [l' El]. rewrite El in Hnd. rewrite El. clear El l.
  apply NoDup_cons in Hnd as [Hx _]. rewrite filter_cons_True, filter_cons_False by naive_solver.
  cbn [length]. do 2 f_equal. induction l' as [|y l' IH]; [done|]. apply not_elem_of_cons in Hx as [Hy Hx].
  rewrite !filter_cons, IH by done. destruct (decide (P y)), (decide (P' y)); naive_solver.
Qed.

Lemma free_blocks_ext sb f f' :
  (∀ k, bit_clear (f' (sb_data_bitmap_start sb)) k = bit_clear (f (sb_data_bitmap_start sb)) k) →
  free_blocks sb f' = free_blocks sb f.
Proof. intros E. unfold free_blocks. f_equal. apply list_filter_iff. intros k. by rewrite E. Qed.

Lemma free_blocks_set sb f f' k :
  length (f (sb_data_bitmap_start sb)) = Z.to_nat BLOCK_SIZE → (k < BITS)%nat →
  bit_clear (f (sb_data_bitmap_start sb)) k = true →
  f' (sb_data_bitmap_start sb) = set_bit k (f (sb_data_bitmap_start sb)) →
  free_blocks sb f = S (free_blocks sb f').
Proof.
  intros Hl Hk Hc E. unfold free_blocks. rewrite E. apply (filter_one _ _ k); [apply NoDup_seq|apply elem_of_seq; lia|done|].
  intros j. rewrite bit_clear_set; [case_decide; naive_solver|]. rewrite Hl. unfold BITS in Hk.
  apply Nat.Div0.div_lt_upper_bound. lia.
Qed.

Lemma free_blocks_find sb f : (0 < free_blocks sb f)%nat →
  ∃ k, find_bit (f (sb_data_bitmap_start sb)) false 0 BITS = Some k ∧ (k < BITS)%nat ∧
    bit_clear (f (sb_data_bitmap_start sb)) k = true.
Proof.
  intros H. pose proof (find_bit_spec (f (sb_data_bitmap_start sb)) false BITS 0) as Hs. destruct (find_bit _ _ _ _) as [k|].
  - exists k. split; [done|]. destruct Hs as (? & ? & _). split; [lia|done].
  - unfold free_blocks in H. revert H Hs. generalize BITS. intros n H Hs. destruct (filter _ _) as [|k l] eqn:E; [cbn in H; lia|].
    assert (k ∈ k :: l) as Hin by left. rewrite <-E in Hin.
    apply list_elem_of_filter in Hin as [Hc Hk%elem_of_seq]. destruct (Hs k) as [Hb|[? _]]; [lia| |done].
    unfold bit_set in Hb. congruence.
Qed.

(** ** Steps of a transaction *)

Section op.
Context `{DV : Device} `{RN : Rounds} (R : env) `{DK : !Disk R} (t : task) (FL : fs_locks t).
Context (Hrounds : (1 < rounds)%nat) (st : Z) (s0 : kstate).

Lemma op_rsim bl H H' s s' :
  op t st bl H s0 s → rsim s s' → fs_ok t (list_to_set bl) H' s' → op t st bl H' s0 s'.
Proof.
  intros [[T1 T2 T3 T4 T5] O1 O2 O3 O3' O4] Q F. pose proof (rsim_k_log _ _ Q) as L.
  split; rewrite <-?L; [by split; rewrite <-?L|done|done| | |].
  - by rewrite <-(rsim_k_disk _ _ Q).
  - by rewrite <-(rsim_k_dwrites _ _ Q).
  - rewrite <-(rsim_k_inodes _ _ Q). etrans; [exact O4|]. by apply rsim_wsim.
Qed.

Lemma op_fs bl H s : op t st bl H s0 s → fs_ok t (list_to_set bl) H s.
Proof. intros [[]]. done. Qed.

Lemma op_nodup bl H s : op t st bl H s0 s → NoDup bl.
Proof. intros [[_ _ [Hnd _ _]]]. done. Qed.

Lemma op_length bl H s n : op t st bl H s0 s → length (seen s n) = Z.to_nat BLOCK_SIZE.
Proof. intros O. eapply length_seen, op_fs, O. Qed.

Lemma op_bread bl H s n :
  op t st bl H s0 s → n ∉ H → 0 ≤ n < 2 ^ 31 → (length bl + size H < N_BUF)%nat →
  eruns R (bread ROOT_DEV n) s (λ b s', op t st bl ({[n]} ∪ H) s0 s' ∧ holds s' n b (seen s n) ∧
    (n ∈ bl ∨ seen s n = block (k_disk s0) n) ∧ (∀ m, seen s' m = seen s m) ∧ k_inodes s' = k_inodes s ∧ hold_on H s s').
Proof.
  intros O Hn Hr Hsz. pose proof (op_fs _ _ _ O) as F. ecall (bread_spec R t FL Hrounds _ H n s F); [done|done| |].
  { right. pose proof (size_pins bl H). lia. }
  intros b s' (F' & B & V & Q & K). split_and!; [by eapply op_rsim|done| |done|exact (eq_sym (rsim_k_inodes _ _ Q))|].
  - destruct (decide (n ∈ bl)) as [|Hb]; [by left|right]. rewrite <-(op_disk _ _ _ _ _ _ O).
    apply (view_clean _ _ _ _ _ _ (fo_cache _ _ _ _ F)); [by rewrite elem_of_list_to_set|done].
  - intros m b' d Hm. apply K; [done|]. by intros ->.
Qed.

Lemma op_set bl H s n b d g :
  op t st bl H s0 s → n ∈ H → holds s n b d → length (g d) = Z.to_nat BLOCK_SIZE →
  runs (set_buf_data b g) s (λ _ s', op t st bl H s0 s' ∧ holds s' n b (g d) ∧
    (∀ m, seen s' m = upd (seen s) n (g d) m) ∧ k_inodes s' = k_inodes s ∧ hold_on (H ∖ {[n]}) s s').
Proof.
  intros O Hn B Hl. pose proof (op_fs _ _ _ O) as F. kcall (set_buf_data_spec t _ H s n b d g F Hn B Hl).
  intros [] s' (F' & B' & V & Q & K). split_and!; [by eapply op_rsim|done|done|exact (eq_sym (rsim_k_inodes _ _ Q))|].
  intros m b' d' Hm. apply K; set_solver.
Qed.

Lemma op_log bl H s n b d :
  op t st bl H s0 s → n ∈ H → ¬ in_log st n → (S (length bl) < Z.to_nat LOG_SIZE)%nat → holds s n b d →
  runs (log_write b) s (λ _ s', op t st (logged n bl) H s0 s' ∧ holds s' n b d ∧
    (∀ m, seen s' m = seen s m) ∧ k_inodes s' = k_inodes s ∧ hold_on (H ∖ {[n]}) s s').
Proof.
  intros O Hn Hl Hsz B. pose proof O as [T O1 O2 O3 O3' O4]. kcall (log_write_spec t FL st bl H s n b d T Hn Hl Hsz B).
  intros [] s' (T' & B' & V & Q & E1 & E2 & K). pose proof (rsim_k_inodes _ _ Q) as E3. cbn [k_inodes set_k_log] in E3.
  split_and!; [|done|done|done|intros m b' d' Hm; apply K; set_solver]. split; [done|by rewrite E1|by rewrite E2| | |].
  - rewrite <-O3. exact (eq_sym (rsim_k_disk _ _ Q)).
  - rewrite <-O3'. exact (eq_sym (rsim_k_dwrites _ _ Q)).
  - rewrite <-E3. etrans; [exact O4|]. exact (wsim_log _ _ _ (rsim_wsim _ _ Q)).
Qed.

Lemma op_brelse bl H s n b d :
  op t st bl ({[n]} ∪ H) s0 s → n ∉ H → holds s n b d → n ∈ bl ∨ d = block (k_disk s0) n →
  runs (brelse b) s (λ _ s', op t st bl H s0 s' ∧
    (∀ m, seen s' m = seen s m) ∧ k_inodes s' = k_inodes s ∧ hold_on H s s').
Proof.
  intros O Hn B Hc. pose proof (op_fs _ _ _ O) as F. kcall (brelse_spec t FL _ _ s n b d F); [set_solver|done| |].
  { rewrite (op_disk _ _ _ _ _ _ O). destruct Hc; [left; by apply elem_of_list_to_set|by right]. }
  intros [] s' (F' & V & Q & K). replace (({[n]} ∪ H) ∖ {[n]}) with H in F' by set_solver.
  split_and!; [by eapply op_rsim|done|exact (eq_sym (rsim_k_inodes _ _ Q))|]. intros m b' d' Hm. apply K; set_solver.
Qed.

(** A block that is held is changed, logged and released. *)
Lemma op_write bl H s n b d g :
  op t st bl ({[n]} ∪ H) s0 s → n ∉ H → holds s n b d → length (g d) = Z.to_nat BLOCK_SIZE → ¬ in_log st n →
  (S (length bl) < Z.to_nat LOG_SIZE)%nat →
  runs (set_buf_data b g;; log_write b;; brelse b) s (λ _ s', op t st (logged n bl) H s0 s' ∧
    (∀ m, seen s' m = upd (seen s) n (g d) m) ∧ k_inodes s' = k_inodes s ∧ hold_on H s s').
Proof.
  intros O Hn B Hl Hi Hsz. kstep. kcall (op_set _ _ s n b d g O); [set_solver|done|done|]. intros [] s1 (O1 & B1 & V1 & E1 & K1).
  kstep. kcall (op_log _ _ s1 n b _ O1); [set_solver|done|done|done|]. intros [] s2 (O2 & B2 & V2 & E2 & K2).
  kcall (op_brelse _ H s2 n b _ O2 Hn B2); [left; apply elem_of_logged; by left|]. intros [] s3 (O3 & V3 & E3 & K3).
  split_and!; [done|intros m; by rewrite V3, V2|by rewrite E3, E2|].
  intros m b' d' Hm Hh. apply K3, K2, K1; [done|set_solver..|done].
Qed.

(** The same with the steps that follow. *)
Lemma op_write_then bl H s n b d g {A} (k : KM A) Q :
  op t st bl ({[n]} ∪ H) s0 s → n ∉ H → holds s n b d → length (g d) = Z.to_nat BLOCK_SIZE → ¬ in_log st n →
  (S (length bl) < Z.to_nat LOG_SIZE)%nat →
  (∀ s', op t st (logged n bl) H s0 s' → (∀ m, seen s' m = upd (seen s) n (g d) m) → k_inodes s' = k_inodes s →
     hold_on H s s' → eruns R k s' Q) →
  eruns R (set_buf_data b g;; log_write b;; brelse b;; k) s Q.
Proof.
  intros O Hn B Hl Hi Hsz Hk. pose proof (op_write bl H s n b d g O Hn B Hl Hi Hsz) as Hr.
  apply runs_bind_inv in Hr. estep. eapply eruns_runs, runs_conseq; [exact Hr|]. intros [] s1 Hr1.
  apply runs_bind_inv in Hr1. estep. eapply eruns_runs, runs_conseq; [exact Hr1|]. intros [] s2 Hr2.
  estep. eapply eruns_runs, runs_conseq; [exact Hr2|]. intros [] s3 (A1 & A2 & A3 & A4). by apply Hk.
Qed.

(** ** Allocation *)

Lemma bzero_spec bl H s n :
  op t st bl H s0 s → n ∉ H → 0 ≤ n < 2 ^ 31 → ¬ in_log st n → (length bl + size H + 1 < N_BUF)%nat →
  eruns R (bzero ROOT_DEV n) s (λ _ s', op t st (logged n bl) H s0 s' ∧
    (∀ m, seen s' m = upd (seen s) n zero_block m) ∧ k_inodes s' = k_inodes s ∧ hold_on H s s').
Proof.
  intros O Hn Hr Hi Hsz. unfold bzero. estep. ecall (op_bread bl H s n O Hn Hr); [lia|].
  intros b s1 (O1 & B1 & _ & V1 & E1 & K1). pose proof (op_length _ _ _ n O) as Hl.
  ecallr (op_write bl H s1 n b (seen s n) (λ d, replicate (length d) 0) O1 Hn B1);
    [by rewrite length_replicate|done|unfold N_BUF, LOG_SIZE in *; lia|].
  intros [] s2 (O2 & V2 & E2 & K2). rewrite Hl in V2. split_and!; [done| |by rewrite E2|].
  - intros m. rewrite V2. unfold upd. case_decide; [done|apply V1].
  - intros m b' d Hm Hh. by apply K2, K1.
Qed.

Context (sb : super_block) (G : geometry st sb) (Hsb : k_sb s0 = sb).
Abbreviation db := (sb_data_bitmap_start sb).
Abbreviation ds := (sb_data_start sb).

Lemma op_sb bl H s : op t st bl H s0 s → k_sb s = sb.
Proof. intros [_ _ _ _ _ W]. rewrite <-Hsb. exact (eq_sym (wsim_k_sb _ _ W)). Qed.

(** [balloc] marks the first free block and clears it. *)
Lemma balloc_spec bl H s :
  op t st bl H s0 s → db ∉ H → (∀ k, (k < BITS)%nat → bit_clear (seen s db) k = true → ds + Z.of_nat k ∉ H) →
  (0 < free_blocks sb (seen s))%nat → (length bl + size H + 2 < N_BUF)%nat →
  eruns R (balloc ROOT_DEV) s (λ a s', ∃ k bl', (k < BITS)%nat ∧ bit_clear (seen s db) k = true ∧ a = ds + Z.of_nat k ∧
    op t st bl' H s0 s' ∧ logs bl [db; a] bl' ∧
    (∀ m, seen s' m = upd (upd (seen s) db (set_bit k (seen s db))) a zero_block m) ∧
    k_inodes s' = k_inodes s ∧ hold_on H s s').
Proof.
  intros O Hdb Hk Hfree Hsz. destruct (free_blocks_find _ _ Hfree) as (k & Ek & Hlt & Hc).
  pose proof (bitmap_range st sb G) as [Hr Hnl]. pose proof (op_sb _ _ _ O) as Es.
  pose proof (bit_area sb k Hlt) as Ha. pose proof (area_range st sb G _ Ha) as Har.
  unfold balloc. estep. estep. rewrite Es. estep. ecall (op_bread bl H s db O Hdb Hr); [lia|].
  intros b s1 (O1 & B1 & _ & V1 & E1 & K1). estep. ecallr (buf_data_spec s1 db b _ B1). intros ? ? [-> ->]. rewrite Ek.
  apply (op_write_then bl H s1 db b (seen s db) (set_bit k)); [done|done|done| |done|unfold N_BUF, LOG_SIZE in *; lia|].
  { unfold set_bit. rewrite length_alter. by eapply op_length. }
  intros s2 O2 V2 E2 K2. pose proof (length_logged db bl). rewrite wrap_small by lia. rewrite (Z.add_comm (Z.of_nat k) ds).
  set (a := ds + Z.of_nat k) in *. estep. ecall (bzero_spec (logged db bl) H s2 a O2); [by apply Hk|lia|by eapply area_not_log|lia|].
  intros [] s3 (O3 & V3 & E3 & K3). estep.
  exists k, (logged a (logged db bl)). split_and!; [done|done|done|done| | |by rewrite E3, E2|].
  - intros m. rewrite !elem_of_logged, !elem_of_cons. tauto.
  - intros m. rewrite V3. unfold upd. case_decide; [done|]. rewrite V2. unfold upd. case_decide; [done|apply V1].
  - intros m b' d Hm Hh. by apply K3, K2, K1.
Qed.

(** ** [bmap] *)

Lemma op_inodes bl H s v : op t st bl H s0 s → op t st bl H s0 (set_k_inodes v s).
Proof.
  intros [[T1 T2 T3 T4 T5] O1 O2 O3 O3' O4]. split; [|done|done|done|done|].
  - split; [by apply fs_ok_inodes|done..].
  - exact (f_equal (set_k_inodes v) O4).
Qed.

Lemma iaddr_eq i k x a s : k_inodes s !! i = Some x → i_addrs x !! k = Some a → iaddr i k s = Ok a s.
Proof. intros Hx Ha. unfold iaddr. erewrite bind_ok by by apply get_inode_eq. by rewrite Ha. Qed.

Context (ino : Z) (Hino : inum sb ino).

(** The inode with the addresses [A ino] is entry [i] of the table. *)
Record editing (bl : list Z) (H : gset Z) (i : nat) (x : m_inode) (A : Z → list Z) (s : kstate) : Prop := {
  ed_op : op t st bl H s0 s;
  ed_entry : k_inodes s !! i = Some x;
  ed_dev : i_dev x = ROOT_DEV;
  ed_addrs : A ino = i_addrs x;
  ed_wf : wf sb (seen s) A;
}.

(** What a step of [bmap] that allocates at most [c] blocks leaves. *)
Definition grown (c : nat) (l bl : list Z) (i : nat) (x : m_inode) (A : Z → list Z) (s : kstate)
    (bl' : list Z) (addrs : list Z) (s' : kstate) : Prop :=
  k_inodes s' = <[i := set_i_addrs addrs x]> (k_inodes s) ∧
  keeps sb ino (seen s) A (seen s') (upd A ino addrs) ∧
  logs bl l bl' ∧ (free_blocks sb (seen s) ≤ c + free_blocks sb (seen s'))%nat.

(** After [balloc] the block is marked and has no owner. *)
Lemma alloc_keeps A s s' k :
  wf sb (seen s) A → (∀ m, length (seen s m) = Z.to_nat BLOCK_SIZE) → (k < BITS)%nat → bit_clear (seen s db) k = true →
  let a := ds + Z.of_nat k in
  (∀ m, seen s' m = upd (upd (seen s) db (set_bit k (seen s db))) a zero_block m) →
  keeps sb ino (seen s) A (seen s') A ∧ unowned sb (seen s') A a ∧ marked sb (seen s') a ∧ in_area sb a ∧
  seen s' a = zero_block ∧ free_blocks sb (seen s) = S (free_blocks sb (seen s')).
Proof.
  intros W Hl Hk Hc a V. destruct (keeps_alloc st sb G ino (seen s) A k zero_block (seen s') W Hl Hk Hc V) as (K & U & M).
  pose proof (bit_area sb k Hk) as Ha. split_and!; [done|done|done|done|by rewrite V, upd_eq|].
  apply (free_blocks_set sb _ _ k); [done|done|done|]. rewrite V, upd_ne, upd_eq; [done|].
  intros E. apply (bitmap_not_area st sb G). rewrite E. exact Ha.
Qed.

(** The block at a place of the inode itself is there, or is allocated. *)
Lemma slot_spec bl i x A s p k {B} (K : KM B) Q :
  editing bl ∅ i x A s → in_inode p k → (0 < free_blocks sb (seen s))%nat → (length bl + 2 < N_BUF)%nat →
  (∀ bl' addrs a s', grown 1 [db; a] bl i x A s bl' addrs s' → op t st bl' ∅ s0 s' → addrs !! k = Some a → a ≠ 0 → eruns R K s' Q) →
  eruns R (a ← iaddr i k; when (a =? 0) (a ← balloc (i_dev x); set_iaddr i k a);; K) s Q.
Proof.
  intros [O Hx Hd Ea W] Hp Hfree Hsz HK. destruct (in_inode_lt _ _ Hp) as [Hk Hpo].
  pose proof (wf_len _ _ _ W ino Hino) as Hl. rewrite Ea in Hl. destruct (lookup_lt_is_Some_2 (i_addrs x) k) as [a Hak]; [lia|].
  pose proof (in_inode_paddr (seen s) (i_addrs x) p k Hp) as Hpa. rewrite Hak in Hpa. cbn [default from_option id] in Hpa.
  estep. eapply eruns_runs, runs_ok; [by eapply iaddr_eq|]. estep. destruct (Z.eqb_spec a 0) as [->|Hne]; cbn [when].
  2: { estep. apply (HK bl (i_addrs x) a s); [|done|done|done]. split_and!; [|..|by intros m ?; left|lia].
    - rewrite list_insert_id; [done|]. rewrite Hx. f_equal. by destruct x.
    - eapply keeps_ext; [|by apply keeps_refl]. intros n. rewrite <-Ea. unfold upd. case_decide; congruence. }
  estep. rewrite Hd. ecall (balloc_spec bl ∅ s O); [set_solver|set_solver|done|rewrite size_empty; lia|].
  intros a s1 (j & bl' & Hj & Hc & -> & O1 & L1 & V1 & E1 & _). set (a := ds + Z.of_nat j) in *.
  destruct (alloc_keeps A s s1 j W (λ m, op_length _ _ _ m O) Hj Hc V1) as (K1 & U1 & M1 & Ha & Z1 & F1). fold a in U1, M1, Ha, Z1.
  pose proof (area_range st sb G a Ha) as Har. unfold set_iaddr.
  eapply eruns_runs, runs_ok; [by apply (upd_inode_eq i _ x); rewrite E1|].
  apply (HK bl' (<[k := a]> (i_addrs x)) a); [|by apply op_inodes|apply list_lookup_insert_eq; lia|lia].
  split_and!; [cbn [k_inodes set_k_inodes]; by rewrite E1| |done|cbn [k_bufs k_disk set_k_inodes]; lia].
  eapply keeps_trans; [exact K1|]. rewrite <-Ea.
  apply (enter_inode st sb (seen s1) A (kp_wf _ _ _ _ _ _ K1) ino Hino a Ha U1 M1 p k Hp).
  - by rewrite Ea, (in_inode_paddr _ _ p k Hp), Hak.
  - rewrite Z1. apply word32_zero.
Qed.

(** The word for the block in its indirect block. *)
Definition word_step (dev ind : Z) (r : nat) : KM Z :=
  b ← bread dev ind;
  d ← buf_data b;
  if word32 d r =? 0 then
    a ← balloc dev;
    set_buf_data b (set_word32 a r);;
    if a =? 0 then brelse b;; mret 0 else
    log_write b;;
    d ← buf_data b;
    brelse b;;
    mret (word32 d r)
  else
    brelse b;;
    mret (word32 d r).

Lemma word_paddr f addrs j :
  N_DIRECT ≤ j → ind_of addrs j ≠ 0 →
  paddr f addrs (PBlk j) = word32 (f (ind_of addrs j)) (Z.to_nat ((j - N_DIRECT) mod APB)).
Proof. intros Hj Hne. unfold paddr. by rewrite (proj2 (Z.ltb_ge _ _)), (proj2 (Z.eqb_neq _ _)). Qed.

(** The outcome of a step for block [j] that leaves the inode as it is. *)
Definition word_done (bl : list Z) (A : Z → list Z) (s : kstate) (j a : Z) (s' : kstate) : Prop :=
  ∃ bl', op t st bl' ∅ s0 s' ∧ k_inodes s' = k_inodes s ∧ keeps sb ino (seen s) A (seen s') A ∧
    logs bl [db; a; ind_of (A ino) j] bl' ∧ (free_blocks sb (seen s) ≤ 1 + free_blocks sb (seen s'))%nat ∧
    a = paddr (seen s') (A ino) (PBlk j) ∧ a ≠ 0.

Lemma word_alloc bl A s j b :
  let ind := ind_of (A ino) j in let r := Z.to_nat ((j - N_DIRECT) mod APB) in
  op t st bl {[ind]} s0 s → wf sb (seen s) A → N_DIRECT ≤ j → pos_ok (PBlk j) → ind ≠ 0 →
  holds s ind b (seen s ind) → word32 (seen s ind) r = 0 →
  (0 < free_blocks sb (seen s))%nat → (length bl + 4 < N_BUF)%nat →
  eruns R (a ← balloc ROOT_DEV;
    set_buf_data b (set_word32 a r);;
    if a =? 0 then brelse b;; mret 0 else
    log_write b;; d ← buf_data b; brelse b;; mret (word32 d r)) s (word_done bl A s j).
Proof.
  intros ind r O W Hj Hp Hne B H0 Hfree Hsz. pose proof (ind_ok j ltac:(cbn in Hp; lia)) as Hpi.
  destruct (wf_used _ _ _ W ino _ Hino Hpi) as [Hia Him]; [exact Hne|]. change (paddr _ _ _) with ind in Hia, Him.
  assert (length (seen s ind) = Z.to_nat BLOCK_SIZE) as Hl by by eapply op_length.
  estep. ecall (balloc_spec bl _ s O); [| |done|rewrite size_singleton; lia|].
  { intros Eq%elem_of_singleton. apply (bitmap_not_area st sb G). by rewrite Eq. }
  { intros k Hk Hc Eq%elem_of_singleton. unfold marked, bit_set in Him. rewrite <-Eq in Him.
    replace (Z.to_nat (ds + Z.of_nat k - ds)) with k in Him by lia. congruence. }
  intros a s2 (k & bl' & Hk & Hc & Eak & O2 & L2 & V2 & E2 & H2). rewrite Eak in V2.
  destruct (alloc_keeps A s s2 k W (λ m, op_length _ _ _ m O) Hk Hc V2) as (K2 & U2 & M2 & Ha & _ & F2). rewrite <-Eak in *.
  pose proof (area_range st sb G a Ha) as Har. pose proof (H2 ind b _ ltac:(set_solver) B) as B2.
  pose proof (holds_seen _ _ _ _ _ _ _ (op_fs _ _ _ O2) B2) as E2i.
  destruct (set_word32_spec (seen s ind) r a ltac:(rewrite Hl; unfold r; fs_lia) ltac:(lia)) as (S1 & S2 & _).
  estep. ecallr (op_set bl' _ s2 ind b _ (set_word32 a r) O2); [set_solver|done|by rewrite S1|].
  intros [] s3 (O3 & B3 & V3 & E3 & _). rewrite (proj2 (Z.eqb_neq a 0)) by lia.
  pose proof (logs_length _ _ _ (op_nodup _ _ _ O2) L2) as L2'. cbn [length] in L2'.
  estep. ecallr (op_log bl' _ s3 ind b _ O3); [set_solver|by eapply area_not_log|unfold N_BUF, LOG_SIZE in *; lia|done|].
  intros [] s4 (O4 & B4 & V4 & E4 & _). estep. ecallr (buf_data_spec s4 ind b _ B4). intros ? ? [-> ->].
  rewrite <-(right_id_L ∅ (∪) {[ind]}) in O4.
  estep. ecallr (op_brelse _ ∅ s4 ind b _ O4); [set_solver|done|left; apply elem_of_logged; by left|].
  intros [] s5 (O5 & V5 & E5 & _). estep. rewrite S2.
  assert (∀ m, seen s5 m = upd (seen s2) ind (set_word32 a r (seen s2 ind)) m) as V by (intros m; rewrite V5, V4, V3; by rewrite E2i).
  exists (logged ind bl'). split_and!; [done|by rewrite E5, E4, E3| | | | |lia].
  - eapply keeps_trans; [exact K2|].
    apply (enter_word st sb G (seen s2) A (kp_wf _ _ _ _ _ _ K2) (λ m, op_length _ _ _ m O2) ino Hino a Ha U2 M2 j); [done|done| |done|done].
    rewrite word_paddr by done. fold ind. by rewrite E2i.
  - intros m. rewrite elem_of_logged. intros [->|Hm]; [right; do 2 right; by left|]. specialize (L2 m Hm). rewrite !elem_of_cons in *. tauto.
  - rewrite F2, (free_blocks_ext sb (seen s2) (seen s5)); [lia|]. intros n. rewrite V, upd_ne; [done|].
    intros Eq. apply (bitmap_not_area st sb G). by rewrite Eq.
  - rewrite word_paddr by done. fold ind r. by rewrite V, upd_eq, E2i.
Qed.

Lemma word_spec bl i x A s j :
  editing bl ∅ i x A s → N_DIRECT ≤ j → pos_ok (PBlk j) → let ind := ind_of (A ino) j in ind ≠ 0 →
  (0 < free_blocks sb (seen s))%nat → (length bl + 4 < N_BUF)%nat →
  eruns R (word_step ROOT_DEV ind (Z.to_nat ((j - N_DIRECT) mod APB))) s (word_done bl A s j).
Proof.
  intros [O Hx Hd Ea W] Hj Hp ind Hne Hfree Hsz. unfold word_step. set (r := Z.to_nat _).
  destruct (wf_used _ _ _ W ino _ Hino (ind_ok j ltac:(cbn in Hp; lia))) as [Hia _]; [exact Hne|].
  pose proof (area_range st sb G ind Hia) as Hir.
  estep. ecall (op_bread bl ∅ s ind O); [set_solver|lia|rewrite size_empty; lia|]. intros b s1 (O1 & B1 & C1 & V1 & E1 & _).
  estep. ecallr (buf_data_spec s1 ind b _ B1). intros ? ? [-> ->].
  pose proof (keeps_same sb ino (seen s) (seen s1) A V1 W) as K1. pose proof (kp_wf _ _ _ _ _ _ K1) as W1.
  assert (free_blocks sb (seen s1) = free_blocks sb (seen s)) as F1 by (apply free_blocks_ext; intros k; by rewrite V1).
  destruct (Z.eqb_spec (word32 (seen s ind) r) 0) as [H0|Hw].
  - rewrite (right_id_L ∅ (∪)) in O1. eapply eruns_conseq.
    { apply (word_alloc bl A s1 j b O1 W1 Hj Hp Hne); [by rewrite V1|by rewrite V1|by rewrite F1|done]. }
    intros a s2 (bl' & A1 & A2 & A3 & A4 & A5 & A6 & A7). exists bl'. rewrite <-F1, <-E1. split_and!; try done. by eapply keeps_trans.
  - estep. ecallr (op_brelse bl ∅ s1 ind b _ O1); [set_solver|done|done|]. intros [] s2 (O2 & V2 & E2 & _).
    estep. assert (∀ m, seen s2 m = seen s m) as V by (intros m; by rewrite V2). exists bl.
    split_and!; [done|by rewrite E2|by apply keeps_same|by intros m ?; left| | |done].
    + rewrite (free_blocks_ext sb (seen s) (seen s2)); [lia|intros k; by rewrite V].
    + rewrite word_paddr by done. by rewrite V.
Qed.

(** [bmap] gives the address of block [j], allocating it, and its indirect
    block, when they are not there. *)
Lemma bmap_spec bl i x A s j :
  editing bl ∅ i x A s → 0 ≤ j < MAX_BLOCKS → (1 < free_blocks sb (seen s))%nat → (length bl + 6 < N_BUF)%nat →
  eruns R (bmap i j) s (λ a s', ∃ bl' addrs,
    grown 2 ([db; a] ++ if decide (j < N_DIRECT) then [] else [ind_of addrs j]) bl i x A s bl' addrs s' ∧
    op t st bl' ∅ s0 s' ∧ a = paddr (seen s') addrs (PBlk j) ∧ a ≠ 0).
Proof.
  intros Ed Hj Hfree Hsz. pose proof Ed as [O Hx Hd Ea W]. pose proof (lookup_lt_Some _ _ _ Hx) as Hi.
  unfold bmap. estep. eapply eruns_runs, runs_ok; [by apply get_inode_eq|]. destruct (Z.ltb_spec j N_DIRECT) as [Hjd|Hjd].
  - apply (slot_spec bl i x A s (PBlk j)); [done|split; [lia|done]|lia|lia|]. intros bl' addrs a s' (E1 & K1 & L1 & F1) O1 Hk Ha.
    eapply eruns_runs, runs_ok; [eapply iaddr_eq; [rewrite E1; by apply list_lookup_insert_eq|done]|].
    assert (a = paddr (seen s') addrs (PBlk j)) as Ep.
    { rewrite (in_inode_paddr _ _ _ (Z.to_nat j)); [by rewrite Hk|split; [lia|done]]. }
    exists bl', addrs. rewrite decide_True by done. split_and!; [|done|done|done]. split_and!; [done|done|done|lia].
  - rewrite (proj2 (Z.ltb_lt _ _)) by fs_lia. set (q := (j - N_DIRECT) / APB). assert (in_inode (PInd q) (Z.to_nat (N_DIRECT + q))) as Hq.
    { split; [unfold q; fs_lia|done]. }
    apply (slot_spec bl i x A s (PInd q) (Z.to_nat (N_DIRECT + q))); [done|done|lia|lia|].
    intros bl' addrs ind s1 (E1 & K1 & L1 & F1) O1 Hk Hind. assert (k_inodes s1 !! i = Some (set_i_addrs addrs x)) as Hx1
      by (rewrite E1; by apply list_lookup_insert_eq).
    estep. eapply eruns_runs, runs_ok; [by eapply iaddr_eq|]. rewrite (proj2 (Z.eqb_neq ind 0)), Hd by done.
    set (A1 := upd A ino addrs) in *. assert (A1 ino = addrs) as EA by apply upd_eq.
    assert (ind_of (A1 ino) j = ind) as Ei by (rewrite EA; unfold ind_of; fold q; by rewrite Hk). cbv zeta. rewrite <-Ei in Hind |- *.
    pose proof (logs_length _ _ _ (op_nodup _ _ _ O1) L1) as L1'. cbn [length] in L1'. eapply eruns_conseq.
    { apply (word_spec bl' i (set_i_addrs addrs x) A1 s1 j); [|done|done|done|lia|lia]. split; [done|done|done|done|apply K1]. }
    intros a s2 (bl2 & A2 & E2 & K2 & L2 & F2 & -> & Ha). exists bl2, addrs.
    rewrite EA in L2, Ha, Ei |- *. rewrite decide_False by lia. split_and!; [|done|done|done].
    split_and!; [by rewrite E2|by eapply keeps_trans| |lia].
    eapply logs_trans; [exact L1|exact L2|]. rewrite Ei. intros m. rewrite !elem_of_app, !elem_of_cons. tauto.
Qed.
End op.
