(* ===== verification/InodeWrite.v ===== *)
(** Writing to a file inside a transaction (kernel/fs/inode.c: [writei],
    [iupdate]), and the file after the transaction. *)

From S2P Require Import Prelude Mem State Machine Mm MmInit Proc Sync Virtio Buf Log Inode FsData ProcTheorems Env VirtioTheorems BufList BufCache BufOps LogOps LogTheorems LogWrite InodeRead InodeTable InodeDir BlockMap InodeAlloc.

(** ** Definitions *)

(** Byte [p] of the file with the addresses [addrs]. *)
Definition fbyte (f : Z → list Z) (addrs : list Z) (p : Z) : option Z :=
  f (paddr f addrs (PBlk (p / BLOCK_SIZE))) !! Z.to_nat (p mod BLOCK_SIZE).

(** The contents of a file after [bytes] have been written at [off]. *)
Definition splice (off : Z) (bytes data : list Z) : list Z :=
  take (Z.to_nat off) data ++ bytes ++ drop (Z.to_nat off + length bytes) data.

(** The source of a write gives the bytes piece by piece, in any state in which
    [I] holds. *)
Record supplies (t : task) (from_user : bool) (src : Z) (ksrc bytes : list Z) (I : kstate → Prop) : Prop := {
  sp_copy : ∀ k len s, I s → idle t s → 0 ≤ k → 0 < len → k + len ≤ Z.of_nat (length bytes) →
    runs (either_copy_in from_user (u64 (src + k)) len (drop (Z.to_nat k) ksrc)) s (λ r s',
      r = (0, slice k len bytes) ∧ idle t s' ∧ sim s s');
  sp_stays : ∀ s s', I s → k_mem s' = k_mem s → k_free s' = k_free s → I s';
}.

(** From [f] to [f'] inode [ino] has become [di] with the contents [data], and
    the other inodes are as they were. *)
Record rewrites (sb : super_block) (f f' : Z → list Z) (ino : Z) (di : d_inode) (data : list Z) : Prop := {
  rw_inode : on_disk f' sb ino = di;
  rw_data : idata f' sb ino = data;
  rw_ok : file_ok f' (di_addrs di) (di_size di);
  rw_wf : wf sb f' (disk_addrs sb f');
  rw_inodes : ∀ n, inum sb n → n ≠ ino → on_disk f' sb n = on_disk f sb n;
  rw_files : ∀ n, inum sb n → n ≠ ino → let d := on_disk f sb n in
    file_ok f (di_addrs d) (di_size d) → file_ok f' (di_addrs d) (di_size d) ∧ idata f' sb n = idata f sb n;
}.

Section filled.
Context (sb : super_block) (ino : Z) (f0 : Z → list Z) (A0 : Z → list Z) (size off : Z) (bytes : list Z).

(** The first [k] bytes have been written to inode [ino]. *)
Record filled (k : Z) (f : Z → list Z) (addrs : list Z) : Prop := {
  fi_wf : wf sb f (upd A0 ino addrs);
  fi_addr : ∀ n p, inum sb n → pos_ok p → paddr f0 (A0 n) p ≠ 0 → paddr f (upd A0 ino addrs n) p = paddr f0 (A0 n) p;
  fi_data : ∀ n j, inum sb n → n ≠ ino → pos_ok (PBlk j) → paddr f0 (A0 n) (PBlk j) ≠ 0 →
    f (paddr f0 (A0 n) (PBlk j)) = f0 (paddr f0 (A0 n) (PBlk j));
  fi_meta : ∀ n, n ≠ sb_data_bitmap_start sb → ¬ in_area sb n → f n = f0 n;
  fi_bytes : ∀ p, 0 ≤ p < Z.max size (off + k) → paddr f addrs (PBlk (p / BLOCK_SIZE)) ≠ 0 ∧
    fbyte f addrs p = if decide (off ≤ p < off + k) then bytes !! Z.to_nat (p - off) else fbyte f0 (A0 ino) p;
}.
End filled.

(** ** Lemmas *)

Section fill.
Context (st : Z) (sb : super_block) (G : geometry st sb) (ino : Z) (Hino : inum sb ino).
Context (f0 : Z → list Z) (A0 : Z → list Z) (size off : Z) (bytes : list Z).
Context (Hoff : 0 ≤ off ≤ size) (Hend : Z.max size (off + Z.of_nat (length bytes)) ≤ MAX_BLOCKS * BLOCK_SIZE).
Abbreviation filled := (filled sb ino f0 A0 size off bytes).

Lemma block_ok p : 0 ≤ p < MAX_BLOCKS * BLOCK_SIZE → pos_ok (PBlk (p / BLOCK_SIZE)).
Proof. intros Hp. cbn. fs_lia. Qed.

Lemma filled_start : wf sb f0 A0 → (∀ p, 0 ≤ p < size → paddr f0 (A0 ino) (PBlk (p / BLOCK_SIZE)) ≠ 0) → filled 0 f0 (A0 ino).
Proof.
  intros W Hm. assert (∀ n, upd A0 ino (A0 ino) n = A0 n) as E by (intros n; unfold upd; case_decide; congruence).
  split; [by eapply wf_ext; [intros; apply E|]| |done|done|].
  - intros n p Hn Hp _. by rewrite E.
  - intros p Hp. split; [apply Hm; lia|]. rewrite decide_False; [done|lia].
Qed.

(** Blocks are allocated. *)
Lemma filled_keeps k f addrs f' addrs' :
  0 ≤ k ≤ Z.of_nat (length bytes) →
  filled k f addrs → keeps sb ino f (upd A0 ino addrs) f' (upd A0 ino addrs') → filled k f' addrs'.
Proof.
  intros Hk [F1 F2 F3 F4 F5] [K1 K2 K3 K4 K5]. split; [done| | | |].
  - intros n p Hn Hp Hz. rewrite <-F2 by done. apply K2; [done|done|]. by rewrite F2.
  - intros n j Hn Hne Hj Hz. rewrite <-(F3 n j) by done. rewrite <-(F2 n (PBlk j)) by done. apply K3; [done|done|]. by rewrite F2.
  - intros n Hd Ha. by rewrite K4, F4.
  - intros p Hp. destruct (F5 p Hp) as [Hz Eb]. assert (pos_ok (PBlk (p / BLOCK_SIZE))) as Hpo by (apply block_ok; lia).
    specialize (K2 ino (PBlk (p / BLOCK_SIZE)) Hino Hpo). specialize (K3 ino (p / BLOCK_SIZE) Hino Hpo). rewrite (upd_eq A0 ino addrs), (upd_eq A0 ino addrs') in K2. rewrite (upd_eq A0 ino addrs) in K3.
    rewrite K2 by done. split; [done|]. rewrite <-Eb. unfold fbyte. by rewrite K2, K3.
Qed.

Lemma lookup_inserts o (l d : list Z) q :
  (o + length l ≤ length d)%nat →
  list_inserts o l d !! q = if decide (o ≤ q < o + length l)%nat then l !! (q - o)%nat else d !! q.
Proof.
  intros Hl. case_decide as D; [by rewrite list_lookup_inserts by lia|].
  destruct (decide (q < o)%nat); [by rewrite list_lookup_inserts_lt by lia|by rewrite list_lookup_inserts_ge by lia].
Qed.

(** The next [len] bytes are written to the block that they are for. *)
Lemma filled_write k f addrs len f' :
  let p0 := off + k in let j := p0 / BLOCK_SIZE in let o := p0 mod BLOCK_SIZE in
  filled k f addrs → 0 ≤ k → 0 < len → o + len ≤ BLOCK_SIZE → k + len ≤ Z.of_nat (length bytes) →
  let a := paddr f addrs (PBlk j) in a ≠ 0 → length (f a) = Z.to_nat BLOCK_SIZE →
  (∀ n, f' n = upd f a (list_inserts (Z.to_nat o) (slice k len bytes) (f a)) n) →
  filled (k + len) f' addrs ∧ ∀ p, pos_ok p → paddr f' addrs p = paddr f addrs p.
Proof.
  intros p0 j o [F1 F2 F3 F4 F5] Hk Hlen Ho Hb a Ha Hl E.
  assert (pos_ok (PBlk j)) as Hj by (apply block_ok; unfold p0; lia).
  assert (0 ≤ o < BLOCK_SIZE) as Ho' by (apply Z.mod_pos_bound; done).
  assert (length (slice k len bytes) = Z.to_nat len) as Hs by (unfold slice; rewrite length_take, length_drop; lia).
  destruct (write_step st sb G ino f (upd A0 ino addrs) j (list_inserts (Z.to_nat o) (slice k len bytes) (f a)) f' F1 Hino Hj) as (W' & Ep & Ed & Em);
    [by rewrite upd_eq|rewrite upd_eq; exact E|].
  assert (∀ p, pos_ok p → paddr f' addrs p = paddr f addrs p) as Ep'.
  { intros p Hp. specialize (Ep ino p Hino Hp). by rewrite (upd_eq A0 ino addrs) in Ep. }
  split; [|done]. split; [done| | | |].
  - intros n p Hn Hp Hz. rewrite Ep by done. by apply F2.
  - intros n j' Hn Hne Hj' Hz. rewrite <-(F3 n j') by done. rewrite <-(F2 n (PBlk j')) by done.
    apply Ed; [done|done|by rewrite F2|congruence].
  - intros n Hd Hn. rewrite Em by done. by apply F4.
  - intros p Hp. assert (pos_ok (PBlk (p / BLOCK_SIZE))) as Hpo by (apply block_ok; lia). rewrite Ep' by done.
    unfold fbyte. rewrite Ep' by done. destruct (decide (p / BLOCK_SIZE = j)) as [Ej|Ej].
    + rewrite Ej. fold a. split; [done|]. rewrite E, upd_eq, lookup_inserts by (rewrite Hs, Hl; lia). rewrite Hs.
      assert (p = j * BLOCK_SIZE + p mod BLOCK_SIZE ∧ p0 = j * BLOCK_SIZE + o ∧ 0 ≤ p mod BLOCK_SIZE) as (P1 & P2 & P3).
      { pose proof (Z.mod_pos_bound p BLOCK_SIZE ltac:(done)). pose proof (Z.div_mod p BLOCK_SIZE ltac:(done)).
        pose proof (Z.div_mod p0 BLOCK_SIZE ltac:(done)). unfold o. lia. }
      case_decide as D.
      * rewrite decide_True by lia. unfold slice. rewrite lookup_take_lt, lookup_drop by lia. f_equal. lia.
      * destruct (F5 p) as [_ Eb]; [lia|]. unfold fbyte in Eb. rewrite Ej in Eb. fold a in Eb. rewrite Eb.
        case_decide as D1; case_decide as D2; [done|lia|lia|done].
    + assert (¬ (p0 ≤ p < p0 + len)) as Hout.
      { intros Hin. apply Ej. unfold j. symmetry. apply (Z.div_unique_pos _ _ _ (p - p0 + o)); [lia|].
        pose proof (Z.div_mod p0 BLOCK_SIZE ltac:(done)). unfold o. lia. }
      destruct (F5 p) as [Hz Eb]; [lia|]. split; [done|]. unfold fbyte in Eb.
      specialize (Ed ino (p / BLOCK_SIZE) Hino Hpo). rewrite (upd_eq A0 ino addrs) in Ed. rewrite Ed by (done || congruence). rewrite Eb.
      case_decide as D1; case_decide as D2; [done|lia|lia|done].
Qed.

Context (Hf0 : ∀ n, length (f0 n) = Z.to_nat BLOCK_SIZE).

Lemma fbyte_fdata f addrs sz p :
  (∀ n, length (f n) = Z.to_nat BLOCK_SIZE) → file_ok f addrs sz → 0 ≤ p < sz →
  fdata f addrs sz !! Z.to_nat p = fbyte f addrs p.
Proof.
  intros Hl K Hp. rewrite lookup_fdata by done. unfold fbyte. rewrite paddr_mapped; [done|].
  apply (fk_mapped _ _ _ K); fs_lia.
Qed.

Lemma lookup_splice (d : list Z) (p : nat) :
  (Z.to_nat off ≤ length d)%nat →
  splice off bytes d !! p = if decide (Z.to_nat off ≤ p < Z.to_nat off + length bytes)%nat then bytes !! (p - Z.to_nat off)%nat else d !! p.
Proof.
  intros Hd. unfold splice. assert (length (take (Z.to_nat off) d) = Z.to_nat off) as Ht by (rewrite length_take; lia).
  destruct (decide (p < Z.to_nat off)%nat) as [Hlt|Hge].
  { rewrite decide_False, lookup_app_l, lookup_take_lt by lia. done. }
  rewrite lookup_app_r, Ht by lia. case_decide as D; [by rewrite lookup_app_l by lia|].
  rewrite lookup_app_r, lookup_drop by lia. f_equal. lia.
Qed.

(** With all the bytes written the file has the new contents. *)
Lemma filled_file f addrs :
  let sz := Z.max size (off + Z.of_nat (length bytes)) in
  filled (Z.of_nat (length bytes)) f addrs → (∀ n, length (f n) = Z.to_nat BLOCK_SIZE) → file_ok f0 (A0 ino) size →
  file_ok f addrs sz ∧ fdata f addrs sz = splice off bytes (fdata f0 (A0 ino) size).
Proof.
  intros sz [F1 F2 F3 F4 F5] Hl K0.
  assert (file_ok f addrs sz) as K.
  { split; [rewrite <-(upd_eq A0 ino addrs); by apply F1|unfold sz; lia|]. intros j H0 H1.
    destruct (F5 (j * BLOCK_SIZE)) as [Hz _]; [unfold sz, BLOCK_SIZE in *; lia|]. rewrite Z.div_mul in Hz by done.
    rewrite <-(upd_eq A0 ino addrs) in Hz |- *. eapply (wf_mapped st sb G); [done|done| |done]. cbn. unfold sz in H1. fs_lia. }
  split; [done|]. apply list_eq. intros p. assert (length (fdata f0 (A0 ino) size) = Z.to_nat size) as L0 by (apply length_fdata; [done|lia]).
  rewrite lookup_splice by lia. destruct (decide (Z.of_nat p < sz)) as [Hp|Hp].
  - destruct (F5 (Z.of_nat p)) as [_ Eb]; [unfold sz in *; lia|]. rewrite <-(Nat2Z.id p) at 1.
    rewrite (fbyte_fdata f addrs sz) by (done || lia). rewrite Eb. case_decide as D1; case_decide as D2; [f_equal; lia|lia|lia|].
    rewrite <-(fbyte_fdata f0 (A0 ino) size) by (done || unfold sz in *; lia). by rewrite Nat2Z.id.
  - rewrite lookup_ge_None_2 by (rewrite length_fdata by (done || lia); lia).
    rewrite decide_False by (unfold sz in *; lia). symmetry. apply lookup_ge_None. unfold sz in *. lia.
Qed.

(** The other files are as before. *)
Lemma filled_other k f addrs n sz :
  filled k f addrs → inum sb n → n ≠ ino → file_ok f0 (A0 n) sz →
  file_ok f (A0 n) sz ∧ fdata f (A0 n) sz = fdata f0 (A0 n) sz.
Proof.
  intros [F1 F2 F3 F4 F5] Hn Hne K. pose proof K as [K1 K2 K3].
  assert (∀ j, 0 ≤ j → j * BLOCK_SIZE < sz → mapped f (A0 n) j ∧ faddr f (A0 n) j = faddr f0 (A0 n) j ∧
    f (faddr f0 (A0 n) j) = f0 (faddr f0 (A0 n) j)) as Hj.
  { intros j H0 H1. specialize (K3 j H0 H1). pose proof (paddr_mapped _ _ _ K3) as E0. pose proof K3 as [M1 M2 M3].
    specialize (F2 n (PBlk j) Hn M1). specialize (F3 n j Hn Hne M1). rewrite (upd_ne A0 ino addrs n Hne) in F2. rewrite E0 in F2, F3.
    assert (mapped f (A0 n) j) as Hm.
    { pose proof (wf_mapped st sb G f (upd A0 ino addrs) n j F1 Hn M1) as Hm. rewrite (upd_ne A0 ino addrs n Hne) in Hm.
      apply Hm. rewrite F2; lia. }
    split; [done|]. rewrite <-(paddr_mapped _ _ _ Hm), F2, F3 by lia. done. }
  split.
  - split; [done|done|]. intros j H0 H1. by apply Hj.
  - unfold fdata. do 2 f_equal. apply list_fmap_ext. intros k' j [-> Hk]%lookup_seqZ.
    destruct (Hj (0 + Z.of_nat k')) as (_ & -> & ->); [lia|fs_lia|done].
Qed.
End fill.

(** ** [iupdate] *)

Section iupdate.
Context (st : Z) (sb : super_block) (G : geometry st sb).

(** The inodes on the disk after [iupdate]. *)
Lemma on_disk_put f f' ino di :
  let ib := ino / IPB + sb_inode_start sb in
  (∀ n, length (f n) = Z.to_nat BLOCK_SIZE) → dinode_ok di → (∀ n, f' n = upd f ib (put_dinode di ino (f ib)) n) →
  on_disk f' sb ino = di ∧ ∀ n, n ≠ ino → on_disk f' sb n = on_disk f sb n.
Proof.
  intros ib Hf Hd E. unfold on_disk. split.
  - fold ib. rewrite E, upd_eq. destruct (put_dinode_spec di ino (f ib) (dinode_off_le ino _ (Hf ib))) as (_ & Hg & _). by apply Hg.
  - intros n Hne. rewrite E. unfold upd. case_decide as D; [|done]. rewrite D. apply get_put_dinode_ne; [done|].
    unfold ib, IPB in *. intros Em. apply Hne. Z.to_euclidean_division_equations; lia.
Qed.

(** All the bytes are written, and then the inode. *)
Lemma filled_rewrites f0 f f' ino size off bytes addrs di :
  let ib := ino / IPB + sb_inode_start sb in let A0 := disk_addrs sb f0 in
  let sz := Z.max size (off + Z.of_nat (length bytes)) in
  inum sb ino → 0 ≤ off ≤ size → sz ≤ MAX_BLOCKS * BLOCK_SIZE → file_ok f0 (A0 ino) size → di_size (on_disk f0 sb ino) = size →
  (∀ n, length (f0 n) = Z.to_nat BLOCK_SIZE) → (∀ n, length (f n) = Z.to_nat BLOCK_SIZE) →
  filled sb ino f0 A0 size off bytes (Z.of_nat (length bytes)) f addrs →
  dinode_ok di → di_addrs di = addrs → di_size di = sz → (∀ n, f' n = upd f ib (put_dinode di ino (f ib)) n) →
  rewrites sb f0 f' ino di (splice off bytes (idata f0 sb ino)).
Proof.
  intros ib A0 sz Hino Hoff Hend K0 Es Hf0 Hf F Hd Ea Ez E. pose proof F as [F1 F2 F3 F4 F5].
  destruct (on_disk_put f f' ino di Hf Hd E) as [D1 D2]. destruct (inode_block_range st sb G ino Hino) as (_ & _ & Hia & Hib). fold ib in Hia, Hib.
  destruct (wf_outside st sb G f (upd A0 ino addrs) f' F1) as [W' Kp].
  { intros n Hn. rewrite E, upd_ne; [done|]. by intros ->. }
  { rewrite E, upd_ne; done. }
  assert (∀ n, inum sb n → n ≠ ino → on_disk f' sb n = on_disk f0 sb n) as Hoth.
  { intros n Hn Hne. rewrite D2 by done. unfold on_disk. destruct (inode_block_range st sb G n Hn) as (_ & _ & Hna & Hnb).
    by rewrite F4. }
  destruct (filled_file st sb G ino Hino f0 A0 size off bytes Hoff Hend Hf0 f addrs F Hf K0) as [K1 Ed]. fold sz in K1, Ed.
  destruct (Kp ino sz Hino) as [K2 E2]; [by rewrite upd_eq|]. rewrite upd_eq in K2, E2.
  split; [done| |by rewrite Ea, Ez| |done|].
  - unfold idata. rewrite D1, Ea, Ez, E2, Ed. by rewrite Es.
  - eapply wf_ext; [|exact W']. intros n Hn. unfold disk_addrs, upd. case_decide as D; [by rewrite D, D1|by rewrite Hoth].
  - intros n Hn Hne d Kn. destruct (filled_other st sb G ino f0 A0 size off bytes _ f addrs n _ F Hn Hne Kn) as [K3 E3].
    destruct (Kp n (di_size d) Hn) as [K4 E4]; [by rewrite upd_ne|]. rewrite upd_ne in K4, E4 by done.
    split; [done|]. unfold idata. rewrite Hoth by done. fold d. etrans; [exact E4|exact E3].
Qed.

Context `{DV : Device} `{RN : Rounds} (R : env) `{DK : !Disk R} (t : task) (FL : fs_locks t).
Context (Hrounds : (1 < rounds)%nat) (s0 : kstate) (Hsb : k_sb s0 = sb).

Lemma iupdate_spec bl i y s :
  let ib := i_ino y / IPB + sb_inode_start sb in
  op t st bl ∅ s0 s → k_inodes s !! i = Some y → i_dev y = ROOT_DEV → inum sb (i_ino y) → (length bl + 2 < N_BUF)%nat →
  eruns R (iupdate i) s (λ _ s', op t st (logged ib bl) ∅ s0 s' ∧ k_inodes s' = k_inodes s ∧
    ∀ m, seen s' m = upd (seen s) ib (put_dinode (dinode_of y) (i_ino y) (seen s ib)) m).
Proof.
  intros ib O Hy Hd Hn Hsz. destruct (inode_block_range st sb G _ Hn) as (Hr & Hl & _). fold ib in Hr, Hl.
  unfold iupdate, IBLOCK. estep. eapply eruns_runs, runs_ok; [by apply get_inode_eq|].
  estep. estep. estep. rewrite (op_sb t st s0 sb Hsb _ _ _ O), Hd. fold ib. rewrite (wrap_small 32) by lia.
  estep. estep. ecall (op_bread R t FL Hrounds st s0 bl ∅ s ib O); [set_solver|lia|rewrite size_empty; lia|].
  intros b s1 (O1 & B1 & _ & V1 & E1 & _). pose proof (op_length _ _ _ _ _ _ ib O) as Hlen.
  ecallr (op_write R t FL Hrounds st s0 bl ∅ s1 ib b (seen s ib) (put_dinode (dinode_of y) (i_ino y)) O1); [set_solver|done| |done|unfold N_BUF, LOG_SIZE in *; lia|].
  { destruct (put_dinode_spec (dinode_of y) (i_ino y) (seen s ib) (dinode_off_le _ _ Hlen)) as (-> & _). done. }
  intros [] s2 (O2 & V2 & E2 & _). split_and!; [done|by rewrite E2|]. intros m. rewrite V2. unfold upd. case_decide; [done|apply V1].
Qed.
End iupdate.

(** ** [writei] *)

Section writei.
Context `{DV : Device} `{RN : Rounds} (R : env) `{DK : !Disk R} (t : task) (FL : fs_locks t).
Context (Hrounds : (1 < rounds)%nat) (st : Z) (s0 : kstate).
Context (sb : super_block) (G : geometry st sb) (Hsb : k_sb s0 = sb) (ino : Z) (Hino : inum sb ino).
Context (i : nat) (x0 : m_inode) (s1 : kstate) (bl0 : list Z) (A0 : Z → list Z) (off : Z) (bytes : list Z).
Abbreviation db := (sb_data_bitmap_start sb).
Abbreviation n := (Z.of_nat (length bytes)).
Abbreviation size := (i_size x0).

(** The blocks that the write begins in, and how many it has begun after [k]
    bytes. *)
Abbreviation first := (off / BLOCK_SIZE).
Definition begun (k : Z) : Z := (off + k + BLOCK_SIZE - 1) / BLOCK_SIZE - first.

Context (Hed : editing t st s0 sb ino bl0 ∅ i x0 A0 s1) (Hok : file_ok (seen s1) (i_addrs x0) size).
Context (Hoff : 0 ≤ off ≤ size) (Hend : off + n ≤ MAX_BLOCKS * BLOCK_SIZE).
Context (Hroom : (length bl0 + Z.to_nat (begun n) + 12 ≤ N_BUF)%nat).
Context (Hfree : (2 * Z.to_nat (begun n) ≤ free_blocks sb (seen s1))%nat).
Abbreviation filled := (filled sb ino (seen s1) A0 size off bytes).

(** Where the blocks listed by the transaction come from. *)
Definition listed (k : Z) (f : Z → list Z) (addrs : list Z) (m : Z) : Prop :=
  m ∈ bl0 ∨ m = db ∨ (∃ j, first ≤ j < first + begun k ∧ m = paddr f addrs (PBlk j) ∧ m ≠ 0) ∨
  (∃ q, 0 ≤ q < N_INDIRECT ∧ m = paddr f addrs (PInd q) ∧ m ≠ 0).

Record writing (k : Z) (bl addrs : list Z) (s : kstate) : Prop := {
  wg_op : op t st bl ∅ s0 s;
  wg_table : k_inodes s = <[i := set_i_addrs addrs x0]> (k_inodes s1);
  wg_filled : filled k (seen s) addrs;
  wg_listed : ∀ m, m ∈ bl → listed k (seen s) addrs m;
  wg_free : k < n → (free_blocks sb (seen s1) ≤ free_blocks sb (seen s) + 2 * Z.to_nat ((off + k) / BLOCK_SIZE - first))%nat;
  wg_round : k = n ∨ k = 0 ∨ (off + k) mod BLOCK_SIZE = 0;
}.

Lemma begun_mono k k' : k ≤ k' → begun k ≤ begun k'.
Proof. intros H. unfold begun. fs_lia. Qed.

(** The bound on the number of blocks in the transaction. *)
Lemma listed_length bl k f addrs :
  0 ≤ begun k → NoDup bl → (∀ m, m ∈ bl → listed k f addrs m) → (length bl ≤ length bl0 + 4 + Z.to_nat (begun k))%nat.
Proof.
  intros Hb Hnd Hl.
  pose proof (logs_length bl0 (db :: ((λ q, paddr f addrs (PInd q)) <$> seqZ 0 3) ++
    ((λ j, paddr f addrs (PBlk j)) <$> seqZ first (begun k))) bl Hnd) as H.
  rewrite length_cons, length_app, !length_fmap, !length_seqZ in H. etrans; [apply H|lia]. clear H.
  intros m [Hm|[->|[(j & Hj & -> & _)|(q & Hq & -> & _)]]]%Hl; [by left|right..].
  - left.
  - right. apply elem_of_app. right. apply list_elem_of_fmap. exists j. split; [done|]. by apply elem_of_seqZ.
  - right. apply elem_of_app. left. apply list_elem_of_fmap. exists q. split; [done|]. by apply elem_of_seqZ.
Qed.

Lemma set_addrs_twice v w x : set_i_addrs v (set_i_addrs w x) = set_i_addrs v x.
Proof. by destruct x. Qed.

Lemma writing_editing k bl addrs s :
  writing k bl addrs s → editing t st s0 sb ino bl ∅ i (set_i_addrs addrs x0) (upd A0 ino addrs) s.
Proof.
  intros [W1 W2 W3 _ _ _]. pose proof Hed as [O Hx Hd Ha _]. split; [done| |done|by rewrite upd_eq|apply W3].
  rewrite W2. apply list_lookup_insert_eq. by eapply lookup_lt_Some.
Qed.

Lemma writing_start : writing 0 bl0 (i_addrs x0) s1.
Proof.
  pose proof Hed as [O Hx Hd Ha W]. split.
  - done.
  - rewrite list_insert_id; [done|]. rewrite Hx. f_equal. by destruct x0.
  - rewrite <-Ha. apply filled_start; [done|done|]. intros p Hp. rewrite Ha, paddr_mapped.
    + destruct (fk_mapped _ _ _ Hok (p / BLOCK_SIZE)); [fs_lia|fs_lia|lia].
    + apply (fk_mapped _ _ _ Hok); fs_lia.
  - intros m Hm. by left.
  - intros _. lia.
  - right. by left.
Qed.

(** Places that have an address keep it, in a round that begins more blocks. *)
Lemma listed_mono k f addrs k' f' addrs' m :
  (∀ p, pos_ok p → paddr f addrs p ≠ 0 → paddr f' addrs' p = paddr f addrs p) →
  0 ≤ k ≤ k' → k' ≤ n → listed k f addrs m → listed k' f' addrs' m.
Proof.
  intros E Hk Hn [Hm|[->|[(j & Hj & -> & Hz)|(q & Hq & -> & Hz)]]]; [by left|by right; left|..]; right; right.
  - left. exists j. pose proof (begun_mono k k'). split; [lia|]. rewrite E; [done| |done]. cbn. pose proof (begun_mono k' n). unfold begun in *. fs_lia.
  - right. exists q. split; [done|]. by rewrite E.
Qed.

Lemma end_ok : Z.max size (off + n) ≤ MAX_BLOCKS * BLOCK_SIZE.
Proof. pose proof (fk_size _ _ _ Hok). lia. Qed.

(** The part of the round that finds the block. *)
Lemma round_bmap k bl addrs s :
  let j := (off + k) / BLOCK_SIZE in
  writing k bl addrs s → 0 ≤ k < n →
  eruns R (bmap i j) s (λ a s', ∃ bl' addrs', op t st bl' ∅ s0 s' ∧
    k_inodes s' = <[i := set_i_addrs addrs' x0]> (k_inodes s1) ∧ filled k (seen s') addrs' ∧
    (∀ m, m ∈ bl' → listed k (seen s') addrs' m ∨ m = a ∨ (∃ q, 0 ≤ q < N_INDIRECT ∧ m = paddr (seen s') addrs' (PInd q) ∧ m ≠ 0)) ∧
    (free_blocks sb (seen s1) ≤ free_blocks sb (seen s') + 2 * Z.to_nat (j + 1 - first))%nat ∧
    a = paddr (seen s') addrs' (PBlk j) ∧ a ≠ 0 ∧ (length bl' + 2 < N_BUF)%nat).
Proof.
  intros j Wr Hk. pose proof (writing_editing _ _ _ _ Wr) as Ed. pose proof Wr as [W1 W2 W3 W4 W5 W6]. specialize (W5 ltac:(lia)).
  pose proof end_ok as He. pose proof (begun_mono k n ltac:(lia)) as Hb. assert (0 ≤ begun k) as Hb0 by (unfold begun; fs_lia).
  pose proof (listed_length bl k _ _ Hb0 (op_nodup _ _ _ _ _ _ W1) W4) as Hlen.
  assert (first ≤ j ∧ j + 1 ≤ first + begun n) as Hj by (unfold j, begun; fs_lia). unfold N_BUF in *.
  eapply eruns_conseq.
  { apply (bmap_spec R t FL Hrounds st s0 sb G Hsb ino Hino bl i _ _ s j Ed); [unfold j; fs_lia|fold j in W5; lia|unfold N_BUF; lia]. }
  intros a s' (bl' & addrs' & (E1 & K1 & L1 & F1) & O1 & -> & Ha). exists bl', addrs'.
  assert (keeps sb ino (seen s) (upd A0 ino addrs) (seen s') (upd A0 ino addrs')) as K.
  { eapply keeps_ext; [|exact K1]. intros m. unfold upd. destruct (decide (m = ino)); done. }
  pose proof (filled_keeps sb ino Hino (seen s1) A0 size off bytes He k _ _ _ _ ltac:(lia) W3 K) as F'.
  pose proof (logs_length _ _ _ (op_nodup _ _ _ _ _ _ O1) L1) as Ll. assert (pos_ok (PBlk j)) as Hjo by (cbn; unfold j; fs_lia).
  split_and!; [done| |done| |fold j in W5; lia|done|done|].
  - rewrite E1, W2, list_insert_insert_eq. by rewrite set_addrs_twice.
  - intros m [Hm|Hm]%L1.
    + left. eapply listed_mono; [|split; [|reflexivity]; lia|lia|by apply W4]. intros p Hp Hz. pose proof (kp_addr _ _ _ _ _ _ K ino p Hino Hp) as Hpa.
      rewrite !upd_eq in Hpa. by apply Hpa.
    + apply elem_of_app in Hm as [Hm|Hm].
      * rewrite !elem_of_cons in Hm. destruct Hm as [->|[->|[]%elem_of_nil]]; [left; by right; left|right; by left].
      * right. right. destruct (decide (j < N_DIRECT)) as [|Hd]; [by apply elem_of_nil in Hm|].
        apply list_elem_of_singleton in Hm as ->. exists ((j - N_DIRECT) / APB).
        split; [cbn in Hjo; fs_lia|]. split; [done|]. pose proof (wf_mapped st sb G _ _ ino j (fi_wf _ _ _ _ _ _ _ _ _ _ F') Hino Hjo) as Hm.
        rewrite upd_eq in Hm. pose proof (ma_ind _ _ _ (Hm Ha) ltac:(lia)). lia.
  - rewrite length_app in Ll. cbn [length] in Ll. destruct (decide (j < N_DIRECT)); cbn [length] in Ll; lia.
Qed.

Lemma op_idle_sim bl H s s' : op t st bl H s0 s → sim s s' → idle t s' → op t st bl H s0 s'.
Proof.
  intros O S Hi. eapply op_rsim; [exact O|by apply sim_rsim|]. eapply fs_ok_sim; [by eapply op_fs|done|done].
Qed.

Lemma holds_sim s s' m b d : holds s m b d → sim s s' → holds s' m b d.
Proof. intros (x & C & Hd) S. exists x. by rewrite <-(sim_k_bufs _ _ S). Qed.

Context (from_user : bool) (src : Z) (ksrc : list Z) (I : kstate → Prop) (Hsup : supplies t from_user src ksrc bytes I).

Lemma op_stays bl H bl' H' s s' : op t st bl H s0 s → op t st bl' H' s0 s' → I s → I s'.
Proof.
  intros [_ _ _ _ _ W] [_ _ _ _ _ W'] Hs. apply (sp_stays _ _ _ _ _ _ Hsup s); [done| |].
  - by rewrite <-(wsim_k_mem _ _ W), <-(wsim_k_mem _ _ W').
  - by rewrite <-(wsim_k_free _ _ W), <-(wsim_k_free _ _ W').
Qed.

(** The rest of the round: the block [a] is read, filled and logged. *)
Lemma round_fill k len bl addrs a s {A} (K : KM A) Q (skip : Z → nat → KM A) :
  let p := off + k in let j := p / BLOCK_SIZE in let o := p mod BLOCK_SIZE in
  op t st bl ∅ s0 s → k_inodes s = <[i := set_i_addrs addrs x0]> (k_inodes s1) → filled k (seen s) addrs →
  0 ≤ k → 0 < len → o + len ≤ BLOCK_SIZE → k + len ≤ n → a = paddr (seen s) addrs (PBlk j) → a ≠ 0 → (length bl + 2 < N_BUF)%nat → I s →
  (∀ s', op t st (logged a bl) ∅ s0 s' → k_inodes s' = <[i := set_i_addrs addrs x0]> (k_inodes s1) →
     filled (k + len) (seen s') addrs → (∀ q, pos_ok q → paddr (seen s') addrs q = paddr (seen s) addrs q) →
     (∀ c, bit_clear (seen s' db) c = bit_clear (seen s db) c) → I s' → eruns R K s' Q) →
  eruns R (b ← bread ROOT_DEV a;
    '(r, bs) ← either_copy_in from_user (u64 (src + k)) len (drop (Z.to_nat k) ksrc);
    set_buf_data b (list_inserts (Z.to_nat o) bs);;
    if negb (r =? 0) then skip r b else log_write b;; brelse b;; K) s Q.
Proof.
  intros p j o O E F Hk Hlen Ho Hn Ea Ha Hsz HI HK. pose proof end_ok as He.
  assert (pos_ok (PBlk j)) as Hjo by (cbn; unfold j, p; fs_lia).
  destruct (wf_used _ _ _ (fi_wf _ _ _ _ _ _ _ _ _ _ F) ino (PBlk j) Hino Hjo) as [Har _]; [by rewrite upd_eq, <-Ea|].
  rewrite upd_eq, <-Ea in Har. pose proof (area_range st sb G a Har).
  estep. ecall (op_bread R t FL Hrounds st s0 bl ∅ s a O); [set_solver|lia|rewrite size_empty; lia|].
  intros b s2 (O2 & B2 & _ & V2 & E2 & _). pose proof (op_stays _ _ _ _ _ _ O O2 HI) as I2.
  estep. ecallr (sp_copy _ _ _ _ _ _ Hsup k len s2 I2); [by eapply fo_cpu, op_fs|done|done|done|].
  intros ? s3 (-> & H3 & S3). pose proof (op_idle_sim _ _ _ _ O2 S3 H3) as O3. pose proof (holds_sim _ _ _ _ _ B2 S3) as B3.
  assert (∀ m, seen s3 m = seen s m) as V3 by (intros m; rewrite <-V2; by apply sim_seen).
  assert (length (seen s a) = Z.to_nat BLOCK_SIZE) as Hl by by eapply op_length.
  cbn [negb Z.eqb]. apply (op_write_then R t FL Hrounds st s0 bl ∅ s3 a b (seen s a));
    [done|set_solver|done|by rewrite length_inserts|by eapply area_not_log|unfold N_BUF, LOG_SIZE in *; lia|].
  intros s4 O4 V4 E4 _.
  assert (∀ m, seen s4 m = upd (seen s) a (list_inserts (Z.to_nat o) (slice k len bytes) (seen s a)) m) as V.
  { intros m. rewrite V4. unfold upd. case_decide; [done|apply V3]. }
  destruct (filled_write st sb G ino Hino (seen s1) A0 size off bytes Hoff He k (seen s) addrs len (seen s4)) as [F4 Ep];
    [done|done|done|done|done|fold p j; by rewrite <-Ea|fold p j; by rewrite <-Ea|fold p j o; by rewrite <-Ea|].
  apply HK; [done| |done|done| |exact (op_stays _ _ _ _ _ _ O O4 HI)].
  - rewrite E4, <-E, <-E2. exact (eq_sym (f_equal k_inodes S3)).
  - intros c. rewrite V, upd_ne; [done|]. intros Eq. apply (bitmap_not_area st sb G). by rewrite Eq.
Qed.

Context (Hsrc : 0 ≤ src < 2 ^ 64).

Lemma src_step k len : u64 (u64 (src + k) + len) = u64 (src + (k + len)).
Proof. unfold wrap. rewrite Z.add_mod_idemp_l by done. f_equal. lia. Qed.

(** The state at the end of a round. *)
Lemma round_end k len bl addrs a s s' :
  let j := (off + k) / BLOCK_SIZE in
  0 ≤ k < n → len = Z.min (n - k) (BLOCK_SIZE - (off + k) mod BLOCK_SIZE) →
  op t st (logged a bl) ∅ s0 s' → k_inodes s' = <[i := set_i_addrs addrs x0]> (k_inodes s1) → filled (k + len) (seen s') addrs →
  (∀ q, pos_ok q → paddr (seen s') addrs q = paddr (seen s) addrs q) →
  (∀ c, bit_clear (seen s' db) c = bit_clear (seen s db) c) →
  (∀ m, m ∈ bl → listed k (seen s) addrs m ∨ m = a ∨ (∃ q, 0 ≤ q < N_INDIRECT ∧ m = paddr (seen s) addrs (PInd q) ∧ m ≠ 0)) →
  (free_blocks sb (seen s1) ≤ free_blocks sb (seen s) + 2 * Z.to_nat (j + 1 - first))%nat →
  a = paddr (seen s) addrs (PBlk j) → a ≠ 0 → writing (k + len) (logged a bl) addrs s'.
Proof.
  intros j Hk Hlen O E F Ep B L Fr Ea Ha. set (o := (off + k) mod BLOCK_SIZE) in *.
  assert (0 ≤ o < BLOCK_SIZE) as Ho by (apply Z.mod_pos_bound; done).
  assert (off + k = j * BLOCK_SIZE + o) as Edm by (pose proof (Z.div_mod (off + k) BLOCK_SIZE ltac:(done)); unfold j, o; lia).
  assert (pos_ok (PBlk j)) as Hjo by (cbn; unfold j; fs_lia).
  assert (listed (k + len) (seen s') addrs a) as Hla.
  { right. right. left. exists j. split; [unfold begun; fs_lia|]. by rewrite Ep. }
  split; [done|done|done| | |].
  - intros m [->|Hm]%elem_of_logged; [done|]. destruct (L m Hm) as [Hl|[->|(q & Hq & -> & Hz)]]; [|done|].
    + eapply listed_mono; [|split; [|]|..|exact Hl]; [by intros; apply Ep|lia..].
    + right. right. right. exists q. split; [done|]. by rewrite Ep.
  - intros Hn. rewrite (free_blocks_ext sb (seen s) (seen s') B).
    assert ((off + (k + len)) / BLOCK_SIZE = j + 1) as ->; [|done].
    symmetry. apply (Z.div_unique_pos _ _ _ 0); [done|]. lia.
  - destruct (decide (k + len = n)) as [|Hn]; [by left|right; right].
    replace (off + (k + len)) with ((j + 1) * BLOCK_SIZE) by lia. apply Z.mod_mul. done.
Qed.

(** The loop of [writei]. *)
Lemma writei_loop : I s1 →
  eruns R (loop (S (Z.to_nat n))
    (λ '(src, ksrc, off, n),
       if 0 <? n then
         addr ← bmap i (u32 (Z.quot off BLOCK_SIZE));
         if addr =? 0 then mret (inr (off, n)) else
         b ← bread (i_dev x0) addr;
         let o := Z.rem off BLOCK_SIZE in
         let len := BLOCK_SIZE - o in
         let len := if n <? len then n else len in
         '(r, bs) ← either_copy_in from_user src len ksrc;
         set_buf_data b (list_inserts (Z.to_nat o) bs);;
         if negb (r =? 0) then brelse b;; mret (inr (off, n)) else
         log_write b;;
         brelse b;;
         mret (inl (u64 (src + len), drop (Z.to_nat len) ksrc, off + len, n - len))
       else mret (inr (off, n))) (src, ksrc, off, n)) s1 (λ r s', ∃ bl' addrs', r = (off + n, 0) ∧ writing n bl' addrs' s' ∧ I s').
Proof.
  intros HI. rewrite (ed_dev _ _ _ _ _ _ _ _ _ _ _ Hed).
  apply (eruns_loop _ (λ l s, ∃ k bl addrs, l = (u64 (src + k), drop (Z.to_nat k) ksrc, off + k, n - k) ∧
    0 ≤ k ≤ n ∧ writing k bl addrs s ∧ I s) (λ l, Z.to_nat l.2)).
  2: { exists 0, bl0, (i_addrs x0). rewrite !Z.add_0_r, Z.sub_0_r. split_and!; [|lia|lia|apply writing_start|done].
    by rewrite wrap_small. }
  2: { cbn [snd]. lia. }
  intros l s (k & bl & addrs & -> & Hk & Wr & HIs). destruct (Z.ltb_spec 0 (n - k)) as [Hlt|Hge].
  2: { estep. exists bl, addrs. assert (k = n) as -> by lia. split_and!; [f_equal; lia|done|done]. }
  rewrite Z.quot_div_nonneg, Z.rem_mod_nonneg by (unfold BLOCK_SIZE; lia). rewrite (wrap_small 32) by fs_lia.
  estep. ecall (round_bmap k bl addrs s Wr ltac:(lia)). intros a s2 (bl2 & addrs2 & O2 & E2 & F2 & L2 & Fr2 & Ea & Ha & Hsz).
  rewrite (proj2 (Z.eqb_neq a 0)) by done. cbv zeta. set (o := (off + k) mod BLOCK_SIZE).
  assert (0 ≤ o < BLOCK_SIZE) as Ho by (apply Z.mod_pos_bound; done).
  set (len := if _ <? _ then _ else _). assert (len = Z.min (n - k) (BLOCK_SIZE - o)) as Elen.
  { unfold len. destruct (Z.ltb_spec (n - k) (BLOCK_SIZE - o)); lia. }
  clearbody len. rewrite src_step, drop_drop. replace (Z.to_nat k + Z.to_nat len)%nat with (Z.to_nat (k + len)) by lia.
  apply (round_fill k len bl2 addrs2 a s2); try done; [lia|lia|lia|lia|exact (op_stays _ _ _ _ _ _ (wg_op _ _ _ _ Wr) O2 HIs)|].
  intros s3 O3 E3 F3 Ep B3 I3. estep. split; [|cbn [snd]; lia].
  exists (k + len), (logged a bl2), addrs2. split_and!; [f_equal; [f_equal; lia|lia]|lia|lia| |done].
  apply (round_end k len bl2 addrs2 a s2 s3); try done; lia.
Qed.

Lemma size_step addrs s :
  let y := set_i_addrs addrs x0 in let sz := Z.max size (off + n) in
  k_inodes s !! i = Some y →
  runs (when (i_size y <? off + n) (upd_inode i (set_i_size (u32 (off + n))))) s
    (λ _ s', s' = set_k_inodes (<[i := set_i_size sz y]> (k_inodes s)) s).
Proof.
  intros y sz Hy. assert (off + n < 2 ^ 32) as Hlt by fs_lia. change (i_size y) with size.
  destruct (Z.ltb_spec size (off + n)); cbn [when].
  - eapply runs_ok; [by apply (upd_inode_eq i _ y)|]. rewrite wrap_small by lia. unfold sz. by rewrite Z.max_r by lia.
  - kstep. unfold sz. rewrite Z.max_l by lia. rewrite list_insert_id; [by destruct s|]. rewrite Hy. by destruct x0.
Qed.

(** [writei] of bytes that fit writes them all, with the inode: the new
    contents are in the cache and listed in the transaction. *)
Lemma writei_spec :
  I s1 → i_ino x0 = ino → A0 = disk_addrs sb (seen s1) → dinode_of x0 = on_disk (seen s1) sb ino → dinode_ok (dinode_of x0) →
  eruns R (writei i from_user src ksrc off n) s1 (λ r s', r = n ∧ ∃ bl' addrs,
    let y := set_i_size (Z.max size (off + n)) (set_i_addrs addrs x0) in
    op t st bl' ∅ s0 s' ∧ k_inodes s' = <[i := y]> (k_inodes s1) ∧
    rewrites sb (seen s1) (seen s') ino (dinode_of y) (splice off bytes (idata (seen s1) sb ino)) ∧
    (length bl' ≤ length bl0 + 5 + Z.to_nat (begun n))%nat).
Proof.
  intros HI Hi EA Ed Hd. pose proof Hed as [O1 Hx Hdev Ea W]. pose proof (lookup_lt_Some _ _ _ Hx) as Hlt.
  unfold writei. estep. eapply eruns_runs, runs_ok; [by apply get_inode_eq|]. rewrite (proj2 (Z.ltb_ge _ _)) by lia. cbv zeta.
  estep. ecall (writei_loop HI). intros ? s2 (bl2 & addrs & -> & Wr & HI2). pose proof Wr as [O2 E2 F2 L2 _ _].
  set (y0 := set_i_addrs addrs x0). assert (k_inodes s2 !! i = Some y0) as Hy0 by (rewrite E2; by apply list_lookup_insert_eq).
  estep. eapply eruns_runs, runs_ok; [by apply get_inode_eq|]. estep. ecallr (size_step addrs s2 Hy0). intros [] s3 E3.
  set (sz := Z.max size (off + n)) in *. set (y := set_i_size sz y0) in *.
  assert (op t st bl2 ∅ s0 s3) as O3 by (rewrite E3; by apply op_inodes).
  assert (k_inodes s3 = <[i := y]> (k_inodes s1)) as T3 by (rewrite E3; cbn [k_inodes set_k_inodes]; by rewrite E2, list_insert_insert_eq).
  assert (∀ m, seen s3 m = seen s2 m) as V3 by by rewrite E3.
  assert (0 ≤ begun n) as Hb by (unfold begun; fs_lia). pose proof (listed_length bl2 n _ _ Hb (op_nodup _ _ _ _ _ _ O2) L2) as Hlen.
  estep. ecall (iupdate_spec st sb G R t FL Hrounds s0 Hsb bl2 i y s3 O3); [rewrite T3; by apply list_lookup_insert_eq|done| |unfold N_BUF in *; lia|].
  { change (i_ino y) with (i_ino x0). by rewrite Hi. }
  change (i_ino y) with (i_ino x0). rewrite Hi. intros [] s4 (O4 & T4 & V4). estep. split; [lia|]. 
  exists (logged (ino / IPB + sb_inode_start sb) bl2), addrs. cbv zeta. fold y0 y.
  pose proof (length_logged (ino / IPB + sb_inode_start sb) bl2). split_and!; [done|by rewrite T4| |lia].
  pose proof end_ok as He. rewrite EA in F2, Ea. pose proof (fi_wf _ _ _ _ _ _ _ _ _ _ F2) as W2. subst s3.
  eapply (filled_rewrites st sb G (seen s1) _ (seen s4) ino size off bytes addrs (dinode_of y)); [done|done|done| |by rewrite <-Ed| | | | |done|done|exact V4].
  - by rewrite Ea.
  - intros m. exact (op_length _ _ _ _ _ _ m O1).
  - intros m. exact (op_length _ _ _ _ _ _ m O3).
  - exact F2.
  - destruct Hd as [Y1 Y2 Y3 Y4 Y5 Y6 Y7]. split; try done; cbn [dinode_of di_size di_addrs].
    + change (i_size y) with sz. unfold sz. fs_lia.
    + change (i_addrs y) with addrs. rewrite <-(upd_eq (disk_addrs sb (seen s1)) ino addrs). by apply W2.
    + change (i_addrs y) with addrs. rewrite <-(upd_eq (disk_addrs sb (seen s1)) ino addrs). by apply (wf_addrs st sb G _ _ _ W2).
Qed.
End writei.
