(* ===== verification/FileTheorems.v ===== *)
(** Open files (kernel/fs/file.c: [file_read], [file_write] of an inode): the
    bytes of the user are in the file when the call returns, and a crash during
    the call leaves all of them or none. *)

From S2P Require Import Prelude Mem State Machine Mm PageTable MmAlloc MmMap MmUser MmInit Proc Sync Virtio Buf Log Inode Pipe File FsData ProcTheorems Env PipeTheorems VirtioTheorems BufList BufCache BufOps LogOps LogTheorems LogWrite InodeRead InodeTable InodeDir BlockMap InodeAlloc InodeWrite.

(** ** Definitions *)

(** The file system between operations: no transaction is open, the entries of
    the inode table are inodes, and no block has two owners. *)
Record fs_rest (t : task) (st : Z) (s : kstate) : Prop := {
  fr_quiet : quiet t st s;
  fr_table : itable_ok t ∅ s;
  fr_inums : Forall (λ x, live x → inum (k_sb s) (i_ino x)) (k_inodes s);
  fr_geo : geometry st (k_sb s);
  fr_wf : wf (k_sb s) (block (k_disk s)) (disk_addrs (k_sb s) (block (k_disk s)));
}.

(** File [fd] is open on inode [ino], through entry [i], at offset [off]. *)
Record open_on (s : kstate) (fd : nat) (x : file) (i : nat) (ino off : Z) : Prop := {
  oo_file : k_files s !! fd = Some x;
  oo_type : f_type x = FD_INODE;
  oo_inode : f_inode x = Some i;
  oo_off : f_off x = off;
  oo_names : names s i ino;
}.

(** What an inode must be like to be read and written. *)
Record regular (f : Z → list Z) (sb : super_block) (ino : Z) : Prop := {
  rg_type : di_type (on_disk f sb ino) ≠ 0;
  rg_dinode : dinode_ok (on_disk f sb ino);
  rg_file : file_ok f (di_addrs (on_disk f sb ino)) (di_size (on_disk f sb ino));
}.

(** An inode with another size and other addresses. *)
Definition resized (size : Z) (addrs : list Z) (d : d_inode) : d_inode :=
  mk_d_inode (di_type d) (di_major d) (di_minor d) (di_nlink d) size addrs.

(** The user can access the [n] bytes at [va] in the way [p]. *)
Definition user_range (p : Z → bool) (t : task) (m : memory) (va n : Z) : Prop :=
  0 ≤ va ∧ va + n ≤ MAX_VADDR ∧ ∀ a, va ≤ a < va + n → is_Some (uaddr p m (t_pt t) a).

(** ** Lemmas *)

Lemma get_file_eq fd x s : k_files s !! fd = Some x → get_file fd s = Ok x s.
Proof. intros Hx. unfold get_file. erewrite bind_ok by done. by rewrite Hx. Qed.

Lemma file_inode_eq s fd x i ino off : open_on s fd x i ino off → file_inode fd s = Ok i s.
Proof.
  intros [O1 O2 O3 O4 O5]. unfold file_inode. erewrite bind_ok by by apply get_file_eq. by rewrite O3.
Qed.

(** The offset of a file advances. *)
Lemma advance_spec s fd x off m :
  k_files s !! fd = Some x → off + m < 2 ^ 32 → 0 ≤ off →
  runs (when (0 <? m) (upd_file fd (set_f_off (u32 (off + m))))) s (λ _ s',
    s' = set_k_files (if decide (0 < m) then <[fd := set_f_off (off + m) x]> (k_files s) else k_files s) s).
Proof.
  intros Hx H0 H1. destruct (Z.ltb_spec 0 m); cbn [when].
  - rewrite decide_True by done. unfold upd_file. kstep. rewrite (wrap_small 32) by lia. by rewrite (alter_known _ _ x).
  - rewrite decide_False by lia. kstep. by destruct s.
Qed.

(** ** The user's buffer *)

Section user.
Context (t : task).

Lemma slice_ubytes m root va n k len :
  0 ≤ k → 0 ≤ len → k + len ≤ n → slice k len (ubytes m root va n) = ubytes m root (va + k) len.
Proof.
  intros Hk Hl Hn. unfold slice, ubytes. apply list_eq. intros p. destruct (decide (p < Z.to_nat len)%nat) as [Hp|Hp].
  - rewrite lookup_take_lt, lookup_drop by done. rewrite !list_lookup_fmap, !lookup_seqZ_lt by lia. simpl. do 2 f_equal. lia.
  - rewrite lookup_take_ge by lia. symmetry. apply lookup_ge_None. rewrite length_fmap, length_seqZ. lia.
Qed.

Lemma running_pt_spec s : idle t s → runs running_page_table s (λ pt s', pt = t_pt t ∧ idle t s' ∧ sim s s').
Proof.
  intros H. unfold running_page_table. kstep. kcall (the_proc_spec t 0 ∅ s H); [lia|]. intros p s1 (-> & H1 & S1).
  destruct (oc_x _ _ _ _ H1) as (x & Hx & _ & Hpt). kstep. eapply runs_ok; [by apply get_proc_eq|]. kstep. done.
Qed.

(** A readable buffer of the user supplies the bytes that the user sees. *)
Lemma supplies_user N m src n :
  pt_wf m N (t_pt t) → 0 ≤ src → 0 ≤ n → src + n ≤ MAX_VADDR →
  (∀ va, src ≤ va < src + n → is_Some (uaddr ureadable m (t_pt t) va)) →
  supplies t true src [] (ubytes m (t_pt t) src n) (λ s, k_mem s = m).
Proof.
  intros Hwf H0 Hn Hmax Hrd. split; [|by intros s s' <- ->].
  intros k len s Hm Hi Hk Hlen Hb. rewrite length_ubytes in Hb. rewrite slice_ubytes by lia. unfold either_copy_in.
  rewrite wrap_small by (change (2 ^ 64) with 18446744073709551616; addr_lia).
  kstep. kcall (running_pt_spec s Hi). intros pt s1 (-> & H1 & S1). pose proof (sim_k_mem _ _ S1) as M1. rewrite Hm in M1.
  kcall (copy_in_spec s1 N (t_pt t) (src + k) len); [by rewrite <-M1|lia..|].
  intros [r bs] s2 (-> & [(-> & -> & _)|(-> & va & Hva & Hbad)]).
  - by rewrite <-M1.
  - destruct (Hrd va) as [? E]; [lia|]. by rewrite <-M1, E in Hbad.
Qed.

(** The user at [dst] sees the first [k] of the bytes, and the rest of the memory
    as in [m]. *)
Definition arrived (fl : list Z) (N : gmap Z nat) (m : memory) (dst : Z) (bytes : list Z) (k : Z) (s : kstate) : Prop :=
  umem t fl N s ∧ (∀ va, pt_lookup (k_mem s) (t_pt t) va = pt_lookup m (t_pt t) va) ∧
  ∀ va w, 0 ≤ va → pt_lookup m (t_pt t) va = Some w → pte_user w = true →
    ubyte (k_mem s) (t_pt t) va =
    if decide (dst ≤ va < dst + k) then default 0 (bytes !! Z.to_nat (va - dst)) else ubyte m (t_pt t) va.

Lemma umem_ext fl N s s' : k_mem s' = k_mem s → k_free s' = k_free s → umem t fl N s → umem t fl N s'.
Proof. intros M F [U1 U2 U3 U4 U5 U6]. split; rewrite ?M, ?F; done. Qed.

Lemma arrived_ext fl N m dst bytes k s s' :
  k_mem s' = k_mem s → k_free s' = k_free s → arrived fl N m dst bytes k s → arrived fl N m dst bytes k s'.
Proof. intros M F (A1 & A2 & A3). split_and!; [by eapply umem_ext|by rewrite M|by rewrite M]. Qed.

Lemma uaddr_user p m root va : (∀ v, p v = true → pte_user v = true) → is_Some (uaddr p m root va) →
  ∃ w, pt_lookup m root va = Some w ∧ pte_user w = true.
Proof.
  intros Hp [y Hy]. unfold uaddr in Hy. destruct (pt_lookup _ _ va) as [w|]; [|done]. exists w. split; [done|].
  simpl in Hy. destruct (p w) eqn:E; [|done]. by apply Hp.
Qed.

(** A writable buffer of the user takes bytes. *)
Lemma delivers_user fl N m dst bytes :
  LFreeList ∈ t_locks t → 0 ≤ dst → dst + Z.of_nat (length bytes) ≤ MAX_VADDR → Forall (λ b, 0 ≤ b < 256) bytes →
  (∀ va, dst ≤ va < dst + Z.of_nat (length bytes) → is_Some (uaddr uwritable m (t_pt t) va)) →
  delivers t true dst bytes (arrived fl N m dst bytes).
Proof.
  intros HF H0 Hmax Hb Hw. split.
  2: { intros k s s' HI S _. by eapply arrived_ext; [symmetry; apply (rsim_k_mem _ _ S)|symmetry; apply (rsim_k_free _ _ S)|]. }
  intros k len s (U & El & Eb) Hi Hk Hlen Hle. unfold either_copy_out.
  kstep. kcall (running_pt_spec s Hi). intros pt s1 (-> & H1 & S1). pose proof (sim_k_mem _ _ S1) as M1.
  pose proof (umem_sim _ _ _ _ _ S1 U) as U1. pose proof (length_slice k len bytes ltac:(lia) ltac:(lia) ltac:(lia)) as Hl.
  kstep. kcall (copy_out_spec s1 fl N (t_pt t) (dst + k) (slice k len bytes)); [eapply umem_inv; [done|done|set_solver|lia|done]|apply U1| |lia|].
  { by apply Forall_take, Forall_drop. }
  rewrite Hl. intros r s2 (c & Hc & Cp & [(-> & ->)|(-> & Hlt & Hbad)]).
  2: { exfalso. destruct (Hw (dst + k + c)) as [y Hy]; [lia|]. unfold uaddr in *. rewrite <-M1, El in Hbad. by rewrite Hy in Hbad. }
  kstep. pose proof Cp as [C1 C2 C3 C4 C5 C6]. rewrite <-M1 in C3, C6. split_and!; [done|split_and!| |].
  - apply umem_of_inv; [done|]. eapply user_space_ext; [|apply U]. intros va. by rewrite C3.
  - intros va. by rewrite C3.
  - intros va w Hva Hv Hu. rewrite (C6 va w), (Eb va w) by (done || by rewrite El).
    destruct (decide (dst + k ≤ va < dst + k + len)).
    + rewrite decide_True by lia. unfold slice. rewrite lookup_take_lt, lookup_drop by lia. do 2 f_equal. lia.
    + case_decide; [by rewrite decide_True by lia|by rewrite decide_False by lia].
  - rewrite C2. by eapply on_cpu_sim.
  - rewrite C2. cbn [k_mem set_k_mem]. by apply (f_equal (set_k_mem (k_mem s2))) in S1.
Qed.
End user.

(** ** What the log does not matter for *)

Section outside.
Context (st : Z) (sb : super_block) (G : geometry st sb) (f f' : Z → list Z) (E : ∀ n, ¬ in_log st n → f' n = f n).

Lemma on_disk_outside n : inum sb n → on_disk f' sb n = on_disk f sb n.
Proof. intros Hn. unfold on_disk. destruct (inode_block_range st sb G n Hn) as (_ & Hl & _). by rewrite E. Qed.

Lemma same_outside :
  wf sb f (disk_addrs sb f) →
  wf sb f' (disk_addrs sb f') ∧ ∀ n, inum sb n → let d := on_disk f sb n in
    file_ok f (di_addrs d) (di_size d) → file_ok f' (di_addrs d) (di_size d) ∧ idata f' sb n = idata f sb n.
Proof.
  intros W. destruct (wf_outside st sb G f (disk_addrs sb f) f' W) as [W' Kp].
  { intros n Hn. by apply E, (area_not_log st sb G). }
  { apply E. by apply (bitmap_range st sb G). }
  split.
  - eapply wf_ext; [|exact W']. intros n Hn. unfold disk_addrs. by rewrite on_disk_outside.
  - intros n Hn d K. destruct (Kp n (di_size d) Hn K) as [K' E']. split; [exact K'|]. unfold idata.
    rewrite on_disk_outside by done. exact E'.
Qed.
End outside.

Lemma rewrites_outside st sb f f1 f2 ino di data :
  geometry st sb → inum sb ino → (∀ n, ¬ in_log st n → f2 n = f1 n) →
  rewrites sb f f1 ino di data → rewrites sb f f2 ino di data.
Proof.
  intros G Hino E [R1 R2 R3 R4 R5 R6]. destruct (same_outside st sb G f1 f2 E R4) as [W' K].
  destruct (K ino Hino) as [K1 K2]; [by rewrite R1|]. rewrite R1 in K1.
  split; [by rewrite (on_disk_outside st sb G f1 f2)|by rewrite K2|done|done| |].
  - intros n Hn Hne. rewrite (on_disk_outside st sb G f1 f2) by done. by apply R5.
  - intros n Hn Hne d Kd. destruct (R6 n Hn Hne Kd) as [K3 K4]. specialize (K n Hn). cbv zeta in K. rewrite (R5 n Hn Hne) in K.
    destruct (K K3) as [K5 K6]. split; [exact K5|]. by rewrite K6.
Qed.

(** Contents that are the same block by block. *)
Section pointwise.
Context (sb : super_block) (f g : Z → list Z) (E : ∀ n, f n = g n).

Lemma file_ok_ext addrs size : file_ok f addrs size → file_ok g addrs size.
Proof. intros [K1 K2 K3]. split; [done|done|]. intros j H0 H1. destruct (K3 j H0 H1). split; [done|done|]. by rewrite (faddr_ext g f). Qed.

Lemma regular_ext ino : regular f sb ino → regular g sb ino.
Proof. intros [R1 R2 R3]. rewrite (on_disk_ext f g) in R1, R2, R3 by done. split; [done|done|by apply file_ok_ext]. Qed.

Lemma wf_disk_ext : wf sb f (disk_addrs sb f) → wf sb g (disk_addrs sb g).
Proof.
  intros W. eapply wf_ext; [|apply (wf_frame sb f _ W g); [by intros k; rewrite E|done]].
  intros n _. unfold disk_addrs. by rewrite (on_disk_ext f g).
Qed.
End pointwise.

Lemma rewrites_ext sb f g f' ino di data : (∀ n, f n = g n) → rewrites sb f f' ino di data → rewrites sb g f' ino di data.
Proof.
  intros E [R1 R2 R3 R4 R5 R6]. split; [done|done|done|done| |].
  - intros n Hn Hne. rewrite <-(on_disk_ext f g) by done. by apply R5.
  - intros n Hn Hne d Kd. subst d. rewrite <-(on_disk_ext f g), <-(idata_ext f g) in * by done. apply R6; [done|done|].
    by apply (file_ok_ext g f).
Qed.

(** ** The inode table after a write *)

Lemma itable_wsim t L s s' :
  itable_ok t L s → wsim s s' → (∀ x, x ∈ k_inodes s → live x → on_disk (seen s') (k_sb s) (i_ino x) = on_disk (seen s) (k_sb s) (i_ino x)) →
  itable_ok t L s'.
Proof.
  intros [T1 T2 T3 T4 T5] Q E. pose proof (wsim_k_inodes _ _ Q) as E1. pose proof (wsim_k_sb _ _ Q) as E2.
  split; rewrite <-?E1, <-?E2; [done| |done| |done].
  - apply Forall_forall. intros x Hx. pose proof (proj1 (Forall_forall _ _) T2 x Hx) as [I1 I2 I3 I4].
    split; [done|done|done|]. intros Lx Vx. rewrite E by done. by apply I4.
  - intros i Hi. rewrite <-(wsim_inode_lock _ _ Q). by apply T4.
Qed.

(** The entry of the inode written has its new contents. *)
Lemma itable_rewritten t st L bl H s s' i x y ino data :
  itable_ok t L s → op t st bl H s s' → k_inodes s !! i = Some x → k_inodes s' = <[i := y]> (k_inodes s) →
  live x → i_ino x = ino → live y → i_ino y = ino → i_dev y = ROOT_DEV → i_refcnt y = i_refcnt x →
  Forall (λ x, live x → inum (k_sb s) (i_ino x)) (k_inodes s) →
  rewrites (k_sb s) (seen s) (seen s') ino (dinode_of y) data → itable_ok t L s'.
Proof.
  intros Ht [_ _ _ _ _ Q] Hx E Lx Nx Ly Ny Dy Ry Hin Rw. pose proof Ht as [T1 T2 T3 T4 T5]. rewrite E in Q.
  pose proof (wsim_k_sb _ _ Q) as Esb. cbn [k_sb set_k_inodes] in Esb. pose proof (lookup_lt_Some _ _ _ Hx) as Hlt.
  pose proof (Forall_lookup_1 _ _ _ _ T2 Hx) as [I1 I2 I3 I4].
  split; rewrite <-?Esb, ?E; [by rewrite length_insert| | | |done].
  - apply Forall_lookup_2. intros j z Hz. apply (lookup_replaced _ i x y Hx) in Hz as [[-> ->]|[Hj Hz]].
    + split; [by rewrite Ry|done|intros _; rewrite Ny, <-Nx; by apply I3|]. intros _ _. rewrite Ny. symmetry. apply Rw.
    + pose proof (Forall_lookup_1 _ _ _ _ T2 Hz) as [J1 J2 J3 J4]. split; [done|done|done|]. intros Lz Vz.
      rewrite (rw_inodes _ _ _ _ _ _ Rw); [by apply J4|by apply (Forall_lookup_1 _ _ _ _ Hin Hz)|].
      intros En. apply Hj. eapply T3; [exact Hz|exact Hx|done|done|congruence].
  - apply (uniq_replace _ _ x); [done|done|]. intros _. left. split; [done|congruence].
  - intros j Hj. pose proof (wsim_inode_lock _ _ Q j) as El. cbn [k_slocks set_k_inodes] in El. rewrite <-El. by apply T4.
Qed.

(** ** Inside a transaction *)

Lemma wsim_k_files s s' : wsim s s' → k_files s = k_files s'.
Proof. intros H. exact (f_equal k_files H). Qed.
Lemma isim_k_files s s' : isim s s' → k_files s = k_files s'.
Proof. intros H. exact (f_equal k_files H). Qed.

(** A transaction that began in state [s] and has listed the blocks [bl]; the
    inodes [L] are locked. *)
Record inside (t : task) (st : Z) (L : gset nat) (bl : list Z) (s s' : kstate) : Prop := {
  in_txn : txn t st bl ∅ s';
  in_out : lg_outstanding (k_log s') = 1;
  in_com : lg_committing (k_log s') = false;
  in_table : itable_ok t L s';
  in_disk : k_disk s' = k_disk s;
  in_dwrites : k_dwrites s' = k_dwrites s;
  in_mem : k_mem s' = k_mem s;
  in_free : k_free s' = k_free s;
  in_sb : k_sb s' = k_sb s;
  in_names : names_kept s s';
  in_refs : ∀ n, iref (k_inodes s') n = iref (k_inodes s) n;
}.

Lemma geometry_log st sb : geometry st sb → log_area st.
Proof. intros [G1 G2 G3]. unfold log_area, LOG_SIZE in *. lia. Qed.

Lemma inums_refs sb l l' :
  Forall (λ x, live x → inum sb (i_ino x)) l → (∀ n, iref l' n = iref l n) →
  Forall (λ x, live x → inum sb (i_ino x)) l'.
Proof.
  intros H E. apply Forall_lookup_2. intros i x Hx Lx.
  assert (0 < iref l (i_ino x)) as Hp by (rewrite <-E; apply iref_pos; by exists i, x).
  apply iref_pos in Hp as (j & y & Hy & Ly & <-). by apply (Forall_lookup_1 _ _ _ _ H Hy).
Qed.

Lemma begun_le off n k : 0 ≤ n ≤ k * BLOCK_SIZE → 0 ≤ begun off n ≤ k + 1.
Proof. intros H. unfold begun, BLOCK_SIZE in *. Z.to_euclidean_division_equations. lia. Qed.

Section inside.
Context `{DV : Device} `{RN : Rounds} (R : env) `{DK : !Disk R} (t : task) (FL : fs_locks t) (IL : inode_locks_of t).
Context (Hrounds : (1 < rounds)%nat) (st : Z).

Lemma begin_inside s :
  fs_rest t st s →
  eruns R begin_op s (λ _ s', inside t st ∅ [] s s' ∧ (∀ n, seen s' n = block (k_disk s) n) ∧ k_files s' = k_files s).
Proof.
  intros [Hq Ht Hin G W]. eapply eruns_conseq; [by eapply begin_op_spec|].
  intros [] s' (A1 & A2 & A3 & A4 & A5 & A6 & Q). pose proof (wsim_k_inodes _ _ Q) as Ei.
  split_and!; [|intros n; rewrite A4; by eapply seen_clean, Hq|symmetry; by apply wsim_k_files].
  split; try done.
  - eapply itable_wsim; [done|done|]. intros x _ _. unfold on_disk. by rewrite A4.
  - symmetry. by apply wsim_k_mem.
  - symmetry. by apply wsim_k_free.
  - symmetry. by apply wsim_k_sb.
  - intros j m Hj. unfold names in *. by rewrite <-Ei.
  - intros n. by rewrite <-Ei.
Qed.

(** Operations on the inode table keep the transaction. *)
Lemma inside_istays L L' bl s s1 s2 :
  inside t st L bl s s1 → istays t (list_to_set bl) s1 s2 → itable_ok t L' s2 →
  (∀ n, iref (k_inodes s2) n = iref (k_inodes s1) n) → names_kept s1 s2 → inside t st L' bl s s2.
Proof.
  intros [[X1 X2 X3 X4 X5] A2 A3 A4 A5 A6 A7 A8 A9 A10 A11] (F & V & Q) T E Nk.
  pose proof (isim_k_log _ _ Q) as El. split; rewrite <-?El, <-?(isim_k_disk _ _ Q), <-?(isim_k_dwrites _ _ Q), <-?(isim_k_mem _ _ Q),
    <-?(isim_k_free _ _ Q), <-?(isim_k_sb _ _ Q); try done.
  - split; rewrite <-?El; done.
  - intros j m Hj. by apply Nk, A10.
  - intros n. by rewrite E.
Qed.

Lemma ilock_inside L bl s s1 i ino :
  inside t st L bl s s1 → names s1 i ino → i ∉ L → di_type (on_disk (seen s1) (k_sb s1) ino) ≠ 0 →
  eruns R (ilock i) s1 (λ _ s2, inside t st ({[i]} ∪ L) bl s s2 ∧ (∀ n, seen s2 n = seen s1 n) ∧ k_files s2 = k_files s1 ∧ locked s2 i ino).
Proof.
  intros Hin Hn HL Hty. pose proof (size_homes (tx_homes _ _ _ _ _ (in_txn _ _ _ _ _ _ Hin))) as Hsz.
  eapply eruns_conseq; [by eapply (ilock_spec R t FL IL Hrounds (list_to_set bl) Hsz); [apply Hin|apply Hin|..]|].
  intros [] s2 (A1 & A2 & A3 & A4 & A5). pose proof A1 as (_ & V & Q). split_and!; [by eapply inside_istays|done|symmetry; by apply isim_k_files|done].
Qed.

Lemma iunlock_inside L bl s s1 i ino :
  inside t st L bl s s1 → names s1 i ino → i ∈ L →
  runs (iunlock i) s1 (λ _ s2, inside t st (L ∖ {[i]}) bl s s2 ∧ (∀ n, seen s2 n = seen s1 n) ∧ k_files s2 = k_files s1).
Proof.
  intros Hin Hn HL. eapply runs_conseq; [by eapply (iunlock_spec t IL (list_to_set bl)); [apply Hin|apply Hin|..]|].
  intros [] s2 (A1 & A2 & A3). pose proof A1 as (_ & V & Q). split_and!; [|done|symmetry; by apply isim_k_files].
  eapply inside_istays; [done|done|done|by rewrite A3|]. intros j m Hj. unfold names in *. by rewrite A3.
Qed.

Lemma files_inside L bl s s1 v : inside t st L bl s s1 → inside t st L bl s (set_k_files v s1).
Proof.
  intros [[X1 X2 X3 X4 X5] A2 A3 [T1 T2 T3 T4 T5] A5 A6 A7 A8 A9 A10 A11]. split; try done.
  split; try done. destruct X1 as [Y1 Y2 Y3]. split; [by eapply on_cpu_sim|done|done].
Qed.

Lemma op_start L bl s s1 : inside t st L bl s s1 → op t st bl ∅ s1 s1.
Proof. intros H. split; [apply H|done..|by destruct s1]. Qed.

(** An inode that is locked has been rewritten. *)
Lemma rewritten_inside L bl bl' s s1 s2 i x y ino data :
  inside t st L bl s s1 → op t st bl' ∅ s1 s2 → Forall (λ x, live x → inum (k_sb s1) (i_ino x)) (k_inodes s1) →
  k_inodes s1 !! i = Some x → live x → i_ino x = ino → i_dev x = ROOT_DEV → k_inodes s2 = <[i := y]> (k_inodes s1) →
  i_ino y = i_ino x → i_dev y = i_dev x → i_refcnt y = i_refcnt x →
  rewrites (k_sb s1) (seen s1) (seen s2) ino (dinode_of y) data → inside t st L bl' s s2 ∧ k_files s2 = k_files s1.
Proof.
  intros Hi O Hin Hx Lx Nx Dx E Ny Dy Ry Rw. assert (live y) as Ly by (unfold live in *; by rewrite Ry).
  assert (itable_ok t L s2) as T2 by (eapply itable_rewritten; [apply Hi|done|done|done|done|done|done|congruence..|done]).
  destruct Hi as [_ A2 A3 A4 A5 A6 A7 A8 A9 A10 A11]. destruct O as [X O1 O2 O3 O4 Q]. split; [|symmetry; exact (wsim_k_files _ _ Q)].
  split; [done|by rewrite O1|by rewrite O2|done|by rewrite O3|by rewrite O4| | | | |].
  - rewrite <-A7. symmetry. exact (wsim_k_mem _ _ Q).
  - rewrite <-A8. symmetry. exact (wsim_k_free _ _ Q).
  - rewrite <-A9. symmetry. exact (wsim_k_sb _ _ Q).
  - intros j m Hj%A10. by eapply (names_replace s1 s2 i x y).
  - intros m. rewrite <-A11, E. rewrite (iref_replace _ i x y (it_uniq _ _ _ A4) Hx) by (rewrite <-E; apply T2).
    repeat case_decide; try done; [|naive_solver congruence]. destruct H as [_ <-]. rewrite Ny, Ry. symmetry.
    by eapply iref_live; [apply A4|..].
Qed.

(** [writei] of bytes that fit a transaction. *)
Lemma writei_inside L bl s s1 i ino off src bytes I :
  let d := on_disk (seen s1) (k_sb s1) ino in let n := Z.of_nat (length bytes) in
  inside t st L bl s s1 → geometry st (k_sb s1) → Forall (λ x, live x → inum (k_sb s1) (i_ino x)) (k_inodes s1) →
  wf (k_sb s1) (seen s1) (disk_addrs (k_sb s1) (seen s1)) → locked s1 i ino → regular (seen s1) (k_sb s1) ino →
  0 ≤ off ≤ di_size d → off + n ≤ MAX_BLOCKS * BLOCK_SIZE →
  (length bl + Z.to_nat (begun off n) + 12 ≤ N_BUF)%nat → (2 * Z.to_nat (begun off n) ≤ free_blocks (k_sb s1) (seen s1))%nat →
  supplies t true src [] bytes I → 0 ≤ src < 2 ^ 64 → I s1 →
  eruns R (writei i true src [] off n) s1 (λ r s2, r = n ∧ ∃ bl' addrs,
    inside t st L bl' s s2 ∧ k_files s2 = k_files s1 ∧
    rewrites (k_sb s1) (seen s1) (seen s2) ino (resized (Z.max (di_size d) (off + n)) addrs d) (splice off bytes (idata (seen s1) (k_sb s1) ino)) ∧
    (length bl' ≤ length bl + 5 + Z.to_nat (begun off n))%nat).
Proof.
  intros d n Hi G Hin W (x & Hx & Lx & Nx & Vx & Dx & Ex) [Ty Od Of] Hoff Hend Hbl Hfree Hsup Hsrc HI.
  pose proof (Forall_lookup_1 _ _ _ _ Hin Hx Lx) as Hino. rewrite Nx in Hino.
  assert (di_addrs d = i_addrs x ∧ di_size d = i_size x) as [Ea Es] by (unfold d; by rewrite <-Ex). rewrite Es in Hoff.
  eapply eruns_conseq; [eapply (writei_spec R t FL Hrounds st s1 (k_sb s1) G eq_refl ino Hino i x s1 bl (disk_addrs (k_sb s1) (seen s1)) off bytes);
    try done|].
  - split; [by eapply op_start|done|done|by unfold disk_addrs; rewrite <-Ea|done].
  - by rewrite <-Ea, <-Es.
  - by rewrite Ex.
  - intros r s2 (-> & bl' & addrs & O & E & Rw & Hlen). split; [done|]. exists bl', addrs.
    eapply rewritten_inside in Rw as K; [|done..]. destruct K. fold n in Hlen, Rw. split_and!; [done|done| |lia].
    rewrite Es. unfold resized, d. by rewrite <-Ex.
Qed.

(** The end of a transaction that leaves the file system well formed. *)
Lemma end_inside bl s s1 :
  fs_rest t st s → inside t st ∅ bl s s1 → wf (k_sb s) (seen s1) (disk_addrs (k_sb s) (seen s1)) →
  eruns R end_op s1 (λ _ s2, fs_rest t st s2 ∧ outside st (seen s1) (k_disk s2) ∧ k_files s2 = k_files s1 ∧
    k_sb s2 = k_sb s ∧ k_mem s2 = k_mem s ∧ k_free s2 = k_free s ∧ names_kept s s2 ∧ (∀ n, refs s2 n = refs s n) ∧
    ∃ W, k_dwrites s2 = reverse W ++ k_dwrites s ∧ cut_short st (block (k_disk s)) (seen s1) W (k_disk s)).
Proof.
  intros [Hq _ Hin G _] [A1 A2 A3 A4 A5 A6 A7 A8 A9 A10 A11] W.
  eapply eruns_conseq; [eapply (end_op_spec R t FL Hrounds st (geometry_log st _ G) bl s1 A1 A2 A3)|].
  { rewrite A5. apply Hq. }
  intros [] s2 (Q2 & Ho & Ws & HW). pose proof (wsim_k_inodes _ _ Ws) as Ei. pose proof (wsim_k_sb _ _ Ws) as Es.
  pose proof (wsim_k_mem _ _ Ws) as Em. pose proof (wsim_k_files _ _ Ws) as Ef. rewrite A9 in Es. rewrite A7 in Em.
  pose proof (wsim_k_free _ _ Ws) as Efr. rewrite A8 in Efr.
  assert (∀ n, refs s2 n = refs s n) as Er by (intros n; by rewrite <-Ei).
  assert (∀ n, inum (k_sb s) n → on_disk (seen s2) (k_sb s) n = on_disk (seen s1) (k_sb s) n) as Ed.
  { intros n. apply (on_disk_outside st _ G). intros m Hm. rewrite (seen_clean t s2 m) by apply Q2. by apply Ho. }
  assert (Forall (λ x, live x → inum (k_sb s) (i_ino x)) (k_inodes s2)) as Hin2 by by eapply inums_refs.
  split_and!; [|done|done|done|done|done|intros j m Hj%A10; unfold names in *; by rewrite <-Ei|done|by rewrite A5, A6 in HW; rewrite A5].
  split; rewrite <-?Es; [done| |done|done|].
  - eapply itable_wsim; [done|done|]. rewrite A9. intros x Hx Lx. apply Ed. rewrite Ei in Hx. by apply (proj1 (Forall_forall _ _) Hin2).
  - by apply (same_outside st _ G (seen s1) _ Ho).
Qed.

(** [file_write] of an inode *)

(** What the call leaves in state [s'], and what a crash leaves. *)
Definition written (s : kstate) (fd : nat) (x : file) (ino off n : Z) (data : list Z) (s' : kstate) : Prop :=
  fs_rest t st s' ∧ k_files s' = <[fd := set_f_off (off + n) x]> (k_files s) ∧
  k_sb s' = k_sb s ∧ k_mem s' = k_mem s ∧ k_free s' = k_free s ∧ names_kept s s' ∧ (∀ m, refs s' m = refs s m) ∧
  let d := on_disk (block (k_disk s)) (k_sb s) ino in
  ∃ addrs W, let di := resized (Z.max (di_size d) (off + n)) addrs d in
    rewrites (k_sb s) (block (k_disk s)) (block (k_disk s')) ino di data ∧
    k_dwrites s' = reverse W ++ k_dwrites s ∧
    ∀ W' rest r, W = W' ++ rest →
      fs_ok t ∅ ∅ r → log_set st (k_log r) → k_disk r = apply_writes W' (k_disk s) →
      eruns R recover_from_log r (λ _ r', outside st (block (k_disk s)) (k_disk r') ∨
        rewrites (k_sb s) (block (k_disk s)) (block (k_disk r')) ino di data).

(** A transaction that rewrites an inode ends. *)
Lemma rewrites_committed s fd x ino off n addrs data s' g :
  let d := on_disk (block (k_disk s)) (k_sb s) ino in
  geometry st (k_sb s) → inum (k_sb s) ino →
  rewrites (k_sb s) (block (k_disk s)) g ino (resized (Z.max (di_size d) (off + n)) addrs d) data →
  fs_rest t st s' → k_files s' = <[fd := set_f_off (off + n) x]> (k_files s) →
  k_sb s' = k_sb s → k_mem s' = k_mem s → k_free s' = k_free s → names_kept s s' → (∀ m, refs s' m = refs s m) → outside st g (k_disk s') →
  (∃ W, k_dwrites s' = reverse W ++ k_dwrites s ∧ cut_short st (block (k_disk s)) g W (k_disk s)) →
  written s fd x ino off n data s'.
Proof.
  intros d G Hino Rw H1 H2 H3 H4 H5 H6 H7 Ho (W & EW & HW). unfold written. split_and!; try done. exists addrs, W.
  split_and!; [by eapply rewrites_outside|done|]. intros W' rest r E Hr Hl Ed.
  destruct (HW W' rest E) as [Hc|Hc]; rewrite <-Ed in Hc;
    (eapply eruns_conseq; [eapply (recover_result R t FL Hrounds st (geometry_log _ _ G) r); done|]);
    intros [] r' (_ & _ & Ho' & _); [by left|right; by eapply rewrites_outside].
Qed.

Lemma names_inum s i ino : fs_rest t st s → names s i ino → inum (k_sb s) ino.
Proof. intros [_ _ Hin _ _] (x & Hx & Lx & <-). by apply (Forall_lookup_1 _ _ _ _ Hin Hx). Qed.

Section write.
Context (s : kstate) (fd : nat) (x : file) (i : nat) (ino off n src : Z) (N : gmap Z nat).
Context (Hrest : fs_rest t st s) (Hopen : open_on s fd x i ino off) (Hreg : regular (block (k_disk s)) (k_sb s) ino).
Context (Hoff : 0 ≤ off ≤ di_size (on_disk (block (k_disk s)) (k_sb s) ino)).
Context (Hend : off + n ≤ MAX_BLOCKS * BLOCK_SIZE) (Hn : 0 < n ≤ 8 * BLOCK_SIZE).
Context (Hfree : (2 * Z.to_nat (begun off n) ≤ free_blocks (k_sb s) (block (k_disk s)))%nat).
Context (Hpt : pt_wf (k_mem s) N (t_pt t)) (Hsrc : 0 ≤ src) (Hmax : src + n ≤ MAX_VADDR).
Context (Hrd : ∀ va, src ≤ va < src + n → is_Some (uaddr ureadable (k_mem s) (t_pt t) va)).

Abbreviation bytes := (ubytes (k_mem s) (t_pt t) src n).
Abbreviation data := (splice off bytes (idata (block (k_disk s)) (k_sb s) ino)).

(** [writei] in the transaction. *)
Lemma write_call s2 :
  inside t st ({[i]} ∪ ∅) [] s s2 → (∀ m, block (k_disk s) m = seen s2 m) → locked s2 i ino →
  eruns R (writei i true src [] off n) s2 (λ r s3, r = n ∧ ∃ bl addrs, let d := on_disk (block (k_disk s)) (k_sb s) ino in
    inside t st ({[i]} ∪ ∅) bl s s3 ∧ k_files s3 = k_files s2 ∧
    rewrites (k_sb s) (block (k_disk s)) (seen s3) ino (resized (Z.max (di_size d) (off + n)) addrs d) data ∧
    (length bl ≤ 5 + Z.to_nat (begun off n))%nat).
Proof using All.
  intros I2 V L2. pose proof Hrest as [_ _ Hin G W]. pose proof (in_sb _ _ _ _ _ _ I2) as B2. pose proof (in_mem _ _ _ _ _ _ I2) as M2.
  pose proof (writei_inside ({[i]} ∪ ∅) [] s s2 i ino off src bytes (λ s, k_mem s = k_mem s2) I2) as K. rewrite B2 in K.
  rewrite length_ubytes, Z2Nat.id in K by lia.
  eapply eruns_conseq; [eapply K; [done| | |done|by eapply regular_ext| |done| | |by rewrite M2; eapply supplies_user; [|lia..|]| |done]|].
  - eapply inums_refs; [exact Hin|apply I2].
  - by eapply wf_disk_ext.
  - by rewrite <-(on_disk_ext _ _ _ _ V).
  - pose proof (begun_le off n 8 ltac:(lia)). unfold N_BUF. simpl. lia.
  - rewrite (free_blocks_ext _ (block (k_disk s))); [done|]. intros k. by rewrite V.
  - split; [done|]. change (2 ^ 64) with 18446744073709551616. addr_lia.
  - intros r s3 (-> & bl & addrs & I3 & F3 & Rw & Hlen). split; [done|]. exists bl, addrs. split_and!; [done|done| |done].
    rewrite (on_disk_ext _ _ _ _ V), (idata_ext _ _ _ _ V). by eapply rewrites_ext; [intros m; symmetry; apply V|].
Qed.

(** One transaction. *)
Lemma write_round {A} (k : Z → KM A) Q :
  (∀ s', written s fd x ino off n data s' → eruns R (k n) s' Q) →
  eruns R (begin_op;; ino ← file_inode fd; ilock ino;; y ← get_file fd;
    r ← writei ino true src [] (f_off y) n;
    when (0 <? r) (upd_file fd (set_f_off (u32 (f_off y + r))));; iunlock ino;; end_op;; k r) s Q.
Proof using All.
  intros Hk.
  pose proof Hopen as [O1 O2 O3 O4 O5]. pose proof Hrest as [_ _ Hin G W].
  estep. ecall (begin_inside s Hrest). intros [] s1 (I1 & V1 & F1). rewrite <-F1 in O1.
  estep. eapply eruns_runs, runs_ok; [eapply file_inode_eq; split; [exact O1|done|done|done|by apply (in_names _ _ _ _ _ _ I1)]|].
  pose proof (in_sb _ _ _ _ _ _ I1) as B1. pose proof (rg_type _ _ _ Hreg) as Hty.
  estep. ecall (ilock_inside ∅ [] s s1 i ino I1); [by apply (in_names _ _ _ _ _ _ I1)|set_solver|by rewrite B1, (on_disk_ext _ _ _ _ V1)|].
  intros [] s2 (I2 & V2 & F2 & L2). assert (∀ m, block (k_disk s) m = seen s2 m) as V by (intros m; by rewrite V2).
  estep. eapply eruns_runs, runs_ok; [apply get_file_eq; by rewrite F2|]. rewrite O4.
  estep. ecall (write_call s2 I2 V L2). intros r s3 (-> & bl & addrs & I3 & F3 & Rw & _).
  set (di := resized _ addrs _) in Rw.
  rewrite (proj2 (Z.ltb_lt _ _)) by lia. estep. cbn [when]. unfold upd_file. estep.
  set (s4 := set_k_files (alter _ _ _) s3).
  assert (inside t st ({[i]} ∪ ∅) bl s s4) as I4 by by apply files_inside.
  assert (k_files s4 = <[fd := set_f_off (off + n) x]> (k_files s)) as F4.
  { subst s4. cbn [k_files set_k_files]. rewrite F3, F2, F1, (wrap_small 32) by (assert (MAX_BLOCKS * BLOCK_SIZE < 2 ^ 32) by done; lia).
    rewrite F1 in O1. by apply alter_known. }
  estep. ecallr (iunlock_inside _ bl s s4 i ino I4); [by apply (in_names _ _ _ _ _ _ I4)|set_solver|]. intros [] s5 (I5 & V5 & F5).
  replace (({[i]} ∪ ∅) ∖ {[i]} : gset nat) with (∅ : gset nat) in I5 by set_solver.
  assert (rewrites (k_sb s) (block (k_disk s)) (seen s5) ino di data) as Rw5.
  { eapply (rewrites_outside st); [done|eapply names_inum; done|intros m _; by rewrite V5|exact Rw]. }
  estep. ecall (end_inside bl s s5 Hrest I5 (rw_wf _ _ _ _ _ _ Rw5)). intros [] s6 (P1 & P2 & P3 & P4 & P5 & P6 & P7 & P8 & P9).
  apply Hk. eapply rewrites_committed; [exact G|by eapply names_inum|exact Rw5|done|by rewrite P3, F5|done..].
Qed.

(** The first round of the loop writes all of the bytes. *)
Lemma file_write_inode_spec :
  eruns R (file_write_inode fd src n) s (λ r s', r = (if decide (n ≤ 3 * BLOCK_SIZE) then n else -1) ∧
    written s fd x ino off n data s').
Proof using All.
  unfold file_write_inode. change ((MAX_OP_BLKS - 1 - 1 - 2) / 2 * BLOCK_SIZE) with (3 * BLOCK_SIZE). cbv zeta. estep.
  eapply eruns_loop_next; [lia|]. rewrite (proj2 (Z.ltb_lt 0 n)), Z.sub_0_r by lia. cbv iota.
  apply write_round. intros s' Hs'. rewrite (wrap_small 64) by addr_lia. destruct (Z.ltb_spec (3 * BLOCK_SIZE) n).
  - rewrite (proj2 (Z.eqb_neq n _)) by lia. do 2 apply eruns_ret. rewrite decide_False by lia.
    by rewrite (proj2 (Z.eqb_neq 0 n)) by lia.
  - rewrite Z.eqb_refl. apply eruns_ret. rewrite decide_True by lia.
    eapply eruns_loop_exit; [lia|]. rewrite Z.add_0_l, Z.ltb_irrefl. do 2 estep. by rewrite Z.eqb_refl.
Qed.

Lemma file_write_spec :
  f_writable x = true →
  eruns R (file_write fd src n) s (λ r s', r = (if decide (n ≤ 3 * BLOCK_SIZE) then n else -1) ∧ written s fd x ino off n data s').
Proof using All.
  intros Hw. pose proof Hopen as [O1 O2 O3 O4 O5]. unfold file_write. estep. eapply eruns_runs, runs_ok; [by apply get_file_eq|].
  rewrite Hw, O2. change (FD_INODE =? FD_DEVICE) with false. rewrite Z.eqb_refl. apply file_write_inode_spec.
Qed.
End write.
End inside.

(** ** Outside of a transaction *)

(** Since state [s] nothing was written; the inodes [L] are locked. *)
Record undisturbed (t : task) (L : gset nat) (s s' : kstate) : Prop := {
  ud_fs : fs_ok t ∅ ∅ s';
  ud_log : k_log s' = k_log s;
  ud_disk : k_disk s' = k_disk s;
  ud_dwrites : k_dwrites s' = k_dwrites s;
  ud_sb : k_sb s' = k_sb s;
  ud_table : itable_ok t L s';
  ud_names : names_kept s s';
  ud_refs : ∀ n, refs s' n = refs s n;
}.

Lemma no_pins : (size (∅ : gset Z) < N_BUF)%nat.
Proof. rewrite size_empty. unfold N_BUF. lia. Qed.

Lemma length_idata t st s ino :
  fs_rest t st s → regular (block (k_disk s)) (k_sb s) ino →
  Z.of_nat (length (idata (block (k_disk s)) (k_sb s) ino)) = di_size (on_disk (block (k_disk s)) (k_sb s) ino).
Proof.
  intros Hrest [_ _ [_ Hs _]]. unfold idata. rewrite length_fdata; [lia| |lia].
  intros k. rewrite <-(seen_clean t s k) by apply Hrest. by eapply length_seen, Hrest.
Qed.

Section undisturbed.
Context `{DV : Device} `{RN : Rounds} (R : env) `{DK : !Disk R} (t : task) (FL : fs_locks t) (IL : inode_locks_of t).
Context (Hrounds : (1 < rounds)%nat) (st : Z).

Lemma undisturbed_refl s : fs_rest t st s → undisturbed t ∅ s s.
Proof. intros [Q1 Q2 Q3 Q4 Q5]. split; try done; [apply Q1|by intros j m]. Qed.

Lemma undisturbed_rest s s' : fs_rest t st s → undisturbed t ∅ s s' → fs_rest t st s'.
Proof.
  intros [[Q1 Q2 Q3 Q4 Q5 Q6] T I G W] [A1 A2 A3 A4 A5 A6 A7 A8]. split; rewrite ?A5, ?A3; [|done| |done|done].
  - split; rewrite ?A2, ?A3; done.
  - by eapply inums_refs.
Qed.

Lemma undisturbed_istays L L' s s1 s2 :
  undisturbed t L s s1 → istays t ∅ s1 s2 → itable_ok t L' s2 → (∀ n, refs s2 n = refs s1 n) → names_kept s1 s2 →
  undisturbed t L' s s2.
Proof.
  intros [A1 A2 A3 A4 A5 A6 A7 A8] (F & V & Q) T E Nk.
  split; rewrite <-?(isim_k_log _ _ Q), <-?(isim_k_disk _ _ Q), <-?(isim_k_dwrites _ _ Q), <-?(isim_k_sb _ _ Q); try done.
  - intros j m Hj. by apply Nk, A7.
  - intros n. by rewrite E.
Qed.

Lemma undisturbed_mem L s s1 s2 : undisturbed t L s s1 → stays_mem t ∅ s1 s2 → undisturbed t L s s2 ∧ k_files s2 = k_files s1.
Proof.
  intros [A1 A2 A3 A4 A5 A6 A7 A8] (F & V & Q). pose proof (rsim_k_inodes _ _ Q) as Ei. cbn [k_inodes set_k_mem] in Ei.
  split; [|symmetry; exact (wsim_k_files _ _ (rsim_wsim _ _ Q))].
  split; [done|rewrite <-A2|rewrite <-A3|rewrite <-A4|rewrite <-A5| | |by intros n; rewrite <-Ei].
  - symmetry. exact (rsim_k_log _ _ Q).
  - symmetry. exact (rsim_k_disk _ _ Q).
  - symmetry. exact (rsim_k_dwrites _ _ Q).
  - symmetry. exact (rsim_k_sb _ _ Q).
  - eapply itable_wsim; [|exact (rsim_wsim _ _ Q)|].
    + destruct A6. by split.
    + intros x _ _. cbn [k_sb set_k_mem]. apply on_disk_ext. intros n. by rewrite V.
  - intros j m Hj%A7. unfold names in *. by rewrite <-Ei.
Qed.

Lemma undisturbed_files L s s1 v : undisturbed t L s s1 → undisturbed t L s (set_k_files v s1).
Proof.
  intros [[Y1 Y2 Y3] A2 A3 A4 A5 [T1 T2 T3 T4 T5] A7 A8]. split; try done. split; [by eapply on_cpu_sim|done|done].
Qed.

Lemma ilock_undisturbed L s s1 i ino :
  undisturbed t L s s1 → names s1 i ino → i ∉ L → di_type (on_disk (block (k_disk s)) (k_sb s) ino) ≠ 0 →
  eruns R (ilock i) s1 (λ _ s2, undisturbed t ({[i]} ∪ L) s s2 ∧ k_mem s2 = k_mem s1 ∧ k_free s2 = k_free s1 ∧
    k_files s2 = k_files s1 ∧ locked s2 i ino).
Proof.
  intros U1 Hn HL Hty. eapply eruns_conseq; [eapply (ilock_spec R t FL IL Hrounds ∅ no_pins); [apply U1|apply U1|done|done|]|].
  { rewrite (ud_sb _ _ _ _ U1). erewrite on_disk_ext; [exact Hty|]. intros k. rewrite (seen_clean t s1 k) by apply U1. by rewrite (ud_disk _ _ _ _ U1). }
  intros [] s2 (A1 & A2 & A3 & A4 & A5). pose proof A1 as (_ & V & Q).
  split_and!; [by eapply undisturbed_istays|symmetry; by apply isim_k_mem|symmetry; by apply isim_k_free|symmetry; by apply isim_k_files|done].
Qed.

Lemma iunlock_undisturbed L s s1 i ino :
  undisturbed t L s s1 → names s1 i ino → i ∈ L →
  runs (iunlock i) s1 (λ _ s2, undisturbed t (L ∖ {[i]}) s s2 ∧ k_mem s2 = k_mem s1 ∧ k_free s2 = k_free s1 ∧ k_files s2 = k_files s1).
Proof.
  intros U1 Hn HL. eapply runs_conseq; [by eapply (iunlock_spec t IL ∅); [apply U1|apply U1|..]|].
  intros [] s2 (A1 & A2 & A3). pose proof A1 as (_ & V & Q).
  split_and!; [|symmetry; by apply isim_k_mem|symmetry; by apply isim_k_free|symmetry; by apply isim_k_files].
  eapply undisturbed_istays; [done|done|done|by rewrite A3|]. intros j k Hj. unfold names in *. by rewrite A3.
Qed.

Section read.
Context (s : kstate) (fd : nat) (x : file) (i : nat) (ino off n dst : Z) (fl : list Z) (N : gmap Z nat).
Context (Hrest : fs_rest t st s) (Hopen : open_on s fd x i ino off) (Hreg : regular (block (k_disk s)) (k_sb s) ino).
Abbreviation size := (di_size (on_disk (block (k_disk s)) (k_sb s) ino)).
Abbreviation m := (Z.min n (size - off)).
Abbreviation bytes := (slice off m (idata (block (k_disk s)) (k_sb s) ino)).
Context (Hoff : 0 ≤ off ≤ size) (Hn : 0 ≤ n) (Hdst : 0 ≤ dst) (Hmax : dst + n ≤ MAX_VADDR).
Context (HF : LFreeList ∈ t_locks t) (Hu : umem t fl N s) (Hb : Forall (λ b, 0 ≤ b < 256) bytes).
Context (Hw : ∀ va, dst ≤ va < dst + m → is_Some (uaddr uwritable (k_mem s) (t_pt t) va)).

Lemma length_bytes : Z.of_nat (length bytes) = m.
Proof using All.
  pose proof (fk_size _ _ _ (rg_file _ _ _ Hreg)). apply length_slice; [lia|lia|]. rewrite (length_idata t st) by done. lia.
Qed.

(** [readi] of the locked inode. *)
Lemma read_call s1 :
  undisturbed t ({[i]} ∪ ∅) s s1 → k_mem s1 = k_mem s → k_free s1 = k_free s → locked s1 i ino →
  eruns R (readi i true dst off n) s1 (λ r s2, r = (m, []) ∧ undisturbed t ({[i]} ∪ ∅) s s2 ∧ k_files s2 = k_files s1 ∧
    arrived t fl N (k_mem s) dst bytes m s2).
Proof using All.
  intros U1 M1 F1 (y & Hy & Ly & Ny & Vy & Dy & Ey). destruct Hreg as [Ty Od Of].
  assert (∀ k, block (k_disk s) k = seen s1 k) as V.
  { intros k. rewrite (seen_clean t s1 k) by apply U1. by rewrite (ud_disk _ _ _ _ U1). }
  rewrite (ud_sb _ _ _ _ U1), <-(on_disk_ext _ _ _ _ V) in Ey.
  assert (i_addrs y = di_addrs (on_disk (block (k_disk s)) (k_sb s) ino) ∧ i_size y = size) as [Ea Es] by (by rewrite <-Ey).
  assert (fdata (seen s1) (i_addrs y) (i_size y) = idata (block (k_disk s)) (k_sb s) ino) as Ed.
  { rewrite (idata_ext _ _ _ _ V). unfold idata. by rewrite <-(on_disk_ext _ _ _ _ V), Ea, Es. }
  pose proof (readi_spec R t FL Hrounds ∅ no_pins s1 i y true dst off n (arrived t fl N (k_mem s) dst bytes)) as K.
  cbv zeta in K. rewrite Ed, Es in K. assert (off + n < 2 ^ 64 ∧ dst + n < 2 ^ 64) as [Ho Hd] by (change (2 ^ 64) with 18446744073709551616;
    pose proof (fk_size _ _ _ Of); unfold MAX_BLOCKS, N_DIRECT, N_INDIRECT, APB, BLOCK_SIZE in *; addr_lia).
  eapply eruns_conseq; [apply K; try done|].
  - apply U1.
  - rewrite Ea. by eapply file_ok_ext.
  - apply delivers_user; [done|done| |done|].
    + rewrite length_bytes. lia.
    + by rewrite length_bytes.
  - eapply arrived_ext; [done|done|]. split_and!; [done|done|]. intros va w Hva Hv Hpu. by rewrite decide_False by lia.
  - intros r s2 (-> & S2 & A2). destruct (undisturbed_mem _ _ _ _ U1 S2) as [U2 F2]. done.
Qed.

(** [file_read] of an inode. *)
Lemma file_read_spec :
  f_readable x = true →
  eruns R (file_read fd dst n) s (λ r s', r = m ∧ fs_rest t st s' ∧
    k_files s' = (if decide (0 < m) then <[fd := set_f_off (off + m) x]> (k_files s) else k_files s) ∧
    k_disk s' = k_disk s ∧ k_sb s' = k_sb s ∧ k_dwrites s' = k_dwrites s ∧ names_kept s s' ∧ (∀ j, refs s' j = refs s j) ∧
    arrived t fl N (k_mem s) dst bytes m s').
Proof using All.
  intros Hr. pose proof Hopen as [O1 O2 O3 O4 O5]. unfold file_read. estep. eapply eruns_runs, runs_ok; [by apply get_file_eq|].
  rewrite Hr, O2. change (FD_INODE =? FD_DEVICE) with false. rewrite Z.eqb_refl. cbv iota. cbn [negb].
  estep. eapply eruns_runs, runs_ok; [by eapply file_inode_eq|].
  estep. ecall (ilock_undisturbed ∅ s s i ino (undisturbed_refl s Hrest) O5 ltac:(set_solver)); [apply Hreg|].
  intros [] s1 (U1 & M1 & F1 & K1 & L1).
  estep. eapply eruns_runs, runs_ok; [apply get_file_eq; by rewrite K1|]. rewrite O4.
  estep. ecall (read_call s1 U1 M1 F1 L1). intros r s2 (-> & U2 & F2 & A2).
  assert (off + m < 2 ^ 32) as Hfit.
  { destruct Hreg as [_ _ [_ Hs _]]. assert (MAX_BLOCKS * BLOCK_SIZE < 2 ^ 32) by done. lia. }
  set (fs := if decide (0 < m) then <[fd := set_f_off (off + m) x]> (k_files s) else k_files s).
  estep. ecallr (advance_spec s2 fd x off m); [by rewrite F2, K1|done|apply Hoff|]. rewrite F2, K1. intros [] s3 ->.
  change (if decide (0 < m) then _ else k_files s) with fs. apply (undisturbed_files _ _ _ fs) in U2.
  estep. ecallr (iunlock_undisturbed _ s _ i ino U2); [by apply (ud_names _ _ _ _ U2)|set_solver|]. intros [] s4 (U4 & M4 & F4 & K4).
  replace (({[i]} ∪ ∅) ∖ {[i]} : gset nat) with (∅ : gset nat) in U4 by set_solver.
  estep. split_and!; [done|by eapply undisturbed_rest|done|apply U4..|]. by eapply arrived_ext; [..|exact A2].
Qed.
End read.
End undisturbed.

(** ** The theorems *)

(** The bytes just written are read. *)
Lemma slice_splice off bytes data :
  0 ≤ off ≤ Z.of_nat (length data) → slice off (Z.of_nat (length bytes)) (splice off bytes data) = bytes.
Proof.
  intros H. unfold slice, splice. rewrite drop_app_length', Nat2Z.id, take_app_length; [done|]. rewrite length_take. lia.
Qed.

Lemma user_seen t m va n k :
  0 ≤ n → (∀ a, va ≤ a < va + n → ubyte m (t_pt t) a = default 0 (k !! Z.to_nat (a - va))) → length k = Z.to_nat n →
  ubytes m (t_pt t) va n = k.
Proof.
  intros Hn H Hk. apply list_eq. intros p. unfold ubytes. rewrite list_lookup_fmap. destruct (decide (p < Z.to_nat n)%nat) as [Hp|Hp].
  - rewrite lookup_seqZ_lt by lia. simpl. rewrite H by lia. destruct (lookup_lt_is_Some_2 k p) as [b Hb]; [lia|].
    rewrite Hb. replace (Z.to_nat _) with p by lia. by rewrite Hb.
  - rewrite lookup_seqZ_ge, (proj2 (lookup_ge_None k p)) by lia. done.
Qed.

Lemma arrived_ubytes t fl N m dst bytes n s :
  Z.of_nat (length bytes) = n → 0 ≤ dst → (∀ a, dst ≤ a < dst + n → is_Some (uaddr uwritable m (t_pt t) a)) →
  arrived t fl N m dst bytes n s → ubytes (k_mem s) (t_pt t) dst n = bytes.
Proof.
  intros Hl Hd Hw (_ & _ & P). apply user_seen; [lia| |lia]. intros a Ha.
  destruct (uaddr_user uwritable m (t_pt t) a) as (w & Hw1 & Hw2).
  { intros v Hv. by apply andb_true_iff in Hv as [? _]. }
  { by apply Hw. }
  by rewrite (P a w), decide_True by (done || lia).
Qed.

Lemma regular_resized st sb f ino f' size addrs data :
  geometry st sb → inum sb ino → regular f sb ino → 0 ≤ size < 2 ^ 32 → rewrites sb f f' ino (resized size addrs (on_disk f sb ino)) data → regular f' sb ino.
Proof.
  intros G Hino [R1 [D1 D2 D3 D4 D5 D6 D7] R3] Hs [W1 W2 W3 W4 W5 W6]. split; rewrite W1; [done| |done].
  split; [done|done|done|done|done|apply W3|]. pose proof (wf_addrs st sb G f' _ ino W4 Hino) as Fa. unfold disk_addrs in Fa. by rewrite W1 in Fa.
Qed.

Section calls.
Context `{DV : Device} `{RN : Rounds} (R : env) `{DK : !Disk R} (t : task) (FL : fs_locks t) (IL : inode_locks_of t).
Context (Hrounds : (1 < rounds)%nat) (st : Z).

(** What the calls need of the state [s], of the file [fd] and of the memory. *)
Record callable (s : kstate) (fl : list Z) (N : gmap Z nat) (fd : nat) (x : file) (i : nat) (ino off : Z) : Prop := {
  ca_rest : fs_rest t st s;
  ca_umem : umem t fl N s;
  ca_open : open_on s fd x i ino off;
  ca_regular : regular (block (k_disk s)) (k_sb s) ino;
  ca_off : 0 ≤ off ≤ di_size (on_disk (block (k_disk s)) (k_sb s) ino);
}.

(** C3: a [file_write] of at most 3072 bytes of user memory to an open file
    returns the number of bytes. When it returns, the file on the disk has the
    bytes at its offset, the other inodes and files are what they were, no block
    has two owners, the log is empty and the file's offset has advanced. Whatever
    number of the call's disk writes arrive before a crash, recovery gives the
    disk of before the call or the file with all of the bytes. *)
Theorem file_write_atomic s fl N fd x i ino off src n :
  callable s fl N fd x i ino off → f_writable x = true → 0 < n ≤ 3 * BLOCK_SIZE → off + n ≤ MAX_BLOCKS * BLOCK_SIZE →
  (2 * Z.to_nat (begun off n) ≤ free_blocks (k_sb s) (block (k_disk s)))%nat → user_range ureadable t (k_mem s) src n →
  eruns R (file_write fd src n) s (λ r s', r = n ∧ written R t st s fd x ino off n
    (splice off (ubytes (k_mem s) (t_pt t) src n) (idata (block (k_disk s)) (k_sb s) ino)) s').
Proof.
  intros [C1 C2 C3 C4 C5] Hw Hn Hend Hfree (H0 & Hm & Hr).
  eapply eruns_conseq; [by apply (file_write_spec R t FL IL Hrounds st s fd x i ino off n src N); try done; [lia|apply C2]|].
  intros r s' [-> W]. by rewrite decide_True by lia.
Qed.

(** C33: a longer [file_write] (up to 8192 bytes) returns -1 although all of the
    bytes have been written to the file and its offset has advanced: the loop
    gives [writei] the whole range and takes its result for a short write. *)
Theorem file_write_too_long s fl N fd x i ino off src n :
  callable s fl N fd x i ino off → f_writable x = true → 3 * BLOCK_SIZE < n ≤ 8 * BLOCK_SIZE → off + n ≤ MAX_BLOCKS * BLOCK_SIZE →
  (2 * Z.to_nat (begun off n) ≤ free_blocks (k_sb s) (block (k_disk s)))%nat → user_range ureadable t (k_mem s) src n →
  eruns R (file_write fd src n) s (λ r s', r = -1 ∧ written R t st s fd x ino off n
    (splice off (ubytes (k_mem s) (t_pt t) src n) (idata (block (k_disk s)) (k_sb s) ino)) s').
Proof.
  intros [C1 C2 C3 C4 C5] Hw Hn Hend Hfree (H0 & Hm & Hr).
  eapply eruns_conseq; [by apply (file_write_spec R t FL IL Hrounds st s fd x i ino off n src N); try done; [lia|apply C2]|].
  intros r s' [-> W]. by rewrite decide_False by lia.
Qed.

(** C12: the bound that [file_write] puts on a transaction is right: a [writei] of
    at most 3072 bytes, wherever the offset is in its block, lists at most
    [MAX_OP_BLKS] blocks in the log, which is what [begin_op] reserves. *)
Theorem file_write_fits s fl N fd x i ino off src n :
  callable s fl N fd x i ino off → 0 < n ≤ 3 * BLOCK_SIZE → off + n ≤ MAX_BLOCKS * BLOCK_SIZE →
  (2 * Z.to_nat (begun off n) ≤ free_blocks (k_sb s) (block (k_disk s)))%nat → user_range ureadable t (k_mem s) src n →
  eruns R (begin_op;; ilock i;; writei i true src [] off n) s (λ r s', r = n ∧ 0 ≤ lh_n (k_log s') ≤ MAX_OP_BLKS).
Proof.
  intros [C1 C2 C3 C4 C5] Hn Hend Hfree (H0 & Hm & Hr). pose proof (oo_names _ _ _ _ _ _ C3) as Hnm.
  estep. ecall (begin_inside R t FL Hrounds st s C1). intros [] s1 (I1 & V1 & F1).
  pose proof (in_sb _ _ _ _ _ _ I1) as B1. pose proof (rg_type _ _ _ C4) as Hty.
  estep. ecall (ilock_inside R t FL IL Hrounds st ∅ [] s s1 i ino I1); [by apply (in_names _ _ _ _ _ _ I1)|set_solver|by rewrite B1, (on_disk_ext _ _ _ _ V1)|].
  intros [] s2 (I2 & V2 & F2 & L2). assert (∀ m, block (k_disk s) m = seen s2 m) as V by (intros m; by rewrite V2).
  eapply eruns_conseq; [by apply (write_call R t FL IL Hrounds st s fd x i ino off n src N); try done; [lia|apply C2]|].
  intros r s3 (-> & bl & addrs & I3 & _ & _ & Hlen). split; [done|]. pose proof (begun_le off n 3 ltac:(lia)).
  rewrite (lo_n _ _ _ (tx_log _ _ _ _ _ (in_txn _ _ _ _ _ _ I3))). unfold MAX_OP_BLKS. lia.
Qed.

(** C4: what [file_write] writes, [file_read] through another open file at the
    same offset reads: the user finds the bytes in the second buffer. *)
Theorem file_write_read s fl N fd x fd' x' i ino off src n dst :
  LFreeList ∈ t_locks t → callable s fl N fd x i ino off → f_writable x = true → 0 < n ≤ 3 * BLOCK_SIZE →
  off + n ≤ MAX_BLOCKS * BLOCK_SIZE →
  (2 * Z.to_nat (begun off n) ≤ free_blocks (k_sb s) (block (k_disk s)))%nat → user_range ureadable t (k_mem s) src n →
  fd' ≠ fd → open_on s fd' x' i ino off → f_readable x' = true → user_range uwritable t (k_mem s) dst n →
  eruns R (w ← file_write fd src n; r ← file_read fd' dst n; mret (w, r)) s (λ wr s', wr = (n, n) ∧ fs_rest t st s' ∧
    ubytes (k_mem s') (t_pt t) dst n = ubytes (k_mem s) (t_pt t) src n).
Proof.
  intros HF [C1 C2 C3 C4 C5] Hw Hn Hend Hfree (H0 & Hm & Hr) Hne Ho' Hr' (D0 & Dm & Dw).
  estep. ecall (file_write_spec R t FL IL Hrounds st s fd x i ino off n src N); try done; [lia|apply C2|].
  intros r s1 [-> Wr]. rewrite decide_True by lia. destruct Wr as (Q1 & Q2 & Q3 & Q4 & Q5 & Q6 & Q7 & addrs & W & Rw & _).
  pose proof (fr_geo _ _ _ C1) as G. pose proof (names_inum t st s i ino C1 (oo_names _ _ _ _ _ _ C3)) as Hino.
  assert (regular (block (k_disk s1)) (k_sb s1) ino) as Hreg.
  { rewrite Q3. eapply regular_resized; [done|done|done| |exact Rw]. assert (MAX_BLOCKS * BLOCK_SIZE < 2 ^ 32) by done.
    pose proof (fk_size _ _ _ (rg_file _ _ _ C4)). lia. }
  pose proof (rw_inode _ _ _ _ _ _ Rw) as Ei. pose proof (rw_data _ _ _ _ _ _ Rw) as Ed.
  assert (open_on s1 fd' x' i ino off) as Ho1.
  { destruct Ho' as [O1 O2 O3 O4 O5]. split; [by rewrite Q2, list_lookup_insert_ne|done|done|done|by apply Q6]. }
  pose proof (file_read_spec R t FL IL Hrounds st s1 fd' x' i ino off n dst fl N Q1 Ho1 Hreg) as K.
  rewrite Q3, Ei, Ed, Q4 in K. cbn [resized di_size] in K. rewrite (Z.min_l n) in K by lia.
  set (bytes := ubytes (k_mem s) (t_pt t) src n) in *. assert (Z.of_nat (length bytes) = n) as Hl by (unfold bytes; rewrite length_ubytes; lia).
  assert (slice off n (splice off bytes (idata (block (k_disk s)) (k_sb s) ino)) = bytes) as Es.
  { rewrite <-Hl at 1. apply slice_splice. rewrite (length_idata t st) by done. lia. }
  rewrite Es in K. estep. ecall K; [lia|lia|done|done|done|by eapply umem_ext; [..|exact C2]| |done|done|].
  { apply Forall_fmap, Forall_true. intros a. by eapply ubyte_byte. }
  intros r s2 (-> & P1 & _ & _ & _ & _ & _ & _ & P2). estep. split_and!; [done|done|].
  by eapply arrived_ubytes.
Qed.
End calls.
