(* ===== verification/AsmTheorems.v ===== *)
(** Traps from user space (kernel/trap/trap_vector.S and [user_trap_return] of
    kernel/trap/trap.c): what sequences of saves and loads do, the trap frame in
    the page table of a process, and that the registers of a user program survive
    a trap. *)

From S2P Require Import Prelude Mem State Machine Mm PageTable MmAlloc MmMap Proc Sync Virtio Buf Log Inode Pipe File Fork Exec Sysfile Trap Asm ProcTheorems Env.

(** ** Definitions *)

(** The [n] bytes at the virtual address [b] are the bytes at [p], for reading and
    for writing, and writing them does not change the translation. *)
Definition same_but (p n : Z) (m m' : memory) : Prop := ∀ a, ¬ (p ≤ a < p + n) → mget m' a = mget m a.

Record window (satp : Z) (m : memory) (b p n : Z) : Prop := {
  wi_range : 0 ≤ b ∧ b + n ≤ 2 ^ 64;
  wi_align : b mod 8 = 0;
  wi_phys : ∀ m' o need, need = PTE_R ∨ need = PTE_W → same_but p n m m' →
    0 ≤ o → o + 8 ≤ n → phys need satp m' (b + o) = Some (p + o);
}.

(** The registers have 64 bits. *)
Definition regs_ok (c : acore) : Prop := ∀ r, 0 ≤ c_regs c r < 2 ^ 64.

(** Registers saved to and loaded from places relative to a register. *)
Definition saves (rb : reg) (l : list (reg * Z)) : list instr := (λ x, Sd x.1 x.2 rb) <$> l.
Definition loads (rb : reg) (l : list (reg * Z)) : list instr := (λ x, Ld x.1 x.2 rb) <$> l.

Record places (n : Z) (l : list (reg * Z)) : Prop := {
  pl_in : Forall (λ x, 0 ≤ x.2 ∧ x.2 + 8 ≤ n ∧ x.2 mod 8 = 0) l;
  pl_regs : NoDup l.*1;
  pl_offs : NoDup l.*2;
}.

Definition stored (p : Z) (f : reg → Z) (l : list (reg * Z)) (m : memory) : memory :=
  foldl (λ m x, st64 m (p + x.2) (f x.1)) m l.
Definition loaded (p : Z) (m : memory) (l : list (reg * Z)) (c : acore) : acore :=
  foldl (λ c x, rset x.1 (ld64 m (p + x.2)) c) c l.

(** ** Sequences of saves and loads *)

Lemma same_but_trans p n m1 m2 m3 : same_but p n m1 m2 → same_but p n m2 m3 → same_but p n m1 m3.
Proof. intros H1 H2 a Ha. by rewrite H2, H1. Qed.

Lemma window_same satp m m' b p n : same_but p n m m' → window satp m b p n → window satp m' b p n.
Proof. intros H [W1 W2 W3]. split; [done|done|]. intros m2 o need Hn H2. apply W3; [done|by eapply same_but_trans]. Qed.

Lemma same_but_st64 p n m o v : 0 ≤ o → o + 8 ≤ n → same_but p n m (st64 m (p + o) v).
Proof. intros H0 H1 a Ha. apply mget_stn_out. lia. Qed.

Lemma access_window c b p n o need rb :
  window (c_satp c) (c_mem c) b p n → rget c rb = b → need = PTE_R ∨ need = PTE_W → 0 ≤ o → o + 8 ≤ n → o mod 8 = 0 →
  access need c (u64 (rget c rb + o)) = Some (p + o).
Proof.
  intros [W1 W2 W3] -> Hn H0 H1 H2. unfold access. rewrite (wrap_small 64) by lia.
  rewrite Zplus_mod, W2, H2. change ((0 + 0) mod 8 =? 0) with true. by apply W3.
Qed.

Lemma run_saves n rb b p l rest : ∀ c,
  window (c_satp c) (c_mem c) b p n → rget c rb = b → places n l →
  run (saves rb l ++ rest) c = run rest (set_c_mem (stored p (rget c) l (c_mem c)) c).
Proof.
  induction l as [|[r o] l IH]; intros c W Hb [P1 P2 P3]; [by destruct c|].
  apply Forall_cons in P1 as [(H0 & H1 & H2) P1]. apply NoDup_cons in P2 as [_ P2]. apply NoDup_cons in P3 as [_ P3]. cbn [fst snd] in *.
  change (saves rb ((r, o) :: l) ++ rest) with (Sd r o rb :: (saves rb l ++ rest)). cbn [run exec].
  rewrite (access_window c b p n) by (done || by right). cbn [mbind option_bind].
  rewrite IH; [done| |done|by split]. cbn [c_mem c_satp set_c_mem]. eapply window_same; [by apply same_but_st64|done].
Qed.

Lemma run_loads n rb b p l rest : ∀ c,
  window (c_satp c) (c_mem c) b p n → rget c rb = b → Forall (λ x, 0 ≤ x.2 ∧ x.2 + 8 ≤ n ∧ x.2 mod 8 = 0) l → rb ≠ X0 →
  Forall (λ x, x.1 = rb → ld64 (c_mem c) (p + x.2) = b) l →
  run (loads rb l ++ rest) c = run rest (loaded p (c_mem c) l c).
Proof.
  induction l as [|[r o] l IH]; intros c W Hb P1 Hrb Hl; [done|].
  apply Forall_cons in P1 as [(H0 & H1 & H2) P1]. apply Forall_cons in Hl as [Hl0 Hl]. cbn [fst snd] in *.
  change (loads rb ((r, o) :: l) ++ rest) with (Ld r o rb :: (loads rb l ++ rest)). cbn [run exec].
  rewrite (access_window c b p n) by (done || by left). cbn [mbind option_bind].
  rewrite IH; [done|done| |done|done|done]. clear IH. unfold rget in *. rewrite decide_False in Hb |- * by done.
  cbn [c_regs rset]. case_decide as D; [by apply Hl0|done].
Qed.

(** ** What has been stored and loaded *)

Lemma stored_cons p f r o l m : stored p f ((r, o) :: l) m = stored p f l (st64 m (p + o) (f r)).
Proof. done. Qed.
Lemma loaded_cons p m r o l c : loaded p m ((r, o) :: l) c = loaded p m l (rset r (ld64 m (p + o)) c).
Proof. done. Qed.

Lemma stored_same_but n p f l : ∀ m, Forall (λ x, 0 ≤ x.2 ∧ x.2 + 8 ≤ n ∧ x.2 mod 8 = 0) l → same_but p n m (stored p f l m).
Proof.
  induction l as [|[r o] l IH]; intros m P; [by intros a|]. apply Forall_cons in P as [(H0 & H1 & H2) P].
  eapply same_but_trans; [by apply (same_but_st64 p n m o (f r))|by apply IH].
Qed.

Lemma ld64_stored_out p f l o : ∀ m,
  o mod 8 = 0 → Forall (λ x, x.2 mod 8 = 0) l → o ∉ l.*2 → ld64 (stored p f l m) (p + o) = ld64 m (p + o).
Proof.
  induction l as [|[r o'] l IH]; intros m Ho P Hn; [done|]. apply Forall_cons in P as [H2 P]. cbn [fst snd fmap list_fmap] in *.
  rewrite not_elem_of_cons in Hn. destruct Hn as [Hne Hn]. 
  rewrite stored_cons, IH by done. apply ldn_stn_out. Z.to_euclidean_division_equations. lia.
Qed.

Lemma ld64_stored n p f l r o m :
  places n l → (r, o) ∈ l → 0 ≤ f r < 2 ^ 64 → ld64 (stored p f l m) (p + o) = f r.
Proof.
  revert m. induction l as [|[r' o'] l IH]; intros m [P1 P2 P3] Hin Hf; [by apply not_elem_of_nil in Hin|].
  apply Forall_cons in P1 as [(H0 & H1 & H2) P1]. apply NoDup_cons in P2 as [_ P2]. apply NoDup_cons in P3 as [N3 P3]. cbn [fst snd] in *.
  apply elem_of_cons in Hin as [[= -> ->]|Hin]; [|apply IH; [by split|done|done]].
  rewrite stored_cons, ld64_stored_out; [by apply (ldn_stn 8)|done| |done]. eapply Forall_impl; [exact P1|]. tauto.
Qed.

Lemma loaded_out p m l r : ∀ c, r ∉ l.*1 → c_regs (loaded p m l c) r = c_regs c r.
Proof.
  induction l as [|[r' o] l IH]; intros c Hn; [done|]. cbn [fmap list_fmap fst] in Hn. rewrite not_elem_of_cons in Hn. destruct Hn as [Hne Hn].
  rewrite loaded_cons, IH by done. cbn [rset c_regs]. by rewrite decide_False.
Qed.

Lemma loaded_in p m l r o : ∀ c, NoDup l.*1 → (r, o) ∈ l → c_regs (loaded p m l c) r = ld64 m (p + o).
Proof.
  induction l as [|[r' o'] l IH]; intros c P Hin; [by apply not_elem_of_nil in Hin|]. apply NoDup_cons in P as [N P]. cbn [fst] in *.
  rewrite loaded_cons. apply elem_of_cons in Hin as [[= -> ->]|Hin].
  - rewrite loaded_out by done. cbn [rset c_regs]. by rewrite decide_True.
  - by apply IH.
Qed.

Lemma loaded_rest p m l : ∀ c, c_mem (loaded p m l c) = c_mem c ∧ c_satp (loaded p m l c) = c_satp c ∧ c_sscratch (loaded p m l c) = c_sscratch c.
Proof. induction l as [|[r o] l IH]; intros c; [done|]. rewrite loaded_cons. apply (IH (rset r _ c)). Qed.

Ltac places_tac := split; apply (bool_decide_unpack _); vm_compute; exact I.

(** ** Traps from user space *)

(** The registers that [user_trap_vector] saves while [a0] has the address of the
    frame. *)
Definition user_regs : list reg :=
  [Ra; Sp; Gp; Tp; T0; T1; T2; S0; S1; A1; A2; A3; A4; A5; A6; A7; S2; S3; S4; S5; S6; S7; S8; S9; S10; S11; T3; T4; T5; T6].
Definition user_saved : list (reg * Z) := (λ r, (r, trap_frame r)) <$> user_regs.

Lemma user_regs_all r : r ≠ X0 → r ≠ A0 → r ∈ user_regs.
Proof. intros H1 H2. destruct r; try done; apply (bool_decide_unpack _); vm_compute; exact I. Qed.

Lemma user_saved_in r : r ≠ X0 → r ≠ A0 → (r, trap_frame r) ∈ user_saved.
Proof. intros H1 H2. apply (list_elem_of_fmap_2 (λ r, (r, trap_frame r))). by apply user_regs_all. Qed.

Lemma user_saved_places : places 288 user_saved.
Proof. places_tac. Qed.

Lemma user_trap_vector_eq :
  user_trap_vector = Csrw Sscratch A0 :: Li A0 TRAP_FRAME :: saves A0 user_saved ++
    Csrr T0 Sscratch :: saves A0 [(T0, trap_frame A0)] ++ loads A0 [(Sp, TF_kernel_sp); (Tp, TF_kernel_hartid);
      (T0, TF_kernel_trap); (T1, TF_kernel_satp)] ++ [Sfence; Csrw Satp T1; Sfence; Jr T0].
Proof. done. Qed.

Lemma return_to_user_space_eq :
  return_to_user_space = Sfence :: Csrw Satp A0 :: Sfence :: Li A0 TRAP_FRAME :: loads A0 user_saved ++
    [Ld A0 (trap_frame A0) A0; Sret].
Proof. done. Qed.

(** The state when [user_trap_vector] has saved the registers [r] of the user. *)
Definition trapped (tf : Z) (c : acore) (a : Z) (c' : acore) : Prop :=
  let m := c_mem c in let m' := c_mem c' in
  a = ld64 m (tf + TF_kernel_trap) ∧ c_satp c' = ld64 m (tf + TF_kernel_satp) ∧
  rget c' Sp = ld64 m (tf + TF_kernel_sp) ∧ rget c' Tp = ld64 m (tf + TF_kernel_hartid) ∧
  (∀ r, r ≠ X0 → ld64 m' (tf + trap_frame r) = rget c r) ∧
  ld64 m' (tf + TF_epc) = ld64 m (tf + TF_epc) ∧ same_but tf 288 m m'.

Lemma user_trap_vector_spec c tf :
  window (c_satp c) (c_mem c) TRAP_FRAME tf 288 → regs_ok c →
  ∃ a c', run user_trap_vector c = Some (LJump a, [], c') ∧ trapped tf c a c'.
Proof.
  intros W Hr. pose proof user_saved_places as P. set (c1 := rset A0 TRAP_FRAME (set_c_sscratch (rget c A0) c)).
  set (m2 := stored tf (rget c1) user_saved (c_mem c)). set (c3 := rset T0 (rget c A0) (set_c_mem m2 c1)).
  set (m4 := st64 m2 (tf + trap_frame A0) (rget c A0)).
  set (l := [(Sp, TF_kernel_sp); (Tp, TF_kernel_hartid); (T0, TF_kernel_trap); (T1, TF_kernel_satp)]).
  assert (same_but tf 288 (c_mem c) m2) as B2 by by apply stored_same_but, P.
  assert (same_but tf 288 (c_mem c) m4) as B4 by by eapply same_but_trans; [exact B2|apply same_but_st64].
  assert (∀ o, o mod 8 = 0 → o ∉ user_saved.*2 → o ≠ 112 → ld64 m4 (tf + o) = ld64 (c_mem c) (tf + o)) as Hk.
  { intros o Ho Hn Hne. unfold m4. rewrite ldn_stn_out by (change (trap_frame A0) with 112; Z.to_euclidean_division_equations; lia).
    apply ld64_stored_out; [done| |done]. apply (bool_decide_unpack _). by vm_compute. }
  set (c5 := loaded tf m4 l (set_c_mem m4 c3)).
  assert (run user_trap_vector c = Some (LJump (ld64 m4 (tf + TF_kernel_trap)), [], set_c_satp (ld64 m4 (tf + TF_kernel_satp)) c5)) as E.
  { rewrite user_trap_vector_eq. cbn [run exec mbind option_bind]. change (u64 TRAP_FRAME) with TRAP_FRAME. fold c1.
    rewrite (run_saves 288 A0 TRAP_FRAME tf user_saved) by done. fold m2. cbn [run exec mbind option_bind].
    change (c_sscratch _) with (rget c A0). fold c3.
    rewrite (run_saves 288 A0 TRAP_FRAME tf [(T0, trap_frame A0)]); [|by eapply window_same|done|places_tac].
    change (stored tf (rget c3) _ _) with m4.
    rewrite (run_loads 288 A0 TRAP_FRAME tf l); [|by eapply window_same|done|apply (bool_decide_unpack _); by vm_compute|done|by repeat constructor].
    change (loaded _ _ _ _) with c5. reflexivity. }
  eexists _, _. split; [exact E|]. unfold trapped. cbn [c_mem c_satp set_c_satp].
  assert (∀ o, o ∈ [0; 8; 16; 24; 32] → ld64 m4 (tf + o) = ld64 (c_mem c) (tf + o)) as Hko.
  { intros o Ho. apply Hk; revert Ho; generalize o; apply Forall_forall, (bool_decide_unpack _); by vm_compute. }
  assert (c_mem c5 = m4) as -> by apply loaded_rest. split_and!.
  - apply (Hko 16). by repeat constructor.
  - apply (Hko 0). by repeat constructor.
  - change (rget _ Sp) with (c_regs c5 Sp). unfold c5. rewrite (loaded_in _ _ _ Sp TF_kernel_sp); [apply (Hko 8); by repeat constructor| |by left].
    apply (bool_decide_unpack _). by vm_compute.
  - change (rget _ Tp) with (c_regs c5 Tp). unfold c5. rewrite (loaded_in _ _ _ Tp TF_kernel_hartid); [apply (Hko 24); by repeat constructor| |by right; left].
    apply (bool_decide_unpack _). by vm_compute.
  - intros r Hx. destruct (decide (r = A0)) as [->|Ha].
    + unfold m4. apply (ldn_stn 8). apply Hr.
    + assert (rget c1 r = rget c r ∧ rget c r = c_regs c r) as [E1 E2] by by destruct r.
      unfold m4. rewrite ldn_stn_out by (clear -Ha; destruct r; cbn [trap_frame]; try done; lia).
      rewrite <-E1. unfold m2. apply (ld64_stored 288); [done|by apply user_saved_in|]. rewrite E1, E2. apply Hr.
  - apply (Hko 32). by repeat constructor.
  - done.
Qed.

Lemma return_to_user_space_spec c tf :
  window (rget c A0) (c_mem c) TRAP_FRAME tf 288 →
  ∃ c', run return_to_user_space c = Some (LSret, [], c') ∧ c_mem c' = c_mem c ∧ c_satp c' = rget c A0 ∧
    ∀ r, r ≠ X0 → rget c' r = ld64 (c_mem c) (tf + trap_frame r).
Proof.
  intros W. pose proof user_saved_places as P. set (c1 := rset A0 TRAP_FRAME (set_c_satp (rget c A0) c)).
  set (c2 := loaded tf (c_mem c) user_saved c1). destruct (loaded_rest tf (c_mem c) user_saved c1) as (M2 & S2 & _). fold c2 in M2, S2.
  assert (c_regs c2 A0 = TRAP_FRAME) as HA.
  { unfold c2. rewrite loaded_out; [done|]. apply (bool_decide_unpack _). by vm_compute. }
  exists (rset A0 (ld64 (c_mem c) (tf + trap_frame A0)) c2). split_and!; [|done|done|].
  - rewrite return_to_user_space_eq. cbn [run exec mbind option_bind]. change (u64 TRAP_FRAME) with TRAP_FRAME. fold c1.
    rewrite (run_loads 288 A0 TRAP_FRAME tf user_saved); [|done|done|apply P|done|].
    2: { apply (Forall_impl (λ x, x.1 ≠ A0)); [apply (bool_decide_unpack _); by vm_compute|]. by intros [r o]. }
    change (loaded _ _ _ _) with c2. cbn [run exec]. rewrite (access_window c2 TRAP_FRAME tf 288); [|by rewrite M2, S2|done|by left|done|done|done].
    cbn [mbind option_bind]. by rewrite M2.
  - intros r Hx. destruct (decide (r = A0)) as [->|Ha]; [done|].
    assert (rget (rset A0 (ld64 (c_mem c) (tf + trap_frame A0)) c2) r = c_regs c2 r) as -> by by destruct r.
    apply loaded_in; [apply P|by apply user_saved_in].
Qed.

(** ** The trap frame in the user's page table *)

(** The page at [tf] is mapped at TRAP_FRAME for the kernel only, and is not part
    of the page table. *)
Record frame_mapped (m : memory) (N : gmap Z nat) (root tf : Z) : Prop := {
  fm_wf : pt_wf m N root;
  fm_page : is_page tf;
  fm_apart : N !! tf = None;
  fm_pte : ∃ v, pt_lookup m root TRAP_FRAME = Some v ∧ PTE2PA v = tf ∧
    Z.land v PTE_R ≠ 0 ∧ Z.land v PTE_W ≠ 0 ∧ Z.land v PTE_U = 0;
}.

Lemma satp_root_eq root : is_page root → satp_root (MAKE_SATP root) = root ∧ MAKE_SATP root ≠ 0.
Proof.
  intros [Hr Hm]. assert (0 ≤ root / 2 ^ 12 < 2 ^ 44) as Hq by (Z.to_euclidean_division_equations; lia).
  unfold satp_root, MAKE_SATP. rewrite Z.shiftr_div_pow2 by lia. split.
  - rewrite Z.land_lor_distr_l, !Z.land_ones by lia. change (SATP_SV39 mod 2 ^ 44) with 0. rewrite Z.lor_0_l, Z.mod_small by lia.
    rewrite Z.shiftl_mul_pow2 by lia. change (2 ^ 12) with PAGE_SIZE. pose proof (Z.div_mod root PAGE_SIZE). unfold PAGE_SIZE in *. lia.
  - intros E%Z.lor_eq_0_iff. by destruct E.
Qed.

Lemma window_frame m N root tf : frame_mapped m N root tf → window (MAKE_SATP root) m TRAP_FRAME tf 288.
Proof.
  intros [Hwf Hp Ha (v & Hv & Ht & HR & HW & HU)]. pose proof (wf_page _ _ _ Hwf _ _ (wf_root _ _ _ Hwf)) as [Hroot _].
  destruct (satp_root_eq root Hroot) as [Er Ez]. split; [by vm_compute|done|]. intros m' o need Hneed Hsame H0 H1.
  destruct (pt_wf_ext m m' N root Hwf) as [_ El].
  { intros q l i Hq Hi. apply (ent_same (eq tf)); [|by intros q' <-|by apply (wf_page _ _ _ Hwf _ _ Hq)|congruence|done].
    intros a Hn. apply Hsame. intros Hin. apply (Hn tf eq_refl). unfold in_page, PAGE_SIZE. lia. }
  unfold phys. rewrite (proj2 (Z.eqb_neq _ _) Ez), Er.
  assert (pt_lookup m' root (TRAP_FRAME + o) = Some v) as ->.
  { rewrite <-Hv, <-El. unfold pt_lookup. rewrite (pt_leaf_page m' root (TRAP_FRAME + o) TRAP_FRAME); [done|..].
    - change TRAP_FRAME with 274877898752. lia.
    - done.
    - change TRAP_FRAME with 274877898752. change PAGE_SIZE with 4096. Z.to_euclidean_division_equations. lia. }
  cbn [mbind option_bind]. rewrite HU, Ht. assert (Z.land v need ≠ 0) as Hn by by destruct Hneed as [->| ->].
  rewrite (proj2 (Z.eqb_neq _ _) Hn). cbn [negb andb Z.eqb]. do 2 f_equal.
  change TRAP_FRAME with 274877898752. change PAGE_SIZE with 4096. Z.to_euclidean_division_equations. lia.
Qed.

(** Writing the frame keeps it mapped. *)
Lemma frame_mapped_same m m' N root tf : same_but tf 288 m m' → frame_mapped m N root tf → frame_mapped m' N root tf.
Proof.
  intros B [F1 F2 F3 F4]. destruct (pt_wf_ext m m' N root F1) as [W' El].
  { intros q l i Hq Hi. apply (ent_same (eq tf)); [|by intros q' <-|by apply (wf_page _ _ _ F1 _ _ Hq)|congruence|done].
    intros a Hn. apply B. intros Hin. apply (Hn tf eq_refl). unfold in_page, PAGE_SIZE. lia. }
  split; [done|done|done|]. by rewrite El.
Qed.

(** ** [user_trap_return] *)

(** The kernel's fields of the frame. *)
Definition kernel_fields (ld : linker) (h : hart) (x : process) (m : memory) : memory :=
  let tf := p_tf x in
  let m := st64 m (tf + TF_kernel_satp) (satp h) in
  let m := st64 m (tf + TF_kernel_sp) (u64 (p_kernel_stack x + PAGE_SIZE)) in
  let m := st64 m (tf + TF_kernel_trap) (ld_user_trap_handler ld) in
  st64 m (tf + TF_kernel_hartid) (tp h).

(** Supervisor mode has been left behind: [sret] goes to user mode, with
    interrupts enabled there and disabled here. *)
Definition to_user (v : Z) : Prop :=
  Z.land v SSTATUS_SPP = 0 ∧ Z.land v SSTATUS_SPIE ≠ 0 ∧ Z.land v SSTATUS_SIE = 0.

Lemma to_user_sstatus v :
  to_user (Z.lor (Z.land (Z.land v (Z.lnot SSTATUS_SIE)) (Z.lnot SSTATUS_SPP)) SSTATUS_SPIE).
Proof.
  split_and!.
  - apply Z.bits_inj_iff'. intros n Hn. rewrite Z.bits_0, Z.land_spec, Z.lor_spec, !Z.land_spec, !Z.lnot_spec by done.
    unfold SSTATUS_SPP, SSTATUS_SPIE, SSTATUS_SIE. rewrite !Z.shiftl_1_l, !Z.pow2_bits_eqb by lia.
    destruct (Z.eqb_spec 8 n) as [<-|]; [|by rewrite andb_false_r]. cbn. by rewrite !andb_false_r.
  - intros E. apply (f_equal (λ w, Z.testbit w 5)) in E. rewrite Z.bits_0, Z.land_spec, Z.lor_spec in E.
    change (Z.testbit SSTATUS_SPIE 5) with true in E. by rewrite orb_true_r in E.
  - apply Z.bits_inj_iff'. intros n Hn. rewrite Z.bits_0, Z.land_spec, Z.lor_spec, !Z.land_spec, !Z.lnot_spec by done.
    unfold SSTATUS_SPP, SSTATUS_SPIE, SSTATUS_SIE. rewrite !Z.shiftl_1_l, !Z.pow2_bits_eqb by lia.
    destruct (Z.eqb_spec 1 n) as [<-|]; [|by rewrite andb_false_r]. cbn. by rewrite !andb_false_r.
Qed.

Lemma user_trap_return_spec `{Device} `{Rounds} ld s p x :
  hart_ok (k_hart s) → noff (k_hart s) + 1 < 2 ^ 30 → c_proc (this_cpu (k_hart s)) = Some p → k_procs s !! p = Some x →
  runs (user_trap_return ld) s (λ v s', v = MAKE_SATP (p_page_table x) ∧
    k_mem s' = kernel_fields ld (k_hart s) x (k_mem s) ∧ sepc (k_hart s') = ld64 (k_mem s) (p_tf x + TF_epc) ∧
    to_user (sstatus (k_hart s')) ∧ stvec (k_hart s') = u64 (TRAMPOLINE + (ld_user_trap_vector ld - ld_trampoline ld))).
Proof.
  intros Hh Hn Hp Hx. unfold user_trap_return. kstep. eapply runs_ok; [by apply the_proc_eq|].
  assert (∀ s', k_procs s' = k_procs s → get_proc p s' = Ok x s') as Hget by (intros s' E; apply get_proc_eq; by rewrite E).
  unfold intr_off, write_stvec, write_sepc, read_satp, read_tp, upd_hart, read_sstatus, write_sstatus, tf_set, tf_get, load64, store64, upd_mem.
  repeat first [kstep | eapply runs_ok; [by apply Hget|]]. split_and!; [done|done| |apply to_user_sstatus|done].
  cbn. rewrite !ldn_stn_out by (unfold TF_epc, TF_kernel_satp, TF_kernel_sp, TF_kernel_trap, TF_kernel_hartid; lia). done.
Qed.

Lemma kernel_fields_same ld h x m : same_but (p_tf x) 288 m (kernel_fields ld h x m).
Proof.
  unfold kernel_fields. eapply same_but_trans; [|by apply same_but_st64]. eapply same_but_trans; [|by apply same_but_st64].
  eapply same_but_trans; by apply same_but_st64.
Qed.

Lemma kernel_fields_spec ld h x m N root :
  0 ≤ satp h < 2 ^ 64 → 0 ≤ ld_user_trap_handler ld < 2 ^ 64 → 0 ≤ tp h < 2 ^ 64 → frame_mapped m N root (p_tf x) →
  let m' := kernel_fields ld h x m in let tf := p_tf x in
  frame_mapped m' N root tf ∧ ld64 m' (tf + TF_kernel_satp) = satp h ∧
  ld64 m' (tf + TF_kernel_sp) = u64 (p_kernel_stack x + PAGE_SIZE) ∧
  ld64 m' (tf + TF_kernel_trap) = ld_user_trap_handler ld ∧ ld64 m' (tf + TF_kernel_hartid) = tp h ∧
  ∀ r, r ≠ X0 → ld64 m' (tf + trap_frame r) = ld64 m (tf + trap_frame r).
Proof.
  intros H1 H2 H3 F m' tf. pose proof (Z.mod_pos_bound (p_kernel_stack x + PAGE_SIZE) (2 ^ 64) ltac:(lia)) as H4.
  pose proof (kernel_fields_same ld h x m : same_but tf 288 m m') as B.
  split_and!; [|unfold m', kernel_fields, tf, TF_kernel_satp, TF_kernel_sp, TF_kernel_trap, TF_kernel_hartid;
    repeat (rewrite ldn_stn_out by lia); apply (ldn_stn 8); first [exact H1|exact H2|exact H3|exact H4]..|].
  - by eapply frame_mapped_same.
  - intros r Hr. assert (40 ≤ trap_frame r) as Ho by by destruct r. clear -Ho.
    unfold m', kernel_fields, tf, TF_kernel_satp, TF_kernel_sp, TF_kernel_trap, TF_kernel_hartid. by rewrite !ldn_stn_out by lia.
Qed.

(** C10: A user program keeps its registers across the kernel. [user_trap_return]
    and [return_to_user_space] leave the kernel with every register as it is in
    the trap frame, with the program counter of the frame, in user mode and with
    interrupts on. At the next trap, whatever the registers are then,
    [user_trap_vector] stores each of them in its field of the frame and goes to
    [user_trap_handler] on the kernel stack of the process, with the hart's
    number in [tp] and under the kernel's page table, provided that the user has
    not been able to change the frame and its page table. *)
Theorem user_registers `{Device} `{Rounds} ld s p x N :
  hart_ok (k_hart s) → noff (k_hart s) + 1 < 2 ^ 30 → c_proc (this_cpu (k_hart s)) = Some p → k_procs s !! p = Some x →
  0 ≤ satp (k_hart s) < 2 ^ 64 → 0 ≤ ld_user_trap_handler ld < 2 ^ 64 →
  frame_mapped (k_mem s) N (p_page_table x) (p_tf x) →
  runs (user_trap_return ld) s (λ v s', sepc (k_hart s') = ld64 (k_mem s) (p_tf x + TF_epc) ∧ to_user (sstatus (k_hart s')) ∧
    ∀ c, c_mem c = k_mem s' → rget c A0 = v →
    ∃ c', run return_to_user_space c = Some (LSret, [], c') ∧
      (∀ r, r ≠ X0 → rget c' r = ld64 (k_mem s) (p_tf x + trap_frame r)) ∧
    ∀ d, regs_ok d → c_satp d = c_satp c' → frame_mapped (c_mem d) N (p_page_table x) (p_tf x) →
      (∀ a, in_page (p_tf x) a → mget (c_mem d) a = mget (c_mem c') a) →
    ∃ d', run user_trap_vector d = Some (LJump (ld_user_trap_handler ld), [], d') ∧
      (∀ r, r ≠ X0 → ld64 (c_mem d') (p_tf x + trap_frame r) = rget d r) ∧
      rget d' Sp = u64 (p_kernel_stack x + PAGE_SIZE) ∧ rget d' Tp = tp (k_hart s) ∧ c_satp d' = satp (k_hart s)).
Proof.
  intros Hh Hn Hp Hx Hs Hld F. assert (0 ≤ tp (k_hart s) < 2 ^ 64) as Htp by (pose proof (ok_tp _ Hh); unfold N_CPU in *; lia).
  destruct (kernel_fields_spec ld (k_hart s) x (k_mem s) N _ Hs Hld Htp F) as (F' & K1 & K2 & K3 & K4 & K5).
  kcall (user_trap_return_spec ld s p x Hh Hn Hp Hx). intros v s' (-> & Em & Ee & Es & _). split_and!; [done|done|].
  intros c Ec Ea. destruct (return_to_user_space_spec c (p_tf x)) as (c' & Hc & Mc & Sc & Rc).
  { rewrite Ea, Ec, Em. by eapply window_frame. }
  exists c'. split_and!; [done|intros r Hr; by rewrite Rc, Ec, Em, K5|].
  intros d Hd Sd Fd Md. destruct (user_trap_vector_spec d (p_tf x)) as (a & d' & Hr & T1 & T2 & T3 & T4 & T5 & _); [|done|].
  { rewrite Sd, Sc, Ea. by eapply window_frame. }
  assert (∀ o, 0 ≤ o < 288 → ld64 (c_mem d) (p_tf x + o) = ld64 (kernel_fields ld (k_hart s) x (k_mem s)) (p_tf x + o)) as Ek.
  { intros o Ho. rewrite <-Em, <-Ec, <-Mc. apply ldn_ext. intros b Hb. apply Md. unfold in_page, PAGE_SIZE. lia. }
  rewrite (Ek TF_kernel_trap ltac:(done)), K3 in T1. rewrite (Ek TF_kernel_satp ltac:(done)), K1 in T2.
  rewrite (Ek TF_kernel_sp ltac:(done)), K2 in T3. rewrite (Ek TF_kernel_hartid ltac:(done)), K4 in T4.
  exists d'. by rewrite <-T1.
Qed.
