(* ===== verification/AsmSwitch.v ===== *)
(** The rest of the assembly: traps inside of the kernel
    (kernel/trap/trap_vector.S), context switches (kernel/sched/switch.S), the
    stack of a hart (kernel/boot/entry.S) and the code of the first process
    ([initcode] of kernel/sched/proc.c). *)

From S2P Require Import Prelude Mem State Machine Mm PageTable MmAlloc Proc Sync Console Virtio Buf Log Inode Pipe File Fork Exec Sysfile Trap Asm ProcTheorems Env AsmTheorems.

(** ** Traps inside of the kernel *)

Definition kernel_saved : list (reg * Z) :=
  [(Ra, 0); (Sp, 8); (Gp, 16); (Tp, 24); (T0, 32); (T1, 40); (T2, 48); (A0, 72); (A1, 80); (A2, 88); (A3, 96); (A4, 104);
   (A5, 112); (A6, 120); (A7, 128); (T3, 216); (T4, 224); (T5, 232); (T6, 240)].
Definition kernel_restored : list (reg * Z) := filter (λ x, x.1 ≠ Tp) kernel_saved.

(** The registers that a C function leaves as they are. *)
Definition callee_saved : list reg := [Sp; S0; S1; S2; S3; S4; S5; S6; S7; S8; S9; S10; S11].

Lemma kernel_trap_vector_eq :
  kernel_trap_vector = Addi Sp Sp (-256) :: saves Sp kernel_saved ++ Call "kernel_trap_handler" ::
    loads Sp kernel_restored ++ [Addi Sp Sp 256; Sret].
Proof. reflexivity. Qed.

Lemma kernel_saved_places : places 256 kernel_saved.
Proof. places_tac. Qed.

(** Every register but [tp] is restored by the vector or kept by the handler. *)
Lemma kernel_regs r : r ≠ X0 → r ≠ Tp → (∃ o, (r, o) ∈ kernel_restored ∧ (r, o) ∈ kernel_saved) ∨ (r ∈ callee_saved ∧ r ∉ kernel_restored.*1).
Proof.
  intros H1 H2. assert (Exists (λ x, x.1 = r ∧ x ∈ kernel_saved) kernel_restored ∨ (r ∈ callee_saved ∧ r ∉ kernel_restored.*1)) as H.
  { destruct r; try done; apply (bool_decide_unpack _); by vm_compute. }
  destruct H as [H|H]; [left|by right]. apply Exists_exists in H as ([r' o] & Hin & <- & Hs). by exists o.
Qed.

(** C15: An interrupt of the kernel is transparent: [kernel_trap_vector] saves the
    caller-saved registers on the stack of the interrupted code and calls
    [kernel_trap_handler]; when the handler has kept the callee-saved registers
    and the saved ones on the stack, as a C function does, the vector returns with
    every register as it was at the interrupt but [tp], which has the number of
    the hart that the code goes on on. *)
Theorem kernel_trap_transparent c p :
  let sp0 := rget c Sp in
  regs_ok c → 256 ≤ sp0 → window (c_satp c) (c_mem c) (sp0 - 256) p 256 →
  ∃ rest c1, run kernel_trap_vector c = Some (LCall "kernel_trap_handler", rest, c1) ∧
    (∀ r, r ≠ Sp → rget c1 r = rget c r) ∧ rget c1 Sp = sp0 - 256 ∧ same_but p 256 (c_mem c) (c_mem c1) ∧
    c_satp c1 = c_satp c ∧
  ∀ c2, (∀ r, r ∈ callee_saved → rget c2 r = rget c1 r) → window (c_satp c2) (c_mem c2) (sp0 - 256) p 256 →
    (∀ a, p ≤ a < p + 256 → mget (c_mem c2) a = mget (c_mem c1) a) →
  ∃ c3, run rest c2 = Some (LSret, [], c3) ∧ (∀ r, r ≠ Tp → rget c3 r = rget c r) ∧ rget c3 Tp = rget c2 Tp ∧
    c_mem c3 = c_mem c2 ∧ c_satp c3 = c_satp c2.
Proof.
  intros sp0 Hr Hsp W. pose proof kernel_saved_places as P. assert (sp0 = c_regs c Sp) as Esp by done. pose proof (Hr Sp) as Hsp'.
  set (c0 := rset Sp (sp0 - 256) c). set (m1 := stored p (rget c0) kernel_saved (c_mem c)).
  assert (∀ r, r ≠ Sp → rget c0 r = rget c r) as R0 by (intros r Hne; unfold rget, c0; cbn [rset c_regs]; by rewrite (decide_False (P := r = Sp))).
  assert (same_but p 256 (c_mem c) m1) as B1 by by apply stored_same_but, P.
  exists (loads Sp kernel_restored ++ [Addi Sp Sp 256; Sret]), (set_c_mem m1 c0). split_and!; [|done|done|done|done|].
  { rewrite kernel_trap_vector_eq. cbn [run exec mbind option_bind]. rewrite (wrap_small 64) by (fold sp0; lia).
    change (rset Sp (rget c Sp + -256) c) with c0. by rewrite (run_saves 256 Sp (sp0 - 256) p kernel_saved). }
  intros c2 Hk W2 Hm. assert (rget c2 Sp = sp0 - 256) as S2 by by rewrite Hk by by left.
  assert (∀ r o, (r, o) ∈ kernel_saved → ld64 (c_mem c2) (p + o) = rget c0 r) as Hld.
  { intros r o Hin. rewrite <-(ld64_stored 256 p (rget c0) kernel_saved r o (c_mem c)); [|done|done|].
    - apply ldn_ext. intros b Hb. apply Hm. pose proof (proj1 (Forall_forall _ _) (pl_in _ _ P) _ Hin) as (Q1 & Q2 & _). cbn [snd] in *. lia.
    - unfold rget. case_decide; [lia|]. cbn [c0 rset c_regs]. case_decide; [lia|apply Hr]. }
  set (c3 := loaded p (c_mem c2) kernel_restored c2). destruct (loaded_rest p (c_mem c2) kernel_restored c2) as (M3 & T3 & _). fold c3 in M3, T3.
  assert (∀ r, r ≠ X0 → r ≠ Tp → c_regs c3 r = rget c0 r) as R3.
  { intros r Hx Ht. destruct (kernel_regs r Hx Ht) as [(o & H1 & H2)|[H1 H2]].
    - unfold c3. rewrite (loaded_in _ _ _ r o); [by apply Hld|apply (bool_decide_unpack _); by vm_compute|done].
    - unfold c3. rewrite loaded_out by done. specialize (Hk r H1). unfold rget in Hk at 1. rewrite decide_False in Hk by done. exact Hk. }
  exists (rset Sp sp0 c3). split_and!; [|intros r Ht| |done|done].
  - rewrite (run_loads 256 Sp (sp0 - 256) p kernel_restored); [|done|done|apply (bool_decide_unpack _); by vm_compute|done|].
    2: { apply Forall_forall. intros [r o] Hin Er. cbn [fst snd] in *. subst r. rewrite (Hld Sp o); [done|]. by apply list_elem_of_filter in Hin as [_ Hin]. }
    change (loaded _ _ _ _) with c3. cbn [run exec mbind option_bind]. change (rget c3 Sp) with (c_regs c3 Sp). rewrite R3 by done.
    change (rget c0 Sp) with (sp0 - 256). by rewrite (wrap_small 64), Z.sub_add by lia.
  - destruct (decide (r = X0)) as [->|Hx]; [done|]. destruct (decide (r = Sp)) as [->|Hne]; [done|]. rewrite <-R0, <-R3 by done.
    unfold rget. cbn [rset c_regs]. by rewrite (decide_False (P := r = X0)), (decide_False (P := r = Sp)).
  - change (rget _ Tp) with (c_regs c3 Tp). unfold c3. rewrite loaded_out; [done|]. apply (bool_decide_unpack _). by vm_compute.
Qed.

(** ** Context switches *)

Definition context_regs : list (reg * Z) :=
  [(Ra, 0); (Sp, 8); (S0, 16); (S1, 24); (S2, 32); (S3, 40); (S4, 48); (S5, 56); (S6, 64); (S7, 72); (S8, 80); (S9, 88);
   (S10, 96); (S11, 104)].

Lemma context_switch_eq : context_switch = saves A0 context_regs ++ loads A1 context_regs ++ [Ret].
Proof. reflexivity. Qed.

Lemma context_regs_places : places 112 context_regs.
Proof. places_tac. Qed.

(** The kernel's data: the addresses [P] are mapped to themselves, and writing
    there does not change the translation. *)
Record direct (satp : Z) (m : memory) (P : Z → Prop) : Prop := {
  dr_phys : ∀ m' va need, need = PTE_R ∨ need = PTE_W → (∀ a, ¬ P a → mget m' a = mget m a) →
    P va → phys need satp m' va = Some va;
}.

(** A struct context in the kernel's data. *)
Record context_at (P : Z → Prop) (a : Z) : Prop := {
  cx_range : 0 ≤ a ∧ a + 112 ≤ 2 ^ 64;
  cx_align : a mod 8 = 0;
  cx_data : ∀ b, a ≤ b < a + 112 → P b;
}.

Definition apart (a b : Z) : Prop := a + 112 ≤ b ∨ b + 112 ≤ a.

Lemma direct_same satp m m' P : (∀ a, ¬ P a → mget m' a = mget m a) → direct satp m P → direct satp m' P.
Proof. intros H [D]. split. intros m2 va need Hn H2. apply D; [done|]. intros a Ha. by rewrite H2, H. Qed.

Lemma direct_window satp m P a : direct satp m P → context_at P a → window satp m a a 112.
Proof.
  intros [D] [C1 C2 C3]. split; [done|done|]. intros m' o need Hn Hs H0 H1. apply D; [done| |apply C3; lia].
  intros b Hb. apply Hs. intros Hin. by apply Hb, C3.
Qed.

(** The registers go to the context at [a0], and come from the one at [a1]. *)
Lemma context_switch_spec P c old new :
  direct (c_satp c) (c_mem c) P → regs_ok c → rget c A0 = old → rget c A1 = new →
  context_at P old → context_at P new → apart old new →
  ∃ c', run context_switch c = Some (LJump (ld64 (c_mem c) new), [], c') ∧
    (∀ r o, (r, o) ∈ context_regs → ld64 (c_mem c') (old + o) = c_regs c r) ∧
    (∀ r o, (r, o) ∈ context_regs → c_regs c' r = ld64 (c_mem c) (new + o)) ∧
    same_but old 112 (c_mem c) (c_mem c') ∧ c_satp c' = c_satp c.
Proof.
  intros D Hr Ho Hn Co Cn Ha. pose proof context_regs_places as P1. pose proof (direct_window _ _ _ _ D Co) as Wo.
  set (m1 := stored old (rget c) context_regs (c_mem c)). set (c1 := set_c_mem m1 c).
  assert (same_but old 112 (c_mem c) m1) as B1 by by apply stored_same_but, P1.
  assert (direct (c_satp c) m1 P) as D1 by (eapply direct_same; [|done]; intros a Hna; apply B1; intros Hin; by apply Hna, Co).
  pose proof (direct_window _ _ _ _ D1 Cn) as Wn.
  set (c2 := loaded new m1 context_regs c1). destruct (loaded_rest new m1 context_regs c1) as (M2 & T2 & _). fold c2 in M2, T2.
  assert (∀ o, 0 ≤ o → o + 8 ≤ 112 → ld64 m1 (new + o) = ld64 (c_mem c) (new + o)) as En.
  { intros o H0 H1. apply ldn_ext. intros b Hb. apply B1. unfold apart in Ha. lia. }
  assert (∀ r o, (r, o) ∈ context_regs → c_regs c2 r = ld64 (c_mem c) (new + o)) as R2.
  { intros r o Hin. unfold c2. rewrite (loaded_in _ _ _ r o) by (apply P1 || done).
    pose proof (proj1 (Forall_forall _ _) (pl_in _ _ P1) _ Hin) as (Q1 & Q2 & _). by apply En. }
  exists c2. split_and!; [| |exact R2|by rewrite M2|done].
  - rewrite context_switch_eq, (run_saves 112 A0 old old context_regs) by done. fold m1 c1.
    rewrite (run_loads 112 A1 new new context_regs); [|done|done|apply P1|done|apply (Forall_impl (λ x, x.1 ≠ A1));
      [apply (bool_decide_unpack _); by vm_compute|by intros [r o]]].
    change (loaded _ _ _ _) with c2. cbn [run]. change (rget c2 Ra) with (c_regs c2 Ra). rewrite (R2 Ra 0) by by left. by rewrite Z.add_0_r.
  - intros r o Hin. rewrite M2. change (c_mem c1) with m1. unfold m1. rewrite (ld64_stored 112 _ _ _ r o) by (done || (unfold rget; case_decide; [lia|apply Hr])).
    unfold rget. rewrite decide_False; [done|]. intros ->. revert Hin. apply (bool_decide_unpack _). by vm_compute.
Qed.

(** C11: [context_switch] returns, to whoever called it, when its context is
    switched to: the caller's return address, stack pointer and callee-saved
    registers are saved in the old context, and a later [context_switch], on any
    hart, to that context goes on at the return address of the first call with
    all of these registers as they were, while the code that is switched to gets
    those of its own context. *)
Theorem context_switch_resumes P c old new :
  direct (c_satp c) (c_mem c) P → regs_ok c → rget c A0 = old → rget c A1 = new →
  context_at P old → context_at P new → apart old new →
  ∃ c', run context_switch c = Some (LJump (ld64 (c_mem c) new), [], c') ∧
    (∀ r o, (r, o) ∈ context_regs → rget c' r = ld64 (c_mem c) (new + o)) ∧
    (∀ a, ¬ (old ≤ a < old + 112) → mget (c_mem c') a = mget (c_mem c) a) ∧
  ∀ d other, direct (c_satp d) (c_mem d) P → regs_ok d → rget d A0 = other → rget d A1 = old → context_at P other → apart other old →
    (∀ a, old ≤ a < old + 112 → mget (c_mem d) a = mget (c_mem c') a) →
  ∃ d', run context_switch d = Some (LJump (rget c Ra), [], d') ∧ ∀ r, r ∈ context_regs.*1 → rget d' r = rget c r.
Proof.
  intros D Hr Ho Hn Co Cn Ha. destruct (context_switch_spec P c old new D Hr Ho Hn Co Cn Ha) as (c' & E & S1 & L1 & B & T).
  assert (∀ c r, r ∈ context_regs.*1 → rget c r = c_regs c r) as Hg.
  { intros c0 r Hin. unfold rget. rewrite decide_False; [done|]. intros ->. revert Hin. apply (bool_decide_unpack _). by vm_compute. }
  exists c'. split_and!; [done| |done|].
  { intros r o Hin. rewrite Hg by (by apply (list_elem_of_fmap_2 fst) in Hin). by apply L1. }
  intros d other Dd Hrd Hoo Hno Coo Hao Hkeep. destruct (context_switch_spec P d other old Dd Hrd Hoo Hno Coo Co Hao) as (d' & E' & _ & L2 & _).
  assert (∀ r o, (r, o) ∈ context_regs → ld64 (c_mem d) (old + o) = c_regs c r) as Ek.
  { intros r o Hin. rewrite <-(S1 r o Hin). pose proof (proj1 (Forall_forall _ _) (pl_in _ _ context_regs_places) _ Hin) as (Q1 & Q2 & _).
    apply ldn_ext. intros b Hb. apply Hkeep. cbn [snd] in *. lia. }
  exists d'. split.
  - rewrite E'. do 3 f_equal. f_equal. rewrite <-(Z.add_0_r old) at 1. apply (Ek Ra 0). by left.
  - intros r Hin. rewrite !Hg by done. apply list_elem_of_fmap in Hin as ([r' o] & -> & Hin). cbn [fst]. by rewrite (L2 r' o Hin), (Ek r' o Hin).
Qed.

(** ** The entry of a hart *)

(** [_entry] calls [start] on the top of the page of [boot_stack] that belongs to
    the hart. *)
Lemma entry_spec boot_stack c :
  0 ≤ boot_stack → boot_stack + 4096 * N_CPU < 2 ^ 64 → 0 ≤ rget c A0 < N_CPU →
  ∃ c', run (entry boot_stack) c = Some (LCall "start", [], c') ∧
    rget c' Sp = boot_stack + 4096 * (rget c A0 + 1) ∧ rget c' A0 = rget c A0.
Proof.
  intros H0 H1 H2. set (h := rget c A0) in *. eexists. split; [reflexivity|]. split; [|done].
  match goal with |- ?l = _ => change l with (u64 (u64 (boot_stack + 4096) + u64 (Z.shiftl h 12))) end.
  rewrite Z.shiftl_mul_pow2 by lia. unfold N_CPU in *. rewrite (wrap_small 64 (boot_stack + 4096)), (wrap_small 64 (h * 2 ^ 12)) by lia.
  rewrite (wrap_small 64) by lia. lia.
Qed.

(** ** The first process *)

(** The array is the code of user/initcode.S. *)
Lemma initcode_assembled :
  Forall (λ x, decode (ld32 (mwrite ∅ 0 initcode) (4 * Z.of_nat x.1)) = Some x.2) (imap pair initcode_S).
Proof. repeat constructor. Qed.

(** The page of the first process begins with [initcode]. *)
Definition has_initcode (m : memory) : Prop := ∀ k b, initcode !! k = Some b → mget m (Z.of_nat k) = b.

(** The array of two pointers at [a] has the string [w] and the null pointer. *)
Definition one_string (m : memory) (a : Z) (w : list Z) : Prop :=
  cstr (rd m (ld64 m a)) w ∧ ld64 m (a + 8) = 0.

Lemma initcode_ldn m k n : has_initcode m → (k + n ≤ length initcode)%nat → ldn n m (Z.of_nat k) = ldn n (mwrite ∅ 0 initcode) (Z.of_nat k).
Proof.
  intros Hm Hk. apply ldn_ext. intros b Hb. rewrite mget_mwrite, decide_True by lia. rewrite Z.sub_0_r.
  destruct (lookup_lt_is_Some_2 initcode (Z.to_nat b)) as [x Hx]; [lia|]. pose proof (Hm _ _ Hx) as E. rewrite Z2Nat.id in E by lia.
  rewrite E, Hx. cbn [default from_option id]. symmetry. apply Z.mod_small.
  assert (Forall (λ x, 0 ≤ x < 256) initcode) as F by (apply (bool_decide_unpack _); by vm_compute).
  exact (Forall_lookup_1 _ _ _ _ F Hx).
Qed.

Lemma initcode_fetch m pc : has_initcode m → 0 ≤ pc ≤ 92 → ld32 m pc = ld32 (mwrite ∅ 0 initcode) pc.
Proof.
  intros Hm Hpc. rewrite <-(Z2Nat.id pc) by lia. apply initcode_ldn; [done|]. change (length initcode) with 96%nat. lia.
Qed.

Lemma urun_at fuel pc f m i :
  has_initcode m → 0 ≤ pc ≤ 92 → decode (ld32 (mwrite ∅ 0 initcode) pc) = Some i →
  urun (S fuel) (mk_ucore pc f m) =
  match i with
  | UAuipc rd imm => urun fuel (uset rd (u64 (pc + imm)) (u64 (pc + 4)) (mk_ucore pc f m))
  | UAddi rd rs imm => urun fuel (uset rd (u64 (uget (mk_ucore pc f m) rs + imm)) (u64 (pc + 4)) (mk_ucore pc f m))
  | UJal rd off => urun fuel (uset rd (u64 (pc + 4)) (u64 (pc + off)) (mk_ucore pc f m))
  | UEcall => Some (mk_ucore pc f m)
  end.
Proof. intros Hm Hpc E. cbn [urun uc_pc uc_mem]. by rewrite initcode_fetch, E. Qed.

Ltac initcode_step :=
  erewrite urun_at; [|done|lia|vm_compute; reflexivity]; cbv beta iota;
  match goal with |- context [uset ?r ?v ?pc ?u] => let k := eval vm_compute in pc in change pc with k; unfold uset; cbn [uc_regs uc_mem] | _ => idtac end.

Lemma initcode_first m f : has_initcode m → ∃ g, urun 8 (mk_ucore 0 f m) = Some (mk_ucore 28 g m) ∧
  g A0 = 44 ∧ g A1 = 62 ∧ g A2 = 78 ∧ g A7 = 13.
Proof. intros Hm. do 8 initcode_step. eexists. split; [reflexivity|]. by vm_compute. Qed.

(** From the [li] after the first [ecall]. *)
Lemma initcode_exit m f : has_initcode m → ∃ g, urun 2 (mk_ucore 32 f m) = Some (mk_ucore 36 g m) ∧ g A7 = 4.
Proof. intros Hm. do 2 initcode_step. eexists. split; [reflexivity|]. by vm_compute. Qed.

Lemma initcode_again m f : has_initcode m → ∃ g, urun 3 (mk_ucore 40 f m) = Some (mk_ucore 36 g m) ∧ g A7 = 4.
Proof. intros Hm. do 3 initcode_step. eexists. split; [reflexivity|]. by vm_compute. Qed.

(** The strings of [initcode], and the pointers to them. *)
Lemma initcode_data m : has_initcode m →
  cstr (rd m 44) (bytes_of_string "/init") ∧ one_string m 62 (bytes_of_string "/init") ∧ one_string m 78 (bytes_of_string "SHELL=/sh").
Proof.
  intros Hm. assert (∀ a w, Forall (λ x, initcode !! (x.1 + a)%nat = Some x.2) (imap pair (w ++ [0])) → Forall (λ c, c ≠ 0) w →
    cstr (rd m (Z.of_nat a)) w) as Hs.
  { intros a w F Hz. rewrite Forall_forall in F. assert (∀ k c, (w ++ [0]) !! k = Some c → rd m (Z.of_nat a) (Z.of_nat k) = c) as Hk.
    { intros k c Hc. unfold rd. rewrite <-Nat2Z.inj_add, Nat.add_comm. apply Hm, (F (k, c)), list_elem_of_lookup. exists k.
      by rewrite list_lookup_imap, Hc. }
    split.
    - intros k c Hc. split; [apply Hk; by apply lookup_app_l_Some|]. by apply (Forall_lookup_1 _ _ _ _ Hz Hc).
    - apply Hk. rewrite lookup_app_r by lia. by rewrite Nat.sub_diag. }
  assert (∀ k, (k ≤ 88)%nat → ld64 m (Z.of_nat k) = ld64 (mwrite ∅ 0 initcode) (Z.of_nat k)) as Hl
    by (intros k Hk; apply initcode_ldn; [done|change (length initcode) with 96%nat; lia]).
  unfold one_string. change 62 with (Z.of_nat 62). change 78 with (Z.of_nat 78).
  change (Z.of_nat 62 + 8) with (Z.of_nat 70). change (Z.of_nat 78 + 8) with (Z.of_nat 86). rewrite !Hl by lia.
  change (ld64 _ (Z.of_nat 62)) with (Z.of_nat 44). change (ld64 _ (Z.of_nat 78)) with (Z.of_nat 51).
  split_and!; [apply (Hs 44%nat)|apply (Hs 44%nat)|by vm_compute|apply (Hs 51%nat)|by vm_compute]; apply (bool_decide_unpack _); by vm_compute.
Qed.

(** C28: The machine code in [initcode], which [user_init] copies to address 0 of
    the first process, asks the kernel to execute "/init" with the arguments
    "/init" and the environment "SHELL=/sh", both ended by a null pointer; if that
    fails it asks to exit, again and again. *)
Theorem initcode_execs_init m f :
  has_initcode m →
  ∃ u, urun 8 (mk_ucore 0 f m) = Some u ∧ uget u A7 = sysnum SYS_execve ∧ cstr (rd m (uget u A0)) (bytes_of_string "/init") ∧
    one_string m (uget u A1) (bytes_of_string "/init") ∧ one_string m (uget u A2) (bytes_of_string "SHELL=/sh") ∧
  ∀ r, ∃ v, urun 2 (uresume r u) = Some v ∧ uget v A7 = sysnum SYS_exit ∧
  ∀ r', ∃ w, urun 3 (uresume r' v) = Some w ∧ uget w A7 = sysnum SYS_exit ∧ uc_pc w = uc_pc v.
Proof.
  intros Hm. destruct (initcode_first m f Hm) as (g & E & G0 & G1 & G2 & G7). destruct (initcode_data m Hm) as (D0 & D1 & D2).
  exists (mk_ucore 28 g m). unfold uget. rewrite !decide_False by done. cbn [uc_regs]. rewrite G0, G1, G2. split_and!; [done|done|done|done|done|].
  intros r. unfold uresume, uset. cbn [uc_pc uc_regs uc_mem]. change (u64 (28 + 4)) with 32.
  destruct (initcode_exit m (λ r', if decide (r' = A0) then r else g r') Hm) as (h & Eh & H7). exists (mk_ucore 36 h m).
  split_and!; [done|done|]. intros r'. cbn [uc_pc uc_regs uc_mem]. change (u64 (36 + 4)) with 40.
  destruct (initcode_again m (λ r0, if decide (r0 = A0) then r' else h r0) Hm) as (k & Ek & K7). by exists (mk_ucore 36 k m).
Qed.
