(* ===== verification/AsmExample.v ===== *)
(** The theorems on the assembly at concrete machines, and the page table of
    [get_user_page_table] as the one that the trap vectors need. *)

From S2P Require Import Prelude Mem Strings State Machine Mm PageTable MmAlloc MmMap MmUser MmUvm MmInit MmTheorems UserTable Proc Sync Console Virtio Buf Log Inode Pipe File Fork Exec Sysfile Trap Asm ProcTheorems Env AsmTheorems AsmSwitch.

(** ** Traps from user space *)

(** The table of a new process has the trap frame where the vectors look for it. *)
Lemma user_table_frame trampoline tf fl0 s root s' fl N stack :
  is_page tf → user_table trampoline tf fl0 s root s' fl N stack → frame_mapped (k_mem s') N root tf.
Proof.
  intros Htf [U1 _ _ _ U4 _ _ _ U8 _]. split; [apply U1|done|done|]. exists (mk_pte tf (Z.lor PTE_R PTE_W)).
  assert (∀ b, Z.land b (Z.ones 10) = b → Z.land (mk_pte tf (Z.lor PTE_R PTE_W)) b = Z.land (Z.lor PTE_V (Z.lor PTE_R PTE_W)) b) as Hb.
  { intros b Hb. rewrite <-(PTE_FLAGS_mk_pte tf) by (done || (destruct Htf; lia)). unfold PTE_FLAGS. rewrite <-Z.land_assoc.
    f_equal. rewrite Z.land_comm. symmetry. exact Hb. }
  split_and!; [|by apply PTE2PA_mk_pte|by rewrite Hb..|by rewrite Hb].
  rewrite U8 by done. unfold user_layout, with_page. by rewrite decide_False, decide_True by layout_lia.
Qed.

(** The first process of [family] when it has its table, on a hart, over a memory. *)
Definition seated_proc : process := set_p_page_table small_root (family_proc 1).
Definition seated (m : memory) : kstate :=
  set_k_mem m (set_k_hart (upd_this (set_c_proc (Some 0%nat)) (k_hart bss)) (set_k_procs (<[0%nat := seated_proc]> (k_procs bss)) bss)).

(** There is a memory with its table, the one that [get_user_page_table] builds. *)
Lemma seated_frame : ∃ s1 N, get_user_page_table 4096 0 family = Ok small_root s1 ∧ frame_mapped (k_mem s1) N small_root (p_tf seated_proc).
Proof.
  destruct family_table as (s1 & fl & fl' & N & st & Hr & _ & _ & Hu). exists s1, N. split; [exact Hr|].
  exact (user_table_frame _ _ _ _ _ _ _ _ _ (proj1 (family_frame 1 ltac:(lia))) Hu).
Qed.

(** A linker that puts the handler of user traps at an address of the kernel. *)
Definition demo_linker : linker := mk_linker 4096 0 0 0x80201000 4096 4096 0 0 0 0.

(** Devices that do nothing, and a firmware that stops the machine. *)
#[export] Instance silent : Device := {| READ_REG := λ _, mret 0; WRITE_REG := λ _ _, mret tt; ECALL_SHUTDOWN := stuck PoweredOff |}.
#[export] Instance one_round : Rounds := 1%nat.

Lemma user_registers_witness : ∃ m v s', user_trap_return demo_linker (seated m) = Ok v s' ∧
  ∀ c, c_mem c = k_mem s' → rget c A0 = v →
  ∃ c', run return_to_user_space c = Some (LSret, [], c') ∧
    ∀ r, r ≠ X0 → rget c' r = ld64 m (p_tf seated_proc + trap_frame r).
Proof.
  destruct seated_frame as (s1 & N & _ & HN). exists (k_mem s1).
  destruct (user_registers demo_linker (seated (k_mem s1)) 0 seated_proc N) as (v & s' & Hr & _ & _ & Hc).
  - split; by vm_compute.
  - by vm_compute.
  - by vm_compute.
  - by vm_compute.
  - by vm_compute.
  - by vm_compute.
  - exact HN.
  - exists v, s'. split; [exact Hr|]. intros c H1 H2. destruct (Hc c H1 H2) as (c' & H3 & H4 & _). exists c'. split; [exact H3|exact H4].
Defined.

(** ** Traps from the kernel *)

(** A hart without address translation, with its stack at 8192. *)
Definition bare (m : memory) (f : reg → Z) : acore := mk_acore f 0 0 m.
Lemma bare_phys need m va : phys need 0 m va = Some va.
Proof. done. Qed.

Lemma kernel_trap_transparent_witness :
  let c := bare ∅ (λ _, 8192) in
  ∃ rest c1 c3, run kernel_trap_vector c = Some (LCall "kernel_trap_handler", rest, c1) ∧
    run rest c1 = Some (LSret, [], c3) ∧ ∀ r, r ≠ Tp → rget c3 r = rget c r.
Proof.
  intros c. assert (∀ m, window 0 m (8192 - 256) 7936 256) as W by (intros m; split; [lia|done|]; intros; by rewrite bare_phys).
  destruct (kernel_trap_transparent c 7936) as (rest & c1 & H1 & _ & _ & _ & Hs & H2).
  - intros r. cbn. lia.
  - by vm_compute.
  - apply W.
  - destruct (H2 c1) as (c3 & H3 & H4 & _); [reflexivity|rewrite Hs; apply W|reflexivity|].
    exists rest, c1, c3. split; [exact H1|]. split; [exact H3|exact H4].
Defined.

(** ** Context switches *)

(** Two contexts, one after the other. *)
Lemma context_switch_resumes_witness :
  let c := bare ∅ (λ r, if decide (r = A1) then 8304 else 8192) in
  ∃ c', run context_switch c = Some (LJump 0, [], c') ∧
  let d := bare (c_mem c') (λ r, if decide (r = A0) then 8304 else 8192) in
  ∃ d', run context_switch d = Some (LJump 8192, [], d') ∧ rget d' Sp = 8192.
Proof.
  intros c. assert (∀ m, direct 0 m (λ a, 8192 ≤ a < 8416)) as D by (intros m; split; intros; by rewrite bare_phys).
  assert (context_at (λ a, 8192 ≤ a < 8416) 8192) as C1 by (split; [lia|done|lia]).
  assert (context_at (λ a, 8192 ≤ a < 8416) 8304) as C2 by (split; [lia|done|lia]).
  destruct (context_switch_resumes (λ a, 8192 ≤ a < 8416) c 8192 8304) as (c' & H1 & _ & _ & H2).
  - apply D.
  - intros r. cbn. case_decide; lia.
  - done.
  - done.
  - exact C1.
  - exact C2.
  - left. lia.
  - exists c'. split; [exact H1|]. intros d. destruct (H2 d 8304) as (d' & H3 & H4).
    + apply D.
    + intros r. cbn. case_decide; lia.
    + done.
    + done.
    + exact C2.
    + right. lia.
    + done.
    + exists d'. split; [exact H3|]. apply H4. apply (bool_decide_unpack _). by vm_compute.
Defined.

(** ** The first process *)

Lemma initcode_has_initcode : has_initcode (mwrite ∅ 0 initcode).
Proof.
  intros k b Hk. rewrite mget_mwrite. assert (0 ≤ b < 256) as Hb.
  { assert (Forall (λ x, 0 ≤ x < 256) initcode) as F by (apply (bool_decide_unpack _); by vm_compute). exact (Forall_lookup_1 _ _ _ _ F Hk). }
  apply lookup_lt_Some in Hk as Hl. rewrite decide_True by lia. rewrite Z.sub_0_r, Nat2Z.id, Hk. by apply Z.mod_small.
Qed.

Lemma initcode_execs_init_witness :
  ∃ u, urun 8 (mk_ucore 0 (λ _, 0) (mwrite ∅ 0 initcode)) = Some u ∧ uget u A7 = 13 ∧
    cstr (rd (mwrite ∅ 0 initcode) (uget u A0)) (bytes_of_string "/init").
Proof.
  destruct (initcode_execs_init (mwrite ∅ 0 initcode) (λ _, 0) initcode_has_initcode) as (u & H1 & H2 & H3 & _).
  exists u. split; [exact H1|]. split; [exact H2|exact H3].
Defined.
