(* ===== verification/SysCall.v ===== *)
(** System calls from the stub in user space (user/usys.S) to the handler
    (kernel/syscall/syscall.c) and back: the number in the stub selects the
    function of that name, and the program finds its result in [a0] and its other
    registers as they were. *)

From S2P Require Import Prelude Mem State Machine Mm PageTable MmAlloc MmMap MmUser MmUvm MmInit MmTheorems UserTable MmCopy MmFree UserSpace Proc Sync Console Virtio Buf Log Inode Pipe File Fork Exec Sysfile Trap Asm ProcTheorems Env AsmTheorems AsmSwitch AsmExample.

(** ** The kernel on behalf of a process *)

Record on_behalf (p : nat) (x : process) (s : kstate) : Prop := {
  ob_hart : hart_ok (k_hart s);
  ob_noff : noff (k_hart s) = 0;
  ob_cpu : c_proc (this_cpu (k_hart s)) = Some p;
  ob_proc : k_procs s !! p = Some x;
  ob_alive : p_killed x = false;
  ob_lock : lock_free (LProc p) s;
}.

Lemma on_behalf_hart p x s h :
  on_behalf p x s → tp h = tp (k_hart s) → cpus h = cpus (k_hart s) → on_behalf p x (set_k_hart h s).
Proof.
  intros [[H1 H2 H3 H4] B2 B3 B4 B5 B6] E1 E2. assert (this_cpu h = this_cpu (k_hart s)) as E3 by (unfold this_cpu; by rewrite E1, E2).
  assert (noff h = noff (k_hart s)) as E4 by (unfold noff; by rewrite E3).
  split; cbn [k_hart set_k_hart]; [split; rewrite ?E1, ?E2, ?E4; try done; lia|by rewrite E4|by rewrite E3|done|done|done].
Qed.

Lemma on_behalf_mem p x s m : on_behalf p x s → on_behalf p x (set_k_mem m s).
Proof. by intros []. Qed.

Lemma on_behalf_settled p x s : on_behalf p x s → on_behalf p x (settled s).
Proof.
  intros [B1 B2 B3 B4 B5 B6]. split; cbn [settled k_hart set_k_hart]; [by apply hart_settle_ok|by rewrite noff_settle|by rewrite c_proc_settle|done|done|done].
Qed.

Lemma killed_alive p x s : on_behalf p x s → killed p s = Ok false (settled s).
Proof.
  intros [B1 B2 B3 B4 B5 B6]. unfold killed.
  rewrite (critical_section (LProc p) (x ← get_proc p; mret (p_killed x)) s false s); [by destruct s|done|lia|done|].
  intros name _. erewrite bind_ok by (by apply get_proc_eq). by rewrite B5.
Qed.

Section call.
Context `{DV : Device} `{RN : Rounds} (ld : linker) (pad : list Z).

(** ** The table of system calls *)

(** The function of a name. *)
Definition sys_of (n : sysname) : KM Z :=
  match n with
  | SYS_brk => sys_brk | SYS_fork => sys_fork (ld_trampoline ld) (ld_fork_return ld) | SYS_wait => sys_wait
  | SYS_exit => sys_exit | SYS_sleep => sys_sleep | SYS_kill => sys_kill | SYS_getpid => sys_getpid
  | SYS_read => sys_read | SYS_write => sys_write | SYS_open => sys_open | SYS_close => sys_close
  | SYS_mknod => sys_mknod | SYS_execve => sys_execve (ld_trampoline ld) | SYS_dup => sys_dup | SYS_mkdir => sys_mkdir
  | SYS_fstat => sys_fstat pad | SYS_chdir => sys_chdir | SYS_getppid => sys_getppid | SYS_link => sys_link
  | SYS_unlink => sys_unlink | SYS_pipe => sys_pipe | SYS_sbrk => sys_sbrk | SYS_shutdown => sys_shutdown
  | SYS_lseek => sys_lseek | SYS_dup2 => sys_dup2
  end.

Lemma syscalls_of n : 0 < sysnum n < N_SYSCALL ∧ syscalls ld pad !! Z.to_nat (sysnum n) = Some (Some (sys_of n)).
Proof. by destruct n. Qed.

Lemma tf_get_eq p x s f : k_procs s !! p = Some x → tf_get p f s = Ok (ld64 (k_mem s) (p_tf x + f)) s.
Proof. intros Hx. unfold tf_get. erewrite bind_ok by by apply get_proc_eq. done. Qed.
Lemma tf_set_eq p x s f v : k_procs s !! p = Some x → tf_set p f v s = Ok tt (set_k_mem (st64 (k_mem s) (p_tf x + f) v) s).
Proof. intros Hx. unfold tf_set. erewrite bind_ok by by apply get_proc_eq. done. Qed.

Lemma syscall_eq p x s n :
  on_behalf p x s → ld64 (k_mem s) (p_tf x + TF_a7) = sysnum n →
  syscall ld pad s = (r ← sys_of n; tf_set p TF_a0 r) (settled s).
Proof.
  intros B Hn. destruct (syscalls_of n) as [Hr Hs]. unfold syscall.
  erewrite bind_ok by (apply the_proc_eq; [apply B|rewrite (ob_noff _ _ _ B); lia|apply B]).
  erewrite bind_ok by (apply tf_get_eq; apply B). change (k_mem (settled s)) with (k_mem s). rewrite Hn.
  rewrite (proj2 (Z.ltb_lt 0 _)), (proj2 (Z.ltb_lt _ N_SYSCALL)) by lia. cbn [andb]. by rewrite Hs.
Qed.

Lemma exit_if_killed_alive p x s : on_behalf p x s → exit_if_killed p s = Ok tt (settled s).
Proof. intros B. unfold exit_if_killed. erewrite bind_ok by by eapply killed_alive. done. Qed.

(** The state in which [user_trap_handler] calls the function: the program counter
    of the frame is the instruction after the [ecall], and interrupts are on. *)
Definition at_call (x : process) (s : kstate) : kstate :=
  let epc := sepc (k_hart s) in
  let m := st64 (st64 (k_mem s) (p_tf x + TF_epc) epc) (p_tf x + TF_epc) (u64 (epc + 4)) in
  let h := hart_settle (set_stvec (ld_kernel_trap_vector ld) (hart_settle (k_hart s))) in
  set_k_hart (hart_settle (set_sstatus (Z.lor (sstatus h) SSTATUS_SIE) h)) (set_k_mem m s).

(** The process that a system call returns to: it has its page table and its trap
    frame, which has the bytes that it has in [m]. *)
Record returns_to (p : nat) (x : process) (m : memory) (s : kstate) : Prop := {
  rt_proc : ∃ x1, on_behalf p x1 s ∧ p_page_table x1 = p_page_table x ∧ p_tf x1 = p_tf x;
  rt_frame : ∃ N, frame_mapped (k_mem s) N (p_page_table x) (p_tf x);
  rt_bytes : ∀ a, in_page (p_tf x) a → mget (k_mem s) a = mget m a;
  rt_satp : 0 ≤ satp (k_hart s) < 2 ^ 64;
}.

Lemma ldn_in_page tf m m' n o :
  (∀ a, in_page tf a → mget m' a = mget m a) → 0 ≤ o → o + Z.of_nat n ≤ PAGE_SIZE → ldn n m' (tf + o) = ldn n m (tf + o).
Proof. intros H H0 H1. apply ldn_ext. intros k Hk. apply H. unfold in_page. lia. Qed.

(** Up to the call of the function. *)
Lemma syscall_run R p x s n Q :
  on_behalf p x s → ld64 (k_mem s) (p_tf x + TF_a7) = sysnum n →
  eruns R (r ← sys_of n; tf_set p TF_a0 r) (settled s) Q → eruns R (syscall ld pad) s Q.
Proof. intros B Hn H. unfold eruns. by rewrite (syscall_eq p x s n B Hn). Qed.

Lemma user_trap_handler_enter R p x s n Q :
  on_behalf p x s → scause (k_hart s) = 8 → Z.land (sstatus (k_hart s)) SSTATUS_SPP = 0 → 0 ≤ sepc (k_hart s) < 2 ^ 64 →
  ld64 (k_mem s) (p_tf x + TF_a7) = sysnum n →
  eruns R (sys_of n) (at_call x s) (λ r s1, eruns R (tf_set p TF_a0 r) s1 (λ _ s2,
    eruns R (exit_if_killed p;; user_trap_return ld) s2 Q)) →
  eruns R (user_trap_handler ld pad) s Q.
Proof.
  intros B Hc Hst Hpc Hn Hq. unfold user_trap_handler, read_scause, read_sstatus, write_stvec, read_sepc, upd_hart. repeat estep.
  eapply eruns_runs, runs_ok; [apply the_proc_eq; [apply B|rewrite (ob_noff _ _ _ B); lia|apply B]|].
  rewrite Hst. cbn [Z.eqb negb]. repeat estep. set (s1 := set_k_hart _ (settled s)).
  assert (on_behalf p x s1) as B1 by (by apply on_behalf_hart; [apply on_behalf_settled|..]).
  repeat estep. eapply eruns_runs, runs_ok; [apply tf_set_eq, B1|]. set (s2 := set_k_mem _ s1).
  assert (on_behalf p x s2) as B2 by by apply on_behalf_mem.
  rewrite Hc. change (Z.land 8 INTERRUPT =? 0) with true. cbn [negb Z.eqb Pos.eqb]. repeat estep.
  eapply eruns_runs, runs_ok; [by apply (exit_if_killed_alive p x)|]. set (s3 := settled s2). assert (on_behalf p x s3) as B3 by by apply on_behalf_settled.
  repeat estep. eapply eruns_runs, runs_ok; [apply tf_get_eq, B3|].
  assert (ld64 (k_mem s3) (p_tf x + TF_epc) = sepc (k_hart s)) as -> by by apply (ldn_stn 8).
  repeat estep. eapply eruns_runs, runs_ok; [apply tf_set_eq, B3|].
  set (s4 := set_k_mem _ s3). assert (on_behalf p x s4) as B4 by by apply on_behalf_mem.
  unfold intr_on, read_sstatus, write_sstatus. repeat estep. set (s5 := set_k_hart _ s4).
  assert (on_behalf p x s5) as B5 by by apply on_behalf_hart.
  assert (settled s5 = at_call x s) as E5 by reflexivity.
  assert (ld64 (k_mem s5) (p_tf x + TF_a7) = sysnum n) as N5.
  { rewrite <-Hn. change (k_mem s5) with (k_mem (settled s5)). rewrite E5. cbn. by rewrite !ldn_stn_out by (unfold TF_epc, TF_a7; lia). }
  clearbody s5. clear s1 s2 s3 s4 B1 B2 B3 B4. eapply (syscall_run R p x s5 n); [done|done|]. rewrite E5. estep. exact Hq.
Qed.

(** What the call leaves in the frame, when its result is stored. *)
Lemma result_frame x r m N root :
  frame_mapped m N root (p_tf x) →
  let m' := st64 m (p_tf x + TF_a0) r in
  frame_mapped m' N root (p_tf x) ∧ ld64 m' (p_tf x + trap_frame A0) = u64 r ∧
  ∀ q, q ≠ X0 → q ≠ A0 → ld64 m' (p_tf x + trap_frame q) = ld64 m (p_tf x + trap_frame q).
Proof.
  intros F m'. split_and!.
  - eapply frame_mapped_same; [by apply same_but_st64|done].
  - unfold m'. change (trap_frame A0) with TF_a0. apply (ldn_stn_mod 8).
  - intros q Hx Ha. assert (trap_frame q + 8 ≤ 112 ∨ 120 ≤ trap_frame q) as Ho by (destruct q; cbn; done || lia).
    clear -Ho. unfold m', TF_a0. by rewrite ldn_stn_out by lia.
Qed.

(** From the result of the function to the return to user space. *)
Lemma user_trap_handler_leave p x m r s1 :
  returns_to p x m s1 → 0 ≤ ld_user_trap_handler ld < 2 ^ 64 →
  runs (tf_set p TF_a0 r;; exit_if_killed p;; user_trap_return ld) s1 (λ v s',
    sepc (k_hart s') = ld64 m (p_tf x + TF_epc) ∧ to_user (sstatus (k_hart s')) ∧ same_but (p_tf x) 288 (k_mem s1) (k_mem s') ∧
    ∀ c, c_mem c = k_mem s' → rget c A0 = v →
    ∃ c', run return_to_user_space c = Some (LSret, [], c') ∧ rget c' A0 = u64 r ∧
      ∀ q, q ≠ X0 → q ≠ A0 → rget c' q = ld64 m (p_tf x + trap_frame q)).
Proof.
  intros [(x1 & B1 & Ept & Etf) [N F] Hb Hs] Hld. rewrite <-Ept, <-Etf in *. repeat kstep. eapply runs_ok; [apply tf_set_eq, B1|].
  repeat kstep. eapply runs_ok; [by eapply exit_if_killed_alive, on_behalf_mem|]. set (s2 := settled _).
  assert (on_behalf p x1 s2) as B2 by by apply on_behalf_settled, on_behalf_mem.
  destruct (result_frame x1 r (k_mem s1) N (p_page_table x1) F) as (F2 & A2 & R2).
  kcall (user_trap_return_spec ld s2 p x1); [apply B2|rewrite (ob_noff _ _ _ B2); lia|apply B2|apply B2|].
  intros v s' (-> & M & E & U & _). assert (0 ≤ tp (k_hart s2) < 2 ^ 64) as Ht by (pose proof (ok_tp _ (ob_hart _ _ _ B2)); unfold N_CPU in *; lia).
  destruct (kernel_fields_spec ld (k_hart s2) x1 (k_mem s2) N (p_page_table x1) Hs Hld Ht F2) as (F4 & _ & _ & _ & _ & K5).
  split_and!; [|done| |].
  - rewrite E. change (k_mem s2) with (st64 (k_mem s1) (p_tf x1 + TF_a0) r). rewrite ldn_stn_out by (unfold TF_epc, TF_a0; lia). by apply ldn_in_page.
  - rewrite M. eapply same_but_trans; [|apply kernel_fields_same]. by apply same_but_st64.
  - intros c Ec Ea. destruct (return_to_user_space_spec c (p_tf x1)) as (c' & Hrun & _ & _ & Rc); [rewrite Ea, Ec, M; by eapply window_frame|].
    exists c'. split_and!; [done|by rewrite Rc, Ec, M, K5|]. intros q H1 H2. rewrite Rc, Ec, M, K5, R2 by done.
    apply ldn_in_page; [done|by destruct q|by destruct q].
Qed.

(** ** A call that reads its argument and changes memory *)

Lemma uvm_ok_hart s fl N root sz h :
  uvm_ok s fl N root sz → hart_ok h → noff h + 1 < 2 ^ 30 → uvm_ok (set_k_hart h s) fl N root sz.
Proof. intros [[I1 I2 I3 I4 I5 I6 I7 I8] V2 V3 V4 V5] H1 H2. split; [by split|done..]. Qed.

Lemma the_proc_settled p x s : on_behalf p x s → the_proc (settled s) = Ok p (settled s).
Proof.
  intros B. pose proof (on_behalf_settled p x s B) as B1. rewrite <-(settled_idemp s (ob_hart _ _ _ B)) at 2.
  apply the_proc_eq; [apply B1|rewrite (ob_noff _ _ _ B1); lia|apply B1].
Qed.

Lemma on_behalf_only_mm p x s s' : on_behalf p x s → only_mm s s' → on_behalf p x s'.
Proof.
  intros B (h & Hh & ->). assert (on_behalf p x (set_k_hart h s)) as [B1 B2 B3 B4 B5 B6]; [|by split].
  destruct Hh as [->| ->]; [by apply on_behalf_hart|by apply on_behalf_settled].
Qed.

Lemma only_mm_satp s s' : only_mm s s' → satp (k_hart s') = satp (k_hart s).
Proof. by intros (h & [->| ->] & ->). Qed.

Lemma on_behalf_upd p x s f :
  on_behalf p x s → p_killed (f x) = p_killed x → on_behalf p (f x) (set_k_procs (alter f p (k_procs s)) s).
Proof.
  intros [B1 B2 B3 B4 B5 B6] Hk. split; cbn; [done|done|done|by rewrite list_lookup_alter_eq, B4|by rewrite Hk|done].
Qed.

(** Growing memory leaves the trap frame alone. *)
Lemma frame_grown s fl N root lo hi perm s1 fl1 N1 tf :
  mm_inv s fl N root → frame_mapped (k_mem s) N root tf → tf ∉ fl → grown s root lo hi perm s1 fl1 N1 → accounts s fl N [] root lo hi s1 fl1 N1 →
  hi ≤ USER_STACK_BASE →
  frame_mapped (k_mem s1) N1 root tf ∧ ∀ a, in_page tf a → mget (k_mem s1) a = mget (k_mem s) a.
Proof.
  intros I [F1 F2 F3 (v & Hv & F4)] Hf G A Hhi. assert (∀ q, pool fl N q → q ≠ tf) as Hp.
  { intros q [Hq|[l Hq]] ->; [done|]. by rewrite Hq in F3. }
  assert (∀ q, pool fl N q → is_page q) as Hpg.
  { intros q [Hq|[l Hq]]; [|by apply (wf_page _ _ _ F1 _ _ Hq)]. by eapply fl_rep_page, Hq; apply I. }
  split; [split; [apply (gw_inv _ _ _ _ _ _ _ _ G)|done| |]|].
  - destruct (N1 !! tf) eqn:E; [|done]. exfalso. apply (Hp tf); [|done]. apply (ac_pages _ _ _ _ _ _ _ _ _ _ A). right. left. right. by rewrite E.
  - exists v. split; [|done]. rewrite (gw_old _ _ _ _ _ _ _ _ G); [done|by vm_compute|]. assert (USER_STACK_BASE < TRAP_FRAME) by by vm_compute. lia.
  - intros a Ha. apply (ac_mem _ _ _ _ _ _ _ _ _ _ A). intros q Hq Hin. apply (Hp q Hq). specialize (Hpg q Hq).
    by eapply pages_disjoint.
Qed.

(** [sbrk] for more memory: the old size and the memory below the new one, or -1. *)
Lemma sbrk_call p x s fl N inc :
  on_behalf p x s → uvm_ok s fl N (p_page_table x) (p_size x) → frame_mapped (k_mem s) N (p_page_table x) (p_tf x) → p_tf x ∉ fl →
  0 ≤ satp (k_hart s) < 2 ^ 64 → ld64 (k_mem s) (p_tf x + TF_a0) = inc → 0 < inc → p_size x + inc ≤ USER_STACK_BASE →
  runs sys_sbrk s (λ r s1, returns_to p x (k_mem s) s1 ∧ ∃ fl1 N1 x1, k_procs s1 !! p = Some x1 ∧
    (r = p_size x ∧ p_size x1 = p_size x + inc ∧ uvm_ok s1 fl1 N1 (p_page_table x) (p_size x + inc) ∨
     r = u64 (-1) ∧ x1 = x ∧ uvm_ok s1 fl1 N1 (p_page_table x) (p_size x))).
Proof.
  intros B V F Hf Hs Ha Hi Hsz. pose proof (on_behalf_settled p x s B) as B1.
  assert (uvm_ok (settled s) fl N (p_page_table x) (p_size x)) as V1.
  { apply uvm_ok_hart; [done|apply B1|]. change (hart_settle (k_hart s)) with (k_hart (settled s)). rewrite (ob_noff _ _ _ B1). lia. }
  assert (USER_STACK_BASE < 2 ^ 63) as Hub by by vm_compute. pose proof (uv_size _ _ _ _ _ V) as Hsz0.
  unfold sys_sbrk, arg_raw, proc_grow. repeat kstep. eapply runs_ok; [apply the_proc_eq; [apply B|rewrite (ob_noff _ _ _ B); lia|apply B]|].
  cbn [Z.leb Z.compare andb]. eapply runs_ok; [apply tf_get_eq, B1|]. change (k_mem (settled s)) with (k_mem s).
  change (TF_a0 + 8 * 0) with TF_a0. rewrite Ha. assert (s64 inc = inc) as -> by (apply (swrap_small 64); lia).
  repeat kstep. eapply runs_ok; [by eapply the_proc_settled|]. repeat kstep. eapply runs_ok; [apply get_proc_eq, B1|]. repeat kstep.
  rewrite (proj2 (Z.eqb_neq inc 0)), (proj2 (Z.ltb_ge inc 0)), (wrap_small 64 inc), (wrap_small 64 (p_size x + inc)) by lia. repeat kstep.
  eapply runs_ok; [by eapply the_proc_settled|]. repeat kstep. eapply runs_ok; [apply get_proc_eq, B1|]. repeat kstep.
  rewrite (proj2 (Z.ltb_lt (p_size x) (p_size x + inc))) by lia.
  kcall (uvm_alloc_spec (settled s) fl N (p_page_table x) (p_size x) (p_size x + inc) PTE_W V1); [lia|by vm_compute|].
  destruct (round_up_bounds (p_size x) Hsz0) as (_ & _ & R1), (round_up_bounds (p_size x + inc) ltac:(lia)) as (_ & _ & R2).
  intros v s1 (fl1 & N1 & [(-> & V2 & G & A)|(-> & V2 & G & A & _)]);
    (destruct (frame_grown _ _ _ _ _ _ _ _ _ _ _ (uv_inv _ _ _ _ _ V1) F Hf G A) as [F1 M1]; [done|]);
    pose proof (on_behalf_only_mm _ _ _ _ B1 (gw_only _ _ _ _ _ _ _ _ G)) as B2.
  - rewrite (proj2 (Z.eqb_neq (p_size x + inc) 0)) by lia. cbn [negb]. unfold upd_proc. repeat kstep. cbn [Z.eqb].
    pose proof (on_behalf_upd p x s1 (set_p_size (p_size x + inc)) B2 eq_refl) as B3. split; [split|].
    + by eexists.
    + by exists N1.
    + done.
    + cbn. by rewrite (only_mm_satp _ _ (gw_only _ _ _ _ _ _ _ _ G)).
    + exists fl1, N1. eexists. split; [apply B3|]. left. split_and!; [done|done|]. by destruct V2 as [[] ? ? ? ?].
  - cbn [Z.eqb negb]. repeat kstep. split; [split|].
    + by exists x.
    + by exists N1.
    + done.
    + by rewrite (only_mm_satp _ _ (gw_only _ _ _ _ _ _ _ _ G)).
    + exists fl1, N1, x. split; [apply B2|]. right. by split_and!.
Qed.
Lemma eruns_runs_bind {A B} (R : env) (m : KM A) (f : A → KM B) s Q :
  runs (m ≫= f) s Q → eruns R m s (λ a s', eruns R (f a) s' Q).
Proof.
  intros (b & s' & E & HQ). rewrite K_bind_eq in E. unfold eruns. destruct (m s) as [a s1| | |]; [|done..].
  constructor. cbn in E. rewrite E. by constructor.
Qed.

(** ** Properties *)

(** C9: A system call, from the stub to the kernel and back.  The stub of [n]
    traps with the number of [n]; [user_trap_vector] saves the registers; and
    [user_trap_handler] calls the function named [n] of the table, which finds the
    registers of the caller in the trap frame, the arguments among them.  If the
    function returns to the process (sleeping on the way or not), with its page
    table and its trap frame as they were, then the handler returns, and
    [return_to_user_space] goes back to the instruction after the [ecall], which
    returns to the caller of the stub: [a0] is the result of the function, every
    other register but [a7] is as it was at the call, and memory outside of the
    frame is as the function left it.  (The calls that do not return in this way are
    [exit], [shutdown] and a successful [execve].) *)
Theorem system_call (R : env) n d p x N (Q : Z → kstate → Prop) :
  regs_ok d → c_satp d = MAKE_SATP (p_page_table x) → frame_mapped (c_mem d) N (p_page_table x) (p_tf x) →
  0 ≤ ld_user_trap_handler ld < 2 ^ 64 →
  ∃ d1 a d2, run (usys n) d = Some (LEcall, [Ret], d1) ∧ run user_trap_vector d1 = Some (LJump a, [], d2) ∧
  same_but (p_tf x) 288 (c_mem d) (c_mem d2) ∧
  ∀ s, on_behalf p x s → k_mem s = c_mem d2 → scause (k_hart s) = 8 → Z.land (sstatus (k_hart s)) SSTATUS_SPP = 0 →
    0 ≤ sepc (k_hart s) < 2 ^ 64 →
  (∀ q, q ≠ X0 → q ≠ A7 → ld64 (k_mem (at_call x s)) (p_tf x + trap_frame q) = rget d q) ∧
  (eruns R (sys_of n) (at_call x s) (λ r s1, Q r s1 ∧ returns_to p x (k_mem (at_call x s)) s1) →
   eruns R (user_trap_handler ld pad) s (λ v s', ∃ r s1, Q r s1 ∧ same_but (p_tf x) 288 (k_mem s1) (k_mem s') ∧
    sepc (k_hart s') = u64 (sepc (k_hart s) + 4) ∧ to_user (sstatus (k_hart s')) ∧
    ∀ c, c_mem c = k_mem s' → rget c A0 = v →
    ∃ c', run return_to_user_space c = Some (LSret, [], c') ∧ run [Ret] c' = Some (LJump (rget d Ra), [], c') ∧
      rget c' A0 = u64 r ∧ ∀ q, q ≠ A0 → q ≠ A7 → rget c' q = rget d q)).
Proof.
  intros Hr Hd F Hld. assert (0 ≤ sysnum n < 2 ^ 64) as Hn64 by by destruct n. set (d1 := rset A7 (sysnum n) d).
  assert (regs_ok d1) as Hr1 by (intros q; cbn; case_decide; [done|apply Hr]).
  destruct (user_trap_vector_spec d1 (p_tf x)) as (a & d2 & Hv & _ & _ & _ & _ & T5 & _ & T7); [cbn; rewrite Hd; by eapply window_frame|done|].
  exists d1, a, d2. split_and!; [cbn; by rewrite (wrap_small 64)|done|done|].
  intros s B Em Hc Hst Hpc. assert (∀ q, q ≠ X0 → q ≠ A7 → ld64 (k_mem (at_call x s)) (p_tf x + trap_frame q) = rget d q) as Hall.
  { intros q H1 H2. cbn. assert (40 ≤ trap_frame q) as Ho by by destruct q. rewrite !ldn_stn_out by (unfold TF_epc; lia).
    rewrite Em, T5 by done. unfold rget, d1. cbn [rset c_regs]. by rewrite !(decide_False (P := q = X0)), (decide_False (P := q = A7)). }
  split; [done|]. intros Hq. eapply user_trap_handler_enter; [done|done|done|done|rewrite Em; by apply (T5 A7)|].
  eapply eruns_conseq; [exact Hq|]. intros r s1 [HQ Hret].
  apply eruns_runs_bind.
  kcall (user_trap_handler_leave p x _ r s1 Hret Hld). intros v s' (E & U & M & Hc').
  exists r, s1. split_and!; [done|done| |done|].
  - rewrite E. cbn. apply (ldn_stn 8), Z.mod_pos_bound. lia.
  - intros c Ec Ea. destruct (Hc' c Ec Ea) as (c' & H1 & H2 & H3).
    assert (∀ q, q ≠ A0 → q ≠ A7 → rget c' q = rget d q) as Hreg.
    { intros q Q1 Q2. destruct (decide (q = X0)) as [->|Hx]; [done|]. by rewrite H3, Hall. }
    exists c'. split_and!; [done|cbn; by rewrite Hreg|done|done].
Qed.
End call.

(** ** A process that asks for a page of memory *)

(** In an environment that resumes nobody, code that runs does not sleep. *)
Lemma erun_never {A} (m : KM A) s Q : eruns (λ _ _ _, False) m s Q → runs m s Q.
Proof. unfold eruns. intros H. inversion H as [a s' HQ E|p s' k [s2 []]]. by exists a, s'. Qed.

Lemma run_bytes_ok code : ∀ c l rest c', run code c = Some (l, rest, c') → bytes_ok (c_mem c) → bytes_ok (c_mem c').
Proof.
  assert (∀ i c c', exec i c = Some c' → bytes_ok (c_mem c) → bytes_ok (c_mem c')) as He.
  { intros i c c' E Hb. destruct i as [rs off rb|rd off rb| | | | | |[]|? []| | | | | |]; cbn in E; simplify_option_eq; try done. by apply stn_bytes_ok. }
  induction code as [|i code IH]; intros c l rest c' E Hb; [by injection E as <- <- <-|].
  destruct i; cbn [run] in E; first [by injection E as <- <- <-|apply bind_Some in E as (c1 & E1 & E2); by eapply IH, He]. 
Qed.

(** The user space is there for another state with the same free pages, when the
    memory differs only in the trap frame. *)
Lemma uvm_ok_frame s fl N root sz tf s' :
  uvm_ok s fl N root sz → frame_mapped (k_mem s) N root tf → tf ∉ fl → same_but tf 288 (k_mem s) (k_mem s') →
  bytes_ok (k_mem s') → k_free s' = k_free s → hart_ok (k_hart s') → noff (k_hart s') + 1 < 2 ^ 30 → lock_free LFreeList s' →
  uvm_ok s' fl N root sz.
Proof.
  intros [[I1 I2 I3 I4 I5 I6 I7 I8] V2 V3 V4 V5] [F1 F2 F3 F4] Hf Hm Hb Hk Hh Hn Hl.
  assert (mem_same (eq tf) (k_mem s) (k_mem s')) as Hs.
  { intros a Ha. apply Hm. intros Hin. apply (Ha tf eq_refl). unfold in_page, PAGE_SIZE. lia. }
  assert (∀ q, tf = q → is_page q) as Hp by by intros q <-.
  destruct (pt_wf_ext _ (k_mem s') _ _ I7) as [W L].
  { intros q l i Hq Hi. apply (ent_same (eq tf)); [done|done|by apply (wf_page _ _ _ I7 _ _ Hq)|congruence|done]. }
  split; [split; try done| |done| |].
  - rewrite Hk. eapply fl_rep_ext; [|exact I5]. intros q Hq. apply (ent_same (eq tf)); [done|done|by eapply fl_rep_page|congruence|lia].
  - by eapply user_space_ext.
  - intros va. rewrite L. apply V4.
  - intros va. rewrite L. apply V5.
Qed.

Lemma at_call_on_behalf ld p x s : on_behalf p x s → on_behalf p x (at_call ld x s).
Proof.
  intros B. set (s1 := set_k_mem (k_mem (at_call ld x s)) s).
  change (at_call ld x s) with (settled (set_k_hart (set_sstatus (Z.lor (sstatus (k_hart s1)) SSTATUS_SIE)
    (hart_settle (set_stvec (ld_kernel_trap_vector ld) (hart_settle (k_hart s1))))) s1)).
  apply on_behalf_settled. 
  pose proof (on_behalf_settled p x s1 (on_behalf_mem p x s _ B)) as B1.
  pose proof (on_behalf_hart p x _ (set_stvec (ld_kernel_trap_vector ld) (hart_settle (k_hart s1))) B1 eq_refl eq_refl) as B2.
  pose proof (on_behalf_settled p x _ B2) as B3.
  exact (on_behalf_hart p x _ (set_sstatus (Z.lor (sstatus (k_hart s1)) SSTATUS_SIE) (hart_settle (set_stvec (ld_kernel_trap_vector ld) (hart_settle (k_hart s1))))) B3 eq_refl eq_refl).
Qed.

(** The first process of [family] with a page of memory. *)
Definition growing_proc : process := set_p_size 100 seated_proc.
Definition growing (s : kstate) (m : memory) : kstate :=
  set_k_mem m (set_k_hart (set_scause 8 (upd_this (set_c_proc (Some 0%nat)) (k_hart bss)))
   (set_k_procs (<[0%nat := growing_proc]> (k_procs bss)) (set_k_locks (<[LProc 0 := mk_spin_lock false (-1) "process"]> (k_locks s)) s))).

Lemma growing_hart : hart_ok (k_hart (growing bss ∅)) ∧ noff (k_hart (growing bss ∅)) = 0 ∧ this_cpu (k_hart (growing bss ∅)) = mk_cpu (Some 0%nat) 0 false.
Proof. split; [split; by vm_compute|by vm_compute]. Qed.

Lemma growing_on_behalf s m : on_behalf 0 growing_proc (growing s m).
Proof.
  destruct growing_hart as (H1 & H2 & H3). change (k_hart (growing bss ∅)) with (k_hart (growing s m)) in *.
  split; [exact H1|exact H2|by rewrite H3|reflexivity|reflexivity|]. exists "process". apply lookup_insert_eq.
Qed.

Lemma family_ready : ∃ s fl N, uvm_ok s fl N small_root 100 ∧ frame_mapped (k_mem s) N small_root (p_tf growing_proc) ∧ p_tf growing_proc ∉ fl.
Proof.
  destruct family_table as (s1 & fl0 & fl1 & N1 & st & G1 & Ha & Hfl & U), family_steps as (s1' & s2 & s3 & s4 & H1 & H2 & _).
  rewrite H1 in G1. injection G1 as ->. destruct (family_frame 1 ltac:(lia)) as [F1 F2], family_sizes as (Z1 & Z2 & Z3 & _).
  pose proof (user_table_frame _ _ _ _ _ _ _ _ _ F1 U) as F. pose proof (user_table_uvm 4096 _ _ _ _ _ _ _ _ U) as V.
  change (p_tf growing_proc) with (p_tf (family_proc 1)). assert (p_tf (family_proc 1) ∉ fl1) as Hf.
  { intros Hq. apply (ut_fl _ _ _ _ _ _ _ _ _ U), Hfl in Hq. lia. }
  destruct (uvm_alloc_spec s1 fl1 N1 small_root 0 100 PTE_W V Z1 Z2) as (r & s & Hr & fl & N & Hc). rewrite H2 in Hr. injection Hr as <- <-.
  destruct Hc as [(_ & V2 & G & A)|(Hz & _)]; [|discriminate Hz].
  destruct (frame_grown _ _ _ _ _ _ _ _ _ _ _ (uv_inv _ _ _ _ _ V) F Hf G A Z3) as [F' _].
  exists s2, fl, N. split; [exact V2|]. split; [exact F'|]. intros Hq.
  assert (pool fl1 N1 (p_tf (family_proc 1))) as [Hin|[l Hl]]; [|exact (Hf Hin)|].
  - apply (ac_pages _ _ _ _ _ _ _ _ _ _ A). right. left. left. exact Hq.
  - rewrite (fm_apart _ _ _ _ F) in Hl. discriminate Hl.
Qed.

Lemma sbrk_sizes : 0 ≤ satp (k_hart bss) < 2 ^ 64 ∧ 0 < 4096 ∧ p_size growing_proc + 4096 ≤ USER_STACK_BASE.
Proof. by vm_compute. Qed.

Lemma growing_sbrk s fl N m :
  uvm_ok s fl N small_root 100 → frame_mapped (k_mem s) N small_root (p_tf growing_proc) → p_tf growing_proc ∉ fl →
  same_but (p_tf growing_proc) 288 (k_mem s) m → bytes_ok m →
  let s1 := at_call demo_linker growing_proc (growing s m) in
  ld64 (k_mem s1) (p_tf growing_proc + TF_a0) = 4096 →
  runs sys_sbrk s1 (λ r s2, (r = 100 ∨ r = u64 (-1)) ∧ returns_to 0 growing_proc (k_mem s1) s2).
Proof.
  intros V F Hf Hm Hb s1 Ha. pose proof (growing_on_behalf s m) as B. pose proof (at_call_on_behalf demo_linker 0 growing_proc _ B : on_behalf _ _ s1) as B1.
  assert (same_but (p_tf growing_proc) 288 (k_mem s) (k_mem s1)) as Hm1.
  { eapply same_but_trans; [exact Hm|]. eapply same_but_trans; by apply same_but_st64. }
  assert (uvm_ok s1 fl N small_root 100) as V1.
  { apply (uvm_ok_frame s fl N small_root 100 (p_tf growing_proc) s1 V F Hf Hm1); [|reflexivity|apply B1|rewrite (ob_noff _ _ _ B1); lia|].
    - do 2 apply stn_bytes_ok. exact Hb.
    - destruct (mi_lock _ _ _ _ (uv_inv _ _ _ _ _ V)) as [name Hl]. exists name. cbn. rewrite lookup_insert_ne by discriminate. exact Hl. }
  destruct sbrk_sizes as (Z1 & Z2 & Z3).
  kcall (sbrk_call 0 growing_proc s1 fl N 4096 B1 V1 (frame_mapped_same _ _ _ _ _ Hm1 F) Hf Z1 Ha Z2 Z3).
  intros r s2 (H1 & fl2 & N2 & x2 & _ & Hc). split; [|exact H1]. destruct Hc as [(-> & _)|(-> & _)]; [by left|by right].
Qed.

Lemma system_call_witness : ∃ s d d1 a d2, rget d A0 = 4096 ∧
  run (usys SYS_sbrk) d = Some (LEcall, [Ret], d1) ∧ run user_trap_vector d1 = Some (LJump a, [], d2) ∧
  ∃ v s', user_trap_handler demo_linker [] (growing s (c_mem d2)) = Ok v s' ∧ sepc (k_hart s') = 4 ∧
  ∀ c, c_mem c = k_mem s' → rget c A0 = v → ∃ c', run return_to_user_space c = Some (LSret, [], c') ∧
    (rget c' A0 = 100 ∨ rget c' A0 = u64 (-1)).
Proof.
  destruct family_ready as (s & fl & N & V & F & Hf). pose (d := mk_acore (λ _, 4096) 0 (MAKE_SATP small_root) (k_mem s)).
  destruct (system_call demo_linker [] (λ _ _ _, False) SYS_sbrk d 0 growing_proc N (λ r _, r = 100 ∨ r = u64 (-1)))
    as (d1 & a & d2 & H1 & H2 & H3 & H4); [intros q; cbn; lia|reflexivity|exact F|by vm_compute|].
  exists s, d, d1, a, d2. split_and!; [reflexivity|exact H1|exact H2|].
  pose proof (growing_on_behalf s (c_mem d2)) as B. destruct (H4 (growing s (c_mem d2)) B) as [Ha Hc]; [done..|by vm_compute|by vm_compute|].
  assert (bytes_ok (c_mem d2)) as Hb.
  { apply (run_bytes_ok _ _ _ _ _ H2), (run_bytes_ok _ _ _ _ _ H1), (mi_bytes _ _ _ _ (uv_inv _ _ _ _ _ V)). }
  pose proof (growing_sbrk s fl N (c_mem d2) V F Hf H3 Hb (Ha A0 ltac:(discriminate) ltac:(discriminate))) as Hs.
  destruct (erun_never _ _ _ (Hc (eruns_runs _ _ _ _ Hs))) as (v & s' & E & r & s1 & Hr & _ & Hp & _ & Hu).
  exists v, s'. split; [exact E|]. split; [exact Hp|]. intros c Ec Ea. destruct (Hu c Ec Ea) as (c' & R1 & _ & R2 & _).
  exists c'. split; [exact R1|]. destruct Hr as [-> | ->]; [left|right]; exact R2.
Defined.
