(* ===== verification/FsBoot.v ===== *)
(** From the disk image to the running file system: [fs_init]
    (kernel/fs/fs.c) on the image that tools/mkfs.c writes. *)

From S2P Require Import Prelude Mem State Machine Mm MmInit Proc Sync Virtio Buf Log Inode Mkfs FsData MkfsTheorems ProcTheorems Env VirtioTheorems BufList BufCache BufOps LogOps LogTheorems LogWrite.

(** The log structure in the memory of the kernel before [log_init]. *)
Record log_fresh (g : log) : Prop := {
  lf_len : length (lh_blocks g) = Z.to_nat LOG_SIZE;
  lf_outstanding : lg_outstanding g = 0;
  lf_committing : lg_committing g = false;
}.

Lemma on_cpu_init t n held l name s :
  on_cpu t n held s → l ∈ t_locks t → l ∉ held → on_cpu t n held (set_k_locks (<[l := mk_spin_lock false (-1) name]> (k_locks s)) s).
Proof.
  intros [H1 H2 H3 H4 H5 H6 H7 H8] Hl Hh. split; try done; cbn [k_locks k_hart set_k_locks].
  - rewrite dom_insert_L, H6. apply subseteq_union_1_L. by apply singleton_subseteq_l.
  - intros l' x. destruct (decide (l' = l)) as [->|Hne].
    + rewrite lookup_insert_eq. intros [= <-]. by rewrite bool_decide_eq_false_2.
    + rewrite lookup_insert_ne by done. apply H8.
Qed.

Section boot.
Context `{DV : Device} `{RN : Rounds} (R : env) `{DK : !Disk R} (t : task) (FL : fs_locks t).
Context (Hrounds : (1 < rounds)%nat).

(** [log_init] on a disk whose log has the entries [bl]. *)
Lemma log_init_spec bl f s :
  fs_ok t ∅ ∅ s → log_fresh (k_log s) → let sb := k_sb s in
  log_area (sb_log_start sb) → sb_n_log_blks sb = LOG_SIZE → pending (sb_log_start sb) f bl (k_disk s) →
  eruns R (log_init ROOT_DEV) s (λ _ s', quiet t (sb_log_start sb) s' ∧ wsim s s' ∧
    k_disk s' = apply_writes (install_writes (sb_log_start sb) bl (k_disk s)) (k_disk s)).
Proof.
  intros Hs [F1 F2 F3] sb Ha Hn Hp. unfold log_init, spin_lock_init, upd_log. do 10 estep.
  set (s1 := set_k_locks _ s). set (s2 := set_k_log _ _).
  assert (fs_ok t ∅ ∅ s2) as H2.
  { apply fs_ok_log, fs_ok_log, fs_ok_log. destruct Hs as [A1 A2 A3]. split; [|done|done].
    apply on_cpu_init; [done|apply FL|set_solver]. }
  ecall (recover_spec R t FL Hrounds (sb_log_start sb) Ha bl s2 f H2); [by split_and!|done|].
  intros [] s3 (g & H3 & Hl & Hsl & W3).
  pose proof (wrote_k_disk _ _ _ W3) as E3. pose proof (wrote_k_log _ _ _ W3) as G3. cbn [k_disk k_log set_k_log] in E3, G3.
  split_and!; [|exact (wrote_wsim _ _ _ W3)|exact E3]. pose proof (f_equal lg_size Hsl) as E4.
  pose proof (f_equal lg_outstanding Hsl) as E5. pose proof (f_equal lg_committing Hsl) as E6.
  cbn [lg_size lg_outstanding lg_committing set_lh_n set_lh_blocks] in E4, E5, E6.
  split; rewrite ?G3; [done|done|by rewrite <-E4|by rewrite <-E5|by rewrite <-E6|].
  rewrite E3. exact (proj1 (pe_header _ _ _ _ (pending_cleared (sb_log_start sb) Ha f bl _ Hp))).
Qed.

Lemma fs_init_spec bl f s :
  fs_ok t ∅ ∅ s → log_fresh (k_log s) → let sb := parse_sb (block (k_disk s) 1) in
  log_area (sb_log_start sb) → sb_n_log_blks sb = LOG_SIZE → pending (sb_log_start sb) f bl (k_disk s) →
  eruns R (fs_init ROOT_DEV) s (λ _ s', quiet t (sb_log_start sb) s' ∧ wsim (set_k_sb sb s) s' ∧
    k_disk s' = apply_writes (install_writes (sb_log_start sb) bl (k_disk s)) (k_disk s)).
Proof.
  intros Hs Hf sb Ha Hn Hp. unfold fs_init. estep.
  ecall (bread_spec R t FL Hrounds ∅ ∅ 1 s Hs); [set_solver|done|right; rewrite (right_id_L ∅ (∪)), size_empty; unfold N_BUF; lia|].
  intros b s1 (H1 & B1 & V1 & R1 & _). rewrite (right_id_L ∅ (∪)) in H1. rewrite (seen_clean t s 1 Hs) in B1.
  estep. ecallr (buf_data_spec s1 1 b _ B1). intros ? ? [-> ->]. fold sb. estep. estep.
  assert (fs_ok t ∅ {[1]} (set_k_sb sb s1)) as H1'.
  { destruct H1 as [A1 A2 A3]. split; [by eapply on_cpu_sim|done|done]. }
  estep. ecallr (brelse_spec t FL ∅ {[1]} (set_k_sb sb s1) 1 b _ H1'); [set_solver|exact B1| |].
  { right. cbn [k_disk set_k_sb]. by rewrite <-(rsim_k_disk _ _ R1). }
  intros [] s2 (H2 & _ & R2 & _). rewrite difference_diag_L in H2.
  pose proof (rsim_k_disk _ _ R2) as D2. cbn [k_disk set_k_sb] in D2. rewrite <-(rsim_k_disk _ _ R1) in D2.
  pose proof (rsim_k_sb _ _ R2) as S2. pose proof (rsim_k_log _ _ R2) as L2. cbn [k_sb k_log set_k_sb] in S2, L2.
  rewrite D2, S2 in *. eapply eruns_conseq; [apply (log_init_spec bl f s2 H2)|]; [|done|done|done|].
  - rewrite <-L2, <-(rsim_k_log _ _ R1). done.
  - intros [] s3 (A1 & A2 & A3). split_and!; [done| |done]. etrans; [|exact A2].
    etrans; [|exact (rsim_wsim _ _ R2)]. apply wsim_set_sb, rsim_wsim, R1.
Qed.
End boot.

(** The header block of an empty log stays as it is. *)
Lemma clear_zero_log dk :
  dk !! log_start = Some zero_block → apply_writes (install_writes log_start [] dk) dk = dk.
Proof.
  intros Hz. unfold install_writes. assert (block dk log_start = zero_block) as -> by (unfold block; by rewrite Hz).
  assert (header [] zero_block = zero_block) as -> by by vm_compute. simpl. by apply insert_id.
Qed.

Lemma image_pending files dk : image_of files dk → pending log_start (block dk) [] dk.
Proof.
  intros Hi. pose proof (im_log _ _ Hi) as Hz. assert (block dk log_start = zero_block) as E by (unfold block; by rewrite Hz).
  apply pending_nil; [by rewrite E|rewrite E; apply word32_zero|done].
Qed.

Lemma image_init_spec `{Device} `{Rounds} R `{!Disk R} t files s :
  (1 < rounds)%nat → fs_locks t → fs_ok t ∅ ∅ s → log_fresh (k_log s) → image_of files (k_disk s) →
  eruns R (fs_init ROOT_DEV) s (λ _ s', wsim (set_k_sb layout s) s' ∧ quiet t log_start s' ∧ k_disk s' = k_disk s).
Proof.
  intros Hr FL Hs Hf Hi. pose proof (image_pending _ _ Hi) as Hp. destruct Hi as [_ _ _ Hsb Hz _ _ _ _ _ _].
  assert (parse_sb (block (k_disk s) 1) = layout) as E.
  { unfold block. unfold blk in Hsb. destruct (k_disk s !! 1); [exact Hsb|]. by vm_compute in Hsb. }
  ecall (fs_init_spec R t FL Hr [] (block (k_disk s)) s Hs Hf); rewrite E; [done|done|exact Hp|].
  intros [] s' (Hq & Hb & Hd). split_and!; [done|exact Hq|]. rewrite Hd. by apply clear_zero_log.
Qed.

(** C6: a machine whose disk is the image that mkfs wrote for some files
    boots: [fs_init] reads the super block with the layout of the image,
    recovery finds nothing to install and leaves the disk as it is, and
    afterwards the log is ready for the first transaction. *)
Theorem image_boots `{Device} `{Rounds} R `{!Disk R} t files s :
  (1 < rounds)%nat → fs_locks t → fs_ok t ∅ ∅ s → log_fresh (k_log s) → image_of files (k_disk s) →
  eruns R (fs_init ROOT_DEV) s (λ _ s', k_sb s' = layout ∧ quiet t log_start s' ∧ k_disk s' = k_disk s).
Proof.
  intros. eapply eruns_conseq; [by eapply image_init_spec|]. intros [] s' (Hb & Hq & Hd).
  split_and!; [exact (eq_sym (wsim_k_sb _ _ Hb))|done|done].
Qed.
