(* ===== verification/ImageRead.v ===== *)
(** Reading the image that tools/mkfs.c writes: a path names the file that the
    tool was given, and the kernel reads its bytes (kernel/fs/inode.c: [namei],
    [ilock], [readi], [iunlock], [iput]). *)

From S2P Require Import Prelude Mem Strings State Machine Mm MmInit Proc Sync Virtio Buf Log Inode Mkfs FsData MkfsTheorems ProcTheorems Env VirtioTheorems BufList BufCache BufOps LogOps LogTheorems LogWrite InodeRead InodeTable InodeDir FsBoot.

(** ** Definitions *)

(** The name of entry [k] of the root directory of the image. *)
Definition entry_name (files : list (list Z * list Z)) (k : nat) : list Z :=
  match k with
  | 0%nat => [46]
  | 1%nat => [46; 46]
  | S (S i) => from_option (λ f, short_name f.1) [] (files !! i)
  end.

(** File [i] can be named: its name is not empty, and no entry before it has
    the same first [DIR_SIZE] bytes. *)
Record nameable (files : list (list Z * list Z)) (i : nat) : Prop := {
  nm_nul : Forall (λ f, 0 ∉ f.1) files;
  nm_elem : entry_name files (i + 2) ≠ [];
  nm_first : ∀ k, (k < i + 2)%nat → take DIR_SIZE (entry_name files k) ≠ take DIR_SIZE (entry_name files (i + 2));
}.

(** A file is opened by its path and [len] bytes at [off] are read. *)
Definition read_path `{Device} `{Rounds} (path : list Z) (off len : Z) : KM (option (Z * list Z)) :=
  r ← namei path;
  match r with
  | None => mret None
  | Some i => ilock i;; x ← readi i false 0 off len; iunlock i;; iput i;; mret (Some x)
  end.

(** ** Names *)

Lemma rdl_lookup l j : 0 ∉ l → rdl l (Z.of_nat j) = 0 ↔ l !! j = None.
Proof.
  intros H. unfold rdl. rewrite Nat2Z.id. destruct (l !! j) as [c|] eqn:E; [|done]. split; [|done]. cbn [from_option id].
  intros ->. destruct H. by eapply list_elem_of_lookup_2.
Qed.

Lemma rdl_strncpy a n j : 0 ∉ a → (j < n)%nat → rdl (strncpy (rdl a) n) (Z.of_nat j) = rdl a (Z.of_nat j).
Proof.
  intros Ha Hj. destruct (strncpy_from_spec (rdl a) n 0) as [_ (k & Hk & Hc & Hz & He)].
  fold (strncpy (rdl a) n) in *. unfold rdl at 1. rewrite Nat2Z.id. destruct (decide (j < k)%nat) as [Hlt|Hge].
  - destruct (Hc j Hlt) as [_ Hj']. by rewrite Hj'.
  - rewrite Hz by lia. destruct He as [?|He]; [lia|]. symmetry. apply rdl_lookup; [done|].
    rewrite Z.add_0_l, rdl_lookup, lookup_ge_None in He by done. apply lookup_ge_None. lia.
Qed.

(** What [strncpy] stored compares equal to a name exactly when the names have
    the same first [n] bytes. *)
Lemma strncpy_same a b n :
  0 ∉ a → 0 ∉ b → strncmp (rdl (strncpy (rdl a) n)) (rdl b) n = 0 ↔ take n a = take n b.
Proof.
  intros Ha Hb. rewrite strncmp_zero. split.
  - intros (k & Hk & Hp & He). apply list_eq. intros j. destruct (decide (j < n)%nat) as [Hj|Hj].
    2: { rewrite !lookup_take_ge by lia. done. }
    rewrite !lookup_take_lt by done. destruct (decide (j < k)%nat) as [Hlt|Hge].
    + specialize (Hp j Hlt). rewrite rdl_strncpy in Hp by done. pose proof (rdl_lookup a j Ha). pose proof (rdl_lookup b j Hb).
      unfold rdl in *. rewrite Nat2Z.id in *. destruct (a !! j), (b !! j); naive_solver.
    + destruct He as [?|[He1 He2]]; [lia|]. rewrite rdl_strncpy in He1 by (done || lia).
      apply rdl_lookup in He1, He2; [|done..]. apply lookup_ge_None in He1, He2. rewrite !lookup_ge_None_2 by lia. done.
  - intros E. exists n. split_and!; [done| |by left]. intros j Hj. rewrite rdl_strncpy by done. unfold rdl.
    rewrite Nat2Z.id, <-(lookup_take_lt a n), <-(lookup_take_lt b n) by done. by rewrite E.
Qed.

Lemma after_slash_spec arg best :
  (47 ∈ arg → 47 ∉ after_slash arg best) ∧ (47 ∉ arg → after_slash arg best = best).
Proof.
  revert best. induction arg as [|c arg IH]; intros best; cbn [after_slash]; [set_solver|].
  rewrite elem_of_cons. destruct (IH (if c =? 47 then arg else best)) as [H1 H2]. split.
  - intros H. destruct (decide (47 ∈ arg)) as [Hin|Hin]; [by apply H1|]. rewrite H2 by done.
    destruct H as [<-|]; [done|done].
  - intros H. rewrite H2 by tauto. rewrite (proj2 (Z.eqb_neq c 47)); [done|]. intros ->. tauto.
Qed.

Lemma skip_underscores_sub name c : c ∈ skip_underscores name → c ∈ name.
Proof.
  induction name as [|x name IH]; cbn [skip_underscores]; [done|]. destruct (x =? 95); [|done]. intros H. right. auto.
Qed.

Lemma after_slash_sub arg : ∀ best c, c ∈ after_slash arg best → c ∈ arg ∨ c ∈ best.
Proof.
  induction arg as [|x arg IH]; intros best c; cbn [after_slash]; [by right|]. intros [H|H]%IH; [left; by right|].
  case_match; [|by right]. left. by right.
Qed.

Lemma short_name_slash arg : 47 ∉ short_name arg.
Proof.
  intros H%skip_underscores_sub. destruct (after_slash_spec arg arg) as [H1 H2].
  destruct (decide (47 ∈ arg)) as [Hin|Hin]; [by apply H1|]. rewrite H2 in H by done. done.
Qed.

Lemma short_name_nul arg : 0 ∉ arg → 0 ∉ short_name arg.
Proof. intros H Hn%skip_underscores_sub. apply after_slash_sub in Hn. tauto. Qed.

(** ** The image *)

Section image.
Context (files : list (list Z * list Z)) (img : gmap Z (list Z)) (Hi : image_of files img).
Context (f : Z → list Z) (Hf : ∀ n, f n = block img n).

Lemma image_blk a : 0 ≤ a < n_blks → f a = blk img a.
Proof. intros Ha. rewrite Hf. unfold block, blk. destruct (im_dom _ _ Hi a Ha) as [d Hd]. by rewrite Hd. Qed.

Lemma image_len n : length (f n) = Z.to_nat BLOCK_SIZE.
Proof.
  rewrite Hf. unfold block. destruct (img !! n) as [d|] eqn:E; [exact (im_len _ _ Hi _ _ E)|]. by vm_compute.
Qed.

Lemma image_inode ino : 0 ≤ ino < 8192 → on_disk f layout ino = disk_inode img ino.
Proof.
  intros Hino. unfold on_disk, disk_inode. cbn [layout sb_inode_start].
  rewrite image_blk; [done|]. lay. Z.to_euclidean_division_equations; lia.
Qed.

Lemma placed_addr di n j :
  placed img di n → 0 ≤ j < n → faddr f (di_addrs di) j = file_addr img di j.
Proof.
  intros [P1 P0 P2 P3] Hj. unfold faddr, file_addr, ind_of. destruct (Z.ltb_spec j N_DIRECT); [done|].
  rewrite image_blk; [done|]. specialize (P3 j ltac:(lia)). lay_lia.
Qed.

(** A file in the image is well-formed, and has the bytes that the tool copied. *)
Lemma image_file i arg bytes :
  files !! i = Some (arg, bytes) → let di := on_disk f layout (Z.of_nat (i + 2)) in
  di_type di = FT_FILE ∧ di_nlink di = 1 ∧ di_size di = Z.of_nat (length bytes) ∧
  file_ok f (di_addrs di) (di_size di) ∧ idata f layout (Z.of_nat (i + 2)) = bytes.
Proof.
  intros Hfi. pose proof (lookup_lt_Some _ _ _ Hfi) as Hlt. pose proof (im_count _ _ Hi) as Hc.
  unfold idata. rewrite image_inode by lia. set (di := disk_inode _ _).
  destruct (im_file _ _ Hi i arg bytes Hfi) as (F1 & F2 & F3 & F4). fold di in F1, F2, F3, F4.
  pose proof (im_placed _ _ Hi i arg bytes Hfi) as Hp. fold di in Hp. pose proof Hp as [P1 P0 P2 P3].
  assert (∀ j, 0 ≤ j → j * BLOCK_SIZE < di_size di → 0 ≤ j < n_chunks bytes) as Hj.
  { intros j H0 H1. rewrite F3 in H1. unfold n_chunks. lay. Z.to_euclidean_division_equations; lia. }
  cbv zeta. split_and!; [done|done|done| |].
  - split; [done| |].
    + rewrite F3. unfold n_chunks, MAX_BLOCKS in *. lay. Z.to_euclidean_division_equations; lia.
    + intros j H0 H1. specialize (Hj j H0 H1). split; [unfold MAX_BLOCKS; lia| |].
      * intros Hd. unfold ind_of. specialize (P3 j ltac:(lia)). lay_lia.
      * rewrite (placed_addr di _ j Hp Hj). specialize (P2 j Hj). lay_lia.
  - etrans; [|exact F4]. unfold fdata, read_file. do 2 f_equal. apply list_fmap_ext. intros k j [-> Hlj]%lookup_seqZ.
    assert (0 ≤ 0 + Z.of_nat k < n_chunks bytes) as Hk by (apply Hj; [lia|]; lay; Z.to_euclidean_division_equations; lia).
    rewrite (placed_addr di _ _ Hp Hk), image_blk; [done|]. specialize (P2 _ Hk). lay_lia.
Qed.

(** ** The root directory *)

Let n : Z := 2 + Z.of_nat (length files).

Lemma image_root : on_disk f layout ROOT_INO = root_dinode n.
Proof. rewrite image_inode by done. apply Hi. Qed.

Lemma root_size : 2 ≤ n ≤ 32.
Proof. unfold n. pose proof (im_count _ _ Hi). lia. Qed.

Lemma root_data : idata f layout ROOT_INO = take (Z.to_nat (n * DIRENT_SIZE)) (blk img data_start).
Proof.
  unfold idata. rewrite image_root. cbn [root_dinode di_size di_addrs]. unfold fdata. pose proof root_size.
  assert ((n * DIRENT_SIZE + BLOCK_SIZE - 1) / BLOCK_SIZE = 1) as -> by (lay; Z.to_euclidean_division_equations; lia).
  change (seqZ 0 1) with [0]. cbn [fmap list_fmap concat]. rewrite app_nil_r.
  change (faddr f (data_start :: replicate 12 0) 0) with data_start. by rewrite image_blk by lay_lia.
Qed.

Lemma root_entries : n_entries (idata f layout ROOT_INO) = Z.to_nat n.
Proof.
  pose proof root_size. rewrite root_data. unfold n_entries. rewrite length_take, <-image_blk, image_len by lay_lia.
  lay. rewrite Nat.min_l by lia. rewrite Z2Nat.inj_mul by lia. by rewrite Nat.div_mul.
Qed.

Lemma root_dirent (k : nat) :
  Z.of_nat k < n → let de := dirent (idata f layout ROOT_INO) k in (de_ino de, de_name de) = root_entry img k.
Proof.
  intros Hk. pose proof root_size. pose proof (image_len data_start) as Hl. rewrite image_blk in Hl by lay_lia.
  cbv zeta. rewrite root_data. unfold dirent, slice, root_entry, de_ino, de_name. set (d := blk img data_start) in *. lay.
  rewrite skipn_firstn_comm, take_take, Nat.min_l by lia. replace (Z.to_nat (32 * Z.of_nat k)) with (32 * k)%nat by lia.
  f_equal.
  - unfold get_le. f_equal. rewrite drop_0, take_take. by rewrite Nat.min_l by lia.
  - rewrite skipn_firstn_comm, drop_drop. done.
Qed.

Lemma image_entry (k : nat) :
  Z.of_nat k < n → let de := dirent (idata f layout ROOT_INO) k in
  de_ino de = (if decide (k < 2)%nat then ROOT_INO else Z.of_nat k) ∧
  de_name de = strncpy (rdl (entry_name files k)) DIR_SIZE.
Proof.
  intros Hk. pose proof (root_dirent k Hk) as E. cbv zeta in *. destruct k as [|[|i]].
  - rewrite (im_dot _ _ Hi) in E. by injection E.
  - rewrite (im_dotdot _ _ Hi) in E. by injection E.
  - destruct (lookup_lt_is_Some_2 files i) as [[arg bytes] Hfi]; [unfold n in Hk; lia|].
    replace (S (S i)) with (i + 2)%nat in E by lia. rewrite (im_entry _ _ Hi i arg bytes Hfi) in E.
    replace (i + 2)%nat with (S (S i)) in E by lia. rewrite decide_False by lia. cbn [entry_name]. rewrite Hfi. by injection E.
Qed.

Lemma root_ok : dir_ok f layout ROOT_INO.
Proof.
  pose proof root_size. split; rewrite ?image_root; cbn [root_dinode di_size di_addrs].
  - split; [done|unfold MAX_BLOCKS; lay_lia|]. intros j H0 H1. assert (j = 0) as -> by (lay; lia). by split.
  - apply Z.mod_mul. done.
  - rewrite root_entries. intros k Hk. destruct (image_entry k) as [-> _]; [lia|]. case_decide; unfold ROOT_INO; lia.
Qed.

Lemma entry_name_nul k : Forall (λ f, 0 ∉ f.1) files → 0 ∉ entry_name files k.
Proof.
  intros Hnul. destruct k as [|[|i]]; [set_solver..|]. cbn [entry_name]. destruct (files !! i) as [g|] eqn:E; [|set_solver].
  apply short_name_nul. exact (Forall_lookup_1 _ _ _ _ Hnul E).
Qed.

(** The entry of the root directory with the name of file [i]. *)
Lemma root_find i arg bytes :
  files !! i = Some (arg, bytes) → nameable files i →
  dir_find (idata f layout ROOT_INO) (take DIR_SIZE (entry_name files (i + 2))) = Some (i + 2)%nat.
Proof.
  intros Hfi [N1 N2 N3]. pose proof (lookup_lt_Some _ _ _ Hfi). set (name := entry_name files (i + 2)) in *.
  assert (∀ k, (k < i + 3)%nat → dir_match (take DIR_SIZE name) (dirent (idata f layout ROOT_INO) k) =
    bool_decide (take DIR_SIZE (entry_name files k) = take DIR_SIZE name)) as Hm.
  { intros k Hk. unfold dir_match. destruct (image_entry k) as [-> ->]; [unfold n; lia|].
    rewrite (proj2 (Z.eqb_neq _ 0)) by (case_decide; unfold ROOT_INO; lia). cbn [negb andb].
    pose proof (strncpy_same (entry_name files k) (take DIR_SIZE name) DIR_SIZE (entry_name_nul k N1)) as Hs.
    rewrite take_take, Nat.min_id in Hs. apply eq_bool_prop_intro.
    rewrite !Is_true_true, Z.eqb_eq, bool_decide_eq_true. apply Hs. intros Hin.
    apply (entry_name_nul (i + 2) N1). eapply elem_of_take in Hin as (? & ? & ?). by eapply list_elem_of_lookup_2. }
  apply dir_find_Some. rewrite root_entries. split_and!.
  - unfold n. lia.
  - rewrite Hm by lia. by apply bool_decide_eq_true.
  - intros j Hj. rewrite Hm by lia. apply bool_decide_eq_false. by apply N3.
Qed.

(** The path "/name" leads to the file. *)
Lemma path_elem i arg bytes :
  files !! i = Some (arg, bytes) → nameable files i → let name := entry_name files (i + 2) in
  elements (47 :: name) = [take DIR_SIZE name].
Proof.
  intros Hfi [N1 N2 N3] name. unfold name in *.
  assert (is_elem (entry_name files (i + 2))) as He.
  { split; [done|]. replace (i + 2)%nat with (S (S i)) by lia. cbn [entry_name]. rewrite Hfi. apply short_name_slash. }
  pose proof (skip_elem_render 1 _ [] 0 He) as E. cbn [render replicate app] in E. rewrite app_nil_r in E.
  pose proof (skip_elem_elements (47 :: entry_name files (i + 2))) as H. rewrite E in H by done. by destruct H as [-> _].
Qed.

Lemma resolve_file i arg bytes :
  files !! i = Some (arg, bytes) → nameable files i →
  let path := 47 :: entry_name files (i + 2) in
  resolve f layout false ROOT_INO (elements path) [] =
    (Some (Z.of_nat (i + 2)), take DIR_SIZE (entry_name files (i + 2))) ∧
  walk_ok f layout false ROOT_INO (elements path).
Proof.
  intros Hfi Hn path. pose proof (path_elem i arg bytes Hfi Hn) as Hp. pose proof (root_find i arg bytes Hfi Hn) as Hd.
  pose proof (lookup_lt_Some _ _ _ Hfi) as Hlt.
  destruct (image_entry (i + 2)) as [He _]; [unfold n; lia|]. rewrite decide_False in He by lia.
  destruct (image_file i arg bytes Hfi) as (F1 & F2 & _). unfold path. rewrite Hp.
  cbn [resolve walk_ok]. rewrite image_root. cbn [andb].
  rewrite Hd, He, F2. split; [done|]. split_and!; [done|done|]. intros _ _. split; [apply root_ok|done].
Qed.
End image.

(** ** Reading by path *)

(** The inode table before its first use. *)
Record itable_fresh (s : kstate) : Prop := {
  tf_len : length (k_inodes s) = N_INODE;
  tf_free : Forall (λ x, i_refcnt x = 0) (k_inodes s);
  tf_lock : ∀ i, (i < N_INODE)%nat → ∃ name, k_slocks s !! SlInode i = Some (mk_sleep_lock false (-1) name);
}.

Lemma fresh_none s i x : itable_fresh s → k_inodes s !! i = Some x → i_refcnt x = 0.
Proof. intros Hf. apply (Forall_lookup_1 _ _ _ _ (tf_free _ Hf)). Qed.

Lemma fresh_refs s n : itable_fresh s → iref (k_inodes s) n = 0.
Proof. intros Hf. apply iref_none. intros i x Hx Hl. pose proof (fresh_none _ _ _ Hf Hx). lia. Qed.

Lemma fresh_ok t s :
  itable_fresh s → 0 ≤ sb_inode_start (k_sb s) → sb_inode_start (k_sb s) + 2 ^ 12 < 2 ^ 31 → itable_ok t ∅ s.
Proof.
  intros Hf H1 H2. pose proof Hf as [F1 F2 F3]. split; [done| | | |done].
  - eapply Forall_impl; [exact F2|]. cbn beta. intros x Hx. split; intros; lia.
  - intros i j x y Hx Hy Lx. pose proof (fresh_none _ _ _ Hf Hx). lia.
  - intros i Hi. destruct (F3 i Hi) as [name Hn]. exists name. by rewrite decide_False by set_solver.
Qed.

Section read.
Context `{DV : Device} `{RN : Rounds} (R : env) `{DK : !Disk R} (t : task) (FL : fs_locks t) (IL : inode_locks_of t).
Context (Hrounds : (1 < rounds)%nat) (P : gset Z) (HP : (size P < N_BUF)%nat).

Lemma walk_stays L e s0 s s' i ino :
  walking t P L e s0 s i ino → stays t P s s' → walking t P L e s0 s' i ino.
Proof.
  intros [W1 W2 W3 W4 W5 W6] St. pose proof St as (F & V & Q). pose proof (rsim_k_inodes _ _ Q) as E.
  split; [|by eapply itable_rsim| | | |done].
  - eapply istays_trans; [exact W1|]. by apply stays_istays.
  - unfold names. by rewrite <-E.
  - intros n. by rewrite <-E.
  - intros j m Hj. unfold names. rewrite <-E. by apply W5.
Qed.

(** A path that leads to the file [ino] gives its bytes, and the references are
    as before. *)
Lemma read_path_spec s path ino0 ino off len :
  fs_ok t P ∅ s → itable_ok t ∅ s → room s 2 → starts t s path ino0 →
  walk_ok (seen s) (k_sb s) false ino0 (elements path) →
  (resolve (seen s) (k_sb s) false ino0 (elements path) []).1 = Some ino →
  let di := on_disk (seen s) (k_sb s) ino in
  di_type di ≠ 0 → di_nlink di ≠ 0 → file_ok (seen s) (di_addrs di) (di_size di) →
  0 ≤ off ≤ di_size di → 0 ≤ len → off + len < 2 ^ 64 →
  let m := Z.min len (di_size di - off) in
  eruns R (read_path path off len) s (λ r s', r = Some (m, slice off m (idata (seen s) (k_sb s) ino)) ∧
    istays t P s s' ∧ itable_ok t ∅ s' ∧ ∀ n, refs s' n = refs s n).
Proof.
  intros Hs Ht Hroom Hst Hok Hres di Hty Hnl Hf Hoff Hlen Hend m. unfold read_path, namei. estep. estep.
  ecall (lookup_spec R t FL IL Hrounds P HP s path false ino0 Hs Ht Hroom Hst Hok).
  intros [r name] s1. cbn [fst snd]. cbv zeta. rewrite Hres. intros [_ W]. estep.
  destruct r as [i|]; [cbn [walked] in W|done].
  estep. ecall (walk_lock R t FL IL Hrounds P HP s s1 i ino W Hty). intros [] s2 [W2 L2].
  pose proof (wk_stays _ _ _ _ _ _ _ _ W2) as (F2 & V2 & Q2). pose proof (isim_k_sb _ _ Q2) as Esb.
  destruct (locked_fields _ _ _ L2) as (x & Hx & _ & Dx & _ & _ & _ & Sx & Ax).
  rewrite <-Esb, (on_disk_ext _ _ _ _ V2) in Sx, Ax. fold di in Sx, Ax.
  assert (file_ok (seen s2) (i_addrs x) (i_size x)) as Hf2.
  { rewrite Sx, Ax. destruct Hf as [K1 K2 K3]. split; [done|done|]. intros j H0 H1. destruct (K3 j H0 H1) as [M1 M2 M3].
    split; [done|done|]. by rewrite (faddr_ext _ (seen s)). }
  estep. ecall (readi_kernel R t FL Hrounds P HP s2 i x off len F2 Hx Dx Hf2); [by rewrite Sx|done|done|].
  intros r s3 [-> St3]. pose proof (walk_stays _ _ _ _ _ _ _ W2 St3) as W3.
  estep. ecallr (walk_unlock t IL P _ s s3 i ino W3). intros [] s4 [W4 _].
  estep. ecallr (walk_iput t IL P _ s s4 i ino W4 Hnl). intros [] s5 (A1 & A2 & A3 & A4 & _). estep.
  split_and!; [|done|done|done]. rewrite Sx, Ax. do 2 f_equal. unfold idata. fold di. unfold m. f_equal.
  unfold fdata. do 2 f_equal. apply list_fmap_ext. intros _ j _. by rewrite V2, (faddr_ext _ (seen s)).
Qed.
End read.

Lemma fresh_wsim s s' : wsim s s' → itable_fresh s → itable_fresh s'.
Proof.
  intros W [F1 F2 F3]. split; rewrite <-?(wsim_k_inodes _ _ W); [done|done|]. intros i Hi. rewrite <-(wsim_inode_lock _ _ W).
  by apply F3.
Qed.

Lemma fresh_room s n : itable_fresh s → (n ≤ N_INODE)%nat → Z.of_nat n < 2 ^ 31 → room s n.
Proof.
  intros Hf Hn Hz. split.
  - assert (in_use (k_inodes s) = ∅) as ->; [|rewrite size_empty; lia].
    apply elem_of_equiv_empty_L. intros m. rewrite elem_of_in_use, (fresh_refs _ _ Hf). lia.
  - intros m. rewrite (fresh_refs _ _ Hf). lia.
Qed.

(** ** Properties *)

(** C7: a machine whose disk is the image that mkfs wrote boots, and then reads
    the files back. The walk along the path "/name", for the name under which
    the tool stored a file, finds the inode of the file through the root
    directory; [readi] gives exactly the bytes of the file in the range asked
    for, up to the end of the file, for files of any length that the tool
    accepts; and all references to inodes are given back. *)
Theorem image_read `{Device} `{Rounds} R `{!Disk R} t files s i arg bytes off len :
  (1 < rounds)%nat → fs_locks t → inode_locks_of t → fs_ok t ∅ ∅ s → log_fresh (k_log s) → itable_fresh s →
  image_of files (k_disk s) → files !! i = Some (arg, bytes) → nameable files i →
  0 ≤ off ≤ Z.of_nat (length bytes) → 0 ≤ len → off + len < 2 ^ 64 →
  let m := Z.min len (Z.of_nat (length bytes) - off) in
  eruns R (fs_init ROOT_DEV;; read_path (47 :: entry_name files (i + 2)) off len) s (λ r s',
    r = Some (m, slice off m bytes) ∧ k_disk s' = k_disk s ∧ ∀ n, refs s' n = 0).
Proof.
  intros Hr FL IL Hs Hlf Hif Hi Hfi Hn Hoff Hlen Hend m. estep. ecall (image_init_spec R t files s Hr FL Hs Hlf Hi).
  intros [] s1 (W1 & Q1 & D1). pose proof (qt_fs _ _ _ Q1) as F1. pose proof (wsim_k_sb _ _ W1) as Esb. cbn [k_sb set_k_sb] in Esb.
  assert (itable_fresh s1) as Hif1 by (apply (fresh_wsim _ _ W1); by destruct Hif). clear W1 Hif.
  assert (∀ n, seen s1 n = block (k_disk s) n) as Hv by (intros n; rewrite <-D1; by apply (seen_clean t)).
  destruct (resolve_file files _ Hi (seen s1) Hv i arg bytes Hfi Hn) as [Hres Hok].
  destruct (image_file files _ Hi (seen s1) Hv i arg bytes Hfi) as (K1 & K2 & K3 & K4 & K5). rewrite Esb in *.
  eapply eruns_conseq.
  { apply (read_path_spec R t FL IL Hr ∅ ltac:(rewrite size_empty; unfold N_BUF; lia) s1 _ ROOT_INO (Z.of_nat (i + 2)) off len F1).
    - apply fresh_ok; [done|rewrite <-Esb; cbn [layout sb_inode_start]; lay_lia..].
    - apply fresh_room; [done|unfold N_INODE; lia|lia].
    - done.
    - exact Hok.
    - by rewrite Hres.
    - by rewrite K1.
    - by rewrite K2.
    - done.
    - by rewrite K3.
    - done.
    - done. }
  intros r s2 (-> & (F2 & V2 & Q2) & A2 & A3). rewrite K5, K3. split_and!; [done| |].
  - by rewrite <-D1, (isim_k_disk _ _ Q2).
  - intros n. rewrite A3. by apply fresh_refs.
Qed.
