(* ===== verification/FsExample.v ===== *)
(** A machine on which the theorems about the disk, the buffer cache and the
    log are applied: a virtio block device that serves every request, the
    kernel's tables as their initialisation leaves them, and one process.  The
    invariants are decided by computation. *)

From S2P Require Import Prelude Mem State Machine Mm MmInit Proc Sync Virtio Buf Log Inode Mkfs FsData MkfsTheorems ProcTheorems Env VirtioTheorems DiskIntr BufList BufCache BufOps LogOps LogTheorems LogWrite InodeRead InodeTable InodeDir FsBoot ImageRead.

(** ** The device *)

#[export] Instance quiet_device : Device := {|
  READ_REG := λ _, mret 0;
  WRITE_REG := λ _ _, mret tt;
  ECALL_SHUTDOWN := stuck PoweredOff;
|}.

#[export] Instance two_rounds : Rounds := 2%nat.

(** The request in the last entry of the available ring is served. *)
Definition serve (s : kstate) : kstate :=
  let d := k_vdisk s in
  let i0 := Z.to_nat (default 0 (vd_avail_ring d !! Z.to_nat ((vd_avail_idx d - 1) mod NUM))) in
  match vd_desc d !! i0, vd_ops d !! i0 with
  | Some h, Some op =>
      match vd_desc d !! Z.to_nat (d_next h) with
      | Some (mk_virtq_desc (DData b) _ _ _) =>
          match k_bufs s !! b with
          | Some x => set_k_vdisk (completed i0 d) (dma (rq_type op =? VIRTIO_BLK_T_OUT) b (rq_sector op / 2) x s)
          | None => s
          end
      | _ => s
      end
  | _, _ => s
  end.
Definition serves (s s' : kstate) : Prop := s' = serve s.

#[export] Instance serves_blk : BlkDevice serves.
Proof.
  split; [done|by eexists|done|by eexists|]. intros s s' b x i0 i1 i2 w sector [H1 H2 H3 H4 H5 H6] Hx ->.
  unfold serve. rewrite H6. cbn [default from_option id]. rewrite Nat2Z.id, H1, H4. cbn [d_next].
  rewrite Nat2Z.id, H2, Hx. by destruct w.
Qed.

(** Executions with the device: what the process does between its sleeps. *)
Definition world_step (p : nat) (s : kstate) : option kstate :=
  match switched_back p s with
  | Ok _ s1 =>
      match virtio_disk_intr (serve s1) with
      | Ok _ s3 => match (c ← current_cpu; scheduler_visit sleep c p) s3 with Sleep _ s' _ => Some s' | _ => None end
      | _ => None
      end
  | _ => None
  end.
Fixpoint drive {A} (fuel : nat) (o : outcome nat kstate A) : option (A * kstate) :=
  match fuel, o with
  | _, Ok a s => Some (a, s)
  | S fuel, Sleep p s k => match world_step p s with Some s' => drive fuel (k s') | None => None end
  | _, _ => None
  end.

(** ** The machine *)

(** After the initialisation of the tables, process 0 with identifier 1 runs
    on hart 0; the log is at block 2. *)
Definition booted : kstate :=
  let init : KM unit :=
    proc_init;; binit;; iinit;; spin_lock_init LDisk "virtio_disk";; spin_lock_init LLog "log";;
    upd_vdisk (set_vd_free (replicate 8 true));;
    upd_proc 0 (λ p, set_p_state PROC_RUNNING (set_p_pid 1 p));;
    upd_cpu 0 (set_c_proc (Some 0%nat));;
    upd_log (set_lg_start 2);; upd_log (set_lg_size 30);; upd_log (set_lg_dev ROOT_DEV) in
  final (init bss) bss.

Definition demo_task : task := mk_task 0 1 0 (dom (k_locks booted)).

(** A transaction: two blocks are filled. *)
Definition fill_block (n v : Z) : KM unit :=
  b ← bread ROOT_DEV n;
  set_buf_data b (λ _, replicate (Z.to_nat BLOCK_SIZE) v);;
  log_write b;;
  brelse b.
Definition filled : kstate :=
  match drive 10 ((begin_op;; fill_block 100 7;; fill_block 101 8) booted) with Some (_, s) => s | None => booted end.

(** The machine after a crash of its [commit], once the header was written. *)
Definition crashed : kstate :=
  set_k_disk (apply_writes (logging_writes 2 [100; 101] (seen filled) (seen filled 2)) ∅) booted.

(** The machine in the middle of a transaction: block 100 is held. *)
Definition holding_100 : kstate :=
  match drive 10 ((begin_op;; bread ROOT_DEV 100) booted) with Some (_, s) => s | None => booted end.

(** Two buffers for the same block, as the driver sees them. *)
Definition two_bufs : kstate :=
  set_k_bufs (<[3%nat := set_b_data (replicate 1024 9) (set_b_bno 50 buffer0)]>
    (<[4%nat := set_b_bno 50 buffer0]> (k_bufs booted))) booted.

(** ** The invariants by computation *)

#[export] Instance lock_state_dec h held x : Decision (lock_state h held x).
Proof. unfold lock_state. destruct held; apply _. Defined.
#[export] Instance links_dec nx pv l : ∀ a z, Decision (links nx pv a l z).
Proof. induction l as [|c l IH]; intros a z; simpl; unfold edge; apply _. Defined.

Definition idle_check (t : task) (s : kstate) : bool :=
  let h := k_hart s in
  bool_decide ((0 ≤ tp h < N_CPU ∧ length (cpus h) = Z.to_nat N_CPU ∧ noff h = 0) ∧
    c_proc (this_cpu h) = Some (t_proc t) ∧
    ((λ x, (p_pid x, p_page_table x)) <$> k_procs s !! t_proc t) = Some (t_pid t, t_pt t) ∧
    length (k_procs s) = N_PROC ∧ dom (k_locks s) = t_locks t ∧
    Forall (λ i, LProc i ∈ t_locks t) (seq 0 N_PROC) ∧
    map_Forall (λ _ x, lock_state h false x) (k_locks s)).

Lemma idle_check_sound t s : idle_check t s = true → idle t s.
Proof.
  intros ((Htp & Hc & Hn) & Hp & Hx & Hlen & Hdom & Hpr & Hl)%bool_decide_eq_true_1. split; try done.
  - split; [done|done|lia|lia].
  - destruct (k_procs s !! t_proc t) as [x|]; [|done]. injection Hx as <- <-. by exists x.
  - intros i Hi. rewrite Forall_forall in Hpr. apply Hpr, elem_of_seq. lia.
Qed.

Definition buf_check (t : task) (P H : gset Z) (sl : gmap slockid sleep_lock) (dk : disk)
    (b : nat) (x : buffer) : bool :=
  bool_decide (b_disk x = false ∧ length (b_data x) = Z.to_nat BLOCK_SIZE ∧ 0 ≤ b_bno x < 2 ^ 31 ∧
    (b_dev x = 0 ∨ b_dev x = ROOT_DEV) ∧
    b_refcnt x = (if decide (b_dev x = ROOT_DEV) then one (b_bno x ∈ P) + one (b_bno x ∈ H) else 0) ∧
    ((λ k, (slk_locked k, slk_pid k)) <$> sl !! SlBuf b) =
      Some (if decide (b_dev x = ROOT_DEV ∧ b_bno x ∈ H) then (true, t_pid t) else (false, -1)) ∧
    (b_dev x = ROOT_DEV ∧ (b_bno x ∉ P) ∧ (b_bno x ∉ H) → b_data x = block dk (b_bno x))).

Lemma buf_check_sound t P H sl dk b x : buf_check t P H sl dk b x = true → buf_ok t P H sl dk b x.
Proof.
  intros (H1 & H2 & H3 & H4 & H5 & H6 & H7)%bool_decide_eq_true_1. split; try done.
  - destruct (sl !! SlBuf b) as [[k pid name]|]; [|done]. exists name. simpl in H6.
    case_decide; by injection H6 as -> ->.
  - auto.
Qed.

(** The blocks in the buffers, with the buffers. *)
Definition cached_blocks (bs : list buffer) : list Z :=
  omap (λ x, if decide (b_dev x = ROOT_DEV) then Some (b_bno x) else None) (take N_BUF bs).

Definition cache_check (t : task) (P H : gset Z) (bs : list buffer) (sl : gmap slockid sleep_lock)
    (dk : disk) (l : list nat) : bool :=
  bool_decide ((length bs = S N_BUF ∧ Permutation l (seq 0 N_BUF) ∧ links (nxt bs) (prv bs) bhead l bhead) ∧
    Forall (λ b, from_option (buf_check t P H sl dk b) false (bs !! b) = true) (seq 0 N_BUF) ∧
    NoDup (cached_blocks bs) ∧ set_Forall (λ n, n ∈ cached_blocks bs) (P ∪ H) ∧
    map_Forall (λ _ d, length d = Z.to_nat BLOCK_SIZE) dk).

Lemma cached_blocks_spec bs n :
  n ∈ cached_blocks bs ↔ ∃ b x, cached bs n b x.
Proof.
  unfold cached_blocks, cached. rewrite list_elem_of_omap. split.
  - intros (x & [b Hb]%list_elem_of_lookup & Hx). apply lookup_take_Some in Hb as [Hb Hlt].
    case_decide; [|done]. injection Hx as <-. by exists b, x.
  - intros (b & x & Hlt & Hb & Hd & Hn). exists x. split; [|by rewrite decide_True, Hn].
    apply list_elem_of_lookup. exists b. by apply lookup_take_Some.
Qed.

Lemma cached_blocks_uniq bs n b b' x x' :
  NoDup (cached_blocks bs) → cached bs n b x → cached bs n b' x' → b = b'.
Proof.
  assert (∀ b b' x x', (b < b')%nat → NoDup (cached_blocks bs) → cached bs n b x → cached bs n b' x' → False) as Hlt.
  { clear. intros b b' x x' Hlt Hnd (Hb & Hx & Hd & Hn) (Hb' & Hx' & Hd' & Hn').
    assert (take N_BUF bs !! b = Some x) as E by (by apply lookup_take_Some).
    assert (take N_BUF bs !! b' = Some x') as E' by (by apply lookup_take_Some).
    unfold cached_blocks in Hnd. rewrite <-(take_drop (S b) (take N_BUF bs)), omap_app in Hnd.
    apply NoDup_app in Hnd as (_ & Hnd & _). apply (Hnd n).
    - apply list_elem_of_omap. exists x. split; [|by rewrite decide_True, Hn].
      apply list_elem_of_lookup. exists b. apply lookup_take_Some. split; [done|lia].
    - apply list_elem_of_omap. exists x'. split; [|by rewrite decide_True, Hn'].
      apply list_elem_of_lookup. exists (b' - S b)%nat. rewrite lookup_drop, <-E'. f_equal. lia. }
  intros Hnd C C'. destruct (Nat.lt_trichotomy b b') as [|[->|]]; [|done|]; exfalso; eauto.
Qed.

Lemma cache_check_sound t P H bs sl dk l : cache_check t P H bs sl dk l = true → cache_ok t P H bs sl dk.
Proof.
  intros ((Hlen & Hp & Hli) & Hb & Hnd & Hc & Hdk)%bool_decide_eq_true_1. split.
  - by exists l.
  - intros b x Hlt Hx. rewrite Forall_forall in Hb. apply buf_check_sound.
    specialize (Hb b). rewrite Hx in Hb. apply Hb, elem_of_seq. lia.
  - intros n b b' x x'. by apply cached_blocks_uniq.
  - intros n Hn. apply cached_blocks_spec, (Hc n). set_solver.
  - intros n d Hd. by apply (Hdk n).
Qed.

(** The buffers in the order of the list. *)
Definition lru_order (bs : list buffer) : list nat :=
  (fix go (fuel b : nat) := match fuel with O => [] | S fuel => b :: go fuel (nxt bs b) end) N_BUF (nxt bs bhead).

Definition disk_check (d : virtio_disk) : bool :=
  bool_decide (length (vd_desc d) = 8%nat ∧ length (vd_avail_ring d) = 8%nat ∧ length (vd_info d) = 8%nat ∧
    length (vd_ops d) = 8%nat ∧ length (vd_used_ring d) = 8%nat ∧ vd_used_idx d = vd_dev_idx d ∧
    0 ≤ vd_used_idx d < 2 ^ 16 ∧ vd_free d = replicate 8 true).

Lemma disk_check_sound d : disk_check d = true → disk_idle d.
Proof.
  intros (E1 & E2 & E3 & E4 & E5 & E6 & E7 & E8)%bool_decide_eq_true_1.
  split; [|done]. split; try done. by rewrite E8.
Qed.

Definition fs_check (t : task) (P H : gset Z) (s : kstate) : bool :=
  idle_check t s && disk_check (k_vdisk s) &&
  cache_check t P H (k_bufs s) (k_slocks s) (k_disk s) (lru_order (k_bufs s)).

Lemma fs_check_sound t P H s : fs_check t P H s = true → fs_ok t P H s.
Proof.
  unfold fs_check. intros [[H1 H2]%andb_prop H3]%andb_prop.
  split; [by apply idle_check_sound|by apply disk_check_sound|by eapply cache_check_sound].
Qed.

(** The process may use the file system. *)
Lemma fs_locks_check t :
  Forall (λ l, l ∈ t_locks t) (LBcache :: LDisk :: LLog :: ((λ b, LSleep (SlBuf b)) <$> seq 0 N_BUF)) → fs_locks t.
Proof.
  rewrite !Forall_cons, Forall_fmap, Forall_forall. intros (H1 & H2 & H3 & H4).
  split; [done|done|done|]. intros b Hb. apply H4, elem_of_seq. lia.
Qed.

Lemma inode_locks_check t :
  Forall (λ l, l ∈ t_locks t) (LItable :: ((λ i, LSleep (SlInode i)) <$> seq 0 N_INODE)) → inode_locks_of t.
Proof.
  rewrite Forall_cons, Forall_fmap, Forall_forall. intros [H1 H2].
  split; [done|]. intros i Hi. apply H2, elem_of_seq. lia.
Qed.

Lemma demo_locks : fs_locks demo_task.
Proof. apply fs_locks_check, (bool_decide_eq_true_1 _). vm_compute. reflexivity. Qed.

Lemma booted_ok : fs_ok demo_task ∅ ∅ booted.
Proof. apply fs_check_sound. vm_compute. reflexivity. Qed.

Lemma filled_ok : fs_ok demo_task (list_to_set [100; 101]) ∅ filled.
Proof. apply fs_check_sound. vm_compute. reflexivity. Qed.

Lemma filled_log : log_ok 2 [100; 101] (k_log filled).
Proof. split; vm_compute; reflexivity. Qed.

Lemma filled_homes : homes 2 [100; 101].
Proof.
  split; [apply (bool_decide_eq_true_1 _); reflexivity|apply (bool_decide_eq_true_1 _); reflexivity|].
  repeat constructor; unfold in_log, LOG_SIZE; lia.
Qed.

Lemma demo_area : log_area 2.
Proof. unfold log_area, LOG_SIZE. lia. Qed.

Lemma crashed_ok : fs_ok demo_task ∅ ∅ crashed.
Proof. apply fs_check_sound. vm_compute. reflexivity. Qed.

Lemma crashed_log : log_set 2 (k_log crashed).
Proof. split_and!; vm_compute; reflexivity. Qed.

Lemma crashed_pending : pending 2 (seen filled) [100; 101] (k_disk crashed).
Proof.
  apply pending_logged; [apply demo_area|apply filled_homes|vm_compute; reflexivity|].
  intros n Hn Hb. rewrite (view_clean _ _ _ _ _ _ (fo_cache _ _ _ _ filled_ok)); [|set_solver|set_solver].
  unfold block. rewrite lookup_empty. replace (k_disk filled) with (∅ : disk) by (vm_compute; reflexivity). done.
Qed.

(** ** Witnesses *)

(** The transaction of [filled] is committed; blocks 100 and 101 reach the
    disk whole. *)
Lemma commit_crash_safe_witness :
  fs_ok demo_task (list_to_set [100; 101]) ∅ filled ∧
  eruns (world serves) commit filled (λ _ s', block (k_disk s') 100 = replicate 1024 7 ∧
    block (k_disk s') 101 = replicate 1024 8).
Proof.
  split; [exact filled_ok|]. eapply eruns_conseq.
  - apply (commit_crash_safe (world serves) demo_task demo_locks (le_n 2) 2 demo_area filled [100; 101] filled_ok
      filled_log filled_homes). vm_compute. reflexivity.
  - intros [] s' (_ & Ho & _). split; [rewrite (Ho 100)|rewrite (Ho 101)];
      first [vm_compute; reflexivity|unfold in_log, LOG_SIZE; lia].
Defined.

(** A crash after the header was written: recovery installs both blocks. *)
Lemma recover_crash_safe_witness :
  fs_ok demo_task ∅ ∅ crashed ∧ block (k_disk crashed) 100 = replicate 1024 0 ∧
  eruns (world serves) recover_from_log crashed (λ _ s', block (k_disk s') 100 = replicate 1024 7).
Proof.
  split; [exact crashed_ok|]. split; [vm_compute; reflexivity|]. eapply eruns_conseq.
  - apply (recover_crash_safe (world serves) demo_task demo_locks (le_n 2) 2 demo_area crashed
      (seen filled) crashed_ok crashed_log).
    exists [100; 101]. exact crashed_pending.
  - intros [] s' [Ho _]. rewrite (Ho 100); [vm_compute; reflexivity|unfold in_log, LOG_SIZE; lia].
Defined.

(** The data of buffer 3 arrive in buffer 4. *)
Lemma disk_write_read_witness :
  idle demo_task two_bufs ∧
  eruns (world serves) (virtio_disk_write 3;; virtio_disk_read 4) two_bufs (λ _ s',
    b_data <$> k_bufs s' !! 4%nat = Some (replicate 1024 9)).
Proof.
  assert (idle demo_task two_bufs) as Hi by (apply idle_check_sound; vm_compute; reflexivity).
  assert (disk_idle (k_vdisk two_bufs)) as Hd by (apply disk_check_sound; vm_compute; reflexivity).
  split; [exact Hi|]. eapply eruns_conseq.
  - apply (disk_write_read serves demo_task 3 4 (set_b_data (replicate 1024 9) (set_b_bno 50 buffer0))
      (set_b_bno 50 buffer0) two_bufs (le_n 2) Hi (fl_disk _ demo_locks) Hd);
      [discriminate|vm_compute; reflexivity|vm_compute; reflexivity|reflexivity|simpl; lia|reflexivity|reflexivity].
  - intros [] s' (_ & _ & _ & ->). vm_compute. reflexivity.
Defined.

(** Block 100 of the empty disk is filled with 5. *)
Lemma cached_update_witness :
  fs_ok demo_task ∅ ∅ booted ∧
  eruns (world serves) (b ← bread ROOT_DEV 100; d ← buf_data b;
      set_buf_data b (λ _, replicate 1024 5);; bwrite b;; brelse b;; mret d) booted
    (λ d s', d = zero_block ∧ k_disk s' !! 100 = Some (replicate 1024 5)).
Proof.
  split; [exact booted_ok|]. eapply eruns_conseq.
  - apply (cached_update (world serves) demo_task demo_locks (le_n 2) ∅ 100 (λ _, replicate 1024 5) booted booted_ok);
      [lia|right; apply (bool_decide_eq_true_1 _); reflexivity|intros; apply length_replicate].
  - intros d s' (-> & _ & -> & _). split; [vm_compute; reflexivity|apply lookup_insert_eq].
Defined.

(** Block 100 is listed first. *)
Lemma log_write_absorbs_witness :
  txn demo_task 2 [] {[100]} holding_100 ∧
  runs (log_write 0) holding_100 (λ _ s', txn demo_task 2 [100] {[100]} s').
Proof.
  assert (txn demo_task 2 [] {[100]} holding_100) as Ht.
  { split; [apply fs_check_sound; vm_compute; reflexivity|split; vm_compute; reflexivity|apply homes_nil|
      vm_compute; reflexivity|vm_compute; discriminate]. }
  split; [exact Ht|]. eapply runs_conseq.
  - apply (log_write_absorbs demo_task demo_locks 2 [] {[100]} holding_100 100 0 zero_block Ht);
      [set_solver|unfold in_log, LOG_SIZE; lia|unfold LOG_SIZE; simpl; lia|].
    eexists. split; [split_and!|]; vm_compute; [lia|reflexivity..].
  - intros [] s' [H _]. exact H.
Defined.

(** Block 100 of the empty disk is filled with 6 by a whole operation. *)
Lemma update_op_durable_witness :
  quiet demo_task 2 booted ∧
  eruns (world serves) (update_op 100 (λ _, replicate 1024 6)) booted (λ _ s',
    block (k_disk s') 100 = replicate 1024 6).
Proof.
  assert (quiet demo_task 2 booted) as Hq.
  { split; [exact booted_ok|split; vm_compute; reflexivity|vm_compute; reflexivity..]. }
  split; [exact Hq|]. eapply eruns_conseq.
  - apply (update_op_durable (world serves) demo_task demo_locks (le_n 2) 2 demo_area 100 (λ _, replicate 1024 6)
      booted Hq); [lia|unfold in_log, LOG_SIZE; lia|intros; apply length_replicate].
  - intros [] s' [_ H]. rewrite (H 100); [reflexivity|unfold in_log, LOG_SIZE; lia].
Defined.

(** Two operations are open on an empty log; twenty-nine entries. *)
Lemma log_capacity_witness :
  idle demo_task booted ∧
  ∃ s', log_write 0 (set_k_log (set_lh_n 29 (k_log booted)) booted) = Panic "too big a transaction" s'.
Proof.
  split; [exact (fo_cpu _ _ _ _ booted_ok)|].
  apply (log_capacity (world serves) demo_task demo_locks (le_n 2)
    (set_k_log (set_lg_outstanding 2 (k_log booted)) booted) (set_k_log (set_lh_n 29 (k_log booted)) booted) 0);
    first [apply idle_check_sound; vm_compute; reflexivity|vm_compute; reflexivity].
Defined.

(** The machine with another disk: nothing is cached yet. *)
Lemma cold_disk t s dk :
  fs_ok t ∅ ∅ s → Forall (λ x, b_dev x ≠ ROOT_DEV) (k_bufs s) →
  map_Forall (λ _ d, length d = Z.to_nat BLOCK_SIZE) dk → fs_ok t ∅ ∅ (set_k_disk dk s).
Proof.
  intros [A1 A2 [C1 C2 C3 C4 C5]] Hdev Hdk.
  split; [by eapply on_cpu_sim|exact A2|]. split; [exact C1| |exact C3|exact C4|exact Hdk].
  intros b x Hb Hx. destruct (C2 b x Hb Hx) as [B1 B2 B3 B4 B5 B6 B7]. split; [assumption..|].
  intros Hd. by destruct (Forall_lookup_1 _ _ _ _ Hdev Hx).
Qed.

Lemma booted_cold : Forall (λ x, b_dev x ≠ ROOT_DEV) (k_bufs booted).
Proof. apply (bool_decide_eq_true_1 _). vm_compute. reflexivity. Qed.

Lemma booted_log_fresh : log_fresh (k_log booted).
Proof. split; vm_compute; reflexivity. Qed.

(** The image of two files boots. *)
Lemma image_boots_witness : ∃ m,
  mkfs_image [(user_init, Some [1; 2; 3]); (readme, Some (replicate 2000 65))] = Ok tt m ∧
  eruns (world serves) (fs_init ROOT_DEV) (set_k_disk (fs_fd m) booted) (λ _ s',
    k_sb s' = layout ∧ k_disk s' = fs_fd m).
Proof.
  destruct (mkfs_image_spec [(user_init, [1; 2; 3]); (readme, replicate 2000 65)]) as (m & Hm & Hi).
  - by apply Nat.leb_le.
  - by repeat constructor.
  - by apply Z.leb_le.
  - exists m. split; [exact Hm|]. generalize booted booted_ok booted_cold booted_log_fresh. intros b Hb Hc Hf.
    eapply eruns_conseq.
    + apply (image_boots (world serves) demo_task _ (set_k_disk (fs_fd m) b) (le_n 2) demo_locks
        (cold_disk _ _ _ Hb Hc (im_len _ _ Hi)) Hf Hi).
    + intros [] s' (Hsb & _ & Hd). split; [exact Hsb|exact Hd].
Defined.

(** The inode table is empty, and its locks are there. *)
Lemma demo_inode_locks : inode_locks_of demo_task.
Proof. apply inode_locks_check, (bool_decide_eq_true_1 _). vm_compute. reflexivity. Qed.

Lemma booted_itable : itable_fresh booted.
Proof.
  split; [vm_compute; reflexivity|apply (bool_decide_eq_true_1 _); vm_compute; reflexivity|].
  assert (((λ i, k_slocks booted !! SlInode i) <$> seq 0 N_INODE) =
    replicate N_INODE (Some (mk_sleep_lock false (-1) "inode"))) as H by (vm_compute; reflexivity).
  revert H. generalize (k_slocks booted). intros sl H i Hi. exists "inode"%string. apply (f_equal (λ l, l !! i)) in H.
  rewrite list_lookup_fmap, lookup_replicate_2, lookup_seq_lt in H by done. by injection H.
Qed.

(** The image of two files: 1000 bytes of the second one, from byte 1500 on,
    are read by the path "/README". *)
Lemma image_read_witness : ∃ m,
  mkfs_image [(user_init, Some [1; 2; 3]); (readme, Some (replicate 2000 65))] = Ok tt m ∧
  eruns (world serves) (fs_init ROOT_DEV;; read_path (47 :: readme) 1500 1000) (set_k_disk (fs_fd m) booted)
    (λ r s', r = Some (500, slice 1500 500 (replicate 2000 65)) ∧ k_disk s' = fs_fd m).
Proof.
  destruct (mkfs_image_spec [(user_init, [1; 2; 3]); (readme, replicate 2000 65)]) as (m & Hm & Hi).
  - by apply Nat.leb_le.
  - by repeat constructor.
  - by apply Z.leb_le.
  - exists m. split; [exact Hm|]. generalize booted booted_ok booted_cold booted_log_fresh booted_itable.
    intros b Hb Hc Hf Ht. assert (itable_fresh (set_k_disk (fs_fd m) b)) as Ht' by (destruct Ht; by split).
    set (bytes := replicate 2000 65) in *. assert (Z.of_nat (length bytes) = 2000) as El by (unfold bytes; by rewrite length_replicate).
    clearbody bytes. set (files := [(user_init, [1; 2; 3]); (readme, bytes)]) in *.
    change readme with (entry_name files (1 + 2)). eapply eruns_conseq.
    + apply (image_read (world serves) demo_task files (set_k_disk (fs_fd m) b) 1 readme bytes 1500 1000
        (le_n 2) demo_locks demo_inode_locks (cold_disk _ _ _ Hb Hc (im_len _ _ Hi)) Hf Ht' Hi eq_refl); [|lia..].
      split; [|done|intros [|[|[|k]]] Hk; [done..|lia]].
      repeat constructor; apply (bool_decide_eq_true_1 _); reflexivity.
    + rewrite El. intros r s' (-> & Hd & _). split; [done|exact Hd].
Defined.

(** The walk along "/README" in the same image finds inode 3. *)
Lemma lookup_resolves_witness : ∃ m,
  mkfs_image [(user_init, Some [1; 2; 3]); (readme, Some (replicate 2000 65))] = Ok tt m ∧
  eruns (world serves) (lookup (47 :: readme) false) (set_k_sb layout (set_k_disk (fs_fd m) booted))
    (λ r s', ∃ i, r = (Some i, readme) ∧ names s' i 3 ∧ refs s' 3 = 1).
Proof.
  destruct (mkfs_image_spec [(user_init, [1; 2; 3]); (readme, replicate 2000 65)]) as (m & Hm & Hi).
  - by apply Nat.leb_le.
  - by repeat constructor.
  - by apply Z.leb_le.
  - exists m. split; [exact Hm|]. generalize booted booted_ok booted_cold booted_itable.
    intros b Hb Hc Ht. set (bytes := replicate 2000 65) in *. clearbody bytes. clear Hm.
    set (files := [(user_init, [1; 2; 3]); (readme, bytes)]) in *.
    set (s := set_k_sb layout (set_k_disk (fs_fd m) b)).
    assert (fs_ok demo_task ∅ ∅ s) as Hs.
    { destruct (cold_disk _ _ _ Hb Hc (im_len _ _ Hi)) as [A1 A2 A3]. split; [by eapply on_cpu_sim|exact A2|exact A3]. }
    assert (itable_fresh s) as Hf by (destruct Ht; by split).
    assert (nameable files 1) as Hn.
    { split; [|done|intros [|[|[|k]]] Hk; [done..|lia]]. repeat constructor; apply (bool_decide_eq_true_1 _); reflexivity. }
    destruct (resolve_file files _ Hi (seen s) (λ n, seen_clean demo_task s n Hs) 1 readme bytes eq_refl Hn) as [Hres Hok].
    change (entry_name files (1 + 2)) with readme in Hres, Hok. eapply eruns_conseq.
    + apply (lookup_resolves (world serves) demo_task ∅ s (47 :: readme) false ROOT_INO (le_n 2) demo_locks demo_inode_locks).
      * apply Nat.ltb_lt. reflexivity.
      * exact Hs.
      * apply fresh_ok; [exact Hf|discriminate|reflexivity].
      * apply fresh_room; [exact Hf|apply Nat.leb_le; reflexivity|reflexivity].
      * reflexivity.
      * exact Hok.
    + cbv zeta. change (k_sb s) with layout. rewrite Hres. intros [r name] s' (En & Hr & _ & _ & _ & _ & Rf). cbn [fst snd] in *.
      destruct r as [i|]; [|done]. exists i. subst name. split_and!; [reflexivity|exact Hr|]. rewrite (Rf 3), decide_True by done.
      by rewrite (fresh_refs s 3 Hf).
Defined.
