(* ===== verification/PipeExample.v ===== *)
(** A process with two pages of memory, a pipe whose bytes wrap around the end
    of the array and a console: the theorems on pipes and on the console at a
    concrete machine. *)

From S2P Require Import Prelude Mem State Machine Mm PageTable MmAlloc MmMap MmUser MmUvm MmInit MmTheorems Proc Sync Virtio Buf Log Inode Console Pipe FsData ProcTheorems Env PipeTheorems ConsoleTheorems VirtioTheorems DiskIntr BufList BufCache BufOps LogOps LogTheorems LogWrite FsExample.

(** Three bytes are in the pipe. *)
Definition demo_pipe : pipe :=
  mk_pipe 1023 2 true true (<[1023%nat := 97]> (<[0%nat := 98]> (<[1%nat := 99]> (replicate 1024 0)))).

(** The memory of the process is that of [small_proc]. *)
Definition piping_base : kstate :=
  final ((spin_lock_init LFreeList "free_list";; spin_lock_init (LPipe 64) "pipe";;
          spin_lock_init LCons "console";; spin_lock_init LPrintk "printk";;
          upd_proc 0 (set_p_page_table small_root)) booted) booted.
Definition piping : kstate :=
  set_k_mem (k_mem small_proc) (set_k_free (k_free small_proc) (set_k_pipes {[64 := demo_pipe]} piping_base)).
Definition piping_task : task := mk_task 0 1 small_root (dom (k_locks piping)).

Lemma piping_fields : k_mem piping = k_mem small_proc ∧ k_free piping = k_free small_proc ∧ k_pipes piping = {[64 := demo_pipe]}.
Proof. unfold piping. generalize (k_mem small_proc) (k_free small_proc) piping_base. done. Qed.
Lemma piping_locks : LPipe 64 ∈ t_locks piping_task ∧ LFreeList ∈ t_locks piping_task.
Proof. apply (bool_decide_unpack _). by vm_compute. Qed.

Lemma piping_idle : idle piping_task piping.
Proof. apply idle_check_sound. by vm_compute. Qed.

Lemma demo_pipe_ok : pipe_ok demo_pipe.
Proof. split; [by vm_compute|done|done|]. apply (bool_decide_unpack _). by vm_compute. Qed.

Lemma piping_at : ∃ fl N, pipe_at piping_task fl N 64 0 ∅ demo_pipe piping.
Proof.
  destruct small_proc_inv as (fl & N & Hok & _). exists fl, N.
  destruct piping_fields as (E1 & E2 & E3). split.
  - apply piping_idle.
  - destruct (umem_of_inv piping_task fl N small_proc) as [H1 H2 H3 H4 H5 H6]; [apply Hok..|].
    split; rewrite ?E1, ?E2; assumption.
  - rewrite E3. apply lookup_singleton_eq.
  - apply demo_pipe_ok.
Qed.

Lemma piping_alive : ∃ p0, k_procs piping !! t_proc piping_task = Some p0 ∧ p_killed p0 = false.
Proof.
  assert ((p_killed <$> k_procs piping !! t_proc piping_task) = Some false) as E by by vm_compute.
  destruct (k_procs piping !! t_proc piping_task) as [p0|]; [|done]. injection E as E. by exists p0.
Qed.

Lemma piping_mapped va :
  0 ≤ va < 8192 →
  is_Some (uaddr ureadable (k_mem piping) (t_pt piping_task) va) ∧
  is_Some (uaddr uwritable (k_mem piping) (t_pt piping_task) va).
Proof.
  intros Hva. destruct piping_fields as (-> & _). change (t_pt piping_task) with small_root.
  destruct (small_proc_writable va Hva) as [Hw (v & Hv & Hr)]. split; [|exact Hw].
  unfold uaddr. rewrite Hv. simpl. rewrite Hr. by eexists.
Qed.

Lemma piping_unmapped : uaddr uwritable (k_mem piping) (t_pt piping_task) 8192 = None.
Proof.
  destruct piping_fields as (-> & _). change (t_pt piping_task) with small_root.
  assert (pt_lookup (k_mem small_proc) small_root 8192 = None) as E by by vm_compute.
  unfold uaddr. rewrite E. reflexivity.
Qed.

Lemma pipe_fifo_witness : ∃ wr s',
  (w ← pipe_write 64 100 5; r ← pipe_read 64 4090 20; mret (w, r)) piping = Ok wr s' ∧ wr = (5, 8) ∧
  ubytes (k_mem s') small_root 4090 8 = take 8 (queue demo_pipe ++ ubytes (k_mem piping) small_root 100 5).
Proof.
  destruct piping_at as (fl & N & Hat). destruct piping_locks as [HL HF]. destruct piping_alive as (p0 & Hp & Hk).
  assert (0 < rounds)%nat as Hr by (by apply Nat.ltb_lt).
  edestruct (pipe_fifo piping_task fl N 64 demo_pipe piping p0 100 5 4090 20 Hr HL HF Hat)
    as (wr & s' & Hrun & Hwr & Hu & _);
    [reflexivity|exact Hp|exact Hk|reflexivity|reflexivity|by apply Z.leb_le|by apply Z.leb_le| |
     by apply Z.leb_le|by apply Z.leb_le|by apply Z.leb_le| |].
  - intros va Hva. apply piping_mapped. lia.
  - intros va Hva. apply piping_mapped. lia.
  - exists wr, s'. split; [exact Hrun|]. split; [exact Hwr|exact Hu].
Defined.

Lemma pipe_read_loses_witness : ∃ r s' x',
  pipe_read 64 8192 3 piping = Ok r s' ∧ r = 0 ∧ k_pipes s' !! 64 = Some x' ∧ queue demo_pipe = 97 :: queue x'.
Proof.
  destruct piping_at as (fl & N & Hat). destruct piping_locks as [HL HF].
  assert (0 < rounds)%nat as Hr by (by apply Nat.ltb_lt).
  edestruct (pipe_read_loses piping_task fl N 64 HL HF demo_pipe piping 8192 3 Hr Hat)
    as (r & s' & Hrun & Hr0 & x' & Hat' & _ & Hq);
    [by vm_compute|reflexivity|split; [by apply Z.leb_le|reflexivity]|apply piping_unmapped|].
  exists r, s', x'. split; [exact Hrun|]. split; [exact Hr0|]. split; [apply Hat'|]. rewrite Hq. by vm_compute.
Defined.

(** ** The console *)

(** A UART that is busy for two polls after each byte. *)
Definition busy_status (h : list uart_event) : Z :=
  match h with
  | Sent _ :: _ | Polled :: Sent _ :: _ => 0
  | _ => LSR_TX_IDLE
  end.
Definition busy_uart : Device := {|
  READ_REG := λ r, if r =? LSR then λ s, Ok (busy_status (k_uart s)) (set_k_uart (Polled :: k_uart s) s) else mret 0;
  WRITE_REG := λ r c, if r =? THR then λ s, Ok tt (set_k_uart (Sent c :: k_uart s) s) else mret tt;
  ECALL_SHUTDOWN := stuck PoweredOff |}.
Definition busy_uart_ok : @UartDevice busy_uart.
Proof.
  refine (@Build_UartDevice busy_uart busy_status 3%nat _ _ _); [done|done|]. intros h. exists 2%nat. split; [lia|done].
Defined.

Definition eight_rounds : Rounds := 8%nat.

Lemma piping_console : LCons ∈ t_locks piping_task ∧ LPrintk ∈ t_locks piping_task.
Proof. apply (bool_decide_unpack _). by vm_compute. Qed.
Lemma piping_cons : k_cons piping = mk_console (replicate 128 0) 0 0 0 ∧ k_panicked piping = false.
Proof. by vm_compute. Qed.
Lemma empty_cons_ok : cons_ok (mk_console (replicate 128 0) 0 0 0).
Proof. split; try done. apply (bool_decide_unpack _). by vm_compute. Qed.

