(* ===== verification/PrintfTheorems.v ===== *)
(** Formatted output of the user library (user/ulib.c) against that of the kernel
    (kernel/printk.c): the bytes that reach a descriptor and those that reach the
    UART. *)

From S2P Require Import Prelude Mem Strings State Machine Mm Proc Sync Console Virtio Buf Log Inode Pipe File Fork Exec Sysfile FsData ProcTheorems Env PipeTheorems ConsoleTheorems MmTheorems FsExample PipeExample ULib ULibTheorems.

Lemma console_bytes_text text : BACKSPACE ∉ text → text ≫= console_bytes = (λ c, u8 c) <$> text.
Proof.
  induction text as [|c text IH]; [done|]. intros [Hc Ht]%not_elem_of_cons. rewrite bind_cons, IH by done.
  unfold console_bytes. by rewrite (proj2 (Z.eqb_neq c BACKSPACE)).
Qed.

(** ** Properties *)

(** C38: [printf] and [dprintf] of the user library write the bytes that the
    kernel's [printk] sends to the UART for the same format and arguments, in
    order, whatever digits, flags and strings are printed; nothing but the
    output changes, and the result is the length of the format.  The arguments
    have the types that the format asks for, and no '%c' is given the number
    256, which [console_putc] takes for the delete key. *)
Theorem vdprintf_printk `{DV : Device} `{UD : !UartDevice} {W} `{OS : Os W} `{RN : Rounds}
    t n held fmt args vargs text k fd (s : ustate W) :
  (uart_bound ≤ rounds)%nat → LPrintk ∈ t_locks t → on_cpu t n held k → LPrintk ∉ held → 0 ≤ n → n + 2 < 2 ^ 30 →
  k_panicked k = false → bytes_ok (u_mem s) → Forall2 (uarg_val (u_mem s)) args vargs →
  printk_text (S (length (bytes fmt))) (bytes fmt) vargs = Some text → BACKSPACE ∉ text →
  ∃ out,
    runs (printk fmt vargs) k (λ _ k', uart_sent (k_uart k') = uart_sent (k_uart k) ++ out) ∧
    runs (vdprintf fd fmt args) s (λ r s', r = s32 (Z.of_nat (length (bytes fmt))) ∧
      ∃ ws, outputs fd ws s s' ∧ concat ws = out).
Proof.
  intros Hr HL Hk Hh Hn0 Hn Hp Hm Ha Ht Hb. exists (text ≫= console_bytes). split.
  - kcall (printk_sends Hr t HL n held fmt vargs text k Hk Hh Hn0 Hn Hp Ht). by intros [] k' [_ U].
  - rewrite console_bytes_text by done. exact (vdprintf_spec fd fmt args vargs text s Hm Ha Ht).
Qed.

(** "x=%d %s" with -7 and "ok". *)
Lemma vdprintf_printk_witness : ∃ out k' r (s' : ustate recorder) ws,
  @printk busy_uart eight_rounds "x=%d %s" [VWord (-7); VStr (Some [111; 107])] piping = Ok tt k' ∧
  uart_sent (k_uart k') = uart_sent (k_uart piping) ++ out ∧
  @vdprintf recorder _ eight_rounds 1 "x=%d %s" [UInt (-7); UStr [111; 107]] empty_user = Ok r s' ∧ r = 7 ∧
  outputs 1 ws empty_user s' ∧ concat ws = out.
Proof.
  destruct piping_at as (fl & N & [Hat _ _ _]). destruct piping_console as [_ HP]. destruct piping_cons as [_ Hp].
  destruct (@vdprintf_printk busy_uart busy_uart_ok recorder _ eight_rounds piping_task 0 ∅ "x=%d %s"
    [UInt (-7); UStr [111; 107]] [VWord (-7); VStr (Some [111; 107])] (bytes "x=-7 ok") piping 1 empty_user)
    as (out & ([] & k' & H1 & H2) & (r & s' & H3 & H4 & ws & H5 & H6)).
  - apply Nat.leb_le. reflexivity.
  - exact HP.
  - exact Hat.
  - apply not_elem_of_empty.
  - reflexivity.
  - reflexivity.
  - exact Hp.
  - intros a. vm_compute. split; [discriminate|reflexivity].
  - repeat constructor; vm_compute; discriminate || reflexivity.
  - vm_compute. reflexivity.
  - apply (bool_decide_unpack _). vm_compute. exact I.
  - exists out, k', r, s', ws. split; [exact H1|]. split; [exact H2|]. split; [exact H3|]. split; [|split; [exact H5|exact H6]].
    rewrite H4. vm_compute. reflexivity.
Defined.
