(* ===== verification/FileExample.v ===== *)
(** A disk with one file, open for writing and for reading, and a process with
    two pages of memory: the theorems on open files at a concrete machine. *)

From S2P Require Import Prelude Mem State Machine Mm PageTable MmAlloc MmMap MmUser MmUvm MmInit MmTheorems Proc Sync Virtio Buf Log Inode Pipe File FsData ProcTheorems Env PipeTheorems VirtioTheorems DiskIntr BufList BufCache BufOps LogOps LogTheorems LogWrite InodeRead InodeTable InodeDir BlockMap InodeAlloc InodeWrite FileTheorems FsBoot ImageRead FsExample PipeExample.

(** The log is at block 2, the inodes are in block 32, the bitmap is block 33. *)
Definition desk_sb : super_block := mk_super_block BLOCK_SIZE LOG_SIZE 1 8192 2 31 32 33 34.

(** Inode 1 has 5 bytes in block 34. *)
Definition desk_inode : d_inode := mk_d_inode FT_FILE 0 0 1 5 (34 :: replicate 12 0).
Definition desk_disk : disk :=
  <[32 := put_dinode desk_inode 1 zero_block]> (<[33 := set_bit 0 zero_block]> (<[34 := [104; 101; 108; 108; 111] ++ replicate 1019 0]> ∅)).

(** Files 0 and 1 are open on it through entry 7, at byte 3. *)
Definition desk_files : list file :=
  [mk_file FD_INODE false true 1 (Some 7%nat) 0 3 0; mk_file FD_INODE true false 1 (Some 7%nat) 0 3 0].
Definition desk_entry : m_inode := mk_m_inode ROOT_DEV 1 2 false 0 0 0 0 0 [].
Definition desk_base : kstate := set_k_files desk_files (set_k_sb desk_sb (set_k_disk desk_disk piping)).
Definition desk : kstate := set_k_inodes (<[7%nat := desk_entry]> (k_inodes desk_base)) desk_base.

Abbreviation on_desk := (block (k_disk desk)).

(** ** The parts of the state *)

Lemma desk_fields : k_files desk = desk_files ∧ k_mem desk = k_mem piping ∧ k_free desk = k_free piping.
Proof. unfold desk, desk_base. generalize piping. done. Qed.

Lemma desk_ok : fs_ok piping_task ∅ ∅ desk.
Proof. apply fs_check_sound. vm_compute. reflexivity. Qed.

Lemma desk_quiet : quiet piping_task 2 desk.
Proof. split; [exact desk_ok|split; vm_compute; reflexivity|vm_compute; reflexivity..]. Qed.

Lemma desk_geometry : geometry 2 (k_sb desk).
Proof. split; vm_compute; split; try split; done. Qed.

Lemma piping_fs_locks : fs_locks piping_task.
Proof. apply fs_locks_check, (bool_decide_eq_true_1 _). vm_compute. reflexivity. Qed.
Lemma piping_inode_locks : inode_locks_of piping_task.
Proof. apply inode_locks_check, (bool_decide_eq_true_1 _). vm_compute. reflexivity. Qed.

(** Inode 1 is the only one that has a block. *)
Lemma desk_addrs n : inum desk_sb n → disk_addrs desk_sb on_desk n = if decide (n = 1) then 34 :: replicate 12 0 else replicate 13 0.
Proof.
  intros Hn. assert (Forall (λ n, disk_addrs desk_sb on_desk n = if decide (n = 1) then 34 :: replicate 12 0 else replicate 13 0) (seqZ 1 15)) as H
    by (apply (bool_decide_eq_true_1 _); vm_compute; reflexivity).
  rewrite Forall_forall in H. apply H, elem_of_seqZ. unfold inum in Hn. change (sb_n_inode_blks desk_sb * IPB) with 16 in Hn. lia.
Qed.

Lemma desk_free : (8 ≤ free_blocks (k_sb desk) on_desk)%nat.
Proof. apply Nat.leb_le. vm_compute. reflexivity. Qed.

Lemma default_zeros n k : default 0 (replicate n 0 !! k) = 0.
Proof. destruct (replicate n 0 !! k) as [v|] eqn:E; [|done]. by apply lookup_replicate in E as [-> _]. Qed.

Lemma paddr_zeros f p : paddr f (replicate 13 0) p = 0.
Proof. destruct p as [j|q]; cbn [paddr]; [|apply default_zeros]. unfold ind_of. rewrite !default_zeros. by destruct (j <? N_DIRECT). Qed.

Lemma paddr_one f p : pos_ok p → paddr f (34 :: replicate 12 0) p = if decide (p = PBlk 0) then 34 else 0.
Proof.
  assert (∀ k, 0 < k → default 0 ((34 :: replicate 12 0) !! Z.to_nat k) = 0) as Hz.
  { intros k Hk. replace (Z.to_nat k) with (S (Z.to_nat (k - 1))) by lia. apply default_zeros. }
  destruct p as [j|q]; cbn [pos_ok paddr]; intros Hp.
  - destruct (decide (PBlk j = PBlk 0)) as [[= ->]|Hj]; [done|]. assert (j ≠ 0) by congruence. unfold ind_of.
    destruct (Z.ltb_spec j N_DIRECT); [apply Hz; lia|]. rewrite Hz; [done|]. fs_lia.
  - rewrite decide_False by done. apply Hz. fs_lia.
Qed.

Lemma desk_paddr n p :
  inum desk_sb n → pos_ok p →
  paddr on_desk (disk_addrs desk_sb on_desk n) p = if decide (n = 1 ∧ p = PBlk 0) then 34 else 0.
Proof.
  intros Hn Hp. rewrite desk_addrs by done. destruct (decide (n = 1)) as [->|Hne].
  - rewrite paddr_one by done. by repeat case_decide; try tauto.
  - rewrite paddr_zeros, decide_False by tauto. done.
Qed.

Lemma desk_wf : wf (k_sb desk) on_desk (disk_addrs (k_sb desk) on_desk).
Proof.
  change (k_sb desk) with desk_sb. split.
  - intros n Hn. rewrite desk_addrs by done. by case_decide.
  - intros n p Hn Hp. rewrite desk_paddr by done. case_decide; [|done]. intros _. split; [|by vm_compute].
    unfold in_area. change (sb_data_start desk_sb) with 34. change (Z.of_nat BITS) with 8192. lia.
  - intros n n' p p' Hn Hn' Hp Hp'. rewrite !desk_paddr by done. case_decide as D; [|done]. destruct D as [-> ->].
    case_decide as D; [by destruct D as [-> ->]|done].
Qed.

(** One entry of a fresh table is in use. *)
Lemma fresh_open t s i x y :
  itable_fresh s → k_inodes s !! i = Some x → i_dev y = ROOT_DEV → 0 ≤ i_ino y < 2 ^ 16 → 0 < i_refcnt y < 2 ^ 31 → i_valid y = false →
  0 ≤ sb_inode_start (k_sb s) → sb_inode_start (k_sb s) + 2 ^ 12 < 2 ^ 31 →
  itable_ok t ∅ (set_k_inodes (<[i := y]> (k_inodes s)) s).
Proof.
  intros Hf Hx Hd Hi Hr Hv H1 H2. destruct (fresh_ok t s Hf H1 H2) as [T1 T2 T3 T4 T5].
  split; cbn [k_inodes set_k_inodes]; [by rewrite length_insert| | |done|done].
  - apply Forall_insert; [done|]. split; [lia|done|done|]. intros _ E. by rewrite E in Hv.
  - apply (uniq_replace _ _ x); [done|done|]. intros _. right. by apply fresh_refs.
Qed.

Lemma desk_fresh : itable_fresh desk_base.
Proof.
  destruct booted_itable as [F1 F2 F3].
  assert (k_inodes desk_base = k_inodes booted ∧ k_slocks desk_base = k_slocks booted) as [E1 E2].
  { unfold desk_base, piping, piping_base. generalize booted (k_mem small_proc) (k_free small_proc). done. }
  split; rewrite ?E1, ?E2; done.
Qed.

Lemma desk_table : itable_ok piping_task ∅ desk.
Proof.
  destruct (lookup_lt_is_Some_2 (k_inodes desk_base) 7) as [x Hx]; [rewrite (tf_len _ desk_fresh); unfold N_INODE; lia|].
  apply (fresh_open _ _ _ x); [exact desk_fresh|exact Hx|done..].
Qed.

Lemma desk_inums : Forall (λ x, live x → inum (k_sb desk) (i_ino x)) (k_inodes desk).
Proof.
  change (k_inodes desk) with (<[7%nat := desk_entry]> (k_inodes desk_base)). apply Forall_insert.
  - eapply Forall_impl; [apply desk_fresh|]. cbn beta. intros x -> ?. lia.
  - intros _. by vm_compute.
Qed.

Lemma desk_rest : fs_rest piping_task 2 desk.
Proof. split; [exact desk_quiet|exact desk_table|exact desk_inums|exact desk_geometry|exact desk_wf]. Qed.

Lemma desk_names : names desk 7 1.
Proof.
  exists desk_entry. split; [|done]. change (k_inodes desk) with (<[7%nat := desk_entry]> (k_inodes desk_base)).
  apply list_lookup_insert_eq. rewrite (tf_len _ desk_fresh). unfold N_INODE. lia.
Qed.

Lemma desk_regular : regular on_desk (k_sb desk) 1.
Proof.
  assert (on_disk on_desk (k_sb desk) 1 = desk_inode) as E by (vm_compute; reflexivity).
  revert E. generalize on_desk. intros f E. split; rewrite E; [done| |].
  - split; [by vm_compute..|]. repeat constructor; by vm_compute.
  - split; [done|done|]. intros j H0 H1. change (di_size desk_inode) with 5 in H1. unfold BLOCK_SIZE in H1.
    assert (j = 0) as -> by lia. split; done.
Qed.

Lemma desk_open fd x : desk_files !! fd = Some x → open_on desk fd x 7 1 3.
Proof.
  intros Hx. destruct desk_fields as (E & _). assert (x ∈ desk_files) as Hin by by eapply list_elem_of_lookup_2.
  split; [by rewrite E|..|exact desk_names]; clear -Hin; unfold desk_files in Hin;
    repeat (apply elem_of_cons in Hin as [->|Hin]; [done|]); by apply not_elem_of_nil in Hin.
Qed.

Definition desk_out : file := mk_file FD_INODE false true 1 (Some 7%nat) 0 3 0.
Definition desk_in : file := mk_file FD_INODE true false 1 (Some 7%nat) 0 3 0.

Lemma desk_callable : ∃ fl N, callable piping_task 2 desk fl N 0 desk_out 7 1 3.
Proof.
  destruct piping_at as (fl & N & [_ Hu _ _]). destruct desk_fields as (_ & E1 & E2). exists fl, N.
  split; [exact desk_rest|exact (umem_ext _ _ _ piping desk E1 E2 Hu)|exact (desk_open 0 desk_out eq_refl)|exact desk_regular|].
  assert (di_size (on_disk on_desk (k_sb desk) 1) = 5) as -> by (vm_compute; reflexivity). clear. lia.
Qed.

Lemma desk_range p va n :
  p = ureadable ∨ p = uwritable → 0 ≤ va → va + n ≤ 8192 → user_range p piping_task (k_mem desk) va n.
Proof.
  intros Hp H0 H1. destruct desk_fields as (_ & E & _). split_and!; [done|addr_lia|]. rewrite E. intros a Ha.
  assert (0 ≤ a < 8192) as Ha' by lia. destruct (piping_mapped a Ha'). by destruct Hp as [->| ->].
Qed.

Lemma desk_blocks n : 0 < n ≤ 4000 → (2 * Z.to_nat (begun 3 n) ≤ free_blocks (k_sb desk) on_desk)%nat.
Proof.
  intros Hn. pose proof desk_free as Hf. assert (begun 3 n ≤ 4) by (unfold begun, BLOCK_SIZE; Z.to_euclidean_division_equations; lia). lia.
Qed.

(** ** The theorems on this machine *)

(** 2000 bytes of the first page are written at byte 3. *)
Lemma file_write_atomic_witness :
  fs_rest piping_task 2 desk ∧
  eruns (world serves) (file_write 0 100 2000) desk (λ r s', r = 2000 ∧
    idata (block (k_disk s')) (k_sb desk) 1 =
    splice 3 (ubytes (k_mem desk) small_root 100 2000) (idata on_desk (k_sb desk) 1)).
Proof.
  split; [exact desk_rest|]. destruct desk_callable as (fl & N & Hc). eapply eruns_conseq.
  - apply (file_write_atomic (world serves) piping_task piping_fs_locks piping_inode_locks (le_n 2) 2
      desk fl N 0 desk_out 7 1 3 100 2000 Hc eq_refl).
    + unfold BLOCK_SIZE. clear. lia.
    + apply Z.leb_le. reflexivity.
    + apply desk_blocks. clear. lia.
    + apply desk_range; [left; reflexivity|clear; lia..].
  - intros r s' [-> W]. destruct W as (_ & _ & _ & _ & _ & _ & _ & addrs & W & Rw & _).
    split; [reflexivity|exact (rw_data _ _ _ _ _ _ Rw)].
Defined.

(** 4000 bytes: the call fails, and the bytes are in the file. *)
Lemma file_write_too_long_witness :
  fs_rest piping_task 2 desk ∧
  eruns (world serves) (file_write 0 100 4000) desk (λ r s', r = -1 ∧
    idata (block (k_disk s')) (k_sb desk) 1 =
    splice 3 (ubytes (k_mem desk) small_root 100 4000) (idata on_desk (k_sb desk) 1)).
Proof.
  split; [exact desk_rest|]. destruct desk_callable as (fl & N & Hc). eapply eruns_conseq.
  - apply (file_write_too_long (world serves) piping_task piping_fs_locks piping_inode_locks (le_n 2) 2
      desk fl N 0 desk_out 7 1 3 100 4000 Hc eq_refl).
    + unfold BLOCK_SIZE. clear. lia.
    + apply Z.leb_le. reflexivity.
    + apply desk_blocks. clear. lia.
    + apply desk_range; [left; reflexivity|clear; lia..].
  - intros r s' [-> W]. destruct W as (_ & _ & _ & _ & _ & _ & _ & addrs & W & Rw & _).
    split; [reflexivity|exact (rw_data _ _ _ _ _ _ Rw)].
Defined.

Lemma file_write_fits_witness :
  fs_rest piping_task 2 desk ∧
  eruns (world serves) (begin_op;; ilock 7;; writei 7 true 100 [] 3 3072) desk (λ r s', r = 3072 ∧ 0 ≤ lh_n (k_log s') ≤ MAX_OP_BLKS).
Proof.
  split; [exact desk_rest|]. destruct desk_callable as (fl & N & Hc).
  apply (file_write_fits (world serves) piping_task piping_fs_locks piping_inode_locks (le_n 2) 2
      desk fl N 0 desk_out 7 1 3 100 3072 Hc).
  - unfold BLOCK_SIZE. clear. lia.
  - apply Z.leb_le. reflexivity.
  - apply desk_blocks. clear. lia.
  - apply desk_range; [left; reflexivity|clear; lia..].
Defined.

(** The bytes written through file 0 are read through file 1. *)
Lemma file_write_read_witness :
  fs_rest piping_task 2 desk ∧
  eruns (world serves) (w ← file_write 0 100 2000; r ← file_read 1 4000 2000; mret (w, r)) desk (λ wr s', wr = (2000, 2000) ∧
    fs_rest piping_task 2 s' ∧ ubytes (k_mem s') small_root 4000 2000 = ubytes (k_mem desk) small_root 100 2000).
Proof.
  split; [exact desk_rest|]. destruct desk_callable as (fl & N & Hc). destruct piping_locks as [_ HF].
  apply (file_write_read (world serves) piping_task piping_fs_locks piping_inode_locks (le_n 2) 2
      desk fl N 0 desk_out 1 desk_in 7 1 3 100 2000 4000 HF Hc eq_refl).
  - unfold BLOCK_SIZE. clear. lia.
  - apply Z.leb_le. reflexivity.
  - apply desk_blocks. clear. lia.
  - apply desk_range; [left; reflexivity|clear; lia..].
  - discriminate.
  - exact (desk_open 1 desk_in eq_refl).
  - reflexivity.
  - apply desk_range; [right; reflexivity|clear; lia..].
Defined.
